(* ===== verification/_CoqProject ===== *)
-Q . S2P
Prelude.v
NvnetState.v
Checksum.v
NvnetRx.v
NvnetFrames.v
NvnetProxy.v
NvnetProxySpec.v
NvnetProxyRuns.v
NvnetDev.v
NvnetDevSpec.v
NvnetDevRuns.v
Swizzle.v
S3tc.v
Smbus.v
SmbusSpec.v
SmbusDevices.v
AmdSmbus.v
AmdSmbusSpec.v
SmbusXbox.v
Sha1.v
Rc4.v
Eeprom.v
Lpc47m157.v
Nv2aRegs.v
KelvinRegs.v
Float32.v
Nv2a.v
Nv2aSpec.v
Pgraph.v
Pfifo.v
PfifoSpec.v
PfifoRuns.v
PgraphSpec.v
Kelvin.v
KelvinMethods.v
KelvinTable.v
KelvinSpec.v
KelvinVertex.v
KelvinDraw.v
KelvinSafe.v
KelvinExample.v
NvExample.v
DspArith.v
DspCore.v
DspAlu.v
DspMove.v
DspInsn.v
DspExec.v
DspSafe.v
DspSafeInsn.v
DspSafeExec.v
Dsp.v
DspDma.v
DspSpec.v
DspDmaSpec.v
Apu.v
ApuSafe.v
ApuSpec.v
ApuExample.v
