(* ===== verification/Prelude.v ===== *)
(** * Verified models of the Xbox devices of xemu

    xemu emulates the original Xbox on top of QEMU.  The guest talks to its devices by
    reads and writes of registers and by descriptors in memory; the devices talk to
    the host by sockets, files and random numbers.  This library models devices of
    hw/xbox and the code they share, and proves what the guest and the host can rely
    on.  Names are those of the source; the sources are under src/xemu-source.

    ** The program and the files

    - [Prelude]: machine integers with their wrap-around, byte buffers, record update,
      and the monad [M] in which all code is written: a state, and a fault for a failed
      assertion, an access outside an object, a division by zero, an undefined shift, the
      end of the process, or the end of the fuel of a loop.  [wpE], [preserves], [keeps] and the [run_] equations are how programs
      are reasoned about; the databases [frame], [width], [bits], [bytes] and [buf]
      and the tactics beside them automate it.
    - The network controller, hw/xbox/mcpx/nvnet/nvnet.c.  [NvnetState] has its state,
      registers and interrupt; [Checksum] the Internet checksums; [NvnetRx] the
      receive ring, DMA and filter; [NvnetFrames] the layout of the frames the proxy
      builds; [NvnetProxy] the proxy that replaces QEMU's network (ARP, DHCP, UDP and
      TCP relay, inbound connections), with [NvnetProxySpec] for its invariants and
      [NvnetProxyRuns] for its behaviour; [NvnetDev] transmission, the register and
      I/O handlers, PHY, link, reset and migration, with [NvnetDevSpec] for the
      invariant of the whole machine and [NvnetDevRuns] for its behaviour.  The
      machine is a step relation over the events of the guest and the host.
    - The graphics chip, hw/xbox/nv2a.  [Nv2aRegs] and [KelvinRegs] are its constants.
      [Nv2a] has the state of the chip and the register blocks behind its BAR (nv2a.c,
      pmc.c, pbus.c, pfb.c, pcrtc.c, pramdac.c, ptimer.c, pvideo.c, user.c and the
      rest) with the instance memory mapped beside them, the interrupt summary and
      line, the vertical blank and reset, and the registers of PFIFO and PGRAPH; [Nv2aSpec] proves what holds of any sequence of
      accesses.  [Pgraph] has the dispatch of methods (pgraph/pgraph.c), the 2D classes
      and the two wrappers by which the table of the 3D class takes several words at a
      time; the table is the class [Engine] there, with the laws [EngineLaws].
      [Pfifo] has the pusher, the puller and the hash table of objects (pfifo.c);
      [PfifoSpec] says what a push buffer means, [PgraphSpec] that a batch does what its
      words do one by one, and [PfifoRuns] that the pusher executes push buffers.
      The 3D class fills the parameter: [Kelvin] has its state and helpers (with
      pgraph/vertex.c), [KelvinMethods] the handlers, [KelvinTable] the table
      (methods.h.inc), the instance of [Engine] and the null renderer, on the
      single-precision numbers of [Float32].  [KelvinSpec] discharges [EngineLaws];
      [KelvinVertex], [KelvinDraw] and [KelvinSafe] are about immediate mode, draws by
      index and memory safety.  The renderers are the class [Renderer], with the laws
      [RendererLaws] and [RendererSafe]; the null renderer satisfies both.
      [KelvinExample] and [NvExample] run the whole on concrete states.
    - The audio unit, hw/xbox/mcpx/apu.  Its two DSP56300 processors are interpreted:
      [DspArith] has their 56-bit arithmetic, [DspCore] the state, memories, hardware
      stack and addressing (dsp/dsp_cpu.c and the start of dsp/dsp_emu.c.inc), [DspAlu],
      [DspMove] and [DspInsn] the arithmetic, the parallel moves and the other
      instructions (dsp_emu.c.inc), [DspExec] the opcode table with its two caches, the
      step and the interrupts.  The core reaches the peripherals by the class
      [Peripherals]; [Dsp] has them, with the DMA engine (dsp.c, dsp_dma.c), whose outside
      is the class [DmaPort].  [Apu] has the instances of that class for the two
      processors, the registers, windows, scatter-gather, FIFOs and frames (apu.c,
      dsp/gp_ep.c).  [DspSafe], [DspSafeInsn], [DspSafeExec], [DspDma] and [ApuSafe] prove
      memory safety layer by layer, [DspSpec], [DspDmaSpec] and [ApuSpec] what the
      operations compute; [ApuExample] evaluates them on concrete states.
    - Textures of the graphics chip: [Swizzle] for hw/xbox/nv2a/pgraph/swizzle.c and
      [S3tc] for s3tc.c beside it.
    - The SMBus.  [Smbus] has the I2C bus of hw/i2c/core.c, the slave state machine of
      smbus_slave.c and the master commands of smbus_master.c, and the abstract bus on
      which a command is one step; the commands are written against the class
      [SMBusMaster], of which both are instances.  [SmbusSpec] proves each command on
      the concrete bus to simulate the abstract one.  [SmbusDevices] has the devices on
      the bus: the system management controller (smbus_xbox_smc.c), the temperature
      sensor (smbus_adm1032.c), three video encoders and the EEPROM
      (smbus_storage.c).  [AmdSmbus] has the host controller (amd_smbus.c), and
      [AmdSmbusSpec] its simulation and safety for any devices that satisfy the
      classes [SMBusLaws] and [SMBusSafe]; [SmbusXbox] shows that the Xbox devices do,
      and composes the parts.
    - The EEPROM image.  [Eeprom] for hw/xbox/eeprom_generation.c, on top of [Sha1]
      (util/sha1.c) and [Rc4] (util/rc4.c).
    - The Super I/O chip: [Lpc47m157] for hw/xbox/lpc47m157.c.

    ** What the theorems show

    - Network controller: in every reachable machine the state is well formed, no
      interrupt is lost and no loop runs out of its fuel; packets are received, and
      with the proxy off gathered and sent, as the descriptors say, and nothing but
      the named registers and memory changes; the proxy keeps its tables
      consistent, builds well-formed frames, answers ARP and DHCP, relays TCP and UDP,
      and lets nothing through to QEMU's network while it is on.  The checksum loops
      compute RFC 1071.
    - Graphics chip: any accesses to its registers keep its state well typed and the
      summary of interrupts and the line as the blocks say, and stop only where they are
      said to.  The pusher, with its register state, its batches and the look-ahead,
      delivers to the engine exactly the words of the methods on the path of the push
      buffer, jumps, calls and returns included.  The methods of the 3D class stay in
      the bounds of their arrays, but for the cases listed in [may_stop]; the buffers of
      immediate mode, filled on demand, hold the vertices of a reference that stores
      each vertex in full; draws append the vertices they name.
    - Audio unit: whatever the guest and the programs of the DSPs do, all accesses stay
      inside the arrays of registers, buffers and memory, and the sound card gets whole
      frames in order, as long as the [int] that counts frames does not overflow and the
      voice processor keeps to its part; multiply and accumulate, circular buffers, the hardware stack and the opcode
      table do what they stand for, and the caches of opcodes cannot be observed; words
      sent by the DMA engine come back, and FIFOs are written in a circle.
    - Textures: the incremental offsets of the swizzle loops interleave the bits of the
      coordinates, and unswizzling inverts swizzling; decompression stays in bounds and
      gives the texels of the formats.
    - SMBus: the host controller with the bus and its slaves refines the controller on
      the abstract bus; no access of the guest stops the machine while the [int] that
      counts reads of the version does not overflow; transactions complete; registers and EEPROM bytes written through the ports read back.
    - EEPROM image: the hash is SHA-1 of FIPS 180-4, the cipher is inverted by itself,
      and a generated image passes the checks of the console.
    - Super I/O: the state stays well typed, the accesses that stop the machine are
      exactly described, and programming moves the serial ports.

    ** Parameters, bounds and fuel

    Code outside the sources is a parameter: the calls to host sockets and clocks
    (class [HostOS] of [NvnetState]), the contents of fresh memory, the random source,
    host files, the memory accesses [ldl_le_phys] and [stl_le_phys] and the mixed voices of a
    frame (arguments in [Apu]), the VGA core of QEMU (class [VGACommon] of [Nv2a]), and the renderer with
    the emulator of transform programs, a submodule (class [Renderer] of [Kelvin]).
    Their laws are hypotheses stated beside them, with instances that satisfy them in the
    witnesses.  Loops without a structural bound take fuel: the
    transmit loop one more than the size of its ring, the DHCP option walk the size of
    the packet, the mask loop of the swizzle code 33 bits, the padding loop of SHA-1 one
    block, the hash of a handle its 32 bits; the theorems show that these suffice.  The
    loop of the pusher may never end, for a push buffer that jumps in a circle; for one
    whose path reaches the end its theorem gives a fuel that suffices, as any larger one.
    The loops of scatter-gather and of the circular transfers of the audio unit take the
    number of bytes as fuel, which suffices when each turn moves one.  A chain of DMA blocks
    that is a circle and a DSP program that never waits do not end in the code either; their
    fuel is an argument, and running out of it is among the outcomes that the safety
    theorems name.
    Sizes in the texture theorems are bounded so that the offsets fit the [int]s of the
    code.  The threads of the graphics chip and of the audio unit take turns: a turn of a
    thread and an access of the guest do not interleave.

    ** Not modelled

    The object model of QEMU (realize, class and snapshot tables, apart from the parts
    with behaviour) and tracing.  The OpenGL and Vulkan renderers of the graphics chip
    and the generators of their shaders, whose effects are in the drivers they call;
    its construction, the choice of a renderer and the waits for its thread.  The
    voice processor of the audio unit, which mixes in floating point, the disassembler of
    its DSPs, the pacing of its thread and AC97; the USB input devices, the PCI and ACPI wiring, the user interface and
    the QEMU core the devices plug into: they are large or drive host libraries, and
    what the modelled code calls of them is modelled where it is called.  The
    asynchronous calls of hw/i2c/core.c and the serial cores behind the Super I/O chip are left out as well. *)

From Stdlib Require Export ZArith Lia Btauto.
From stdpp Require Export base numbers list option gmap.

#[global] Open Scope Z_scope.

(** ** Bit operations, in a scope of their own *)

Declare Scope c_scope.
Delimit Scope c_scope with C.
Infix "&&&" := Z.land (at level 40, left associativity) : c_scope.
Infix "|||" := Z.lor (at level 50, left associativity) : c_scope.
Infix "^^^" := Z.lxor (at level 45, left associativity) : c_scope.
Infix "<<<" := Z.shiftl (at level 35) : c_scope.
Infix ">>>" := Z.shiftr (at level 35) : c_scope.
#[global] Open Scope c_scope.

(** ** Record update: [r <| field := v |>] and [r <| field ::= f |>]

    A record type declares its eta-expansion once; the updater of a field is
    then read off that expansion. *)

Class EtaRecord (R : Type) := eta_record : R → R.
Class FieldUpdate {R E : Type} (proj : R → E) := field_update : (E → E) → R → R.

Ltac head_of t := lazymatch t with ?f _ => head_of f | _ => t end.
Ltac solve_field_update :=
  lazymatch goal with
  | |- @FieldUpdate ?R ?E ?proj =>
      let e := constr:(@eta_record R _) in
      let e' := eval cbv beta delta [eta_record] in e in
      let inst := head_of e' in
      let e'' := eval cbv beta delta [inst] in e' in
      lazymatch (eval pattern proj in e'') with
      | ?ctx _ =>
          exact (fun (f : E → E) (r : R) =>
                   ltac:(let t := eval cbv beta in (ctx (fun x => f (proj x)) r) in exact t))
      end
  end.

#[global] Hint Extern 1 (@FieldUpdate _ _ _) => solve_field_update : typeclass_instances.

Notation "r <| p := v |>" := (field_update (proj := p) (fun _ => v) r)
  (at level 1, left associativity, p at level 200) : c_scope.
Notation "r <| p ::= f |>" := (field_update (proj := p) f r)
  (at level 1, left associativity, p at level 200) : c_scope.

(** ** Machine integers

    An unsigned integer of width [w] is a [Z] in [0, 2^w); [uN] is C's
    conversion to the unsigned type of that width. *)

Definition u8 (x : Z) : Z := x mod 2 ^ 8.
Definition u16 (x : Z) : Z := x mod 2 ^ 16.
Definition u32 (x : Z) : Z := x mod 2 ^ 32.
Definition u64 (x : Z) : Z := x mod 2 ^ 64.

(** Conversion to [int]. *)
Definition s32 (x : Z) : Z := (x + 2 ^ 31) mod 2 ^ 32 - 2 ^ 31.
Definition s16 (x : Z) : Z := (x + 2 ^ 15) mod 2 ^ 16 - 2 ^ 15.

(** C's [~] on [uint32_t] and [uint16_t] operands. *)
Definition not32 (x : Z) : Z := u32 (Z.lnot x).
Definition not16 (x : Z) : Z := u16 (Z.lnot x).

(** C's truth value of an integer. *)
Definition truthy (x : Z) : bool := negb (x =? 0).

Definition is_u8 (x : Z) : Prop := 0 ≤ x < 2 ^ 8.
Definition is_u16 (x : Z) : Prop := 0 ≤ x < 2 ^ 16.
Definition is_u32 (x : Z) : Prop := 0 ≤ x < 2 ^ 32.

(** [ctz32] of include/qemu/host-utils.h. *)
Fixpoint pos_ctz (p : positive) : Z :=
  match p with
  | xO q => 1 + pos_ctz q
  | _ => 0
  end.

Definition ctz32 (v : Z) : Z :=
  match v with
  | Zpos p => pos_ctz p
  | _ => 32
  end.

(** The field macros shared by the NV2A and MCPX sources. *)
Definition GET_MASK (v mask : Z) : Z := (v &&& mask) >>> ctz32 mask.

Definition SET_MASK (v mask val : Z) : Z :=
  (v &&& not32 mask) ||| (u32 (u32 val <<< ctz32 mask) &&& mask).

(** ** Updates of an element of a list *)

Lemma list_alter_same {A} (f g : A → A) i (l : list A) :
  (∀ x, l !! i = Some x → f x = g x) → alter f i l = alter g i l.
Proof.
  intros H. apply list_eq. intros j. destruct (decide (j = i)) as [->|]; [|by rewrite !list_lookup_alter_ne].
  rewrite !list_lookup_alter_eq. destruct (l !! i) as [x|] eqn:E; [|done]. cbn. f_equal. by apply H.
Qed.
Lemma list_alter_none {A} (f : A → A) i (l : list A) : (∀ x, l !! i = Some x → f x = x) → alter f i l = l.
Proof.
  intros H. apply list_eq. intros j. destruct (decide (j = i)) as [->|]; [|by rewrite list_lookup_alter_ne].
  rewrite list_lookup_alter_eq. destruct (l !! i) as [x|] eqn:E; [|done]. cbn. f_equal. by apply H.
Qed.
Lemma list_alter_twice {A} (f g : A → A) i (l : list A) : alter f i (alter g i l) = alter (λ x, f (g x)) i l.
Proof.
  apply list_eq. intros j. destruct (decide (j = i)) as [->|]; [|by rewrite !list_lookup_alter_ne].
  rewrite !list_lookup_alter_eq. by destruct (l !! i).
Qed.

(** ** The fault/state monad

    [M S A] runs on a state [S] and either returns or stops with a fault: a
    failed [assert] (QEMU builds always keep assertions), an access outside an
    object, a division by zero, a shift by a negative number of bits, the exit of the process on a fatal error, or, for
    loops given fuel, its exhaustion (which the components prove impossible). *)

Inductive fault := AssertFailed | OutOfBounds | DivByZero | BadShift | Exit | OutOfFuel.

Inductive res (A : Type) := Ok (a : A) | Fault (f : fault).
Arguments Ok {A} a.
Arguments Fault {A} f.

Definition M (S A : Type) : Type := S → res (A * S).

#[global] Instance M_ret {S} : MRet (M S) := λ A a s, Ok (a, s).
#[global] Instance M_bind {S} : MBind (M S) := λ A B f m s,
  match m s with
  | Ok (a, s') => f a s'
  | Fault e => Fault e
  end.

Section ops.
Context {S : Type}.

Definition gets {A} (f : S → A) : M S A := λ s, Ok (f s, s).
Definition modify (f : S → S) : M S unit := λ s, Ok (tt, f s).
Definition raise {A} (e : fault) : M S A := λ _, Fault e.
Definition assertM (b : bool) : M S unit := λ s,
  if b then Ok (tt, s) else Fault AssertFailed.
Definition inBounds (b : bool) : M S unit := λ s,
  if b then Ok (tt, s) else Fault OutOfBounds.
Definition whenM (b : bool) (m : M S unit) : M S unit :=
  if b then m else mret tt.

(** A [for] loop over the given indices. *)
Fixpoint forM {X} (l : list X) (body : X → M S unit) : M S unit :=
  match l with
  | [] => mret tt
  | x :: l => body x;; forM l body
  end.

(** A [for] loop whose body can leave it ([break] or [return]) with a value. *)
Fixpoint forM_until {X A} (l : list X) (body : X → M S (option A)) : M S (option A) :=
  match l with
  | [] => mret None
  | x :: l => r ← body x; match r with Some a => mret (Some a) | None => forM_until l body end
  end.
End ops.

(** Run [m] on a private state: the local variables of a function. *)
Definition locally {S L A} (l : L) (m : M L A) : M S (A * L) := λ s,
  match m l with
  | Ok r => Ok (r, s)
  | Fault e => Fault e
  end.
Lemma run_locally {S L A} (l l' : L) (m : M L A) a (s : S) :
  m l = Ok (a, l') → locally l m s = Ok ((a, l'), s).
Proof. unfold locally. by intros ->. Qed.

(** ** Weakest preconditions

    [wpE m Q E s]: running [m] from [s] ends in [Q], or in a fault allowed by
    [E].  [wp] allows no fault, [wlp] allows all. *)

Definition wpE {S A} (m : M S A) (Q : A → S → Prop) (E : fault → Prop) (s : S) : Prop :=
  match m s with
  | Ok (a, s') => Q a s'
  | Fault e => E e
  end.

Abbreviation wp m Q s := (wpE m Q (λ _, False) s).
Abbreviation wlp m Q s := (wpE m Q (λ _, True) s).

Section wp_lemmas.
Context {S : Type}.
Implicit Types (s : S) (E : fault → Prop).

Lemma wpE_ret {A} (a : A) Q E s : Q a s → wpE (mret a) Q E s.
Proof. done. Qed.
Lemma wpE_bind {A B} (m : M S A) (k : A → M S B) Q E s :
  wpE m (λ a s', wpE (k a) Q E s') E s → wpE (m ≫= k) Q E s.
Proof. unfold wpE, mbind, M_bind. destruct (m s) as [[a s']|e]; done. Qed.
Lemma wpE_gets {A} (f : S → A) Q E s : Q (f s) s → wpE (gets f) Q E s.
Proof. done. Qed.
Lemma wpE_modify f Q E s : Q tt (f s) → wpE (modify f) Q E s.
Proof. done. Qed.
Lemma wpE_raise {A} e (Q : A → S → Prop) E s : E e → wpE (raise e) Q E s.
Proof. done. Qed.
Lemma wpE_assert b (Q : () → S → Prop) E s :
  (b = true → Q tt s) → (b = false → E AssertFailed) → wpE (assertM b) Q E s.
Proof. unfold wpE, assertM. destruct b; auto. Qed.
Lemma wpE_inBounds b (Q : () → S → Prop) E s :
  (b = true → Q tt s) → (b = false → E OutOfBounds) → wpE (inBounds b) Q E s.
Proof. unfold wpE, inBounds. destruct b; auto. Qed.
Lemma wpE_when b m (Q : () → S → Prop) E s :
  (b = true → wpE m Q E s) → (b = false → Q tt s) → wpE (whenM b m) Q E s.
Proof. destruct b; intros H1 H2; [by apply H1 | by apply wpE_ret, H2]. Qed.
Lemma wpE_if {A} (b : bool) (m1 m2 : M S A) Q E s :
  (b = true → wpE m1 Q E s) → (b = false → wpE m2 Q E s) →
  wpE (if b then m1 else m2) Q E s.
Proof. destruct b; auto. Qed.
Lemma wpE_mono {A} (m : M S A) (Q Q' : A → S → Prop) E s :
  wpE m Q E s → (∀ a s', Q a s' → Q' a s') → wpE m Q' E s.
Proof. unfold wpE. destruct (m s) as [[??]|]; auto. Qed.
Lemma wpE_mono_E {A} (m : M S A) (Q : A → S → Prop) (E E' : fault → Prop) s :
  wpE m Q E s → (∀ e, E e → E' e) → wpE m Q E' s.
Proof. unfold wpE. destruct (m s) as [[??]|]; auto. Qed.

Lemma wpE_and {A} (m : M S A) (Q R : A → S → Prop) E s :
  wpE m Q E s → wlp m R s → wpE m (λ a s', Q a s' ∧ R a s') E s.
Proof. unfold wpE. destruct (m s) as [[??]|]; auto. Qed.

(** Run equations, for code on concrete control paths. *)
Lemma run_bind {A B} (m : M S A) (k : A → M S B) a s s' :
  m s = Ok (a, s') → (m ≫= k) s = k a s'.
Proof. unfold mbind, M_bind. by intros ->. Qed.
Lemma run_bind_fault {A B} (m : M S A) (k : A → M S B) e s :
  m s = Fault e → (m ≫= k) s = Fault e.
Proof. unfold mbind, M_bind. by intros ->. Qed.
Lemma run_assert b s : b = true → assertM b s = Ok (tt, s).
Proof. by intros ->. Qed.
Lemma run_inBounds b s : b = true → inBounds b s = Ok (tt, s).
Proof. by intros ->. Qed.

Lemma bind_assoc {A B C} (m : M S A) (k : A → M S B) (h : B → M S C) s :
  (a ← m; b ← k a; h b) s = (b ← (a ← m; k a); h b) s.
Proof. unfold mbind, M_bind. by destruct (m s) as [[]|]. Qed.

Lemma bind_ret {A} (m : M S A) s : (m ≫= mret) s = m s.
Proof. unfold mbind, M_bind. by destruct (m s) as [[]|]. Qed.

(** A total specification is a run that returns. *)
Lemma wp_run {A} (m : M S A) (Q : A → S → Prop) s :
  wp m Q s ↔ ∃ a s', m s = Ok (a, s') ∧ Q a s'.
Proof.
  unfold wpE. destruct (m s) as [[a s']|e]; split; [eauto|..].
  - by intros (? & ? & [= -> ->] & ?).
  - done.
  - by intros (? & ? & ? & ?).
Qed.
Lemma wlp_run {A} (m : M S A) (Q : A → S → Prop) s :
  wlp m Q s ↔ ∀ a s', m s = Ok (a, s') → Q a s'.
Proof.
  unfold wpE. destruct (m s) as [[a s']|e]; naive_solver.
Qed.

(** Loop rules: an invariant of the body is an invariant of the loop. *)
Lemma wpE_forM {X} (I : S → Prop) (body : X → M S unit) (l : list X) E s :
  I s → (∀ x s, x ∈ l → I s → wpE (body x) (λ _ s', I s') E s) →
  wpE (forM l body) (λ _ s', I s') E s.
Proof.
  revert s. induction l as [|x l IH]; intros s Hs Hb; [done|].
  apply wpE_bind. eapply wpE_mono; [apply Hb; [left|done]|].
  intros ? s' Hs'. apply IH; [done|]. intros; apply Hb; [by right|done].
Qed.
Lemma wpE_forM_until {X A} (I : S → Prop) (R : A → S → Prop)
    (body : X → M S (option A)) (l : list X) E s :
  I s →
  (∀ x s, x ∈ l → I s →
     wpE (body x) (λ r s', match r with Some a => R a s' | None => I s' end) E s) →
  wpE (forM_until l body) (λ r s', match r with Some a => R a s' | None => I s' end) E s.
Proof.
  revert s. induction l as [|x l IH]; intros s Hs Hb; [done|].
  apply wpE_bind. eapply wpE_mono; [apply Hb; [left|done]|].
  intros [a|] s' Hs'; [done|]. apply IH; [done|]. intros; apply Hb; [by right|done].
Qed.
End wp_lemmas.

(** Loops over concatenations and images. *)
Lemma forM_app {S X} (l1 l2 : list X) (body : X → M S unit) s :
  forM (l1 ++ l2) body s = (forM l1 body;; forM l2 body) s.
Proof.
  revert s. induction l1 as [|x l1 IH]; intros s; [done|]. cbn [forM app].
  unfold mbind, M_bind in *. destruct (body x s) as [[[] s']|]; [|done]. apply IH.
Qed.
Lemma forM_flat {S X Y} (l : list X) (f : X → list Y) (body : Y → M S unit) s :
  forM l (λ x, forM (f x) body) s = forM (l ≫= f) body s.
Proof.
  revert s. induction l as [|x l IH]; intros s; [done|]. cbn [forM].
  rewrite bind_cons, forM_app. unfold mbind, M_bind. destruct (forM (f x) body s) as [[[] s']|]; [|done].
  apply IH.
Qed.
Lemma forM_fmap {S X Y} (l : list X) (f : X → Y) (body : Y → M S unit) s :
  forM l (λ x, body (f x)) s = forM (f <$> l) body s.
Proof.
  revert s. induction l as [|x l IH]; intros s; [done|]. cbn [forM fmap list_fmap].
  unfold mbind, M_bind. destruct (body (f x) s) as [[[] s']|]; [|done]. apply IH.
Qed.
Lemma forM_ext {S X} (l : list X) (f g : X → M S unit) s :
  (∀ x s, x ∈ l → f x s = g x s) → forM l f s = forM l g s.
Proof.
  revert s. induction l as [|x l IH]; intros s H; [done|]. cbn [forM]. unfold mbind, M_bind.
  rewrite H by left. destruct (g x s) as [[[] s']|]; [|done]. apply IH. intros; apply H. by right.
Qed.


(** Symbolic execution of monadic code: [wp_step] does one bind or primitive,
    [wp_steps] as many as are syntax directed, without splitting branches. *)
Ltac wp_prim :=
  first
    [ apply wpE_ret | apply wpE_gets | apply wpE_modify
    | apply wpE_assert; [intros _ | intros ?] | apply wpE_inBounds; [intros _ | intros ?] ].
Ltac wp_bind := apply wpE_bind.
Ltac wp_split := first [apply wpE_if; intros ? | apply wpE_when; intros ?].

(** ** Invariants and frames of monadic code

    [preserves I m]: every run of [m] that returns keeps [I];
    [keeps f m]: every run of [m] that returns leaves [f] of the state alone.
    Both are compositional; the [frame] hints build them from the code. *)

Definition preserves {S A} (I : S → Prop) (m : M S A) : Prop :=
  ∀ s, I s → wlp m (λ _ s', I s') s.
Definition keeps {S A X} (f : S → X) (m : M S A) : Prop :=
  ∀ s, wlp m (λ _ s', f s' = f s) s.

Create HintDb frame.

Section frames.
Context {S : Type}.
Implicit Types (s : S).

Lemma preserves_ret {A} I (a : A) : preserves (S:=S) I (mret a).
Proof. by intros s. Qed.
Lemma preserves_bind {A B} I (m : M S A) (k : A → M S B) :
  preserves I m → (∀ a, preserves I (k a)) → preserves I (m ≫= k).
Proof.
  intros Hm Hk s Hs. apply wpE_bind. eapply wpE_mono; [by apply Hm|].
  intros a s' Hs'. by apply Hk.
Qed.
Lemma preserves_gets {A} I (f : S → A) : preserves I (gets f).
Proof. by intros s. Qed.
Lemma preserves_modify (I : S → Prop) f : (∀ s, I s → I (f s)) → preserves I (modify f).
Proof. intros H s Hs. by apply H. Qed.
Lemma preserves_raise {A} I e : preserves (A:=A) (S:=S) I (raise e).
Proof. by intros s. Qed.
Lemma preserves_assert I b : preserves (S:=S) I (assertM b).
Proof. intros s Hs. unfold wpE, assertM. by destruct b. Qed.
Lemma preserves_inBounds I b : preserves (S:=S) I (inBounds b).
Proof. intros s Hs. unfold wpE, inBounds. by destruct b. Qed.
Lemma preserves_when I b (m : M S unit) : preserves I m → preserves I (whenM b m).
Proof. destruct b; [done|]. intros _. apply preserves_ret. Qed.
Lemma preserves_if {A} I (b : bool) (m1 m2 : M S A) :
  preserves I m1 → preserves I m2 → preserves I (if b then m1 else m2).
Proof. by destruct b. Qed.
Lemma preserves_if_eq {A} I (a b : Z) (m1 m2 : M S A) :
  (a = b → preserves I m1) → preserves I m2 → preserves I (if a =? b then m1 else m2).
Proof. intros H1 H2. destruct (Z.eqb_spec a b); auto. Qed.
Lemma preserves_forM {X} I (l : list X) (body : X → M S unit) :
  (∀ x, preserves I (body x)) → preserves I (forM l body).
Proof. intros H s Hs. apply wpE_forM; [done|]. intros x s' _ Hs'. by apply H. Qed.
Lemma preserves_forM_until {X A} I (l : list X) (body : X → M S (option A)) :
  (∀ x, preserves I (body x)) → preserves I (forM_until l body).
Proof.
  intros H s Hs. eapply wpE_mono.
  - apply (wpE_forM_until I (λ _, I)); [done|]. intros x s' _ Hs'.
    eapply wpE_mono; [by apply H|]. by intros [].
  - by intros [].
Qed.

(** A frame is the invariant "[f] has its initial value". *)
Lemma keeps_preserves {A X} (f : S → X) (m : M S A) :
  (∀ x, preserves (λ s, f s = x) m) → keeps f m.
Proof. intros H s. by apply (H (f s)). Qed.
Lemma preserves_keeps {A X} (f : S → X) (m : M S A) x :
  keeps f m → preserves (λ s, f s = x) m.
Proof. intros H s <-. apply H. Qed.

Lemma preserves_run {A} I (m : M S A) s a s' :
  preserves I m → I s → m s = Ok (a, s') → I s'.
Proof. intros H Hs E. specialize (H s Hs). unfold wpE in H. by rewrite E in H. Qed.
End frames.

#[export] Hint Resolve preserves_ret preserves_gets preserves_raise preserves_assert
  preserves_inBounds : frame.

(** Walk down the structure of the code; the leaves are [frame] hints. *)
Ltac frame_step :=
  lazymatch goal with
  | |- ∀ _, _ => intros ?
  | |- preserves _ (_ ≫= _) => apply preserves_bind
  | |- preserves _ (whenM _ _) => apply preserves_when
  | |- preserves _ (forM _ _) => apply preserves_forM
  | |- preserves _ (forM_until _ _) => apply preserves_forM_until
  | |- preserves _ (match ?x with _ => _ end) => first [apply preserves_if | destruct x]
  | |- preserves _ (let _ := _ in _) => cbv zeta
  | |- preserves _ _ => solve [auto with frame]
  end.
Ltac frame := repeat frame_step.

(** ** Byte buffers

    A C byte array is a [list Z] of bytes.  Offsets are [Z], as in the code. *)

Definition slice (off len : Z) (buf : list Z) : list Z :=
  take (Z.to_nat len) (drop (Z.to_nat off) buf).

(** [memcpy(buf + off, bs, length bs)] into a buffer it fits in. *)
Definition put (off : Z) (bs buf : list Z) : list Z := list_inserts (Z.to_nat off) bs buf.

Definition byte_at (buf : list Z) (i : Z) : Z := buf !!! Z.to_nat i.

Definition blen (buf : list Z) : Z := Z.of_nat (length buf).

Definition bytes (buf : list Z) : Prop := Forall is_u8 buf.

(** Little-endian and big-endian codecs. *)
Fixpoint le_bytes (n : nat) (v : Z) : list Z :=
  match n with
  | O => []
  | S n => v mod 2 ^ 8 :: le_bytes n (v / 2 ^ 8)
  end.

Fixpoint of_le (bs : list Z) : Z :=
  match bs with
  | [] => 0
  | b :: bs => b + 2 ^ 8 * of_le bs
  end.

Definition be_bytes (n : nat) (v : Z) : list Z := rev (le_bytes n v).
Definition of_be (bs : list Z) : Z := of_le (rev bs).

(** [htonl]/[ntohl] on a little-endian host. *)
Definition bswap32 (v : Z) : Z := of_be (le_bytes 4 v).

Section buffer_ops.
Context {S : Type}.

(** [buf[i]], faulting outside the object. *)
Definition rd8 (buf : list Z) (i : Z) : M S Z :=
  inBounds ((0 <=? i) && (i <? blen buf));; mret (byte_at buf i).

(** [len] bytes read from [buf + off]. *)
Definition rd (buf : list Z) (off len : Z) : M S (list Z) :=
  inBounds ((0 <=? off) && (0 <=? len) && (off + len <=? blen buf));;
  mret (slice off len buf).

(** [memcpy(buf + off, bs, length bs)], faulting outside the object. *)
Definition wr (buf : list Z) (off : Z) (bs : list Z) : M S (list Z) :=
  inBounds ((0 <=? off) && (off + blen bs <=? blen buf));; mret (put off bs buf).

(** [(buf[i] << 8) | buf[i + 1]] *)
Definition rd_be16 (buf : list Z) (i : Z) : M S Z :=
  hi ← rd8 buf i; lo ← rd8 buf (i + 1); mret ((hi <<< 8) ||| lo).

Lemma run_rd8 buf i s : 0 ≤ i < blen buf → rd8 buf i s = Ok (byte_at buf i, s).
Proof. intros. unfold rd8. erewrite run_bind; [done|apply run_inBounds; lia]. Qed.
Lemma run_rd buf off len s :
  0 ≤ off → 0 ≤ len → off + len ≤ blen buf → rd buf off len s = Ok (slice off len buf, s).
Proof. intros. unfold rd. erewrite run_bind; [done|apply run_inBounds; lia]. Qed.
Lemma run_wr buf off bs s :
  0 ≤ off → off + blen bs ≤ blen buf → wr buf off bs s = Ok (put off bs buf, s).
Proof. intros. unfold wr. erewrite run_bind; [done|apply run_inBounds; lia]. Qed.
Lemma run_rd_be16 buf i s :
  0 ≤ i → i + 2 ≤ blen buf →
  rd_be16 buf i s = Ok ((byte_at buf i <<< 8) ||| byte_at buf (i + 1), s).
Proof.
  intros. unfold rd_be16. erewrite run_bind; [|apply run_rd8; lia].
  erewrite run_bind; [done|apply run_rd8; lia].
Qed.

Lemma preserves_rd8 I buf i : preserves I (rd8 buf i).
Proof. unfold rd8. frame. Qed.
Lemma preserves_rd I buf off len : preserves I (rd buf off len).
Proof. unfold rd. frame. Qed.
Lemma preserves_wr I buf off bs : preserves I (wr buf off bs).
Proof. unfold wr. frame. Qed.
Lemma preserves_rd_be16 I buf i : preserves I (rd_be16 buf i).
Proof. unfold rd_be16. frame; apply preserves_rd8. Qed.
End buffer_ops.
#[export] Hint Resolve preserves_rd8 preserves_rd preserves_wr preserves_rd_be16 : frame.

(** ** Code without fuel

    [nofuel m]: no run of [m] stops for lack of fuel, from any state. *)

Definition nofuel {S A} (m : M S A) : Prop := ∀ s, m s ≠ Fault OutOfFuel.

Section nofuel_lemmas.
Context {S : Type}.

Lemma nofuel_ret {A} (a : A) : nofuel (S:=S) (mret a).
Proof. by intros s. Qed.
Lemma nofuel_bind {A B} (m : M S A) (k : A → M S B) :
  nofuel m → (∀ a, nofuel (k a)) → nofuel (m ≫= k).
Proof.
  intros Hm Hk s. unfold mbind, M_bind. specialize (Hm s).
  destruct (m s) as [[a s']|e]; [apply Hk|congruence].
Qed.
Lemma nofuel_gets {A} (f : S → A) : nofuel (gets f).
Proof. by intros s. Qed.
Lemma nofuel_modify (f : S → S) : nofuel (modify f).
Proof. by intros s. Qed.
Lemma nofuel_assert b : nofuel (S:=S) (assertM b).
Proof. intros s. unfold assertM. by destruct b. Qed.
Lemma nofuel_inBounds b : nofuel (S:=S) (inBounds b).
Proof. intros s. unfold inBounds. by destruct b. Qed.
Lemma nofuel_raise {A} e : e ≠ OutOfFuel → nofuel (S:=S) (A:=A) (raise e).
Proof. intros He s [= ->]. done. Qed.
Lemma nofuel_wpE {A} (m : M S A) (Q : A → S → Prop) s :
  nofuel m → wlp m Q s → wpE m Q (λ e, e ≠ OutOfFuel) s.
Proof.
  intros Hm HQ. specialize (Hm s). unfold wpE in *. destruct (m s) as [[a s']|e]; [done|].
  intros ->. done.
Qed.
End nofuel_lemmas.

(** Walk down the code, unfolding its definitions. *)
Ltac nofuel_step :=
  lazymatch goal with
  | |- ∀ _, _ => intros ?
  | |- nofuel (mret _) => apply nofuel_ret
  | |- nofuel (_ ≫= _) => apply nofuel_bind
  | |- nofuel (gets _) => apply nofuel_gets
  | |- nofuel (modify _) => apply nofuel_modify
  | |- nofuel (assertM _) => apply nofuel_assert
  | |- nofuel (inBounds _) => apply nofuel_inBounds
  | |- nofuel (raise _) => apply nofuel_raise; discriminate
  | |- nofuel (match ?x with _ => _ end) => destruct x
  | |- nofuel (let _ := _ in _) => cbv zeta
  | |- nofuel (λ _, Ok _) => intros ?; discriminate
  | |- nofuel ?m => progress (let h := head_of m in unfold h)
  end.

(** [lia] with division and modulus by constants. *)
Ltac dlia := Z.div_mod_to_equations; lia.

(** Drop conversions to [uint32_t] of values in range, innermost first. *)
Ltac wrap_small :=
  repeat match goal with
  | |- context [u32 ?x] =>
      lazymatch x with
      | context [u32 _] => fail
      | _ => replace (u32 x) with x by (symmetry; apply Z.mod_small; lia)
      end
  end.

(** ** Lemmas: widths *)

Create HintDb width.
Create Rewrite HintDb width.

Lemma u8_range x : is_u8 (u8 x).
Proof. apply Z.mod_pos_bound. lia. Qed.
Lemma u16_range x : is_u16 (u16 x).
Proof. apply Z.mod_pos_bound. lia. Qed.
Lemma u32_range x : is_u32 (u32 x).
Proof. apply Z.mod_pos_bound. lia. Qed.
#[export] Hint Resolve u8_range u16_range u32_range : width.

Lemma s32_id x : - 2 ^ 31 ≤ x < 2 ^ 31 → s32 x = x.
Proof. intros. unfold s32. rewrite Z.mod_small by lia. lia. Qed.

Lemma u8_id x : is_u8 x → u8 x = x.
Proof. apply Z.mod_small. Qed.
Lemma u16_id x : is_u16 x → u16 x = x.
Proof. apply Z.mod_small. Qed.
Lemma u32_id x : is_u32 x → u32 x = x.
Proof. apply Z.mod_small. Qed.
#[export] Hint Rewrite u8_id u16_id u32_id using (auto with width; unfold is_u8, is_u16, is_u32 in *; lia) : width.

(** Bits of a number below [2^n] vanish from [n] on. *)
Lemma testbit_high n x i : 0 ≤ x < 2 ^ n → n ≤ i → Z.testbit x i = false.
Proof.
  intros Hx Hi. destruct (Z.neg_nonneg_cases n) as [Hn|Hn].
  { rewrite Z.pow_neg_r in Hx by done. lia. }
  rewrite <-(Z.mod_small x (2 ^ n)) by done. by apply Z.mod_pow2_bits_high.
Qed.

(** A non-negative number whose bits vanish from [n] on is below [2^n]. *)
Lemma bits_bound n x :
  0 ≤ n → 0 ≤ x → (∀ i, n ≤ i → Z.testbit x i = false) → x < 2 ^ n.
Proof.
  intros Hn Hx Hb. assert (x = x mod 2 ^ n) as ->.
  - apply Z.bits_inj'. intros i Hi. destruct (Z.lt_ge_cases i n).
    + by rewrite Z.mod_pow2_bits_low.
    + rewrite Z.mod_pow2_bits_high by lia. by apply Hb.
  - apply Z.mod_pos_bound. lia.
Qed.

Lemma land_bound n a b : 0 ≤ n → 0 ≤ a < 2 ^ n → 0 ≤ (a &&& b) < 2 ^ n.
Proof.
  intros Hn Ha. assert (0 ≤ a &&& b) by (apply Z.land_nonneg; lia). split; [done|].
  apply bits_bound; [done..|]. intros i Hi.
  by rewrite Z.land_spec, (testbit_high n) by done.
Qed.
Lemma land_bound_r n a b : 0 ≤ n → 0 ≤ b < 2 ^ n → 0 ≤ (a &&& b) < 2 ^ n.
Proof. rewrite Z.land_comm. apply land_bound. Qed.
Lemma lor_bound n a b : 0 ≤ n → 0 ≤ a < 2 ^ n → 0 ≤ b < 2 ^ n → 0 ≤ (a ||| b) < 2 ^ n.
Proof.
  intros Hn Ha Hb. assert (0 ≤ a ||| b) by (apply Z.lor_nonneg; lia). split; [done|].
  apply bits_bound; [done..|]. intros i Hi.
  by rewrite Z.lor_spec, !(testbit_high n) by done.
Qed.
Lemma lxor_bound n a b : 0 ≤ n → 0 ≤ a < 2 ^ n → 0 ≤ b < 2 ^ n → 0 ≤ (a ^^^ b) < 2 ^ n.
Proof.
  intros Hn Ha Hb. assert (0 ≤ a ^^^ b) by (apply Z.lxor_nonneg; lia). split; [done|].
  apply bits_bound; [done..|]. intros i Hi.
  by rewrite Z.lxor_spec, !(testbit_high n) by done.
Qed.

(** Disjoint fields add. *)
Lemma lor_shl_add n a b : 0 ≤ n → 0 ≤ b < 2 ^ n → (a <<< n) ||| b = a * 2 ^ n + b.
Proof.
  intros Hn Hb. rewrite <-Z.shiftl_mul_pow2 by done.
  symmetry. apply Z.add_nocarry_lor. apply Z.bits_inj'. intros i Hi.
  rewrite Z.land_spec, Z.bits_0. destruct (Z.lt_ge_cases i n).
  - by rewrite Z.shiftl_spec_low.
  - by rewrite (testbit_high n b) by done; rewrite andb_false_r.
Qed.
Lemma land_field w s k : 0 ≤ s → 0 ≤ k → w &&& (Z.ones k <<< s) = ((w >>> s) mod 2 ^ k) <<< s.
Proof.
  intros Hs Hk. apply Z.bits_inj'. intros i Hi. rewrite Z.land_spec, !Z.shiftl_spec by lia.
  destruct (Z.lt_ge_cases i s).
  - rewrite !(Z.testbit_neg_r _ (i - s)) by lia. by rewrite andb_false_r.
  - destruct (Z.lt_ge_cases (i - s) k).
    + rewrite Z.ones_spec_low, andb_true_r, Z.mod_pow2_bits_low, Z.shiftr_spec by lia. f_equal. lia.
    + rewrite Z.ones_spec_high, andb_false_r by lia. by rewrite Z.mod_pow2_bits_high by lia.
Qed.

(** Equalities of integers bit by bit: [bitwise i] leaves the goal for bit [i],
    with the bitwise operators pushed to the leaves. *)
Create Rewrite HintDb bits.
#[export] Hint Rewrite Z.land_spec Z.lor_spec Z.lxor_spec Z.ldiff_spec
  Z.bits_0 andb_false_r andb_false_l andb_true_r andb_true_l orb_false_r orb_false_l
  orb_true_r orb_true_l xorb_false_r xorb_false_l : bits.
#[export] Hint Rewrite Z.lnot_spec Z.shiftr_spec Z.shiftl_spec
  Z.mod_pow2_bits_low Z.mod_pow2_bits_high Z.ones_spec_low Z.ones_spec_high
  using lia : bits.
Ltac bitwise i :=
  apply Z.bits_inj'; intros i ?; autorewrite with bits; try btauto.

(** ** Lemmas: fields of registers

    A field is a mask of [w] bits from bit [s] on: reading it back after a write gives
    the value written, cut to the width, and other fields keep theirs. *)

Lemma ctz32_nonneg m : 0 ≤ ctz32 m.
Proof.
  destruct m as [|p|p]; [done| |done]. induction p as [p IH|p IH|]; [done| |done].
  change (0 ≤ 1 + pos_ctz p). change (0 ≤ pos_ctz p) in IH. lia.
Qed.
Lemma GET_MASK_u32 v mask : is_u32 v → is_u32 (GET_MASK v mask).
Proof.
  intros Hv. unfold GET_MASK. pose proof (land_bound 32 v mask ltac:(lia) Hv) as Hl.
  pose proof (ctz32_nonneg mask).
  rewrite Z.shiftr_div_pow2 by done. unfold is_u32 in *. split.
  - apply Z.div_pos; [lia|]. by apply Z.pow_pos_nonneg.
  - eapply Z.le_lt_trans; [apply Z.div_le_upper_bound with (q := v &&& mask)|apply Hl].
    { by apply Z.pow_pos_nonneg. }
    assert (1 ≤ 2 ^ ctz32 mask) by (by apply (Z.pow_le_mono_r 2 0)). nia.
Qed.
Lemma SET_MASK_u32 v mask x : is_u32 v → is_u32 mask → is_u32 (SET_MASK v mask x).
Proof.
  intros Hv Hm. unfold SET_MASK. apply (lor_bound 32); [lia|by apply (land_bound 32)|].
  by apply (land_bound_r 32).
Qed.

Section field.
Context (mask s w : Z) (Hmask : mask = Z.ones w <<< s) (Hctz : ctz32 mask = s) (Hs : 0 ≤ s) (Hw : 0 ≤ w).
Lemma GET_MASK_field v : GET_MASK v mask = (v >>> s) mod 2 ^ w.
Proof.
  unfold GET_MASK. rewrite Hctz, Hmask. apply Z.bits_inj'. intros i Hi.
  rewrite Z.shiftr_spec, Z.land_spec, Z.shiftl_spec by lia. replace (i + s - s) with i by lia.
  destruct (Z.lt_ge_cases i w).
  - rewrite Z.ones_spec_low, andb_true_r, Z.mod_pow2_bits_low by lia. by rewrite Z.shiftr_spec by lia.
  - rewrite Z.ones_spec_high, andb_false_r by lia. by rewrite Z.mod_pow2_bits_high by lia.
Qed.
Lemma GET_MASK_range v : 0 ≤ GET_MASK v mask < 2 ^ w.
Proof. rewrite GET_MASK_field. apply Z.mod_pos_bound. by apply Z.pow_pos_nonneg. Qed.
Lemma GET_SET_same v x : s + w ≤ 32 → GET_MASK (SET_MASK v mask x) mask = x mod 2 ^ w.
Proof.
  intros Hb. rewrite GET_MASK_field. unfold SET_MASK, not32, u32. rewrite Hctz.
  apply Z.bits_inj'. intros i Hi. destruct (Z.lt_ge_cases i w).
  - rewrite !Z.mod_pow2_bits_low by lia. rewrite Z.shiftr_spec, Z.lor_spec, !Z.land_spec by lia.
    rewrite !Z.mod_pow2_bits_low, Z.lnot_spec, Z.shiftl_spec by lia. replace (i + s - s) with i by lia.
    rewrite Z.mod_pow2_bits_low by lia. rewrite Hmask, Z.shiftl_spec by lia.
    replace (i + s - s) with i by lia. rewrite Z.ones_spec_low by lia.
    by rewrite andb_false_r, andb_true_r.
  - by rewrite !Z.mod_pow2_bits_high by lia.
Qed.
End field.
Lemma GET_SET_other v mask mask' x :
  mask &&& mask' = 0 → is_u32 mask' → GET_MASK (SET_MASK v mask x) mask' = GET_MASK v mask'.
Proof.
  intros Hd Hm. unfold GET_MASK. f_equal. unfold SET_MASK, not32, u32. apply Z.bits_inj'. intros i Hi.
  assert (Z.testbit mask i && Z.testbit mask' i = false) as Hdi by (rewrite <-Z.land_spec, Hd; apply Z.bits_0).
  rewrite !Z.land_spec, Z.lor_spec, !Z.land_spec. destruct (Z.lt_ge_cases i 32).
  - rewrite !Z.mod_pow2_bits_low, Z.lnot_spec by lia.
    destruct (Z.testbit mask i), (Z.testbit mask' i); try done; by rewrite ?andb_true_r, ?andb_false_r, ?orb_false_r.
  - by rewrite (testbit_high 32 mask'), !andb_false_r by done.
Qed.

(** ** Lemmas: buffers *)

Create Rewrite HintDb buf.

Lemma length_put off bs buf : length (put off bs buf) = length buf.
Proof. apply length_inserts. Qed.
Lemma blen_put off bs buf : blen (put off bs buf) = blen buf.
Proof. unfold blen. by rewrite length_put. Qed.
Lemma blen_nonneg buf : 0 ≤ blen buf.
Proof. unfold blen. lia. Qed.
Lemma blen_app b1 b2 : blen (b1 ++ b2) = blen b1 + blen b2.
Proof. unfold blen. rewrite length_app. lia. Qed.
Lemma length_slice off len buf :
  0 ≤ off → 0 ≤ len → off + len ≤ blen buf → length (slice off len buf) = Z.to_nat len.
Proof. unfold slice, blen. rewrite length_take, length_drop. lia. Qed.
Lemma blen_slice off len buf :
  0 ≤ off → 0 ≤ len → off + len ≤ blen buf → blen (slice off len buf) = len.
Proof. intros. unfold blen at 1. rewrite length_slice by done. lia. Qed.
#[export] Hint Rewrite length_put blen_put : buf.

Lemma lookup_slice off len buf i :
  0 ≤ off → slice off len buf !! i =
    if decide (Z.of_nat i < len) then buf !! (Z.to_nat off + i)%nat else None.
Proof.
  intros. unfold slice. case_decide.
  - rewrite lookup_take, decide_True by lia. by rewrite lookup_drop.
  - rewrite lookup_take, decide_False by lia. done.
Qed.

Lemma lookup_put off bs buf i :
  0 ≤ off → off + blen bs ≤ blen buf →
  put off bs buf !! i =
    if decide (off ≤ Z.of_nat i < off + blen bs)
    then bs !! (i - Z.to_nat off)%nat else buf !! i.
Proof.
  unfold put, blen. intros. case_decide.
  - apply list_lookup_inserts; lia.
  - destruct (Z.lt_ge_cases (Z.of_nat i) off).
    + apply list_lookup_inserts_lt. lia.
    + apply list_lookup_inserts_ge. lia.
Qed.

Lemma slice_put_same off len bs buf :
  0 ≤ off → off + blen bs ≤ blen buf → len = blen bs → slice off len (put off bs buf) = bs.
Proof.
  intros Ho Hl ->. apply list_eq. intros i. rewrite lookup_slice by done.
  case_decide as Hi.
  - rewrite lookup_put, decide_True by (unfold blen in *; lia). f_equal. lia.
  - symmetry. apply lookup_ge_None. unfold blen in Hi. lia.
Qed.

Lemma slice_put_disjoint off len off' bs buf :
  0 ≤ off → 0 ≤ off' → off' + blen bs ≤ blen buf →
  off + len ≤ off' ∨ off' + blen bs ≤ off →
  slice off len (put off' bs buf) = slice off len buf.
Proof.
  intros Ho Ho' Hl Hd. apply list_eq. intros i. rewrite !lookup_slice by done.
  case_decide; [|done]. rewrite lookup_put by done. rewrite decide_False; [done|lia].
Qed.

(** A write inside a window is a write to the window. *)
Lemma slice_put_inside off len off' bs buf :
  0 ≤ off → off ≤ off' → off' + blen bs ≤ off + len → off + len ≤ blen buf →
  slice off len (put off' bs buf) = put (off' - off) bs (slice off len buf).
Proof.
  intros Ho Hi Hw Hl. pose proof (blen_nonneg bs) as Hbs.
  apply list_eq. intros i. rewrite lookup_slice by done.
  rewrite (lookup_put (off' - off)) by (rewrite ?blen_slice; lia).
  rewrite (lookup_slice off len buf) by done. case_decide.
  - rewrite lookup_put by lia. repeat case_decide; try lia; f_equal; lia.
  - rewrite decide_False by lia. done.
Qed.

(** Writing just past a prefix extends it. *)
Lemma slice_put_append off bs buf :
  0 ≤ off → off + blen bs ≤ blen buf →
  slice 0 (off + blen bs) (put off bs buf) = slice 0 off buf ++ bs.
Proof.
  intros Ho Hl. pose proof (blen_nonneg bs) as Hb. apply list_eq. intros i.
  rewrite lookup_slice by done. change (Z.to_nat 0 + i)%nat with i.
  destruct (decide (Z.of_nat i < off)) as [Hi|Hi].
  - rewrite lookup_app_l by (rewrite length_slice; lia). rewrite lookup_slice by done.
    rewrite !decide_True by lia. rewrite lookup_put, decide_False by lia. done.
  - rewrite lookup_app_r by (rewrite length_slice; lia). rewrite length_slice by lia.
    case_decide.
    + by rewrite lookup_put, decide_True by lia.
    + symmetry. apply lookup_ge_None. unfold blen in *. lia.
Qed.

(** A window starts with its first byte. *)
Lemma slice_cons off len buf :
  0 ≤ off → 0 < len → off < blen buf →
  slice off len buf = byte_at buf off :: slice (off + 1) (len - 1) buf.
Proof.
  unfold blen. intros Ho Hl Hb. apply list_eq. intros [|i]; rewrite lookup_slice by done.
  - rewrite decide_True by lia. cbn. unfold byte_at. rewrite Nat.add_0_r.
    apply list_lookup_lookup_total_lt. lia.
  - cbn. rewrite lookup_slice by lia. case_decide; case_decide; try lia; [|done]. f_equal. lia.
Qed.

(** Adjacent windows and writes join. *)
Lemma slice_split off a b buf :
  0 ≤ off → 0 ≤ a → 0 ≤ b → slice off (a + b) buf = slice off a buf ++ slice (off + a) b buf.
Proof.
  intros. unfold slice. rewrite (Z2Nat.inj_add off a), <-drop_drop by done.
  by rewrite Z2Nat.inj_add, take_take_drop by done.
Qed.
Lemma put_app off b1 b2 buf :
  0 ≤ off → off + blen b1 + blen b2 ≤ blen buf →
  put (off + blen b1) b2 (put off b1 buf) = put off (b1 ++ b2) buf.
Proof.
  intros Ho Hl. pose proof (blen_nonneg b1). pose proof (blen_nonneg b2).
  apply list_eq. intros i. rewrite !lookup_put by (rewrite ?blen_put, ?blen_app; lia).
  rewrite blen_app. unfold blen in *. repeat case_decide; try lia.
  - rewrite lookup_app_r by lia. f_equal. lia.
  - by rewrite lookup_app_l by lia.
  - done.
Qed.

(** A window of a window. *)
Lemma slice_slice off len off' len' buf :
  0 ≤ off → 0 ≤ off' → off' + len' ≤ len →
  slice off' len' (slice off len buf) = slice (off + off') len' buf.
Proof.
  intros. apply list_eq. intros i. rewrite (lookup_slice off'), (lookup_slice (off + off')) by lia.
  case_decide; [|done]. rewrite lookup_slice, decide_True by lia. f_equal. lia.
Qed.

Lemma slice_lookup_eq off len b1 b2 i u v :
  slice off len b1 = slice off len b2 → off ≤ Z.of_nat i < off + len → 0 ≤ off →
  b1 !! i = Some u → b2 !! i = Some v → u = v.
Proof.
  intros E Hi Ho Hu Hv. apply (f_equal (lookup (i - Z.to_nat off)%nat)) in E.
  rewrite !lookup_slice, !decide_True in E by lia.
  replace (Z.to_nat off + (i - Z.to_nat off))%nat with i in E by lia. congruence.
Qed.

Lemma byte_at_put_ne off bs buf i :
  0 ≤ off → 0 ≤ i → off + blen bs ≤ blen buf → i < off ∨ off + blen bs ≤ i →
  byte_at (put off bs buf) i = byte_at buf i.
Proof.
  intros Ho Hi Hl Hd. unfold byte_at. rewrite !list_lookup_total_alt.
  rewrite lookup_put by done. rewrite decide_False; [done|lia].
Qed.
Lemma byte_at_put_eq off bs buf i :
  off ≤ i < off + blen bs → 0 ≤ off → off + blen bs ≤ blen buf →
  byte_at (put off bs buf) i = byte_at bs (i - off).
Proof.
  intros Hi Ho Hl. unfold byte_at. rewrite !list_lookup_total_alt.
  rewrite lookup_put by done. rewrite decide_True by lia. do 2 f_equal. lia.
Qed.
Lemma byte_at_slice off len buf i :
  0 ≤ off → 0 ≤ i < len → byte_at (slice off len buf) i = byte_at buf (off + i).
Proof.
  intros Ho Hi. unfold byte_at. rewrite !list_lookup_total_alt.
  rewrite lookup_slice by done. rewrite decide_True by lia. do 2 f_equal. lia.
Qed.

Lemma bytes_put off bs buf : bytes bs → bytes buf → bytes (put off bs buf).
Proof.
  intros Hbs Hbuf. unfold put. generalize (Z.to_nat off). clear off.
  induction Hbs as [|b bs Hb Hbs IH]; intros i; simpl; [done|].
  apply Forall_insert; [apply IH|done].
Qed.
Lemma bytes_slice off len buf : bytes buf → bytes (slice off len buf).
Proof. intros H. by apply Forall_take, Forall_drop. Qed.
Lemma bytes_app b1 b2 : bytes b1 → bytes b2 → bytes (b1 ++ b2).
Proof. intros. by apply Forall_app. Qed.
Lemma bytes_nil : bytes [].
Proof. constructor. Qed.
Lemma bytes_cons b buf : is_u8 b → bytes buf → bytes (b :: buf).
Proof. by constructor. Qed.
Lemma bytes_replicate n : bytes (replicate n 0).
Proof. apply Forall_replicate. unfold is_u8. lia. Qed.
Lemma bytes_byte_at buf i : bytes buf → is_u8 (byte_at buf i).
Proof.
  intros H. unfold byte_at. rewrite list_lookup_total_alt.
  destruct (buf !! Z.to_nat i) eqn:E; simpl; [|done].
  eapply (Forall_lookup_1 is_u8); eauto.
Qed.
Create HintDb bytes.
#[export] Hint Resolve bytes_put bytes_slice bytes_app bytes_nil bytes_cons bytes_replicate bytes_byte_at
  u8_range : bytes.

(** ** Lemmas: codecs *)

Lemma length_le_bytes n v : length (le_bytes n v) = n.
Proof. revert v. induction n; intros; simpl; auto. Qed.
Lemma bytes_le_bytes n v : bytes (le_bytes n v).
Proof.
  revert v. induction n; intros; simpl; constructor; [|apply IHn].
  apply Z.mod_pos_bound. lia.
Qed.
Lemma of_le_le_bytes n v : of_le (le_bytes n v) = v mod 2 ^ (8 * Z.of_nat n).
Proof.
  revert v. induction n as [|n IH]; intros v.
  - simpl. by rewrite Z.mod_1_r.
  - cbn [le_bytes of_le]. rewrite IH.
    replace (8 * Z.of_nat (S n)) with (8 + 8 * Z.of_nat n) by lia.
    rewrite Z.pow_add_r by lia. by rewrite Z.rem_mul_r by lia.
Qed.
Lemma le_bytes_of_le bs : bytes bs → le_bytes (length bs) (of_le bs) = bs.
Proof.
  induction 1 as [|b bs Hb Hbs IH]; [done|]. cbn [length le_bytes of_le].
  unfold is_u8 in Hb. f_equal.
  - rewrite Z.mul_comm, Z.mod_add by lia. by apply Z.mod_small.
  - rewrite Z.mul_comm, Z.div_add by lia. by rewrite Z.div_small.
Qed.
Lemma of_le_range bs : bytes bs → 0 ≤ of_le bs < 2 ^ (8 * blen bs).
Proof.
  unfold blen. intros H. rewrite <-(le_bytes_of_le bs) at 1 2 by done.
  rewrite of_le_le_bytes. apply Z.mod_pos_bound. lia.
Qed.
Lemma length_be_bytes n v : length (be_bytes n v) = n.
Proof. unfold be_bytes. by rewrite length_rev, length_le_bytes. Qed.
Lemma blen_le_bytes n v : blen (le_bytes n v) = Z.of_nat n.
Proof. unfold blen. by rewrite length_le_bytes. Qed.
Lemma blen_be_bytes n v : blen (be_bytes n v) = Z.of_nat n.
Proof. unfold blen. by rewrite length_be_bytes. Qed.
Lemma bytes_be_bytes n v : bytes (be_bytes n v).
Proof. unfold bytes, be_bytes. apply Forall_rev, bytes_le_bytes. Qed.
Lemma of_be_be_bytes n v : of_be (be_bytes n v) = v mod 2 ^ (8 * Z.of_nat n).
Proof. unfold of_be, be_bytes. by rewrite rev_involutive, of_le_le_bytes. Qed.
Lemma of_be_range bs : bytes bs → 0 ≤ of_be bs < 2 ^ (8 * blen bs).
Proof.
  intros H. unfold of_be. replace (blen bs) with (blen (rev bs))
    by (unfold blen; by rewrite length_rev).
  by apply of_le_range, Forall_rev.
Qed.
#[export] Hint Resolve bytes_le_bytes bytes_be_bytes : bytes.
#[export] Hint Rewrite blen_le_bytes blen_be_bytes : buf.

Lemma bswap32_range v : is_u32 (bswap32 v).
Proof. apply (of_be_range (le_bytes 4 v)), bytes_le_bytes. Qed.
Lemma le_bytes_bswap32 v : le_bytes 4 (bswap32 v) = be_bytes 4 v.
Proof.
  unfold bswap32, of_be. change 4%nat with (length (rev (le_bytes 4 v))) at 1.
  rewrite le_bytes_of_le; [done|]. apply Forall_rev, bytes_le_bytes.
Qed.
Lemma bswap32_involutive v : bswap32 (bswap32 v) = u32 v.
Proof.
  unfold bswap32 at 1. rewrite le_bytes_bswap32. apply of_be_be_bytes.
Qed.
#[export] Hint Resolve bswap32_range : width.

(** ** Code whose state is a buffer *)

(** [memcpy(buf + d, bs, length bs)] on the buffer in the state. *)
Definition write_at (d : Z) (bs : list Z) : M (list Z) unit :=
  buf ← gets id;
  buf' ← wr buf d bs;
  modify (λ _, buf').

Lemma run_write_at d bs buf :
  0 ≤ d → d + blen bs ≤ blen buf → write_at d bs buf = Ok (tt, put d bs buf).
Proof.
  intros. unfold write_at. erewrite run_bind by done. by erewrite run_bind by (by apply run_wr).
Qed.

(** Writes of [n] bytes each to places that are equal, with equal contents, or do
    not overlap all arrive, and nothing else changes. *)
Section writes.
Context {X : Type} (d : X → Z) (v : X → list Z) (n : Z).
Definition apart (p q : Z) : Prop := p + n ≤ q ∨ q + n ≤ p.

Record written (l : list X) (dst dst' : list Z) : Prop := {
  wr_len : blen dst' = blen dst;
  wr_data : ∀ i, i ∈ l → slice (d i) n dst' = v i;
  wr_rest : ∀ off, 0 ≤ off → (∀ i, i ∈ l → apart (d i) off) → slice off n dst' = slice off n dst
}.

(** A window that no later write contradicts keeps its contents. *)
Lemma run_writes_keep l dst :
  (∀ i, i ∈ l → blen (v i) = n ∧ 0 ≤ d i ∧ d i + n ≤ blen dst) →
  ∃ dst', forM l (λ i, write_at (d i) (v i)) dst = Ok (tt, dst') ∧ blen dst' = blen dst ∧
    ∀ off bs, 0 ≤ off → (∀ i, i ∈ l → apart (d i) off ∨ d i = off ∧ v i = bs) →
      slice off n dst = bs → slice off n dst' = bs.
Proof.
  revert dst. induction l as [|i l IH]; intros dst Hb; [by exists dst|].
  destruct (Hb i) as (Hv & ? & ?); [by left|].
  destruct (IH (put (d i) (v i) dst)) as (dst' & E & Hlen & Hkeep).
  { intros j Hj. rewrite blen_put. apply Hb. by right. }
  exists dst'. split_and!; [cbn [forM]; erewrite run_bind; [exact E|apply run_write_at; lia]|by rewrite Hlen, blen_put|].
  intros off bs Ho Hoff Hbs. apply Hkeep; [done|intros; apply Hoff; by right|].
  destruct (Hoff i) as [Ha|[<- <-]]; [by left| |].
  - rewrite slice_put_disjoint; [done|done|done|lia|]. unfold apart in Ha. lia.
  - apply slice_put_same; lia.
Qed.

Lemma run_writes l dst :
  (∀ i, i ∈ l → blen (v i) = n ∧ 0 ≤ d i ∧ d i + n ≤ blen dst) →
  (∀ i j, i ∈ l → j ∈ l → apart (d i) (d j) ∨ d i = d j ∧ v i = v j) →
  ∃ dst', forM l (λ i, write_at (d i) (v i)) dst = Ok (tt, dst') ∧ written l dst dst'.
Proof.
  intros Hb Ha. destruct (run_writes_keep l dst Hb) as (dst' & E & Hlen & Hkeep).
  exists dst'. split; [done|]. split; [done| |].
  - intros i (l1 & l2 & ->)%list_elem_of_split.
    rewrite forM_app in E. destruct (run_writes_keep l1 dst) as (dst1 & E1 & Hlen1 & _).
    { intros j Hj. apply Hb, elem_of_app. by left. }
    erewrite run_bind in E by exact E1. cbn [forM] in E.
    destruct (Hb i) as (Hv & ? & ?); [apply elem_of_app; right; by left|].
    erewrite run_bind in E by (apply run_write_at; lia).
    destruct (run_writes_keep l2 (put (d i) (v i) dst1)) as (dst2 & E2 & _ & Hkeep2).
    { intros j Hj. rewrite blen_put, Hlen1. apply Hb, elem_of_app. right. by right. }
    rewrite E in E2. injection E2 as <-. apply Hkeep2; [done| |apply slice_put_same; lia].
    intros j Hj. apply Ha; apply elem_of_app; right; [by right|by left].
  - intros off Ho Hoff. apply Hkeep; [done| |done]. intros i Hi. left. by apply Hoff.
Qed.
End writes.
