(* ===== verification/NvnetState.v ===== *)
(** * NvnetState: state and register file of the nForce Ethernet controller

    Models hw/xbox/mcpx/nvnet/nvnet_regs.h and lines 44-382 of
    hw/xbox/mcpx/nvnet/nvnet.c: the register constants, the device and proxy
    state, the host calls the proxy makes, the register accessors and the
    interrupt line. *)

From S2P Require Import Prelude.

(** ** Constants (nvnet_regs.h, include/hw/net/mii.h) *)

Abbreviation NVNET_IRQ_STATUS := 0x000 (only parsing).
Abbreviation NVNET_IRQ_STATUS_RX := 0x2 (only parsing).
Abbreviation NVNET_IRQ_STATUS_TX := 0x10 (only parsing).
Abbreviation NVNET_IRQ_STATUS_MIIEVENT := 0x40 (only parsing).
Abbreviation NVNET_IRQ_MASK := 0x004 (only parsing).
Abbreviation NVNET_TRANSMITTER_CONTROL := 0x084 (only parsing).
Abbreviation NVNET_TRANSMITTER_CONTROL_START := 0x1 (only parsing).
Abbreviation NVNET_PACKET_FILTER := 0x08C (only parsing).
Abbreviation NVNET_PACKET_FILTER_MYADDR := 0x20 (only parsing).
Abbreviation NVNET_RECEIVER_CONTROL := 0x094 (only parsing).
Abbreviation NVNET_RECEIVER_CONTROL_START := 0x1 (only parsing).
Abbreviation NVNET_MAC_ADDR_A := 0x0A8 (only parsing).
Abbreviation NVNET_MAC_ADDR_B := 0x0AC (only parsing).
Abbreviation NVNET_MULTICAST_ADDR_A := 0x0B0 (only parsing).
Abbreviation NVNET_MULTICAST_ADDR_B := 0x0B4 (only parsing).
Abbreviation NVNET_MULTICAST_MASK_A := 0x0B8 (only parsing).
Abbreviation NVNET_MULTICAST_MASK_B := 0x0BC (only parsing).
Abbreviation NVNET_TX_RING_PHYS_ADDR := 0x100 (only parsing).
Abbreviation NVNET_RX_RING_PHYS_ADDR := 0x104 (only parsing).
Abbreviation NVNET_RING_SIZE := 0x108 (only parsing).
Abbreviation NVNET_RING_SIZE_TX := 0x0000FFFF (only parsing).
Abbreviation NVNET_RING_SIZE_RX := 0xFFFF0000 (only parsing).
Abbreviation NVNET_TX_RING_CURRENT_DESC_PHYS_ADDR := 0x11C (only parsing).
Abbreviation NVNET_RX_RING_CURRENT_DESC_PHYS_ADDR := 0x120 (only parsing).
Abbreviation NVNET_UNKNOWN_SETUP_REG5 := 0x130 (only parsing).
Abbreviation NVNET_UNKNOWN_SETUP_REG5_BIT31 := 0x80000000 (only parsing).
Abbreviation NVNET_TX_RING_NEXT_DESC_PHYS_ADDR := 0x134 (only parsing).
Abbreviation NVNET_RX_RING_NEXT_DESC_PHYS_ADDR := 0x138 (only parsing).
Abbreviation NVNET_TX_RX_CONTROL := 0x144 (only parsing).
Abbreviation NVNET_TX_RX_CONTROL_KICK := 0x1 (only parsing).
Abbreviation NVNET_TX_RX_CONTROL_BIT1 := 0x2 (only parsing).
Abbreviation NVNET_TX_RX_CONTROL_BIT2 := 0x4 (only parsing).
Abbreviation NVNET_TX_RX_CONTROL_IDLE := 0x8 (only parsing).
Abbreviation NVNET_TX_RX_CONTROL_RESET := 0x10 (only parsing).
Abbreviation NVNET_MII_STATUS := 0x180 (only parsing).
Abbreviation NVNET_MII_STATUS_LINKCHANGE := 0x8 (only parsing).
Abbreviation NVNET_ADAPTER_CONTROL := 0x188 (only parsing).
Abbreviation NVNET_ADAPTER_CONTROL_LINKUP := 0x4 (only parsing).
Abbreviation NVNET_MDIO_ADDR := 0x190 (only parsing).
Abbreviation NVNET_MDIO_ADDR_INUSE := 0x8000 (only parsing).
Abbreviation NVNET_MDIO_ADDR_WRITE := 0x400 (only parsing).
Abbreviation NVNET_MDIO_ADDR_PHYADDR := 0x3E0 (only parsing).
Abbreviation NVNET_MDIO_ADDR_PHYREG := 0x1F (only parsing).
Abbreviation NVNET_MDIO_DATA := 0x194 (only parsing).

Abbreviation NV_TX_LASTPACKET := 0x1 (only parsing).
Abbreviation NV_TX_RETRYERROR := 0x8 (only parsing).
Abbreviation NV_TX_DEFERRED := 0x400 (only parsing).
Abbreviation NV_TX_CARRIERLOST := 0x800 (only parsing).
Abbreviation NV_TX_LATECOLLISION := 0x1000 (only parsing).
Abbreviation NV_TX_UNDERFLOW := 0x2000 (only parsing).
Abbreviation NV_TX_ERROR := 0x4000 (only parsing).
Abbreviation NV_TX_VALID := 0x8000 (only parsing).
Abbreviation NV_RX_DESCRIPTORVALID := 0x1 (only parsing).
Abbreviation NV_RX_BIT4 := 0x10 (only parsing).
Abbreviation NV_RX_AVAIL := 0x8000 (only parsing).

Abbreviation DEFAULT_MTU := 1500 (only parsing).
Abbreviation RX_ALLOC_BUFSIZE := (DEFAULT_MTU + 128) (only parsing).
Abbreviation TX_ALLOC_BUFSIZE := (DEFAULT_MTU + 128) (only parsing).
Abbreviation MMIO_SIZE := 0x400 (only parsing).
Abbreviation PHY_ADDR := 1 (only parsing).
Abbreviation AUTONEG_DURATION_MS := 250 (only parsing).

Abbreviation MII_BMCR := 0 (only parsing).
Abbreviation MII_BMSR := 1 (only parsing).
Abbreviation MII_ANAR := 4 (only parsing).
Abbreviation MII_ANLPAR := 5 (only parsing).
Abbreviation MII_BMCR_AUTOEN := 0x1000 (only parsing).
Abbreviation MII_BMCR_FD := 0x100 (only parsing).
Abbreviation MII_BMSR_AN_COMP := 0x20 (only parsing).
Abbreviation MII_BMSR_AUTONEG := 0x8 (only parsing).
Abbreviation MII_BMSR_LINK_ST := 0x4 (only parsing).
Abbreviation MII_ANLPAR_ACK := 0x4000 (only parsing).
Abbreviation MII_ANLPAR_T4 := 0x200 (only parsing).
Abbreviation MII_ANLPAR_TXFD := 0x100 (only parsing).
Abbreviation MII_ANLPAR_TX := 0x80 (only parsing).
Abbreviation MII_ANLPAR_10FD := 0x40 (only parsing).
Abbreviation MII_ANLPAR_10 := 0x20 (only parsing).

Abbreviation DHCP_SERVER_PORT := 67 (only parsing).
Abbreviation DHCP_CLIENT_PORT := 68 (only parsing).
Abbreviation DHCP_DISCOVER := 1 (only parsing).
Abbreviation DHCP_OFFER := 2 (only parsing).
Abbreviation DHCP_REQUEST := 3 (only parsing).
Abbreviation DHCP_ACK := 5 (only parsing).
Abbreviation MAX_TCP_CONNS := 64 (only parsing).
Abbreviation MAX_UDP_CONNS := 32 (only parsing).
Abbreviation MAX_INBOUND_CONNS := 8 (only parsing).

(** ** Device state: [NvNetState]

    [irq] is the PCI interrupt line, [link_down] the flag of the NIC's
    [NetClientState]; a timer is its deadline in milliseconds, if armed. *)

Record NvNetState := mkNvNetState {
  regs : list Z;
  phy_regs : list Z;
  tx_dma_buf_offset : Z;
  tx_dma_buf : list Z;
  rx_dma_buf : list Z;
  autoneg_timer_deadline : option Z;
  proxy_poll_timer_deadline : option Z;
  tx_ring_index : Z;
  rx_ring_index : Z;
  link_down : bool;
  irq : bool
}.
#[global] Instance eta_NvNetState : EtaRecord NvNetState := λ s,
  mkNvNetState (regs s) (phy_regs s) (tx_dma_buf_offset s) (tx_dma_buf s) (rx_dma_buf s)
    (autoneg_timer_deadline s) (proxy_poll_timer_deadline s) (tx_ring_index s)
    (rx_ring_index s) (link_down s) (irq s).

(** A descriptor of the transmit or receive ring. *)
Record RingDesc := mkRingDesc { buffer_addr : Z; desc_length : Z; flags : Z }.
#[global] Instance eta_RingDesc : EtaRecord RingDesc := λ d,
  mkRingDesc (buffer_addr d) (desc_length d) (flags d).

(** ** Proxy state: the connection tables and globals of nvnet.c *)

Module tcp_conn_t.
Record t := mk {
  active : bool;
  socket_fd : Z;
  xbox_ip : Z;
  xbox_port : Z;
  remote_ip : Z;
  remote_port : Z;
  seq_out : Z;
  ack_out : Z;
  seq_in : Z;
  state : Z
}.
#[global] Instance eta_t : EtaRecord t := λ c,
  mk (active c) (socket_fd c) (xbox_ip c) (xbox_port c) (remote_ip c) (remote_port c)
    (seq_out c) (ack_out c) (seq_in c) (state c).
Definition zero : t := mk false 0 0 0 0 0 0 0 0 0.
#[global] Instance inhabited : Inhabited t := populate zero.
End tcp_conn_t.

Module udp_conn_t.
Record t := mk {
  active : bool;
  socket_fd : Z;
  xbox_ip : Z;
  xbox_port : Z;
  remote_ip : Z;
  remote_port : Z;
  last_used : Z
}.
#[global] Instance eta_t : EtaRecord t := λ c,
  mk (active c) (socket_fd c) (xbox_ip c) (xbox_port c) (remote_ip c) (remote_port c)
    (last_used c).
Definition zero : t := mk false 0 0 0 0 0 0.
#[global] Instance inhabited : Inhabited t := populate zero.
End udp_conn_t.

Module inbound_conn_t.
Record t := mk {
  active : bool;
  listen_fd : Z;
  client_fd : Z;
  client_ip : Z;
  client_port : Z;
  xbox_port : Z;
  state : Z;
  seq_to_xbox : Z;
  seq_to_client : Z
}.
#[global] Instance eta_t : EtaRecord t := λ c,
  mk (active c) (listen_fd c) (client_fd c) (client_ip c) (client_port c) (xbox_port c)
    (state c) (seq_to_xbox c) (seq_to_client c).
Definition zero : t := mk false 0 0 0 0 0 0 0 0.
#[global] Instance inhabited : Inhabited t := populate zero.
End inbound_conn_t.

Record ProxyState := mkProxyState {
  nvnet_dhcp_client_ip : Z;
  nvnet_dhcp_gateway : Z;
  nvnet_dhcp_dns : Z;
  nvnet_dhcp_server_ip : Z;
  nvnet_proxy_enabled : bool;
  nvnet_xbox_mac : list Z;
  nvnet_host_mac : list Z;
  tcp_conns : list tcp_conn_t.t;
  udp_conns : list udp_conn_t.t;
  inbound_conns : list inbound_conn_t.t;
  inbound_initialized : bool
}.
#[global] Instance eta_ProxyState : EtaRecord ProxyState := λ p,
  mkProxyState (nvnet_dhcp_client_ip p) (nvnet_dhcp_gateway p) (nvnet_dhcp_dns p)
    (nvnet_dhcp_server_ip p) (nvnet_proxy_enabled p) (nvnet_xbox_mac p) (nvnet_host_mac p)
    (tcp_conns p) (udp_conns p) (inbound_conns p) (inbound_initialized p).

(** The static initialisers of the proxy's globals. *)
Definition proxy_init : ProxyState :=
  mkProxyState 0 0 0x08080808 0 false (replicate 6 0) [0x00; 0x50; 0x56; 0xC0; 0x00; 0x01]
    (replicate 64 tcp_conn_t.zero) (replicate 32 udp_conn_t.zero)
    (replicate 8 inbound_conn_t.zero) false.

(** ** Host calls

    What the proxy asks of the C library, the kernel and QEMU's net layer.
    Their results are a parameter: [os_ret h c] is the answer to call [c] made
    after the calls [h] (most recent first). *)

Inductive host_call :=
| h_rand
| h_time
| h_clock_ms
| h_socket_stream
| h_socket_dgram
| h_setsockopt_reuseaddr (fd : Z)
| h_bind (fd port : Z)
| h_listen (fd backlog : Z)
| h_accept (fd : Z)
| h_set_nonblock (fd : Z)
| h_connect (fd ip port : Z)
| h_send (fd : Z) (data : list Z)
| h_sendto (fd : Z) (data : list Z) (ip port : Z)
| h_recv (fd len : Z)
| h_recvfrom (fd len : Z)
| h_close (fd : Z)
| h_route_src
| h_route_via
| h_inet_addr (line : list Z)
| h_qemu_send_packet (data : list Z).

Record host_ret := mkHostRet { hr_val : Z; hr_data : list Z; hr_ip : Z; hr_port : Z }.

Class HostOS := os_ret : list host_call → host_call → host_ret.

(** ** The machine the device runs in

    [ram] is guest memory as seen by PCI bus mastering, byte by byte. *)

Record World := mkWorld {
  dev : NvNetState;
  ram : Z → Z;
  proxy : ProxyState;
  trace : list host_call
}.
#[global] Instance eta_World : EtaRecord World := λ w,
  mkWorld (dev w) (ram w) (proxy w) (trace w).

Definition upd_dev (f : NvNetState → NvNetState) : M World unit := modify (λ w, w <| dev ::= f |>).
Definition upd_proxy (f : ProxyState → ProxyState) : M World unit :=
  modify (λ w, w <| proxy ::= f |>).
Definition get_dev {A} (f : NvNetState → A) : M World A := gets (λ w, f (dev w)).
Definition get_proxy {A} (f : ProxyState → A) : M World A := gets (λ w, f (proxy w)).

Definition syscall `{HostOS} (c : host_call) : M World host_ret := λ w,
  Ok (os_ret (trace w) c, w <| trace ::= cons c |>).

Definition sysval `{HostOS} (c : host_call) : M World Z := r ← syscall c; mret (hr_val r).

(** [pci_dma_read] and [pci_dma_write] on flat guest memory. *)
Definition ram_read (m : Z → Z) (a len : Z) : list Z :=
  (λ i, m (a + i)) <$> seqZ 0 len.
Definition ram_write (m : Z → Z) (a : Z) (bs : list Z) : Z → Z := λ x,
  if (a <=? x) && (x <? a + blen bs) then byte_at bs (x - a) else m x.
Definition pci_dma_read (a len : Z) : M World (list Z) := gets (λ w, ram_read (ram w) a len).
Definition pci_dma_write (a : Z) (bs : list Z) : M World unit :=
  modify (λ w, w <| ram ::= λ m, ram_write m a bs |>).

Definition pci_irq_assert : M World unit := upd_dev (λ s, s <| irq := true |>).
Definition pci_irq_deassert : M World unit := upd_dev (λ s, s <| irq := false |>).

(** [nvnet_set_dhcp_config] *)
Definition nvnet_set_dhcp_config (client_ip gateway server_ip : Z) : M World unit :=
  upd_proxy (λ p, p <| nvnet_dhcp_client_ip := client_ip |>
                    <| nvnet_dhcp_gateway := gateway |>
                    <| nvnet_dhcp_server_ip := server_ip |>
                    <| nvnet_proxy_enabled := truthy client_ip |>
                    <| tcp_conns := replicate (Z.to_nat MAX_TCP_CONNS) tcp_conn_t.zero |>
                    <| udp_conns := replicate (Z.to_nat MAX_UDP_CONNS) udp_conn_t.zero |>).

(** ** Register accessors *)

Definition get_reg_ext (addr size : Z) : M World Z :=
  assertM (addr <? MMIO_SIZE);;
  assertM ((addr &&& (size - 1)) =? 0);;
  r ← get_dev regs;
  if size =? 4 then bs ← rd r addr 4; mret (of_le bs)
  else if size =? 2 then bs ← rd r addr 2; mret (of_le bs)
  else if size =? 1 then rd8 r addr
  else raise AssertFailed.

Definition get_reg (addr : Z) : M World Z := get_reg_ext addr 4.

Definition set_reg_ext (addr val size : Z) : M World unit :=
  assertM (addr <? MMIO_SIZE);;
  assertM ((addr &&& (size - 1)) =? 0);;
  r ← get_dev regs;
  r' ← (if size =? 4 then wr r addr (le_bytes 4 (u32 val))
        else if size =? 2 then wr r addr (le_bytes 2 (u16 val))
        else if size =? 1 then wr r addr [u8 val]
        else raise AssertFailed);
  upd_dev (λ s, s <| regs := r' |>).

Definition set_reg (addr val : Z) : M World unit := set_reg_ext addr val 4.

Definition or_reg (addr val : Z) : M World unit :=
  v ← get_reg addr; set_reg addr (v ||| val).

Definition and_reg (addr val : Z) : M World unit :=
  v ← get_reg addr; set_reg addr (v &&& val).

Definition set_reg_with_mask (addr val w_mask : Z) : M World unit :=
  v ← get_reg addr;
  set_reg addr ((v &&& (val ||| not32 w_mask)) ||| (val &&& w_mask)).

(** ** Interrupts *)

Definition update_irq : M World unit :=
  irq_status ← get_reg NVNET_IRQ_STATUS;
  irq_mask ← get_reg NVNET_IRQ_MASK;
  if truthy (irq_mask &&& irq_status) then pci_irq_assert else pci_irq_deassert.

Definition set_intr_status (status : Z) : M World unit :=
  or_reg NVNET_IRQ_STATUS status;; update_irq.

Definition set_mii_intr_status (status : Z) : M World unit :=
  or_reg NVNET_MII_STATUS status;; set_intr_status NVNET_IRQ_STATUS_MIIEVENT.

(** ** Well-formed states and the register view *)

Record wf_dev (s : NvNetState) : Prop := {
  wf_regs_len : length (regs s) = 1024%nat;
  wf_regs : bytes (regs s);
  wf_phy_len : length (phy_regs s) = 6%nat;
  wf_phy : Forall is_u32 (phy_regs s);
  wf_tx_off : is_u32 (tx_dma_buf_offset s);
  wf_tx_len : length (tx_dma_buf s) = 1628%nat;
  wf_tx : bytes (tx_dma_buf s);
  wf_rx_len : length (rx_dma_buf s) = 1628%nat;
  wf_rx : bytes (rx_dma_buf s)
}.

(** An aligned 32-bit register of the device. *)
Definition reg_ok (a : Z) : bool := (0 <=? a) && (a <? MMIO_SIZE) && ((a &&& 3) =? 0).

Definition reg32 (s : NvNetState) (a : Z) : Z := of_le (slice a 4 (regs s)).
Definition put_reg (a v : Z) (s : NvNetState) : NvNetState :=
  s <| regs ::= put a (le_bytes 4 (u32 v)) |>.

(** The interrupt line is the one [update_irq] computes. *)
Definition irq_level (s : NvNetState) : bool :=
  truthy (reg32 s NVNET_IRQ_MASK &&& reg32 s NVNET_IRQ_STATUS).

Lemma reg_ok_bounds a : reg_ok a = true → 0 ≤ a ∧ a mod 4 = 0 ∧ a + 4 ≤ 1024.
Proof.
  unfold reg_ok. rewrite !andb_true_iff. intros [[H1%Z.leb_le H2%Z.ltb_lt] H3%Z.eqb_eq].
  change 3 with (Z.ones 2) in H3. rewrite Z.land_ones in H3 by lia.
  change (2 ^ 2) with 4 in H3. dlia.
Qed.

Lemma regs_blen s : wf_dev s → blen (regs s) = 1024.
Proof. intros H. unfold blen. by rewrite wf_regs_len. Qed.

Lemma reg32_range s a : wf_dev s → reg_ok a = true → is_u32 (reg32 s a).
Proof.
  intros H Ha%reg_ok_bounds. unfold is_u32, reg32. pose proof (regs_blen s H).
  pose proof (of_le_range (slice a 4 (regs s))) as Hr.
  rewrite blen_slice in Hr by lia. apply Hr, bytes_slice, H.
Qed.

Lemma regs_put_reg s a v : regs (put_reg a v s) = put a (le_bytes 4 (u32 v)) (regs s).
Proof. done. Qed.
Lemma reg32_put_same s a v :
  wf_dev s → reg_ok a = true → reg32 (put_reg a v s) a = u32 v.
Proof.
  intros H Ha%reg_ok_bounds. unfold reg32. rewrite regs_put_reg. pose proof (regs_blen s H).
  rewrite slice_put_same by (autorewrite with buf; lia).
  rewrite of_le_le_bytes. apply Z.mod_small, u32_range.
Qed.
Lemma reg32_put_other s a b v :
  wf_dev s → reg_ok a = true → reg_ok b = true → a ≠ b →
  reg32 (put_reg a v s) b = reg32 s b.
Proof.
  intros H Ha%reg_ok_bounds Hb%reg_ok_bounds Hab. unfold reg32. rewrite regs_put_reg.
  pose proof (regs_blen s H). rewrite slice_put_disjoint; [done|lia|lia|..];
    autorewrite with buf; dlia.
Qed.
Lemma wf_put_reg s a v : wf_dev s → wf_dev (put_reg a v s).
Proof.
  intros []. split; try done; rewrite regs_put_reg; autorewrite with buf; auto with bytes.
Qed.
#[export] Hint Resolve wf_put_reg : core.

(** Accessing a register through the device code. *)
Lemma run_get_reg w a :
  wf_dev (dev w) → reg_ok a = true → get_reg a w = Ok (reg32 (dev w) a, w).
Proof.
  intros H Ha. pose proof (reg_ok_bounds a Ha) as (?&?&?). pose proof (regs_blen _ H).
  unfold reg_ok in Ha. apply andb_true_iff in Ha as [[_ Ha]%andb_true_iff Ha'].
  unfold get_reg, get_reg_ext. do 2 erewrite run_bind by by apply run_assert.
  erewrite run_bind by done. cbn [Z.eqb Pos.eqb].
  erewrite run_bind; [done|]. unfold rd. erewrite run_bind; [done|].
  apply run_inBounds. lia.
Qed.
Lemma run_set_reg w a v :
  wf_dev (dev w) → reg_ok a = true → set_reg a v w = Ok (tt, w <| dev ::= put_reg a v |>).
Proof.
  intros H Ha. pose proof (reg_ok_bounds a Ha) as (?&?&?). pose proof (regs_blen _ H).
  unfold reg_ok in Ha. apply andb_true_iff in Ha as [[_ Ha]%andb_true_iff Ha'].
  unfold set_reg, set_reg_ext. do 2 erewrite run_bind by by apply run_assert.
  erewrite run_bind by done. cbn [Z.eqb Pos.eqb].
  erewrite run_bind; [done|]. unfold wr. erewrite run_bind; [done|].
  apply run_inBounds. rewrite blen_le_bytes. change (Z.of_nat 4) with 4. lia.
Qed.
Lemma run_or_reg w a v :
  wf_dev (dev w) → reg_ok a = true →
  or_reg a v w = Ok (tt, w <| dev ::= put_reg a (reg32 (dev w) a ||| v) |>).
Proof.
  intros H Ha. unfold or_reg. erewrite run_bind by by apply run_get_reg. by apply run_set_reg.
Qed.
Lemma run_and_reg w a v :
  wf_dev (dev w) → reg_ok a = true →
  and_reg a v w = Ok (tt, w <| dev ::= put_reg a (reg32 (dev w) a &&& v) |>).
Proof.
  intros H Ha. unfold and_reg. erewrite run_bind by by apply run_get_reg. by apply run_set_reg.
Qed.
Lemma run_update_irq w :
  wf_dev (dev w) → update_irq w = Ok (tt, w <| dev ::= λ s, s <| irq := irq_level s |> |>).
Proof.
  intros H. unfold update_irq. do 2 erewrite run_bind by by apply run_get_reg.
  change (truthy _) with (irq_level (dev w)).
  transitivity (Ok (tt, w <| dev ::= λ s, s <| irq := irq_level (dev w) |> |>)); [|done].
  by destruct (irq_level (dev w)).
Qed.

(** The state [set_intr_status] leaves behind. *)
Definition raise_status (status : Z) (s : NvNetState) : NvNetState :=
  let s' := put_reg NVNET_IRQ_STATUS (reg32 s NVNET_IRQ_STATUS ||| status) s in
  s' <| irq := irq_level s' |>.

Lemma run_set_intr_status w status :
  wf_dev (dev w) → set_intr_status status w = Ok (tt, w <| dev ::= raise_status status |>).
Proof.
  intros H. unfold set_intr_status. erewrite run_bind by by apply run_or_reg.
  rewrite run_update_irq by by apply wf_put_reg. done.
Qed.

Lemma wf_set_irq s b : wf_dev s → wf_dev (s <| irq := b |>).
Proof. by intros []. Qed.
Lemma wf_raise_status s status : wf_dev s → wf_dev (raise_status status s).
Proof. intros. by apply wf_set_irq, wf_put_reg. Qed.
#[export] Hint Resolve wf_set_irq wf_raise_status : core.

Lemma run_set_mii_intr_status w status :
  wf_dev (dev w) →
  set_mii_intr_status status w = Ok (tt, w <| dev ::= λ s,
    raise_status NVNET_IRQ_STATUS_MIIEVENT
      (put_reg NVNET_MII_STATUS (reg32 s NVNET_MII_STATUS ||| status) s) |>).
Proof.
  intros H. unfold set_mii_intr_status. erewrite run_bind by by apply run_or_reg.
  rewrite run_set_intr_status by by apply wf_put_reg. done.
Qed.

(** A device fresh from instance creation, and a machine around it. *)
Definition zero_dev : NvNetState :=
  mkNvNetState (replicate 1024 0) (replicate 6 0) 0 (replicate 1628 0) (replicate 1628 0)
    None None 0 0 false false.
Definition zero_world : World := mkWorld zero_dev (λ _, 0) proxy_init [].

Lemma wf_zero_dev : wf_dev zero_dev.
Proof.
  split; try reflexivity; try apply bytes_replicate; [|unfold is_u32; simpl; lia].
  apply Forall_replicate. unfold is_u32. lia.
Qed.

(** ** Symbolic execution on an explicit machine

    The run equations again, on a state in constructor form; the [exec] hints
    and the tactic [exec_step] run one statement of a handler. *)

Create HintDb exec.

Lemma exec_get_reg d m p t a :
  wf_dev d → reg_ok a = true → get_reg a (mkWorld d m p t) = Ok (reg32 d a, mkWorld d m p t).
Proof. intros. by rewrite run_get_reg. Qed.
Lemma exec_set_reg d m p t a v :
  wf_dev d → reg_ok a = true →
  set_reg a v (mkWorld d m p t) = Ok (tt, mkWorld (put_reg a v d) m p t).
Proof. intros. by rewrite run_set_reg. Qed.
Lemma exec_or_reg d m p t a v :
  wf_dev d → reg_ok a = true →
  or_reg a v (mkWorld d m p t) = Ok (tt, mkWorld (put_reg a (reg32 d a ||| v) d) m p t).
Proof. intros. by rewrite run_or_reg. Qed.
Lemma exec_and_reg d m p t a v :
  wf_dev d → reg_ok a = true →
  and_reg a v (mkWorld d m p t) = Ok (tt, mkWorld (put_reg a (reg32 d a &&& v) d) m p t).
Proof. intros. by rewrite run_and_reg. Qed.
Lemma exec_update_irq d m p t :
  wf_dev d →
  update_irq (mkWorld d m p t) = Ok (tt, mkWorld (d <| irq := irq_level d |>) m p t).
Proof. intros. by rewrite run_update_irq. Qed.
Lemma exec_set_intr_status d m p t status :
  wf_dev d →
  set_intr_status status (mkWorld d m p t) = Ok (tt, mkWorld (raise_status status d) m p t).
Proof. intros. by rewrite run_set_intr_status. Qed.
Lemma exec_set_mii_intr_status d m p t status :
  wf_dev d →
  set_mii_intr_status status (mkWorld d m p t) = Ok (tt, mkWorld
    (raise_status NVNET_IRQ_STATUS_MIIEVENT
       (put_reg NVNET_MII_STATUS (reg32 d NVNET_MII_STATUS ||| status) d)) m p t).
Proof. intros. by rewrite run_set_mii_intr_status. Qed.
#[export] Hint Resolve exec_get_reg exec_set_reg exec_or_reg exec_and_reg exec_update_irq
  exec_set_intr_status exec_set_mii_intr_status wf_put_reg wf_set_irq wf_raise_status : exec.
#[export] Hint Extern 1 (reg_ok _ = true) => reflexivity : exec.

Ltac exec_side := solve [eauto 40 with exec nocore | reflexivity].
Ltac exec_step := erewrite run_bind; [|exec_side].

(** ** Frames of the register accessors *)

Section reg_frames.
Context (I : World → Prop).

Lemma preserves_get_dev {A} (f : NvNetState → A) : preserves I (get_dev f).
Proof. apply preserves_gets. Qed.
Lemma preserves_get_proxy {A} (f : ProxyState → A) : preserves I (get_proxy f).
Proof. apply preserves_gets. Qed.
Lemma preserves_pci_dma_read a len : preserves I (pci_dma_read a len).
Proof. apply preserves_gets. Qed.
Lemma preserves_get_reg_ext a size : preserves I (get_reg_ext a size).
Proof. unfold get_reg_ext, get_dev. frame. Qed.
Lemma preserves_get_reg a : preserves I (get_reg a).
Proof. apply preserves_get_reg_ext. Qed.

(** An invariant blind to the register file and the interrupt line. *)
Context (HI : ∀ w r, I w → I (w <| dev ::= λ s, s <| regs := r |> |>)).
Context (Hirq : ∀ w b, I w → I (w <| dev ::= λ s, s <| irq := b |> |>)).

Lemma preserves_set_reg_ext a v size : preserves I (set_reg_ext a v size).
Proof.
  unfold set_reg_ext, get_dev. frame. intros w Hw. by apply HI.
Qed.
Lemma preserves_set_reg a v : preserves I (set_reg a v).
Proof. apply preserves_set_reg_ext. Qed.
Hint Resolve preserves_get_reg preserves_set_reg : frame.
Lemma preserves_or_reg a v : preserves I (or_reg a v).
Proof. unfold or_reg. frame. Qed.
Lemma preserves_and_reg a v : preserves I (and_reg a v).
Proof. unfold and_reg. frame. Qed.
Lemma preserves_set_reg_with_mask a v k : preserves I (set_reg_with_mask a v k).
Proof. unfold set_reg_with_mask. frame. Qed.
Lemma preserves_update_irq : preserves I update_irq.
Proof. unfold update_irq. frame; intros w Hw; by apply Hirq. Qed.
Hint Resolve preserves_or_reg preserves_update_irq : frame.
Lemma preserves_set_intr_status v : preserves I (set_intr_status v).
Proof. unfold set_intr_status. frame. Qed.
Hint Resolve preserves_set_intr_status : frame.
Lemma preserves_set_mii_intr_status v : preserves I (set_mii_intr_status v).
Proof. unfold set_mii_intr_status. frame. Qed.
End reg_frames.
#[export] Hint Resolve preserves_get_dev preserves_get_proxy preserves_pci_dma_read
  preserves_get_reg_ext preserves_get_reg : frame.
#[export] Hint Resolve preserves_set_reg_ext preserves_set_reg preserves_or_reg
  preserves_and_reg preserves_set_reg_with_mask preserves_update_irq
  preserves_set_intr_status preserves_set_mii_intr_status : frame.

(** Registers after an interrupt is raised. *)
Lemma reg32_set_irq s b a : reg32 (s <| irq := b |>) a = reg32 s a.
Proof. done. Qed.
Lemma reg32_raise_status s status :
  wf_dev s → is_u32 status →
  reg32 (raise_status status s) NVNET_IRQ_STATUS = reg32 s NVNET_IRQ_STATUS ||| status.
Proof.
  intros H Hs. unfold raise_status. rewrite reg32_set_irq, reg32_put_same by done.
  apply u32_id, lor_bound; [lia| |done]. by apply reg32_range.
Qed.
Lemma reg32_raise_status_other s status a :
  wf_dev s → reg_ok a = true → a ≠ NVNET_IRQ_STATUS →
  reg32 (raise_status status s) a = reg32 s a.
Proof. intros. unfold raise_status. by rewrite reg32_set_irq, reg32_put_other. Qed.
Lemma irq_raise_status s status :
  irq (raise_status status s) = irq_level (raise_status status s).
Proof. done. Qed.
Lemma irq_put_reg s a v : irq (put_reg a v s) = irq s.
Proof. done. Qed.
Lemma irq_level_put_reg s a v :
  wf_dev s → reg_ok a = true → a ≠ NVNET_IRQ_STATUS → a ≠ NVNET_IRQ_MASK →
  irq_level (put_reg a v s) = irq_level s.
Proof. intros. unfold irq_level. by rewrite !reg32_put_other. Qed.


(** Read registers back through a chain of writes. *)
Ltac regs_simpl :=
  repeat first
    [ rewrite reg32_put_same by exec_side
    | rewrite reg32_put_other by (exec_side || discriminate)
    | rewrite reg32_set_irq
    | rewrite reg32_raise_status by (exec_side || (unfold is_u32; vm_compute; split; congruence))
    | rewrite reg32_raise_status_other by (exec_side || discriminate) ].

(** DMA is marked as not idle and then as idle. *)
Lemma idle_again x :
  is_u32 x → u32 (u32 (x &&& not32 NVNET_TX_RX_CONTROL_IDLE) ||| NVNET_TX_RX_CONTROL_IDLE)
    = x ||| NVNET_TX_RX_CONTROL_IDLE.
Proof.
  intros Hx. rewrite u32_id by (apply lor_bound; [lia|apply u32_range|done]).
  rewrite u32_id by (apply land_bound; [lia|done]).
  apply Z.bits_inj'. intros i Hi. unfold not32, u32. rewrite !Z.lor_spec, Z.land_spec.
  destruct (Z.ltb_spec i 32).
  - rewrite Z.mod_pow2_bits_low, Z.lnot_spec by lia. by destruct (Z.testbit x i), (Z.testbit _ i).
  - by rewrite (testbit_high 32 x i).
Qed.

Lemma truthy_true x : truthy x = true ↔ x ≠ 0.
Proof. unfold truthy. rewrite negb_true_iff. apply Z.eqb_neq. Qed.
Lemma truthy_false x : truthy x = false ↔ x = 0.
Proof. unfold truthy. rewrite negb_false_iff. apply Z.eqb_eq. Qed.

Lemma testbit_not32 x i : 0 ≤ i < 32 → Z.testbit (not32 x) i = negb (Z.testbit x i).
Proof. intros. unfold not32, u32. by autorewrite with bits. Qed.

(** The masked write of register [a]: the bits of [w_mask] come from [val]. *)
Lemma run_set_reg_with_mask w a val w_mask :
  wf_dev (dev w) → reg_ok a = true → is_u32 val → is_u32 w_mask →
  set_reg_with_mask a val w_mask w = Ok (tt, w <| dev ::=
    put_reg a ((reg32 (dev w) a &&& not32 w_mask) ||| (val &&& w_mask)) |>).
Proof.
  intros H Ha Hv Hm. unfold set_reg_with_mask. erewrite run_bind by by apply run_get_reg.
  rewrite run_set_reg by done. do 4 f_equal. generalize (reg32 (dev w) a). intros r.
  bitwise i. destruct (Z.lt_ge_cases i 32).
  - rewrite testbit_not32 by lia. btauto.
  - rewrite (testbit_high 32 val), (testbit_high 32 w_mask) by done. btauto.
Qed.

(** [set_reg_with_mask] changes exactly the bits selected by the write mask:
    afterwards bit [i] of the register is that of the new value where the mask
    is set and the old one elsewhere, and no other aligned register changes. *)
Theorem set_reg_with_mask_spec w a val w_mask :
  wf_dev (dev w) → reg_ok a = true → is_u32 val → is_u32 w_mask →
  ∃ w', set_reg_with_mask a val w_mask w = Ok (tt, w') ∧ wf_dev (dev w') ∧
    (∀ i, 0 ≤ i < 32 →
       Z.testbit (reg32 (dev w') a) i =
       if Z.testbit w_mask i then Z.testbit val i else Z.testbit (reg32 (dev w) a) i) ∧
    (∀ b, reg_ok b = true → b ≠ a → reg32 (dev w') b = reg32 (dev w) b) ∧
    ram w' = ram w ∧ proxy w' = proxy w ∧ trace w' = trace w.
Proof.
  intros H Ha Hv Hm. eexists. split; [by apply run_set_reg_with_mask|]. cbn.
  split_and!; [by apply wf_put_reg| | |done..].
  - intros i Hi. rewrite reg32_put_same by done. unfold u32.
    autorewrite with bits. rewrite testbit_not32 by done. by destruct (Z.testbit w_mask i), (Z.testbit val i), (Z.testbit (reg32 (dev w) a) i).
  - intros b Hb Hne. by apply reg32_put_other.
Qed.

Lemma set_reg_with_mask_spec_witness :
  ∃ w', set_reg_with_mask NVNET_TX_RX_CONTROL 9 (not32 NVNET_TX_RX_CONTROL_IDLE) zero_world =
      Ok (tt, w') ∧ Z.testbit (reg32 (dev w') NVNET_TX_RX_CONTROL) 0 = true.
Proof.
  destruct (set_reg_with_mask_spec zero_world NVNET_TX_RX_CONTROL 9
              (not32 NVNET_TX_RX_CONTROL_IDLE) wf_zero_dev) as (w' & Hr & _ & Hb & _);
    [reflexivity|unfold is_u32; lia|apply u32_range|].
  exists w'. split; [exact Hr|]. rewrite Hb by lia. reflexivity.
Defined.
