(* ===== verification/Checksum.v ===== *)
(** * Checksum: the Internet checksum of the network proxy

    Models [ip_checksum] and [tcp_udp_checksum] of
    hw/xbox/mcpx/nvnet/nvnet.c:387-418 and relates them to the ones'
    complement sum of RFC 1071.  A [data, len] argument pair is the list of
    the [len] bytes at [data]. *)

From S2P Require Import Prelude.

(** The loop body shared by both functions: [sum += word] over byte pairs, an
    odd last byte being the high half of its word. *)
Fixpoint sum_words (data : list Z) (sum : Z) : Z :=
  match data with
  | [] => sum
  | [a] => u32 (sum + u16 (a <<< 8))
  | a :: b :: data => sum_words data (u32 (sum + (u16 (a <<< 8) ||| b)))
  end.

(** [while (sum >> 16) sum = (sum & 0xFFFF) + (sum >> 16)] *)
Fixpoint fold_carry (fuel : nat) (sum : Z) : Z :=
  match fuel with
  | O => sum
  | S fuel =>
      if truthy (sum >>> 16) then fold_carry fuel ((sum &&& 0xFFFF) + (sum >>> 16)) else sum
  end.

(** Two rounds fold any 32-bit sum ([fold_carry_enough]). *)
Definition fold_fuel : nat := 2.

Definition ip_checksum (data : list Z) : Z :=
  u16 (Z.lnot (fold_carry fold_fuel (sum_words data 0))).

Definition pseudo_sum (src_ip dst_ip proto len : Z) : Z :=
  let sum := u32 (0 + ((src_ip >>> 16) &&& 0xFFFF)) in
  let sum := u32 (sum + (src_ip &&& 0xFFFF)) in
  let sum := u32 (sum + ((dst_ip >>> 16) &&& 0xFFFF)) in
  let sum := u32 (sum + (dst_ip &&& 0xFFFF)) in
  let sum := u32 (sum + proto) in
  u32 (sum + len).

Definition tcp_udp_checksum (src_ip dst_ip proto : Z) (data : list Z) : Z :=
  let sum := pseudo_sum src_ip dst_ip proto (blen data) in
  u16 (Z.lnot (fold_carry fold_fuel (sum_words data sum))).

(** ** Reference: the 16-bit ones' complement sum, carry added at every step *)

Definition oc_add (a b : Z) : Z := if a + b <=? 0xFFFF then a + b else a + b - 0xFFFF.

(** The big-endian 16-bit words of a byte string, zero padded. *)
Fixpoint words (data : list Z) : list Z :=
  match data with
  | [] => []
  | [a] => [a * 2 ^ 8]
  | a :: b :: data => (a * 2 ^ 8 + b) :: words data
  end.

Definition rfc1071 (data : list Z) : Z := 0xFFFF - foldl oc_add 0 (words data).

(** ** Lemmas *)

Definition wsum (data : list Z) : Z := foldr Z.add 0 (words data).

(** Induction two bytes at a time. *)
Lemma pair_ind (P : list Z → Prop) :
  P [] → (∀ a, P [a]) → (∀ a b l, P l → P (a :: b :: l)) → ∀ l, P l.
Proof.
  intros H0 H1 H2. fix IH 1. intros [|a [|b l]]; [done|apply H1|apply H2, IH].
Qed.

Lemma words_range data : bytes data → Forall is_u16 (words data).
Proof.
  unfold bytes. induction data as [|a|a b l IH] using pair_ind; intros H; cbn [words foldr length].
  - done.
  - apply Forall_cons in H as [H _]. apply Forall_singleton. unfold is_u8, is_u16 in *. lia.
  - apply Forall_cons in H as [Ha [Hb Hl]%Forall_cons]. constructor; [|by apply IH].
    unfold is_u8, is_u16 in *. lia.
Qed.
Lemma wsum_range data : bytes data → 0 ≤ wsum data ≤ 0xFFFF * blen data.
Proof.
  unfold bytes, wsum, blen.
  induction data as [|a|a b l IH] using pair_ind; intros H; cbn [words foldr length].
  - lia.
  - apply Forall_cons in H as [H _]. unfold is_u8 in *. lia.
  - apply Forall_cons in H as [Ha [Hb Hl]%Forall_cons]. specialize (IH Hl).
    unfold is_u8 in *. lia.
Qed.

Lemma word_add a b : is_u8 a → is_u8 b → u16 (a <<< 8) ||| b = a * 2 ^ 8 + b.
Proof.
  unfold is_u8. intros. rewrite <-(lor_shl_add 8 a b) by lia. f_equal.
  apply u16_id. unfold is_u16. rewrite Z.shiftl_mul_pow2 by lia. lia.
Qed.

Lemma u32_add x y : u32 (u32 x + y) = u32 (x + y).
Proof. unfold u32. apply Zplus_mod_idemp_l. Qed.
Lemma u32_add_r x y : u32 (x + u32 y) = u32 (x + y).
Proof. unfold u32. apply Zplus_mod_idemp_r. Qed.

Lemma sum_words_spec data sum :
  bytes data → is_u32 sum → sum_words data sum = u32 (sum + wsum data).
Proof.
  revert sum. induction data as [|a|a b l IH] using pair_ind; intros sum H Hs.
  - unfold wsum. cbn [words foldr]. rewrite Z.add_0_r, u32_id; done.
  - apply Forall_cons in H as [H _]. cbn [sum_words]. do 2 f_equal.
    pose proof (word_add a 0 H ltac:(unfold is_u8; lia)) as E.
    rewrite Z.lor_0_r in E. rewrite E. unfold wsum. cbn [words foldr]. lia.
  - apply Forall_cons in H as [Ha [Hb Hl]%Forall_cons]. cbn [sum_words].
    rewrite IH; [|done|apply u32_range]. rewrite word_add by done.
    rewrite u32_add. f_equal. unfold wsum. cbn [words foldr]. lia.
Qed.

(** A folded sum is the residue modulo 65535, with 65535 standing for a
    non-zero multiple. *)
Definition folds_to (s r : Z) : Prop :=
  0 ≤ r ≤ 0xFFFF ∧ r mod 0xFFFF = s mod 0xFFFF ∧ (r = 0 ↔ s = 0).

Lemma folds_to_unique s r r' : folds_to s r → folds_to s r' → r = r'.
Proof. unfold folds_to. intros (?&H1&?) (?&H2&?). rewrite <-H2 in H1. dlia. Qed.

Lemma fold_step sum : is_u32 sum →
  (sum &&& 0xFFFF) + (sum >>> 16) = sum mod 2 ^ 16 + sum / 2 ^ 16.
Proof.
  intros. change 0xFFFF with (Z.ones 16). by rewrite Z.land_ones, Z.shiftr_div_pow2.
Qed.
Lemma fold_exit sum : is_u32 sum → truthy (sum >>> 16) = negb (sum <? 2 ^ 16).
Proof.
  intros H. unfold is_u32 in H. unfold truthy. rewrite Z.shiftr_div_pow2 by lia. f_equal.
  apply eq_true_iff_eq. rewrite Z.eqb_eq, Z.ltb_lt. dlia.
Qed.

Lemma fold_carry_spec n sum : is_u32 sum → folds_to sum (fold_carry (2 + n) sum).
Proof.
  intros H. cbn [Nat.add fold_carry]. rewrite fold_exit, fold_step by done.
  unfold is_u32 in H. destruct (Z.ltb_spec sum (2 ^ 16)); cbn [negb].
  { unfold folds_to. split_and!; [lia|lia|done..]. }
  set (s1 := sum mod 2 ^ 16 + sum / 2 ^ 16).
  assert (Hs1 : 0 < s1 ≤ 0x1FFFE) by (unfold s1; dlia).
  assert (Hm : s1 mod 0xFFFF = sum mod 0xFFFF) by (unfold s1; dlia).
  rewrite fold_exit, fold_step by (unfold is_u32; lia).
  destruct (Z.ltb_spec s1 (2 ^ 16)); cbn [negb].
  { unfold folds_to. rewrite Hm. split_and!; [lia|lia|done|lia]. }
  set (s2 := s1 mod 2 ^ 16 + s1 / 2 ^ 16).
  assert (Hs2 : 0 < s2 < 2 ^ 16) by (unfold s2; dlia).
  assert (Hm2 : s2 mod 0xFFFF = s1 mod 0xFFFF) by (unfold s2; dlia).
  replace (fold_carry n s2) with s2.
  - unfold folds_to. rewrite Hm2, Hm. split_and!; [lia|lia|done|lia].
  - destruct n; [done|]. cbn [fold_carry]. rewrite fold_exit by (unfold is_u32; lia).
    replace (s2 <? 2 ^ 16) with true by lia. done.
Qed.

Lemma fold_exists s : is_u32 s → folds_to s (fold_carry fold_fuel s).
Proof. apply (fold_carry_spec 0). Qed.
Lemma fold_carry_enough n sum : is_u32 sum → fold_carry (2 + n) sum = fold_carry fold_fuel sum.
Proof.
  intros H. apply (folds_to_unique sum); [by apply fold_carry_spec|].
  by apply fold_exists.
Qed.

Lemma u16_lnot r : 0 ≤ r ≤ 0xFFFF → u16 (Z.lnot r) = 0xFFFF - r.
Proof. intros. unfold u16, Z.lnot, Z.pred. dlia. Qed.

Lemma oc_add_folds s r a : folds_to s r → 0 ≤ s → is_u16 a → folds_to (s + a) (oc_add r a).
Proof.
  unfold folds_to, oc_add, is_u16. intros (Hr & Hm & Hz) Hs Ha.
  assert ((r + a) mod 0xFFFF = (s + a) mod 0xFFFF) as Hm'.
  { rewrite Z.add_mod, Hm, <-Z.add_mod by lia. done. }
  rewrite <-Hm'. destruct (Z.leb_spec (r + a) 0xFFFF).
  - split_and!; [lia|lia|done|lia].
  - split_and!; [lia|lia| |lia].
    replace (r + a - 0xFFFF) with (r + a + (-1) * 0xFFFF) by lia.
    apply Z.mod_add. lia.
Qed.
Lemma foldl_oc_add ws s r :
  folds_to s r → 0 ≤ s → Forall is_u16 ws →
  folds_to (s + foldr Z.add 0 ws) (foldl oc_add r ws).
Proof.
  intros Hr Hs H. revert s r Hr Hs. induction H as [|w ws Hw Hws IH]; intros s r Hr Hs; simpl.
  - by rewrite Z.add_0_r.
  - rewrite Z.add_assoc. apply IH; [by apply oc_add_folds|]. unfold is_u16 in Hw. lia.
Qed.

(** Sums of at most [2^16] bytes do not wrap around 32 bits. *)
Lemma wsum_small data : bytes data → blen data ≤ 2 ^ 16 → is_u32 (wsum data).
Proof. intros H ?. pose proof (wsum_range data H). unfold is_u32. lia. Qed.

Lemma ip_checksum_folds data r :
  bytes data → blen data ≤ 2 ^ 16 → folds_to (wsum data) r → ip_checksum data = 0xFFFF - r.
Proof.
  intros Hb Hl Hr. unfold ip_checksum. pose proof (wsum_small data Hb Hl).
  rewrite sum_words_spec by (done || (unfold is_u32; lia)). rewrite Z.add_0_l, u32_id by done.
  rewrite (folds_to_unique _ _ r (fold_exists _ H) Hr). apply u16_lnot, Hr.
Qed.

(** Replacing a zeroed, word-aligned 16-bit field adds its value to the sum. *)
Lemma wsum_app d1 d2 : Nat.Even (length d1) → wsum (d1 ++ d2) = wsum d1 + wsum d2.
Proof.
  unfold wsum. induction d1 as [|a|a b l IH] using pair_ind; intros He.
  - done.
  - destruct He as [k Hk]. simpl in Hk. lia.
  - destruct He as [k Hk]. simpl in Hk. cbn [app words foldr]. rewrite IH; [lia|].
    exists (k - 1)%nat. lia.
Qed.
Lemma put_split off bs buf :
  0 ≤ off → off + blen bs ≤ blen buf →
  put off bs buf = take (Z.to_nat off) buf ++ bs ++ drop (Z.to_nat off + length bs) buf.
Proof.
  intros Ho Hl. apply list_eq. intros i. rewrite lookup_put by done. unfold blen in *.
  case_decide.
  - rewrite lookup_app_r by (rewrite length_take; lia).
    rewrite lookup_app_l by (rewrite length_take; lia). f_equal. rewrite length_take. lia.
  - destruct (Z.lt_ge_cases (Z.of_nat i) off).
    + rewrite lookup_app_l by (rewrite length_take; lia).
      rewrite lookup_take, decide_True by lia. done.
    + rewrite !lookup_app_r by (rewrite ?length_take; lia). rewrite lookup_drop, length_take.
      f_equal. lia.
Qed.
Lemma wsum_put off a b buf :
  0 ≤ off → off + 2 ≤ blen buf → Z.Even off → slice off 2 buf = [0; 0] →
  wsum (put off [a; b] buf) = wsum buf + (a * 2 ^ 8 + b).
Proof.
  intros Ho Hl [k Hk] Hz.
  assert (Nat.Even (length (take (Z.to_nat off) buf))) as He.
  { exists (Z.to_nat k). rewrite length_take. unfold blen in Hl. lia. }
  assert (buf = take (Z.to_nat off) buf ++ [0; 0] ++ drop (Z.to_nat off + 2) buf) as Hb.
  { rewrite <-Hz. unfold slice. rewrite <-(drop_drop buf 2 (Z.to_nat off)).
    change (Z.to_nat 2) with 2%nat. by rewrite take_drop, take_drop. }
  rewrite put_split by (unfold blen in *; simpl; lia). rewrite Hb at 3.
  rewrite !(wsum_app _ _ He). unfold wsum at 2 4. cbn [length app words foldr].
  fold (wsum (drop (Z.to_nat off + 2) buf)). lia.
Qed.

(** The 16-bit value stored as two bytes, high byte first. *)
Lemma split_be16 v : is_u16 v → (v >>> 8) * 2 ^ 8 + (v &&& 0xFF) = v.
Proof.
  unfold is_u16. intros. change 0xFF with (Z.ones 8).
  rewrite Z.land_ones, Z.shiftr_div_pow2 by lia. dlia.
Qed.
Lemma be16_bytes v : is_u16 v → is_u8 (v >>> 8) ∧ is_u8 (v &&& 0xFF).
Proof.
  unfold is_u16, is_u8. intros. change 0xFF with (Z.ones 8).
  rewrite Z.land_ones, Z.shiftr_div_pow2 by lia. dlia.
Qed.

(** Adding the complement of a folded sum gives a non-zero multiple of 65535. *)
Lemma folds_to_complement s r : 0 ≤ s → folds_to s r → folds_to (s + (0xFFFF - r)) 0xFFFF.
Proof.
  intros Hs (Hr & Hm & Hz). split_and!; [lia|lia| |lia].
  rewrite Z.mod_same by lia. symmetry.
  replace (s + (0xFFFF - r)) with (s - r + 1 * 0xFFFF) by lia. rewrite Z.mod_add by lia.
  rewrite Zminus_mod, Hm, Z.sub_diag. done.
Qed.

Lemma pseudo_sum_range src dst proto len :
  is_u8 proto → 0 ≤ len ≤ 2 ^ 16 →
  is_u32 (pseudo_sum src dst proto len) ∧
  ∃ a b c d, 0 ≤ a < 2 ^ 16 ∧ 0 ≤ b < 2 ^ 16 ∧ 0 ≤ c < 2 ^ 16 ∧ 0 ≤ d < 2 ^ 16 ∧
    pseudo_sum src dst proto len = a + b + c + d + proto + len.
Proof.
  unfold is_u8. intros Hp Hl. split; [apply u32_range|].
  unfold pseudo_sum.
  exists ((src >>> 16) &&& 0xFFFF), (src &&& 0xFFFF), ((dst >>> 16) &&& 0xFFFF), (dst &&& 0xFFFF).
  pose proof (land_bound_r 16 (src >>> 16) 0xFFFF ltac:(lia) ltac:(lia)).
  pose proof (land_bound_r 16 src 0xFFFF ltac:(lia) ltac:(lia)).
  pose proof (land_bound_r 16 (dst >>> 16) 0xFFFF ltac:(lia) ltac:(lia)).
  pose proof (land_bound_r 16 dst 0xFFFF ltac:(lia) ltac:(lia)).
  split_and!; try lia. wrap_small. lia.
Qed.

(** Both checksums at once: a run of the summing loop from [sum], with the
    checksum stored in a zeroed field, folds to all ones. *)
Lemma checksum_stored_folds sum data off ck :
  bytes data → 0 ≤ sum < 2 ^ 20 → blen data ≤ 2 ^ 15 →
  0 ≤ off → off + 2 ≤ blen data → Z.Even off → slice off 2 data = [0; 0] →
  ck = u16 (Z.lnot (fold_carry fold_fuel (sum_words data sum))) →
  u16 (Z.lnot (fold_carry fold_fuel
         (sum_words (put off [ck >>> 8; ck &&& 0xFF] data) sum))) = 0.
Proof.
  intros Hb Hs Hl Ho Hlo He Hz Hck. pose proof (wsum_range data Hb).
  assert (is_u32 sum ∧ is_u32 (sum + wsum data)) as [Hs32 Hws] by (unfold is_u32; lia).
  rewrite sum_words_spec, (u32_id (sum + wsum data)) in Hck by done.
  pose proof (fold_exists _ Hws) as Hf. pose proof (proj1 Hf).
  rewrite u16_lnot in Hck by done.
  assert (is_u16 ck) as Hck16 by (unfold is_u16; lia). pose proof (be16_bytes ck Hck16) as [??].
  rewrite sum_words_spec; [|apply bytes_put; [|done]; by repeat (constructor; [done|])|done].
  rewrite wsum_put, split_be16 by done.
  assert (is_u32 (sum + (wsum data + ck))) as H32 by (unfold is_u32; lia).
  rewrite (u32_id _ H32).
  rewrite (folds_to_unique _ _ 0xFFFF (fold_exists _ H32)); [done|].
  rewrite Hck, Z.add_assoc. apply folds_to_complement; [unfold is_u32 in *; lia|done].
Qed.

(** ** Properties *)

(** The carry-folding loop of the checksums terminates: on any 32-bit sum
    two rounds reach the loop's exit condition, and further rounds change
    nothing. *)
Theorem fold_carry_terminates sum n :
  is_u32 sum →
  truthy (fold_carry fold_fuel sum >>> 16) = false ∧
  fold_carry (2 + n) sum = fold_carry fold_fuel sum.
Proof.
  intros H. split; [|by apply fold_carry_enough].
  destruct (fold_exists sum H) as (Hr & _). rewrite fold_exit by (unfold is_u32; lia).
  rewrite negb_false_iff. lia.
Qed.

Lemma fold_carry_terminates_witness :
  is_u32 0xFFFFFFFF ∧ fold_carry (2 + 5) 0xFFFFFFFF = fold_carry fold_fuel 0xFFFFFFFF.
Proof.
  assert (is_u32 0xFFFFFFFF) as H by (unfold is_u32; lia). split; [exact H|].
  apply (fold_carry_terminates 0xFFFFFFFF 5 H).
Defined.

(** C35. [ip_checksum] with its deferred carries computes the RFC 1071 checksum,
    the complement of the ones' complement sum with the carry added at each
    step, of every byte string of up to 64 KiB. *)
Theorem ip_checksum_rfc1071 data :
  bytes data → blen data ≤ 2 ^ 16 → ip_checksum data = rfc1071 data.
Proof.
  intros Hb Hl. unfold rfc1071. apply ip_checksum_folds; [done..|].
  apply (foldl_oc_add (words data) 0 0); [|lia|by apply words_range].
  unfold folds_to. split_and!; lia.
Qed.

Lemma ip_checksum_rfc1071_witness :
  ip_checksum [0x45; 0; 0; 0x3c; 0x1c; 0x46; 0x40; 0; 0x40; 6; 0; 0; 0xac; 0x10; 0x0a; 0x63;
               0xac; 0x10; 0x0a; 0x0c] = 0xb1e6.
Proof.
  rewrite ip_checksum_rfc1071; [vm_compute; reflexivity| |vm_compute; discriminate].
  repeat constructor; vm_compute; try discriminate; reflexivity.
Defined.

(** A header whose checksum field was zero when [ip_checksum] was computed,
    and then holds the result in network order, verifies: its checksum is 0. *)
Theorem ip_checksum_verifies data off :
  bytes data → blen data ≤ 2 ^ 15 →
  0 ≤ off → off + 2 ≤ blen data → Z.Even off → slice off 2 data = [0; 0] →
  let ck := ip_checksum data in
  ip_checksum (put off [ck >>> 8; ck &&& 0xFF] data) = 0.
Proof. intros. unfold ip_checksum at 1. apply checksum_stored_folds; (done || lia). Qed.

Lemma ip_checksum_verifies_witness :
  let hdr := [0x45; 0; 0; 40; 1; 2; 0; 0; 64; 6; 0; 0; 8; 8; 8; 8; 10; 0; 0; 5] in
  let ck := ip_checksum hdr in
  ck ≠ 0 ∧ ip_checksum (put 10 [ck >>> 8; ck &&& 0xFF] hdr) = 0.
Proof.
  intros hdr ck. split; [vm_compute; discriminate|].
  apply (ip_checksum_verifies hdr 10).
  - repeat constructor; vm_compute; try discriminate; reflexivity.
  - vm_compute; discriminate.
  - lia.
  - vm_compute; discriminate.
  - by exists 5.
  - reflexivity.
Defined.

(** The same for [tcp_udp_checksum] with its pseudo header: a segment with
    the checksum stored in its zeroed field verifies against the same addresses
    and protocol. *)
Theorem tcp_udp_checksum_verifies src_ip dst_ip proto data off :
  is_u8 proto → bytes data → blen data ≤ 2 ^ 15 →
  0 ≤ off → off + 2 ≤ blen data → Z.Even off → slice off 2 data = [0; 0] →
  let ck := tcp_udp_checksum src_ip dst_ip proto data in
  tcp_udp_checksum src_ip dst_ip proto (put off [ck >>> 8; ck &&& 0xFF] data) = 0.
Proof.
  intros Hp Hb Hl **. unfold tcp_udp_checksum at 1. rewrite blen_put.
  pose proof (blen_nonneg data). destruct (pseudo_sum_range src_ip dst_ip proto (blen data))
    as (? & a & b & c & d & ? & ? & ? & ? & Hs); [done|lia|].
  unfold is_u8 in Hp. apply checksum_stored_folds; (done || lia).
Qed.

Lemma tcp_udp_checksum_verifies_witness :
  let seg := [0x14; 0x51; 0; 80; 0; 0; 0; 1; 0; 0; 0; 0; 0x50; 2; 0xFF; 0xFF; 0; 0; 0; 0; 7] in
  let ck := tcp_udp_checksum 0x08080808 0x0A000005 6 seg in
  ck ≠ 0 ∧ tcp_udp_checksum 0x08080808 0x0A000005 6 (put 16 [ck >>> 8; ck &&& 0xFF] seg) = 0.
Proof.
  intros seg ck. split; [vm_compute; discriminate|].
  apply (tcp_udp_checksum_verifies 0x08080808 0x0A000005 6 seg 16).
  - unfold is_u8. lia.
  - repeat constructor; vm_compute; try discriminate; reflexivity.
  - vm_compute; discriminate.
  - lia.
  - vm_compute; discriminate.
  - by exists 8.
  - reflexivity.
Defined.
