(* ===== verification/NvnetRx.v ===== *)
(** * NvnetRx: descriptor rings and packet reception

    Models nvnet.c:1295-1483 (ring geometry, descriptors, [nvnet_can_receive],
    [dma_packet_to_guest]) and nvnet.c:1596-1678 (receive filter and the NIC's
    receive callbacks), with the scatter/gather helpers of util/iov.c. *)

From S2P Require Import Prelude NvnetState.

Definition sizeof_RingDesc := 8.

(** ** Ring geometry *)

Definition get_tx_ring_size : M World Z :=
  ring_size ← get_reg NVNET_RING_SIZE;
  mret (u16 (GET_MASK ring_size NVNET_RING_SIZE_TX + 1)).

Definition get_rx_ring_size : M World Z :=
  ring_size ← get_reg NVNET_RING_SIZE;
  mret (u16 (GET_MASK ring_size NVNET_RING_SIZE_RX + 1)).

Definition reset_descriptor_ring_pointers : M World unit :=
  base_desc_addr ← get_reg NVNET_TX_RING_PHYS_ADDR;
  set_reg NVNET_TX_RING_CURRENT_DESC_PHYS_ADDR base_desc_addr;;
  set_reg NVNET_TX_RING_NEXT_DESC_PHYS_ADDR base_desc_addr;;
  base_desc_addr ← get_reg NVNET_RX_RING_PHYS_ADDR;
  set_reg NVNET_RX_RING_CURRENT_DESC_PHYS_ADDR base_desc_addr;;
  set_reg NVNET_RX_RING_NEXT_DESC_PHYS_ADDR base_desc_addr.

Definition phy_reg (i : Z) (s : NvNetState) : Z := phy_regs s !!! Z.to_nat i.
Definition set_phy_reg (i v : Z) (s : NvNetState) : NvNetState :=
  s <| phy_regs ::= <[Z.to_nat i := v]> |>.

Lemma wf_set_phy_reg s i v : wf_dev s → is_u32 v → wf_dev (set_phy_reg i v s).
Proof.
  intros [] Hv. split; try done; cbn; [by rewrite length_insert|by apply Forall_insert].
Qed.

Definition link_up : M World bool :=
  get_dev (λ s, truthy (phy_reg MII_BMSR s &&& MII_BMSR_LINK_ST)).

Definition dma_enabled : M World bool :=
  v ← get_reg NVNET_TX_RX_CONTROL; mret ((v &&& NVNET_TX_RX_CONTROL_BIT2) =? 0).

Definition set_dma_idle (idle : bool) : M World unit :=
  if idle then or_reg NVNET_TX_RX_CONTROL NVNET_TX_RX_CONTROL_IDLE
  else and_reg NVNET_TX_RX_CONTROL (not32 NVNET_TX_RX_CONTROL_IDLE).

Definition rx_enabled : M World bool :=
  v ← get_reg NVNET_RECEIVER_CONTROL; mret (truthy (v &&& NVNET_RECEIVER_CONTROL_START)).

Definition update_current_rx_ring_desc_addr : M World Z :=
  base_desc_addr ← get_reg NVNET_RX_RING_PHYS_ADDR;
  ring_size ← get_rx_ring_size;
  let max_desc_addr := u32 (base_desc_addr + ring_size * sizeof_RingDesc) in
  cur_desc_addr ← get_reg NVNET_RX_RING_NEXT_DESC_PHYS_ADDR;
  let cur_desc_addr :=
    if (cur_desc_addr <? base_desc_addr) || (cur_desc_addr + sizeof_RingDesc >? max_desc_addr)
    then base_desc_addr else cur_desc_addr in
  set_reg NVNET_RX_RING_CURRENT_DESC_PHYS_ADDR cur_desc_addr;;
  mret cur_desc_addr.

Definition advance_next_rx_ring_desc_addr : M World unit :=
  base_desc_addr ← get_reg NVNET_RX_RING_PHYS_ADDR;
  ring_size ← get_rx_ring_size;
  let max_desc_addr := u32 (base_desc_addr + ring_size * sizeof_RingDesc) in
  cur_desc_addr ← get_reg NVNET_RX_RING_CURRENT_DESC_PHYS_ADDR;
  let next_desc_addr := u32 (cur_desc_addr + sizeof_RingDesc) in
  let next_desc_addr :=
    if next_desc_addr >=? max_desc_addr then base_desc_addr else next_desc_addr in
  set_reg NVNET_RX_RING_NEXT_DESC_PHYS_ADDR next_desc_addr.

(** ** Descriptors in guest memory *)

Definition load_ring_desc (desc_addr : Z) : M World RingDesc :=
  raw ← pci_dma_read desc_addr sizeof_RingDesc;
  mret (mkRingDesc (of_le (slice 0 4 raw)) (of_le (slice 4 2 raw)) (of_le (slice 6 2 raw))).

Definition ring_desc_bytes (desc : RingDesc) : list Z :=
  le_bytes 4 (buffer_addr desc) ++ le_bytes 2 (desc_length desc) ++ le_bytes 2 (flags desc).

Definition store_ring_desc (desc_addr : Z) (desc : RingDesc) : M World unit :=
  pci_dma_write desc_addr (ring_desc_bytes desc).

Definition rx_buf_available : M World bool :=
  cur_desc_addr ← update_current_rx_ring_desc_addr;
  desc ← load_ring_desc cur_desc_addr;
  mret (truthy (flags desc &&& NV_RX_AVAIL)).

Definition nvnet_can_receive : M World bool :=
  rx_en ← rx_enabled;
  dma_en ← dma_enabled;
  link_en ← link_up;
  buf_avail ← rx_buf_available;
  mret (rx_en && dma_en && link_en && buf_avail).

(** [buf] is the whole object the frame lives in, [size] the frame's length.
    The ethertype is read for the log only. *)
Definition dma_packet_to_guest (buf : list Z) (size : Z) : M World Z :=
  (if size >=? 14 then _ ← rd_be16 buf 12; mret tt else mret tt);;
  can_rx ← nvnet_can_receive;
  if negb can_rx then mret (-1)
  else
    set_dma_idle false;;
    cur_desc_addr ← update_current_rx_ring_desc_addr;
    desc ← load_ring_desc cur_desc_addr;
    rval ←
      (if truthy (flags desc &&& NV_RX_AVAIL) then
         assertM (desc_length desc + 1 >=? size);;
         data ← rd buf 0 size;
         pci_dma_write (buffer_addr desc) data;;
         let desc := desc <| desc_length := u16 size |>
                          <| flags := NV_RX_BIT4 ||| NV_RX_DESCRIPTORVALID |> in
         store_ring_desc cur_desc_addr desc;;
         set_intr_status NVNET_IRQ_STATUS_RX;;
         advance_next_rx_ring_desc_addr;;
         mret size
       else mret (-1));
    set_dma_idle true;;
    mret rval.

(** ** Receive filter *)

Definition is_packet_oversized (size : Z) : bool := size >? RX_ALLOC_BUFSIZE.

Definition is_broadcast_ether_addr (addr : list Z) : bool :=
  (byte_at addr 0 &&& byte_at addr 1 &&& byte_at addr 2 &&& byte_at addr 3 &&&
   byte_at addr 4 &&& byte_at addr 5) =? 0xff.

(** The first six bytes of a register pair in memory order. *)
Definition addr_bytes (a b : Z) : list Z := le_bytes 4 a ++ le_bytes 2 b.

Definition receive_filter (buf : list Z) (size : Z) : M World bool :=
  if size <? 6 then mret false
  else
    rctl ← get_reg NVNET_PACKET_FILTER;
    dest ← rd buf 0 6;
    if is_broadcast_ether_addr dest then mret true
    else if negb (truthy (rctl &&& NVNET_PACKET_FILTER_MYADDR)) then mret true
    else
      a ← get_reg NVNET_MULTICAST_ADDR_A;
      b ← get_reg NVNET_MULTICAST_ADDR_B;
      mcast ←
        (if negb (is_broadcast_ether_addr (addr_bytes a b)) then
           ma ← get_reg NVNET_MULTICAST_MASK_A;
           mb ← get_reg NVNET_MULTICAST_MASK_B;
           mret (bool_decide (zip_with Z.land dest (addr_bytes ma mb) = addr_bytes a b))
         else mret false);
      if (mcast : bool) then mret true
      else
        a ← get_reg NVNET_MAC_ADDR_A;
        b ← get_reg NVNET_MAC_ADDR_B;
        mret (bool_decide (dest = addr_bytes a b)).

(** ** Receive callbacks: an [iovec] array is a list of chunks *)

Fixpoint iov_size (iov : list (list Z)) : Z :=
  match iov with
  | [] => 0
  | v :: iov => blen v + iov_size iov
  end.

(** [iov_to_buf] from offset 0: the bytes copied, chunk by chunk. *)
Fixpoint iov_to_buf (iov : list (list Z)) (bytes : Z) : list Z :=
  match iov with
  | [] => []
  | v :: iov =>
      if 0 <? bytes
      then let len := Z.min (blen v) bytes in slice 0 len v ++ iov_to_buf iov (bytes - len)
      else []
  end.

Definition nvnet_receive_iov (iov : list (list Z)) : M World Z :=
  let size := iov_size iov in
  if is_packet_oversized size then mret size
  else
    rx ← get_dev rx_dma_buf;
    rx' ← wr rx 0 (iov_to_buf iov size);
    upd_dev (λ s, s <| rx_dma_buf := rx' |>);;
    ok ← receive_filter rx' size;
    if negb ok then mret size
    else dma_packet_to_guest rx' size.

Definition nvnet_receive (buf : list Z) : M World Z := nvnet_receive_iov [buf].

(** ** Lemmas: rings as pure functions of the registers *)

Definition rx_ring_size (s : NvNetState) : Z :=
  u16 (GET_MASK (reg32 s NVNET_RING_SIZE) NVNET_RING_SIZE_RX + 1).
Definition rx_ring_base (s : NvNetState) : Z := reg32 s NVNET_RX_RING_PHYS_ADDR.
Definition rx_ring_max (s : NvNetState) : Z :=
  u32 (rx_ring_base s + rx_ring_size s * sizeof_RingDesc).
(** The descriptor to use given the saved pointer, and the one after it. *)
Definition ring_cur (base max next : Z) : Z :=
  if (next <? base) || (next + sizeof_RingDesc >? max) then base else next.
Definition ring_next (base max cur : Z) : Z :=
  let next := u32 (cur + sizeof_RingDesc) in if next >=? max then base else next.

Definition rx_ring_cur (s : NvNetState) : Z :=
  ring_cur (rx_ring_base s) (rx_ring_max s) (reg32 s NVNET_RX_RING_NEXT_DESC_PHYS_ADDR).
Definition rx_ring_next (s : NvNetState) : Z :=
  ring_next (rx_ring_base s) (rx_ring_max s) (reg32 s NVNET_RX_RING_CURRENT_DESC_PHYS_ADDR).

Definition read_desc (m : Z → Z) (a : Z) : RingDesc :=
  let raw := ram_read m a sizeof_RingDesc in
  mkRingDesc (of_le (slice 0 4 raw)) (of_le (slice 4 2 raw)) (of_le (slice 6 2 raw)).

Lemma exec_get_rx_ring_size d m p t :
  wf_dev d → get_rx_ring_size (mkWorld d m p t) = Ok (rx_ring_size d, mkWorld d m p t).
Proof. intros. unfold get_rx_ring_size. by exec_step. Qed.
#[export] Hint Resolve exec_get_rx_ring_size : exec.
Lemma exec_update_current_rx d m p t :
  wf_dev d →
  update_current_rx_ring_desc_addr (mkWorld d m p t) =
  Ok (rx_ring_cur d, mkWorld (put_reg NVNET_RX_RING_CURRENT_DESC_PHYS_ADDR (rx_ring_cur d) d) m p t).
Proof. intros. unfold update_current_rx_ring_desc_addr. by do 4 exec_step. Qed.
Lemma exec_advance_next_rx d m p t :
  wf_dev d →
  advance_next_rx_ring_desc_addr (mkWorld d m p t) =
  Ok (tt, mkWorld (put_reg NVNET_RX_RING_NEXT_DESC_PHYS_ADDR (rx_ring_next d) d) m p t).
Proof. intros. unfold advance_next_rx_ring_desc_addr. do 3 exec_step. by rewrite exec_set_reg. Qed.
Lemma exec_load_ring_desc d m p t a :
  load_ring_desc a (mkWorld d m p t) = Ok (read_desc m a, mkWorld d m p t).
Proof. done. Qed.
Lemma exec_dma_enabled d m p t :
  wf_dev d → dma_enabled (mkWorld d m p t) =
    Ok ((reg32 d NVNET_TX_RX_CONTROL &&& NVNET_TX_RX_CONTROL_BIT2) =? 0, mkWorld d m p t).
Proof. intros. unfold dma_enabled. by exec_step. Qed.
Lemma exec_rx_enabled d m p t :
  wf_dev d → rx_enabled (mkWorld d m p t) =
    Ok (truthy (reg32 d NVNET_RECEIVER_CONTROL &&& NVNET_RECEIVER_CONTROL_START), mkWorld d m p t).
Proof. intros. unfold rx_enabled. by exec_step. Qed.
Lemma exec_link_up d m p t :
  link_up (mkWorld d m p t) =
    Ok (truthy (phy_reg MII_BMSR d &&& MII_BMSR_LINK_ST), mkWorld d m p t).
Proof. done. Qed.
#[export] Hint Resolve exec_update_current_rx exec_advance_next_rx exec_load_ring_desc
  exec_dma_enabled exec_rx_enabled exec_link_up : exec.

(** Whether a packet can be received: enabled, DMA on, link up, buffer posted. *)
Definition rx_ready (s : NvNetState) (m : Z → Z) : bool :=
  truthy (reg32 s NVNET_RECEIVER_CONTROL &&& NVNET_RECEIVER_CONTROL_START) &&
  ((reg32 s NVNET_TX_RX_CONTROL &&& NVNET_TX_RX_CONTROL_BIT2) =? 0) &&
  truthy (phy_reg MII_BMSR s &&& MII_BMSR_LINK_ST) &&
  truthy (flags (read_desc m (rx_ring_cur s)) &&& NV_RX_AVAIL).

Lemma exec_can_receive d m p t :
  wf_dev d →
  nvnet_can_receive (mkWorld d m p t) =
  Ok (rx_ready d m, mkWorld (put_reg NVNET_RX_RING_CURRENT_DESC_PHYS_ADDR (rx_ring_cur d) d) m p t).
Proof.
  intros. unfold nvnet_can_receive. do 3 exec_step.
  erewrite run_bind; [done|]. unfold rx_buf_available. by do 2 exec_step.
Qed.
#[export] Hint Resolve exec_can_receive : exec.

(** The machine after a frame was delivered. *)
Definition rx_done_dev (d : NvNetState) : NvNetState :=
  let cur := rx_ring_cur d in
  let d := put_reg NVNET_RX_RING_CURRENT_DESC_PHYS_ADDR cur d in
  let d := put_reg NVNET_TX_RX_CONTROL
             (reg32 d NVNET_TX_RX_CONTROL &&& not32 NVNET_TX_RX_CONTROL_IDLE) d in
  let d := put_reg NVNET_RX_RING_CURRENT_DESC_PHYS_ADDR cur d in
  let d := raise_status NVNET_IRQ_STATUS_RX d in
  let d := put_reg NVNET_RX_RING_NEXT_DESC_PHYS_ADDR (rx_ring_next d) d in
  put_reg NVNET_TX_RX_CONTROL (reg32 d NVNET_TX_RX_CONTROL ||| NVNET_TX_RX_CONTROL_IDLE) d.

Definition rx_done_desc (desc : RingDesc) (size : Z) : RingDesc :=
  desc <| desc_length := u16 size |> <| flags := NV_RX_BIT4 ||| NV_RX_DESCRIPTORVALID |>.

Definition rx_done_ram (d : NvNetState) (m : Z → Z) (data : list Z) : Z → Z :=
  let desc := read_desc m (rx_ring_cur d) in
  ram_write (ram_write m (buffer_addr desc) data) (rx_ring_cur d)
    (ring_desc_bytes (rx_done_desc desc (blen data))).

Lemma exec_ethertype_log d m p t buf size :
  size ≤ blen buf →
  (if size >=? 14 then _ ← rd_be16 buf 12; mret tt else mret tt) (mkWorld d m p t) =
  Ok (tt, mkWorld d m p t).
Proof.
  intros. destruct (Z.geb_spec size 14); [|done]. erewrite run_bind; [done|].
  unfold rd_be16, rd8. erewrite run_bind; [|erewrite run_bind; [done|apply run_inBounds; lia]].
  erewrite run_bind; [done|]. erewrite run_bind; [done|apply run_inBounds; lia].
Qed.

Lemma rx_ring_cur_ext d d' :
  reg32 d' NVNET_RX_RING_PHYS_ADDR = reg32 d NVNET_RX_RING_PHYS_ADDR →
  reg32 d' NVNET_RING_SIZE = reg32 d NVNET_RING_SIZE →
  reg32 d' NVNET_RX_RING_NEXT_DESC_PHYS_ADDR = reg32 d NVNET_RX_RING_NEXT_DESC_PHYS_ADDR →
  rx_ring_cur d' = rx_ring_cur d.
Proof.
  unfold rx_ring_cur, rx_ring_max, rx_ring_base, rx_ring_size. by intros -> -> ->.
Qed.

Lemma exec_set_dma_idle d m p t (idle : bool) :
  wf_dev d →
  set_dma_idle idle (mkWorld d m p t) = Ok (tt, mkWorld (put_reg NVNET_TX_RX_CONTROL
    (if idle then reg32 d NVNET_TX_RX_CONTROL ||| NVNET_TX_RX_CONTROL_IDLE
     else reg32 d NVNET_TX_RX_CONTROL &&& not32 NVNET_TX_RX_CONTROL_IDLE) d) m p t).
Proof. intros. destruct idle; [by apply exec_or_reg | by apply exec_and_reg]. Qed.
Lemma exec_pci_dma_write d m p t a bs :
  pci_dma_write a bs (mkWorld d m p t) = Ok (tt, mkWorld d (ram_write m a bs) p t).
Proof. done. Qed.
Lemma exec_store_ring_desc d m p t a desc :
  store_ring_desc a desc (mkWorld d m p t) =
    Ok (tt, mkWorld d (ram_write m a (ring_desc_bytes desc)) p t).
Proof. done. Qed.
#[export] Hint Resolve exec_set_dma_idle exec_pci_dma_write exec_store_ring_desc : exec.

Lemma exec_dma_not_ready d m p t buf size :
  wf_dev d → size ≤ blen buf → rx_ready d m = false →
  dma_packet_to_guest buf size (mkWorld d m p t) =
  Ok (-1, mkWorld (put_reg NVNET_RX_RING_CURRENT_DESC_PHYS_ADDR (rx_ring_cur d) d) m p t).
Proof.
  intros H Hs Hr. unfold dma_packet_to_guest.
  erewrite run_bind; [|apply exec_ethertype_log; lia]. exec_step. by rewrite Hr.
Qed.

Lemma exec_dma_ready d m p t buf size :
  wf_dev d → 0 ≤ size ≤ blen buf → rx_ready d m = true →
  size ≤ desc_length (read_desc m (rx_ring_cur d)) + 1 →
  dma_packet_to_guest buf size (mkWorld d m p t) =
  Ok (size, mkWorld (rx_done_dev d) (rx_done_ram d m (slice 0 size buf)) p t).
Proof.
  intros H Hs Hr Hl. unfold dma_packet_to_guest.
  erewrite run_bind; [|apply exec_ethertype_log; lia]. exec_step. rewrite Hr. cbn [negb].
  exec_step. exec_step. rewrite (rx_ring_cur_ext d) by by regs_simpl. exec_step.
  apply andb_true_iff in Hr as [_ Hr]. rewrite Hr.
  erewrite run_bind.
  2:{ erewrite run_bind; [|apply run_assert; lia].
      erewrite run_bind; [|unfold rd; erewrite run_bind; [done|apply run_inBounds; lia]].
      do 4 exec_step. reflexivity. }
  exec_step. unfold rx_done_ram. rewrite blen_slice by lia. done.
Qed.

(** A packet the posted buffer cannot hold stops the emulator. *)
Lemma exec_dma_too_big d m p t buf size :
  wf_dev d → 0 ≤ size ≤ blen buf → rx_ready d m = true →
  desc_length (read_desc m (rx_ring_cur d)) + 1 < size →
  dma_packet_to_guest buf size (mkWorld d m p t) = Fault AssertFailed.
Proof.
  intros H Hs Hr Hl. unfold dma_packet_to_guest.
  erewrite run_bind; [|apply exec_ethertype_log; lia]. exec_step. rewrite Hr. cbn [negb].
  exec_step. exec_step. rewrite (rx_ring_cur_ext d) by by regs_simpl. exec_step.
  apply andb_true_iff in Hr as [_ Hr]. rewrite Hr.
  unfold mbind at 1, M_bind at 1. unfold mbind at 1, M_bind at 1.
  unfold assertM. by replace (_ >=? size) with false by lia.
Qed.

(** ** Lemmas: guest memory *)

Definition ram_bytes (m : Z → Z) : Prop := ∀ a, is_u8 (m a).

Lemma length_ram_read m a len : length (ram_read m a len) = Z.to_nat len.
Proof. unfold ram_read. by rewrite length_fmap, length_seqZ. Qed.
Lemma lookup_ram_read m a len i :
  Z.of_nat i < len → ram_read m a len !! i = Some (m (a + Z.of_nat i)).
Proof.
  intros. unfold ram_read. rewrite list_lookup_fmap, lookup_seqZ_lt by lia. simpl. do 2 f_equal; lia.
Qed.
Lemma bytes_ram_read m a len : ram_bytes m → bytes (ram_read m a len).
Proof. intros H. unfold bytes, ram_read. apply Forall_fmap, Forall_true. intros. apply H. Qed.
Lemma ram_read_write_same m a bs : ram_read (ram_write m a bs) a (blen bs) = bs.
Proof.
  apply list_eq. intros i. destruct (decide (i < length bs)%nat) as [Hi|Hi].
  - rewrite lookup_ram_read by (unfold blen; lia). unfold ram_write.
    replace ((_ <=? _) && _) with true by (unfold blen; lia).
    replace (a + Z.of_nat i - a) with (Z.of_nat i) by lia.
    unfold byte_at. rewrite Nat2Z.id. symmetry. by apply list_lookup_lookup_total_lt.
  - rewrite !lookup_ge_None_2; [done|lia|]. rewrite length_ram_read. unfold blen. lia.
Qed.
Lemma ram_write_other m a bs x :
  x < a ∨ a + blen bs ≤ x → ram_write m a bs x = m x.
Proof. intros. unfold ram_write. by replace ((_ <=? _) && _) with false by lia. Qed.
Lemma ram_read_ext m m' a len :
  (∀ x, a ≤ x < a + len → m x = m' x) → ram_read m a len = ram_read m' a len.
Proof.
  intros H. unfold ram_read. apply list_fmap_ext. intros i x Hx.
  apply lookup_seqZ in Hx. apply H. lia.
Qed.
Lemma ram_read_write_disjoint m a bs b len :
  b + len ≤ a ∨ a + blen bs ≤ b → ram_read (ram_write m a bs) b len = ram_read m b len.
Proof. intros. apply ram_read_ext. intros. apply ram_write_other. lia. Qed.
Lemma ram_bytes_write m a bs : ram_bytes m → bytes bs → ram_bytes (ram_write m a bs).
Proof.
  intros Hm Hb x. unfold ram_write. destruct (_ && _); [by apply bytes_byte_at|apply Hm].
Qed.

Record wf_desc (desc : RingDesc) : Prop := {
  wf_buffer_addr : is_u32 (buffer_addr desc);
  wf_length : is_u16 (desc_length desc);
  wf_flags : is_u16 (flags desc)
}.

Lemma blen_ring_desc_bytes desc : blen (ring_desc_bytes desc) = sizeof_RingDesc.
Proof. unfold ring_desc_bytes. rewrite !blen_app. by autorewrite with buf. Qed.
Lemma bytes_ring_desc_bytes desc : bytes (ring_desc_bytes desc).
Proof. unfold ring_desc_bytes. auto with bytes. Qed.
Lemma wf_read_desc m a : ram_bytes m → wf_desc (read_desc m a).
Proof.
  intros H. assert (Hr : ∀ off len, 0 ≤ off → 0 ≤ len → off + len ≤ 8 →
    0 ≤ of_le (slice off len (ram_read m a sizeof_RingDesc)) < 2 ^ (8 * len)).
  { intros off len ???. set (raw := ram_read _ _ _).
    assert (blen raw = 8) by (unfold blen, raw; by rewrite length_ram_read).
    rewrite <-(blen_slice off len raw) at 3 by lia.
    apply of_le_range, bytes_slice. by apply bytes_ram_read. }
  split; [apply (Hr 0 4)|apply (Hr 4 2)|apply (Hr 6 2)]; lia.
Qed.

(** Storing a descriptor and loading it back is the identity. *)
Lemma read_desc_stored m a desc :
  wf_desc desc → read_desc (ram_write m a (ring_desc_bytes desc)) a = desc.
Proof.
  intros [Hb Hl Hf]. unfold read_desc. rewrite <-(blen_ring_desc_bytes desc) at 1 2 3.
  rewrite ram_read_write_same. destruct desc as [b l f]. unfold ring_desc_bytes. simpl in *.
  unfold slice. simpl take. simpl drop. change (Z.to_nat 0) with 0%nat.
  f_equal.
  - change (of_le (le_bytes 4 b) = b). rewrite of_le_le_bytes. by apply Z.mod_small.
  - change (of_le (le_bytes 2 l) = l). rewrite of_le_le_bytes. by apply Z.mod_small.
  - change (of_le (le_bytes 2 f) = f). rewrite of_le_le_bytes. by apply Z.mod_small.
Qed.
Lemma read_desc_disjoint m a bs b :
  b + 8 ≤ a ∨ a + blen bs ≤ b → read_desc (ram_write m a bs) b = read_desc m b.
Proof. intros. unfold read_desc. rewrite ram_read_write_disjoint; [done|done]. Qed.

(** ** Lemmas: ring arithmetic

    A ring of [n] descriptors at [base] that fits in the 32-bit address space. *)
Definition ring_fits (base n : Z) : Prop := 0 ≤ base ∧ 1 ≤ n ∧ base + 8 * n < 2 ^ 32.

Lemma ring_max_fits base n : ring_fits base n → u32 (base + n * sizeof_RingDesc) = base + 8 * n.
Proof. intros (?&?&?). unfold sizeof_RingDesc. wrap_small. lia. Qed.

Lemma ring_cur_in base n next :
  ring_fits base n → 0 ≤ next →
  let c := ring_cur base (base + 8 * n) next in base ≤ c ∧ c + 8 ≤ base + 8 * n.
Proof.
  intros (?&?&?) ?. unfold ring_cur, sizeof_RingDesc. simpl.
  destruct (_ || _) eqn:E; [lia|]. apply orb_false_iff in E as [? ?]. lia.
Qed.
Lemma ring_cur_slot base n i :
  ring_fits base n → 0 ≤ i < n → ring_cur base (base + 8 * n) (base + 8 * i) = base + 8 * i.
Proof.
  intros (?&?&?) ?. unfold ring_cur, sizeof_RingDesc.
  by replace (_ || _) with false by lia.
Qed.
Lemma ring_next_slot base n i :
  ring_fits base n → 0 ≤ i < n →
  ring_next base (base + 8 * n) (base + 8 * i) = base + 8 * ((i + 1) mod n).
Proof.
  intros (?&?&?) ?. unfold ring_next, sizeof_RingDesc. cbv zeta. wrap_small.
  destruct (decide (i = n - 1)) as [->|].
  - replace (n - 1 + 1) with n by lia. rewrite Z.mod_same by lia.
    replace (_ >=? _) with true by lia. lia.
  - rewrite Z.mod_small by lia. replace (_ >=? _) with false by lia. lia.
Qed.

(** The receive ring registers describe a ring that fits, and the saved
    pointer is at slot [i]. *)
Definition rx_at (d : NvNetState) (i : Z) : Prop :=
  ring_fits (rx_ring_base d) (rx_ring_size d) ∧ 0 ≤ i < rx_ring_size d ∧
  reg32 d NVNET_RX_RING_NEXT_DESC_PHYS_ADDR = rx_ring_base d + 8 * i.

Definition rx_slot (d : NvNetState) (i : Z) : Z := rx_ring_base d + 8 * i.

Lemma rx_cur_at d i : rx_at d i → rx_ring_cur d = rx_slot d i.
Proof.
  intros (Hf & Hi & Hn). unfold rx_ring_cur, rx_ring_max. rewrite Hn, ring_max_fits by done.
  by apply ring_cur_slot.
Qed.

Lemma rx_slot_u32 d i : rx_at d i → is_u32 (rx_slot d i).
Proof. intros ((?&?&?) & Hi & _). unfold is_u32, rx_slot. lia. Qed.

(** What a delivery does to the registers. *)
Lemma wf_rx_done_dev d : wf_dev d → wf_dev (rx_done_dev d).
Proof. intros. unfold rx_done_dev. eauto 20 with exec. Qed.

Definition rx_changes : list Z :=
  [NVNET_RX_RING_CURRENT_DESC_PHYS_ADDR; NVNET_RX_RING_NEXT_DESC_PHYS_ADDR; NVNET_TX_RX_CONTROL;
   NVNET_IRQ_STATUS].
Lemma rx_done_other_regs d a :
  wf_dev d → reg_ok a = true → a ∉ rx_changes → reg32 (rx_done_dev d) a = reg32 d a.
Proof.
  intros H Ha Hn. unfold rx_changes in Hn. rewrite !not_elem_of_cons in Hn. destruct Hn as (H1 & H2 & H3 & H4 & _).
  unfold rx_done_dev.
  repeat first [rewrite reg32_put_other by (exec_side || done) | rewrite reg32_raise_status_other by (exec_side || done)].
  done.
Qed.
Lemma rx_done_control d :
  wf_dev d → reg32 (rx_done_dev d) NVNET_TX_RX_CONTROL =
    reg32 d NVNET_TX_RX_CONTROL ||| NVNET_TX_RX_CONTROL_IDLE.
Proof. intros H. unfold rx_done_dev. regs_simpl. apply idle_again. by apply reg32_range. Qed.
Lemma rx_done_current d :
  wf_dev d → is_u32 (rx_ring_cur d) →
  reg32 (rx_done_dev d) NVNET_RX_RING_CURRENT_DESC_PHYS_ADDR = rx_ring_cur d.
Proof. intros H Hc. unfold rx_done_dev. regs_simpl. by apply u32_id. Qed.
(** Of the device only registers and the interrupt line change. *)
Lemma rx_done_rest d : (rx_done_dev d) <| regs := regs d |> <| irq := irq d |> = d.
Proof. by destruct d. Qed.

Lemma rx_done_next d i : wf_dev d → rx_at d i →
  reg32 (rx_done_dev d) NVNET_RX_RING_NEXT_DESC_PHYS_ADDR =
    rx_slot d ((i + 1) mod rx_ring_size d).
Proof.
  intros H Hi. pose proof (rx_cur_at d i Hi) as Hc. destruct Hi as (Hf & Hi & Hn).
  unfold rx_done_dev. regs_simpl. unfold rx_ring_next, rx_ring_base, rx_ring_max, rx_ring_size.
  regs_simpl. fold (rx_ring_size d) (rx_ring_base d). unfold rx_ring_base at 2.
  regs_simpl. fold (rx_ring_base d). rewrite ring_max_fits, Hc by done.
  assert (Hs : is_u32 (rx_slot d i)) by (destruct Hf; unfold rx_slot, is_u32; lia).
  rewrite (u32_id _ Hs). unfold rx_slot. rewrite ring_next_slot by done.
  apply u32_id. pose proof (Z.mod_pos_bound (i + 1) (rx_ring_size d)).
  destruct Hf; unfold is_u32. lia.
Qed.

Lemma rx_done_irq d : wf_dev d →
  reg32 (rx_done_dev d) NVNET_IRQ_STATUS = reg32 d NVNET_IRQ_STATUS ||| NVNET_IRQ_STATUS_RX ∧
  irq (rx_done_dev d) = irq_level (rx_done_dev d).
Proof.
  intros H. split; [unfold rx_done_dev; by regs_simpl|].
  unfold rx_done_dev. rewrite !irq_put_reg, irq_raise_status.
  by rewrite !irq_level_put_reg by (exec_side || discriminate).
Qed.

Lemma rx_done_idle d : wf_dev d →
  reg32 (rx_done_dev d) NVNET_TX_RX_CONTROL =
    reg32 d NVNET_TX_RX_CONTROL ||| NVNET_TX_RX_CONTROL_IDLE.
Proof.
  intros H. pose proof (reg32_range d NVNET_TX_RX_CONTROL H eq_refl) as Hr.
  unfold rx_done_dev. regs_simpl. revert Hr. generalize (reg32 d NVNET_TX_RX_CONTROL).
  intros r Hr. apply Z.bits_inj'. intros i Hi. unfold u32.
  destruct (Z.lt_ge_cases i 32).
  - autorewrite with bits. rewrite testbit_not32 by lia. btauto.
  - rewrite Z.mod_pow2_bits_high by lia.
    symmetry. rewrite (testbit_high 32); [done| |done]. by apply lor_bound.
Qed.

(** ** Frame of a delivery: only registers, the interrupt line and RAM change *)

Section rx_frames.
Context (I : World → Prop).
Context (HI : ∀ w r, I w → I (w <| dev ::= λ s, s <| regs := r |> |>)).
Context (Hirq : ∀ w b, I w → I (w <| dev ::= λ s, s <| irq := b |> |>)).

Lemma preserves_get_rx_ring_size : preserves I get_rx_ring_size.
Proof. unfold get_rx_ring_size. frame. Qed.
Lemma preserves_get_tx_ring_size : preserves I get_tx_ring_size.
Proof. unfold get_tx_ring_size. frame. Qed.
Hint Resolve preserves_get_rx_ring_size : frame.
Lemma preserves_update_current_rx : preserves I update_current_rx_ring_desc_addr.
Proof. unfold update_current_rx_ring_desc_addr. frame. Qed.
Lemma preserves_load_ring_desc a : preserves I (load_ring_desc a).
Proof. unfold load_ring_desc. frame. Qed.
Lemma preserves_set_dma_idle b : preserves I (set_dma_idle b).
Proof. unfold set_dma_idle. frame. Qed.
Lemma preserves_dma_enabled : preserves I dma_enabled.
Proof. unfold dma_enabled. frame. Qed.
Lemma preserves_link_up : preserves I link_up.
Proof. unfold link_up. frame. Qed.
Hint Resolve preserves_update_current_rx preserves_load_ring_desc preserves_set_dma_idle
  preserves_dma_enabled preserves_link_up : frame.
Lemma preserves_can_receive : preserves I nvnet_can_receive.
Proof. unfold nvnet_can_receive, rx_enabled, rx_buf_available. frame. Qed.
Hint Resolve preserves_can_receive : frame.

Context (Hram : ∀ w m, I w → I (w <| ram := m |>)).

Lemma preserves_pci_dma_write a bs : preserves I (pci_dma_write a bs).
Proof. intros w Hw. by apply Hram. Qed.
Hint Resolve preserves_pci_dma_write : frame.
Lemma preserves_store_ring_desc a desc : preserves I (store_ring_desc a desc).
Proof. unfold store_ring_desc. frame. Qed.
Hint Resolve preserves_store_ring_desc : frame.
Lemma preserves_dma_packet_to_guest buf size : preserves I (dma_packet_to_guest buf size).
Proof. unfold dma_packet_to_guest, advance_next_rx_ring_desc_addr. frame. Qed.
End rx_frames.
#[export] Hint Resolve preserves_get_rx_ring_size preserves_get_tx_ring_size
  preserves_update_current_rx preserves_load_ring_desc preserves_set_dma_idle
  preserves_dma_enabled preserves_link_up preserves_can_receive preserves_pci_dma_write
  preserves_store_ring_desc preserves_dma_packet_to_guest : frame.

(** ** Properties *)

(** Where the current receive descriptor lies, and its buffer. *)
Definition rx_desc (w : World) : RingDesc := read_desc (ram w) (rx_ring_cur (dev w)).

Definition in_range (a len x : Z) : Prop := a ≤ x < a + len.

Lemma rx_done_ram_spec d m data :
  ram_bytes m →
  let desc := read_desc m (rx_ring_cur d) in
  buffer_addr desc + blen data ≤ rx_ring_cur d ∨ rx_ring_cur d + 8 ≤ buffer_addr desc →
  let m' := rx_done_ram d m data in
  ram_read m' (buffer_addr desc) (blen data) = data ∧
  read_desc m' (rx_ring_cur d) = rx_done_desc desc (blen data) ∧
  (∀ x, ¬ in_range (buffer_addr desc) (blen data) x → ¬ in_range (rx_ring_cur d) 8 x → m' x = m x).
Proof.
  intros Hm desc Hd m'. unfold m', rx_done_ram. fold desc.
  set (desc' := rx_done_desc desc (blen data)).
  pose proof (blen_ring_desc_bytes desc') as Hl. unfold sizeof_RingDesc in Hl.
  split_and!.
  - rewrite ram_read_write_disjoint by lia. apply ram_read_write_same.
  - apply read_desc_stored. destruct (wf_read_desc m (rx_ring_cur d) Hm).
    split; simpl; [done|apply u16_range|unfold is_u16; vm_compute; split; congruence].
  - unfold in_range. intros x H1 H2. rewrite !ram_write_other; [done|lia|lia].
Qed.

(** C6. Receiving a packet: when the receiver, DMA and link are up and the ring's
    current slot [i] holds a posted buffer that is large enough,
    [dma_packet_to_guest] returns the size and has written exactly the packet
    into the guest's buffer, handed the descriptor back (length of the packet,
    no longer available), moved the ring to slot [i + 1] modulo its size,
    raised the RX interrupt with the line recomputed and left DMA idle.  Nothing
    else changes: no other byte of guest memory, no register but the four of
    [rx_changes], nothing else of the device, the proxy or the history of host
    calls. *)
Theorem dma_packet_to_guest_delivers w buf size i :
  wf_dev (dev w) → ram_bytes (ram w) → bytes buf → 0 ≤ size ≤ blen buf →
  rx_ready (dev w) (ram w) = true → rx_at (dev w) i →
  size ≤ desc_length (rx_desc w) + 1 →
  buffer_addr (rx_desc w) + size ≤ rx_slot (dev w) i ∨
    rx_slot (dev w) i + 8 ≤ buffer_addr (rx_desc w) →
  ∃ w', dma_packet_to_guest buf size w = Ok (size, w') ∧
    ram_read (ram w') (buffer_addr (rx_desc w)) size = slice 0 size buf ∧
    read_desc (ram w') (rx_slot (dev w) i) = rx_done_desc (rx_desc w) size ∧
    rx_at (dev w') ((i + 1) mod rx_ring_size (dev w)) ∧
    reg32 (dev w') NVNET_IRQ_STATUS =
      reg32 (dev w) NVNET_IRQ_STATUS ||| NVNET_IRQ_STATUS_RX ∧
    irq (dev w') = irq_level (dev w') ∧
    (∀ x, ¬ in_range (buffer_addr (rx_desc w)) size x → ¬ in_range (rx_slot (dev w) i) 8 x →
       ram w' x = ram w x) ∧
    reg32 (dev w') NVNET_RX_RING_CURRENT_DESC_PHYS_ADDR = rx_slot (dev w) i ∧
    reg32 (dev w') NVNET_TX_RX_CONTROL = reg32 (dev w) NVNET_TX_RX_CONTROL ||| NVNET_TX_RX_CONTROL_IDLE ∧
    (∀ a, reg_ok a = true → a ∉ rx_changes → reg32 (dev w') a = reg32 (dev w) a) ∧
    (dev w') <| regs := regs (dev w) |> <| irq := irq (dev w) |> = dev w ∧
    wf_dev (dev w') ∧ proxy w' = proxy w ∧ trace w' = trace w.
Proof.
  intros Hwf Hm Hb Hs Hr Hi Hl Hd. pose proof (rx_cur_at _ _ Hi) as Hc.
  destruct w as [d m p t]. unfold rx_desc in *. cbn [dev ram proxy trace] in *.
  eexists. split; [by apply exec_dma_ready|]. cbn [dev ram proxy trace].
  destruct (rx_done_ram_spec d m (slice 0 size buf) Hm) as (H1 & H2 & H3).
  { rewrite blen_slice by lia. rewrite Hc in *. lia. }
  rewrite blen_slice in H1, H2, H3 by lia. rewrite Hc in *.
  destruct (rx_done_irq d Hwf). pose proof (rx_slot_u32 d i Hi) as Hu. rewrite <-Hc in Hu.
  split_and!; try done; [|by rewrite rx_done_current, Hc|by apply rx_done_control
                         |intros; by apply rx_done_other_regs|apply rx_done_rest|by apply wf_rx_done_dev].
  pose proof (rx_done_next d i Hwf Hi) as Hn. destruct Hi as (Hf & Hi & _).
  assert (0 ≤ (i + 1) mod rx_ring_size d < rx_ring_size d) as [??]
    by (apply Z.mod_pos_bound; destruct Hf; lia).
  unfold rx_at, rx_ring_base, rx_ring_size. rewrite !rx_done_other_regs by
    (done || by apply (bool_decide_unpack _)).
  done.
Qed.

(** A machine with a four-slot receive ring at 0x1000, about to use slot 1, whose
    descriptor offers 1600 bytes at 0x2000. *)
Definition demo_rx_dev : NvNetState :=
  put_reg NVNET_RECEIVER_CONTROL 1
    (put_reg NVNET_IRQ_MASK 0xFF
      (put_reg NVNET_RX_RING_NEXT_DESC_PHYS_ADDR 0x1008
        (put_reg NVNET_RX_RING_PHYS_ADDR 0x1000
          (put_reg NVNET_RING_SIZE 0x30003 (set_phy_reg MII_BMSR 4 zero_dev))))).
Definition demo_rx_world : World :=
  zero_world <| dev := demo_rx_dev |>
    <| ram ::= λ m, ram_write m 0x1008 (ring_desc_bytes (mkRingDesc 0x2000 1599 NV_RX_AVAIL)) |>.

Lemma wf_demo_rx_dev : wf_dev demo_rx_dev.
Proof.
  do 5 apply wf_put_reg. apply wf_set_phy_reg; [apply wf_zero_dev|unfold is_u32; lia].
Qed.
Lemma ram_bytes_demo_rx : ram_bytes (ram demo_rx_world).
Proof. apply ram_bytes_write; [|apply bytes_ring_desc_bytes]. intros a. unfold is_u8. simpl. lia. Qed.

Lemma dma_packet_to_guest_delivers_witness :
  ∃ w', dma_packet_to_guest (replicate 60 7) 60 demo_rx_world = Ok (60, w') ∧
    ram_read (ram w') 0x2000 60 = replicate 60 7 ∧ irq (dev w') = irq_level (dev w').
Proof.
  destruct (dma_packet_to_guest_delivers demo_rx_world (replicate 60 7) 60 1)
    as (w' & E & H1 & _ & _ & _ & Hirq & _).
  - apply wf_demo_rx_dev.
  - apply ram_bytes_demo_rx.
  - apply Forall_replicate. unfold is_u8. lia.
  - vm_compute. split; congruence.
  - vm_compute. reflexivity.
  - vm_compute. repeat split; congruence.
  - vm_compute. congruence.
  - vm_compute. right. congruence.
  - exists w'. split; [exact E|]. split; [exact H1|exact Hirq].
Defined.

(** A packet offered while the receiver, DMA or link is down or no buffer is
    posted is refused: the result is -1, guest memory, the proxy and the
    interrupt line are as before, and of the registers only the ring's
    current-descriptor pointer may change. *)
Theorem dma_packet_to_guest_refuses w buf size :
  wf_dev (dev w) → size ≤ blen buf → rx_ready (dev w) (ram w) = false →
  ∃ w', dma_packet_to_guest buf size w = Ok (-1, w') ∧
    ram w' = ram w ∧ proxy w' = proxy w ∧ trace w' = trace w ∧ irq (dev w') = irq (dev w) ∧
    (∀ a, reg_ok a = true → a ≠ NVNET_RX_RING_CURRENT_DESC_PHYS_ADDR →
       reg32 (dev w') a = reg32 (dev w) a).
Proof.
  destruct w as [d m p t]. intros Hwf Hs Hr. eexists. split; [by apply exec_dma_not_ready|].
  cbn [dev ram proxy trace] in *. split_and!; try done. intros a Ha Hne. by apply reg32_put_other.
Qed.

Lemma dma_packet_to_guest_refuses_witness :
  ∃ w', dma_packet_to_guest (replicate 60 7) 60 zero_world = Ok (-1, w') ∧
    ram w' = ram zero_world.
Proof.
  destruct (dma_packet_to_guest_refuses zero_world (replicate 60 7) 60) as (w' & E & H & _).
  - apply wf_zero_dev.
  - vm_compute. congruence.
  - vm_compute. reflexivity.
  - exists w'. split; [exact E|exact H].
Defined.

(** Whatever value the guest left in the next-descriptor register, the
    descriptor the receiver uses lies inside the programmed ring. *)
Theorem rx_descriptor_in_ring w :
  wf_dev (dev w) → ring_fits (rx_ring_base (dev w)) (rx_ring_size (dev w)) →
  ∃ cur w', update_current_rx_ring_desc_addr w = Ok (cur, w') ∧
    rx_ring_base (dev w) ≤ cur ∧ cur + 8 ≤ rx_ring_base (dev w) + 8 * rx_ring_size (dev w) ∧
    reg32 (dev w') NVNET_RX_RING_CURRENT_DESC_PHYS_ADDR = cur.
Proof.
  destruct w as [d m p t]. intros Hwf Hf. cbn [dev] in *.
  do 2 eexists. split; [by apply exec_update_current_rx|]. cbn [dev].
  unfold rx_ring_cur, rx_ring_max. rewrite ring_max_fits by done.
  pose proof (reg32_range d NVNET_RX_RING_NEXT_DESC_PHYS_ADDR Hwf eq_refl) as [Hn _].
  destruct (ring_cur_in _ _ _ Hf Hn) as [? ?]. split_and!; [done..|].
  regs_simpl. apply u32_id. destruct Hf as (?&?&?). unfold is_u32. lia.
Qed.

Lemma rx_descriptor_in_ring_witness :
  ∃ cur w', update_current_rx_ring_desc_addr
              (demo_rx_world <| dev ::= put_reg NVNET_RX_RING_NEXT_DESC_PHYS_ADDR 0xDEAD0 |>)
            = Ok (cur, w') ∧ 0x1000 ≤ cur ∧ cur + 8 ≤ 0x1020.
Proof.
  destruct (rx_descriptor_in_ring
              (demo_rx_world <| dev ::= put_reg NVNET_RX_RING_NEXT_DESC_PHYS_ADDR 0xDEAD0 |>))
    as (cur & w' & E & H1 & H2 & _).
  - apply wf_put_reg, wf_demo_rx_dev.
  - vm_compute. repeat split; congruence.
  - exists cur, w'. split; [exact E|]. split; [exact H1|exact H2].
Defined.

(** *** Receive filter *)

Lemma land_ff a b : is_u8 a → is_u8 b → (a &&& b) = 0xff → a = 0xff.
Proof.
  intros Ha Hb E. apply Z.bits_inj'. intros i Hi. destruct (Z.lt_ge_cases i 8).
  - assert (Z.testbit (a &&& b) i = true) as Ht.
    { rewrite E. change 0xff with (Z.ones 8). by apply Z.ones_spec_low. }
    rewrite Z.land_spec in Ht. apply andb_true_iff in Ht as [-> _].
    change 0xff with (Z.ones 8). by rewrite Z.ones_spec_low.
  - rewrite !(testbit_high 8); [done|lia|done|done|done].
Qed.
Lemma land_ff_iff a b : is_u8 a → is_u8 b → (a &&& b) = 0xff ↔ a = 0xff ∧ b = 0xff.
Proof.
  intros Ha Hb. split.
  - intros E. split; [by apply (land_ff a b)|]. rewrite Z.land_comm in E. by apply (land_ff b a).
  - by intros [-> ->].
Qed.
Lemma is_u8_land a b : is_u8 a → is_u8 (a &&& b).
Proof. intros. by apply land_bound. Qed.

Definition broadcast : list Z := replicate 6 0xff.

Lemma is_broadcast_spec addr :
  bytes addr → length addr = 6%nat → is_broadcast_ether_addr addr = true ↔ addr = broadcast.
Proof.
  intros Hb Hl. destruct addr as [|a [|b [|c [|d [|e [|f [|]]]]]]]; try discriminate Hl.
  unfold bytes in Hb. rewrite !Forall_cons in Hb. destruct Hb as (?&?&?&?&?&?&_).
  unfold is_broadcast_ether_addr, byte_at. simpl. rewrite Z.eqb_eq.
  rewrite !land_ff_iff by eauto 10 using is_u8_land.
  unfold broadcast. simpl. split; [by intros (((((->&->)&->)&->)&->)&->)|by intros [= -> -> -> -> -> ->]].
Qed.

(** The filter the registers describe, on a destination address. *)
Definition filter_accepts (s : NvNetState) (dest : list Z) : Prop :=
  let mcast := addr_bytes (reg32 s NVNET_MULTICAST_ADDR_A) (reg32 s NVNET_MULTICAST_ADDR_B) in
  let mask := addr_bytes (reg32 s NVNET_MULTICAST_MASK_A) (reg32 s NVNET_MULTICAST_MASK_B) in
  dest = broadcast ∨
  (reg32 s NVNET_PACKET_FILTER &&& NVNET_PACKET_FILTER_MYADDR) = 0 ∨
  (mcast ≠ broadcast ∧ zip_with Z.land dest mask = mcast) ∨
  dest = addr_bytes (reg32 s NVNET_MAC_ADDR_A) (reg32 s NVNET_MAC_ADDR_B).

Lemma length_addr_bytes a b : length (addr_bytes a b) = 6%nat.
Proof. done. Qed.
Lemma bytes_addr_bytes a b : bytes (addr_bytes a b).
Proof. unfold addr_bytes. auto with bytes. Qed.

(** On frames that hold a destination address. *)
Lemma receive_filter_run w buf size :
  wf_dev (dev w) → bytes buf → 6 ≤ size ≤ blen buf →
  ∃ ok, receive_filter buf size w = Ok (ok, w) ∧
    (ok = true ↔ filter_accepts (dev w) (slice 0 6 buf)).
Proof.
  destruct w as [s m p t]. intros Hwf Hb Hs. cbn [dev] in *. unfold receive_filter, filter_accepts.
  replace (size <? 6) with false by lia. exec_step.
  erewrite run_bind; [|unfold rd; erewrite run_bind; [done|apply run_inBounds; lia]].
  set (dest := slice 0 6 buf).
  assert (Hd : length dest = 6%nat) by (unfold dest; rewrite length_slice; [done|lia..]).
  assert (Hdb : bytes dest) by (by apply bytes_slice).
  pose proof (is_broadcast_spec dest Hdb Hd) as Hbc.
  destruct (is_broadcast_ether_addr dest). { eexists. split; [done|tauto]. }
  assert (dest ≠ broadcast) by by intros ?%Hbc.
  destruct (truthy _) eqn:Hf; cbn [negb].
  2:{ apply truthy_false in Hf. eexists. split; [done|tauto]. }
  apply truthy_true in Hf. do 2 exec_step.
  set (ma := addr_bytes (reg32 s NVNET_MULTICAST_ADDR_A) _).
  pose proof (is_broadcast_spec ma (bytes_addr_bytes _ _) (length_addr_bytes _ _)) as Hmc.
  destruct (is_broadcast_ether_addr ma); cbn [negb].
  { exec_step. cbv match. do 2 exec_step. eexists. split; [done|]. rewrite bool_decide_eq_true.
    tauto. }
  erewrite run_bind; [|do 2 exec_step; reflexivity].
  assert (ma ≠ broadcast) by by intros ?%Hmc.
  case_bool_decide; [eexists; split; [done|tauto]|].
  do 2 exec_step. eexists. split; [done|]. rewrite bool_decide_eq_true. tauto.
Qed.

(** *** Receive callback *)

Lemma slice_full len buf : len = blen buf → slice 0 len buf = buf.
Proof. intros ->. unfold slice, blen. rewrite Nat2Z.id. by rewrite drop_0, firstn_all. Qed.

Lemma iov_size_concat iov : iov_size iov = blen (concat iov).
Proof. induction iov as [|v iov IH]; [done|]. simpl. rewrite blen_app. by rewrite IH. Qed.
Lemma iov_to_buf_concat iov : iov_to_buf iov (iov_size iov) = concat iov.
Proof.
  induction iov as [|v iov IH]; [done|]. cbn [iov_to_buf iov_size concat].
  pose proof (blen_nonneg v). pose proof (blen_nonneg (concat iov)).
  rewrite iov_size_concat in *.
  destruct (Z.ltb_spec 0 (blen v + blen (concat iov))) as [Hp|Hp].
  - rewrite Z.min_l by lia. rewrite slice_full by done.
    replace (blen v + blen (concat iov) - blen v) with (blen (concat iov)) by lia. by rewrite IH.
  - symmetry. apply length_zero_iff_nil. rewrite length_app. unfold blen in Hp. lia.
Qed.

Lemma wf_set_rx_dma_buf s b :
  wf_dev s → length b = 1628%nat → bytes b → wf_dev (s <| rx_dma_buf := b |>).
Proof. by intros [] ??. Qed.

(** The filter on the gathered packet, also when it is too short for an address. *)
Lemma receive_filter_total w pkt buf :
  wf_dev (dev w) → bytes pkt → bytes buf → blen pkt ≤ blen buf →
  let rx := put 0 pkt buf in
  ∃ ok, receive_filter rx (blen pkt) w = Ok (ok, w) ∧
    (ok = true ↔ 6 ≤ blen pkt ∧ filter_accepts (dev w) (slice 0 6 pkt)).
Proof.
  intros Hwf Hp Hb Hl rx. destruct (decide (6 ≤ blen pkt)) as [H6|H6].
  - destruct (receive_filter_run w rx (blen pkt)) as (ok & E & H); [done|by apply bytes_put| |].
    { unfold rx. rewrite blen_put. lia. }
    exists ok. split; [done|]. rewrite H.
    assert (slice 0 6 rx = slice 0 6 pkt) as ->; [|tauto].
    apply list_eq. intros i. unfold rx. rewrite !lookup_slice by lia. case_decide; [|done].
    rewrite lookup_put by lia. rewrite decide_True by lia. f_equal. lia.
  - exists false. unfold receive_filter. replace (blen pkt <? 6) with true by lia.
    split; [done|]. split; [done|lia].
Qed.

(** The NIC's receive callback on a scattered packet: a packet longer than the
    bounce buffer is consumed without effect; any other is gathered, in order,
    at the start of the bounce buffer and delivered from there by
    [dma_packet_to_guest] exactly when the receive filter accepts it (it has a
    destination address which is broadcast, or address filtering is off, or it
    matches the programmed multicast group under its mask, or it is the station
    address); a filtered packet is reported consumed. *)
Theorem nvnet_receive_iov_spec w iov :
  wf_dev (dev w) → Forall bytes iov →
  let pkt := concat iov in
  let rx := put 0 pkt (rx_dma_buf (dev w)) in
  let w1 := w <| dev ::= λ s, s <| rx_dma_buf := rx |> |> in
  if RX_ALLOC_BUFSIZE <? blen pkt then nvnet_receive_iov iov w = Ok (blen pkt, w)
  else wf_dev (dev w1) ∧ slice 0 (blen pkt) rx = pkt ∧
    ∃ ok, (ok = true ↔ 6 ≤ blen pkt ∧ filter_accepts (dev w) (slice 0 6 pkt)) ∧
      nvnet_receive_iov iov w =
        if ok then dma_packet_to_guest rx (blen pkt) w1 else Ok (blen pkt, w1).
Proof.
  intros Hwf Hb pkt rx w1. pose proof (blen_nonneg pkt) as Hp.
  assert (Hpb : bytes pkt) by (by apply Forall_concat).
  unfold nvnet_receive_iov, is_packet_oversized. rewrite iov_to_buf_concat, iov_size_concat.
  fold pkt. rewrite Z.gtb_ltb. destruct (Z.ltb_spec RX_ALLOC_BUFSIZE (blen pkt)); [done|].
  assert (Hrl : blen (rx_dma_buf (dev w)) = 1628) by (unfold blen; by rewrite wf_rx_len).
  change RX_ALLOC_BUFSIZE with 1628 in *.
  assert (Hwf1 : wf_dev (dev w1)).
  { apply wf_set_rx_dma_buf; [done|unfold rx; rewrite length_put; apply Hwf|].
    apply bytes_put; [done|apply Hwf]. }
  split; [done|]. split; [apply slice_put_same; lia|].
  destruct (receive_filter_total w1 pkt (rx_dma_buf (dev w))) as (ok & E & Hok);
    [done|done|apply Hwf|lia|].
  exists ok. split; [exact Hok|]. erewrite run_bind by done.
  erewrite run_bind; [|unfold wr; erewrite run_bind; [done|apply run_inBounds; lia]].
  erewrite run_bind by done. erewrite run_bind by exact E. by destruct ok.
Qed.

Lemma nvnet_receive_iov_spec_witness :
  let pkt := concat [[1; 2; 3; 4]; [5; 6; 8; 0]; replicate 52 9] in
  ∃ rx w1, slice 0 60 rx = pkt ∧
    nvnet_receive_iov [[1; 2; 3; 4]; [5; 6; 8; 0]; replicate 52 9] demo_rx_world =
      dma_packet_to_guest rx 60 w1.
Proof.
  intros pkt.
  destruct (nvnet_receive_iov_spec demo_rx_world [[1; 2; 3; 4]; [5; 6; 8; 0]; replicate 52 9])
    as (_ & Hs & ok & Hok & E).
  - apply wf_demo_rx_dev.
  - repeat constructor; vm_compute; try discriminate; reflexivity.
  - do 2 eexists. split; [exact Hs|]. rewrite E. destruct ok; [reflexivity|].
    assert (false = true) as F; [|discriminate F]. apply Hok.
    split; [vm_compute; congruence|]. right. left. vm_compute. reflexivity.
Defined.
