(* ===== verification/NvnetFrames.v ===== *)
(** * NvnetFrames: the Ethernet frames the network proxy builds

    The packet-building statements of nvnet.c, one definition per packet, as
    functions of the values the handlers read from the connection tables:
    ARP replies, DHCP responses, UDP datagrams and TCP segments.  [memcpy] and
    byte stores at constant offsets of the local arrays are [put]; 32-bit
    addresses are kept as the code keeps them, in network byte order inside a
    little-endian [uint32_t]. *)

From S2P Require Import Prelude Checksum.

(** [p[0] = v >> 8; p[1] = v & 0xFF] *)
Definition be16 (v : Z) : list Z := [u8 (v >>> 8); v &&& 0xFF].

(** Destination, source and ethertype IPv4 ([memcpy], [memcpy], two stores). *)
Definition eth_header (xbox_mac host_mac pkt : list Z) : list Z :=
  let pkt := put 0 xbox_mac pkt in
  let pkt := put 6 host_mac pkt in
  put 12 [0x08; 0x00] pkt.

(** [ip_ck = ip_checksum(ip, 20); ip[10] = ip_ck >> 8; ip[11] = ip_ck & 0xFF] *)
Definition store_ip_checksum (pkt : list Z) : list Z :=
  let ip_ck := ip_checksum (slice 14 20 pkt) in
  put 24 [ip_ck >>> 8; ip_ck &&& 0xFF] pkt.

(** The TCP checksum over the [len] bytes of the segment at offset 34. *)
Definition store_tcp_checksum (src_ip dst_ip len : Z) (pkt : list Z) : list Z :=
  let tcp_ck := tcp_udp_checksum (bswap32 src_ip) (bswap32 dst_ip) 6 (slice 34 len pkt) in
  put 50 [tcp_ck >>> 8; tcp_ck &&& 0xFF] pkt.

(** [handle_arp_packet]: the 42-byte reply to the request [buf]. *)
Definition arp_reply (host_mac buf : list Z) : list Z :=
  let reply := replicate 42 0 in
  let reply := put 0 (slice 6 6 buf) reply in
  let reply := put 6 host_mac reply in
  let reply := put 12 [0x08; 0x06] reply in
  let reply := put 14 [0x00; 0x01] reply in
  let reply := put 16 [0x08; 0x00] reply in
  let reply := put 18 [6] reply in
  let reply := put 19 [4] reply in
  let reply := put 20 [0x00; 0x02] reply in
  let reply := put 22 host_mac reply in
  let reply := put 28 (slice 38 4 buf) reply in
  let reply := put 32 (slice 6 6 buf) reply in
  put 38 (slice 28 4 buf) reply.

(** [send_tcp_to_xbox]: a segment from [remote] to [xbox]; [id0], [id1] are the
    two [rand()] bytes of the IP identification.  First the headers, then the
    payload and the checksums. *)
Definition tcp_headers (xbox_mac host_mac : list Z) (id0 id1 : Z)
    (remote_ip remote_port xbox_ip xbox_port seq_out ack_out flags ip_total : Z) : list Z :=
  let pkt := eth_header xbox_mac host_mac (replicate 1514 0) in
  let pkt := put 14 [0x45] pkt in
  let pkt := put 16 (be16 ip_total) pkt in
  let pkt := put 18 [u8 id0; u8 id1] pkt in
  let pkt := put 22 [64; 6] pkt in
  let pkt := put 26 (le_bytes 4 remote_ip) pkt in
  let pkt := put 30 (le_bytes 4 xbox_ip) pkt in
  let pkt := put 34 (be16 remote_port) pkt in
  let pkt := put 36 (be16 xbox_port) pkt in
  let pkt := put 38 (le_bytes 4 (bswap32 seq_out)) pkt in
  let pkt := put 42 (le_bytes 4 (bswap32 ack_out)) pkt in
  let pkt := put 46 [0x50; u8 flags] pkt in
  put 48 [0xFF; 0xFF] pkt.

Definition tcp_frame (xbox_mac host_mac : list Z) (id0 id1 : Z)
    (remote_ip remote_port xbox_ip xbox_port seq_out ack_out flags : Z)
    (payload : list Z) : list Z :=
  let ip_total := 20 + 20 + blen payload in
  let pkt := tcp_headers xbox_mac host_mac id0 id1 remote_ip remote_port xbox_ip xbox_port
               seq_out ack_out flags ip_total in
  let pkt := put 54 payload pkt in
  let pkt := store_ip_checksum pkt in
  let src_ip := of_le (slice 26 4 pkt) in
  let dst_ip := of_le (slice 30 4 pkt) in
  store_tcp_checksum src_ip dst_ip (20 + blen payload) pkt.

(** [inject_tcp_syn_to_xbox]: a SYN with an MSS option, 58 bytes of a 74-byte
    buffer; the IP checksum is stored before the TCP header is filled in. *)
Definition syn_frame (xbox_mac host_mac : list Z) (id0 id1 : Z)
    (client_ip client_port xbox_ip xbox_port seq_to_xbox : Z) : list Z :=
  let pkt := eth_header xbox_mac host_mac (replicate 74 0) in
  let pkt := put 14 [0x45] pkt in
  let pkt := put 16 [0; 44] pkt in
  let pkt := put 18 [u8 id0; u8 id1] pkt in
  let pkt := put 22 [64; 6] pkt in
  let pkt := put 26 (le_bytes 4 client_ip) pkt in
  let pkt := put 30 (le_bytes 4 xbox_ip) pkt in
  let pkt := store_ip_checksum pkt in
  let pkt := put 34 (be16 client_port) pkt in
  let pkt := put 36 (be16 xbox_port) pkt in
  let pkt := put 38 (le_bytes 4 (bswap32 seq_to_xbox)) pkt in
  let pkt := put 46 [0x60; 0x02] pkt in
  let pkt := put 48 [0xFF; 0xFF] pkt in
  let pkt := put 54 [2; 4; 0x05; 0xB4] pkt in
  store_tcp_checksum client_ip xbox_ip 24 pkt.

(** [poll_inbound_connections]: data from an accepted client. *)
Definition inbound_data_frame (xbox_mac host_mac : list Z)
    (client_ip client_port xbox_ip xbox_port seq_to_xbox : Z) (buf : list Z) : list Z :=
  let ip_len := 20 + 20 + blen buf in
  let pkt := eth_header xbox_mac host_mac (replicate 1514 0) in
  let pkt := put 14 [0x45] pkt in
  let pkt := put 16 (be16 ip_len) pkt in
  let pkt := put 22 [64; 6] pkt in
  let pkt := put 26 (le_bytes 4 client_ip) pkt in
  let pkt := put 30 (le_bytes 4 xbox_ip) pkt in
  let pkt := store_ip_checksum pkt in
  let pkt := put 34 (be16 client_port) pkt in
  let pkt := put 36 (be16 xbox_port) pkt in
  let pkt := put 38 (le_bytes 4 (bswap32 seq_to_xbox)) pkt in
  let pkt := put 46 [0x50; 0x18] pkt in
  let pkt := put 48 [0xFF; 0xFF] pkt in
  let pkt := put 54 buf pkt in
  store_tcp_checksum client_ip xbox_ip (20 + blen buf) pkt.

(** The open-coded IP checksum of [handle_inbound_tcp_response]. *)
Definition store_ip_sum (pkt : list Z) : list Z :=
  let ip_sum := fold_carry fold_fuel (sum_words (slice 14 20 pkt) 0) in
  put 25 [Z.lnot ip_sum &&& 0xFF] (put 24 [(not32 ip_sum >>> 8) &&& 0xFF] pkt).

(** [handle_inbound_tcp_response]: the ACK completing an inbound handshake; its
    TCP checksum field stays zero. *)
Definition inbound_ack_frame (xbox_mac host_mac : list Z)
    (client_ip client_port xbox_ip xbox_port seq_to_xbox seq_to_client : Z) : list Z :=
  let pkt := eth_header xbox_mac host_mac (replicate 54 0) in
  let pkt := put 14 [0x45] pkt in
  let pkt := put 16 [0; 40] pkt in
  let pkt := put 22 [64] pkt in
  let pkt := put 23 [6] pkt in
  let pkt := put 26 (le_bytes 4 client_ip) pkt in
  let pkt := put 30 (le_bytes 4 xbox_ip) pkt in
  let pkt := put 34 (be16 client_port) pkt in
  let pkt := put 36 (be16 xbox_port) pkt in
  let pkt := put 38 (le_bytes 4 (bswap32 seq_to_xbox)) pkt in
  let pkt := put 42 (le_bytes 4 (bswap32 seq_to_client)) pkt in
  let pkt := put 46 [0x50; 0x10] pkt in
  let pkt := put 48 [0xFF; 0xFF] pkt in
  store_ip_sum pkt.

(** [proxy_poll_rx]: a datagram received from the network, without a UDP
    checksum; the payload is at offset 42. *)
Definition udp_frame (xbox_mac host_mac : list Z)
    (remote_ip remote_port xbox_ip xbox_port : Z) (rxbuf : list Z) : list Z :=
  let ip_len := 20 + 8 + blen rxbuf in
  let udp_len := 8 + blen rxbuf in
  let pkt := eth_header xbox_mac host_mac (replicate 1514 0) in
  let pkt := put 14 [0x45] pkt in
  let pkt := put 16 (be16 ip_len) pkt in
  let pkt := put 22 [64; 17] pkt in
  let pkt := put 26 (le_bytes 4 remote_ip) pkt in
  let pkt := put 30 (le_bytes 4 xbox_ip) pkt in
  let pkt := put 34 (be16 remote_port) pkt in
  let pkt := put 36 (be16 xbox_port) pkt in
  let pkt := put 38 (be16 udp_len) pkt in
  let pkt := put 42 rxbuf pkt in
  store_ip_checksum pkt.

(** [handle_dhcp_packet]: OFFER or ACK, 14 + 20 + 8 + 274 = 316 bytes of a
    512-byte buffer; [reply_type] is 2 or 5 and [xid] the request's transaction
    id as it lies in memory. *)
Definition dhcp_options (reply_type server_ip gateway dns : Z) : list Z :=
  [53; 1; reply_type] ++
  [54; 4] ++ le_bytes 4 server_ip ++
  [51; 4] ++ le_bytes 4 (bswap32 86400) ++
  [1; 4] ++ le_bytes 4 (bswap32 0xFFFFFF00) ++
  [3; 4] ++ le_bytes 4 gateway ++
  [6; 4] ++ le_bytes 4 dns ++
  [255].

Definition dhcp_response (xbox_mac host_mac xid : list Z)
    (reply_type client_ip server_ip gateway dns : Z) : list Z :=
  let resp := eth_header xbox_mac host_mac (replicate 512 0) in
  let resp := put 14 [0x45] resp in
  let resp := put 22 [64; 17] resp in
  let resp := put 26 (le_bytes 4 server_ip) resp in
  let resp := put 30 (le_bytes 4 0xFFFFFFFF) resp in
  let resp := put 34 [0; 67] resp in
  let resp := put 36 [0; 68] resp in
  let resp := put 42 [2; 1; 6] resp in
  let resp := put 46 xid resp in
  let resp := put 52 [0x80] resp in
  let resp := put 58 (le_bytes 4 client_ip) resp in
  let resp := put 62 (le_bytes 4 server_ip) resp in
  let resp := put 70 xbox_mac resp in
  let resp := put 278 [99; 130; 83; 99] resp in
  let opts := dhcp_options reply_type server_ip gateway dns in
  let resp := put 282 opts resp in
  let bootp_len := 240 + blen opts in
  let udp_len := 8 + bootp_len in
  let ip_len := 20 + udp_len in
  let resp := put 16 (be16 ip_len) resp in
  let resp := put 38 (be16 udp_len) resp in
  store_ip_checksum resp.

(** [14 + ip_len] of the response. *)
Definition dhcp_response_size : Z := 316.

(** ** Lemmas: reading fields back *)

Lemma blen_replicate n x : blen (replicate n x) = Z.of_nat n.
Proof. unfold blen. by rewrite length_replicate. Qed.
Lemma blen_be16 v : blen (be16 v) = 2.
Proof. done. Qed.
Lemma blen_eth_header m h pkt : blen (eth_header m h pkt) = blen pkt.
Proof. unfold eth_header. by rewrite !blen_put. Qed.
Lemma blen_store_ip_checksum pkt : blen (store_ip_checksum pkt) = blen pkt.
Proof. apply blen_put. Qed.
Lemma blen_store_tcp_checksum s d l pkt : blen (store_tcp_checksum s d l pkt) = blen pkt.
Proof. apply blen_put. Qed.
Lemma blen_cons x l : blen (x :: l) = 1 + blen l.
Proof. unfold blen. simpl. lia. Qed.
Lemma blen_nil : blen [] = 0.
Proof. done. Qed.
#[export] Hint Rewrite blen_cons blen_nil blen_replicate blen_be16 blen_eth_header blen_store_ip_checksum
  blen_store_tcp_checksum : buf.

Lemma bytes_be16 v : is_u16 v → bytes (be16 v).
Proof.
  intros H. pose proof (be16_bytes v H) as [_ ?].
  repeat (constructor; [apply u8_range || done|]). constructor.
Qed.
Lemma of_be_be16 v : is_u16 v → of_be (be16 v) = v.
Proof.
  intros H. pose proof (be16_bytes v H) as [Hh _]. pose proof (split_be16 v H) as Hs.
  unfold of_be, be16. simpl. rewrite (u8_id _ Hh). lia.
Qed.

Lemma bytes_store_ip pkt : bytes pkt → bytes (store_ip_checksum pkt).
Proof.
  intros. unfold store_ip_checksum. apply bytes_put; [|done].
  destruct (be16_bytes (ip_checksum (slice 14 20 pkt))) as [??]; [apply u16_range|].
  by repeat (constructor; [done|]).
Qed.
Lemma bytes_store_tcp src dst len pkt : bytes pkt → bytes (store_tcp_checksum src dst len pkt).
Proof.
  intros. unfold store_tcp_checksum. apply bytes_put; [|done].
  destruct (be16_bytes (tcp_udp_checksum (bswap32 src) (bswap32 dst) 6 (slice 34 len pkt)))
    as [??]; [apply u16_range|].
  by repeat (constructor; [done|]).
Qed.

#[export] Hint Resolve bytes_store_ip bytes_store_tcp : bytes.

(** Byte strings the frames are made of. *)
Ltac bytes_step :=
  lazymatch goal with
  | |- bytes (put _ _ _) => apply bytes_put
  | |- bytes (slice _ _ _) => apply bytes_slice
  | |- bytes (le_bytes _ _) => apply bytes_le_bytes
  | |- bytes (be16 _) => apply bytes_be16
  | |- bytes (store_ip_checksum _) => apply bytes_store_ip
  | |- bytes (store_tcp_checksum _ _ _ _) => apply bytes_store_tcp
  | |- bytes (replicate _ 0) => apply bytes_replicate
  | |- bytes (_ ++ _) => apply bytes_app
  | |- bytes (_ :: _) => apply Forall_cons; split
  | |- Forall is_u8 (_ :: _) => apply Forall_cons; split
  | |- bytes [] => constructor
  | |- Forall is_u8 [] => constructor
  | |- is_u8 (u8 _) => apply u8_range
  | |- is_u8 _ => assumption || (unfold is_u8; lia)
  | |- is_u16 _ => assumption || (unfold is_u16; lia)
  | |- bytes _ => solve [auto with bytes]
  end.
Ltac bytes_tac := repeat first [assumption | bytes_step].

(** Slices of a packet under construction: skip the stores elsewhere, stop at the
    store that made the field. *)
Ltac len_tac := autorewrite with buf; lia.
Ltac slices :=
  repeat first
    [ rewrite slice_put_disjoint by len_tac
    | rewrite slice_put_same by len_tac ].

Lemma slice_store_ip off len pkt :
  0 ≤ off → off + len ≤ 24 ∨ 26 ≤ off → 26 ≤ blen pkt →
  slice off len (store_ip_checksum pkt) = slice off len pkt.
Proof. intros. unfold store_ip_checksum. by rewrite slice_put_disjoint by len_tac. Qed.
Lemma slice_store_tcp off len s d l pkt :
  0 ≤ off → off + len ≤ 50 ∨ 52 ≤ off → 52 ≤ blen pkt →
  slice off len (store_tcp_checksum s d l pkt) = slice off len pkt.
Proof. intros. unfold store_tcp_checksum. by rewrite slice_put_disjoint by len_tac. Qed.
Lemma slice_eth_header off len m h pkt :
  14 ≤ off → blen m = 6 → blen h = 6 → 14 ≤ blen pkt →
  slice off len (eth_header m h pkt) = slice off len pkt.
Proof.
  intros. unfold eth_header. rewrite !slice_put_disjoint; [done|..];
    autorewrite with buf; change (blen [8; 0]) with 2; lia.
Qed.
Lemma slice_replicate off len n :
  0 ≤ off → 0 ≤ len → off + len ≤ Z.of_nat n → slice off len (replicate n 0) = replicate (Z.to_nat len) 0.
Proof.
  intros. unfold slice. rewrite drop_replicate, take_replicate. f_equal. lia.
Qed.

(** The IP header verifies once its checksum was stored over a zeroed field. *)
Lemma ip_header_verifies pkt :
  bytes pkt → 34 ≤ blen pkt → slice 24 2 pkt = [0; 0] →
  ip_checksum (slice 14 20 (store_ip_checksum pkt)) = 0.
Proof.
  intros Hb Hl Hz. unfold store_ip_checksum. rewrite slice_put_inside by len_tac.
  unfold ip_checksum at 1. change (24 - 14) with 10.
  apply checksum_stored_folds; [by apply bytes_slice|lia| | |..|done].
  - rewrite blen_slice by lia. lia.
  - lia.
  - rewrite blen_slice by lia. lia.
  - by exists 5.
  - by rewrite slice_slice by lia.
Qed.
Lemma tcp_segment_verifies src dst len pkt :
  bytes pkt → 18 ≤ len ≤ 2 ^ 15 → 34 + len ≤ blen pkt → slice 50 2 pkt = [0; 0] →
  tcp_udp_checksum (bswap32 src) (bswap32 dst) 6
    (slice 34 len (store_tcp_checksum src dst len pkt)) = 0.
Proof.
  intros Hb Hl Hp Hz. unfold store_tcp_checksum. rewrite slice_put_inside by len_tac.
  unfold tcp_udp_checksum at 1. change (50 - 34) with 16. rewrite blen_put.
  destruct (pseudo_sum_range (bswap32 src) (bswap32 dst) 6 (blen (slice 34 len pkt)))
    as (_ & a & b & c & d & ? & ? & ? & ? & Hs);
    [unfold is_u8; lia|rewrite blen_slice by lia; lia|].
  rewrite blen_slice in Hs by lia.
  apply checksum_stored_folds; [by apply bytes_slice|rewrite blen_slice by lia; lia| | |..|done].
  - rewrite blen_slice by lia. lia.
  - lia.
  - rewrite blen_slice by lia. lia.
  - by exists 8.
  - by rewrite slice_slice by lia.
Qed.

(** ** The frames are well formed *)

(** What a receiver reads from a TCP/IPv4 Ethernet frame without IP options. *)
Record tcp_view := mkTcpView {
  v_dst_mac : list Z; v_src_mac : list Z; v_ethertype : Z; v_total_len : Z; v_proto : Z;
  v_src_ip : Z; v_dst_ip : Z; v_src_port : Z; v_dst_port : Z;
  v_seq : Z; v_ack : Z; v_tcp_flags : Z; v_payload : list Z
}.

Definition parse_tcp (f : list Z) : tcp_view :=
  let ip_total := of_be (slice 16 2 f) in
  let hdr := byte_at (slice 46 1 f) 0 >>> 4 in
  mkTcpView (slice 0 6 f) (slice 6 6 f) (of_be (slice 12 2 f)) ip_total
    (of_be (slice 23 1 f)) (of_le (slice 26 4 f)) (of_le (slice 30 4 f))
    (of_be (slice 34 2 f)) (of_be (slice 36 2 f)) (of_be (slice 38 4 f)) (of_be (slice 42 4 f))
    (of_be (slice 47 1 f)) (slice (34 + 4 * hdr) (ip_total - 20 - 4 * hdr) f).

Lemma of_le_4 v : is_u32 v → of_le (le_bytes 4 v) = v.
Proof. intros. rewrite of_le_le_bytes. by apply Z.mod_small. Qed.
Lemma of_be_swapped v : is_u32 v → of_be (le_bytes 4 (bswap32 v)) = v.
Proof. intros. rewrite le_bytes_bswap32, of_be_be_bytes. by apply Z.mod_small. Qed.

(** One byte of a two-byte store. *)
Lemma slice_put_sub off len off' bs buf :
  off' ≤ off → off + len ≤ off' + blen bs → 0 ≤ off' → off' + blen bs ≤ blen buf →
  slice off len (put off' bs buf) = slice (off - off') len bs.
Proof.
  intros. apply list_eq. intros i. rewrite !lookup_slice by lia. case_decide; [|done].
  rewrite lookup_put by lia. rewrite decide_True by lia. f_equal. lia.
Qed.

(** With the six bytes of the MAC addresses in sight, a field of a packet at
    constant offsets is computed. *)
Lemma six_bytes m : blen m = 6 → ∃ a b c d e f, m = [a; b; c; d; e; f].
Proof.
  unfold blen. intros H. destruct m as [|a [|b [|c [|d [|e [|f [|]]]]]]]; simpl in H; try lia.
  by exists a, b, c, d, e, f.
Qed.

Section tcp_frame.
Context (xbox_mac host_mac : list Z).
Context (Hxm : blen xbox_mac = 6) (Hxb : bytes xbox_mac).
Context (Hhm : blen host_mac = 6) (Hhb : bytes host_mac).

Lemma bytes_eth_header pkt : bytes pkt → bytes (eth_header xbox_mac host_mac pkt).
Proof. intros. unfold eth_header. bytes_tac. Qed.
Hint Resolve bytes_eth_header : bytes.

Ltac mac_bytes :=
  let x0 := fresh "x" in let h0 := fresh "h" in
  destruct (six_bytes xbox_mac Hxm) as (x0 & ? & ? & ? & ? & ? & ->);
  destruct (six_bytes host_mac Hhm) as (h0 & ? & ? & ? & ? & ? & ->).

(** A region of the frame outside the checksum fields is that of the headers. *)
Lemma slice_tcp_stored off len src dst l payload hdr :
  0 ≤ off → 0 ≤ len → off + len ≤ 54 → off + len ≤ 24 ∨ 26 ≤ off → off + len ≤ 50 ∨ 52 ≤ off →
  54 + blen payload ≤ blen hdr →
  slice off len (store_tcp_checksum src dst l (store_ip_checksum (put 54 payload hdr))) =
    slice off len hdr.
Proof.
  intros. pose proof (blen_nonneg payload).
  by rewrite slice_store_tcp, slice_store_ip, slice_put_disjoint by len_tac.
Qed.

Ltac stored_slices :=
  repeat match goal with
  | |- context [slice ?off ?len (store_tcp_checksum _ _ _ _)] =>
      rewrite (slice_tcp_stored off len) by lia
  end.

(** Every segment [send_tcp_to_xbox] builds, with a payload that fits an
    Ethernet frame, is a well-formed TCP/IPv4 packet: parsing it gives back the
    addresses, ports, sequence and acknowledgement numbers, flags and payload it
    was built from, and both its IP header checksum and its TCP checksum
    verify. *)
Lemma tcp_frame_roundtrip id0 id1 rip rport xip xport seq ack fl payload :
  is_u32 rip → is_u16 rport → is_u32 xip → is_u16 xport → is_u32 seq → is_u32 ack → is_u8 fl →
  bytes payload → blen payload ≤ 1460 →
  let f := tcp_frame xbox_mac host_mac id0 id1 rip rport xip xport seq ack fl payload in
  parse_tcp f =
    mkTcpView xbox_mac host_mac 0x0800 (40 + blen payload) 6 rip xip rport xport seq ack fl payload ∧
  ip_checksum (slice 14 20 f) = 0 ∧
  tcp_udp_checksum (bswap32 rip) (bswap32 xip) 6 (slice 34 (20 + blen payload) f) = 0.
Proof.
  intros Hrip Hrp Hxip Hxp Hseq Hack Hfl Hpb Hpl. pose proof (blen_nonneg payload).
  unfold tcp_frame. cbv zeta. set (hdr := tcp_headers _ _ _ _ _ _ _ _ _ _ _ _).
  assert (Hb : bytes hdr)
    by (unfold hdr, tcp_headers; cbv zeta; bytes_tac).
  assert (Hl : blen hdr = 1514) by (unfold hdr, tcp_headers; cbv zeta; by autorewrite with buf).
  assert (Hs26 : slice 26 4 hdr = le_bytes 4 rip) by (unfold hdr; mac_bytes; reflexivity).
  assert (Hs30 : slice 30 4 hdr = le_bytes 4 xip) by (unfold hdr; mac_bytes; reflexivity).
  rewrite !slice_store_ip, !slice_put_disjoint by len_tac. rewrite Hs26, Hs30, !of_le_4 by done.
  split_and!.
  - unfold parse_tcp. stored_slices.
    assert (Htot : slice 16 2 hdr = be16 (40 + blen payload)) by (unfold hdr; mac_bytes; reflexivity).
    assert (Hoff : byte_at (slice 46 1 hdr) 0 >>> 4 = 5) by (unfold hdr; mac_bytes; reflexivity).
    rewrite Hoff, Htot, of_be_be16 by (unfold is_u16; lia).
    replace (34 + 4 * 5) with 54 by done.
    rewrite slice_store_tcp, slice_store_ip, slice_put_same by len_tac.
    replace (slice 38 4 hdr) with (le_bytes 4 (bswap32 seq)) by (unfold hdr; mac_bytes; reflexivity).
    replace (slice 42 4 hdr) with (le_bytes 4 (bswap32 ack)) by (unfold hdr; mac_bytes; reflexivity).
    replace (slice 34 2 hdr) with (be16 rport) by (unfold hdr; mac_bytes; reflexivity).
    replace (slice 36 2 hdr) with (be16 xport) by (unfold hdr; mac_bytes; reflexivity).
    replace (slice 47 1 hdr) with [u8 fl] by (unfold hdr; mac_bytes; reflexivity).
    rewrite Hs26, Hs30, !of_le_4, !of_be_swapped, !of_be_be16, u8_id by done.
    f_equal; try (unfold hdr; mac_bytes; reflexivity). unfold of_be. simpl. lia.
  - rewrite slice_store_tcp by len_tac. apply ip_header_verifies; [by apply bytes_put|len_tac|].
    rewrite slice_put_disjoint by len_tac. unfold hdr; mac_bytes; reflexivity.
  - apply tcp_segment_verifies; [| lia|len_tac|].
    + by apply bytes_store_ip, bytes_put.
    + rewrite slice_store_ip, slice_put_disjoint by len_tac. unfold hdr; mac_bytes; reflexivity.
Qed.

(** The SYN injected for an accepted inbound connection is well formed: it
    parses to a segment from the client to the Xbox port with the chosen initial
    sequence number, the SYN flag alone and the 24-byte header of its MSS
    option, and both checksums verify. *)
Lemma syn_frame_wellformed id0 id1 cip cport xip xport seq :
  is_u32 cip → is_u16 cport → is_u32 xip → is_u16 xport → is_u32 seq →
  let f := syn_frame xbox_mac host_mac id0 id1 cip cport xip xport seq in
  parse_tcp f = mkTcpView xbox_mac host_mac 0x0800 44 6 cip xip cport xport seq 0 0x02 [] ∧
  slice 54 4 f = [2; 4; 0x05; 0xB4] ∧
  ip_checksum (slice 14 20 f) = 0 ∧
  tcp_udp_checksum (bswap32 cip) (bswap32 xip) 6 (slice 34 24 f) = 0.
Proof.
  intros Hcip Hcp Hxip Hxp Hseq. unfold syn_frame. cbv zeta.
  set (iph := put 30 (le_bytes 4 xip) _). set (pkt := put 54 [2; 4; 5; 0xB4] _).
  assert (Hib : bytes iph) by (unfold iph; bytes_tac).
  assert (Hil : blen iph = 74) by (unfold iph; by autorewrite with buf).
  assert (Hb : bytes pkt) by (unfold pkt; bytes_tac).
  assert (Hl : blen pkt = 74) by (unfold pkt; by autorewrite with buf).
  assert (Hlow : ∀ off len, 0 ≤ off → 0 ≤ len → off + len ≤ 34 →
            slice off len pkt = slice off len (store_ip_checksum iph)).
  { intros. unfold pkt. by rewrite !slice_put_disjoint by len_tac. }
  split_and!.
  - unfold parse_tcp. rewrite !slice_store_tcp by lia.
    rewrite !Hlow, !slice_store_ip by lia.
    replace (slice 26 4 iph) with (le_bytes 4 cip) by (unfold iph; mac_bytes; reflexivity).
    replace (slice 30 4 iph) with (le_bytes 4 xip) by (unfold iph; mac_bytes; reflexivity).
    replace (slice 38 4 pkt) with (le_bytes 4 (bswap32 seq)) by (unfold pkt; mac_bytes; reflexivity).
    replace (slice 34 2 pkt) with (be16 cport) by (unfold pkt; mac_bytes; reflexivity).
    replace (slice 36 2 pkt) with (be16 xport) by (unfold pkt; mac_bytes; reflexivity).
    rewrite !of_le_4, !of_be_swapped, !of_be_be16 by done.
    f_equal; unfold pkt, iph; mac_bytes; reflexivity.
  - rewrite slice_store_tcp by lia. unfold pkt. by rewrite slice_put_same by len_tac.
  - rewrite slice_store_tcp, Hlow by lia. apply ip_header_verifies; [done|lia|].
    unfold iph; mac_bytes; reflexivity.
  - apply tcp_segment_verifies; [done|lia|lia|]. unfold pkt; mac_bytes; reflexivity.
Qed.

(** Data relayed from an inbound client is a well-formed segment: addresses,
    ports, sequence number, PSH+ACK flags and payload read back, and both
    checksums verify.  Its acknowledgement number is 0 although the ACK flag is
    set. *)
Lemma inbound_data_frame_wellformed cip cport xip xport seq payload :
  is_u32 cip → is_u16 cport → is_u32 xip → is_u16 xport → is_u32 seq →
  bytes payload → blen payload ≤ 1400 →
  let f := inbound_data_frame xbox_mac host_mac cip cport xip xport seq payload in
  parse_tcp f =
    mkTcpView xbox_mac host_mac 0x0800 (40 + blen payload) 6 cip xip cport xport seq 0 0x18 payload ∧
  ip_checksum (slice 14 20 f) = 0 ∧
  tcp_udp_checksum (bswap32 cip) (bswap32 xip) 6 (slice 34 (20 + blen payload) f) = 0.
Proof.
  intros Hcip Hcp Hxip Hxp Hseq Hpb Hpl. pose proof (blen_nonneg payload).
  unfold inbound_data_frame. cbv zeta.
  set (iph := put 30 (le_bytes 4 xip) _). set (hdr := put 48 [255; 255] _).
  assert (Hib : bytes iph) by (unfold iph; bytes_tac).
  assert (Hil : blen iph = 1514) by (unfold iph; by autorewrite with buf).
  assert (Hb : bytes hdr) by (unfold hdr; bytes_tac).
  assert (Hl : blen hdr = 1514) by (unfold hdr; by autorewrite with buf).
  assert (Hlow : ∀ off len, 0 ≤ off → 0 ≤ len → off + len ≤ 34 →
            slice off len hdr = slice off len (store_ip_checksum iph)).
  { intros. unfold hdr. by rewrite !slice_put_disjoint by len_tac. }
  assert (Hpay : ∀ off len, 0 ≤ off → 0 ≤ len → off + len ≤ 54 →
            slice off len (put 54 payload hdr) = slice off len hdr).
  { intros. by rewrite slice_put_disjoint by lia. }
  split_and!.
  - unfold parse_tcp. rewrite !(slice_store_tcp 46 1), !(slice_store_tcp 16 2) by len_tac.
    rewrite !(Hpay 46 1), !(Hpay 16 2) by lia.
    replace (byte_at (slice 46 1 hdr) 0 >>> 4) with 5 by (unfold hdr; mac_bytes; reflexivity).
    rewrite (Hlow 16 2), slice_store_ip by lia.
    replace (slice 16 2 iph) with (be16 (40 + blen payload)) by (unfold iph; mac_bytes; reflexivity).
    rewrite of_be_be16 by (unfold is_u16; lia). change (34 + 4 * 5) with 54.
    rewrite !slice_store_tcp by len_tac. rewrite slice_put_same by lia. rewrite !Hpay by lia.
    rewrite !Hlow, !slice_store_ip by lia.
    replace (slice 26 4 iph) with (le_bytes 4 cip) by (unfold iph; mac_bytes; reflexivity).
    replace (slice 30 4 iph) with (le_bytes 4 xip) by (unfold iph; mac_bytes; reflexivity).
    replace (slice 38 4 hdr) with (le_bytes 4 (bswap32 seq)) by (unfold hdr; mac_bytes; reflexivity).
    replace (slice 34 2 hdr) with (be16 cport) by (unfold hdr; mac_bytes; reflexivity).
    replace (slice 36 2 hdr) with (be16 xport) by (unfold hdr; mac_bytes; reflexivity).
    rewrite !of_le_4, !of_be_swapped, !of_be_be16 by done.
    f_equal; unfold hdr, iph; mac_bytes; reflexivity.
  - rewrite slice_store_tcp by len_tac. rewrite Hpay, Hlow by lia.
    apply ip_header_verifies; [done|lia|]. unfold iph; mac_bytes; reflexivity.
  - apply tcp_segment_verifies; [by apply bytes_put|lia|len_tac|].
    rewrite Hpay by lia. unfold hdr; mac_bytes; reflexivity.
Qed.

Lemma store_ip_sum_checksum pkt :
  bytes pkt → 34 ≤ blen pkt → store_ip_sum pkt = store_ip_checksum pkt.
Proof.
  intros Hb Hl. unfold store_ip_sum, store_ip_checksum, ip_checksum. cbv zeta.
  set (r := fold_carry _ _).
  assert (Hr : 0 ≤ r ≤ 0xFFFF).
  { apply (fold_exists (sum_words (slice 14 20 pkt) 0)).
    rewrite sum_words_spec; [apply u32_range|by apply bytes_slice|unfold is_u32; lia]. }
  rewrite u16_lnot by done.
  assert (∀ x y l, put 25 [y] (put 24 [x] l) = put 24 [x; y] l) as ->.
  { intros. unfold put. change (Z.to_nat 25) with 25%nat. change (Z.to_nat 24) with 24%nat.
    simpl. by rewrite list_insert_insert_ne by lia. }
  do 2 f_equal; [|f_equal].
  - unfold not32, u32, Z.lnot, Z.pred. change 0xFF with (Z.ones 8).
    rewrite Z.land_ones, !Z.shiftr_div_pow2 by lia. dlia.
  - unfold Z.lnot, Z.pred. change 0xFF with (Z.ones 8). rewrite !Z.land_ones by lia. dlia.
Qed.

(** The ACK that completes an inbound handshake carries the agreed sequence
    numbers and an IP header checksum that verifies; its TCP checksum field is
    left zero. *)
Lemma inbound_ack_frame_fields cip cport xip xport seq ack :
  is_u32 cip → is_u16 cport → is_u32 xip → is_u16 xport → is_u32 seq → is_u32 ack →
  let f := inbound_ack_frame xbox_mac host_mac cip cport xip xport seq ack in
  parse_tcp f = mkTcpView xbox_mac host_mac 0x0800 40 6 cip xip cport xport seq ack 0x10 [] ∧
  ip_checksum (slice 14 20 f) = 0 ∧ slice 50 2 f = [0; 0].
Proof.
  intros Hcip Hcp Hxip Hxp Hseq Hack. unfold inbound_ack_frame. cbv zeta.
  set (pkt := put 48 [255; 255] _).
  assert (Hb : bytes pkt) by (unfold pkt; bytes_tac).
  assert (Hl : blen pkt = 54) by (unfold pkt; by autorewrite with buf).
  rewrite store_ip_sum_checksum by (done || lia). split_and!.
  - unfold parse_tcp. rewrite !slice_store_ip by lia.
    replace (slice 26 4 pkt) with (le_bytes 4 cip) by (unfold pkt; mac_bytes; reflexivity).
    replace (slice 30 4 pkt) with (le_bytes 4 xip) by (unfold pkt; mac_bytes; reflexivity).
    replace (slice 38 4 pkt) with (le_bytes 4 (bswap32 seq)) by (unfold pkt; mac_bytes; reflexivity).
    replace (slice 42 4 pkt) with (le_bytes 4 (bswap32 ack)) by (unfold pkt; mac_bytes; reflexivity).
    replace (slice 34 2 pkt) with (be16 cport) by (unfold pkt; mac_bytes; reflexivity).
    replace (slice 36 2 pkt) with (be16 xport) by (unfold pkt; mac_bytes; reflexivity).
    rewrite !of_le_4, !of_be_swapped, !of_be_be16 by done.
    f_equal; unfold pkt; mac_bytes; reflexivity.
  - apply ip_header_verifies; [done|lia|]. unfold pkt; mac_bytes; reflexivity.
  - rewrite slice_store_ip by lia. unfold pkt; mac_bytes; reflexivity.
Qed.

(** A datagram relayed to the Xbox is a well-formed UDP/IPv4 packet whenever it
    fits an Ethernet frame: the lengths of both headers, the addresses and ports
    and the payload read back, the IP checksum verifies, and the UDP checksum is
    absent (zero). *)
Lemma udp_frame_wellformed rip rport xip xport payload :
  is_u32 rip → is_u16 rport → is_u32 xip → is_u16 xport →
  bytes payload → blen payload ≤ 1472 →
  let f := udp_frame xbox_mac host_mac rip rport xip xport payload in
  slice 0 14 f = xbox_mac ++ host_mac ++ [0x08; 0x00] ∧
  of_be (slice 16 2 f) = 28 + blen payload ∧ slice 22 2 f = [64; 17] ∧
  of_le (slice 26 4 f) = rip ∧ of_le (slice 30 4 f) = xip ∧
  of_be (slice 34 2 f) = rport ∧ of_be (slice 36 2 f) = xport ∧
  of_be (slice 38 2 f) = 8 + blen payload ∧ slice 40 2 f = [0; 0] ∧
  slice 42 (blen payload) f = payload ∧
  ip_checksum (slice 14 20 f) = 0.
Proof.
  intros Hrip Hrp Hxip Hxp Hpb Hpl. pose proof (blen_nonneg payload).
  unfold udp_frame. cbv zeta. set (hdr := put 38 (be16 _) _).
  assert (Hb : bytes hdr) by (unfold hdr; bytes_tac).
  assert (Hl : blen hdr = 1514) by (unfold hdr; by autorewrite with buf).
  assert (Hpay : ∀ off len, 0 ≤ off → 0 ≤ len → off + len ≤ 42 →
            off + len ≤ 24 ∨ 26 ≤ off →
            slice off len (store_ip_checksum (put 42 payload hdr)) = slice off len hdr).
  { intros. by rewrite slice_store_ip, slice_put_disjoint by len_tac. }
  rewrite !Hpay by lia.
  replace (slice 26 4 hdr) with (le_bytes 4 rip) by (unfold hdr; mac_bytes; reflexivity).
  replace (slice 30 4 hdr) with (le_bytes 4 xip) by (unfold hdr; mac_bytes; reflexivity).
  replace (slice 34 2 hdr) with (be16 rport) by (unfold hdr; mac_bytes; reflexivity).
  replace (slice 36 2 hdr) with (be16 xport) by (unfold hdr; mac_bytes; reflexivity).
  replace (slice 16 2 hdr) with (be16 (28 + blen payload)) by (unfold hdr; mac_bytes; reflexivity).
  replace (slice 38 2 hdr) with (be16 (8 + blen payload)) by (unfold hdr; mac_bytes; reflexivity).
  rewrite !of_le_4, !of_be_be16 by (done || (unfold is_u16; lia)).
  split_and!; try done; try (unfold hdr; mac_bytes; reflexivity).
  - rewrite slice_store_ip by len_tac. by rewrite slice_put_same by lia.
  - apply ip_header_verifies; [by apply bytes_put|len_tac|].
    rewrite slice_put_disjoint by lia. unfold hdr; mac_bytes; reflexivity.
Qed.

(** A DHCP option list: code, length, value; 0 is padding, 255 the end. *)
Fixpoint parse_options (fuel : nat) (o : list Z) : option (list (Z * list Z)) :=
  match fuel, o with
  | S fuel, 255 :: _ => Some []
  | S fuel, 0 :: o => parse_options fuel o
  | S fuel, code :: len :: o =>
      if len <=? blen o
      then cons (code, slice 0 len o) <$> parse_options fuel (drop (Z.to_nat len) o)
      else None
  | _, _ => None
  end.

(** The DHCP response offers the configured lease: BOOTREPLY for the client's
    transaction id and hardware address, the leased address and server, the magic
    cookie, an option list that parses to message type, server identifier, one
    day's lease, a /24 mask, router and DNS server, lengths that agree with the
    316 bytes sent, ports 67 to 68, and an IP checksum that verifies. *)
Lemma dhcp_response_wellformed xid rtype cip sip gw dns :
  blen xid = 4 → bytes xid → is_u8 rtype → is_u32 cip → is_u32 sip → is_u32 gw → is_u32 dns →
  let f := dhcp_response xbox_mac host_mac xid rtype cip sip gw dns in
  slice 0 14 f = xbox_mac ++ host_mac ++ [0x08; 0x00] ∧
  14 + of_be (slice 16 2 f) = dhcp_response_size ∧
  20 + of_be (slice 38 2 f) = of_be (slice 16 2 f) ∧
  of_be (slice 34 2 f) = 67 ∧ of_be (slice 36 2 f) = 68 ∧
  slice 42 4 f = [2; 1; 6; 0] ∧ slice 46 4 f = xid ∧ of_le (slice 58 4 f) = cip ∧
  of_le (slice 62 4 f) = sip ∧ slice 70 6 f = xbox_mac ∧ slice 278 4 f = [99; 130; 83; 99] ∧
  parse_options 8 (slice 282 (dhcp_response_size - 282) f) =
    Some [(53, [rtype]); (54, le_bytes 4 sip); (51, be_bytes 4 86400);
          (1, be_bytes 4 0xFFFFFF00); (3, le_bytes 4 gw); (6, le_bytes 4 dns)] ∧
  ip_checksum (slice 14 20 f) = 0.
Proof.
  intros Hxl Hxidb Hrt Hcip Hsip Hgw Hdns.
  destruct xid as [|i0 [|i1 [|i2 [|i3 [|]]]]]; try (unfold blen in Hxl; simpl in Hxl; lia).
  unfold dhcp_response. cbv zeta. change (blen (dhcp_options _ _ _ _)) with 34.
  set (pkt := put 38 (be16 _) _).
  assert (Hb : bytes pkt) by (unfold pkt, dhcp_options; bytes_tac).
  assert (Hl : blen pkt = 512) by (unfold pkt; by autorewrite with buf).
  rewrite !slice_store_ip by (unfold dhcp_response_size; lia).
  replace (slice 58 4 pkt) with (le_bytes 4 cip) by (unfold pkt; mac_bytes; reflexivity).
  replace (slice 62 4 pkt) with (le_bytes 4 sip) by (unfold pkt; mac_bytes; reflexivity).
  rewrite !of_le_4 by done.
  split_and!; try done; try (unfold pkt; mac_bytes; reflexivity).
  apply ip_header_verifies; [done|lia|]. unfold pkt; mac_bytes; reflexivity.
Qed.

(** Sizes and contents of the buffers the frames lie in. *)
Lemma tcp_frame_bytes id0 id1 rip rport xip xport seq ack fl payload :
  is_u16 rport → is_u16 xport → bytes payload → blen payload ≤ 1460 →
  let f := tcp_frame xbox_mac host_mac id0 id1 rip rport xip xport seq ack fl payload in
  bytes f ∧ blen f = 1514.
Proof.
  intros Hr Hx Hp Hl. pose proof (blen_nonneg payload). unfold tcp_frame, tcp_headers. cbv zeta.
  split; [bytes_tac|by autorewrite with buf].
Qed.
Lemma syn_frame_bytes id0 id1 cip cport xip xport seq :
  is_u16 cport → is_u16 xport →
  let f := syn_frame xbox_mac host_mac id0 id1 cip cport xip xport seq in
  bytes f ∧ blen f = 74.
Proof.
  intros Hr Hx. unfold syn_frame. cbv zeta. split; [bytes_tac|by autorewrite with buf].
Qed.
Lemma inbound_data_frame_bytes cip cport xip xport seq payload :
  is_u16 cport → is_u16 xport → bytes payload → blen payload ≤ 1400 →
  let f := inbound_data_frame xbox_mac host_mac cip cport xip xport seq payload in
  bytes f ∧ blen f = 1514.
Proof.
  intros Hr Hx Hp Hl. pose proof (blen_nonneg payload). unfold inbound_data_frame. cbv zeta.
  split; [bytes_tac|by autorewrite with buf].
Qed.
Lemma inbound_ack_frame_bytes cip cport xip xport seq ack :
  is_u16 cport → is_u16 xport →
  let f := inbound_ack_frame xbox_mac host_mac cip cport xip xport seq ack in
  bytes f ∧ blen f = 54.
Proof.
  intros Hr Hx. unfold inbound_ack_frame. cbv zeta. set (pkt := put 48 _ _).
  assert (bytes pkt) by (unfold pkt; bytes_tac).
  assert (blen pkt = 54) by (unfold pkt; by autorewrite with buf).
  rewrite store_ip_sum_checksum by (done || lia).
  split; [auto with bytes|by autorewrite with buf].
Qed.
Lemma udp_frame_bytes rip rport xip xport payload :
  is_u16 rport → is_u16 xport → bytes payload → blen payload ≤ 1472 →
  let f := udp_frame xbox_mac host_mac rip rport xip xport payload in
  bytes f ∧ blen f = 1514.
Proof.
  intros Hr Hx Hp Hl. pose proof (blen_nonneg payload). unfold udp_frame. cbv zeta.
  split; [bytes_tac|by autorewrite with buf].
Qed.
Lemma dhcp_response_bytes xid rtype cip sip gw dns :
  bytes xid → is_u8 rtype →
  let f := dhcp_response xbox_mac host_mac xid rtype cip sip gw dns in
  bytes f ∧ blen f = 512.
Proof.
  intros Hx Hr. unfold dhcp_response. cbv zeta. change (blen (dhcp_options _ _ _ _)) with 34.
  unfold dhcp_options. split; [bytes_tac|by autorewrite with buf].
Qed.
End tcp_frame.

(** The ARP reply claims the requested address for the proxy: it goes from the
    proxy's MAC to the requester, is an Ethernet/IPv4 reply (operation 2) whose
    sender is the address asked for at the proxy's MAC and whose target is the
    requester's own MAC and IP address. *)
Lemma arp_reply_spec host_mac buf :
  blen host_mac = 6 → 42 ≤ blen buf →
  arp_reply host_mac buf =
    slice 6 6 buf ++ host_mac ++ [0x08; 0x06] ++
    [0x00; 0x01; 0x08; 0x00; 6; 4; 0x00; 0x02] ++
    host_mac ++ slice 38 4 buf ++ slice 6 6 buf ++ slice 28 4 buf.
Proof.
  intros Hh Hb. destruct (six_bytes host_mac Hh) as (h0&h1&h2&h3&h4&h5&->).
  destruct (six_bytes (slice 6 6 buf)) as (s0&s1&s2&s3&s4&s5&Hs); [apply blen_slice; lia|].
  assert (four : ∀ l, blen l = 4 → ∃ a b c d, l = [a; b; c; d]).
  { intros [|a [|b [|c [|d [|]]]]] Hl; unfold blen in Hl; simpl in Hl; try lia. by exists a, b, c, d. }
  destruct (four (slice 38 4 buf)) as (t0&t1&t2&t3&Ht); [apply blen_slice; lia|].
  destruct (four (slice 28 4 buf)) as (q0&q1&q2&q3&Hq); [apply blen_slice; lia|].
  unfold arp_reply. rewrite Hs, Ht, Hq. reflexivity.
Qed.
