(* ===== verification/NvnetProxy.v ===== *)
(** * NvnetProxy: the direct network proxy of the Ethernet controller

    Models nvnet.c:420-1293: the ARP, DHCP, UDP and TCP handlers for packets the
    Xbox sends, the inbound (FTP) connections, the receive poll and the
    dispatcher [send_packet].  A [const uint8_t *buf, size_t size] pair is the
    whole object [buf] points into and the length of the packet in it.

    The frames are those of NvnetFrames; handing one to the guest is the
    interface [GuestRx], which NvnetDev instantiates with
    [dma_packet_to_guest].  [nvnet_log] and the prints to stderr are not
    modelled, nor is [proxy_mutex], which only the emulator's main thread
    takes. *)

From S2P Require Import Prelude NvnetState Checksum NvnetFrames.

(** ** Interface to packet reception

    Delivering a frame may change the device and guest memory, not the proxy or
    the history of host calls, nor the buffer the packet being handled is in. *)
Class GuestRx := {
  to_guest : list Z → Z → M World Z;
  to_guest_frame : ∀ buf size,
    keeps (λ w, (proxy w, trace w, tx_dma_buf (dev w), tx_dma_buf_offset (dev w)))
      (to_guest buf size)
}.

Section handlers.
Context `{HostOS} `{GuestRx}.

(** ** Connection tables *)

Definition tcp_conn (i : Z) (p : ProxyState) : tcp_conn_t.t := tcp_conns p !!! Z.to_nat i.
Definition upd_tcp (i : Z) (f : tcp_conn_t.t → tcp_conn_t.t) : M World unit :=
  upd_proxy (λ p, p <| tcp_conns ::= alter f (Z.to_nat i) |>).
Definition udp_conn (i : Z) (p : ProxyState) : udp_conn_t.t := udp_conns p !!! Z.to_nat i.
Definition upd_udp (i : Z) (f : udp_conn_t.t → udp_conn_t.t) : M World unit :=
  upd_proxy (λ p, p <| udp_conns ::= alter f (Z.to_nat i) |>).
Definition inbound_conn (i : Z) (p : ProxyState) : inbound_conn_t.t :=
  inbound_conns p !!! Z.to_nat i.
Definition upd_inbound (i : Z) (f : inbound_conn_t.t → inbound_conn_t.t) : M World unit :=
  upd_proxy (λ p, p <| inbound_conns ::= alter f (Z.to_nat i) |>).

(** [ethertype = (buf[12] << 8) | buf[13]], [protocol = buf[14 + 9]] *)
Definition get_ethertype (buf : list Z) : M World Z := rd_be16 buf 12.
Definition get_protocol (buf : list Z) : M World Z := rd8 buf 23.

(** [memcpy(nvnet_xbox_mac, buf + 6, 6)] *)
Definition save_xbox_mac (buf : list Z) : M World unit :=
  mac ← rd buf 6 6; upd_proxy (λ p, p <| nvnet_xbox_mac := mac |>).

(** ** ARP *)

Definition handle_arp_packet (buf : list Z) (size : Z) : M World Z :=
  enabled ← get_proxy nvnet_proxy_enabled;
  if negb enabled || (size <? 42) then mret 0
  else
    ethertype ← get_ethertype buf;
    if negb (ethertype =? 0x0806) then mret 0
    else
      arp_op ← rd_be16 buf 20;
      if negb (arp_op =? 1) then mret 0
      else
        t ← rd buf 38 4;
        let target_ip := of_le t in
        save_xbox_mac buf;;
        client_ip ← get_proxy nvnet_dhcp_client_ip;
        if target_ip =? client_ip then mret 1
        else
          host_mac ← get_proxy nvnet_host_mac;
          to_guest (arp_reply host_mac buf) 42;;
          mret 1.

(** ** Inbound listeners *)

Definition port_map : list (Z * Z) := [(2121, 21)].

Definition init_inbound_listeners : M World unit :=
  initialized ← get_proxy inbound_initialized;
  if (initialized : bool) then mret tt
  else
    upd_proxy (λ p, p <| inbound_initialized := true |>
                      <| inbound_conns := replicate (Z.to_nat MAX_INBOUND_CONNS) inbound_conn_t.zero |>);;
    forM (zip (seqZ 0 (Z.of_nat (length port_map))) port_map) (λ '(p, (listen_port, xbox_port)),
      sock ← sysval h_socket_stream;
      if sock <? 0 then mret tt
      else
        syscall (h_setsockopt_reuseaddr sock);;
        b ← sysval (h_bind sock listen_port);
        if b <? 0 then syscall (h_close sock);; mret tt
        else
          l ← sysval (h_listen sock 5);
          if l <? 0 then syscall (h_close sock);; mret tt
          else
            upd_inbound p (λ c, c <| inbound_conn_t.listen_fd := sock |>
                                  <| inbound_conn_t.xbox_port := xbox_port |>
                                  <| inbound_conn_t.active := true |>
                                  <| inbound_conn_t.state := 0 |>)).

(** ** DHCP *)

(** The option walk of [handle_dhcp_packet]: the type in the first option 53, 0 if
    there is none; [opt] is the offset of [options] in [buf]. *)
Fixpoint find_msg_type (fuel : nat) (buf : list Z) (size opt : Z) : M World Z :=
  match fuel with
  | O => raise OutOfFuel
  | S fuel =>
      if opt <? size - 2 then
        o0 ← rd8 buf opt;
        if o0 =? 255 then mret 0
        else if o0 =? 0 then find_msg_type fuel buf size (opt + 1)
        else
          o1 ← rd8 buf (opt + 1);
          if (o0 =? 53) && (o1 >=? 1) then rd8 buf (opt + 2)
          else find_msg_type fuel buf size (opt + (2 + o1))
      else mret 0
  end.

(** Each round moves past at least one byte. *)
Definition options_fuel (size : Z) : nat := S (Z.to_nat size).

(** [fgets] into 32 bytes, then the string up to the newline. *)
Definition is_line_end (c : Z) : bool := (c =? 10) || (c =? 0).
Fixpoint take_until_line_end (s : list Z) : list Z :=
  match s with
  | [] => []
  | c :: s => if is_line_end c then [] else c :: take_until_line_end s
  end.
Definition first_line (r : host_ret) : option (list Z) :=
  if hr_val r =? 0 then None else Some (take_until_line_end (take 31 (hr_data r))).

(** [sscanf]'s [%d]: optional white space and sign, then decimal digits. *)
Definition is_space (c : Z) : bool := (c =? 32) || ((9 <=? c) && (c <=? 13)).
Definition is_digit (c : Z) : bool := (48 <=? c) && (c <=? 57).
Fixpoint skip_spaces (s : list Z) : list Z :=
  match s with
  | c :: s' => if is_space c then skip_spaces s' else s
  | [] => []
  end.
Fixpoint scan_digits (s : list Z) (acc : Z) : Z * list Z :=
  match s with
  | c :: s' => if is_digit c then scan_digits s' (acc * 10 + (c - 48)) else (acc, s)
  | [] => (acc, [])
  end.
Definition scan_unsigned (s : list Z) : option (Z * list Z) :=
  match s with
  | c :: _ => if is_digit c then Some (scan_digits s 0) else None
  | [] => None
  end.
Definition scan_int (s : list Z) : option (Z * list Z) :=
  match skip_spaces s with
  | c :: s' =>
      if c =? 45 then '(v, r) ← scan_unsigned s'; Some (- v, r)
      else if c =? 43 then scan_unsigned s'
      else scan_unsigned (c :: s')
  | [] => None
  end.
Definition scan_dot (s : list Z) : option (list Z) :=
  match s with
  | c :: s => if c =? 46 then Some s else None
  | [] => None
  end.
(** [sscanf(s, "%d.%d.%d.%d", &a, &b, &c, &d) == 4] *)
Definition scan_quad (s : list Z) : option (Z * Z * Z * Z) :=
  '(a, s) ← scan_int s; s ← scan_dot s;
  '(b, s) ← scan_int s; s ← scan_dot s;
  '(c, s) ← scan_int s; s ← scan_dot s;
  '(d, _) ← scan_int s; Some (a, b, c, d).

Definition quad_ip (a b c d : Z) : Z :=
  bswap32 (u32 ((a <<< 24) ||| (b <<< 16) ||| (c <<< 8) ||| d)).

Definition detect_host_ip : M World unit :=
  r ← syscall h_route_src;
  match first_line r ≫= scan_quad with
  | Some (a, b, c, d) =>
      let xbox_d := d + 1 in
      let xbox_d := if xbox_d >? 254 then 2 else xbox_d in
      upd_proxy (λ p, p <| nvnet_dhcp_client_ip := quad_ip a b c xbox_d |>
                        <| nvnet_dhcp_server_ip := quad_ip a b c d |>)
  | None => mret tt
  end.

Definition detect_gateway : M World unit :=
  r ← syscall h_route_via;
  match first_line r with
  | Some gw =>
      if 0 <? blen gw then
        ip ← sysval (h_inet_addr gw);
        upd_proxy (λ p, p <| nvnet_dhcp_gateway := u32 ip |>)
      else mret tt
  | None => mret tt
  end.

Definition arm_proxy_poll_timer : M World unit :=
  now ← sysval h_clock_ms;
  upd_dev (λ s, s <| proxy_poll_timer_deadline := Some (now + 20) |>).

(** The auto-configuration; [false] when no network could be detected. *)
Definition autodetect : M World bool :=
  detect_host_ip;;
  detect_gateway;;
  client_ip ← get_proxy nvnet_dhcp_client_ip;
  gateway ← get_proxy nvnet_dhcp_gateway;
  if truthy client_ip && truthy gateway then
    upd_proxy (λ p, p <| nvnet_proxy_enabled := true |>);;
    init_inbound_listeners;;
    arm_proxy_poll_timer;;
    mret true
  else mret false.

Definition send_dhcp_response (buf : list Z) (dhcp_msg_type : Z) : M World Z :=
  p ← get_proxy id;
  xid ← rd buf 46 4;
  to_guest
    (dhcp_response (nvnet_xbox_mac p) (nvnet_host_mac p) xid
       (if dhcp_msg_type =? DHCP_DISCOVER then DHCP_OFFER else DHCP_ACK)
       (nvnet_dhcp_client_ip p) (nvnet_dhcp_server_ip p) (nvnet_dhcp_gateway p)
       (nvnet_dhcp_dns p)) dhcp_response_size;;
  mret 1.

Definition handle_dhcp_packet (buf : list Z) (size : Z) : M World Z :=
  if size <? 282 then mret 0
  else
    ethertype ← get_ethertype buf;
    if negb (ethertype =? 0x0800) then mret 0
    else
      protocol ← get_protocol buf;
      if negb (protocol =? 17) then mret 0
      else
        dst_port ← rd_be16 buf 36;
        if negb (dst_port =? DHCP_SERVER_PORT) then mret 0
        else
          op ← rd8 buf 42;
          if negb (op =? 1) then mret 0
          else
            dhcp_msg_type ← find_msg_type (options_fuel size) buf size 282;
            if negb (dhcp_msg_type =? DHCP_DISCOVER) && negb (dhcp_msg_type =? DHCP_REQUEST)
            then mret 0
            else
              save_xbox_mac buf;;
              enabled ← get_proxy nvnet_proxy_enabled;
              go ← (if (enabled : bool) then mret true else autodetect);
              if (go : bool) then send_dhcp_response buf dhcp_msg_type else mret 1.

(** ** UDP *)

(** The table scan of [find_or_create_udp_conn]: [Some i] is a hit, whose
    [last_used] was refreshed; otherwise the first free slot ([-1] if none) after
    expiring entries idle for more than 60 seconds. *)
Fixpoint udp_scan (idx : list Z) (now xbox_port remote_ip remote_port free_slot : Z) :
    M World (option Z * Z) :=
  match idx with
  | [] => mret (None, free_slot)
  | i :: idx =>
      c ← get_proxy (udp_conn i);
      if udp_conn_t.active c && (udp_conn_t.xbox_port c =? xbox_port) &&
         (udp_conn_t.remote_ip c =? remote_ip) && (udp_conn_t.remote_port c =? remote_port)
      then
        upd_udp i (λ c, c <| udp_conn_t.last_used := now |>);;
        mret (Some i, free_slot)
      else
        let free_slot :=
          if negb (udp_conn_t.active c) && (free_slot <? 0) then i else free_slot in
        if udp_conn_t.active c && (now - udp_conn_t.last_used c >? 60) then
          syscall (h_close (udp_conn_t.socket_fd c));;
          upd_udp i (λ c, c <| udp_conn_t.active := false |>);;
          udp_scan idx now xbox_port remote_ip remote_port (if free_slot <? 0 then i else free_slot)
        else udp_scan idx now xbox_port remote_ip remote_port free_slot
  end.

Definition find_or_create_udp_conn (xbox_port remote_ip remote_port : Z) : M World Z :=
  now ← sysval h_time;
  '(hit, free_slot) ← udp_scan (seqZ 0 MAX_UDP_CONNS) now xbox_port remote_ip remote_port (-1);
  match hit with
  | Some i => mret i
  | None =>
      if free_slot <? 0 then mret (-1)
      else
        sock ← sysval h_socket_dgram;
        if sock <? 0 then mret (-1)
        else
          client_ip ← get_proxy nvnet_dhcp_client_ip;
          upd_udp free_slot (λ _, udp_conn_t.mk true sock client_ip xbox_port remote_ip remote_port now);;
          mret free_slot
  end.

Definition handle_udp_packet (buf : list Z) (size : Z) : M World Z :=
  enabled ← get_proxy nvnet_proxy_enabled;
  if negb enabled || (size <? 42) then mret 0
  else
    ethertype ← get_ethertype buf;
    if negb (ethertype =? 0x0800) then mret 0
    else
      protocol ← get_protocol buf;
      if negb (protocol =? 17) then mret 0
      else
        dst_port ← rd_be16 buf 36;
        if dst_port =? DHCP_SERVER_PORT then mret 0
        else
          src_port ← rd_be16 buf 34;
          d ← rd buf 30 4;
          let dst_ip := of_le d in
          l ← rd_be16 buf 38;
          let udp_len := u64 (l - 8) in
          idx ← find_or_create_udp_conn src_port dst_ip dst_port;
          if idx <? 0 then mret 0
          else
            c ← get_proxy (udp_conn idx);
            payload ← rd buf 42 udp_len;
            syscall (h_sendto (udp_conn_t.socket_fd c) payload dst_ip dst_port);;
            mret 1.

(** ** TCP *)

Definition tcp_match (xbox_port remote_ip remote_port : Z) (c : tcp_conn_t.t) : bool :=
  tcp_conn_t.active c && (tcp_conn_t.xbox_port c =? xbox_port) &&
  (tcp_conn_t.remote_ip c =? remote_ip) && (tcp_conn_t.remote_port c =? remote_port).

(** The first index from [i] on whose entry satisfies [f], or [dflt]. *)
Fixpoint first_index {A} (f : A → bool) (l : list A) (i dflt : Z) : Z :=
  match l with
  | [] => dflt
  | c :: l => if f c then i else first_index f l (i + 1) dflt
  end.

Definition find_tcp_conn (xbox_port remote_ip remote_port : Z) : M World Z :=
  get_proxy (λ p, first_index (tcp_match xbox_port remote_ip remote_port) (tcp_conns p) 0 (-1)).

Definition send_tcp_to_xbox (conn_idx flags : Z) (payload : list Z) : M World unit :=
  conn ← get_proxy (tcp_conn conn_idx);
  p ← get_proxy id;
  id0 ← sysval h_rand;
  id1 ← sysval h_rand;
  whenM (0 <? blen payload) (
    inBounds (54 + blen payload <=? 1514);;
    upd_tcp conn_idx (λ c, c <| tcp_conn_t.seq_out ::= λ x, u32 (x + blen payload) |>));;
  whenM (truthy (flags &&& 0x02))
    (upd_tcp conn_idx (λ c, c <| tcp_conn_t.seq_out ::= λ x, u32 (x + 1) |>));;
  whenM (truthy (flags &&& 0x01))
    (upd_tcp conn_idx (λ c, c <| tcp_conn_t.seq_out ::= λ x, u32 (x + 1) |>));;
  to_guest
    (tcp_frame (nvnet_xbox_mac p) (nvnet_host_mac p) id0 id1
       (tcp_conn_t.remote_ip conn) (tcp_conn_t.remote_port conn)
       (tcp_conn_t.xbox_ip conn) (tcp_conn_t.xbox_port conn)
       (tcp_conn_t.seq_out conn) (tcp_conn_t.ack_out conn) flags payload)
    (14 + (20 + 20 + blen payload));;
  mret tt.

(** The fields of a TCP segment the handlers read. *)
Record tcp_fields := mkTcpFields {
  f_src_port : Z; f_dst_port : Z; f_seq : Z; f_flags : Z; f_dst_ip : Z;
  f_payload_len : Z; f_payload_off : Z; f_tcp : Z
}.

Definition read_tcp_fields (buf : list Z) (size : Z) : M World tcp_fields :=
  b14 ← rd8 buf 14;
  let ihl := (b14 &&& 0x0F) * 4 in
  let tcp := 14 + ihl in
  src_port ← rd_be16 buf tcp;
  dst_port ← rd_be16 buf (tcp + 2);
  s ← rd buf (tcp + 4) 4;
  flags ← rd8 buf (tcp + 13);
  b12 ← rd8 buf (tcp + 12);
  let tcp_hdr_len := ((b12 >>> 4) &&& 0x0F) * 4 in
  d ← rd buf 30 4;
  mret (mkTcpFields src_port dst_port (bswap32 (of_le s)) flags (of_le d)
          (u64 (size - 14 - ihl - tcp_hdr_len)) (tcp + tcp_hdr_len) tcp).

(** A SYN from the Xbox: replace any previous connection and answer SYN+ACK. *)
Definition handle_tcp_syn (f : tcp_fields) (idx : Z) : M World Z :=
  (if 0 <=? idx then
     c ← get_proxy (tcp_conn idx);
     syscall (h_close (tcp_conn_t.socket_fd c));;
     upd_tcp idx (λ c, c <| tcp_conn_t.active := false |>)
   else mret tt);;
  idx ← get_proxy (λ p, first_index (λ c, negb (tcp_conn_t.active c)) (tcp_conns p) 0 idx);
  if idx <? 0 then mret 0
  else
    sock ← sysval h_socket_stream;
    if sock <? 0 then mret 0
    else
      syscall (h_connect sock (f_dst_ip f) (f_dst_port f));;
      client_ip ← get_proxy nvnet_dhcp_client_ip;
      seq_out ← sysval h_rand;
      upd_tcp idx (λ _, tcp_conn_t.mk true sock client_ip (f_src_port f) (f_dst_ip f) (f_dst_port f)
                          (u32 seq_out) (u32 (f_seq f + 1)) (u32 (f_seq f + 1)) 1);;
      send_tcp_to_xbox idx 0x12 [];;
      mret 1.

Definition handle_tcp_packet (buf : list Z) (size : Z) : M World Z :=
  enabled ← get_proxy nvnet_proxy_enabled;
  if negb enabled || (size <? 54) then mret 0
  else
    ethertype ← get_ethertype buf;
    if negb (ethertype =? 0x0800) then mret 0
    else
      protocol ← get_protocol buf;
      if negb (protocol =? 6) then mret 0
      else
        f ← read_tcp_fields buf size;
        idx ← find_tcp_conn (f_src_port f) (f_dst_ip f) (f_dst_port f);
        if truthy (f_flags f &&& 0x02) then handle_tcp_syn f idx
        else if idx <? 0 then mret 0
        else
          conn ← get_proxy (tcp_conn idx);
          whenM (truthy (f_flags f &&& 0x10) && (tcp_conn_t.state conn =? 1))
            (upd_tcp idx (λ c, c <| tcp_conn_t.state := 2 |>));;
          conn ← get_proxy (tcp_conn idx);
          whenM ((0 <? f_payload_len f) && (tcp_conn_t.state conn =? 2)) (
            payload ← rd buf (f_payload_off f) (f_payload_len f);
            syscall (h_send (tcp_conn_t.socket_fd conn) payload);;
            upd_tcp idx (λ c, c <| tcp_conn_t.ack_out := u32 (f_seq f + f_payload_len f) |>);;
            send_tcp_to_xbox idx 0x10 []);;
          whenM (truthy (f_flags f &&& 0x01)) (
            upd_tcp idx (λ c, c <| tcp_conn_t.ack_out := u32 (f_seq f + 1) |>);;
            send_tcp_to_xbox idx 0x11 [];;
            conn ← get_proxy (tcp_conn idx);
            syscall (h_close (tcp_conn_t.socket_fd conn));;
            upd_tcp idx (λ c, c <| tcp_conn_t.active := false |>));;
          mret 1.

(** ** Inbound connections *)

(** The result of [recv]/[recvfrom] into a buffer of [len] bytes: -1 on error,
    else the bytes received, at most [len]. *)
Definition recv_bytes (r : host_ret) (len : Z) : option (list Z) :=
  if hr_val r <? 0 then None else Some (u8 <$> take (Z.to_nat len) (hr_data r)).

Definition inject_tcp_syn_to_xbox (idx : Z) : M World unit :=
  p ← get_proxy id;
  id0 ← sysval h_rand;
  id1 ← sysval h_rand;
  seq ← sysval h_rand;
  upd_inbound idx (λ c, c <| inbound_conn_t.seq_to_xbox := u32 seq |>);;
  conn ← get_proxy (inbound_conn idx);
  to_guest
    (syn_frame (nvnet_xbox_mac p) (nvnet_host_mac p) id0 id1
       (inbound_conn_t.client_ip conn) (inbound_conn_t.client_port conn)
       (nvnet_dhcp_client_ip p) (inbound_conn_t.xbox_port conn)
       (inbound_conn_t.seq_to_xbox conn)) (14 + 20 + 24);;
  upd_inbound idx (λ c, c <| inbound_conn_t.state := 1 |>
                          <| inbound_conn_t.seq_to_xbox ::= λ x, u32 (x + 1) |>).

(** One listening slot of [poll_inbound_connections]. *)
Definition poll_inbound_one (i : Z) : M World unit :=
  conn ← get_proxy (inbound_conn i);
  if negb (inbound_conn_t.active conn) then mret tt
  else if (inbound_conn_t.state conn =? 0) && (inbound_conn_t.listen_fd conn >? 0) then
    r ← syscall (h_accept (inbound_conn_t.listen_fd conn));
    let client_fd := hr_val r in
    if client_fd >? 0 then
      syscall (h_set_nonblock client_fd);;
      upd_inbound i (λ c, c <| inbound_conn_t.client_fd := client_fd |>
                            <| inbound_conn_t.client_ip := u32 (hr_ip r) |>
                            <| inbound_conn_t.client_port := u16 (hr_port r) |>);;
      inject_tcp_syn_to_xbox i
    else mret tt
  else if (inbound_conn_t.state conn =? 2) && (inbound_conn_t.client_fd conn >? 0) then
    r ← syscall (h_recv (inbound_conn_t.client_fd conn) 1400);
    match recv_bytes r 1400 with
    | None => mret tt
    | Some [] =>
        syscall (h_close (inbound_conn_t.client_fd conn));;
        upd_inbound i (λ c, c <| inbound_conn_t.client_fd := 0 |> <| inbound_conn_t.state := 0 |>)
    | Some buf =>
        p ← get_proxy id;
        upd_inbound i (λ c, c <| inbound_conn_t.seq_to_xbox ::= λ x, u32 (x + blen buf) |>);;
        to_guest
          (inbound_data_frame (nvnet_xbox_mac p) (nvnet_host_mac p)
             (inbound_conn_t.client_ip conn) (inbound_conn_t.client_port conn)
             (nvnet_dhcp_client_ip p) (inbound_conn_t.xbox_port conn)
             (inbound_conn_t.seq_to_xbox conn) buf) (14 + (20 + 20 + blen buf));;
        mret tt
    end
  else mret tt.

Definition poll_inbound_connections : M World unit :=
  init_inbound_listeners;;
  forM (seqZ 0 MAX_INBOUND_CONNS) poll_inbound_one.

(** A segment from the Xbox that belongs to inbound connection [i]. *)
Definition inbound_response (buf : list Z) (f : tcp_fields) (i : Z) : M World unit :=
  conn ← get_proxy (inbound_conn i);
  whenM (((f_flags f &&& 0x12) =? 0x12) && (inbound_conn_t.state conn =? 1)) (
    s ← rd buf (f_tcp f + 4) 4;
    a ← rd buf (f_tcp f + 8) 4;
    upd_inbound i (λ c, c <| inbound_conn_t.state := 2 |>
                          <| inbound_conn_t.seq_to_client := u32 (bswap32 (of_le s) + 1) |>
                          <| inbound_conn_t.seq_to_xbox := bswap32 (of_le a) |>);;
    conn ← get_proxy (inbound_conn i);
    p ← get_proxy id;
    to_guest
      (inbound_ack_frame (nvnet_xbox_mac p) (nvnet_host_mac p)
         (inbound_conn_t.client_ip conn) (inbound_conn_t.client_port conn)
         (nvnet_dhcp_client_ip p) (inbound_conn_t.xbox_port conn)
         (inbound_conn_t.seq_to_xbox conn) (inbound_conn_t.seq_to_client conn)) 54;;
    mret tt);;
  whenM (truthy (f_flags f &&& 0x10) && (0 <? f_payload_len f)) (
    payload ← rd buf (f_payload_off f) (f_payload_len f);
    syscall (h_send (inbound_conn_t.client_fd conn) payload);;
    mret tt);;
  whenM (truthy (f_flags f &&& 0x01)) (
    syscall (h_close (inbound_conn_t.client_fd conn));;
    upd_inbound i (λ c, c <| inbound_conn_t.client_fd := 0 |> <| inbound_conn_t.state := 0 |>)).

Definition inbound_match (f : tcp_fields) (c : inbound_conn_t.t) : bool :=
  inbound_conn_t.active c && negb (inbound_conn_t.client_fd c <=? 0) &&
  (f_src_port f =? inbound_conn_t.xbox_port c) &&
  (f_dst_port f =? inbound_conn_t.client_port c) &&
  (f_dst_ip f =? inbound_conn_t.client_ip c).

Definition handle_inbound_tcp_response (buf : list Z) (size : Z) : M World Z :=
  if size <? 54 then mret 0
  else
    ethertype ← get_ethertype buf;
    if negb (ethertype =? 0x0800) then mret 0
    else
      protocol ← get_protocol buf;
      if negb (protocol =? 6) then mret 0
      else
        f ← read_tcp_fields buf size;
        handled ← forM_until (seqZ 0 MAX_INBOUND_CONNS) (λ i,
          c ← get_proxy (inbound_conn i);
          if inbound_match f c then inbound_response buf f i;; mret (Some 1) else mret None);
        mret (default 0 handled).

(** ** Receive poll *)

Definition poll_udp_one (i : Z) : M World unit :=
  c ← get_proxy (udp_conn i);
  if negb (udp_conn_t.active c) then mret tt
  else
    r ← syscall (h_recvfrom (udp_conn_t.socket_fd c) 2048);
    match recv_bytes r 2048 with
    | None | Some [] => mret tt
    | Some rxbuf =>
        p ← get_proxy id;
        inBounds (42 + blen rxbuf <=? 1514);;
        to_guest
          (udp_frame (nvnet_xbox_mac p) (nvnet_host_mac p)
             (udp_conn_t.remote_ip c) (udp_conn_t.remote_port c)
             (udp_conn_t.xbox_ip c) (udp_conn_t.xbox_port c) rxbuf) (14 + (20 + 8 + blen rxbuf));;
        mret tt
    end.

Definition poll_tcp_one (i : Z) : M World unit :=
  c ← get_proxy (tcp_conn i);
  if negb (tcp_conn_t.active c) || negb (tcp_conn_t.state c =? 2) then mret tt
  else
    r ← syscall (h_recv (tcp_conn_t.socket_fd c) 1400);
    match recv_bytes r 1400 with
    | None => mret tt
    | Some [] =>
        send_tcp_to_xbox i 0x11 [];;
        syscall (h_close (tcp_conn_t.socket_fd c));;
        upd_tcp i (λ c, c <| tcp_conn_t.active := false |>)
    | Some rxbuf => send_tcp_to_xbox i 0x18 rxbuf
    end.

Definition proxy_poll_rx : M World unit :=
  poll_inbound_connections;;
  forM (seqZ 0 MAX_UDP_CONNS) poll_udp_one;;
  forM (seqZ 0 MAX_TCP_CONNS) poll_tcp_one.

(** ** Dispatcher *)

Definition send_packet (buf : list Z) (size : Z) : M World unit :=
  enabled ← get_proxy nvnet_proxy_enabled;
  whenM enabled proxy_poll_rx;;
  r ← handle_arp_packet buf size;
  if truthy r then mret tt
  else
    r ← handle_dhcp_packet buf size;
    if truthy r then mret tt
    else
      r ← handle_inbound_tcp_response buf size;
      if truthy r then mret tt
      else
        r ← handle_udp_packet buf size;
        if truthy r then mret tt
        else
          r ← handle_tcp_packet buf size;
          if truthy r then mret tt
          else
            enabled ← get_proxy nvnet_proxy_enabled;
            if negb enabled then
              pkt ← rd buf 0 size;
              syscall (h_qemu_send_packet pkt);;
              mret tt
            else mret tt.
End handlers.
