(* ===== verification/NvnetProxySpec.v ===== *)
(** * NvnetProxySpec: correctness of the network proxy

    The invariant of the proxy's tables, that every handler preserves it and
    hands only well-formed frames to the guest, and the behaviour of the
    handlers of NvnetProxy. *)

From S2P Require Import Prelude NvnetState Checksum NvnetFrames NvnetProxy.

(** ** Tables without duplicate active keys *)

Section tables.
Context {A K : Type} (act : A → bool) (key : A → K).

Definition unique (l : list A) : Prop := ∀ i j c d,
  l !! i = Some c → l !! j = Some d → act c = true → act d = true → key c = key d → i = j.

Lemma unique_replicate n c : act c = false → unique (replicate n c).
Proof. intros Hc i j x d [-> _]%lookup_replicate. congruence. Qed.

(** An update that keeps the key, or deactivates. *)
Lemma unique_alter f i l :
  (∀ c, act (f c) = true → act c = true ∧ key (f c) = key c) →
  unique l → unique (alter f i l).
Proof.
  intros Hf Hu. assert (∀ j c, alter f i l !! j = Some c → act c = true →
    ∃ c', l !! j = Some c' ∧ act c' = true ∧ key c = key c') as Hback.
  { intros j c Hj Hc. rewrite list_lookup_alter in Hj. case_decide; [subst j|by eauto].
    apply fmap_Some in Hj as (c' & Hj & ->). exists c'. apply Hf in Hc as [??]. by split_and!. }
  intros j k c d Hj Hk Hc Hd Hkey.
  destruct (Hback j c Hj Hc) as (c' & ? & ? & Ec). destruct (Hback k d Hk Hd) as (d' & ? & ? & Ed).
  eapply (Hu j k c' d'); eauto. congruence.
Qed.

(** A new entry whose key no other active entry has. *)
Lemma unique_insert x i l :
  unique l → (∀ j d, l !! j = Some d → j ≠ i → act d = true → key d ≠ key x) →
  unique (alter (λ _, x) i l).
Proof.
  intros Hu Hx j k c d. rewrite !list_lookup_alter. intros Hj Hk Hc Hd Hkey.
  destruct (decide (i = j)) as [<-|], (decide (i = k)) as [<-|]; [done|..].
  - apply fmap_Some in Hj as (? & _ & ->). exfalso. apply (Hx k d); auto.
  - apply fmap_Some in Hk as (? & _ & ->). exfalso. apply (Hx j c); auto.
  - by eapply Hu.
Qed.
End tables.

(** [first_index] is the first match. *)
Lemma first_index_spec {A} (f : A → bool) (l : list A) i dflt :
  (first_index f l i dflt = dflt ∧ ∀ j c, l !! j = Some c → f c = false) ∨
  (∃ j c, first_index f l i dflt = i + Z.of_nat j ∧ l !! j = Some c ∧ f c = true).
Proof.
  revert i. induction l as [|c l IH]; intros i; simpl; [by left|].
  destruct (f c) eqn:Hc.
  - right. exists 0%nat, c. split_and!; [lia|done|done].
  - destruct (IH (i + 1)) as [[-> Hn]|(j & d & -> & Hj & Hd)].
    + left. split; [done|]. intros [|j] d Hj; simpl in Hj; [congruence|by eapply Hn].
    + right. exists (S j), d. split_and!; [lia|done|done].
Qed.

(** ** The proxy's invariant *)

Definition tcp_key (c : tcp_conn_t.t) : Z * Z * Z :=
  (tcp_conn_t.xbox_port c, tcp_conn_t.remote_ip c, tcp_conn_t.remote_port c).
Definition udp_key (c : udp_conn_t.t) : Z * Z * Z :=
  (udp_conn_t.xbox_port c, udp_conn_t.remote_ip c, udp_conn_t.remote_port c).

Record wf_tcp (c : tcp_conn_t.t) : Prop := {
  wt_xbox_ip : is_u32 (tcp_conn_t.xbox_ip c);
  wt_xbox_port : is_u16 (tcp_conn_t.xbox_port c);
  wt_remote_ip : is_u32 (tcp_conn_t.remote_ip c);
  wt_remote_port : is_u16 (tcp_conn_t.remote_port c);
  wt_seq_out : is_u32 (tcp_conn_t.seq_out c);
  wt_ack_out : is_u32 (tcp_conn_t.ack_out c);
  wt_state : tcp_conn_t.active c = true → tcp_conn_t.state c = 1 ∨ tcp_conn_t.state c = 2
}.

Record wf_udp (c : udp_conn_t.t) : Prop := {
  wu_xbox_ip : is_u32 (udp_conn_t.xbox_ip c);
  wu_xbox_port : is_u16 (udp_conn_t.xbox_port c);
  wu_remote_ip : is_u32 (udp_conn_t.remote_ip c);
  wu_remote_port : is_u16 (udp_conn_t.remote_port c)
}.

(** Listening (0), waiting for the Xbox's SYN+ACK (1), or established (2). *)
Record wf_inbound (c : inbound_conn_t.t) : Prop := {
  wi_client_ip : is_u32 (inbound_conn_t.client_ip c);
  wi_client_port : is_u16 (inbound_conn_t.client_port c);
  wi_xbox_port : is_u16 (inbound_conn_t.xbox_port c);
  wi_seq_to_xbox : is_u32 (inbound_conn_t.seq_to_xbox c);
  wi_seq_to_client : is_u32 (inbound_conn_t.seq_to_client c);
  wi_state : 0 ≤ inbound_conn_t.state c ≤ 2
}.

Record wf_proxy (p : ProxyState) : Prop := {
  wp_client_ip : is_u32 (nvnet_dhcp_client_ip p);
  wp_gateway : is_u32 (nvnet_dhcp_gateway p);
  wp_dns : is_u32 (nvnet_dhcp_dns p);
  wp_server_ip : is_u32 (nvnet_dhcp_server_ip p);
  wp_xbox_mac_len : blen (nvnet_xbox_mac p) = 6;
  wp_xbox_mac : bytes (nvnet_xbox_mac p);
  wp_host_mac_len : blen (nvnet_host_mac p) = 6;
  wp_host_mac : bytes (nvnet_host_mac p);
  wp_tcp_len : length (tcp_conns p) = 64%nat;
  wp_tcp : Forall wf_tcp (tcp_conns p);
  wp_tcp_unique : unique tcp_conn_t.active tcp_key (tcp_conns p);
  wp_udp_len : length (udp_conns p) = 32%nat;
  wp_udp : Forall wf_udp (udp_conns p);
  wp_udp_unique : unique udp_conn_t.active udp_key (udp_conns p);
  wp_inbound_len : length (inbound_conns p) = 8%nat;
  wp_inbound : Forall wf_inbound (inbound_conns p)
}.

Ltac range_tac := unfold is_u8, is_u16, is_u32 in *; simpl; lia.

Lemma wf_tcp_zero : wf_tcp tcp_conn_t.zero.
Proof. split; try done; range_tac. Qed.
Lemma wf_udp_zero : wf_udp udp_conn_t.zero.
Proof. split; range_tac. Qed.
Lemma wf_inbound_zero : wf_inbound inbound_conn_t.zero.
Proof. split; range_tac. Qed.

Lemma wf_proxy_init : wf_proxy proxy_init.
Proof.
  split; try reflexivity; try range_tac; try (apply Forall_replicate);
    try (apply unique_replicate; reflexivity);
    auto using wf_tcp_zero, wf_udp_zero, wf_inbound_zero.
  - range_tac.
  - cbn. repeat (constructor; [range_tac|]). constructor.
Qed.

(** Entries of well-formed tables. *)
Lemma wf_tcp_conn i p : wf_proxy p → wf_tcp (tcp_conn i p).
Proof.
  intros H. unfold tcp_conn. destruct (tcp_conns p !! Z.to_nat i) as [c|] eqn:E.
  - rewrite (list_lookup_total_correct _ _ _ E). eapply Forall_lookup_1; [apply H|done].
  - rewrite list_lookup_total_alt, E. apply wf_tcp_zero.
Qed.
Lemma wf_udp_conn i p : wf_proxy p → wf_udp (udp_conn i p).
Proof.
  intros H. unfold udp_conn. destruct (udp_conns p !! Z.to_nat i) as [c|] eqn:E.
  - rewrite (list_lookup_total_correct _ _ _ E). eapply Forall_lookup_1; [apply H|done].
  - rewrite list_lookup_total_alt, E. apply wf_udp_zero.
Qed.
Lemma wf_inbound_conn i p : wf_proxy p → wf_inbound (inbound_conn i p).
Proof.
  intros H. unfold inbound_conn. destruct (inbound_conns p !! Z.to_nat i) as [c|] eqn:E.
  - rewrite (list_lookup_total_correct _ _ _ E). eapply Forall_lookup_1; [apply H|done].
  - rewrite list_lookup_total_alt, E. apply wf_inbound_zero.
Qed.

(** Table updates that keep the invariant. *)
Lemma wf_upd_tcp p i f :
  wf_proxy p → (∀ c, wf_tcp c → wf_tcp (f c)) →
  (∀ c, tcp_conn_t.active (f c) = true → tcp_conn_t.active c = true ∧ tcp_key (f c) = tcp_key c) →
  wf_proxy (p <| tcp_conns ::= alter f i |>).
Proof.
  intros [] Hf Hk. split; try done; cbn.
  - by rewrite length_alter.
  - apply Forall_alter; auto.
  - by apply unique_alter.
Qed.
Lemma wf_new_tcp p i c :
  wf_proxy p → wf_tcp c →
  (∀ j d, tcp_conns p !! j = Some d → j ≠ i → tcp_conn_t.active d = true → tcp_key d ≠ tcp_key c) →
  wf_proxy (p <| tcp_conns ::= alter (λ _, c) i |>).
Proof.
  intros [] Hc Hk. split; try done; cbn.
  - by rewrite length_alter.
  - apply Forall_alter; auto.
  - by apply unique_insert.
Qed.
Lemma wf_upd_udp p i f :
  wf_proxy p → (∀ c, wf_udp c → wf_udp (f c)) →
  (∀ c, udp_conn_t.active (f c) = true → udp_conn_t.active c = true ∧ udp_key (f c) = udp_key c) →
  wf_proxy (p <| udp_conns ::= alter f i |>).
Proof.
  intros [] Hf Hk. split; try done; cbn.
  - by rewrite length_alter.
  - apply Forall_alter; auto.
  - by apply unique_alter.
Qed.
Lemma wf_new_udp p i c :
  wf_proxy p → wf_udp c →
  (∀ j d, udp_conns p !! j = Some d → j ≠ i → udp_conn_t.active d = true → udp_key d ≠ udp_key c) →
  wf_proxy (p <| udp_conns ::= alter (λ _, c) i |>).
Proof.
  intros [] Hc Hk. split; try done; cbn.
  - by rewrite length_alter.
  - apply Forall_alter; auto.
  - by apply unique_insert.
Qed.
Lemma wf_upd_inbound p i f :
  wf_proxy p → (∀ c, wf_inbound c → wf_inbound (f c)) →
  wf_proxy (p <| inbound_conns ::= alter f i |>).
Proof.
  intros [] Hf. split; try done; cbn.
  - by rewrite length_alter.
  - apply Forall_alter; auto.
Qed.

(** ** Well-formed frames

    An ARP frame of 42 bytes, or an IPv4 packet whose total length agrees with
    the frame's and whose header checksum verifies. *)

Definition frame_okb (buf : list Z) (size : Z) : bool :=
  forallb (λ b, (0 <=? b) && (b <? 256)) buf && (size <=? blen buf) &&
  ((of_be (slice 12 2 buf) =? 0x0806) && (size =? 42) ||
   (of_be (slice 12 2 buf) =? 0x0800) && (14 + of_be (slice 16 2 buf) =? size) &&
   (ip_checksum (slice 14 20 buf) =? 0)).

Lemma forallb_bytes buf : bytes buf → forallb (λ b, (0 <=? b) && (b <? 256)) buf = true.
Proof. induction 1 as [|b buf Hb _ IH]; [done|]. unfold is_u8 in Hb. simpl. rewrite IH. lia. Qed.

Lemma frame_ok_ip buf size :
  bytes buf → size ≤ blen buf → of_be (slice 12 2 buf) = 0x0800 →
  14 + of_be (slice 16 2 buf) = size → ip_checksum (slice 14 20 buf) = 0 →
  frame_okb buf size = true.
Proof.
  intros Hb Hs He Hl Hc. unfold frame_okb. rewrite forallb_bytes by done. rewrite He, Hc.
  rewrite orb_comm. lia.
Qed.

Section frames_ok.
Context (p : ProxyState) (Hp : wf_proxy p).

Abbreviation mac := (nvnet_xbox_mac p).
Abbreviation host := (nvnet_host_mac p).

Lemma ethertype_view f v : parse_tcp f = v → of_be (slice 12 2 f) = v_ethertype v.
Proof. by intros <-. Qed.
Lemma total_len_view f v : parse_tcp f = v → of_be (slice 16 2 f) = v_total_len v.
Proof. by intros <-. Qed.

Lemma tcp_frame_ok c id0 id1 fl payload :
  wf_tcp c → is_u8 fl → bytes payload → blen payload ≤ 1460 →
  frame_okb
    (tcp_frame mac host id0 id1 (tcp_conn_t.remote_ip c) (tcp_conn_t.remote_port c)
       (tcp_conn_t.xbox_ip c) (tcp_conn_t.xbox_port c) (tcp_conn_t.seq_out c)
       (tcp_conn_t.ack_out c) fl payload) (14 + (20 + 20 + blen payload)) = true.
Proof.
  intros [] Hfl Hb Hl. pose proof (blen_nonneg payload). destruct Hp.
  destruct (tcp_frame_bytes mac host) with (id0 := id0) (id1 := id1) (rport := tcp_conn_t.remote_port c)
    (rip := tcp_conn_t.remote_ip c) (xip := tcp_conn_t.xbox_ip c) (xport := tcp_conn_t.xbox_port c)
    (seq := tcp_conn_t.seq_out c) (ack := tcp_conn_t.ack_out c) (fl := fl) (payload := payload)
    as [??]; try done.
  destruct (tcp_frame_roundtrip mac host) with (id0 := id0) (id1 := id1) (rport := tcp_conn_t.remote_port c)
    (rip := tcp_conn_t.remote_ip c) (xip := tcp_conn_t.xbox_ip c) (xport := tcp_conn_t.xbox_port c)
    (seq := tcp_conn_t.seq_out c) (ack := tcp_conn_t.ack_out c) (fl := fl) (payload := payload)
    as (Hv & Hck & _); try done.
  apply frame_ok_ip; [done|lia|apply (ethertype_view _ _ Hv)| |done].
  rewrite (total_len_view _ _ Hv). cbn. lia.
Qed.

Lemma syn_frame_ok c id0 id1 :
  wf_inbound c →
  frame_okb
    (syn_frame mac host id0 id1 (inbound_conn_t.client_ip c) (inbound_conn_t.client_port c)
       (nvnet_dhcp_client_ip p) (inbound_conn_t.xbox_port c) (inbound_conn_t.seq_to_xbox c))
    (14 + 20 + 24) = true.
Proof.
  intros []. destruct Hp.
  destruct (syn_frame_bytes mac host) with (id0 := id0) (id1 := id1)
    (cip := inbound_conn_t.client_ip c) (cport := inbound_conn_t.client_port c)
    (xip := nvnet_dhcp_client_ip p) (xport := inbound_conn_t.xbox_port c)
    (seq := inbound_conn_t.seq_to_xbox c) as [??]; try done.
  destruct (syn_frame_wellformed mac host) with (id0 := id0) (id1 := id1)
    (cip := inbound_conn_t.client_ip c) (cport := inbound_conn_t.client_port c)
    (xip := nvnet_dhcp_client_ip p) (xport := inbound_conn_t.xbox_port c)
    (seq := inbound_conn_t.seq_to_xbox c) as (Hv & _ & Hck & _); try done.
  apply frame_ok_ip; [done|lia|apply (ethertype_view _ _ Hv)| |done].
  by rewrite (total_len_view _ _ Hv).
Qed.

Lemma inbound_data_frame_ok c buf :
  wf_inbound c → bytes buf → blen buf ≤ 1400 →
  frame_okb
    (inbound_data_frame mac host (inbound_conn_t.client_ip c) (inbound_conn_t.client_port c)
       (nvnet_dhcp_client_ip p) (inbound_conn_t.xbox_port c) (inbound_conn_t.seq_to_xbox c) buf)
    (14 + (20 + 20 + blen buf)) = true.
Proof.
  intros [] Hb Hl. pose proof (blen_nonneg buf). destruct Hp.
  destruct (inbound_data_frame_bytes mac host) with
    (cip := inbound_conn_t.client_ip c) (cport := inbound_conn_t.client_port c)
    (xip := nvnet_dhcp_client_ip p) (xport := inbound_conn_t.xbox_port c)
    (seq := inbound_conn_t.seq_to_xbox c) (payload := buf) as [??]; try done.
  destruct (inbound_data_frame_wellformed mac host) with
    (cip := inbound_conn_t.client_ip c) (cport := inbound_conn_t.client_port c)
    (xip := nvnet_dhcp_client_ip p) (xport := inbound_conn_t.xbox_port c)
    (seq := inbound_conn_t.seq_to_xbox c) (payload := buf) as (Hv & Hck & _); try done.
  apply frame_ok_ip; [done|lia|apply (ethertype_view _ _ Hv)| |done].
  rewrite (total_len_view _ _ Hv). cbn. lia.
Qed.

Lemma inbound_ack_frame_ok c :
  wf_inbound c →
  frame_okb
    (inbound_ack_frame mac host (inbound_conn_t.client_ip c) (inbound_conn_t.client_port c)
       (nvnet_dhcp_client_ip p) (inbound_conn_t.xbox_port c) (inbound_conn_t.seq_to_xbox c)
       (inbound_conn_t.seq_to_client c)) 54 = true.
Proof.
  intros []. destruct Hp.
  destruct (inbound_ack_frame_bytes mac host) with
    (cip := inbound_conn_t.client_ip c) (cport := inbound_conn_t.client_port c)
    (xip := nvnet_dhcp_client_ip p) (xport := inbound_conn_t.xbox_port c)
    (seq := inbound_conn_t.seq_to_xbox c) (ack := inbound_conn_t.seq_to_client c) as [??]; try done.
  destruct (inbound_ack_frame_fields mac host) with
    (cip := inbound_conn_t.client_ip c) (cport := inbound_conn_t.client_port c)
    (xip := nvnet_dhcp_client_ip p) (xport := inbound_conn_t.xbox_port c)
    (seq := inbound_conn_t.seq_to_xbox c) (ack := inbound_conn_t.seq_to_client c)
    as (Hv & Hck & _); try done.
  apply frame_ok_ip; [done|lia|apply (ethertype_view _ _ Hv)| |done].
  by rewrite (total_len_view _ _ Hv).
Qed.

Lemma udp_frame_ok c buf :
  wf_udp c → bytes buf → blen buf ≤ 1472 →
  frame_okb
    (udp_frame mac host (udp_conn_t.remote_ip c) (udp_conn_t.remote_port c)
       (udp_conn_t.xbox_ip c) (udp_conn_t.xbox_port c) buf) (14 + (20 + 8 + blen buf)) = true.
Proof.
  intros [] Hb Hl. pose proof (blen_nonneg buf). destruct Hp.
  destruct (udp_frame_bytes mac host) with
    (rip := udp_conn_t.remote_ip c) (rport := udp_conn_t.remote_port c)
    (xip := udp_conn_t.xbox_ip c) (xport := udp_conn_t.xbox_port c) (payload := buf) as [??]; try done.
  destruct (udp_frame_wellformed mac host) with
    (rip := udp_conn_t.remote_ip c) (rport := udp_conn_t.remote_port c)
    (xip := udp_conn_t.xbox_ip c) (xport := udp_conn_t.xbox_port c) (payload := buf)
    as (He & Ht & _ & _ & _ & _ & _ & _ & _ & _ & Hck); try done.
  apply frame_ok_ip; [done|lia| |lia|done].
  rewrite <-(slice_slice 0 14 12 2), He by lia. destruct (six_bytes mac) as (?&?&?&?&?&?&->); [done|].
  destruct (six_bytes host) as (?&?&?&?&?&?&->); done.
Qed.

Lemma dhcp_response_ok xid rtype :
  blen xid = 4 → bytes xid → is_u8 rtype →
  frame_okb
    (dhcp_response mac host xid rtype (nvnet_dhcp_client_ip p) (nvnet_dhcp_server_ip p)
       (nvnet_dhcp_gateway p) (nvnet_dhcp_dns p)) dhcp_response_size = true.
Proof.
  intros Hx Hb Hr. destruct Hp.
  destruct (dhcp_response_bytes mac host) with (xid := xid) (rtype := rtype)
    (cip := nvnet_dhcp_client_ip p) (sip := nvnet_dhcp_server_ip p)
    (gw := nvnet_dhcp_gateway p) (dns := nvnet_dhcp_dns p) as [? Hl]; try done.
  destruct (dhcp_response_wellformed mac host) with (xid := xid) (rtype := rtype)
    (cip := nvnet_dhcp_client_ip p) (sip := nvnet_dhcp_server_ip p)
    (gw := nvnet_dhcp_gateway p) (dns := nvnet_dhcp_dns p)
    as (He & Ht & _ & _ & _ & _ & _ & _ & _ & _ & _ & _ & Hck); try done.
  apply frame_ok_ip; [done|rewrite Hl; done| |done|done].
  rewrite <-(slice_slice 0 14 12 2), He by lia. destruct (six_bytes mac) as (?&?&?&?&?&?&->); [done|].
  destruct (six_bytes host) as (?&?&?&?&?&?&->); done.
Qed.

Lemma arp_reply_ok buf : 42 ≤ blen buf → bytes buf → frame_okb (arp_reply host buf) 42 = true.
Proof.
  intros Hl Hb. destruct Hp. unfold frame_okb.
  rewrite forallb_bytes by (unfold arp_reply; cbv zeta; bytes_tac).
  rewrite arp_reply_spec by done.
  replace (42 <=? _) with true; [|rewrite !blen_app, !blen_slice by lia; autorewrite with buf; lia].
  replace (slice 12 2 _) with [0x08; 0x06]; [done|].
  destruct (six_bytes (slice 6 6 buf)) as (?&?&?&?&?&?&->); [apply blen_slice; lia|].
  destruct (six_bytes host) as (?&?&?&?&?&?&->); done.
Qed.
End frames_ok.

(** ** The invariant through the handlers

    [ok m Q]: from a well-formed proxy in a machine satisfying [J], [m] ends in
    such a state with a result in [Q], or in a fault of [E].  [J] is any property
    of the rest of the machine: it may not depend on the proxy, the history of
    host calls or the poll timer, and the guest keeps it when it is handed a
    well-formed frame. *)

Lemma to_guest_proxy `{GuestRx} buf size w a w' :
  to_guest buf size w = Ok (a, w') → proxy w' = proxy w ∧ trace w' = trace w ∧
    tx_dma_buf (dev w') = tx_dma_buf (dev w) ∧ tx_dma_buf_offset (dev w') = tx_dma_buf_offset (dev w).
Proof.
  intros E. pose proof (to_guest_frame buf size w) as Hk. unfold wpE in Hk. rewrite E in Hk.
  by injection Hk.
Qed.

Create HintDb ok.

Section invariant.
Context `{HostOS} `{GuestRx}.
Context (E : fault → Prop) (HEb : E OutOfBounds).
Context (J : World → Prop).
Context (Jproxy : ∀ w f, J w → J (w <| proxy ::= f |>)).
Context (Jtrace : ∀ w f, J w → J (w <| trace ::= f |>)).
Context (Jtimer : ∀ w t, J w → J (w <| dev ::= λ s, s <| proxy_poll_timer_deadline := t |> |>)).
Context (Hguest : ∀ buf size w, frame_okb buf size = true → J w →
           wpE (to_guest buf size) (λ _ w', J w') E w).

Definition inv (w : World) : Prop := wf_proxy (proxy w) ∧ J w.

Definition ok {A} (m : M World A) (Q : A → Prop) : Prop :=
  ∀ w, inv w → wpE m (λ a w', inv w' ∧ Q a) E w.

Lemma ok_ret {A} (a : A) (Q : A → Prop) : Q a → ok (mret a) Q.
Proof. by intros Ha w Hw. Qed.
Lemma ok_bind {A B} (m : M World A) (k : A → M World B) Q R :
  ok m Q → (∀ a, Q a → ok (k a) R) → ok (m ≫= k) R.
Proof.
  intros Hm Hk w Hw. apply wpE_bind. eapply wpE_mono; [by apply Hm|].
  intros a w' [Hw' Ha]. by apply Hk.
Qed.
Lemma ok_weaken {A} (m : M World A) (Q R : A → Prop) : ok m Q → (∀ a, Q a → R a) → ok m R.
Proof. intros Hm HQ w Hw. eapply wpE_mono; [by apply Hm|]. intros a w' [??]; auto. Qed.
Lemma ok_get_proxy {A} (f : ProxyState → A) :
  ok (get_proxy f) (λ a, ∃ p, wf_proxy p ∧ a = f p).
Proof. intros w Hw. split; [done|]. exists (proxy w). by destruct Hw. Qed.
Lemma ok_upd_proxy f : (∀ p, wf_proxy p → wf_proxy (f p)) → ok (upd_proxy f) (λ _, True).
Proof. intros Hf w [Hw HJ]. split; [|done]. split; [by apply Hf|by apply Jproxy]. Qed.
Lemma ok_timer t :
  ok (upd_dev (λ s, s <| proxy_poll_timer_deadline := t |>)) (λ _, True).
Proof. intros w [Hw HJ]. split; [|done]. split; [done|by apply Jtimer]. Qed.
Lemma ok_syscall c : ok (syscall c) (λ _, True).
Proof. intros w [Hw HJ]. split; [|done]. split; [done|by apply Jtrace]. Qed.
Lemma ok_sysval c : ok (sysval c) (λ _, True).
Proof. intros w [Hw HJ]. split; [|done]. split; [done|by apply Jtrace]. Qed.
Lemma ok_inBounds b : ok (inBounds b) (λ _, b = true).
Proof. intros w Hw. unfold wpE, inBounds. by destruct b. Qed.
Lemma ok_rd8 buf i : ok (rd8 buf i) (λ a, a = byte_at buf i).
Proof. eapply ok_bind; [apply ok_inBounds|]. intros. by apply ok_ret. Qed.
Lemma ok_rd buf off len :
  ok (rd buf off len) (λ a, a = slice off len buf ∧ 0 ≤ off ∧ 0 ≤ len ∧ off + len ≤ blen buf).
Proof. eapply ok_bind; [apply ok_inBounds|]. cbv beta. intros ? Hb. apply ok_ret. split; [done|lia]. Qed.
Lemma ok_rd_be16 buf i :
  ok (rd_be16 buf i) (λ a, a = (byte_at buf i <<< 8) ||| byte_at buf (i + 1)).
Proof.
  eapply ok_bind; [apply ok_rd8|]. intros ? ->. eapply ok_bind; [apply ok_rd8|].
  intros ? ->. by apply ok_ret.
Qed.
Lemma ok_if {A} (b : bool) (m1 m2 : M World A) Q :
  (b = true → ok m1 Q) → (b = false → ok m2 Q) → ok (if b then m1 else m2) Q.
Proof. destruct b; auto. Qed.
Lemma ok_when b m : (b = true → ok m (λ _, True)) → ok (whenM b m) (λ _, True).
Proof. destruct b; intros Hm; [by apply Hm|by apply ok_ret]. Qed.
Lemma ok_forM {X} (l : list X) body :
  (∀ x, x ∈ l → ok (body x) (λ _, True)) → ok (forM l body) (λ _, True).
Proof.
  intros Hb w Hw. eapply wpE_mono.
  - apply (wpE_forM inv); [done|]. intros x w' Hx Hw'.
    eapply wpE_mono; [by apply Hb|]. by intros ?? [].
  - by intros.
Qed.
Lemma ok_forM_until {X A} (l : list X) (body : X → M World (option A)) :
  (∀ x, x ∈ l → ok (body x) (λ _, True)) → ok (forM_until l body) (λ _, True).
Proof.
  intros Hb w Hw. eapply wpE_mono.
  - apply (wpE_forM_until inv (λ _, inv)); [done|].
    intros x w' Hx Hw'. eapply wpE_mono; [by apply Hb|]. by intros [] ? [].
  - by intros [].
Qed.
Lemma ok_to_guest buf size : frame_okb buf size = true → ok (to_guest buf size) (λ _, True).
Proof.
  intros Hf w [Hw HJ]. pose proof (Hguest buf size w Hf HJ) as Hg. unfold wpE in *.
  destruct (to_guest buf size w) as [[a w']|e] eqn:Eg; [|done].
  apply to_guest_proxy in Eg as [Ep _]. split; [|done]. split; [by rewrite Ep|done].
Qed.

Lemma ok_upd_tcp i f :
  (∀ c, wf_tcp c → wf_tcp (f c)) →
  (∀ c, tcp_conn_t.active (f c) = true → tcp_conn_t.active c = true ∧ tcp_key (f c) = tcp_key c) →
  ok (upd_tcp i f) (λ _, True).
Proof. intros. apply ok_upd_proxy. intros. by apply wf_upd_tcp. Qed.
Lemma ok_upd_udp i f :
  (∀ c, wf_udp c → wf_udp (f c)) →
  (∀ c, udp_conn_t.active (f c) = true → udp_conn_t.active c = true ∧ udp_key (f c) = udp_key c) →
  ok (upd_udp i f) (λ _, True).
Proof. intros. apply ok_upd_proxy. intros. by apply wf_upd_udp. Qed.
Lemma ok_upd_inbound i f :
  (∀ c, wf_inbound c → wf_inbound (f c)) → ok (upd_inbound i f) (λ _, True).
Proof. intros. apply ok_upd_proxy. intros. by apply wf_upd_inbound. Qed.

(** Walk down the code; what is left are the table updates, the frames and the
    results. *)
Ltac ok_leaf :=
  first [ apply ok_get_proxy | apply ok_syscall | apply ok_sysval | apply ok_rd8 | apply ok_rd
        | apply ok_rd_be16 | apply ok_inBounds | apply ok_timer | apply ok_to_guest
        | apply ok_upd_tcp | apply ok_upd_udp | apply ok_upd_inbound | apply ok_upd_proxy
        | solve [auto with ok nocore] ].
Ltac ok_intro :=
  let a := fresh "a" in let Q := fresh "Q" in
  cbv beta; intros a Q;
  lazymatch type of Q with
  | True => clear Q
  | a = _ => subst a
  | ∃ p, wf_proxy p ∧ a = _ => destruct Q as (? & ? & ->)
  | a = _ ∧ _ => destruct Q as (-> & ? & ? & ?)
  | _ => idtac
  end.
Ltac ok_step :=
  lazymatch goal with
  | |- ok (mret _) _ => apply ok_ret
  | |- ok (_ ≫= _) _ =>
      first [eapply ok_bind; [ok_leaf|ok_intro] | apply (ok_bind _ _ (λ _, True)); [|ok_intro]]
  | |- ok (if _ then _ else _) _ => apply ok_if; intros ?
  | |- ok (whenM _ _) _ => apply ok_when; intros ?
  | |- ok (forM_until _ _) _ => apply ok_forM_until; intros ? _
  | |- ok (let _ := _ in _) _ => cbv zeta
  | |- ok _ _ => eapply ok_weaken; [ok_leaf|by intros]
  end.
Ltac oks := repeat ok_step; try done.

Context (buf : list Z) (Hbuf : bytes buf).

Lemma be16_u16 i : is_u16 ((byte_at buf i <<< 8) ||| byte_at buf (i + 1)).
Proof.
  pose proof (bytes_byte_at buf i Hbuf). pose proof (bytes_byte_at buf (i + 1) Hbuf).
  unfold is_u8, is_u16 in *. rewrite lor_shl_add by lia. lia.
Qed.
Lemma le4_u32 off : 0 ≤ off → off + 4 ≤ blen buf → is_u32 (of_le (slice off 4 buf)).
Proof.
  intros. pose proof (of_le_range (slice off 4 buf) (bytes_slice _ _ _ Hbuf)) as Hr.
  rewrite blen_slice in Hr by lia. done.
Qed.

Lemma ok_save_xbox_mac : ok (save_xbox_mac buf) (λ _, True).
Proof.
  unfold save_xbox_mac. oks. intros p []. split; try done; cbn;
    [by apply blen_slice|by apply bytes_slice].
Qed.
Hint Resolve ok_save_xbox_mac : ok.

Lemma ok_handle_arp size :
  size ≤ blen buf → ok (handle_arp_packet buf size) (λ _, True).
Proof.
  intros Hs. unfold handle_arp_packet, get_ethertype. oks. apply arp_reply_ok; [done|lia|done].
Qed.

(** A table update that keeps the fields well formed. *)
Ltac conn_tac :=
  lazymatch goal with |- ok _ _ => fail | |- _ => idtac end;
  let c := fresh "c" in intros c;
  lazymatch goal with
  | |- _ = true → _ => let Ha := fresh in intros Ha; cbn in Ha; try discriminate Ha
  | |- _ => intros []
  end;
  try split; cbn in *;
  try (apply u32_range || apply u16_range || apply bswap32_range); try done;
  try (unfold is_u16, is_u32; lia); try tauto.

Lemma ok_init_inbound : ok init_inbound_listeners (λ _, True).
Proof.
  unfold init_inbound_listeners. oks.
  - intros p []. split; try done; cbn. apply Forall_replicate, wf_inbound_zero.
  - apply ok_forM. intros e Hx. change (zip _ _) with [(0, (2121, 21))] in Hx.
    apply list_elem_of_singleton in Hx as ->. oks. conn_tac.
Qed.
Hint Resolve ok_init_inbound : ok.

(** Each round of the walk moves past at least one byte, so the fuel suffices. *)
Lemma ok_find_msg_type fuel size opt :
  Z.max 0 (size - opt) < Z.of_nat fuel → ok (find_msg_type fuel buf size opt) (λ _, True).
Proof.
  revert opt. induction fuel as [|fuel IH]; intros opt Hf; [lia|].
  pose proof (bytes_byte_at buf (opt + 1) Hbuf) as Hb. unfold is_u8 in Hb.
  cbn [find_msg_type]. oks; apply IH; lia.
Qed.
Lemma ok_find_msg_type_full size :
  ok (find_msg_type (options_fuel size) buf size 282) (λ _, True).
Proof. apply ok_find_msg_type. unfold options_fuel. lia. Qed.
Hint Resolve ok_find_msg_type_full : ok.

Lemma ok_detect_host_ip : ok detect_host_ip (λ _, True).
Proof.
  unfold detect_host_ip. oks. destruct (_ ≫= _) as [[[[??]?]?]|]; oks.
  intros p []. split; try done; cbn; apply bswap32_range.
Qed.
Lemma ok_detect_gateway : ok detect_gateway (λ _, True).
Proof.
  unfold detect_gateway. oks. destruct (first_line _); oks.
  intros p []. split; try done; cbn; apply u32_range.
Qed.
Hint Resolve ok_detect_host_ip ok_detect_gateway : ok.
Lemma ok_autodetect : ok autodetect (λ _, True).
Proof.
  unfold autodetect, arm_proxy_poll_timer. oks. intros p []. by split.
Qed.
Hint Resolve ok_autodetect : ok.

Lemma ok_handle_dhcp size : ok (handle_dhcp_packet buf size) (λ _, True).
Proof.
  unfold handle_dhcp_packet, get_ethertype, get_protocol, send_dhcp_response. oks.
  apply dhcp_response_ok; [done|by apply blen_slice|by apply bytes_slice|].
  destruct (a =? _); vm_compute; split; congruence.
Qed.
Hint Resolve ok_handle_dhcp : ok.

Lemma ok_send_tcp i fl payload :
  is_u8 fl → bytes payload → ok (send_tcp_to_xbox i fl payload) (λ _, True).
Proof.
  intros Hfl Hp. unfold send_tcp_to_xbox. do 4 ok_step.
  apply (ok_bind _ _ (λ _, blen payload ≤ 1460)).
  { unfold whenM. apply ok_if; intros ?; [|apply ok_ret; lia].
    eapply ok_bind; [apply ok_inBounds|]. cbv beta. intros ? ?.
    eapply ok_weaken; [apply ok_upd_tcp; conn_tac|]. intros. lia. }
  cbv beta. intros _ Hl. oks; try conn_tac.
  apply tcp_frame_ok; [done|by apply wf_tcp_conn|done..].
Qed.
Hint Extern 1 (ok (send_tcp_to_xbox _ _ []) _) =>
  apply ok_send_tcp; [split; vm_compute; congruence|constructor] : ok.

(** The fields of a segment have their widths. *)
Record wf_fields (f : tcp_fields) : Prop := {
  wff_src_port : is_u16 (f_src_port f);
  wff_dst_port : is_u16 (f_dst_port f);
  wff_dst_ip : is_u32 (f_dst_ip f)
}.
Lemma ok_read_tcp_fields size : ok (read_tcp_fields buf size) wf_fields.
Proof.
  unfold read_tcp_fields. oks. split; cbn; [apply be16_u16|apply be16_u16|by apply le4_u32].
Qed.

Hint Resolve ok_read_tcp_fields : ok.

Lemma ok_inbound_response f i : ok (inbound_response buf f i) (λ _, True).
Proof.
  unfold inbound_response. oks; try conn_tac.
  apply inbound_ack_frame_ok; [done|by apply wf_inbound_conn].
Qed.
Hint Resolve ok_inbound_response : ok.
Lemma ok_handle_inbound size : ok (handle_inbound_tcp_response buf size) (λ _, True).
Proof. unfold handle_inbound_tcp_response, get_ethertype, get_protocol. oks. Qed.
Hint Resolve ok_handle_inbound : ok.

(** *** Connection creation *)

(** Outcome of the UDP table scan started in [w] and ended in [w']: a hit is an
    active entry for the key, just refreshed; without one, no scanned entry was
    active for the key and the entries still active are as they were. *)
Definition udp_scanned (idx : list Z) (now : Z) (key : Z * Z * Z) (free : Z) (w : World)
    (r : option Z * Z) (w' : World) : Prop :=
  match r.1 with
  | Some i =>
      0 ≤ i < 32 ∧ udp_conn_t.active (udp_conn i (proxy w')) = true ∧
      udp_key (udp_conn i (proxy w')) = key ∧ udp_conn_t.last_used (udp_conn i (proxy w')) = now
  | None =>
      (∀ j d, udp_conns (proxy w') !! j = Some d → udp_conn_t.active d = true →
         udp_conns (proxy w) !! j = Some d) ∧
      (∀ i d, i ∈ idx → udp_conns (proxy w) !! Z.to_nat i = Some d → udp_conn_t.active d = true →
         udp_key d ≠ key) ∧
      (r.2 = free ∨ 0 ≤ r.2 < 32)
  end.

Lemma udp_conn_lookup i p d : udp_conns p !! Z.to_nat i = Some d → udp_conn i p = d.
Proof. apply list_lookup_total_correct. Qed.

Lemma udp_no_match c xp rip rp :
  udp_conn_t.active c && (udp_conn_t.xbox_port c =? xp) && (udp_conn_t.remote_ip c =? rip) &&
    (udp_conn_t.remote_port c =? rp) = false →
  udp_conn_t.active c = true → udp_key c ≠ (xp, rip, rp).
Proof. intros Hm Ha [= ? ? ?]. rewrite Ha in Hm. lia. Qed.

Lemma udp_scan_spec idx now xp rip rp free w :
  wf_proxy (proxy w) → Forall (λ i, 0 ≤ i < 32) idx →
  wpE (udp_scan idx now xp rip rp free)
    (λ r w', wf_proxy (proxy w') ∧ udp_scanned idx now (xp, rip, rp) free w r w') E w.
Proof.
  intros Hw Hidx. revert free w Hw. induction Hidx as [|i idx Hi _ IH]; intros free w Hw.
  { split; [done|]. split_and!; [done|by intros ?? ?%not_elem_of_nil|by left]. }
  cbn [udp_scan]. apply wpE_bind, wpE_gets. set (c := udp_conn i (proxy w)).
  assert (Hlen : (Z.to_nat i < length (udp_conns (proxy w)))%nat)
    by (rewrite (wp_udp_len _ Hw); lia).
  apply wpE_if; intros Hm.
  { apply wpE_bind, wpE_modify, wpE_ret. cbn. split; [apply wf_upd_udp; [done|conn_tac..]|].
    rewrite !andb_true_iff, !Z.eqb_eq in Hm. destruct Hm as [[[Ha <-] <-] <-].
    unfold udp_scanned, udp_conn. cbn. rewrite list_lookup_total_alter_eq by done. done. }
  assert (Hkeep : ∀ free' w1, wf_proxy (proxy w1) →
    (∀ j d, udp_conns (proxy w1) !! j = Some d → udp_conn_t.active d = true →
       udp_conns (proxy w) !! j = Some d) →
    (∀ j d, j ≠ Z.to_nat i → udp_conns (proxy w) !! j = Some d →
       udp_conns (proxy w1) !! j = Some d) →
    (free' = free ∨ 0 ≤ free' < 32) →
    wpE (udp_scan idx now xp rip rp free')
      (λ r w', wf_proxy (proxy w') ∧ udp_scanned (i :: idx) now (xp, rip, rp) free w r w') E w1).
  { intros free' w1 Hw1 Hback Hforth Hfree. eapply wpE_mono; [by apply IH|].
    intros [[k|] f'] w' [Hw' Hsc]; (split; [done|]); [done|].
    destruct Hsc as (H1 & H2 & H3). cbn in *. split_and!.
    - eauto.
    - intros j d [->|Hj]%elem_of_cons Hd Ha.
      + apply udp_conn_lookup in Hd. fold c in Hd. subst d. by apply udp_no_match.
      + destruct (decide (Z.to_nat j = Z.to_nat i)) as [E'|]; [|eauto].
        rewrite E' in Hd. apply udp_conn_lookup in Hd. fold c in Hd. subst d. by apply udp_no_match.
    - destruct H3 as [->|]; [|by right]. exact Hfree. }
  cbv zeta. apply wpE_if; intros Hexp.
  - apply wpE_bind. unfold syscall, wpE. cbn -[udp_scan]. apply wpE_bind, wpE_modify.
    apply Hkeep; cbn.
    + apply wf_upd_udp; [done|conn_tac..].
    + intros j d. rewrite list_lookup_alter. case_decide; [|done].
      intros (d' & _ & ->)%fmap_Some. done.
    + intros j d Hne Hd. by rewrite list_lookup_alter_ne.
    + repeat case_match; lia.
  - apply Hkeep; try done. repeat case_match; lia.
Qed.

Lemma seqZ_below n : Forall (λ i, 0 ≤ i < n) (seqZ 0 n).
Proof. apply Forall_forall. intros i Hi%elem_of_seqZ. lia. Qed.

Lemma find_or_create_run xp rip rp w :
  wf_proxy (proxy w) → is_u16 xp → is_u32 rip → is_u16 rp →
  wpE (find_or_create_udp_conn xp rip rp)
    (λ i w', wf_proxy (proxy w') ∧
       (i = -1 ∨ 0 ≤ i < 32 ∧ udp_conn_t.active (udp_conn i (proxy w')) = true ∧
          udp_key (udp_conn i (proxy w')) = (xp, rip, rp))) E w.
Proof.
  intros Hw Hxp Hrip Hrp. unfold find_or_create_udp_conn. apply wpE_bind.
  unfold sysval at 1, syscall at 1, wpE at 1. cbn -[udp_scan seqZ]. apply wpE_bind.
  set (now := hr_val _). set (w1 := field_update _ w).
  eapply wpE_mono; [apply udp_scan_spec; [done|apply seqZ_below]|].
  intros [[i|] free] w' [Hw' Hsc]; cbv beta iota.
  { apply wpE_ret. split; [done|]. right. destruct Hsc as (? & ? & ? & _). done. }
  destruct Hsc as (Hact & Hno & Hfree). apply wpE_if; intros Hf; [by apply wpE_ret; auto|].
  apply wpE_bind. unfold sysval, syscall, wpE at 1. cbn -[udp_conn].
  apply wpE_if; intros Hs; [by apply wpE_ret; auto|].
  apply wpE_bind, wpE_gets, wpE_bind, wpE_modify, wpE_ret. cbn.
  assert (Hr : 0 ≤ free < 32) by (destruct Hfree as [Hfree|Hfree]; cbn in Hfree; lia).
  split.
  - apply wf_new_udp; [done|split; cbn; try done; apply Hw'|].
    intros j d Hj _ Ha. pose proof (Hact j d Hj Ha) as Hj0.
    assert (Z.to_nat (Z.of_nat j) = j) as E' by lia. rewrite <-E' in Hj0.
    apply (Hno (Z.of_nat j) d); [|done|done]. apply elem_of_seqZ.
    apply lookup_lt_Some in Hj. rewrite (wp_udp_len _ Hw') in Hj. lia.
  - right. split; [done|]. unfold udp_conn. cbn.
    rewrite list_lookup_total_alter_eq by (rewrite (wp_udp_len _ Hw'); lia). done.
Qed.

Lemma find_or_create_J xp rip rp : preserves J (find_or_create_udp_conn xp rip rp).
Proof.
  assert (Hsys : ∀ c, preserves J (syscall c)) by (intros c w Hw; by apply Jtrace).
  assert (Hupd : ∀ f, preserves J (upd_proxy f)) by (intros f w Hw; by apply Jproxy).
  assert (Hscan : ∀ idx now free, preserves J (udp_scan idx now xp rip rp free)).
  { intros idx now. induction idx as [|i idx IH]; intros; cbn [udp_scan]; unfold upd_udp; frame;
      auto. }
  unfold find_or_create_udp_conn, sysval, upd_udp. frame; auto.
Qed.

Lemma ok_find_or_create xp rip rp :
  is_u16 xp → is_u32 rip → is_u16 rp → ok (find_or_create_udp_conn xp rip rp) (λ _, True).
Proof.
  intros ??? w [Hw HJ]. eapply wpE_mono.
  - apply wpE_and; [by apply find_or_create_run|by apply find_or_create_J].
  - by intros ?? [[]].
Qed.

Lemma ok_handle_udp size : ok (handle_udp_packet buf size) (λ _, True).
Proof.
  unfold handle_udp_packet, get_ethertype, get_protocol. oks.
  apply ok_find_or_create; [apply be16_u16|by apply le4_u32|apply be16_u16].
Qed.
Hint Resolve ok_handle_udp : ok.

(** *** TCP connections *)

Lemma tcp_match_spec xp rip rp c :
  tcp_match xp rip rp c = true ↔ tcp_conn_t.active c = true ∧ tcp_key c = (xp, rip, rp).
Proof.
  unfold tcp_match, tcp_key. rewrite !andb_true_iff, !Z.eqb_eq.
  split; [by intros [[[-> ->] ->] ->]|by intros [-> [= -> -> ->]]].
Qed.

(** After the lookup (and the deactivation of what it found) no active entry has
    the key. *)
Lemma tcp_syn_no_dup p xp rip rp :
  wf_proxy p →
  let idx := first_index (tcp_match xp rip rp) (tcp_conns p) 0 (-1) in
  (idx = -1 ∧ ∀ j d, tcp_conns p !! j = Some d → tcp_conn_t.active d = true →
     tcp_key d ≠ (xp, rip, rp)) ∨
  (0 ≤ idx < 64 ∧ ∀ j d,
     alter (λ c, c <| tcp_conn_t.active := false |>) (Z.to_nat idx) (tcp_conns p) !! j = Some d →
     tcp_conn_t.active d = true → tcp_key d ≠ (xp, rip, rp)).
Proof.
  intros Hp idx. destruct (first_index_spec (tcp_match xp rip rp) (tcp_conns p) 0 (-1))
    as [[Hi Hn]|(k & c & Hi & Hk & Hc)].
  - left. split; [done|]. intros j d Hj Ha Hkey. specialize (Hn j d Hj).
    assert (tcp_match xp rip rp d = true) by (by apply tcp_match_spec). congruence.
  - right. fold idx in Hi. pose proof (lookup_lt_Some _ _ _ Hk) as Hlt.
    rewrite (wp_tcp_len _ Hp) in Hlt. split; [lia|]. intros j d Hj Ha Hkey.
    rewrite Hi, Z.add_0_l, Nat2Z.id in Hj. apply tcp_match_spec in Hc as [Hca Hck].
    rewrite list_lookup_alter in Hj. case_decide as Hjk.
    + apply fmap_Some in Hj as (? & _ & ->). done.
    + apply Hjk. eapply (wp_tcp_unique _ Hp); eauto. congruence.
Qed.

(** Host calls leave the proxy alone. *)
Lemma wpE_syscall c (Q : host_ret → World → Prop) w :
  (∀ r w1, proxy w1 = proxy w → (J w → J w1) → Q r w1) → wpE (syscall c) Q E w.
Proof. intros HQ. apply HQ; [done|by apply Jtrace]. Qed.
Lemma wpE_sysval c (Q : Z → World → Prop) w :
  (∀ r w1, proxy w1 = proxy w → (J w → J w1) → Q r w1) → wpE (sysval c) Q E w.
Proof. intros HQ. apply HQ; [done|by apply Jtrace]. Qed.

Lemma handle_tcp_syn_ok f w :
  inv w → wf_fields f →
  let idx := first_index (tcp_match (f_src_port f) (f_dst_ip f) (f_dst_port f))
               (tcp_conns (proxy w)) 0 (-1) in
  wpE (handle_tcp_syn f idx) (λ _ w', inv w') E w.
Proof.
  intros [Hw HJ] Hf idx. unfold handle_tcp_syn. apply wpE_bind.
  set (fresh_key := λ w1 : World, ∀ j d, tcp_conns (proxy w1) !! j = Some d →
         tcp_conn_t.active d = true → tcp_key d ≠ (f_src_port f, f_dst_ip f, f_dst_port f)).
  apply (wpE_mono _ (λ _ w1, inv w1 ∧ fresh_key w1)).
  { destruct (tcp_syn_no_dup (proxy w) (f_src_port f) (f_dst_ip f) (f_dst_port f) Hw)
      as [[Hi Hn]|[Hi Hn]]; fold idx in Hi, Hn.
    - rewrite Hi. by apply wpE_ret.
    - replace (0 <=? idx) with true by lia. apply wpE_bind, wpE_gets, wpE_bind, wpE_syscall.
      intros ? w1 Hp1 HJ1. apply wpE_modify. unfold fresh_key. cbn. rewrite Hp1. split; [|done].
      split; [|by apply Jproxy, HJ1]. cbn. rewrite Hp1. apply wf_upd_tcp; [done|conn_tac..]. }
  intros _ w1 [[Hw1 HJ1] Hfresh]. apply wpE_bind, wpE_gets. set (slot := first_index _ _ _ _).
  apply wpE_if; intros Hs; [by apply wpE_ret|].
  apply wpE_bind, wpE_sysval. intros sock w2 Hp2 HJ2.
  apply wpE_if; intros Hsock; [apply wpE_ret; split; [by rewrite Hp2|auto]|].
  apply wpE_bind, wpE_syscall. intros ? w3 Hp3 HJ3. apply wpE_bind, wpE_gets.
  apply wpE_bind, wpE_sysval. intros seq w4 Hp4 HJ4. apply wpE_bind, wpE_modify.
  assert (proxy w4 = proxy w1) as E4 by congruence.
  apply wpE_bind. eapply wpE_mono; [apply (ok_send_tcp slot 0x12 [])|].
  - range_tac.
  - constructor.
  - split; [|apply Jproxy; auto]. cbn. rewrite E4. apply wf_new_tcp; [done| |].
    + destruct Hf. split; cbn; try done; try apply u32_range; [|by left].
      rewrite Hp3, Hp2. apply Hw1.
    + intros j d Hj _ Ha. by apply (Hfresh j d).
  - intros ? w5 [Hw5 _]. by apply wpE_ret.
Qed.

Lemma ok_handle_tcp size : ok (handle_tcp_packet buf size) (λ _, True).
Proof.
  unfold handle_tcp_packet, get_ethertype, get_protocol.
  repeat (lazymatch goal with
          | |- ok (read_tcp_fields _ _ ≫= _) _ => fail
          | |- _ => ok_step
          end); try done.
  eapply ok_bind; [apply ok_read_tcp_fields|]. intros f Hf w Hw.
  apply wpE_bind, wpE_gets. set (idx := first_index _ _ _ _).
  apply wpE_if; intros _.
  { eapply wpE_mono; [by apply handle_tcp_syn_ok|]. done. }
  revert w Hw idx. intros w Hw idx. generalize idx. clear idx. intros idx. revert w Hw.
  match goal with |- ∀ w, inv w → wpE ?m _ _ w => change (ok m (λ _, True)) end.
  oks; conn_tac.
Qed.
Hint Resolve ok_handle_tcp : ok.

(** *** Receive poll *)

Lemma recv_bytes_spec r len b : recv_bytes r len = Some b → bytes b ∧ blen b ≤ Z.max 0 len.
Proof.
  unfold recv_bytes. destruct (_ <? _); [done|]. intros [= <-]. split.
  - unfold bytes. apply Forall_fmap, Forall_true. intros. apply u8_range.
  - unfold blen. rewrite length_fmap, length_take. lia.
Qed.

Lemma ok_inject_syn i : ok (inject_tcp_syn_to_xbox i) (λ _, True).
Proof.
  unfold inject_tcp_syn_to_xbox. oks; try conn_tac.
  apply syn_frame_ok; [done|by apply wf_inbound_conn].
Qed.
Hint Resolve ok_inject_syn : ok.

Lemma ok_poll_inbound_one i : ok (poll_inbound_one i) (λ _, True).
Proof.
  unfold poll_inbound_one. oks; try conn_tac.
  destruct (recv_bytes _ _) as [[|b l]|] eqn:Er; oks; try conn_tac.
  apply recv_bytes_spec in Er as [Hb Hl].
  apply inbound_data_frame_ok; [done|by apply wf_inbound_conn|done|lia].
Qed.
Lemma ok_poll_udp_one i : ok (poll_udp_one i) (λ _, True).
Proof.
  unfold poll_udp_one. oks.
  destruct (recv_bytes _ _) as [[|b l]|] eqn:Er; oks.
  apply recv_bytes_spec in Er as [Hb Hl].
  apply udp_frame_ok; [done|by apply wf_udp_conn|done|lia].
Qed.
Lemma ok_poll_tcp_one i : ok (poll_tcp_one i) (λ _, True).
Proof.
  unfold poll_tcp_one. oks.
  destruct (recv_bytes _ _) as [[|b l]|] eqn:Er; oks; try conn_tac.
  apply recv_bytes_spec in Er as [Hb Hl]. apply ok_send_tcp; [range_tac|done].
Qed.
Lemma ok_proxy_poll_rx : ok proxy_poll_rx (λ _, True).
Proof.
  unfold proxy_poll_rx, poll_inbound_connections.
  oks; apply ok_forM; intros i _;
    [apply ok_poll_inbound_one|apply ok_poll_udp_one|apply ok_poll_tcp_one].
Qed.
Hint Resolve ok_proxy_poll_rx : ok.

Lemma ok_send_packet size : size ≤ blen buf → ok (send_packet buf size) (λ _, True).
Proof.
  intros Hs. unfold send_packet. pose proof (ok_handle_arp size Hs). oks.
Qed.
End invariant.

(** ** Isolation: packets the proxy does not leak *)

Definition is_backend (c : host_call) : bool :=
  match c with h_qemu_send_packet _ => true | _ => false end.
Definition backend_calls (t : list host_call) : list host_call := filter is_backend t.

Section isolation.
Context `{HostOS} `{GuestRx} (B : list host_call).

(** The proxy is on and the packets sent to QEMU's backend so far are [B]. *)
Definition isolated (w : World) : Prop :=
  nvnet_proxy_enabled (proxy w) = true ∧ backend_calls (trace w) = B.

Lemma isolated_syscall c : is_backend c = false → preserves isolated (syscall c).
Proof.
  intros Hc w [He Ht]. split; [done|]. change (backend_calls (c :: trace w) = B).
  unfold backend_calls in *. rewrite filter_cons_False; [done|]. rewrite Hc. auto.
Qed.
Lemma isolated_sysval c : is_backend c = false → preserves isolated (sysval c).
Proof. intros. unfold sysval. frame. by apply isolated_syscall. Qed.
Lemma isolated_upd_proxy f :
  (∀ p, nvnet_proxy_enabled p = true → nvnet_proxy_enabled (f p) = true) →
  preserves isolated (upd_proxy f).
Proof. intros Hf w [He Ht]. split; [by apply Hf|done]. Qed.
Lemma isolated_upd_dev f : preserves isolated (upd_dev f).
Proof. by intros w Hw. Qed.
Lemma isolated_to_guest buf size : preserves isolated (to_guest buf size).
Proof.
  intros w [He Ht]. unfold wpE. destruct (to_guest buf size w) as [[a w']|] eqn:E; [|done].
  apply to_guest_proxy in E as (Hp & Htr & _). unfold isolated. by rewrite Hp, Htr.
Qed.
Hint Resolve isolated_upd_dev isolated_to_guest : frame.
Hint Extern 1 (preserves isolated (syscall _)) => apply isolated_syscall; reflexivity : frame.
Hint Extern 1 (preserves isolated (sysval _)) => apply isolated_sysval; reflexivity : frame.
Hint Extern 1 (preserves isolated (upd_proxy _)) => apply isolated_upd_proxy; done : frame.
Hint Extern 1 (preserves isolated (upd_tcp _ _)) => apply isolated_upd_proxy; done : frame.
Hint Extern 1 (preserves isolated (upd_udp _ _)) => apply isolated_upd_proxy; done : frame.
Hint Extern 1 (preserves isolated (upd_inbound _ _)) => apply isolated_upd_proxy; done : frame.

Lemma isolated_init : preserves isolated init_inbound_listeners.
Proof. unfold init_inbound_listeners. frame. Qed.
Lemma isolated_send_tcp i fl pl : preserves isolated (send_tcp_to_xbox i fl pl).
Proof. unfold send_tcp_to_xbox. frame. Qed.
Lemma isolated_read_fields buf size : preserves isolated (read_tcp_fields buf size).
Proof. unfold read_tcp_fields. frame. Qed.
Lemma isolated_find_msg fuel buf size opt : preserves isolated (find_msg_type fuel buf size opt).
Proof. revert opt. induction fuel as [|fuel IH]; intros; cbn [find_msg_type]; frame; apply IH. Qed.
Lemma isolated_udp_scan idx now a b c fr : preserves isolated (udp_scan idx now a b c fr).
Proof. revert fr. induction idx as [|i idx IH]; intros; cbn [udp_scan]; frame; apply IH. Qed.
Lemma isolated_find_tcp a b c : preserves isolated (find_tcp_conn a b c).
Proof. unfold find_tcp_conn. frame. Qed.
Hint Resolve isolated_init isolated_send_tcp isolated_read_fields isolated_find_msg
  isolated_udp_scan isolated_find_tcp : frame.

Lemma isolated_poll : preserves isolated proxy_poll_rx.
Proof.
  unfold proxy_poll_rx, poll_inbound_connections, poll_inbound_one, poll_udp_one, poll_tcp_one,
    inject_tcp_syn_to_xbox. frame.
Qed.
Lemma isolated_arp buf size : preserves isolated (handle_arp_packet buf size).
Proof. unfold handle_arp_packet, save_xbox_mac, get_ethertype. frame. Qed.
Lemma isolated_dhcp buf size : preserves isolated (handle_dhcp_packet buf size).
Proof.
  unfold handle_dhcp_packet, autodetect, detect_host_ip, detect_gateway, arm_proxy_poll_timer,
    send_dhcp_response, save_xbox_mac, get_ethertype, get_protocol. frame.
Qed.
Lemma isolated_inbound buf size : preserves isolated (handle_inbound_tcp_response buf size).
Proof. unfold handle_inbound_tcp_response, inbound_response, get_ethertype, get_protocol. frame. Qed.
Lemma isolated_udp buf size : preserves isolated (handle_udp_packet buf size).
Proof. unfold handle_udp_packet, find_or_create_udp_conn, get_ethertype, get_protocol. frame. Qed.
Lemma isolated_tcp buf size : preserves isolated (handle_tcp_packet buf size).
Proof. unfold handle_tcp_packet, handle_tcp_syn, get_ethertype, get_protocol. frame. Qed.
End isolation.

(** ** Properties *)

(** A guest that stops the machine on a malformed frame. *)
#[export, refine] Instance strict_guest : GuestRx :=
  {| to_guest := λ buf size, if frame_okb buf size then mret size else raise AssertFailed |}.
Proof. intros buf size w. by destruct (frame_okb buf size). Defined.

(** C22. The tables stay consistent: from a well-formed proxy (MAC addresses of six
    bytes, addresses, ports and sequence numbers of their widths, TCP entries in
    a known state, inbound entries in one of their three states, and no two
    active TCP or UDP entries for the same flow), handling any packet from the
    Xbox and polling the sockets again leave a well-formed proxy, whatever the
    host's calls return and whatever the guest does with the frames. *)
Theorem proxy_invariant `{HostOS} `{GuestRx} buf size w :
  wf_proxy (proxy w) → bytes buf → size ≤ blen buf →
  (∀ w', send_packet buf size w = Ok (tt, w') → wf_proxy (proxy w')) ∧
  (∀ w', proxy_poll_rx w = Ok (tt, w') → wf_proxy (proxy w')).
Proof.
  intros Hw Hb Hs.
  assert (Hg : ∀ (b : list Z) n w, frame_okb b n = true → True → wlp (to_guest b n) (λ _ _, True) w).
  { intros b n w0 _ _. unfold wpE. by destruct (to_guest b n w0) as [[]|]. }
  split; intros w' Hr.
  - pose proof (ok_send_packet (λ _, True) I (λ _, True) ltac:(done) ltac:(done) ltac:(done) Hg
                  buf Hb size Hs w (conj Hw I)) as Hok.
    unfold wpE in Hok. rewrite Hr in Hok. apply Hok.
  - pose proof (ok_proxy_poll_rx (λ _, True) I (λ _, True) ltac:(done) ltac:(done) Hg
                  w (conj Hw I)) as Hok.
    unfold wpE in Hok. rewrite Hr in Hok. apply Hok.
Qed.

(** C25. Every frame the proxy hands to the guest is well formed, and the proxy
    terminates: run against a guest that stops on the first frame that is not (an
    ARP frame of 42 bytes or an IPv4 packet of the announced length with a valid
    header checksum), the packet handlers and the receive poll return, or stop
    at an access outside a buffer; never for a frame or for lack of fuel. *)
Theorem proxy_frames_wellformed `{HostOS} buf size w :
  wf_proxy (proxy w) → bytes buf → size ≤ blen buf →
  (∀ e, send_packet buf size w = Fault e → e = OutOfBounds) ∧
  (∀ e, proxy_poll_rx w = Fault e → e = OutOfBounds).
Proof.
  intros Hw Hb Hs.
  assert (Hg : ∀ (b : list Z) n w, frame_okb b n = true → True →
            wpE (to_guest b n) (λ _ _, True) (λ e, e = OutOfBounds) w).
  { intros b n w0 Hf _. cbn. by rewrite Hf. }
  split; intros e Hr.
  - pose proof (ok_send_packet (λ e, e = OutOfBounds) eq_refl (λ _, True)
                  ltac:(done) ltac:(done) ltac:(done) Hg buf Hb size Hs w (conj Hw I)) as Hok.
    unfold wpE in Hok. by rewrite Hr in Hok.
  - pose proof (ok_proxy_poll_rx (λ e, e = OutOfBounds) eq_refl (λ _, True)
                  ltac:(done) ltac:(done) Hg w (conj Hw I)) as Hok.
    unfold wpE in Hok. by rewrite Hr in Hok.
Qed.

(** A host whose every call answers with the value [v], no data and address 0. *)
Definition const_host (v : Z) : HostOS := λ _ _, mkHostRet v [] 0 0.

Definition demo_syn : list Z :=
  replicate 6 1 ++ replicate 6 2 ++ [0x08; 0x00] ++
  [0x45; 0; 0; 40; 0; 0; 0; 0; 64; 6; 0; 0; 10; 0; 0; 5; 8; 8; 8; 8] ++
  [4; 0; 0; 80; 0; 0; 0; 99; 0; 0; 0; 0; 0x50; 2; 0xFF; 0xFF; 0; 0; 0; 0].
Definition demo_proxy_world : World :=
  zero_world <| proxy ::= λ p, p <| nvnet_proxy_enabled := true |>
                                 <| nvnet_dhcp_client_ip := 0x0500000A |> |>.

Lemma wf_demo_proxy : wf_proxy (proxy demo_proxy_world).
Proof. destruct wf_proxy_init. by split. Qed.
Lemma bytes_demo_syn : bytes demo_syn.
Proof. repeat constructor; vm_compute; try discriminate; reflexivity. Qed.

Lemma proxy_invariant_witness :
  ∃ w', @send_packet (const_host 5) strict_guest demo_syn 54 demo_proxy_world = Ok (tt, w') ∧
    wf_proxy (proxy w') ∧ tcp_conn_t.state (tcp_conn 0 (proxy w')) = 1.
Proof.
  destruct (@proxy_invariant (const_host 5) strict_guest demo_syn 54 demo_proxy_world
              wf_demo_proxy bytes_demo_syn ltac:(vm_compute; discriminate)) as [Hi _].
  eexists. split; [vm_compute; reflexivity|]. split; [|reflexivity].
  apply Hi. vm_compute. reflexivity.
Defined.

(** A guest that stops the machine on any frame. *)
#[refine] Definition no_guest : GuestRx := {| to_guest := λ _ _, raise AssertFailed |}.
Proof. by intros. Defined.

(** The SYN of the example makes the proxy build a frame, which the strict guest accepts. *)
Lemma proxy_frames_wellformed_witness :
  (∀ e, @send_packet (const_host 5) strict_guest demo_syn 54 demo_proxy_world = Fault e → e = OutOfBounds) ∧
  (∃ w', @send_packet (const_host 5) strict_guest demo_syn 54 demo_proxy_world = Ok (tt, w')) ∧
  @send_packet (const_host 5) no_guest demo_syn 54 demo_proxy_world = Fault AssertFailed.
Proof.
  destruct (@proxy_frames_wellformed (const_host 5) demo_syn 54 demo_proxy_world
              wf_demo_proxy bytes_demo_syn) as [Hs _]; [vm_compute; discriminate|].
  split; [exact Hs|]. split; [eexists; vm_compute; reflexivity|vm_compute; reflexivity].
Defined.
