(* ===== verification/NvnetProxyRuns.v ===== *)
(** * NvnetProxyRuns: what the proxy's handlers do, packet by packet

    Run equations for the handlers of NvnetProxy: which frame is handed to the
    guest, which bytes go to which socket and how the tables change. *)

From S2P Require Import Prelude NvnetState Checksum NvnetFrames NvnetProxy NvnetProxySpec.

(** A 16-bit big-endian field of a packet. *)
Definition field16 (buf : list Z) (i : Z) : Z := (byte_at buf i <<< 8) ||| byte_at buf (i + 1).

Definition set_xbox_mac (mac : list Z) (w : World) : World :=
  w <| proxy ::= λ p, p <| nvnet_xbox_mac := mac |> |>.

(** What a handler takes of the Xbox's packets while the proxy is off: a DHCP message to the
    server port, which may turn the proxy on, and a TCP segment while some inbound connection is
    open. *)
Definition inbound_open (c : inbound_conn_t.t) : bool :=
  inbound_conn_t.active c && (0 <? inbound_conn_t.client_fd c).
Definition claimed (p : ProxyState) (buf : list Z) (size : Z) : bool :=
  (54 <=? size) && (field16 buf 12 =? 0x0800) &&
  ((282 <=? size) && (byte_at buf 23 =? 17) && (field16 buf 36 =? DHCP_SERVER_PORT) && (byte_at buf 42 =? 1)
   || (byte_at buf 23 =? 6) && existsb (λ i, inbound_open (inbound_conn i p)) (seqZ 0 MAX_INBOUND_CONNS)).

Section runs.
Context `{HostOS} `{GuestRx}.

Lemma run_ethertype buf w : 14 ≤ blen buf → get_ethertype buf w = Ok (field16 buf 12, w).
Proof. intros. apply run_rd_be16; lia. Qed.
Lemma run_protocol buf w : 24 ≤ blen buf → get_protocol buf w = Ok (byte_at buf 23, w).
Proof. intros. apply run_rd8; lia. Qed.
Lemma run_save_xbox_mac buf w :
  12 ≤ blen buf → save_xbox_mac buf w = Ok (tt, set_xbox_mac (slice 6 6 buf) w).
Proof. intros. unfold save_xbox_mac. erewrite run_bind; [done|apply run_rd; lia]. Qed.

(** One statement of a handler: proxy reads by computation, buffer reads in bounds. *)
Ltac run1 :=
  erewrite run_bind;
  [|first [ reflexivity | apply run_ethertype; lia | apply run_protocol; lia
          | apply run_save_xbox_mac; lia | apply run_rd8; lia | apply run_rd; lia
          | apply run_rd_be16; lia ]].
(** ** Dispatch *)

Lemma send_packet_isolated buf size w B :
  isolated B w → wlp (send_packet buf size) (λ _ w', isolated B w') w.
Proof.
  intros Hw. unfold send_packet.
  pose proof (isolated_poll B) as Hpoll.
  apply wpE_bind, wpE_gets, wpE_bind. eapply wpE_mono; [apply preserves_when; [exact Hpoll|done]|].
  cbv beta. intros ? w1 Hw1.
  apply wpE_bind. eapply wpE_mono; [by apply isolated_arp|]. cbv beta. intros r1 w2 Hw2.
  apply wpE_if; intros _; [by apply wpE_ret|].
  apply wpE_bind. eapply wpE_mono; [by apply isolated_dhcp|]. cbv beta. intros r2 w3 Hw3.
  apply wpE_if; intros _; [by apply wpE_ret|].
  apply wpE_bind. eapply wpE_mono; [by apply isolated_inbound|]. cbv beta. intros r3 w4 Hw4.
  apply wpE_if; intros _; [by apply wpE_ret|].
  apply wpE_bind. eapply wpE_mono; [by apply isolated_udp|]. cbv beta. intros r4 w5 Hw5.
  apply wpE_if; intros _; [by apply wpE_ret|].
  apply wpE_bind. eapply wpE_mono; [by apply isolated_tcp|]. cbv beta. intros r5 w6 Hw6.
  apply wpE_if; intros _; [by apply wpE_ret|].
  apply wpE_bind, wpE_gets. rewrite (proj1 Hw6). by apply wpE_ret.
Qed.

(** C24. While the proxy is enabled no packet of the Xbox reaches QEMU's network
    backend: whatever the packet, the host's answers and the guest, a run of
    [send_packet] adds no backend transmission to the history, and the proxy is
    still enabled afterwards.  A packet that no handler takes is dropped: the comment
    above the last branch of [send_packet], which says that unhandled packets are sent
    to the network normally, describes the code only while the proxy is off. *)
Theorem send_packet_no_leak buf size w w' :
  nvnet_proxy_enabled (proxy w) = true → send_packet buf size w = Ok (tt, w') →
  backend_calls (trace w') = backend_calls (trace w) ∧ nvnet_proxy_enabled (proxy w') = true.
Proof.
  intros He Hr. pose proof (send_packet_isolated buf size w (backend_calls (trace w))) as Hi.
  unfold wpE in Hi. rewrite Hr in Hi. destruct Hi as [? ?]; [done|]. done.
Qed.

Lemma neq_eqb a b : a ≠ b → (a =? b) = false.
Proof. apply Z.eqb_neq. Qed.

Lemma run_inbound_idle f buf l w :
  (∀ i, i ∈ l → inbound_open (inbound_conn i (proxy w)) = false) →
  forM_until l (λ i, c ← get_proxy (inbound_conn i);
    if inbound_match f c then inbound_response buf f i;; mret (Some 1) else mret None) w = Ok (None, w).
Proof.
  induction l as [|i l IH]; intros Hl; [done|]. cbn [forM_until].
  rewrite (run_bind _ _ None _ w); [apply IH; intros; apply Hl; by right|]. run1.
  pose proof (Hl i ltac:(by left)) as Hi. unfold inbound_open, inbound_match in *.
  destruct (inbound_conn_t.active _); [|done]. cbn [andb] in *. apply Z.ltb_ge in Hi.
  by rewrite (proj2 (Z.leb_le _ _) Hi).
Qed.
(** The fields of a segment, wherever its header is. *)
Lemma run_read_tcp_any buf size w : 94 ≤ blen buf → ∃ f, read_tcp_fields buf size w = Ok (f, w).
Proof.
  intros Hl. unfold read_tcp_fields. run1.
  assert (0 ≤ byte_at buf 14 &&& 0x0F < 2 ^ 4) by (by apply land_bound_r).
  eexists. do 6 run1. done.
Qed.

(** With the proxy off, a packet that no handler claims goes to QEMU's backend. *)
Lemma run_send_packet_bypass buf size w :
  nvnet_proxy_enabled (proxy w) = false → 0 ≤ size ≤ blen buf → 94 ≤ blen buf ∨ size < 54 →
  claimed (proxy w) buf size = false →
  send_packet buf size w =
    Ok (tt, w <| trace ::= cons (h_qemu_send_packet (slice 0 size buf)) |>).
Proof.
  intros He Hs Hlen Hf. unfold send_packet.
  erewrite run_bind by reflexivity. rewrite He. cbn [whenM]. run1.
  assert (Ha : handle_arp_packet buf size w = Ok (0, w)).
  { unfold handle_arp_packet. run1. by rewrite He. }
  assert (Hd : handle_dhcp_packet buf size w = Ok (0, w)).
  { unfold handle_dhcp_packet. destruct (Z.ltb_spec size 282); [done|]. run1.
    destruct (Z.eqb_spec (field16 buf 12) 0x0800) as [E1|]; [|done]. cbn [negb]. run1.
    destruct (Z.eqb_spec (byte_at buf 23) 17) as [E2|]; [|done]. cbn [negb]. run1.
    fold (field16 buf 36). destruct (Z.eqb_spec (field16 buf 36) DHCP_SERVER_PORT) as [E3|]; [|done]. cbn [negb]. run1.
    destruct (Z.eqb_spec (byte_at buf 42) 1) as [E4|]; [|done].
    unfold claimed in Hf. rewrite E1, E2, E3, E4 in Hf.
    rewrite (proj2 (Z.leb_le 54 size)), (proj2 (Z.leb_le 282 size)) in Hf by lia. done. }
  assert (Hi : handle_inbound_tcp_response buf size w = Ok (0, w)).
  { unfold handle_inbound_tcp_response. destruct (Z.ltb_spec size 54); [done|]. run1.
    destruct (Z.eqb_spec (field16 buf 12) 0x0800) as [E1|]; [|done]. cbn [negb]. run1.
    destruct (Z.eqb_spec (byte_at buf 23) 6) as [E2|]; [|done]. cbn [negb].
    destruct (run_read_tcp_any buf size w) as [f Hrf]; [lia|]. erewrite run_bind by exact Hrf.
    rewrite (run_bind _ _ None _ w); [done|]. apply run_inbound_idle. intros i Hi.
    unfold claimed in Hf. rewrite E1, E2 in Hf. rewrite (proj2 (Z.leb_le 54 size)) in Hf by lia.
    cbn [Z.eqb Pos.eqb andb] in Hf. rewrite !andb_false_r in Hf. cbn [andb orb] in Hf.
    destruct (inbound_open (inbound_conn i (proxy w))) eqn:Ho; [|done].
    rewrite <-Hf. symmetry. apply existsb_exists. exists i. by rewrite <-list_elem_of_In. }
  assert (Hu : handle_udp_packet buf size w = Ok (0, w)).
  { unfold handle_udp_packet. run1. by rewrite He. }
  assert (Ht : handle_tcp_packet buf size w = Ok (0, w)).
  { unfold handle_tcp_packet. run1. by rewrite He. }
  erewrite run_bind by exact Ha. cbn [truthy Z.eqb negb].
  erewrite run_bind by exact Hd. cbn [truthy Z.eqb negb].
  erewrite run_bind by exact Hi. cbn [truthy Z.eqb negb].
  erewrite run_bind by exact Hu. cbn [truthy Z.eqb negb].
  erewrite run_bind by exact Ht. cbn [truthy Z.eqb negb].
  run1. rewrite He. cbn [negb]. run1. done.
Qed.
(** Whether a packet is claimed depends on its bytes only. *)
Lemma claimed_slice p buf size : claimed p (slice 0 size buf) size = claimed p buf size.
Proof.
  unfold claimed. destruct (Z.leb_spec 54 size); [|done]. unfold field16.
  rewrite !byte_at_slice by lia. done.
Qed.


(** ** ARP *)

(** An ARP request with the proxy on: the sender's MAC is remembered; a probe for
    the Xbox's own address (duplicate address detection) is consumed silently;
    any other request is answered with one frame, from the proxy's MAC, that
    claims the requested address for the proxy. *)
Theorem handle_arp_packet_spec buf size w :
  nvnet_proxy_enabled (proxy w) = true → 42 ≤ size ≤ blen buf →
  blen (nvnet_host_mac (proxy w)) = 6 → field16 buf 12 = 0x0806 → field16 buf 20 = 1 →
  let w1 := set_xbox_mac (slice 6 6 buf) w in
  let host := nvnet_host_mac (proxy w) in
  handle_arp_packet buf size w =
    if of_le (slice 38 4 buf) =? nvnet_dhcp_client_ip (proxy w) then Ok (1, w1)
    else (to_guest (slice 6 6 buf ++ host ++ [0x08; 0x06] ++
                    [0x00; 0x01; 0x08; 0x00; 6; 4; 0x00; 0x02] ++
                    host ++ slice 38 4 buf ++ slice 6 6 buf ++ slice 28 4 buf) 42;;
          mret 1) w1.
Proof.
  intros He Hs Hh Hf Hop w1 host. unfold handle_arp_packet. run1. rewrite He.
  replace (size <? 42) with false by lia. cbn [negb orb]. run1. rewrite Hf. cbn [Z.eqb Pos.eqb negb].
  erewrite run_bind; [|apply run_rd_be16; lia]. unfold field16 in Hop. rewrite Hop.
  cbn [Z.eqb Pos.eqb negb].
  run1. cbv zeta. run1. run1.
  change (nvnet_dhcp_client_ip (proxy (set_xbox_mac _ w))) with (nvnet_dhcp_client_ip (proxy w)).
  destruct (_ =? _); [done|]. run1.
  rewrite arp_reply_spec by (done || lia). done.
Qed.

(** ** DHCP options *)

(** The wire form of an option list, and the message type it announces. *)
Definition encode_option (o : Z * list Z) : list Z := o.1 :: blen o.2 :: o.2.
Definition encode_options (os : list (Z * list Z)) : list Z := concat (encode_option <$> os) ++ [255].
Fixpoint message_type (os : list (Z * list Z)) : Z :=
  match os with
  | [] => 0
  | (code, v) :: os => match v with
                       | t :: _ => if code =? 53 then t else message_type os
                       | [] => message_type os
                       end
  end.
Definition wf_option (o : Z * list Z) : Prop := 0 < o.1 < 255.

Lemma byte_at_app pre l i : 0 ≤ i → byte_at (pre ++ l) (blen pre + i) = byte_at l i.
Proof.
  intros. unfold byte_at, blen. rewrite !list_lookup_total_alt, lookup_app_r by lia.
  do 2 f_equal. lia.
Qed.

Lemma byte_at_app0 pre x l : byte_at (pre ++ x :: l) (blen pre) = x.
Proof. rewrite <-(Z.add_0_r (blen pre)). by rewrite byte_at_app. Qed.

Lemma find_msg_type_encoded os pre post fuel w :
  (length os < fuel)%nat → Forall wf_option os →
  find_msg_type fuel (pre ++ encode_options os ++ post)
    (blen pre + blen (encode_options os)) (blen pre) w = Ok (message_type os, w).
Proof.
  intros Hf Hos. revert pre fuel Hf.
  induction Hos as [|[code v] os Ho Hos IH]; intros pre [|fuel] Hf; try (simpl in Hf; lia).
  { cbn [find_msg_type]. change (blen (encode_options [])) with 1.
    by replace (_ <? _) with false by lia. }
  unfold wf_option in Ho. cbn in Ho. pose proof (blen_nonneg pre). pose proof (blen_nonneg post).
  pose proof (blen_nonneg v). pose proof (blen_nonneg (encode_options os)).
  assert (Henc : encode_options ((code, v) :: os) = code :: blen v :: v ++ encode_options os).
  { unfold encode_options. cbn. by rewrite <-app_assoc. }
  assert (Hlen : 1 ≤ blen (encode_options os)).
  { unfold encode_options. rewrite blen_app. pose proof (blen_nonneg (concat (encode_option <$> os))).
    change (blen [255]) with 1. lia. }
  assert (Hsh : pre ++ encode_options ((code, v) :: os) ++ post =
    pre ++ code :: blen v :: (v ++ encode_options os ++ post)).
  { rewrite Henc. cbn. by rewrite <-app_assoc. }
  assert (Hbl : blen (pre ++ code :: blen v :: (v ++ encode_options os ++ post)) =
    blen pre + (2 + blen v + blen (encode_options os)) + blen post).
  { rewrite !blen_app, !blen_cons, !blen_app. lia. }
  assert (Hel : blen (encode_options ((code, v) :: os)) = 2 + blen v + blen (encode_options os)).
  { rewrite Henc, !blen_cons, blen_app. lia. }
  cbn [find_msg_type]. rewrite Hsh, Hel. replace (_ <? _) with true by lia.
  erewrite run_bind; [|apply run_rd8; lia]. rewrite byte_at_app0.
  replace (code =? 255) with false by lia. replace (code =? 0) with false by lia.
  erewrite run_bind; [|apply run_rd8; lia]. rewrite byte_at_app by lia.
  change (byte_at _ 1) with (blen v). cbn [message_type].
  destruct ((code =? 53) && (blen v >=? 1)) eqn:Hc.
  - destruct v as [|t v]; [by rewrite andb_false_r in Hc|]. rewrite run_rd8 by lia.
    rewrite byte_at_app by lia. by replace (code =? 53) with true by lia.
  - transitivity (Ok (message_type os, w) : res (Z * World)).
    + replace (pre ++ code :: blen v :: (v ++ encode_options os ++ post)) with
        ((pre ++ code :: blen v :: v) ++ encode_options os ++ post)
        by (by rewrite <-!app_assoc).
      replace (blen pre + (2 + blen v + blen (encode_options os))) with
        (blen (pre ++ code :: blen v :: v) + blen (encode_options os))
        by (rewrite blen_app, !blen_cons; lia).
      replace (blen pre + (2 + blen v)) with (blen (pre ++ code :: blen v :: v))
        by (rewrite blen_app, !blen_cons; lia).
      apply IH. simpl in Hf. lia.
    + destruct v as [|t v]; [done|]. rewrite blen_cons in Hc. pose proof (blen_nonneg v).
      by replace (code =? 53) with false by lia.
Qed.

(** Any option area at all: the walk ends, inside the packet, without effect. *)
Lemma find_msg_type_total buf size fuel opt w :
  bytes buf → size ≤ blen buf → 0 ≤ opt → (Z.to_nat (size - opt) < fuel)%nat →
  ∃ t, find_msg_type fuel buf size opt w = Ok (t, w).
Proof.
  intros Hb Hs. revert opt. induction fuel as [|fuel IH]; intros opt Ho Hf; [lia|].
  cbn [find_msg_type]. destruct (Z.ltb_spec opt (size - 2)); [|by eexists].
  erewrite run_bind; [|apply run_rd8; lia].
  destruct (_ =? 255); [by eexists|]. destruct (_ =? 0); [apply IH; lia|].
  erewrite run_bind; [|apply run_rd8; lia].
  destruct (_ && _); [eexists; apply run_rd8; lia|].
  pose proof (bytes_byte_at buf (opt + 1) Hb) as Hn. unfold is_u8 in Hn. apply IH; lia.
Qed.

Lemma length_encode_options os : Z.of_nat (length os) ≤ blen (encode_options os).
Proof.
  unfold encode_options. rewrite blen_app. change (blen [255]) with 1.
  induction os as [|o os IH]; [done|].
  cbn [fmap list_fmap concat]. rewrite blen_app. unfold encode_option at 1. rewrite !blen_cons.
  pose proof (blen_nonneg o.2). cbn [length]. lia.
Qed.

(** On a packet whose options run from offset 282 to its end. *)
Lemma find_msg_type_options buf size os w :
  282 ≤ size ≤ blen buf → Forall wf_option os →
  slice 282 (size - 282) buf = encode_options os →
  find_msg_type (options_fuel size) buf size 282 w = Ok (message_type os, w).
Proof.
  intros Hs Hos He.
  assert (Hbuf : buf = take 282 buf ++ encode_options os ++ drop (Z.to_nat size) buf).
  { rewrite <-He. unfold slice. change (Z.to_nat 282) with 282%nat.
    replace (Z.to_nat size) with (282 + Z.to_nat (size - 282))%nat by lia.
    rewrite <-drop_drop, take_drop, take_drop. done. }
  assert (Hpre : blen (take 282 buf) = 282) by (unfold blen in *; rewrite length_take; lia).
  assert (Hel : blen (encode_options os) = size - 282) by (rewrite <-He; apply blen_slice; lia).
  pose proof (find_msg_type_encoded os (take 282 buf) (drop (Z.to_nat size) buf)
                (options_fuel size) w) as Hx.
  rewrite <-Hbuf, Hpre, Hel in Hx. replace (282 + (size - 282)) with size in Hx by lia.
  apply Hx; [|done]. unfold options_fuel. pose proof (length_encode_options os). lia.
Qed.

(** The DHCP option walk terminates on every packet without reading outside it
    and without side effects; and on a packet whose options, from offset 282 to
    the end, are the encoding of a list of options, it finds the message type:
    the first byte of the first non-empty option 53, or 0. *)
Theorem find_msg_type_correct buf size w :
  bytes buf → 282 ≤ size ≤ blen buf →
  (∃ t, find_msg_type (options_fuel size) buf size 282 w = Ok (t, w)) ∧
  (∀ os, Forall wf_option os → slice 282 (size - 282) buf = encode_options os →
     find_msg_type (options_fuel size) buf size 282 w = Ok (message_type os, w)).
Proof.
  intros Hb Hs. split; [|intros; by apply find_msg_type_options].
  apply find_msg_type_total; [done|lia|lia|]. unfold options_fuel. lia.
Qed.

(** [m] ends by handing frame [f] of [size] bytes to the guest in world [w1] and
    then returns [r] (or stops as the guest does). *)
Definition answers {A} (m : M World A) (w : World) (r : A) (f : list Z) (size : Z) (w1 : World) : Prop :=
  m w = match to_guest f size w1 with Ok (_, w2) => Ok (r, w2) | Fault e => Fault e end.

Lemma answers_to_guest f size w : answers (to_guest f size;; mret tt) w tt f size w.
Proof.
  unfold answers, mbind, M_bind. by destruct (to_guest f size w) as [[]|].
Qed.
Lemma answers_then {A B} (m : M World A) (k : A → M World B) (b : B) w r f size w1 :
  answers m w r f size w1 → (∀ w2, k r w2 = Ok (b, w2)) → answers (m ≫= k) w b f size w1.
Proof.
  unfold answers, mbind, M_bind. intros -> Hk. destruct (to_guest f size w1) as [[]|]; [apply Hk|done].
Qed.
Lemma answers_after {A B} (m : M World A) (k : A → M World B) a w w' r f size w1 :
  m w = Ok (a, w') → answers (k a) w' r f size w1 → answers (m ≫= k) w r f size w1.
Proof. unfold answers, mbind, M_bind. by intros ->. Qed.

Lemma bind_answers {A B} (m : M World A) (k : A → M World B) w r f size w1 :
  answers m w r f size w1 →
  (m ≫= k) w = match to_guest f size w1 with Ok (_, w2) => k r w2 | Fault e => Fault e end.
Proof. unfold answers, mbind, M_bind. intros ->. by destruct (to_guest f size w1) as [[]|]. Qed.
(** Code after a frame was handed over, where the proxy is as before. *)
Lemma run_bind_match {A B} (m k : M World A) (n : A → M World B) w f size w1 (g : World → res (B * World)) :
  m w = match to_guest f size w1 with Ok (_, w2) => k w2 | Fault e => Fault e end →
  (∀ w2, proxy w2 = proxy w1 → (k ≫= n) w2 = g w2) →
  (m ≫= n) w = match to_guest f size w1 with Ok (_, w2) => g w2 | Fault e => Fault e end.
Proof.
  intros Hm Hk. unfold mbind, M_bind in *. rewrite Hm.
  destruct (to_guest f size w1) as [[a w2]|e] eqn:Eg; [|done].
  apply Hk. by apply to_guest_proxy in Eg as (? & _).
Qed.

(** ** DHCP *)

(** A DHCP DISCOVER or REQUEST from the Xbox, with the proxy on, is answered with
    one 316-byte frame: an OFFER to a DISCOVER, an ACK to a REQUEST, for the
    request's transaction and hardware address, leasing the configured address
    with its server, router and DNS options; the hardware address is
    remembered. *)
Theorem handle_dhcp_packet_answers buf size os w :
  wf_proxy (proxy w) → bytes buf → 282 ≤ size ≤ blen buf →
  nvnet_proxy_enabled (proxy w) = true →
  field16 buf 12 = 0x0800 → byte_at buf 23 = 17 → field16 buf 36 = 67 → byte_at buf 42 = 1 →
  Forall wf_option os → slice 282 (size - 282) buf = encode_options os →
  message_type os = DHCP_DISCOVER ∨ message_type os = DHCP_REQUEST →
  let p := proxy w in
  let mac := slice 6 6 buf in
  ∃ f, answers (handle_dhcp_packet buf size) w 1 f 316 (set_xbox_mac mac w) ∧
    slice 0 6 f = mac ∧ slice 46 4 f = slice 46 4 buf ∧ slice 70 6 f = mac ∧
    of_le (slice 58 4 f) = nvnet_dhcp_client_ip p ∧
    parse_options 8 (slice 282 34 f) =
      Some [(53, [if message_type os =? DHCP_DISCOVER then DHCP_OFFER else DHCP_ACK]);
            (54, le_bytes 4 (nvnet_dhcp_server_ip p)); (51, be_bytes 4 86400);
            (1, be_bytes 4 0xFFFFFF00); (3, le_bytes 4 (nvnet_dhcp_gateway p));
            (6, le_bytes 4 (nvnet_dhcp_dns p))].
Proof.
  intros Hw Hb Hs He Het Hpr Hport Hop Hos Henc Hty p mac.
  set (rt := if message_type os =? DHCP_DISCOVER then DHCP_OFFER else DHCP_ACK).
  exists (dhcp_response mac (nvnet_host_mac p) (slice 46 4 buf) rt (nvnet_dhcp_client_ip p)
            (nvnet_dhcp_server_ip p) (nvnet_dhcp_gateway p) (nvnet_dhcp_dns p)).
  split.
  - unfold handle_dhcp_packet. replace (size <? 282) with false by lia.
    eapply answers_after; [apply run_ethertype; lia|]. rewrite Het. cbn [Z.eqb Pos.eqb negb].
    eapply answers_after; [apply run_protocol; lia|]. rewrite Hpr. cbn [Z.eqb Pos.eqb negb].
    eapply answers_after; [apply run_rd_be16; lia|]. fold (field16 buf 36). rewrite Hport.
    cbn [Z.eqb Pos.eqb negb].
    eapply answers_after; [apply run_rd8; lia|]. rewrite Hop. cbn [Z.eqb Pos.eqb negb].
    eapply answers_after; [by apply find_msg_type_options|].
    replace (_ && _) with false by (destruct Hty as [-> | ->]; done).
    eapply answers_after; [apply run_save_xbox_mac; lia|].
    eapply answers_after; [done|].
    change (nvnet_proxy_enabled (proxy (set_xbox_mac _ w))) with (nvnet_proxy_enabled p).
    unfold p. rewrite He. eapply answers_after; [done|]. cbv match.
    unfold send_dhcp_response. eapply answers_after; [done|].
    eapply answers_after; [apply run_rd; lia|].
    unfold answers, mbind, M_bind. by destruct (to_guest _ _ _) as [[]|].
  - assert (Hrt : is_u8 rt) by (unfold rt; destruct (_ =? _); vm_compute; split; congruence).
    destruct Hw. destruct (dhcp_response_wellformed mac (nvnet_host_mac p)) with
      (xid := slice 46 4 buf) (rtype := rt) (cip := nvnet_dhcp_client_ip p)
      (sip := nvnet_dhcp_server_ip p) (gw := nvnet_dhcp_gateway p) (dns := nvnet_dhcp_dns p)
      as (H14 & _ & _ & _ & _ & _ & Hxid & Hcip & _ & Hch & _ & Hopt & _); try done;
      try (apply blen_slice; lia); try (by apply bytes_slice).
    split_and!; try done. set (f := dhcp_response _ _ _ _ _ _ _ _) in *.
    rewrite <-(slice_slice 0 14 0 6), H14 by lia.
    destruct (six_bytes mac) as (?&?&?&?&?&?&->); [apply blen_slice; lia|done].
Qed.

(** ** TCP segments to the Xbox *)

Definition push_calls (cs : list host_call) (w : World) : World := w <| trace ::= app cs |>.
Definition upd_tcp_conn (i : Z) (f : tcp_conn_t.t → tcp_conn_t.t) (w : World) : World :=
  w <| proxy ::= λ p, p <| tcp_conns ::= alter f (Z.to_nat i) |> |>.

(** The sequence space a segment takes: its payload, SYN and FIN. *)
Definition seq_space (fl : Z) (payload : list Z) : Z :=
  blen payload + (if truthy (fl &&& 0x02) then 1 else 0) + (if truthy (fl &&& 0x01) then 1 else 0).
Definition advance_seq (fl : Z) (payload : list Z) (c : tcp_conn_t.t) : tcp_conn_t.t :=
  c <| tcp_conn_t.seq_out ::= λ x, u32 (x + seq_space fl payload) |>.

Lemma u32_u32 x : u32 (u32 x) = u32 x.
Proof. apply u32_id, u32_range. Qed.

Lemma alter_alter_same {A} (f g : A → A) i (l : list A) : alter f i (alter g i l) = alter (f ∘ g) i l.
Proof.
  apply list_eq. intros j. rewrite !list_lookup_alter. case_decide; [|done].
  subst. rewrite decide_True by done. by destruct (l !! j).
Qed.
Lemma alter_ext_wf {A} (P : A → Prop) (f g : A → A) i (l : list A) :
  Forall P l → (∀ x, P x → f x = g x) → alter f i l = alter g i l.
Proof.
  intros HP Hfg. apply list_eq. intros j. rewrite !list_lookup_alter. case_decide; [|done].
  destruct (l !! i) as [x|] eqn:E; [|done]. cbn. f_equal. apply Hfg. by eapply Forall_lookup_1.
Qed.

Lemma upd_tcp_conn_compose i f g w :
  upd_tcp_conn i f (upd_tcp_conn i g w) = upd_tcp_conn i (f ∘ g) w.
Proof.
  unfold upd_tcp_conn. destruct w as [d m [] t]. unfold field_update. cbn -[alter]. by rewrite alter_alter_same.
Qed.
Lemma tcp_conns_upd i f w :
  tcp_conns (proxy (upd_tcp_conn i f w)) = alter f (Z.to_nat i) (tcp_conns (proxy w)).
Proof. done. Qed.
Lemma tcp_conn_upd_same i f w :
  wf_proxy (proxy w) → 0 ≤ i < 64 →
  tcp_conn i (proxy (upd_tcp_conn i f w)) = f (tcp_conn i (proxy w)).
Proof.
  intros Hw Hi. unfold tcp_conn. rewrite tcp_conns_upd, list_lookup_total_alter_eq; [done|].
  rewrite (wp_tcp_len _ Hw). lia.
Qed.
Lemma tcp_conn_upd_other i j f w :
  0 ≤ i → 0 ≤ j → i ≠ j → tcp_conn j (proxy (upd_tcp_conn i f w)) = tcp_conn j (proxy w).
Proof.
  intros. unfold tcp_conn. rewrite tcp_conns_upd, list_lookup_total_alter_ne; [done|lia].
Qed.
Lemma alter_id {A} i (l : list A) : alter id i l = l.
Proof.
  apply list_eq. intros j. rewrite list_lookup_alter. case_decide; [subst|done].
  by destruct (l !! j).
Qed.
Lemma upd_tcp_conn_id i w : upd_tcp_conn i id w = w.
Proof. unfold upd_tcp_conn. destruct w as [d m [] t]. unfold field_update. cbn -[alter]. by rewrite alter_id. Qed.
Lemma upd_tcp_conn_ext i f g w :
  wf_proxy (proxy w) → (∀ c, wf_tcp c → f c = g c) → upd_tcp_conn i f w = upd_tcp_conn i g w.
Proof.
  intros Hw Hfg. unfold upd_tcp_conn. destruct w as [d m p t]. unfold field_update. cbn -[alter] in *.
  by rewrite (alter_ext_wf wf_tcp f g _ _ (wp_tcp _ Hw) Hfg).
Qed.
Lemma run_when_upd_tcp (b : bool) i f w :
  whenM b (upd_tcp i f) w = Ok (tt, upd_tcp_conn i (if b then f else id) w).
Proof. destruct b; [done|]. cbn. by rewrite upd_tcp_conn_id. Qed.

Definition bump_seq (n : Z) (c : tcp_conn_t.t) : tcp_conn_t.t :=
  c <| tcp_conn_t.seq_out ::= λ x, u32 (x + n) |>.

(** The sequence updates of [send_tcp_to_xbox] add up. *)
Lemma advance_seq_steps fl payload c :
  wf_tcp c →
  ((if truthy (fl &&& 0x01) then bump_seq 1 else id) ∘
   ((if truthy (fl &&& 0x02) then bump_seq 1 else id) ∘
    (if 0 <? blen payload then bump_seq (blen payload) else id))) c = advance_seq fl payload c.
Proof.
  intros [? ? ? ? Hs ? ?]. unfold advance_seq, seq_space, bump_seq, compose.
  pose proof (blen_nonneg payload).
  destruct (truthy (fl &&& 1)), (truthy (fl &&& 2)), (Z.ltb_spec 0 (blen payload));
    destruct c; unfold field_update; cbn -[u32] in *; f_equal;
    repeat (rewrite u32_add; rewrite <-?Z.add_assoc); try (f_equal; lia).
  rewrite <-(u32_id seq_out) at 1 by done. f_equal. lia.
Qed.

(** The frame a TCP entry sends. *)
Definition tcp_frame_of (p : ProxyState) (id0 id1 : Z) (c : tcp_conn_t.t) (fl : Z)
    (payload : list Z) : list Z :=
  tcp_frame (nvnet_xbox_mac p) (nvnet_host_mac p) id0 id1 (tcp_conn_t.remote_ip c)
    (tcp_conn_t.remote_port c) (tcp_conn_t.xbox_ip c) (tcp_conn_t.xbox_port c)
    (tcp_conn_t.seq_out c) (tcp_conn_t.ack_out c) fl payload.
Definition tcp_view_of (p : ProxyState) (c : tcp_conn_t.t) (fl : Z) (payload : list Z) : tcp_view :=
  mkTcpView (nvnet_xbox_mac p) (nvnet_host_mac p) 0x0800 (40 + blen payload) 6
    (tcp_conn_t.remote_ip c) (tcp_conn_t.xbox_ip c) (tcp_conn_t.remote_port c)
    (tcp_conn_t.xbox_port c) (tcp_conn_t.seq_out c) (tcp_conn_t.ack_out c) fl payload.

(** A frame that reads as the given segment, with valid checksums. *)
Definition is_segment (f : list Z) (v : tcp_view) : Prop :=
  parse_tcp f = v ∧ ip_checksum (slice 14 20 f) = 0 ∧
  tcp_udp_checksum (bswap32 (v_src_ip v)) (bswap32 (v_dst_ip v)) 6
    (slice 34 (v_total_len v - 20) f) = 0.

Lemma tcp_frame_of_segment p id0 id1 c fl payload :
  wf_proxy p → wf_tcp c → is_u8 fl → bytes payload → blen payload ≤ 1460 →
  is_segment (tcp_frame_of p id0 id1 c fl payload) (tcp_view_of p c fl payload).
Proof.
  intros [] [] Hfl Hb Hl. unfold is_segment, tcp_frame_of, tcp_view_of. cbn [v_src_ip v_dst_ip v_total_len].
  replace (40 + blen payload - 20) with (20 + blen payload) by lia.
  by apply tcp_frame_roundtrip.
Qed.

Lemma send_tcp_run idx fl payload w :
  wf_proxy (proxy w) → blen payload ≤ 1460 →
  ∃ id0 id1,
    answers (send_tcp_to_xbox idx fl payload) w tt
      (tcp_frame_of (proxy w) id0 id1 (tcp_conn idx (proxy w)) fl payload) (54 + blen payload)
      (upd_tcp_conn idx (advance_seq fl payload) (push_calls [h_rand; h_rand] w)).
Proof.
  intros Hw Hl. pose proof (blen_nonneg payload). do 2 eexists. unfold send_tcp_to_xbox.
  eapply answers_after; [done|]. eapply answers_after; [done|].
  eapply answers_after; [done|]. eapply answers_after; [done|].
  set (w2 := push_calls [h_rand; h_rand] w). fold w2.
  eapply answers_after.
  { instantiate (1 := upd_tcp_conn idx (if 0 <? blen payload then bump_seq (blen payload) else id) w2).
    destruct (Z.ltb_spec 0 (blen payload)); cbn [whenM].
    - erewrite run_bind by (apply run_inBounds; lia). done.
    - by rewrite upd_tcp_conn_id. }
  eapply answers_after; [apply run_when_upd_tcp|].
  eapply answers_after; [apply run_when_upd_tcp|].
  rewrite !upd_tcp_conn_compose. erewrite upd_tcp_conn_ext; [|done|intros; by apply advance_seq_steps].
  replace (14 + (20 + 20 + blen payload)) with (54 + blen payload) by lia.
  apply answers_to_guest.
Qed.

(** [send_tcp_to_xbox] hands the guest one frame that parses to the segment of
    the connection (its addresses, ports, next sequence and acknowledgement
    numbers, the given flags and payload) with valid IP and TCP checksums, and
    advances the connection's sequence number, modulo 2^32, by the payload
    length plus one for SYN and one for FIN. *)
Theorem send_tcp_to_xbox_spec idx fl payload w :
  wf_proxy (proxy w) → 0 ≤ idx < 64 → is_u8 fl → bytes payload → blen payload ≤ 1460 →
  let c := tcp_conn idx (proxy w) in
  ∃ f w1, answers (send_tcp_to_xbox idx fl payload) w tt f (54 + blen payload) w1 ∧
    is_segment f (tcp_view_of (proxy w) c fl payload) ∧
    tcp_conn idx (proxy w1) =
      c <| tcp_conn_t.seq_out := u32 (tcp_conn_t.seq_out c + seq_space fl payload) |> ∧
    (∀ j, 0 ≤ j → j ≠ idx → tcp_conn j (proxy w1) = tcp_conn j (proxy w)).
Proof.
  intros Hw Hi Hfl Hb Hl c. destruct (send_tcp_run idx fl payload w Hw Hl) as (id0 & id1 & Ha).
  exists (tcp_frame_of (proxy w) id0 id1 c fl payload),
    (upd_tcp_conn idx (advance_seq fl payload) (push_calls [h_rand; h_rand] w)).
  split; [exact Ha|]. split; [apply tcp_frame_of_segment; [done|by apply wf_tcp_conn|done..]|]. split.
  - rewrite tcp_conn_upd_same by (done || lia). done.
  - intros j Hj Hne. by rewrite tcp_conn_upd_other by lia.
Qed.

(** ** TCP segments from the Xbox *)

(** The fields of a segment behind a 20-byte IP header. *)
Definition tcp_hdr_len (buf : list Z) : Z := ((byte_at buf 46 >>> 4) &&& 0x0F) * 4.
Definition fields_of (buf : list Z) (size : Z) : tcp_fields :=
  mkTcpFields (field16 buf 34) (field16 buf 36) (bswap32 (of_le (slice 38 4 buf)))
    (byte_at buf 47) (of_le (slice 30 4 buf))
    (u64 (size - 14 - 20 - tcp_hdr_len buf)) (34 + tcp_hdr_len buf) 34.

Lemma run_read_tcp_fields buf size w :
  byte_at buf 14 = 0x45 → 54 ≤ blen buf → read_tcp_fields buf size w = Ok (fields_of buf size, w).
Proof.
  intros H14 Hl. unfold read_tcp_fields. erewrite run_bind; [|apply run_rd8; lia]. rewrite H14.
  change (0x45 &&& 0x0F) with 5. cbv zeta. change (14 + 5 * 4) with 34.
  do 6 run1. done.
Qed.

(** An IPv4/TCP packet with a 20-byte IP header. *)
Definition tcp_packet (buf : list Z) (size : Z) : Prop :=
  bytes buf ∧ 54 ≤ size ≤ blen buf ∧ field16 buf 12 = 0x0800 ∧ byte_at buf 23 = 6 ∧
  byte_at buf 14 = 0x45.

Lemma fields_range buf size : tcp_packet buf size → wf_fields (fields_of buf size).
Proof.
  intros (Hb & Hs & _). split; cbn; [by apply be16_u16..|]. apply le4_u32; [done|lia|lia].
Qed.

Definition lookup_flow (buf : list Z) (p : ProxyState) : Z :=
  first_index (tcp_match (field16 buf 34) (of_le (slice 30 4 buf)) (field16 buf 36)) (tcp_conns p) 0 (-1).

(** The handler up to the connection lookup. *)
Lemma run_handle_tcp buf size w :
  tcp_packet buf size → nvnet_proxy_enabled (proxy w) = true →
  ∃ k : Z → M World Z,
    handle_tcp_packet buf size w = k (lookup_flow buf (proxy w)) w ∧
    ∀ idx, k idx =
      (let f := fields_of buf size in
       if truthy (f_flags f &&& 0x02) then handle_tcp_syn f idx
       else if idx <? 0 then mret 0
       else
         conn ← get_proxy (tcp_conn idx);
         whenM (truthy (f_flags f &&& 0x10) && (tcp_conn_t.state conn =? 1))
           (upd_tcp idx (λ c, c <| tcp_conn_t.state := 2 |>));;
         conn ← get_proxy (tcp_conn idx);
         whenM ((0 <? f_payload_len f) && (tcp_conn_t.state conn =? 2)) (
           payload ← rd buf (f_payload_off f) (f_payload_len f);
           syscall (h_send (tcp_conn_t.socket_fd conn) payload);;
           upd_tcp idx (λ c, c <| tcp_conn_t.ack_out := u32 (f_seq f + f_payload_len f) |>);;
           send_tcp_to_xbox idx 0x10 []);;
         whenM (truthy (f_flags f &&& 0x01)) (
           upd_tcp idx (λ c, c <| tcp_conn_t.ack_out := u32 (f_seq f + 1) |>);;
           send_tcp_to_xbox idx 0x11 [];;
           conn ← get_proxy (tcp_conn idx);
           syscall (h_close (tcp_conn_t.socket_fd conn));;
           upd_tcp idx (λ c, c <| tcp_conn_t.active := false |>));;
         mret 1).
Proof.
  intros (Hb & Hs & Het & Hpr & H14) He. eexists. split; [|intros idx; reflexivity].
  unfold handle_tcp_packet. run1. rewrite He. replace (size <? 54) with false by lia. cbn [negb orb].
  run1. rewrite Het. cbn [Z.eqb Pos.eqb negb]. run1. rewrite Hpr. cbn [Z.eqb Pos.eqb negb].
  erewrite run_bind; [|apply run_read_tcp_fields; [done|lia]]. cbv zeta.
  erewrite run_bind; [|reflexivity]. reflexivity.
Qed.

Lemma first_index_nonneg {A} (f : A → bool) l i : 0 ≤ i →
  -1 ≤ first_index f l i (-1) ∧ first_index f l i (-1) < i + Z.of_nat (length l).
Proof.
  intros Hi. destruct (first_index_spec f l i (-1)) as [[-> _]|(j & c & -> & Hj & _)]; [lia|].
  apply lookup_lt_Some in Hj. lia.
Qed.

(** C36. A SYN for a new flow, with a free table entry and a socket from the host,
    opens a connection: the entry of the first free slot is the flow with the
    new socket, waiting for the handshake's ACK; a connect to the packet's
    destination is issued on that socket; and the Xbox gets a SYN+ACK with valid
    checksums that acknowledges its sequence number plus one. *)
Theorem tcp_syn_opens buf size w slot :
  wf_proxy (proxy w) → tcp_packet buf size → nvnet_proxy_enabled (proxy w) = true →
  truthy (byte_at buf 47 &&& 0x02) = true → lookup_flow buf (proxy w) = -1 →
  slot = first_index (λ c, negb (tcp_conn_t.active c)) (tcp_conns (proxy w)) 0 (-1) → 0 ≤ slot →
  let sock := hr_val (os_ret (trace w) h_socket_stream) in
  0 ≤ sock →
  let seq := bswap32 (of_le (slice 38 4 buf)) in
  let src_port := field16 buf 34 in
  let dst_port := field16 buf 36 in
  let dst_ip := of_le (slice 30 4 buf) in
  let p := proxy w in
  ∃ isn f w1, answers (handle_tcp_packet buf size) w 1 f 54 w1 ∧ is_u32 isn ∧
    is_segment f (mkTcpView (nvnet_xbox_mac p) (nvnet_host_mac p) 0x0800 40 6 dst_ip
                    (nvnet_dhcp_client_ip p) dst_port src_port isn (u32 (seq + 1)) 0x12 []) ∧
    tcp_conn slot (proxy w1) =
      tcp_conn_t.mk true sock (nvnet_dhcp_client_ip p) src_port dst_ip dst_port
        (u32 (isn + 1)) (u32 (seq + 1)) (u32 (seq + 1)) 1 ∧
    trace w1 = [h_rand; h_rand; h_rand; h_connect sock dst_ip dst_port; h_socket_stream] ++ trace w.
Proof.
  intros Hw Hpk He Hsyn Hflow Hslot Hs0 sock Hsock seq src_port dst_port dst_ip p.
  assert (Hs64 : slot < 64).
  { pose proof (first_index_nonneg (λ c, negb (tcp_conn_t.active c)) (tcp_conns (proxy w)) 0).
    rewrite (wp_tcp_len _ Hw) in *. lia. }
  set (w3 := push_calls [h_rand; h_connect sock dst_ip dst_port; h_socket_stream] w).
  set (isn := u32 (hr_val (os_ret ([h_connect sock dst_ip dst_port; h_socket_stream] ++ trace w) h_rand))).
  set (c := tcp_conn_t.mk true sock (nvnet_dhcp_client_ip p) src_port dst_ip dst_port isn
              (u32 (seq + 1)) (u32 (seq + 1)) 1).
  set (w4 := upd_tcp_conn slot (λ _, c) w3).
  pose proof (fields_range buf size Hpk) as Hfr.
  assert (Hc : wf_tcp c).
  { destruct Hfr. split; cbn; try done; try apply u32_range; [apply Hw|by left]. }
  assert (Hw4 : wf_proxy (proxy w4)).
  { apply wf_new_tcp; [done|done|]. intros j d Hj _ Ha.
    destruct (tcp_syn_no_dup p src_port dst_ip dst_port Hw) as [[_ Hn]|[Hi _]]; [by eapply Hn|].
    unfold lookup_flow in Hflow. fold p src_port dst_ip dst_port in Hflow. lia. }
  destruct (send_tcp_run slot 0x12 [] w4 Hw4) as (id0 & id1 & Ha); [done|].
  assert (Hcs : tcp_conn slot (proxy w4) = c) by (by apply tcp_conn_upd_same).
  rewrite Hcs in Ha.
  exists isn, (tcp_frame_of (proxy w4) id0 id1 c 0x12 []), (upd_tcp_conn slot (advance_seq 0x12 []) (push_calls [h_rand; h_rand] w4)).
  split_and!.
  - destruct (run_handle_tcp buf size w Hpk He) as (k & Hrun & Hk).
    unfold answers. rewrite Hrun, Hk, Hflow. cbv zeta. unfold fields_of at 1. cbn [f_flags]. rewrite Hsyn.
    fold (fields_of buf size). unfold handle_tcp_syn. cbn [Z.leb Z.compare].
    eapply answers_after; [reflexivity|]. eapply answers_after; [reflexivity|].
    rewrite <-Hslot. replace (slot <? 0) with false by lia.
    eapply answers_after; [reflexivity|]. fold sock. replace (sock <? 0) with false by lia.
    eapply answers_after; [reflexivity|]. eapply answers_after; [reflexivity|].
    eapply answers_after; [reflexivity|]. eapply answers_after; [reflexivity|].
    eapply answers_then; [exact Ha|]. done.
  - apply u32_range.
  - apply (tcp_frame_of_segment (proxy w4) id0 id1 c 0x12 []); [done|done|range_tac|constructor|done].
  - rewrite tcp_conn_upd_same by (done || lia).
    change (proxy (push_calls _ w4)) with (proxy w4). by rewrite Hcs.
  - done.
Qed.

Lemma u64_small x : 0 ≤ x < 2 ^ 64 → u64 x = x.
Proof. apply Z.mod_small. Qed.
Lemma tcp_hdr_len_range buf : 0 ≤ tcp_hdr_len buf ≤ 60.
Proof.
  unfold tcp_hdr_len. pose proof (land_bound_r 4 (byte_at buf 46 >>> 4) 0x0F). lia.
Qed.

(** C37. Data on an established connection is relayed: the payload bytes, exactly those
    between the end of the TCP header and the end of the packet, are sent on the
    connection's socket, and the Xbox gets a bare ACK, with valid checksums, for
    the sequence number after them. *)
Theorem tcp_data_relayed buf size w :
  wf_proxy (proxy w) → tcp_packet buf size → nvnet_proxy_enabled (proxy w) = true →
  truthy (byte_at buf 47 &&& 0x02) = false → truthy (byte_at buf 47 &&& 0x01) = false →
  let idx := lookup_flow buf (proxy w) in
  let c := tcp_conn idx (proxy w) in
  0 ≤ idx → tcp_conn_t.state c = 2 → 34 + tcp_hdr_len buf < size ≤ 2 ^ 15 →
  let n := size - 34 - tcp_hdr_len buf in
  let c' := c <| tcp_conn_t.ack_out := u32 (bswap32 (of_le (slice 38 4 buf)) + n) |> in
  ∃ f w1, answers (handle_tcp_packet buf size) w 1 f 54 w1 ∧
    is_segment f (tcp_view_of (proxy w) c' 0x10 []) ∧
    tcp_conn idx (proxy w1) = c' ∧
    trace w1 = [h_rand; h_rand; h_send (tcp_conn_t.socket_fd c) (slice (34 + tcp_hdr_len buf) n buf)]
               ++ trace w.
Proof.
  intros Hw Hpk He Hsyn Hfin idx c Hi Hst Hsz n c'. pose proof (tcp_hdr_len_range buf) as Hh.
  assert (Hi64 : idx < 64).
  { pose proof (first_index_nonneg (tcp_match (field16 buf 34) (of_le (slice 30 4 buf)) (field16 buf 36))
                  (tcp_conns (proxy w)) 0). rewrite (wp_tcp_len _ Hw) in *. unfold idx, lookup_flow. lia. }
  pose proof Hpk as (Hb & Hs & _).
  assert (Hn : f_payload_len (fields_of buf size) = n).
  { unfold n. cbn. rewrite u64_small; lia. }
  set (w2 := push_calls [h_send (tcp_conn_t.socket_fd c) (slice (34 + tcp_hdr_len buf) n buf)] w).
  set (g := λ c : tcp_conn_t.t, c <| tcp_conn_t.ack_out := u32 (bswap32 (of_le (slice 38 4 buf)) + n) |>).
  set (w3 := upd_tcp_conn idx g w2).
  assert (Hc : wf_tcp c) by (by apply wf_tcp_conn).
  assert (Hw3 : wf_proxy (proxy w3)).
  { apply wf_upd_tcp; [done|intros d []; split; cbn; try done; apply u32_range|done]. }
  destruct (send_tcp_run idx 0x10 [] w3 Hw3) as (id0 & id1 & Ha); [done|].
  assert (Hcs : tcp_conn idx (proxy w3) = c') by (by apply tcp_conn_upd_same).
  rewrite Hcs in Ha.
  assert (Hc' : wf_tcp c') by (destruct Hc; split; cbn; try done; apply u32_range).
  exists (tcp_frame_of (proxy w3) id0 id1 c' 0x10 []),
    (upd_tcp_conn idx (advance_seq 0x10 []) (push_calls [h_rand; h_rand] w3)).
  split_and!.
  - destruct (run_handle_tcp buf size w Hpk He) as (k & Hrun & Hk).
    unfold answers. rewrite Hrun, Hk. cbv zeta. fold idx. rewrite Hn.
    change (f_flags (fields_of buf size)) with (byte_at buf 47). rewrite Hsyn, Hfin.
    replace (idx <? 0) with false by lia. eapply answers_after; [reflexivity|]. fold c. rewrite Hst.
    cbn [Z.eqb Pos.eqb]. rewrite andb_false_r. cbn [whenM].
    eapply answers_after; [reflexivity|]. eapply answers_after; [reflexivity|]. fold c. rewrite Hst.
    replace ((0 <? n) && (2 =? 2)) with true by lia. cbn [whenM].
    assert (Hbody : answers
      (payload ← rd buf (f_payload_off (fields_of buf size)) n;
       syscall (h_send (tcp_conn_t.socket_fd c) payload);;
       upd_tcp idx (λ c, c <| tcp_conn_t.ack_out := u32 (f_seq (fields_of buf size) + n) |>);;
       send_tcp_to_xbox idx 0x10 []) w tt (tcp_frame_of (proxy w3) id0 id1 c' 0x10 []) 54
      (upd_tcp_conn idx (advance_seq 0x10 []) (push_calls [h_rand; h_rand] w3))).
    { eapply answers_after; [apply run_rd; cbn; lia|].
      do 2 (eapply answers_after; [reflexivity|]). exact Ha. }
    eapply answers_then; [exact Hbody|]. done.
  - apply (tcp_frame_of_segment (proxy w3) id0 id1 c' 0x10 []); [done|done|range_tac|constructor|done].
  - rewrite tcp_conn_upd_same by (done || lia).
    change (proxy (push_calls _ w3)) with (proxy w3). rewrite Hcs. unfold advance_seq.
    change (seq_space 0x10 []) with 0. destruct Hc' as [_ _ _ _ Hseq _ _]. revert Hseq.
    destruct c' as [? ? ? ? ? ? seqv ? ? ?]. unfold field_update. cbn -[u32]. intros Hseq.
    by rewrite Z.add_0_r, u32_id.
  - done.
Qed.

(** A FIN without data on a known connection closes it: the Xbox is answered with
    FIN+ACK for its sequence number plus one, then the connection's socket is
    closed and its entry freed. *)
Theorem tcp_fin_closes buf size w :
  wf_proxy (proxy w) → tcp_packet buf size → nvnet_proxy_enabled (proxy w) = true →
  truthy (byte_at buf 47 &&& 0x02) = false → truthy (byte_at buf 47 &&& 0x01) = true →
  let idx := lookup_flow buf (proxy w) in
  let c := tcp_conn idx (proxy w) in
  0 ≤ idx → tcp_conn_t.state c = 2 → size = 34 + tcp_hdr_len buf →
  let c' := c <| tcp_conn_t.ack_out := u32 (bswap32 (of_le (slice 38 4 buf)) + 1) |> in
  ∃ f w1, is_segment f (tcp_view_of (proxy w) c' 0x11 []) ∧
    handle_tcp_packet buf size w =
      match to_guest f 54 w1 with
      | Ok (_, w2) => Ok (1, upd_tcp_conn idx (λ c, c <| tcp_conn_t.active := false |>)
                               (push_calls [h_close (tcp_conn_t.socket_fd c)] w2))
      | Fault e => Fault e
      end.
Proof.
  intros Hw Hpk He Hsyn Hfin idx c Hi Hst Hsz c'. pose proof (tcp_hdr_len_range buf) as Hh.
  assert (Hi64 : idx < 64).
  { pose proof (first_index_nonneg (tcp_match (field16 buf 34) (of_le (slice 30 4 buf)) (field16 buf 36))
                  (tcp_conns (proxy w)) 0). rewrite (wp_tcp_len _ Hw) in *. unfold idx, lookup_flow. lia. }
  assert (Hn : f_payload_len (fields_of buf size) = 0).
  { cbn. rewrite u64_small; lia. }
  set (g := λ c : tcp_conn_t.t, c <| tcp_conn_t.ack_out := u32 (bswap32 (of_le (slice 38 4 buf)) + 1) |>).
  set (w3 := upd_tcp_conn idx g w).
  assert (Hc' : wf_tcp c').
  { destruct (wf_tcp_conn idx _ Hw). split; cbn; try done; apply u32_range. }
  assert (Hw3 : wf_proxy (proxy w3)).
  { apply wf_upd_tcp; [done|intros d []; split; cbn; try done; apply u32_range|done]. }
  destruct (send_tcp_run idx 0x11 [] w3 Hw3) as (id0 & id1 & Ha); [done|].
  assert (Hcs : tcp_conn idx (proxy w3) = c') by (by apply tcp_conn_upd_same).
  rewrite Hcs in Ha. set (f := tcp_frame_of _ _ _ _ _ _) in Ha. set (w1 := upd_tcp_conn idx _ _) in Ha.
  exists f, w1. split.
  { apply (tcp_frame_of_segment (proxy w3) id0 id1 c' 0x11 []); [done|done|range_tac|constructor|done]. }
  destruct (run_handle_tcp buf size w Hpk He) as (k & Hrun & Hk).
  rewrite Hrun, Hk. cbv zeta. fold idx. rewrite Hn.
  change (f_flags (fields_of buf size)) with (byte_at buf 47). rewrite Hsyn, Hfin.
  replace (idx <? 0) with false by lia. erewrite run_bind by reflexivity. fold c. rewrite Hst.
  cbn [Z.eqb Pos.eqb]. rewrite andb_false_r. cbn [whenM].
  erewrite run_bind by reflexivity. erewrite run_bind by reflexivity. cbn [Z.ltb Z.compare andb whenM].
  erewrite run_bind by reflexivity. eapply run_bind_match.
  { erewrite run_bind by reflexivity. apply (bind_answers _ _ _ _ _ _ _ Ha). }
  intros w2 Hp2. assert (Hfd : tcp_conn_t.socket_fd (tcp_conn idx (proxy w2)) = tcp_conn_t.socket_fd c).
  { rewrite Hp2. unfold w1. rewrite tcp_conn_upd_same by (done || lia).
    change (proxy (push_calls _ w3)) with (proxy w3). by rewrite Hcs. }
  erewrite run_bind; [|erewrite run_bind by reflexivity; rewrite Hfd; reflexivity]. done.
Qed.

(** ** UDP *)

(** A UDP packet from the Xbox to a port other than DHCP's, whose length field is
    consistent, is relayed without fault: the handler either declines it (table
    full or no socket) or sends exactly the datagram's payload to the packet's
    destination, as its last host call, on the socket of an active table entry
    for that flow. *)
Theorem udp_relayed buf size w :
  wf_proxy (proxy w) → bytes buf → 42 ≤ size ≤ blen buf → nvnet_proxy_enabled (proxy w) = true →
  field16 buf 12 = 0x0800 → byte_at buf 23 = 17 → field16 buf 36 ≠ 67 →
  let n := field16 buf 38 - 8 in
  0 ≤ n → 42 + n ≤ blen buf →
  let dst_ip := of_le (slice 30 4 buf) in
  ∃ r w', handle_udp_packet buf size w = Ok (r, w') ∧ wf_proxy (proxy w') ∧
    (r = 0 ∨
     r = 1 ∧ ∃ i t, 0 ≤ i < 32 ∧
       let c := udp_conn i (proxy w') in
       udp_conn_t.active c = true ∧ udp_key c = (field16 buf 34, dst_ip, field16 buf 36) ∧
       trace w' = h_sendto (udp_conn_t.socket_fd c) (slice 42 n buf) dst_ip (field16 buf 36) :: t).
Proof.
  intros Hw Hb Hs He Het Hpr Hport n Hn0 Hn dst_ip. apply neq_eqb in Hport.
  unfold handle_udp_packet. run1. rewrite He. replace (size <? 42) with false by lia. cbn [negb orb].
  run1. rewrite Het. cbn [Z.eqb Pos.eqb negb]. run1. rewrite Hpr. cbn [Z.eqb Pos.eqb negb].
  run1. fold (field16 buf 36). change DHCP_SERVER_PORT with 67. rewrite Hport.
  run1. run1. cbv zeta. run1. fold (field16 buf 34) (field16 buf 38) dst_ip.
  assert (Hu16 : ∀ i, is_u16 (field16 buf i)) by (intros; by apply be16_u16).
  assert (Hip : is_u32 dst_ip) by (apply le4_u32; [done|lia|lia]).
  pose proof (find_or_create_run (λ _, False) (field16 buf 34) dst_ip (field16 buf 36) w Hw
                (Hu16 34) Hip (Hu16 36)) as Hf.
  apply wp_run in Hf as (i & w1 & Hrun & Hw1 & Hi). erewrite run_bind by exact Hrun.
  destruct Hi as [->|(Hi & Hact & Hkey)]; [by do 2 eexists; split; [reflexivity|]; split; [done|left]|].
  replace (i <? 0) with false by lia. run1.
  assert (Hlen : u64 (field16 buf 38 - 8) = n).
  { pose proof (Hu16 38) as H38. unfold is_u16 in H38. apply u64_small. unfold n. lia. }
  rewrite Hlen. erewrite run_bind; [|apply run_rd; lia]. erewrite run_bind by reflexivity.
  do 2 eexists. split; [reflexivity|]. split; [done|]. right. split; [done|].
  exists i, (trace w1). done.
Qed.

(** C39. A datagram waiting on an active UDP entry: if its payload fits an Ethernet
    frame (up to 1472 bytes) the guest gets one frame from the entry's remote
    address and port carrying exactly that payload; a longer one, which the
    2048-byte receive buffer accepts, overruns the 1514-byte frame buffer. *)
Theorem poll_udp_one_bounds i w d :
  wf_proxy (proxy w) → let c := udp_conn i (proxy w) in
  udp_conn_t.active c = true →
  let call := h_recvfrom (udp_conn_t.socket_fd c) 2048 in
  recv_bytes (os_ret (trace w) call) 2048 = Some d → 0 < blen d →
  if blen d <=? 1472 then
    ∃ f, answers (poll_udp_one i) w tt f (42 + blen d) (push_calls [call] w) ∧
      slice 42 (blen d) f = d ∧ slice 0 6 f = nvnet_xbox_mac (proxy w) ∧
      of_le (slice 26 4 f) = udp_conn_t.remote_ip c ∧ of_be (slice 34 2 f) = udp_conn_t.remote_port c ∧
      of_be (slice 36 2 f) = udp_conn_t.xbox_port c ∧ ip_checksum (slice 14 20 f) = 0
  else poll_udp_one i w = Fault OutOfBounds.
Proof.
  intros Hw c Hact call Hrecv Hd. pose proof (recv_bytes_spec _ _ _ Hrecv) as [Hb Hl].
  destruct (Z.leb_spec (blen d) 1472) as [Hfit|Hbig].
  - eexists. split.
    + unfold poll_udp_one. eapply answers_after; [reflexivity|]. fold c. rewrite Hact. cbn [negb].
      eapply answers_after; [reflexivity|]. fold call. rewrite Hrecv.
      destruct d as [|b d]; [done|]. eapply answers_after; [reflexivity|].
      eapply answers_after; [apply run_inBounds; lia|].
      replace (14 + (20 + 8 + blen (b :: d))) with (42 + blen (b :: d)) by lia.
      apply answers_to_guest.
    + cbn [proxy push_calls]. destruct (wf_udp_conn i _ Hw). destruct Hw.
      destruct (udp_frame_wellformed (nvnet_xbox_mac (proxy w)) (nvnet_host_mac (proxy w))) with
        (rip := udp_conn_t.remote_ip c) (rport := udp_conn_t.remote_port c)
        (xip := udp_conn_t.xbox_ip c) (xport := udp_conn_t.xbox_port c) (payload := d)
        as (He & _ & _ & Hrip & _ & Hrp & Hxp & _ & _ & Hpl & Hck); try done.
      split_and!; try done. rewrite <-(slice_slice 0 14 0 6) by lia.
      etransitivity; [apply f_equal; exact He|].
      destruct (six_bytes (nvnet_xbox_mac (proxy w))) as (?&?&?&?&?&?&->); [done|].
      destruct (six_bytes (nvnet_host_mac (proxy w))) as (?&?&?&?&?&?&->); done.
  - unfold poll_udp_one. erewrite run_bind by reflexivity. fold c. rewrite Hact. cbn [negb].
    erewrite run_bind by reflexivity. fold call. rewrite Hrecv. destruct d as [|b d]; [done|].
    erewrite run_bind by reflexivity. unfold mbind at 1, M_bind at 1, inBounds.
    by replace (42 + blen (b :: d) <=? 1514) with false by lia.
Qed.
End runs.

(** ** Witnesses: concrete packets against a host that answers every call alike *)

#[local] Existing Instance strict_guest.

Ltac bytes_const := repeat constructor; vm_compute; try discriminate; reflexivity.
Ltac le_const := vm_compute; repeat split; congruence.

Lemma send_packet_no_leak_witness :
  ∃ w', @send_packet (const_host 5) strict_guest demo_syn 54 demo_proxy_world = Ok (tt, w') ∧
    backend_calls (trace w') = [].
Proof.
  eexists. split; [vm_compute; reflexivity|].
  apply (@send_packet_no_leak (const_host 5) strict_guest demo_syn 54 demo_proxy_world).
  - reflexivity.
  - vm_compute. reflexivity.
Defined.

(** An IPv4 datagram to port 80 goes to the backend while the proxy is off. *)
Lemma send_packet_bypass_demo :
  let buf := replicate 12 7 ++ [8; 0; 0x45] ++ replicate 8 0 ++ [17] ++ replicate 100 1 in
  @send_packet (const_host 5) strict_guest buf 60 zero_world =
    Ok (tt, zero_world <| trace ::= cons (h_qemu_send_packet (slice 0 60 buf)) |>).
Proof. apply (@run_send_packet_bypass (const_host 5) strict_guest); [done|le_const|left; le_const|reflexivity]. Qed.

(** An ARP request for 10.0.0.1 from 10.0.0.5. *)
Definition demo_arp : list Z :=
  replicate 6 0xFF ++ replicate 6 2 ++ [0x08; 0x06; 0; 1; 8; 0; 6; 4; 0; 1] ++ replicate 6 2 ++
  [10; 0; 0; 5] ++ replicate 6 0 ++ [10; 0; 0; 1].

Lemma handle_arp_packet_spec_witness :
  ∃ w', @handle_arp_packet strict_guest demo_arp 42 demo_proxy_world = Ok (1, w') ∧
    nvnet_xbox_mac (proxy w') = replicate 6 2.
Proof.
  rewrite (@handle_arp_packet_spec strict_guest demo_arp 42 demo_proxy_world);
    [eexists; split; [vm_compute; reflexivity|reflexivity]| | | | |]; le_const || reflexivity.
Defined.

(** A DHCP DISCOVER: options 53 (type 1), 55 (parameter list) and the end mark. *)
Definition demo_dhcp_options : list (Z * list Z) := [(55, [1; 3; 6]); (53, [1])].
Definition demo_dhcp : list Z :=
  replicate 6 0xFF ++ replicate 6 2 ++ [0x08; 0x00] ++
  [0x45; 0; 0; 0; 0; 0; 0; 0; 64; 17; 0; 0] ++ replicate 4 0 ++ replicate 4 0xFF ++
  [0; 68; 0; 67; 0; 0; 0; 0] ++
  [1; 1; 6; 0; 0xAA; 0xBB; 0xCC; 0xDD] ++ replicate 228 0 ++ [99; 130; 83; 99] ++
  encode_options demo_dhcp_options.

Lemma find_msg_type_correct_witness :
  find_msg_type (options_fuel 291) demo_dhcp 291 282 zero_world = Ok (1, zero_world).
Proof.
  destruct (find_msg_type_correct demo_dhcp 291 zero_world) as [_ Ho].
  - bytes_const.
  - le_const.
  - apply (Ho demo_dhcp_options); [repeat constructor|reflexivity].
Defined.

Lemma handle_dhcp_packet_answers_witness :
  ∃ f, answers (@handle_dhcp_packet (const_host 5) strict_guest demo_dhcp 291) demo_proxy_world 1 f 316
         (set_xbox_mac (replicate 6 2) demo_proxy_world) ∧ slice 46 4 f = [0xAA; 0xBB; 0xCC; 0xDD].
Proof.
  destruct (@handle_dhcp_packet_answers (const_host 5) strict_guest demo_dhcp 291 demo_dhcp_options
              demo_proxy_world) as (f & Ha & _ & Hx & _).
  - apply wf_demo_proxy.
  - bytes_const.
  - le_const.
  - reflexivity.
  - reflexivity.
  - reflexivity.
  - reflexivity.
  - reflexivity.
  - repeat constructor.
  - reflexivity.
  - left. reflexivity.
  - exists f. split; [exact Ha|exact Hx].
Defined.

Lemma tcp_packet_demo_syn : tcp_packet demo_syn 54.
Proof. split; [apply bytes_demo_syn|]. le_const. Qed.

Lemma tcp_syn_opens_witness :
  ∃ isn f w1, answers (@handle_tcp_packet (const_host 5) strict_guest demo_syn 54) demo_proxy_world 1 f 54 w1 ∧
    is_u32 isn ∧ tcp_conn_t.ack_out (tcp_conn 0 (proxy w1)) = 100.
Proof.
  destruct (@tcp_syn_opens (const_host 5) strict_guest demo_syn 54 demo_proxy_world 0)
    as (isn & f & w1 & Ha & Hi & _ & Hc & _).
  - apply wf_demo_proxy.
  - apply tcp_packet_demo_syn.
  - reflexivity.
  - reflexivity.
  - reflexivity.
  - reflexivity.
  - lia.
  - vm_compute. congruence.
  - exists isn, f, w1. split; [exact Ha|]. split; [exact Hi|]. rewrite Hc. reflexivity.
Defined.

(** The flow of [demo_syn], established on socket 5. *)
Definition demo_conn : tcp_conn_t.t := tcp_conn_t.mk true 5 0x0500000A 1024 0x08080808 80 7 100 100 2.
Definition demo_conn_world : World := upd_tcp_conn 3 (λ _, demo_conn) demo_proxy_world.
Definition demo_segment (flags : Z) (payload : list Z) : list Z :=
  take 47 demo_syn ++ [flags] ++ drop 48 demo_syn ++ payload.

Lemma wf_demo_conn : wf_proxy (proxy demo_conn_world).
Proof.
  apply wf_new_tcp; [apply wf_demo_proxy| |].
  - split; cbn; try (unfold is_u16, is_u32; lia).
  - intros j d Hj _ Ha. change (replicate 64 tcp_conn_t.zero !! j = Some d) in Hj.
    apply lookup_replicate in Hj as [-> _]. discriminate Ha.
Qed.

Lemma send_tcp_to_xbox_spec_witness :
  ∃ f w1, answers (@send_tcp_to_xbox (const_host 5) strict_guest 3 0x18 [1; 2]) demo_conn_world tt f 56 w1 ∧
    tcp_conn_t.seq_out (tcp_conn 3 (proxy w1)) = 9.
Proof.
  destruct (@send_tcp_to_xbox_spec (const_host 5) strict_guest 3 0x18 [1; 2] demo_conn_world)
    as (f & w1 & Ha & _ & Hc & _).
  - apply wf_demo_conn.
  - lia.
  - unfold is_u8. lia.
  - bytes_const.
  - vm_compute. congruence.
  - exists f, w1. split; [exact Ha|]. rewrite Hc. reflexivity.
Defined.

Lemma tcp_data_relayed_witness :
  ∃ f w1, answers (@handle_tcp_packet (const_host 5) strict_guest (demo_segment 0x18 [9; 8; 7]) 57)
            demo_conn_world 1 f 54 w1 ∧
    trace w1 = [h_rand; h_rand; h_send 5 [9; 8; 7]].
Proof.
  destruct (@tcp_data_relayed (const_host 5) strict_guest (demo_segment 0x18 [9; 8; 7]) 57 demo_conn_world)
    as (f & w1 & Ha & _ & _ & Ht).
  - apply wf_demo_conn.
  - split; [bytes_const|le_const].
  - reflexivity.
  - reflexivity.
  - reflexivity.
  - vm_compute. congruence.
  - reflexivity.
  - le_const.
  - exists f, w1. split; [exact Ha|exact Ht].
Defined.

Lemma tcp_fin_closes_witness :
  ∃ w', @handle_tcp_packet (const_host 5) strict_guest (demo_segment 0x11 []) 54 demo_conn_world = Ok (1, w') ∧
    tcp_conn_t.active (tcp_conn 3 (proxy w')) = false.
Proof.
  destruct (@tcp_fin_closes (const_host 5) strict_guest (demo_segment 0x11 []) 54 demo_conn_world)
    as (f & w1 & _ & Hr).
  - apply wf_demo_conn.
  - split; [bytes_const|le_const].
  - reflexivity.
  - reflexivity.
  - reflexivity.
  - vm_compute. congruence.
  - reflexivity.
  - reflexivity.
  - destruct (to_guest f 54 w1) as [[a w2]|e].
    + eexists. split; [vm_compute; reflexivity|vm_compute; reflexivity].
    + exfalso. revert Hr. vm_compute. discriminate.
Defined.

(** A datagram of three bytes to 8.8.8.8:53. *)
Definition demo_udp : list Z :=
  replicate 6 1 ++ replicate 6 2 ++ [0x08; 0x00] ++
  [0x45; 0; 0; 31; 0; 0; 0; 0; 64; 17; 0; 0; 10; 0; 0; 5; 8; 8; 8; 8] ++
  [4; 0; 0; 53; 0; 11; 0; 0] ++ [1; 2; 3].

Lemma udp_relayed_witness :
  ∃ r w', @handle_udp_packet (const_host 5) demo_udp 45 demo_proxy_world = Ok (r, w') ∧
    wf_proxy (proxy w').
Proof.
  destruct (@udp_relayed (const_host 5) demo_udp 45 demo_proxy_world)
    as (r & w' & Hr & Hw & _).
  - apply wf_demo_proxy.
  - bytes_const.
  - le_const.
  - reflexivity.
  - reflexivity.
  - reflexivity.
  - vm_compute. discriminate.
  - vm_compute. congruence.
  - vm_compute. congruence.
  - exists r, w'. split; [exact Hr|exact Hw].
Defined.

(** A host with a 1500-byte datagram waiting on every socket. *)
Definition datagram_host (n : nat) : HostOS := λ _ _, mkHostRet 1 (replicate n 7) 0 0.
Definition demo_udp_world : World :=
  demo_proxy_world <| proxy ::= λ p, p <| udp_conns ::= alter (λ _, udp_conn_t.mk true 6 0x0500000A 1024 0x08080808 53 0) 0%nat |> |>.

Lemma wf_demo_udp : wf_proxy (proxy demo_udp_world).
Proof.
  apply wf_new_udp; [apply wf_demo_proxy| |].
  - split; cbn; unfold is_u16, is_u32; lia.
  - intros j d Hj _ Ha. change (replicate 32 udp_conn_t.zero !! j = Some d) in Hj.
    apply lookup_replicate in Hj as [-> _]. discriminate Ha.
Qed.

Lemma poll_udp_one_bounds_witness :
  @poll_udp_one (datagram_host 1500) strict_guest 0 demo_udp_world = Fault OutOfBounds.
Proof.
  apply (@poll_udp_one_bounds (datagram_host 1500) strict_guest 0 demo_udp_world (replicate 1500 7)).
  - apply wf_demo_udp.
  - reflexivity.
  - vm_compute. reflexivity.
  - vm_compute. reflexivity.
Defined.
