(* ===== verification/NvnetDev.v ===== *)
(** * NvnetDev: transmission, link management and the register interface

    Models nvnet.c:1485-1594 (transmit ring), 1680-1764 (link and timers),
    1775-1826 (PHY and MDIO), 1828-1943 (MMIO and I/O handlers) and 1987-2082
    (reset and migration), on top of the receive path and the proxy. *)

From S2P Require Import Prelude NvnetState Checksum NvnetRx NvnetFrames NvnetProxy.

(** ** The device as the proxy's guest interface *)

Lemma dma_keeps buf size :
  keeps (λ w, (proxy w, trace w, tx_dma_buf (dev w), tx_dma_buf_offset (dev w)))
    (dma_packet_to_guest buf size).
Proof. apply keeps_preserves. intros x. by apply preserves_dma_packet_to_guest. Qed.

#[export] Instance nvnet_guest : GuestRx :=
  {| to_guest := dma_packet_to_guest; to_guest_frame := dma_keeps |}.

Section device.
Context `{HostOS}.

(** ** Transmission *)

Definition tx_enabled : M World bool :=
  v ← get_reg NVNET_TRANSMITTER_CONTROL; mret (truthy (v &&& NVNET_TRANSMITTER_CONTROL_START)).

Definition can_transmit : M World bool :=
  tx_en ← tx_enabled;
  dma_en ← dma_enabled;
  link_en ← link_up;
  mret (tx_en && dma_en && link_en).

Definition update_current_tx_ring_desc_addr : M World Z :=
  base_desc_addr ← get_reg NVNET_TX_RING_PHYS_ADDR;
  ring_size ← get_tx_ring_size;
  let max_desc_addr := u32 (base_desc_addr + ring_size * sizeof_RingDesc) in
  cur_desc_addr ← get_reg NVNET_TX_RING_NEXT_DESC_PHYS_ADDR;
  let cur_desc_addr :=
    if (cur_desc_addr <? base_desc_addr) || (cur_desc_addr + sizeof_RingDesc >? max_desc_addr)
    then base_desc_addr else cur_desc_addr in
  set_reg NVNET_TX_RING_CURRENT_DESC_PHYS_ADDR cur_desc_addr;;
  mret cur_desc_addr.

Definition advance_next_tx_ring_desc_addr : M World unit :=
  base_desc_addr ← get_reg NVNET_TX_RING_PHYS_ADDR;
  ring_size ← get_tx_ring_size;
  let max_desc_addr := u32 (base_desc_addr + ring_size * sizeof_RingDesc) in
  cur_desc_addr ← get_reg NVNET_TX_RING_CURRENT_DESC_PHYS_ADDR;
  let next_desc_addr := u32 (cur_desc_addr + sizeof_RingDesc) in
  let next_desc_addr :=
    if next_desc_addr >=? max_desc_addr then base_desc_addr else next_desc_addr in
  set_reg NVNET_TX_RING_NEXT_DESC_PHYS_ADDR next_desc_addr.

Definition TX_STATUS_BITS : Z :=
  NV_TX_VALID ||| NV_TX_RETRYERROR ||| NV_TX_DEFERRED ||| NV_TX_CARRIERLOST |||
  NV_TX_LATECOLLISION ||| NV_TX_UNDERFLOW ||| NV_TX_ERROR.

(** The bytes of a fragment appended to the transmit buffer. *)
Definition gather_fragment (desc : RingDesc) : M World unit :=
  let length := u16 (desc_length desc + 1) in
  off ← get_dev tx_dma_buf_offset;
  assertM (u32 (off + length) <=? TX_ALLOC_BUFSIZE);;
  data ← pci_dma_read (buffer_addr desc) length;
  buf ← get_dev tx_dma_buf;
  buf' ← wr buf off data;
  upd_dev (λ s, s <| tx_dma_buf := buf' |> <| tx_dma_buf_offset := u32 (off + length) |>).

Definition send_gathered : M World unit :=
  buf ← get_dev tx_dma_buf;
  off ← get_dev tx_dma_buf_offset;
  send_packet buf off;;
  upd_dev (λ s, s <| tx_dma_buf_offset := 0 |>).

(** The loop of [dma_packet_from_guest] from iteration [i]; the result is
    [packet_sent]. *)
Fixpoint tx_loop (fuel : nat) (i : Z) (packet_sent : bool) : M World bool :=
  match fuel with
  | O => raise OutOfFuel
  | S fuel =>
      n ← get_tx_ring_size;
      if i <? n then
        cur_desc_addr ← update_current_tx_ring_desc_addr;
        desc ← load_ring_desc cur_desc_addr;
        if negb (truthy (flags desc &&& NV_TX_VALID)) then mret packet_sent
        else
          gather_fragment desc;;
          let is_last_packet := truthy (flags desc &&& NV_TX_LASTPACKET) in
          whenM is_last_packet send_gathered;;
          store_ring_desc cur_desc_addr (desc <| flags ::= λ f, f &&& Z.lnot TX_STATUS_BITS |>);;
          advance_next_tx_ring_desc_addr;;
          if is_last_packet then mret true else tx_loop fuel (i + 1) packet_sent
      else mret packet_sent
  end.

Definition dma_packet_from_guest : M World unit :=
  ok ← can_transmit;
  if negb ok then mret tt
  else
    set_dma_idle false;;
    n ← get_tx_ring_size;
    packet_sent ← tx_loop (S (Z.to_nat n)) 0 false;
    set_dma_idle true;;
    whenM packet_sent (set_intr_status NVNET_IRQ_STATUS_TX).

(** ** Link *)

Definition upd_phy (i : Z) (f : Z → Z) : M World unit :=
  upd_dev (λ s, set_phy_reg i (f (phy_reg i s)) s).

Definition update_regs_on_link_down : M World unit :=
  upd_phy MII_BMSR (λ v, v &&& not32 MII_BMSR_LINK_ST);;
  upd_phy MII_BMSR (λ v, v &&& not32 MII_BMSR_AN_COMP);;
  upd_phy MII_ANLPAR (λ v, v &&& not32 MII_ANLPAR_ACK);;
  and_reg NVNET_ADAPTER_CONTROL (not32 NVNET_ADAPTER_CONTROL_LINKUP).

Definition set_link_down : M World unit :=
  update_regs_on_link_down;; set_mii_intr_status NVNET_MII_STATUS_LINKCHANGE.

Definition update_regs_on_link_up : M World unit :=
  upd_phy MII_BMSR (λ v, v ||| MII_BMSR_LINK_ST);;
  or_reg NVNET_ADAPTER_CONTROL NVNET_ADAPTER_CONTROL_LINKUP.

Definition set_link_up : M World unit :=
  update_regs_on_link_up;; set_mii_intr_status NVNET_MII_STATUS_LINKCHANGE.

Definition restart_autoneg : M World unit :=
  now ← sysval h_clock_ms;
  upd_dev (λ s, s <| autoneg_timer_deadline := Some (now + AUTONEG_DURATION_MS) |>).

Definition autoneg_done : M World unit :=
  upd_phy MII_ANLPAR (λ v, v ||| MII_ANLPAR_ACK);;
  upd_phy MII_BMSR (λ v, v ||| MII_BMSR_AN_COMP);;
  set_link_up.

Definition autoneg_timer : M World unit :=
  down ← get_dev link_down;
  if negb down then autoneg_done else mret tt.

Definition proxy_poll_timer_cb : M World unit :=
  enabled ← get_proxy nvnet_proxy_enabled;
  whenM enabled (proxy_poll_rx;; arm_proxy_poll_timer).

Definition have_autoneg : M World bool :=
  get_dev (λ s, truthy (phy_reg MII_BMCR s &&& MII_BMCR_AUTOEN)).

Definition autoneg_incomplete : M World bool :=
  get_dev (λ s, negb (truthy (phy_reg MII_BMSR s &&& MII_BMSR_AN_COMP))).

Definition nvnet_set_link_status : M World unit :=
  down ← get_dev link_down;
  if (down : bool) then set_link_down
  else
    a ← have_autoneg;
    b ← autoneg_incomplete;
    if a && b then restart_autoneg else set_link_up.

(** ** PHY registers over MDIO *)

Definition phy_reg_read (reg : Z) : M World Z :=
  get_dev (λ s, if reg <? 6 then u16 (phy_reg reg s) else 0).

Definition phy_reg_write (reg value : Z) : M World unit :=
  if reg <? 6 then upd_dev (set_phy_reg reg (u16 value)) else mret tt.

Definition mdio_read : M World unit :=
  mdio_addr ← get_reg NVNET_MDIO_ADDR;
  let phy_addr := u8 (GET_MASK mdio_addr NVNET_MDIO_ADDR_PHYADDR) in
  let phy_reg := u8 (GET_MASK mdio_addr NVNET_MDIO_ADDR_PHYREG) in
  mdio_data ← (if phy_addr =? PHY_ADDR then phy_reg_read phy_reg else mret 0xFFFFFFFF);
  set_reg NVNET_MDIO_DATA mdio_data;;
  and_reg NVNET_MDIO_ADDR (not32 NVNET_MDIO_ADDR_INUSE).

Definition mdio_write : M World unit :=
  mdio_addr ← get_reg NVNET_MDIO_ADDR;
  mdio_data ← get_reg NVNET_MDIO_DATA;
  let phy_addr := u8 (GET_MASK mdio_addr NVNET_MDIO_ADDR_PHYADDR) in
  let phy_reg := u8 (GET_MASK mdio_addr NVNET_MDIO_ADDR_PHYREG) in
  (if phy_addr =? PHY_ADDR then phy_reg_write phy_reg mdio_data else mret tt);;
  and_reg NVNET_MDIO_ADDR (not32 NVNET_MDIO_ADDR_INUSE).

(** ** MMIO and I/O *)

Definition nvnet_mmio_read (addr size : Z) : M World Z := get_reg_ext addr size.

Definition mmio_tx_rx_control (val : Z) : M World unit :=
  set_reg_with_mask NVNET_TX_RX_CONTROL (u32 val) (not32 NVNET_TX_RX_CONTROL_IDLE);;
  whenM (truthy (val &&& NVNET_TX_RX_CONTROL_KICK)) dma_packet_from_guest;;
  whenM (truthy (val &&& NVNET_TX_RX_CONTROL_RESET)) (
    reset_descriptor_ring_pointers;;
    upd_dev (λ s, s <| tx_dma_buf_offset := 0 |>));;
  if truthy (val &&& NVNET_TX_RX_CONTROL_BIT1) then set_reg NVNET_IRQ_STATUS 0
  else if val =? 0 then set_reg NVNET_UNKNOWN_SETUP_REG5 NVNET_UNKNOWN_SETUP_REG5_BIT31
  else mret tt.

Definition nvnet_mmio_write (addr val size : Z) : M World unit :=
  assertM ((addr &&& 3) =? 0);;
  if addr =? NVNET_MDIO_ADDR then
    assertM (size =? 4);;
    set_reg_ext addr val size;;
    if truthy (val &&& NVNET_MDIO_ADDR_WRITE) then mdio_write else mdio_read
  else if addr =? NVNET_TX_RX_CONTROL then mmio_tx_rx_control val
  else if (addr =? NVNET_IRQ_STATUS) || (addr =? NVNET_MII_STATUS) then
    v ← get_reg_ext addr size;
    set_reg_ext addr (v &&& Z.lnot val) size;;
    update_irq
  else if addr =? NVNET_IRQ_MASK then
    set_reg_ext addr val size;;
    update_irq
  else set_reg_ext addr val size.

Definition nvnet_io_read (addr size : Z) : M World Z := mret 0.
Definition nvnet_io_write (addr val size : Z) : M World unit := mret tt.

(** ** Reset and migration *)

Definition phy_reg_init : list Z :=
  [MII_BMCR_FD ||| MII_BMCR_AUTOEN;
   MII_BMSR_AUTONEG ||| MII_BMSR_AN_COMP ||| MII_BMSR_LINK_ST;
   0; 0;
   MII_ANLPAR_10 ||| MII_ANLPAR_10FD ||| MII_ANLPAR_TX ||| MII_ANLPAR_TXFD ||| MII_ANLPAR_T4;
   MII_ANLPAR_10 ||| MII_ANLPAR_10FD ||| MII_ANLPAR_TX ||| MII_ANLPAR_TXFD ||| MII_ANLPAR_T4].

Definition reset_phy_regs : M World unit :=
  upd_dev (λ s, s <| phy_regs := phy_reg_init |>).

Definition nvnet_reset : M World unit :=
  upd_dev (λ s, s <| regs := replicate 1024 0 |>);;
  or_reg NVNET_TX_RX_CONTROL NVNET_TX_RX_CONTROL_IDLE;;
  reset_phy_regs;;
  upd_dev (λ s, s <| tx_dma_buf := replicate 1628 0 |> <| rx_dma_buf := replicate 1628 0 |>
                  <| tx_dma_buf_offset := 0 |> <| autoneg_timer_deadline := None |>);;
  down ← get_dev link_down;
  whenM down update_regs_on_link_down;;
  upd_dev (λ s, s <| tx_ring_index := 0 |> <| rx_ring_index := 0 |>).

(** [x % n] on integers promoted from unsigned types. *)
Definition modM (x n : Z) : M World Z := if n =? 0 then raise DivByZero else mret (x mod n).

Definition nvnet_post_load (version_id : Z) : M World unit :=
  whenM (version_id <? 2) (
    reset_phy_regs;;
    base ← get_reg NVNET_TX_RING_PHYS_ADDR;
    idx ← get_dev tx_ring_index;
    n ← get_tx_ring_size;
    k ← modM idx n;
    set_reg NVNET_TX_RING_NEXT_DESC_PHYS_ADDR (u32 (base + k * sizeof_RingDesc));;
    upd_dev (λ s, s <| tx_ring_index := 0 |>);;
    base ← get_reg NVNET_RX_RING_PHYS_ADDR;
    idx ← get_dev rx_ring_index;
    n ← get_rx_ring_size;
    k ← modM idx n;
    set_reg NVNET_RX_RING_NEXT_DESC_PHYS_ADDR (u32 (base + k * sizeof_RingDesc));;
    upd_dev (λ s, s <| rx_ring_index := 0 |>));;
  upd_dev (λ s, s <| link_down := ((phy_reg MII_BMSR s &&& MII_BMSR_LINK_ST) =? 0) |>);;
  a ← have_autoneg;
  b ← autoneg_incomplete;
  whenM (a && b) (upd_dev (λ s, s <| link_down := false |>);; restart_autoneg).
End device.
