(* ===== verification/NvnetDevSpec.v ===== *)
(** * NvnetDevSpec: invariants of the whole controller

    The invariant of the device and its proxy together, that every entry point
    of the device preserves it, and hence that it holds of every machine
    reachable by a sequence of guest accesses, received packets, timers, link
    changes and resets. *)

From S2P Require Import Prelude NvnetState Checksum NvnetRx NvnetFrames NvnetProxy.
From S2P Require Import NvnetProxySpec NvnetDev.

(** ** The invariant

    Besides well-formedness, the transmit offset stays inside the transmit
    buffer, and a pending unmasked interrupt is never lost: whenever a status bit
    selected by the mask is set, the interrupt line is asserted. *)

Record machine (P : ProxyState → Prop) (w : World) : Prop := {
  mc_proxy : P (proxy w);
  mc_wf : wf_dev (dev w);
  mc_ram : ram_bytes (ram w);
  mc_off : tx_dma_buf_offset (dev w) ≤ TX_ALLOC_BUFSIZE;
  mc_irq : irq_level (dev w) = true → irq (dev w) = true
}.

Section leaves.
Context (P : ProxyState → Prop).
Abbreviation I := (machine P).

(** A register other than the interrupt status and mask. *)
Definition plain_reg (a : Z) : Prop := reg_ok a = true ∧ a ≠ NVNET_IRQ_STATUS ∧ a ≠ NVNET_IRQ_MASK.

Lemma mach_set_reg a v : plain_reg a → preserves I (set_reg a v).
Proof.
  intros (Ha & Hs & Hm) w [Hp Hwf Hr Ho Hi]. unfold wpE. rewrite run_set_reg by done.
  split; cbn; try done; [by apply wf_put_reg|].
  by rewrite irq_level_put_reg by done.
Qed.
Lemma mach_or_reg a v : plain_reg a → preserves I (or_reg a v).
Proof. intros Ha. unfold or_reg. frame. by apply mach_set_reg. Qed.
Lemma mach_and_reg a v : plain_reg a → preserves I (and_reg a v).
Proof. intros Ha. unfold and_reg. frame. by apply mach_set_reg. Qed.
Lemma mach_set_reg_with_mask a v k : plain_reg a → preserves I (set_reg_with_mask a v k).
Proof. intros Ha. unfold set_reg_with_mask. frame. by apply mach_set_reg. Qed.

(** [update_irq] restores the interrupt clause. *)
Lemma mach_update_irq w :
  P (proxy w) → wf_dev (dev w) → ram_bytes (ram w) → tx_dma_buf_offset (dev w) ≤ TX_ALLOC_BUFSIZE →
  wlp update_irq (λ _ w', I w') w.
Proof.
  intros Hp Hwf Hr Ho. unfold wpE. rewrite run_update_irq by done. split; cbn; try done.
  by apply wf_set_irq.
Qed.
Lemma mach_set_intr_status v : preserves I (set_intr_status v).
Proof.
  intros w [Hp Hwf Hr Ho Hi]. unfold set_intr_status. apply wpE_bind. unfold wpE at 1.
  rewrite run_or_reg by done. apply mach_update_irq; try done. by apply wf_put_reg.
Qed.
Lemma mach_set_mii_intr_status v : preserves I (set_mii_intr_status v).
Proof.
  unfold set_mii_intr_status. frame; [by apply mach_or_reg|apply mach_set_intr_status].
Qed.

Lemma mach_dma_write a bs : bytes bs → preserves I (pci_dma_write a bs).
Proof. intros Hb w []. split; try done. by apply ram_bytes_write. Qed.
Lemma mach_store_ring_desc a desc : preserves I (store_ring_desc a desc).
Proof. apply mach_dma_write, bytes_ring_desc_bytes. Qed.

(** What is read from a buffer of bytes is bytes. *)
Lemma mach_rd_bytes {A} buf off len (k : list Z → M World A) :
  bytes buf → (∀ data, bytes data → preserves I (k data)) → preserves I (rd buf off len ≫= k).
Proof.
  intros Hb Hk w Hw. apply wpE_bind. unfold rd. apply wpE_bind. apply wpE_inBounds; [|done].
  intros _. apply wpE_ret, Hk; [by apply bytes_slice|done].
Qed.

Lemma mach_upd_dev f :
  (∀ s, wf_dev s → wf_dev (f s)) → (∀ s, regs (f s) = regs s) → (∀ s, irq (f s) = irq s) →
  (∀ s, tx_dma_buf_offset s ≤ TX_ALLOC_BUFSIZE → tx_dma_buf_offset (f s) ≤ TX_ALLOC_BUFSIZE) →
  preserves I (upd_dev f).
Proof.
  intros Hf Hr Hq Ho w []. split; cbn; auto. unfold irq_level, reg32. by rewrite Hr, Hq.
Qed.
End leaves.

#[export] Hint Extern 1 (plain_reg _) => (split_and!; [reflexivity|discriminate..]) : frame.
#[export] Hint Resolve mach_set_reg mach_or_reg mach_and_reg mach_set_reg_with_mask
  mach_set_intr_status mach_set_mii_intr_status mach_store_ring_desc : frame.

Section paths.
Context (P : ProxyState → Prop).
Abbreviation I := (machine P).

Lemma mach_set_dma_idle b : preserves I (set_dma_idle b).
Proof. unfold set_dma_idle. destruct b; auto with frame. Qed.
Lemma mach_update_current_rx : preserves I update_current_rx_ring_desc_addr.
Proof. unfold update_current_rx_ring_desc_addr, get_rx_ring_size. frame. Qed.
Lemma mach_advance_next_rx : preserves I advance_next_rx_ring_desc_addr.
Proof. unfold advance_next_rx_ring_desc_addr, get_rx_ring_size. frame. Qed.
Lemma mach_load_ring_desc a : preserves I (load_ring_desc a).
Proof. unfold load_ring_desc. frame. Qed.
Hint Resolve mach_set_dma_idle mach_update_current_rx mach_advance_next_rx
  mach_load_ring_desc : frame.
Lemma mach_can_receive : preserves I nvnet_can_receive.
Proof.
  unfold nvnet_can_receive, rx_enabled, dma_enabled, link_up, rx_buf_available. frame.
Qed.
Hint Resolve mach_can_receive : frame.

Lemma mach_dma_packet_to_guest buf size :
  bytes buf → preserves I (dma_packet_to_guest buf size).
Proof.
  intros Hb. unfold dma_packet_to_guest.
  repeat (first [apply mach_rd_bytes; [done|intros ??] | apply mach_dma_write; done | frame_step]).
Qed.
End paths.

#[export] Hint Resolve mach_set_dma_idle mach_update_current_rx mach_advance_next_rx
  mach_load_ring_desc mach_can_receive : frame.

(** ** The invariant through transmission

    [send_packet] runs the proxy; the proxy's own invariant gives the device's,
    as [dma_packet_to_guest] keeps it for every well-formed frame. *)

Section entry_points.
Context `{HostOS}.
Abbreviation I := (machine wf_proxy).

Lemma frame_okb_bytes buf size : frame_okb buf size = true → bytes buf.
Proof.
  unfold frame_okb. rewrite !andb_true_iff. intros [[Hb _] _]. unfold bytes.
  rewrite forallb_forall in Hb. apply Forall_forall. intros x Hx%list_elem_of_In.
  apply Hb in Hx. unfold is_u8. lia.
Qed.

Abbreviation J := (machine (λ _, True)).

Lemma machine_split w : I w ↔ inv J w.
Proof.
  split; [intros []; split; [done|by split]|intros [? []]; by split].
Qed.

Lemma guest_keeps buf size w :
  frame_okb buf size = true → J w → wlp (to_guest buf size) (λ _ w', J w') w.
Proof. intros Hf Hw. by apply mach_dma_packet_to_guest; [eapply frame_okb_bytes|]. Qed.

Lemma mach_ok {A} (m : M World A) : ok (λ _, True) J m (λ _, True) → preserves I m.
Proof.
  intros Hm w Hw%machine_split. eapply wpE_mono; [by apply Hm|].
  by intros a w' [Hw' _]; apply machine_split.
Qed.

Lemma J_proxy w f : J w → J (w <| proxy ::= f |>).
Proof. by intros []. Qed.
Lemma J_trace w f : J w → J (w <| trace ::= f |>).
Proof. by intros []. Qed.
Lemma J_timer w t : J w → J (w <| dev ::= λ s, s <| proxy_poll_timer_deadline := t |> |>).
Proof. intros [? [] ? ? ?]. by split. Qed.

Lemma mach_send_packet buf size :
  bytes buf → size ≤ blen buf → preserves I (send_packet buf size).
Proof.
  intros Hb Hs. apply mach_ok. apply ok_send_packet; try done.
  - apply J_proxy.
  - apply J_trace.
  - apply J_timer.
  - apply guest_keeps.
Qed.
Lemma mach_proxy_poll_rx : preserves I proxy_poll_rx.
Proof.
  apply mach_ok. apply ok_proxy_poll_rx; try done;
    [apply J_proxy|apply J_trace|apply guest_keeps].
Qed.

Lemma mach_update_current_tx : preserves I update_current_tx_ring_desc_addr.
Proof. unfold update_current_tx_ring_desc_addr, get_tx_ring_size. frame. Qed.
Lemma mach_advance_next_tx : preserves I advance_next_tx_ring_desc_addr.
Proof. unfold advance_next_tx_ring_desc_addr, get_tx_ring_size. frame. Qed.

(** Under the invariant the bound asserted before the copy is the real one. *)
Lemma fragment_fits s len :
  wf_dev s → tx_dma_buf_offset s ≤ TX_ALLOC_BUFSIZE → is_u16 len →
  (u32 (tx_dma_buf_offset s + len) <=? TX_ALLOC_BUFSIZE) = true →
  u32 (tx_dma_buf_offset s + len) = tx_dma_buf_offset s + len ∧
  tx_dma_buf_offset s + len ≤ blen (tx_dma_buf s).
Proof.
  intros Hwf Ho Hl Hb%Z.leb_le. pose proof (wf_tx_off s Hwf) as Hu.
  unfold is_u16, is_u32 in *.
  unfold blen. rewrite (wf_tx_len s Hwf). unfold u32 in *. rewrite Z.mod_small in * by lia. lia.
Qed.

Lemma mach_gather desc : preserves I (gather_fragment desc).
Proof.
  intros w Hw. unfold gather_fragment. set (len := u16 _).
  assert (Hl : is_u16 len) by apply u16_range.
  apply wpE_bind, wpE_gets, wpE_bind, wpE_assert; [|done]. intros Hb.
  apply wpE_bind, wpE_gets, wpE_bind, wpE_gets, wpE_bind. destruct Hw as [Hp Hwf Hr Ho Hi].
  destruct (fragment_fits _ _ Hwf Ho Hl Hb) as [-> Hfit].
  unfold wr. apply wpE_bind, wpE_inBounds; [|done]. intros _. apply wpE_ret, wpE_modify.
  pose proof (wf_tx_off _ Hwf) as Hu. apply Z.leb_le in Hb.
  assert (tx_dma_buf_offset (dev w) + len ≤ TX_ALLOC_BUFSIZE) as Ho'.
  { unfold blen in Hfit. rewrite (wf_tx_len _ Hwf) in Hfit. exact Hfit. }
  split; try done. destruct Hwf. split; cbn; try done.
  - unfold is_u32, is_u16 in *. lia.
  - by rewrite length_put.
  - apply bytes_put; [by apply bytes_ram_read|done].
Qed.

Lemma mach_clear_offset : preserves I (upd_dev (λ s, s <| tx_dma_buf_offset := 0 |>)).
Proof. apply mach_upd_dev; try done. intros s []. by split. Qed.

Lemma mach_send_gathered : preserves I send_gathered.
Proof.
  intros w Hw. unfold send_gathered. apply wpE_bind, wpE_gets, wpE_bind, wpE_gets, wpE_bind.
  eapply wpE_mono; [apply mach_send_packet; [apply Hw| |done]|].
  - destruct Hw as [_ Hwf _ Ho _]. unfold blen. rewrite (wf_tx_len _ Hwf). exact Ho.
  - intros ? w' Hw'. by apply mach_clear_offset.
Qed.
Hint Resolve mach_update_current_tx mach_advance_next_tx mach_gather mach_send_gathered
  mach_clear_offset : frame.

Lemma mach_tx_loop fuel i b : preserves I (tx_loop fuel i b).
Proof.
  revert i b. induction fuel as [|fuel IH]; intros i b; cbn [tx_loop]; [auto with frame|].
  unfold get_tx_ring_size. frame; apply IH.
Qed.
Hint Resolve mach_tx_loop : frame.
Lemma mach_dma_packet_from_guest : preserves I dma_packet_from_guest.
Proof.
  unfold dma_packet_from_guest, can_transmit, tx_enabled, dma_enabled, link_up,
    get_tx_ring_size. frame.
Qed.
Hint Resolve mach_dma_packet_from_guest : frame.

(** ** The invariant through the link, the PHY and the register interface *)

Lemma mach_syscall c : preserves I (syscall c).
Proof. by intros w []. Qed.
Lemma mach_phy i f : (∀ v, is_u32 v → is_u32 (f v)) → preserves I (upd_phy i f).
Proof.
  intros Hf. apply mach_upd_dev; try done. intros s Hs. apply wf_set_phy_reg; [done|].
  apply Hf. unfold phy_reg. rewrite list_lookup_total_alt.
  destruct (phy_regs s !! Z.to_nat i) eqn:E; [|done].
  eapply (Forall_lookup_1 is_u32); [apply Hs|done].
Qed.
Lemma mach_phy_and i k : preserves I (upd_phy i (λ v, v &&& k)).
Proof. apply mach_phy. intros v Hv. apply land_bound; [lia|done]. Qed.
Lemma mach_phy_or i k : is_u32 k → preserves I (upd_phy i (λ v, v ||| k)).
Proof. intros Hk. apply mach_phy. intros v Hv. by apply lor_bound. Qed.
Hint Resolve mach_syscall mach_phy_and : frame.
Hint Extern 1 (preserves _ (upd_phy _ (λ v, v ||| _))) =>
  (apply mach_phy_or; unfold is_u32; vm_compute; split; congruence) : frame.

Lemma mach_set_link_down : preserves I set_link_down.
Proof. unfold set_link_down, update_regs_on_link_down. frame. Qed.
Lemma mach_set_link_up : preserves I set_link_up.
Proof. unfold set_link_up, update_regs_on_link_up. frame. Qed.
Lemma mach_restart_autoneg : preserves I restart_autoneg.
Proof.
  unfold restart_autoneg, sysval. frame. apply mach_upd_dev; try done. intros s []. by split.
Qed.
Hint Resolve mach_set_link_down mach_set_link_up mach_restart_autoneg : frame.
Lemma mach_autoneg_timer : preserves I autoneg_timer.
Proof. unfold autoneg_timer, autoneg_done. frame. Qed.
Lemma mach_set_link_status : preserves I nvnet_set_link_status.
Proof. unfold nvnet_set_link_status, have_autoneg, autoneg_incomplete. frame. Qed.
Lemma mach_arm_poll_timer : preserves I arm_proxy_poll_timer.
Proof.
  unfold arm_proxy_poll_timer, sysval. frame. apply mach_upd_dev; try done. intros s []. by split.
Qed.
Lemma mach_poll_timer : preserves I proxy_poll_timer_cb.
Proof.
  unfold proxy_poll_timer_cb. frame; [apply mach_proxy_poll_rx|apply mach_arm_poll_timer].
Qed.
Lemma mach_mdio_read : preserves I mdio_read.
Proof. unfold mdio_read, phy_reg_read. frame. Qed.
Lemma mach_mdio_write : preserves I mdio_write.
Proof.
  unfold mdio_write, phy_reg_write. frame. apply mach_upd_dev; try done. intros s Hs.
  apply wf_set_phy_reg; [done|]. pose proof (u16_range a0). unfold is_u16, is_u32 in *. lia.
Qed.
Hint Resolve mach_mdio_read mach_mdio_write : frame.

(** A register write of any width: some bytes at [addr], inside the register file. *)
Lemma set_reg_ext_regs addr v size w w' :
  0 ≤ addr → set_reg_ext addr v size w = Ok (tt, w') →
  ∃ bs, bytes bs ∧ addr + blen bs ≤ blen (regs (dev w)) ∧
    w' = w <| dev ::= λ s, s <| regs := put addr bs (regs s) |> |>.
Proof.
  intros Ha. unfold set_reg_ext, assertM, wr, inBounds, get_dev, gets, upd_dev, modify, mbind,
    M_bind, mret, M_ret.
  destruct (addr <? MMIO_SIZE); [|done]. destruct (_ =? 0); [|done].
  destruct (size =? 4), (size =? 2), (size =? 1); try done;
    (destruct (_ && _) eqn:E; [|done]); intros [= <-]; apply andb_true_iff in E as [_ E%Z.leb_le];
    (eexists; split; [|split; [exact E|done]]);
    first [apply bytes_le_bytes | repeat constructor; apply u8_range].
Qed.

Lemma wf_put_regs s a bs : wf_dev s → bytes bs → wf_dev (s <| regs := put a bs (regs s) |>).
Proof. intros [] Hb. split; cbn; try done; [by rewrite length_put|by apply bytes_put]. Qed.

(** Such a write past the interrupt registers keeps the invariant; one to them
    keeps it once the line is updated. *)
Lemma mach_set_reg_ext addr v size : 8 ≤ addr → preserves I (set_reg_ext addr v size).
Proof.
  intros Ha w [Hp Hwf Hr Ho Hi]. apply wlp_run. intros [] w' E.
  apply set_reg_ext_regs in E as (bs & Hb & Hl & ->); [|lia].
  split; cbn; try done; [by apply wf_put_regs|]. revert Hi. unfold irq_level, reg32. cbn.
  rewrite !slice_put_disjoint; try done; lia.
Qed.
Lemma mach_set_reg_ext_irq addr v size :
  0 ≤ addr → preserves I (set_reg_ext addr v size;; update_irq).
Proof.
  intros Ha w [Hp Hwf Hr Ho Hi]. apply wpE_bind, wlp_run. intros [] w' E.
  apply set_reg_ext_regs in E as (bs & Hb & Hl & ->); [|lia].
  apply mach_update_irq; try done. by apply wf_put_regs.
Qed.

(** Clearing the status register by [NVNET_TX_RX_CONTROL_BIT1] leaves nothing
    pending. *)
Lemma mach_clear_status : preserves I (set_reg NVNET_IRQ_STATUS 0).
Proof.
  intros w [Hp Hwf Hr Ho Hi]. unfold wpE. rewrite run_set_reg by done.
  split; cbn; try done; [by apply wf_put_reg|]. unfold irq_level.
  rewrite reg32_put_same by done. change (u32 0) with 0. by rewrite Z.land_0_r.
Qed.
Hint Resolve mach_clear_status : frame.

Lemma mach_mmio_write addr val size : 0 ≤ addr → preserves I (nvnet_mmio_write addr val size).
Proof.
  intros Ha w Hw. unfold nvnet_mmio_write. apply wpE_bind, wpE_assert; [|done].
  intros Hal. revert w Hw. apply preserves_if_eq; [intros E1|].
  { frame. by apply mach_set_reg_ext; rewrite E1. }
  apply preserves_if_eq; [intros E2|].
  { unfold mmio_tx_rx_control, reset_descriptor_ring_pointers. frame. }
  destruct ((addr =? NVNET_IRQ_STATUS) || (addr =? NVNET_MII_STATUS)) eqn:E3.
  { apply preserves_bind; [auto with frame|]. intros v. by apply mach_set_reg_ext_irq. }
  destruct (addr =? NVNET_IRQ_MASK) eqn:E4; [by apply mach_set_reg_ext_irq|].
  apply mach_set_reg_ext. apply orb_false_iff in E3 as [E3 _].
  apply Z.eqb_neq in E3, E4. apply Z.eqb_eq in Hal. change 3 with (Z.ones 2) in Hal.
  rewrite Z.land_ones in Hal by lia. change (2 ^ 2) with 4 in Hal.
  dlia.
Qed.
Lemma mach_mmio_read addr size : preserves I (nvnet_mmio_read addr size).
Proof. apply preserves_get_reg_ext. Qed.

Lemma iov_to_buf_bytes iov n : Forall bytes iov → bytes (iov_to_buf iov n).
Proof.
  intros Hf. revert n. induction Hf as [|v iov Hv _ IH]; intros n; cbn [iov_to_buf]; [constructor|].
  destruct (0 <? n); [|constructor]. by apply bytes_app; [apply bytes_slice|].
Qed.
Lemma mach_receive_iov iov : Forall bytes iov → preserves I (nvnet_receive_iov iov).
Proof.
  intros Hv w Hw. unfold nvnet_receive_iov. apply wpE_if; intros _; [done|].
  apply wpE_bind, wpE_gets, wpE_bind. unfold wr. apply wpE_bind, wpE_inBounds; [|done].
  intros _. apply wpE_ret. set (rx := put _ _ _).
  assert (Hrx : bytes rx) by (apply bytes_put; [by apply iov_to_buf_bytes|apply Hw]).
  assert (Hlen : length rx = 1628%nat) by (unfold rx; rewrite length_put; apply Hw).
  apply wpE_bind, wpE_modify. generalize (iov_size iov). intros n.
  assert (Hw' : I (w <| dev ::= λ s, s <| rx_dma_buf := rx |> |>)).
  { destruct Hw as [? [] ? ? ?]. split; try done. }
  revert Hw'. generalize (w <| dev ::= λ s, s <| rx_dma_buf := rx |> |>).
  change (preserves I (ok ← receive_filter rx n;
    if negb ok then mret n else dma_packet_to_guest rx n)).
  unfold receive_filter. frame. by apply mach_dma_packet_to_guest.
Qed.

Lemma wf_cleared s : wf_dev s → wf_dev (s <| regs := replicate 1024 0 |>).
Proof. intros []. split; try done. apply bytes_replicate. Qed.
Lemma irq_level_cleared s : irq_level (s <| regs := replicate 1024 0 |>) = false.
Proof. done. Qed.
Lemma mach_clear_regs : preserves I (upd_dev (λ s, s <| regs := replicate 1024 0 |>)).
Proof.
  intros w [Hp Hwf Hr Ho Hi]. split; try done. by apply wf_cleared.
Qed.
Lemma mach_reset_phy : preserves I reset_phy_regs.
Proof.
  apply mach_upd_dev; try done. intros s []. split; try done.
  repeat constructor; vm_compute; congruence.
Qed.
Hint Resolve mach_clear_regs mach_reset_phy : frame.
Lemma mach_reset : preserves I nvnet_reset.
Proof.
  unfold nvnet_reset, update_regs_on_link_down. frame.
  - apply mach_upd_dev; try done. intros s []. split; try done; apply bytes_replicate.
  - apply mach_upd_dev; try done. intros s []. by split.
Qed.
End entry_points.

(** ** The controller as a state machine

    What can happen to the device: a guest access, a store by the guest's CPU to
    memory, a packet or a link change from QEMU's net layer, a timer, a reset,
    and the user interface setting the addresses of the proxy. *)

Inductive event :=
| ev_mmio_read (addr size : Z)
| ev_mmio_write (addr val size : Z)
| ev_io_read (addr size : Z)
| ev_io_write (addr val size : Z)
| ev_cpu_store (addr : Z) (data : list Z)
| ev_receive (iov : list (list Z))
| ev_link_status (down : bool)
| ev_autoneg_timer
| ev_proxy_poll_timer
| ev_reset
| ev_dhcp_config (client_ip gateway server_ip : Z).

(** Values have the widths of their C types. *)
Definition event_ok (e : event) : Prop :=
  match e with
  | ev_mmio_read addr _ | ev_mmio_write addr _ _ => 0 ≤ addr
  | ev_cpu_store _ data => bytes data
  | ev_receive iov => Forall bytes iov
  | ev_dhcp_config a b c => is_u32 a ∧ is_u32 b ∧ is_u32 c
  | _ => True
  end.

Section state_machine.
Context `{HostOS}.

Definition handle (e : event) : M World unit :=
  match e with
  | ev_mmio_read addr size => _ ← nvnet_mmio_read addr size; mret tt
  | ev_mmio_write addr val size => nvnet_mmio_write addr val size
  | ev_io_read addr size => _ ← nvnet_io_read addr size; mret tt
  | ev_io_write addr val size => nvnet_io_write addr val size
  | ev_cpu_store addr data => pci_dma_write addr data
  | ev_receive iov => _ ← nvnet_receive_iov iov; mret tt
  | ev_link_status down =>
      upd_dev (λ s, s <| link_down := down |>);; nvnet_set_link_status
  | ev_autoneg_timer => autoneg_timer
  | ev_proxy_poll_timer => proxy_poll_timer_cb
  | ev_reset => nvnet_reset
  | ev_dhcp_config a b c => nvnet_set_dhcp_config a b c
  end.

(** Machines reachable from the one the device is created in. *)
Inductive reachable : World → Prop :=
| reach_init : reachable zero_world
| reach_step w e w' :
    reachable w → event_ok e → handle e w = Ok (tt, w') → reachable w'.

Lemma mach_dhcp_config a b c :
  is_u32 a → is_u32 b → is_u32 c → preserves (machine wf_proxy) (nvnet_set_dhcp_config a b c).
Proof.
  intros Ha Hb Hc w [Hp Hwf Hr Ho Hi]. split; try done. destruct Hp. split; try done.
  - apply Forall_replicate, wf_tcp_zero.
  - by apply unique_replicate.
  - apply Forall_replicate, wf_udp_zero.
  - by apply unique_replicate.
Qed.

Lemma mach_handle e : event_ok e → preserves (machine wf_proxy) (handle e).
Proof.
  destruct e; intros Hok; cbn [handle event_ok] in *.
  - frame.
  - by apply mach_mmio_write.
  - unfold nvnet_io_read. frame.
  - unfold nvnet_io_write. frame.
  - by apply mach_dma_write.
  - frame. by apply mach_receive_iov.
  - frame; [|apply mach_set_link_status].
    apply mach_upd_dev; try done. intros s []. by split.
  - apply mach_autoneg_timer.
  - apply mach_poll_timer.
  - apply mach_reset.
  - destruct Hok as (?&?&?). by apply mach_dhcp_config.
Qed.

(** *** Every event is handled in finitely many steps *)

Definition terminates {A} (m : M World A) : Prop :=
  ∀ w, machine wf_proxy w →
    wpE m (λ _ w', machine wf_proxy w') (λ e, e ≠ OutOfFuel) w.

Lemma term_leaf {A} (m : M World A) :
  nofuel m → preserves (machine wf_proxy) m → terminates m.
Proof. intros Hn Hp w Hw. apply nofuel_wpE; [done|by apply Hp]. Qed.
Lemma term_bind {A B} (m : M World A) (k : A → M World B) :
  terminates m → (∀ a, terminates (k a)) → terminates (m ≫= k).
Proof.
  intros Hm Hk w Hw. apply wpE_bind. eapply wpE_mono; [by apply Hm|].
  intros a w' Hw'. by apply Hk.
Qed.
Lemma term_ret {A} (a : A) : terminates (mret a).
Proof. by intros w Hw. Qed.

Lemma guest_terminates buf size w :
  frame_okb buf size = true → machine (λ _, True) w →
  wpE (to_guest buf size) (λ _ w', machine (λ _, True) w') (λ e, e ≠ OutOfFuel) w.
Proof.
  intros Hf Hw. apply nofuel_wpE; [|by apply guest_keeps].
  change (nofuel (dma_packet_to_guest buf size)). repeat nofuel_step.
Qed.
Lemma term_ok {A} (m : M World A) :
  ok (λ e, e ≠ OutOfFuel) (machine (λ _, True)) m (λ _, True) → terminates m.
Proof.
  intros Hm w Hw%machine_split. eapply wpE_mono; [by apply Hm|].
  by intros a w' [Hw' _]; apply machine_split.
Qed.
Lemma term_send_packet buf size :
  bytes buf → size ≤ blen buf → terminates (send_packet buf size).
Proof.
  intros Hb Hs. apply term_ok, ok_send_packet; try done;
    [apply J_proxy|apply J_trace|apply J_timer|apply guest_terminates].
Qed.
Lemma term_proxy_poll_rx : terminates proxy_poll_rx.
Proof.
  apply term_ok, ok_proxy_poll_rx; try done; [apply J_proxy|apply J_trace|apply guest_terminates].
Qed.
Lemma term_send_gathered : terminates send_gathered.
Proof.
  intros w Hw. unfold send_gathered. apply wpE_bind, wpE_gets, wpE_bind, wpE_gets, wpE_bind.
  eapply wpE_mono; [apply term_send_packet; [apply Hw| |done]|].
  - destruct Hw as [_ Hwf _ Ho _]. unfold blen. rewrite (wf_tx_len _ Hwf). exact Ho.
  - intros ? w' Hw'. by apply mach_clear_offset.
Qed.
Lemma reachable_machine w : reachable w → machine wf_proxy w.
Proof.
  induction 1 as [|w e w' _ IH He E].
  - split; [apply wf_proxy_init|apply wf_zero_dev|by intros ?|done|done].
  - by eapply preserves_run; [apply mach_handle| |].
Qed.

(** C1. In every machine reachable from power-on by any sequence of guest
    accesses, memory stores, received packets, link changes, timers, resets and
    configuration changes, whatever the host's calls return: the device and the
    proxy tables are well formed, the transmit offset lies within the transmit
    buffer, and no interrupt is lost (if a status bit selected by the interrupt
    mask is set, the interrupt line is asserted). *)
Theorem controller_invariant w :
  reachable w →
  wf_dev (dev w) ∧ wf_proxy (proxy w) ∧ tx_dma_buf_offset (dev w) ≤ TX_ALLOC_BUFSIZE ∧
  (reg32 (dev w) NVNET_IRQ_MASK &&& reg32 (dev w) NVNET_IRQ_STATUS ≠ 0 → irq (dev w) = true).
Proof.
  intros Hr. pose proof (reachable_machine w Hr) as Hm.
  destruct Hm as [Hp Hwf _ Ho Hi]. split_and!; try done.
  intros Hne. by apply Hi, truthy_true.
Qed.
End state_machine.

(** Unmasking the link interrupt and then unplugging the cable. *)
Lemma controller_invariant_witness :
  ∃ w, @reachable (const_host 0) w ∧ irq (dev w) = true ∧
    reg32 (dev w) NVNET_IRQ_STATUS = NVNET_IRQ_STATUS_MIIEVENT.
Proof.
  pose (E1 := ev_mmio_write NVNET_IRQ_MASK 0x40 4). pose (E2 := ev_link_status true).
  assert (Hr : ∃ w, @reachable (const_host 0) w ∧ reg32 (dev w) NVNET_IRQ_MASK = 0x40 ∧
             reg32 (dev w) NVNET_IRQ_STATUS = NVNET_IRQ_STATUS_MIIEVENT).
  { eexists. split.
    - eapply (@reach_step (const_host 0) _ E2); [|done|].
      + eapply (@reach_step (const_host 0) _ E1); [constructor|vm_compute; congruence|].
        vm_compute. reflexivity.
      + vm_compute. reflexivity.
    - split; vm_compute; reflexivity. }
  destruct Hr as (w & Hr & Hm & Hs). exists w. split; [done|]. split; [|done].
  destruct (@controller_invariant (const_host 0) w Hr) as (_ & _ & _ & Hi).
  apply Hi. rewrite Hm, Hs. vm_compute. discriminate.
Defined.
