(* ===== verification/NvnetDevRuns.v ===== *)
(** * NvnetDevRuns: what the controller's operations do

    The transmit path as a function of the ring in guest memory, the PHY
    registers over MDIO, link negotiation, reset and migration. *)

From S2P Require Import Prelude NvnetState Checksum NvnetRx NvnetFrames NvnetProxy.
From S2P Require Import NvnetProxySpec NvnetProxyRuns NvnetDev NvnetDevSpec.

(** ** The transmit ring as a function of the registers *)

Definition tx_ring_size (s : NvNetState) : Z :=
  u16 (GET_MASK (reg32 s NVNET_RING_SIZE) NVNET_RING_SIZE_TX + 1).
Definition tx_ring_base (s : NvNetState) : Z := reg32 s NVNET_TX_RING_PHYS_ADDR.
Definition tx_ring_max (s : NvNetState) : Z :=
  u32 (tx_ring_base s + tx_ring_size s * sizeof_RingDesc).
Definition tx_ring_cur (s : NvNetState) : Z :=
  ring_cur (tx_ring_base s) (tx_ring_max s) (reg32 s NVNET_TX_RING_NEXT_DESC_PHYS_ADDR).
Definition tx_ring_next (s : NvNetState) : Z :=
  ring_next (tx_ring_base s) (tx_ring_max s) (reg32 s NVNET_TX_RING_CURRENT_DESC_PHYS_ADDR).

(** The bytes a descriptor describes, and the descriptor handed back. *)
Definition frag_len (desc : RingDesc) : Z := u16 (desc_length desc + 1).
Definition fragment (m : Z → Z) (desc : RingDesc) : list Z :=
  ram_read m (buffer_addr desc) (frag_len desc).
Definition tx_done_desc (desc : RingDesc) : RingDesc :=
  desc <| flags ::= λ f, f &&& Z.lnot TX_STATUS_BITS |>.
Definition tx_valid (desc : RingDesc) : bool := truthy (flags desc &&& NV_TX_VALID).
Definition tx_last (desc : RingDesc) : bool := truthy (flags desc &&& NV_TX_LASTPACKET).

(** The device after a fragment was appended, and after its descriptor was
    handed back. *)
Definition append_tx (bs : list Z) (d : NvNetState) : NvNetState :=
  d <| tx_dma_buf := put (tx_dma_buf_offset d) bs (tx_dma_buf d) |>
    <| tx_dma_buf_offset := tx_dma_buf_offset d + blen bs |>.
Definition tx_gathered (d : NvNetState) (m : Z → Z) : NvNetState :=
  append_tx (fragment m (read_desc m (tx_ring_cur d)))
    (put_reg NVNET_TX_RING_CURRENT_DESC_PHYS_ADDR (tx_ring_cur d) d).
Definition tx_advanced (d : NvNetState) : NvNetState :=
  put_reg NVNET_TX_RING_NEXT_DESC_PHYS_ADDR (tx_ring_next d) d.
Definition tx_ram (d : NvNetState) (m : Z → Z) : Z → Z :=
  ram_write m (tx_ring_cur d) (ring_desc_bytes (tx_done_desc (read_desc m (tx_ring_cur d)))).

Section tx_runs.
Context `{HostOS}.

Lemma exec_get_tx_ring_size d m p t :
  wf_dev d → get_tx_ring_size (mkWorld d m p t) = Ok (tx_ring_size d, mkWorld d m p t).
Proof. intros. unfold get_tx_ring_size. by exec_step. Qed.
Hint Resolve exec_get_tx_ring_size : exec.
Lemma exec_update_current_tx d m p t :
  wf_dev d →
  update_current_tx_ring_desc_addr (mkWorld d m p t) =
  Ok (tx_ring_cur d, mkWorld (put_reg NVNET_TX_RING_CURRENT_DESC_PHYS_ADDR (tx_ring_cur d) d) m p t).
Proof. intros. unfold update_current_tx_ring_desc_addr. by do 4 exec_step. Qed.
Lemma exec_advance_next_tx d m p t :
  wf_dev d →
  advance_next_tx_ring_desc_addr (mkWorld d m p t) = Ok (tt, mkWorld (tx_advanced d) m p t).
Proof. intros. unfold advance_next_tx_ring_desc_addr. do 3 exec_step. by rewrite exec_set_reg. Qed.
Hint Resolve exec_update_current_tx exec_advance_next_tx : exec.

Lemma blen_fragment m desc : blen (fragment m desc) = frag_len desc.
Proof.
  unfold blen, fragment. rewrite length_ram_read. pose proof (u16_range (desc_length desc + 1)).
  unfold is_u16, frag_len in *. lia.
Qed.
Lemma frag_len_range desc : 0 ≤ frag_len desc < 65536.
Proof. apply u16_range. Qed.

Lemma exec_gather d m p t desc :
  wf_dev d → tx_dma_buf_offset d + frag_len desc ≤ TX_ALLOC_BUFSIZE →
  gather_fragment desc (mkWorld d m p t) = Ok (tt, mkWorld (append_tx (fragment m desc) d) m p t).
Proof.
  intros Hwf Hl. pose proof (wf_tx_off d Hwf) as Hu. pose proof (frag_len_range desc).
  pose proof (blen_fragment m desc) as Hb. unfold is_u32 in *.
  unfold gather_fragment. fold (frag_len desc). erewrite run_bind by reflexivity.
  cbn [dev]. assert (u32 (tx_dma_buf_offset d + frag_len desc) = tx_dma_buf_offset d + frag_len desc)
    as -> by (apply Z.mod_small; lia).
  erewrite run_bind by (apply run_assert, Z.leb_le; exact Hl).
  do 2 erewrite run_bind by reflexivity. cbn [dev ram]. fold (fragment m desc).
  erewrite run_bind; [|unfold wr; erewrite run_bind; [done|apply run_inBounds]].
  - unfold append_tx. by rewrite Hb.
  - rewrite Hb. unfold blen. rewrite (wf_tx_len d Hwf). change (Z.of_nat 1628) with 1628. lia.
Qed.
Lemma exec_gather_too_big d m p t desc :
  tx_dma_buf_offset d ≤ TX_ALLOC_BUFSIZE → wf_dev d →
  TX_ALLOC_BUFSIZE < tx_dma_buf_offset d + frag_len desc →
  gather_fragment desc (mkWorld d m p t) = Fault AssertFailed.
Proof.
  intros Ho Hwf Hl. pose proof (wf_tx_off d Hwf) as Hu. pose proof (frag_len_range desc).
  unfold is_u32 in *.
  unfold gather_fragment. fold (frag_len desc). erewrite run_bind by reflexivity.
  cbn [dev]. assert (u32 (tx_dma_buf_offset d + frag_len desc) = tx_dma_buf_offset d + frag_len desc)
    as -> by (apply Z.mod_small; lia).
  unfold mbind, M_bind, assertM.
  by replace (_ <=? _) with false by (symmetry; apply Z.leb_gt; lia).
Qed.

Lemma wf_append_tx d bs :
  wf_dev d → bytes bs → tx_dma_buf_offset d + blen bs ≤ TX_ALLOC_BUFSIZE → wf_dev (append_tx bs d).
Proof.
  intros [] Hb Hl. pose proof (blen_nonneg bs). split; cbn; try done.
  - unfold is_u32 in *. lia.
  - by rewrite length_put.
  - by apply bytes_put.
Qed.

(** What follows the last fragment: the packet is sent and its descriptor is
    handed back. *)
Definition tx_finish (cur : Z) (desc : RingDesc) : M World bool :=
  send_gathered;;
  store_ring_desc cur (tx_done_desc desc);;
  advance_next_tx_ring_desc_addr;;
  mret true.

(** One iteration of the transmit loop. *)
Lemma exec_tx_iter fuel i b d m p t :
  wf_dev d → ram_bytes m → tx_dma_buf_offset d ≤ TX_ALLOC_BUFSIZE → i < tx_ring_size d →
  let cur := tx_ring_cur d in
  let desc := read_desc m cur in
  tx_loop (S fuel) i b (mkWorld d m p t) =
    if negb (tx_valid desc)
    then Ok (b, mkWorld (put_reg NVNET_TX_RING_CURRENT_DESC_PHYS_ADDR cur d) m p t)
    else if tx_dma_buf_offset d + frag_len desc >? TX_ALLOC_BUFSIZE then Fault AssertFailed
    else if tx_last desc then tx_finish cur desc (mkWorld (tx_gathered d m) m p t)
    else tx_loop fuel (i + 1) b (mkWorld (tx_advanced (tx_gathered d m)) (tx_ram d m) p t).
Proof.
  intros Hwf Hr Ho Hi cur desc. cbn [tx_loop]. exec_step.
  replace (i <? tx_ring_size d) with true by lia. exec_step.
  erewrite run_bind by apply exec_load_ring_desc. fold cur desc. fold (tx_valid desc).
  destruct (tx_valid desc); cbn [negb]; [|done].
  set (d1 := put_reg _ _ d). assert (Hwf1 : wf_dev d1) by by apply wf_put_reg.
  change (tx_dma_buf_offset d) with (tx_dma_buf_offset d1) in *.
  destruct (Z.gtb_spec (tx_dma_buf_offset d1 + frag_len desc) TX_ALLOC_BUFSIZE) as [Hbig|Hfit].
  { unfold mbind at 1, M_bind at 1. by rewrite exec_gather_too_big. }
  erewrite run_bind by by apply exec_gather. fold (tx_last desc).
  change (append_tx (fragment m desc) d1) with (tx_gathered d m).
  destruct (tx_last desc); cbn [whenM]; [done|].
  assert (wf_dev (tx_gathered d m)).
  { apply wf_append_tx; [done|by apply bytes_ram_read|]. by rewrite blen_fragment. }
  erewrite run_bind by reflexivity. do 2 exec_step. done.
Qed.

(** The invariant along an iteration, and the registers the ring depends on. *)
Lemma machine_gathered P d m p t :
  machine P (mkWorld d m p t) →
  tx_dma_buf_offset d + frag_len (read_desc m (tx_ring_cur d)) ≤ TX_ALLOC_BUFSIZE →
  machine P (mkWorld (tx_gathered d m) m p t).
Proof.
  intros [Hp Hwf Hr Ho Hi] Hl. cbn in *. split; cbn; try done.
  - apply wf_append_tx; [by apply wf_put_reg|by apply bytes_ram_read|by rewrite blen_fragment].
  - by rewrite blen_fragment.
  - by rewrite <-(irq_level_put_reg d NVNET_TX_RING_CURRENT_DESC_PHYS_ADDR (tx_ring_cur d)) in Hi.
Qed.
Lemma machine_advanced P d m m' p t :
  machine P (mkWorld d m p t) → ram_bytes m' → machine P (mkWorld (tx_advanced d) m' p t).
Proof.
  intros [Hp Hwf Hr Ho Hi] Hm. cbn in *. split; cbn; try done; [by apply wf_put_reg|].
  unfold tx_advanced. by rewrite irq_level_put_reg.
Qed.
Lemma ram_bytes_tx d m : ram_bytes m → ram_bytes (tx_ram d m).
Proof. intros. apply ram_bytes_write; [done|apply bytes_ring_desc_bytes]. Qed.

Definition tx_step_dev (d : NvNetState) (m : Z → Z) : NvNetState := tx_advanced (tx_gathered d m).

Lemma tx_step_regs d m a :
  wf_dev d → reg_ok a = true → a ≠ NVNET_TX_RING_CURRENT_DESC_PHYS_ADDR →
  tx_dma_buf_offset d + frag_len (read_desc m (tx_ring_cur d)) ≤ TX_ALLOC_BUFSIZE → ram_bytes m →
  a ≠ NVNET_TX_RING_NEXT_DESC_PHYS_ADDR → reg32 (tx_step_dev d m) a = reg32 d a.
Proof.
  intros Hwf Ha H1 Hl Hm H2. unfold tx_step_dev, tx_advanced. rewrite reg32_put_other; try done.
  - change (reg32 (put_reg NVNET_TX_RING_CURRENT_DESC_PHYS_ADDR (tx_ring_cur d) d) a = reg32 d a).
    by rewrite reg32_put_other.
  - apply wf_append_tx; [by apply wf_put_reg|by apply bytes_ram_read|by rewrite blen_fragment].
Qed.

Lemma tx_loop_fuel fuel i b d m p t :
  machine wf_proxy (mkWorld d m p t) → Z.max 0 (tx_ring_size d - i) < Z.of_nat fuel →
  tx_loop fuel i b (mkWorld d m p t) ≠ Fault OutOfFuel.
Proof.
  revert i d m. induction fuel as [|fuel IH]; intros i d m Hw Hf; [lia|].
  destruct (Z.lt_ge_cases i (tx_ring_size d)) as [Hi|Hi].
  2: { cbn [tx_loop]. erewrite run_bind by (apply exec_get_tx_ring_size, Hw).
       by replace (i <? tx_ring_size d) with false by lia. }
  pose proof Hw as [Hp Hwf Hr Ho Hq]. cbn [dev ram proxy] in Hp, Hwf, Hr, Ho.
  rewrite exec_tx_iter by done. cbv zeta.
  destruct (tx_valid _); cbn [negb]; [|done].
  destruct (Z.gtb_spec (tx_dma_buf_offset d + frag_len (read_desc m (tx_ring_cur d)))
              TX_ALLOC_BUFSIZE) as [|Hl]; [done|].
  pose proof (machine_gathered wf_proxy d m p t Hw Hl) as Hg. destruct (tx_last _).
  - assert (Ht : terminates (tx_finish (tx_ring_cur d) (read_desc m (tx_ring_cur d)))).
    { unfold tx_finish. apply term_bind; [apply term_send_gathered|intros _].
      apply term_leaf; [repeat nofuel_step|frame; apply mach_advance_next_tx]. }
    specialize (Ht _ Hg). unfold wpE in Ht. intros E. by rewrite E in Ht.
  - apply IH.
    + eapply machine_advanced; [done|by apply ram_bytes_tx].
    + fold (tx_step_dev d m). replace (tx_ring_size (tx_step_dev d m)) with (tx_ring_size d); [lia|].
      unfold tx_ring_size. by rewrite tx_step_regs.
Qed.

Lemma term_tx_loop :
  terminates (n ← get_tx_ring_size; tx_loop (S (Z.to_nat n)) 0 false).
Proof.
  intros [d m p t] Hw. pose proof (mc_wf _ _ Hw) as Hwf. cbn in Hwf.
  apply wpE_bind. unfold wpE at 1. rewrite exec_get_tx_ring_size by done.
  pose proof (mach_tx_loop (S (Z.to_nat (tx_ring_size d))) 0 false _ Hw) as Hm.
  pose proof (tx_loop_fuel (S (Z.to_nat (tx_ring_size d))) 0 false d m p t Hw ltac:(lia)) as Hf.
  unfold wpE in *. destruct (tx_loop _ _ _ _) as [[b w']|e]; [done|congruence].
Qed.

Lemma term_dma_packet_from_guest : terminates dma_packet_from_guest.
Proof.
  unfold dma_packet_from_guest.
  apply term_bind; [apply term_leaf; [repeat nofuel_step|]|].
  { unfold can_transmit, tx_enabled, dma_enabled, link_up. frame. }
  intros ok. destruct (negb ok); [apply term_ret|].
  apply term_bind; [apply term_leaf; [repeat nofuel_step|auto with frame]|intros _].
  intros w Hw.
  assert (Hl := term_bind _ (λ packet_sent : bool, set_dma_idle true;;
            whenM packet_sent (set_intr_status NVNET_IRQ_STATUS_TX)) term_tx_loop).
  unfold wpE. rewrite (bind_assoc get_tx_ring_size). apply Hl; [|done]. intros b.
  apply term_leaf; [repeat nofuel_step|frame].
Qed.

Lemma term_when b m : terminates m → terminates (whenM b m).
Proof. destruct b; [done|]. intros _. apply term_ret. Qed.

Lemma term_mmio_write addr val size : 0 ≤ addr → terminates (nvnet_mmio_write addr val size).
Proof.
  intros Ha. destruct (Z.eq_dec addr NVNET_TX_RX_CONTROL) as [->|Hne].
  - unfold nvnet_mmio_write. apply term_bind; [by apply term_leaf; [repeat nofuel_step|frame]|].
    intros _. change (terminates (mmio_tx_rx_control val)). unfold mmio_tx_rx_control.
    apply term_bind; [by apply term_leaf; [repeat nofuel_step|frame]|intros _].
    apply term_bind; [apply term_when, term_dma_packet_from_guest|intros _].
    apply term_leaf; [repeat nofuel_step|].
    unfold reset_descriptor_ring_pointers. frame; auto using mach_clear_offset, mach_clear_status.
  - apply term_leaf; [|by apply mach_mmio_write]. unfold nvnet_mmio_write.
    apply nofuel_bind; [repeat nofuel_step|intros _].
    destruct (addr =? NVNET_MDIO_ADDR); [repeat nofuel_step|].
    apply Z.eqb_neq in Hne as ->. repeat nofuel_step.
Qed.

Lemma term_handle e : event_ok e → terminates (handle e).
Proof.
  intros He. pose proof (mach_handle e He) as Hm.
  destruct e; try (apply term_leaf; [by repeat nofuel_step|exact Hm]).
  - by apply term_mmio_write.
  - unfold handle, proxy_poll_timer_cb. apply term_bind.
    + apply term_leaf; [repeat nofuel_step|frame].
    + intros b. apply term_when, term_bind; [apply term_proxy_poll_rx|intros _].
      apply term_leaf; [repeat nofuel_step|apply mach_arm_poll_timer].
Qed.

(** C30. The controller always finishes: in every reachable machine, the handling of
    any event (a register access that starts a transmission included, with all
    the proxy does for the packet) never runs out of the fuel its loops are
    given. *)
Theorem controller_terminates w e :
  reachable w → event_ok e → handle e w ≠ Fault OutOfFuel.
Proof.
  intros Hr He E. pose proof (term_handle e He w (reachable_machine w Hr)) as Ht.
  unfold wpE in Ht. by rewrite E in Ht.
Qed.

(** ** A packet spread over the ring *)

(** The transmit ring fits in memory and its saved pointer is at slot [c]. *)
Definition tx_at (d : NvNetState) (c : Z) : Prop :=
  ring_fits (tx_ring_base d) (tx_ring_size d) ∧ 0 ≤ c < tx_ring_size d ∧
  reg32 d NVNET_TX_RING_NEXT_DESC_PHYS_ADDR = tx_ring_base d + 8 * c.

(** The slot [j] places after slot [c]. *)
Definition tx_slot (d : NvNetState) (c : Z) (j : nat) : Z :=
  tx_ring_base d + 8 * ((c + Z.of_nat j) mod tx_ring_size d).

(** The buffer of a descriptor does not overlap the ring. *)
Definition off_ring (d : NvNetState) (desc : RingDesc) : Prop :=
  buffer_addr desc + frag_len desc ≤ tx_ring_base d ∨
  tx_ring_base d + 8 * tx_ring_size d ≤ buffer_addr desc.

Lemma mod_wrap x n : 0 ≤ x < 2 * n → x mod n = if x <? n then x else x - n.
Proof.
  intros Hx. destruct (Z.ltb_spec x n); [by apply Z.mod_small; lia|].
  symmetry. apply (Z.mod_unique _ _ 1); lia.
Qed.

Lemma tx_slot_0 d c : tx_at d c → tx_slot d c 0 = tx_ring_base d + 8 * c.
Proof. intros (_ & Hc & _). unfold tx_slot. rewrite Z.add_0_r, Z.mod_small by done. done. Qed.
Lemma tx_slot_in d c j :
  tx_at d c → tx_ring_base d ≤ tx_slot d c j ∧
    tx_slot d c j + 8 ≤ tx_ring_base d + 8 * tx_ring_size d.
Proof.
  intros ((_ & Hn & _) & _). unfold tx_slot.
  pose proof (Z.mod_pos_bound (c + Z.of_nat j) (tx_ring_size d)). lia.
Qed.
Lemma tx_slot_disjoint d c j k :
  tx_at d c → (j < k)%nat → Z.of_nat k < tx_ring_size d →
  tx_slot d c j + 8 ≤ tx_slot d c k ∨ tx_slot d c k + 8 ≤ tx_slot d c j.
Proof.
  intros (_ & Hc & _) Hjk Hk. unfold tx_slot. rewrite !mod_wrap by lia.
  destruct (Z.ltb_spec (c + Z.of_nat j) (tx_ring_size d)),
    (Z.ltb_spec (c + Z.of_nat k) (tx_ring_size d)); lia.
Qed.
Lemma tx_cur_at d c : tx_at d c → tx_ring_cur d = tx_slot d c 0.
Proof.
  intros Hc. rewrite tx_slot_0 by done. destruct Hc as (Hf & Hi & Hn).
  unfold tx_ring_cur, tx_ring_max. rewrite Hn, ring_max_fits by done. by apply ring_cur_slot.
Qed.

(** An iteration moves to the next slot of the same ring. *)
Section tx_step.
Context (d : NvNetState) (m : Z → Z) (c : Z).
Context (Hwf : wf_dev d) (Hm : ram_bytes m) (Hc : tx_at d c).
Context (Hl : tx_dma_buf_offset d + frag_len (read_desc m (tx_ring_cur d)) ≤ TX_ALLOC_BUFSIZE).

Lemma tx_step_base : tx_ring_base (tx_step_dev d m) = tx_ring_base d.
Proof. unfold tx_ring_base. by rewrite tx_step_regs. Qed.
Lemma tx_step_size : tx_ring_size (tx_step_dev d m) = tx_ring_size d.
Proof. unfold tx_ring_size. by rewrite tx_step_regs. Qed.
Lemma wf_tx_gathered : wf_dev (tx_gathered d m).
Proof. apply wf_append_tx; [by apply wf_put_reg|by apply bytes_ram_read|by rewrite blen_fragment]. Qed.
Lemma wf_tx_step : wf_dev (tx_step_dev d m).
Proof. apply wf_put_reg, wf_tx_gathered. Qed.

Lemma reg32_gathered a :
  reg_ok a = true → reg32 (tx_gathered d m) a =
    if a =? NVNET_TX_RING_CURRENT_DESC_PHYS_ADDR then u32 (tx_ring_cur d) else reg32 d a.
Proof.
  intros Ha.
  change (reg32 (put_reg NVNET_TX_RING_CURRENT_DESC_PHYS_ADDR (tx_ring_cur d) d) a = if
    a =? NVNET_TX_RING_CURRENT_DESC_PHYS_ADDR then u32 (tx_ring_cur d) else reg32 d a).
  destruct (Z.eqb_spec a NVNET_TX_RING_CURRENT_DESC_PHYS_ADDR) as [->|].
  - by rewrite reg32_put_same.
  - by rewrite reg32_put_other.
Qed.

Lemma tx_gathered_next :
  tx_ring_next (tx_gathered d m) = tx_ring_base d + 8 * ((c + 1) mod tx_ring_size d).
Proof.
  pose proof (tx_cur_at d c Hc) as Hcur. rewrite tx_slot_0 in Hcur by done.
  pose proof (reg32_gathered NVNET_TX_RING_PHYS_ADDR eq_refl) as R1.
  pose proof (reg32_gathered NVNET_RING_SIZE eq_refl) as R2.
  pose proof (reg32_gathered NVNET_TX_RING_CURRENT_DESC_PHYS_ADDR eq_refl) as R3.
  cbn [Z.eqb Pos.eqb] in R1, R2, R3.
  revert R1 R2 R3. generalize (tx_gathered d m). intros g R1 R2 R3.
  unfold tx_ring_next, tx_ring_max, tx_ring_base at 1 2, tx_ring_size at 1.
  rewrite R1, R2, R3. destruct Hc as (Hf & Hi & Hn).
  fold (tx_ring_base d) (tx_ring_size d).
  rewrite ring_max_fits, Hcur by done. rewrite u32_id by (destruct Hf; unfold is_u32; lia).
  by apply ring_next_slot.
Qed.

Lemma tx_step_at : tx_at (tx_step_dev d m) ((c + 1) mod tx_ring_size d).
Proof.
  unfold tx_at. rewrite tx_step_base, tx_step_size. pose proof Hc as (Hf & Hi & Hn).
  pose proof (Z.mod_pos_bound (c + 1) (tx_ring_size d)) as Hb. split_and!; [done|lia|lia|].
  unfold tx_step_dev, tx_advanced. rewrite reg32_put_same by (done || apply wf_tx_gathered).
  rewrite tx_gathered_next. apply u32_id. destruct Hf. unfold is_u32. lia.
Qed.
Lemma tx_step_slot j : tx_slot (tx_step_dev d m) ((c + 1) mod tx_ring_size d) j = tx_slot d c (S j).
Proof.
  unfold tx_slot. rewrite tx_step_base, tx_step_size, Zplus_mod_idemp_l. do 3 f_equal. lia.
Qed.
End tx_step.

(** The bytes the descriptors [ds] describe, in order. *)
Definition packet (m : Z → Z) (ds : list RingDesc) : list Z := concat (fragment m <$> ds).

(** From slot [c] on, the ring holds a packet: descriptors [fs], then the last
    one [l], all owned by the device. *)
Record tx_packet (d : NvNetState) (m : Z → Z) (c : Z) (fs : list RingDesc) (l : RingDesc) : Prop := {
  tp_mem : ∀ j x, (fs ++ [l]) !! j = Some x → read_desc m (tx_slot d c j) = x;
  tp_valid : Forall (λ x, tx_valid x = true ∧ off_ring d x) (fs ++ [l]);
  tp_more : Forall (λ x, tx_last x = false) fs;
  tp_last : tx_last l = true;
  tp_count : Z.of_nat (length fs) < tx_ring_size d;
  tp_fits : tx_dma_buf_offset d + blen (packet m (fs ++ [l])) ≤ TX_ALLOC_BUFSIZE
}.

(** The machine when the last fragment has been gathered. *)
(** The part of the device that transmission leaves alone, besides registers. *)
Definition tx_rest (d : NvNetState) : NvNetState :=
  d <| regs := [] |> <| irq := false |> <| tx_dma_buf := [] |> <| tx_dma_buf_offset := 0 |>.
Record gathered (d : NvNetState) (m : Z → Z) (c : Z) (fs : list RingDesc) (l : RingDesc)
    (d' : NvNetState) (m' : Z → Z) : Prop := {
  ga_wf : wf_dev d';
  ga_ram : ram_bytes m';
  ga_off : tx_dma_buf_offset d' = tx_dma_buf_offset d + blen (packet m (fs ++ [l]));
  ga_buf : slice 0 (tx_dma_buf_offset d') (tx_dma_buf d') =
             slice 0 (tx_dma_buf_offset d) (tx_dma_buf d) ++ packet m (fs ++ [l]);
  ga_mem : ∀ a, (∀ j, (j < length fs)%nat → ¬ in_range (tx_slot d c j) 8 a) → m' a = m a;
  ga_done : ∀ j x, fs !! j = Some x → read_desc m' (tx_slot d c j) = tx_done_desc x;
  ga_regs : ∀ a, reg_ok a = true → a ≠ NVNET_TX_RING_CURRENT_DESC_PHYS_ADDR →
             a ≠ NVNET_TX_RING_NEXT_DESC_PHYS_ADDR → reg32 d' a = reg32 d a;
  ga_next : tx_ring_next d' = tx_slot d c (S (length fs));
  ga_cur : reg32 d' NVNET_TX_RING_CURRENT_DESC_PHYS_ADDR = tx_slot d c (length fs);
  ga_rest : tx_rest d' = tx_rest d
}.

Lemma packet_cons m x ds : packet m (x :: ds) = fragment m x ++ packet m ds.
Proof. done. Qed.
Lemma packet_ext m m' ds :
  Forall (λ x, fragment m' x = fragment m x) ds → packet m' ds = packet m ds.
Proof. unfold packet. induction 1 as [|x ds Hx _ IH]; [done|]. cbn. by rewrite Hx, IH. Qed.

(** Handing a descriptor back changes its slot only. *)
Lemma wf_tx_done_desc desc : wf_desc desc → wf_desc (tx_done_desc desc).
Proof. intros []. split; try done. by apply land_bound. Qed.
Lemma tx_ram_slot d m : ram_bytes m →
  read_desc (tx_ram d m) (tx_ring_cur d) = tx_done_desc (read_desc m (tx_ring_cur d)).
Proof. intros. by apply read_desc_stored, wf_tx_done_desc, wf_read_desc. Qed.
Lemma tx_ram_other d m a : ¬ in_range (tx_ring_cur d) 8 a → tx_ram d m a = m a.
Proof.
  unfold in_range. intros. apply ram_write_other. rewrite blen_ring_desc_bytes.
  unfold sizeof_RingDesc. lia.
Qed.
Lemma tx_ram_fragment d m c x :
  tx_at d c → off_ring d x → fragment (tx_ram d m) x = fragment m x.
Proof.
  intros Hc Hx. pose proof (tx_slot_in d c 0 Hc). apply ram_read_ext. intros a Ha.
  apply tx_ram_other. rewrite (tx_cur_at d c Hc). unfold in_range, off_ring in *. lia.
Qed.
Lemma read_desc_ext m m' a :
  (∀ x, in_range a 8 x → m' x = m x) → read_desc m' a = read_desc m a.
Proof. intros Hx. unfold read_desc. by rewrite (ram_read_ext m' m). Qed.

(** One fragment further: what is left in the ring is the rest of the packet. *)
Lemma tx_packet_step d m c x fs l :
  wf_dev d → ram_bytes m → tx_at d c → tx_packet d m c (x :: fs) l →
  tx_packet (tx_step_dev d m) (tx_ram d m) ((c + 1) mod tx_ring_size d) fs l.
Proof.
  intros Hwf Hm Hc [Hmem Hval Hmore Hlast Hcnt Hfit].
  pose proof (Hmem 0%nat x eq_refl) as Hx. rewrite <-(tx_cur_at d c Hc) in Hx.
  cbn [app] in Hfit, Hval. rewrite packet_cons, blen_app, blen_fragment in Hfit.
  pose proof (blen_nonneg (packet m (fs ++ [l]))).
  assert (Hl : tx_dma_buf_offset d + frag_len (read_desc m (tx_ring_cur d)) ≤ TX_ALLOC_BUFSIZE)
    by (rewrite Hx; lia).
  apply Forall_cons in Hval as [_ Hval]. apply Forall_cons in Hmore as [_ Hmore].
  assert (Hp : packet (tx_ram d m) (fs ++ [l]) = packet m (fs ++ [l])).
  { apply packet_ext. eapply Forall_impl; [exact Hval|]. intros y [_ Hy]. by apply (tx_ram_fragment d m c). }
  split; try done.
  - intros j y Hj. rewrite tx_step_slot by done. rewrite <-(Hmem (S j) y Hj).
    pose proof (lookup_lt_Some _ _ _ Hj) as Hlt. rewrite length_app in Hlt. cbn in Hlt, Hcnt.
    apply read_desc_ext. intros a Ha. apply tx_ram_other. rewrite (tx_cur_at d c Hc).
    pose proof (tx_slot_disjoint d c 0 (S j) Hc ltac:(lia) ltac:(lia)). unfold in_range in *. lia.
  - eapply Forall_impl; [exact Hval|]. intros y [Hy1 Hy2]. split; [done|].
    unfold off_ring in *. by rewrite tx_step_base, tx_step_size.
  - rewrite tx_step_size by done. cbn in Hcnt. lia.
  - rewrite Hp. change (tx_dma_buf_offset (tx_step_dev d m)) with
      (tx_dma_buf_offset d + blen (fragment m (read_desc m (tx_ring_cur d)))).
    rewrite blen_fragment, Hx. lia.
Qed.

(** What is gathered after one more fragment is gathered in all. *)
Lemma gathered_step d m c x fs l d' m' :
  wf_dev d → ram_bytes m → tx_at d c → tx_packet d m c (x :: fs) l →
  gathered (tx_step_dev d m) (tx_ram d m) ((c + 1) mod tx_ring_size d) fs l d' m' →
  gathered d m c (x :: fs) l d' m'.
Proof.
  intros Hwf Hm Hc Htp [G1 G2 G3 G4 G5 G6 G7 G8 G9 G10]. pose proof Htp as [Hmem Hval _ _ Hcnt Hfit].
  pose proof (Hmem 0%nat x eq_refl) as Hx. pose proof (tx_cur_at d c Hc) as Hcur.
  rewrite <-Hcur in Hx. cbn [app] in Hfit, Hval.
  rewrite packet_cons, blen_app, blen_fragment in Hfit.
  pose proof (blen_nonneg (packet m (fs ++ [l]))). pose proof (wf_tx_off d Hwf) as Hu.
  assert (Hl : tx_dma_buf_offset d + frag_len (read_desc m (tx_ring_cur d)) ≤ TX_ALLOC_BUFSIZE)
    by (rewrite Hx; lia).
  apply Forall_cons in Hval as [_ Hval].
  assert (Hp : packet (tx_ram d m) (fs ++ [l]) = packet m (fs ++ [l])).
  { apply packet_ext. eapply Forall_impl; [exact Hval|]. intros y [_ Hy]. by apply (tx_ram_fragment d m c). }
  assert (Hoff : tx_dma_buf_offset (tx_step_dev d m) = tx_dma_buf_offset d + blen (fragment m x)).
  { by rewrite <-Hx. }
  assert (Hbuf : slice 0 (tx_dma_buf_offset (tx_step_dev d m)) (tx_dma_buf (tx_step_dev d m)) =
            slice 0 (tx_dma_buf_offset d) (tx_dma_buf d) ++ fragment m x).
  { rewrite Hoff, <-Hx. apply slice_put_append; [apply Hu|].
    rewrite blen_fragment. unfold blen. rewrite (wf_tx_len d Hwf). exact Hl. }
  rewrite Hp, Hoff in G3. rewrite Hp, Hbuf in G4.
  split; try done.
  - rewrite G3. cbn [app]. rewrite packet_cons, blen_app. lia.
  - rewrite G4. cbn [app]. by rewrite packet_cons, app_assoc.
  - intros a Ha. rewrite G5.
    + apply tx_ram_other. rewrite Hcur. apply Ha. cbn. lia.
    + intros j Hj. rewrite tx_step_slot by done. apply Ha. cbn. lia.
  - intros [|j] y Hj.
    + injection Hj as <-. rewrite <-Hcur, <-Hx at 1. rewrite <-tx_ram_slot by done.
      apply read_desc_ext. intros a Ha. apply G5. intros j Hj. rewrite tx_step_slot by done.
      rewrite Hcur in Ha. cbn in Hcnt.
      pose proof (tx_slot_disjoint d c 0 (S j) Hc ltac:(lia) ltac:(lia)). unfold in_range in *. lia.
    + rewrite <-(tx_step_slot d m c) by done. by apply G6.
  - intros a ???. rewrite G7 by done. by rewrite tx_step_regs.
  - rewrite G8. by rewrite tx_step_slot.
  - rewrite G9. by rewrite tx_step_slot.
Qed.

Lemma gathered_last d m c l :
  wf_dev d → ram_bytes m → tx_at d c → read_desc m (tx_ring_cur d) = l →
  tx_dma_buf_offset d + frag_len (read_desc m (tx_ring_cur d)) ≤ TX_ALLOC_BUFSIZE →
  gathered d m c [] l (tx_gathered d m) m.
Proof.
  intros Hwf Hm Hc Hl Hle. pose proof (wf_tx_off d Hwf) as Hu.
  assert (Hp : packet m ([] ++ [l]) = fragment m l) by (unfold packet; cbn; by rewrite app_nil_r).
  split; try done; rewrite ?Hp, <-?Hl.
  - by apply wf_tx_gathered.
  - done.
  - apply slice_put_append; [apply Hu|]. rewrite blen_fragment. unfold blen.
    rewrite (wf_tx_len d Hwf). exact Hle.
  - intros a Ha Hne _. rewrite reg32_gathered by done. by apply Z.eqb_neq in Hne as ->.
  - by apply tx_gathered_next.
  - pose proof (tx_slot_in d c 0 Hc). pose proof (proj1 Hc) as (?&?&?).
    rewrite reg32_gathered, (tx_cur_at d c Hc) by done. cbn [length Z.eqb Pos.eqb]. apply u32_id. unfold is_u32. lia.
Qed.

(** The loop gathers the whole packet and goes on to send it. *)
Lemma tx_loop_gathers fs l fuel i b d m c p t :
  wf_dev d → ram_bytes m → tx_at d c → tx_packet d m c fs l →
  i + Z.of_nat (length fs) < tx_ring_size d → (length fs < fuel)%nat →
  ∃ d' m', gathered d m c fs l d' m' ∧
    tx_loop fuel i b (mkWorld d m p t) =
      tx_finish (tx_slot d c (length fs)) l (mkWorld d' m' p t).
Proof.
  revert fuel i d m c. induction fs as [|x fs IH]; intros fuel i d m c Hwf Hm Hc Htp Hi Hf;
    destruct fuel as [|fuel]; try (cbn in Hf; lia); pose proof Htp as [Hmem Hval Hmore Hlast Hcnt Hfit];
    pose proof (blen_nonneg (packet m [l])); pose proof (tx_cur_at d c Hc) as Hcur;
    pose proof (wf_tx_off d Hwf) as Hu; unfold is_u32 in Hu; cbn [app length] in *;
    apply Forall_cons in Hval as [[Hv Hoff] Hval]; rewrite packet_cons, blen_app, blen_fragment in Hfit.
  - pose proof (Hmem 0%nat l eq_refl) as Hl. rewrite <-Hcur in Hl.
    pose proof (blen_nonneg (packet m [])). pose proof (frag_len_range l).
    rewrite exec_tx_iter by (done || lia). cbv zeta. rewrite Hl, Hv, Hlast.
    cbn [negb]. replace (_ >? _) with false by (symmetry; rewrite Z.gtb_ltb; apply Z.ltb_ge; lia).
    exists (tx_gathered d m), m. split; [|by rewrite <-Hcur].
    assert (Hle : tx_dma_buf_offset d + frag_len (read_desc m (tx_ring_cur d)) ≤ TX_ALLOC_BUFSIZE)
      by (rewrite Hl; lia).
    by apply gathered_last.
  - pose proof (Hmem 0%nat x eq_refl) as Hx. rewrite <-Hcur in Hx.
    pose proof (blen_nonneg (packet m (fs ++ [l]))). pose proof (frag_len_range x).
    apply Forall_cons in Hmore as [Hxl Hmore].
    rewrite exec_tx_iter by (done || lia). cbv zeta. rewrite Hx, Hv, Hxl.
    cbn [negb]. replace (_ >? _) with false by (symmetry; rewrite Z.gtb_ltb; apply Z.ltb_ge; lia).
    assert (Hle : tx_dma_buf_offset d + frag_len (read_desc m (tx_ring_cur d)) ≤ TX_ALLOC_BUFSIZE)
      by (rewrite Hx; lia).
    destruct (IH fuel (i + 1) (tx_step_dev d m) (tx_ram d m) ((c + 1) mod tx_ring_size d))
      as (d' & m' & Hg & Hrun).
    + by apply wf_tx_step.
    + by apply ram_bytes_tx.
    + by apply tx_step_at.
    + by eapply tx_packet_step.
    + rewrite tx_step_size by done. lia.
    + lia.
    + exists d', m'. split; [by eapply gathered_step|]. fold (tx_step_dev d m). rewrite Hrun.
      by rewrite tx_step_slot.
Qed.

(** ** The whole transmission *)

Definition tx_ready (s : NvNetState) : bool :=
  truthy (reg32 s NVNET_TRANSMITTER_CONTROL &&& NVNET_TRANSMITTER_CONTROL_START) &&
  ((reg32 s NVNET_TX_RX_CONTROL &&& NVNET_TX_RX_CONTROL_BIT2) =? 0) &&
  truthy (phy_reg MII_BMSR s &&& MII_BMSR_LINK_ST).

Lemma exec_can_transmit d m p t :
  wf_dev d → can_transmit (mkWorld d m p t) = Ok (tx_ready d, mkWorld d m p t).
Proof.
  intros. unfold can_transmit. erewrite run_bind; [|unfold tx_enabled; by exec_step].
  by do 2 exec_step.
Qed.

(** The ring only depends on its registers. *)
Section same_ring.
Context (d e : NvNetState) (Hwf : wf_dev d).
Context (Hregs : ∀ a, reg_ok a = true → a ≠ NVNET_TX_RX_CONTROL → reg32 e a = reg32 d a).
Context (Hoff : tx_dma_buf_offset e = tx_dma_buf_offset d).

Lemma same_base : tx_ring_base e = tx_ring_base d.
Proof. unfold tx_ring_base. by rewrite Hregs. Qed.
Lemma same_size : tx_ring_size e = tx_ring_size d.
Proof. unfold tx_ring_size. by rewrite Hregs. Qed.
Lemma same_slot c j : tx_slot e c j = tx_slot d c j.
Proof. unfold tx_slot. by rewrite same_base, same_size. Qed.
Lemma same_at c : tx_at d c → tx_at e c.
Proof. unfold tx_at. rewrite same_base, same_size, Hregs by done. done. Qed.
Lemma same_packet m c fs l : tx_packet d m c fs l → tx_packet e m c fs l.
Proof.
  intros []. split; try done.
  - intros j x Hj. rewrite same_slot. auto.
  - eapply Forall_impl; [done|]. unfold off_ring. by rewrite same_base, same_size.
  - by rewrite same_size.
  - by rewrite Hoff.
Qed.
End same_ring.

(** The transmission up to the call of [send_packet]. *)
Definition tx_epilogue (cur : Z) (desc : RingDesc) : M World unit :=
  packet_sent ← tx_finish cur desc;
  set_dma_idle true;;
  whenM packet_sent (set_intr_status NVNET_IRQ_STATUS_TX).

Definition not_idle (d : NvNetState) : NvNetState :=
  put_reg NVNET_TX_RX_CONTROL (reg32 d NVNET_TX_RX_CONTROL &&& not32 NVNET_TX_RX_CONTROL_IDLE) d.

Lemma dma_packet_from_guest_gathers d m p t c fs l :
  wf_dev d → ram_bytes m → tx_ready d = true → tx_at d c → tx_packet d m c fs l →
  ∃ d' m', gathered (not_idle d) m c fs l d' m' ∧
    dma_packet_from_guest (mkWorld d m p t) =
      tx_epilogue (tx_slot d c (length fs)) l (mkWorld d' m' p t).
Proof.
  intros Hwf Hm Hr Hc Htp. set (e := not_idle d).
  assert (He : wf_dev e) by by apply wf_put_reg.
  assert (Hregs : ∀ a, reg_ok a = true → a ≠ NVNET_TX_RX_CONTROL → reg32 e a = reg32 d a)
    by (intros; by apply reg32_put_other).
  pose proof (tp_count _ _ _ _ _ Htp) as Hn.
  destruct (tx_loop_gathers fs l (S (Z.to_nat (tx_ring_size e))) 0 false e m c p t)
    as (d' & m' & Hg & Hrun); try done.
  - by eapply same_at.
  - by eapply same_packet.
  - rewrite (same_size d e) by done. lia.
  - rewrite (same_size d e) by done. lia.
  - exists d', m'. split; [done|]. unfold dma_packet_from_guest.
    erewrite run_bind by by apply exec_can_transmit. rewrite Hr. cbn [negb].
    erewrite run_bind by by apply exec_set_dma_idle.
    change (put_reg _ _ d) with e. erewrite run_bind by by apply exec_get_tx_ring_size.
    unfold tx_epilogue. unfold mbind at 1 3, M_bind at 1 3. rewrite Hrun.
    by rewrite (same_slot d e) by done.
Qed.

(** The device once the packet is out. *)
Definition tx_done_dev (d : NvNetState) : NvNetState :=
  let d := tx_advanced (d <| tx_dma_buf_offset := 0 |>) in
  raise_status NVNET_IRQ_STATUS_TX
    (put_reg NVNET_TX_RX_CONTROL (reg32 d NVNET_TX_RX_CONTROL ||| NVNET_TX_RX_CONTROL_IDLE) d).

Lemma wf_clear_offset d : wf_dev d → wf_dev (d <| tx_dma_buf_offset := 0 |>).
Proof. intros []. by split. Qed.

Lemma exec_tx_epilogue d m p t cur l :
  wf_dev d → nvnet_proxy_enabled p = false → tx_dma_buf_offset d ≤ TX_ALLOC_BUFSIZE →
  claimed p (tx_dma_buf d) (tx_dma_buf_offset d) = false →
  tx_epilogue cur l (mkWorld d m p t) =
    Ok (tt, mkWorld (tx_done_dev d) (ram_write m cur (ring_desc_bytes (tx_done_desc l))) p
              (h_qemu_send_packet (slice 0 (tx_dma_buf_offset d) (tx_dma_buf d)) :: t)).
Proof.
  intros Hwf Hp Ho Hf. pose proof (wf_clear_offset d Hwf) as Hwf1.
  assert (Hlen : blen (tx_dma_buf d) = TX_ALLOC_BUFSIZE) by (unfold blen; by rewrite wf_tx_len).
  pose proof (wf_tx_off d Hwf) as Hu. unfold is_u32 in Hu. set (pkt := slice _ _ _).
  assert (H94 : 94 ≤ blen (tx_dma_buf d)) by lia.
  assert (Hbd : 0 ≤ tx_dma_buf_offset d ≤ blen (tx_dma_buf d)) by lia.
  assert (Hs : send_gathered (mkWorld d m p t) =
            Ok (tt, mkWorld (d <| tx_dma_buf_offset := 0 |>) m p (h_qemu_send_packet pkt :: t))).
  { unfold send_gathered. do 2 erewrite run_bind by reflexivity.
    by erewrite run_bind by (apply run_send_packet_bypass; [done|exact Hbd|left; exact H94|done]). }
  set (m1 := ram_write _ _ _).
  assert (Hfin : tx_finish cur l (mkWorld d m p t) =
            Ok (true, mkWorld (tx_advanced (d <| tx_dma_buf_offset := 0 |>)) m1 p
                        (h_qemu_send_packet pkt :: t))).
  { unfold tx_finish. erewrite run_bind by exact Hs. erewrite run_bind by reflexivity.
    by erewrite run_bind by exact (exec_advance_next_tx _ m1 p _ Hwf1). }
  unfold tx_epilogue. erewrite run_bind by exact Hfin.
  assert (Hwf2 : wf_dev (tx_advanced (d <| tx_dma_buf_offset := 0 |>))) by by apply wf_put_reg.
  erewrite run_bind by by apply exec_set_dma_idle. cbn [whenM].
  rewrite exec_set_intr_status by by apply wf_put_reg. done.
Qed.

Lemma tx_done_next d :
  wf_dev d → is_u32 (tx_ring_next d) →
  reg32 (tx_done_dev d) NVNET_TX_RING_NEXT_DESC_PHYS_ADDR = tx_ring_next d.
Proof.
  intros Hwf Hn. pose proof (wf_clear_offset d Hwf) as Hwf1. unfold tx_done_dev, tx_advanced.
  regs_simpl. by apply u32_id.
Qed.
Lemma tx_done_irq d :
  wf_dev d →
  reg32 (tx_done_dev d) NVNET_IRQ_STATUS = reg32 d NVNET_IRQ_STATUS ||| NVNET_IRQ_STATUS_TX ∧
  irq (tx_done_dev d) = irq_level (tx_done_dev d).
Proof.
  intros Hwf. pose proof (wf_clear_offset d Hwf) as Hwf1. split; [|done].
  unfold tx_done_dev, tx_advanced. by regs_simpl.
Qed.

Definition tx_changes : list Z :=
  [NVNET_TX_RING_CURRENT_DESC_PHYS_ADDR; NVNET_TX_RING_NEXT_DESC_PHYS_ADDR; NVNET_TX_RX_CONTROL;
   NVNET_IRQ_STATUS].
Lemma tx_done_other_regs d a :
  wf_dev d → reg_ok a = true → a ∉ [NVNET_TX_RING_NEXT_DESC_PHYS_ADDR; NVNET_TX_RX_CONTROL; NVNET_IRQ_STATUS] →
  reg32 (tx_done_dev d) a = reg32 d a.
Proof.
  intros Hwf Ha Hn. pose proof (wf_clear_offset d Hwf) as Hwf1. rewrite !not_elem_of_cons in Hn.
  destruct Hn as (H1 & H2 & H3 & _). unfold tx_done_dev, tx_advanced.
  repeat first [rewrite reg32_put_other by (exec_side || done) | rewrite reg32_raise_status_other by (exec_side || done)].
  done.
Qed.
Lemma tx_done_control d x :
  wf_dev d → is_u32 x → reg32 d NVNET_TX_RX_CONTROL = u32 (x &&& not32 NVNET_TX_RX_CONTROL_IDLE) →
  reg32 (tx_done_dev d) NVNET_TX_RX_CONTROL = x ||| NVNET_TX_RX_CONTROL_IDLE.
Proof.
  intros Hwf Hx Hd. pose proof (wf_clear_offset d Hwf) as Hwf1. unfold tx_done_dev, tx_advanced. regs_simpl.
  change (reg32 (d <| tx_dma_buf_offset := 0 |>) NVNET_TX_RX_CONTROL) with (reg32 d NVNET_TX_RX_CONTROL).
  rewrite Hd. by apply idle_again.
Qed.

(** The descriptors of a packet after it was sent. *)
Lemma gathered_handed_back d m c fs l d' m' j x :
  tx_at d c → ram_bytes m → tx_packet d m c fs l → gathered d m c fs l d' m' →
  (fs ++ [l]) !! j = Some x →
  read_desc (ram_write m' (tx_slot d c (length fs)) (ring_desc_bytes (tx_done_desc l)))
    (tx_slot d c j) = tx_done_desc x.
Proof.
  intros Hc Hm Htp Hg Hj. pose proof (tp_count _ _ _ _ _ Htp) as Hn.
  apply lookup_app_Some in Hj as [Hj|[Hge Hj]].
  - pose proof (lookup_lt_Some _ _ _ Hj) as Hlt. rewrite read_desc_disjoint.
    + by apply (ga_done _ _ _ _ _ _ _ Hg).
    + rewrite blen_ring_desc_bytes. by apply tx_slot_disjoint.
  - pose proof (lookup_lt_Some _ _ _ Hj) as Hlt. cbn in Hlt.
    assert (j = length fs) as -> by lia. rewrite Nat.sub_diag in Hj. injection Hj as <-.
    apply read_desc_stored, wf_tx_done_desc.
    rewrite <-(tp_mem _ _ _ _ _ Htp (length fs) l); [by apply wf_read_desc|].
    by rewrite lookup_app_r, Nat.sub_diag by lia.
Qed.
Lemma gathered_off_ring d m c fs l d' m' bs a :
  tx_at d c → gathered d m c fs l d' m' → blen bs = 8 →
  a < tx_ring_base d ∨ tx_ring_base d + 8 * tx_ring_size d ≤ a →
  ram_write m' (tx_slot d c (length fs)) bs a = m a.
Proof.
  intros Hc Hg Hb Ha. rewrite ram_write_other.
  - apply (ga_mem _ _ _ _ _ _ _ Hg). intros j _. pose proof (tx_slot_in d c j Hc).
    unfold in_range. lia.
  - pose proof (tx_slot_in d c (length fs) Hc). lia.
Qed.

(** C5. Transmission with the proxy off: when the guest kicks the transmitter and its
    ring holds, from the current slot on, descriptors [fs] and a last one [l] whose
    buffers lie outside the ring, the packet is exactly the bytes that were gathered
    before and those of the fragments in ring order, wrapping at the ring's end.  It
    reaches QEMU's backend, once, unless a handler claims it even though the proxy is
    off ([claimed]: a DHCP message to the server, or a TCP segment while an inbound
    connection is open).  Every descriptor is handed back with its valid and error
    bits cleared; the ring pointers are at the last descriptor and just past it; the
    transmit buffer is empty, DMA is idle and the transmit interrupt is raised.
    Nothing else changes: no memory outside the ring, no register but the four of
    [tx_changes], nothing else of the device but the contents of the transmit buffer,
    and nothing of the proxy. *)
Theorem transmit_delivers w c fs l :
  let pkt := slice 0 (tx_dma_buf_offset (dev w)) (tx_dma_buf (dev w)) ++ packet (ram w) (fs ++ [l]) in
  wf_dev (dev w) → ram_bytes (ram w) → tx_ready (dev w) = true → tx_at (dev w) c →
  tx_packet (dev w) (ram w) c fs l →
  nvnet_proxy_enabled (proxy w) = false → claimed (proxy w) pkt (blen pkt) = false →
  ∃ w', dma_packet_from_guest w = Ok (tt, w') ∧
    trace w' = h_qemu_send_packet pkt :: trace w ∧ proxy w' = proxy w ∧
    (∀ j x, (fs ++ [l]) !! j = Some x →
       read_desc (ram w') (tx_slot (dev w) c j) = tx_done_desc x) ∧
    (∀ a, a < tx_ring_base (dev w) ∨
          tx_ring_base (dev w) + 8 * tx_ring_size (dev w) ≤ a → ram w' a = ram w a) ∧
    reg32 (dev w') NVNET_TX_RING_CURRENT_DESC_PHYS_ADDR = tx_slot (dev w) c (length fs) ∧
    reg32 (dev w') NVNET_TX_RING_NEXT_DESC_PHYS_ADDR = tx_slot (dev w) c (length (fs ++ [l])) ∧
    tx_dma_buf_offset (dev w') = 0 ∧
    reg32 (dev w') NVNET_TX_RX_CONTROL = reg32 (dev w) NVNET_TX_RX_CONTROL ||| NVNET_TX_RX_CONTROL_IDLE ∧
    reg32 (dev w') NVNET_IRQ_STATUS = reg32 (dev w) NVNET_IRQ_STATUS ||| NVNET_IRQ_STATUS_TX ∧
    irq (dev w') = irq_level (dev w') ∧
    (∀ a, reg_ok a = true → a ∉ tx_changes → reg32 (dev w') a = reg32 (dev w) a) ∧
    tx_rest (dev w') = tx_rest (dev w).
Proof.
  destruct w as [d m p t]. intros pkt Hwf Hm Hr Hc Htp Hp Hcl.
  cbn [dev ram proxy trace] in *.
  destruct (dma_packet_from_guest_gathers d m p t c fs l) as (d' & m' & Hg & ->); try done.
  assert (Hregs : ∀ a, reg_ok a = true → a ≠ NVNET_TX_RX_CONTROL →
            reg32 (not_idle d) a = reg32 d a) by (intros; by apply reg32_put_other).
  pose proof (ga_wf _ _ _ _ _ _ _ Hg) as Hwf'. pose proof (ga_off _ _ _ _ _ _ _ Hg) as Ho.
  pose proof (ga_buf _ _ _ _ _ _ _ Hg) as Hb.
  change (tx_dma_buf_offset (not_idle d)) with (tx_dma_buf_offset d) in Ho, Hb.
  change (tx_dma_buf (not_idle d)) with (tx_dma_buf d) in Hb. fold pkt in Hb.
  pose proof (tp_fits _ _ _ _ _ Htp) as Hfit. rewrite <-Ho in Hfit.
  assert (Hlen : blen pkt = tx_dma_buf_offset d').
  { rewrite <-Hb. pose proof (wf_tx_off _ Hwf') as Hu. unfold is_u32 in Hu.
    apply blen_slice; [lia|lia|]. unfold blen. rewrite (wf_tx_len _ Hwf'). lia. }
  assert (Hc' : tx_at (not_idle d) c) by by apply (same_at d).
  assert (Htp' : tx_packet (not_idle d) m c fs l) by by apply (same_packet d).
  assert (Hs : ∀ j, tx_slot (not_idle d) c j = tx_slot d c j) by (intros; by apply same_slot).
  rewrite exec_tx_epilogue; [|done|done|done|].
  2: { rewrite Hlen, <-Hb, claimed_slice in Hcl. done. }
  rewrite Hb. eexists. split; [done|]. cbn [dev ram proxy trace]. split_and!; try done.
  - intros j x Hj. rewrite <-!Hs. by eapply (gathered_handed_back _ m).
  - intros a Ha. rewrite <-Hs. apply (gathered_off_ring _ m c fs l d'); try done.
    rewrite (same_base d (not_idle d)), (same_size d (not_idle d)) by done. done.
  - rewrite tx_done_other_regs by (done || by apply (bool_decide_unpack _)).
    rewrite (ga_cur _ _ _ _ _ _ _ Hg). apply Hs.
  - pose proof (ga_next _ _ _ _ _ _ _ Hg) as Hn. rewrite Hs in Hn.
    rewrite tx_done_next, Hn, length_app; [f_equal; cbn; lia|done|].
    rewrite Hn. pose proof (tx_slot_in d c (S (length fs)) Hc). destruct Hc as ((?&?&?)&_).
    unfold is_u32. lia.
  - apply tx_done_control; [done|by apply reg32_range|]. rewrite (ga_regs _ _ _ _ _ _ _ Hg) by done.
    unfold not_idle. by rewrite reg32_put_same.
  - destruct (tx_done_irq d' Hwf') as [-> _].
    by rewrite (ga_regs _ _ _ _ _ _ _ Hg), Hregs by done.
  - intros a Ha Hn. unfold tx_changes in Hn. rewrite !not_elem_of_cons in Hn. destruct Hn as (?&?&?&?&_).
    rewrite tx_done_other_regs by (done || rewrite !not_elem_of_cons; split_and!; (done || apply not_elem_of_nil)).
    by rewrite (ga_regs _ _ _ _ _ _ _ Hg), Hregs.
  - by apply (ga_rest _ _ _ _ _ _ _ Hg).
Qed.
End tx_runs.

(** A ring of four descriptors at 0x1000; a 20-byte packet in two fragments that
    wraps from slot 3 to slot 0. *)
Definition demo_tx_frag1 : RingDesc := mkRingDesc 0x2000 15 NV_TX_VALID.
Definition demo_tx_frag2 : RingDesc := mkRingDesc 0x3000 3 (NV_TX_VALID ||| NV_TX_LASTPACKET).
Definition demo_tx_dev : NvNetState :=
  put_reg NVNET_TRANSMITTER_CONTROL 1 (put_reg NVNET_TX_RING_NEXT_DESC_PHYS_ADDR 0x1018
    (put_reg NVNET_TX_RING_PHYS_ADDR 0x1000 (put_reg NVNET_RING_SIZE 0x30003
      (set_phy_reg MII_BMSR MII_BMSR_LINK_ST zero_dev)))).
Definition demo_tx_world : World :=
  mkWorld demo_tx_dev
    (ram_write (ram_write (ram_write (λ _, 0) 0x2000 (seqZ 1 16)) 0x1018
       (ring_desc_bytes demo_tx_frag1)) 0x1000 (ring_desc_bytes demo_tx_frag2))
    proxy_init [].

Lemma wf_demo_tx : wf_dev demo_tx_dev ∧ ram_bytes (ram demo_tx_world).
Proof.
  split.
  - do 4 apply wf_put_reg. apply wf_set_phy_reg; [apply wf_zero_dev|done].
  - repeat (apply ram_bytes_write; [|apply bytes_ring_desc_bytes]). apply ram_bytes_write.
    + by intros a.
    + repeat constructor; vm_compute; congruence.
Qed.
Lemma tx_packet_demo :
  tx_packet demo_tx_dev (ram demo_tx_world) 3 [demo_tx_frag1] demo_tx_frag2.
Proof.
  assert (Hb : tx_ring_base demo_tx_dev = 0x1000) by (vm_compute; reflexivity).
  assert (Hn : tx_ring_size demo_tx_dev = 4) by (vm_compute; reflexivity).
  split.
  - intros [|[|j]] x Hj; [injection Hj as <-|injection Hj as <-|discriminate];
      vm_compute; reflexivity.
  - do 2 (apply Forall_cons; split;
      [split; [reflexivity|right; rewrite Hb, Hn; vm_compute; congruence]|]). constructor.
  - repeat constructor.
  - reflexivity.
  - by rewrite Hn.
  - vm_compute. congruence.
Qed.

Lemma transmit_delivers_witness :
  ∃ w', @dma_packet_from_guest (const_host 0) demo_tx_world = Ok (tt, w') ∧
    trace w' = [h_qemu_send_packet (seqZ 1 16 ++ [0; 0; 0; 0])] ∧
    reg32 (dev w') NVNET_TX_RING_NEXT_DESC_PHYS_ADDR = 0x1008.
Proof.
  destruct (@transmit_delivers (const_host 0) demo_tx_world 3 [demo_tx_frag1] demo_tx_frag2)
    as (w' & Hrun & Ht & _ & _ & _ & _ & Hn & _).
  - apply wf_demo_tx.
  - apply wf_demo_tx.
  - vm_compute. reflexivity.
  - unfold tx_at, ring_fits. vm_compute. repeat split; congruence.
  - exact tx_packet_demo.
  - reflexivity.
  - vm_compute. reflexivity.
  - exists w'. split; [exact Hrun|]. split; [rewrite Ht; vm_compute; reflexivity|].
    rewrite Hn. vm_compute. reflexivity.
Defined.

(** A guest that brings the link up, puts a descriptor in memory and sets up the ring:
    the kick that follows sends the packet. *)
Definition demo_setup : list event :=
  [ev_link_status false; ev_autoneg_timer; ev_cpu_store 0x1000 (ring_desc_bytes demo_tx_frag2);
   ev_mmio_write NVNET_RING_SIZE 0x30003 4; ev_mmio_write NVNET_TX_RING_PHYS_ADDR 0x1000 4;
   ev_mmio_write NVNET_TX_RING_NEXT_DESC_PHYS_ADDR 0x1000 4; ev_mmio_write NVNET_TRANSMITTER_CONTROL 1 4].
Definition demo_kick : event := ev_mmio_write NVNET_TX_RX_CONTROL NVNET_TX_RX_CONTROL_KICK 4.

Fixpoint handle_all `{HostOS} (l : list event) (w : World) : res World :=
  match l with
  | [] => Ok w
  | e :: l => match handle e w with Ok (_, w') => handle_all l w' | Fault f => Fault f end
  end.
Lemma reach_all `{HostOS} l w w' :
  reachable w → Forall event_ok l → handle_all l w = Ok w' → reachable w'.
Proof.
  intros Hw Hl. revert w Hw. induction Hl as [|e l He Hl IH]; intros w Hw; cbn; [by intros [= <-]|].
  destruct (handle e w) as [[[] w1]|] eqn:E; [|done]. apply IH. by eapply reach_step.
Qed.
Lemma demo_setup_ok : Forall event_ok demo_setup.
Proof. repeat constructor; cbn; try lia; try done; apply bytes_ring_desc_bytes. Qed.

Definition demo_ready : World :=
  match @handle_all (const_host 0) demo_setup zero_world with Ok w => w | Fault _ => zero_world end.
Definition demo_sent : list host_call :=
  match @handle (const_host 0) demo_kick demo_ready with Ok (_, w') => trace w' | Fault _ => [] end.
Lemma demo_ready_reachable : @reachable (const_host 0) demo_ready.
Proof.
  unfold demo_ready. destruct (@handle_all (const_host 0) demo_setup zero_world) eqn:E; [|constructor].
  by apply (@reach_all (const_host 0) demo_setup zero_world); [constructor|exact demo_setup_ok|].
Qed.

Lemma controller_terminates_witness :
  @handle (const_host 0) demo_kick demo_ready ≠ Fault OutOfFuel ∧
  demo_sent = [h_qemu_send_packet [0; 0; 0; 0]].
Proof.
  split; [|vm_compute; reflexivity].
  apply (@controller_terminates (const_host 0)); [exact demo_ready_reachable|cbn; lia].
Defined.

(** ** PHY registers over MDIO *)

(** The values a driver writes to [NVNET_MDIO_ADDR]. *)
Definition mdio_cmd (pa reg : Z) : Z := (pa <<< 5) ||| reg.

(** The fields of every command, checked one by one. *)
Lemma mdio_cmd_fields pa reg (rw : bool) :
  0 ≤ pa < 32 → 0 ≤ reg < 32 →
  let v := if rw then NVNET_MDIO_ADDR_WRITE ||| mdio_cmd pa reg else mdio_cmd pa reg in
  u32 v = v ∧ truthy (v &&& NVNET_MDIO_ADDR_WRITE) = rw ∧
  u8 (GET_MASK v NVNET_MDIO_ADDR_PHYADDR) = pa ∧ u8 (GET_MASK v NVNET_MDIO_ADDR_PHYREG) = reg ∧
  v &&& NVNET_MDIO_ADDR_INUSE = 0.
Proof.
  intros Hpa Hreg v.
  assert (Hall : forallb (λ pa, forallb (λ reg, forallb (λ rw : bool,
    let v := if rw then NVNET_MDIO_ADDR_WRITE ||| mdio_cmd pa reg else mdio_cmd pa reg in
    (u32 v =? v) && eqb (truthy (v &&& NVNET_MDIO_ADDR_WRITE)) rw &&
    (u8 (GET_MASK v NVNET_MDIO_ADDR_PHYADDR) =? pa) &&
    (u8 (GET_MASK v NVNET_MDIO_ADDR_PHYREG) =? reg) &&
    ((v &&& NVNET_MDIO_ADDR_INUSE) =? 0)) [true; false]) (seqZ 0 32)) (seqZ 0 32) = true)
    by (vm_compute; reflexivity).
  rewrite forallb_forall in Hall. specialize (Hall pa). rewrite forallb_forall in Hall.
  assert (Hin : ∀ x, 0 ≤ x < 32 → In x (seqZ 0 32)).
  { intros x Hx. apply list_elem_of_In, elem_of_seqZ. lia. }
  specialize (Hall (Hin pa Hpa) reg (Hin reg Hreg)). rewrite forallb_forall in Hall.
  specialize (Hall rw ltac:(destruct rw; cbn; auto)). fold v in Hall. cbv zeta in Hall.
  rewrite !andb_true_iff, !Z.eqb_eq in Hall. destruct Hall as [[[[H1 H2%eqb_prop] H3] H4] H5].
  done.
Qed.

Section mdio.
Context `{HostOS}.

(** A PHY access as a driver does it: the data register, then the command. *)
Definition mdio_rw (pa reg v : Z) : M World Z :=
  nvnet_mmio_write NVNET_MDIO_DATA v 4;;
  nvnet_mmio_write NVNET_MDIO_ADDR (NVNET_MDIO_ADDR_WRITE ||| mdio_cmd pa reg) 4;;
  nvnet_mmio_write NVNET_MDIO_ADDR (mdio_cmd pa reg) 4;;
  nvnet_mmio_read NVNET_MDIO_DATA 4.

Lemma exec_mmio_data d m p t v :
  wf_dev d → nvnet_mmio_write NVNET_MDIO_DATA v 4 (mkWorld d m p t) =
    Ok (tt, mkWorld (put_reg NVNET_MDIO_DATA v d) m p t).
Proof. intros. unfold nvnet_mmio_write. erewrite run_bind by reflexivity. by apply exec_set_reg. Qed.

(** The device after a write or a read command. *)
Definition mdio_ack (d : NvNetState) : NvNetState :=
  put_reg NVNET_MDIO_ADDR (reg32 d NVNET_MDIO_ADDR &&& not32 NVNET_MDIO_ADDR_INUSE) d.
Definition phy_write (pa reg v : Z) (d : NvNetState) : NvNetState :=
  if (pa =? PHY_ADDR) && (reg <? 6) then set_phy_reg reg (u16 v) d else d.
Definition phy_value (pa reg : Z) (d : NvNetState) : Z :=
  if pa =? PHY_ADDR then (if reg <? 6 then u16 (phy_reg reg d) else 0) else 0xFFFFFFFF.

Lemma wf_phy_write pa reg v d : wf_dev d → wf_dev (phy_write pa reg v d).
Proof.
  intros Hd. unfold phy_write. destruct (_ && _); [|done]. apply wf_set_phy_reg; [done|].
  pose proof (u16_range v). unfold is_u16, is_u32 in *. lia.
Qed.

Lemma exec_mdio_cmd (rw : bool) pa reg d m p t :
  wf_dev d → 0 ≤ pa < 32 → 0 ≤ reg < 32 →
  let v := if rw then NVNET_MDIO_ADDR_WRITE ||| mdio_cmd pa reg else mdio_cmd pa reg in
  let d1 := put_reg NVNET_MDIO_ADDR v d in
  nvnet_mmio_write NVNET_MDIO_ADDR v 4 (mkWorld d m p t) =
    Ok (tt, mkWorld (mdio_ack
      (if rw then phy_write pa reg (reg32 d NVNET_MDIO_DATA) d1
       else put_reg NVNET_MDIO_DATA (phy_value pa reg d) d1)) m p t).
Proof.
  intros Hd Hpa Hreg v d1. destruct (mdio_cmd_fields pa reg rw Hpa Hreg) as (H1 & H2 & H3 & H4 & _).
  fold v in H1, H2, H3, H4. assert (Hd1 : wf_dev d1) by by apply wf_put_reg.
  assert (Hv : reg32 d1 NVNET_MDIO_ADDR = v) by (unfold d1; by rewrite reg32_put_same).
  unfold nvnet_mmio_write. erewrite run_bind by reflexivity. rewrite Z.eqb_refl.
  erewrite run_bind by reflexivity.
  erewrite run_bind by exact (exec_set_reg d m p t NVNET_MDIO_ADDR v Hd eq_refl).
  fold d1. rewrite H2. destruct rw.
  - unfold mdio_write. do 2 exec_step. rewrite Hv, H3, H4.
    assert (Hdata : reg32 d1 NVNET_MDIO_DATA = reg32 d NVNET_MDIO_DATA)
      by (unfold d1; by rewrite reg32_put_other). rewrite Hdata.
    pose proof (wf_phy_write pa reg (reg32 d NVNET_MDIO_DATA) d1 Hd1) as Hd2. revert Hd2.
    unfold phy_write, phy_reg_write.
    destruct (pa =? PHY_ADDR), (reg <? 6); cbn [andb]; intros Hd2;
      erewrite run_bind by reflexivity; exact (exec_and_reg _ m p t NVNET_MDIO_ADDR _ Hd2 eq_refl).
  - unfold mdio_read. exec_step. rewrite Hv, H3, H4.
    assert (Hread : (if pa =? PHY_ADDR then phy_reg_read reg else mret 0xFFFFFFFF) (mkWorld d1 m p t) =
              Ok (phy_value pa reg d, mkWorld d1 m p t)).
    { unfold phy_value, phy_reg_read. by destruct (pa =? PHY_ADDR), (reg <? 6). }
    erewrite run_bind by exact Hread. exec_step. by rewrite exec_and_reg by (done || by apply wf_put_reg).
Qed.
End mdio.

Section mdio_spec.
Context `{HostOS}.

(** PHY registers: writing [v] to register [reg] of the PHY at address [pa]
    over MDIO and reading it back yields the low 16 bits of [v] for the six
    registers of the built-in PHY (address 1), 0 for its other registers and
    all ones for an absent PHY; only that register changes, and the busy bit of
    the MDIO command register is clear again. *)
Theorem mdio_roundtrip w pa reg v :
  wf_dev (dev w) → 0 ≤ pa < 32 → 0 ≤ reg < 32 → is_u32 v →
  ∃ w', mdio_rw pa reg v w =
      Ok (if pa =? PHY_ADDR then (if reg <? 6 then u16 v else 0) else 0xFFFFFFFF, w') ∧
    phy_regs (dev w') =
      (if (pa =? PHY_ADDR) && (reg <? 6) then <[Z.to_nat reg := u16 v]> (phy_regs (dev w))
       else phy_regs (dev w)) ∧
    reg32 (dev w') NVNET_MDIO_ADDR &&& NVNET_MDIO_ADDR_INUSE = 0.
Proof.
  destruct w as [d m p t]. cbn [dev]. intros Hd Hpa Hreg Hv.
  set (d1 := put_reg NVNET_MDIO_DATA v d). assert (Hd1 : wf_dev d1) by by apply wf_put_reg.
  assert (Hdata : reg32 d1 NVNET_MDIO_DATA = v)
    by (unfold d1; rewrite reg32_put_same by done; by apply u32_id).
  pose proof (exec_mdio_cmd true pa reg d1 m p t Hd1 Hpa Hreg) as Hw. cbv zeta in Hw.
  rewrite Hdata in Hw. set (d2 := mdio_ack _) in Hw.
  assert (Hd2 : wf_dev d2) by (apply wf_put_reg, wf_phy_write, wf_put_reg, Hd1).
  pose proof (exec_mdio_cmd false pa reg d2 m p t Hd2 Hpa Hreg) as Hr. cbv zeta in Hr.
  set (d3 := put_reg NVNET_MDIO_ADDR (mdio_cmd pa reg) d2) in Hr.
  assert (Hd3 : wf_dev d3) by by apply wf_put_reg.
  set (d4 := put_reg NVNET_MDIO_DATA _ d3) in Hr.
  assert (Hd4 : wf_dev d4) by by apply wf_put_reg.
  destruct (mdio_cmd_fields pa reg false Hpa Hreg) as (Hc & _ & _ & _ & Huse). cbv zeta in Hc, Huse.
  assert (Hval : phy_value pa reg d2 =
            if pa =? PHY_ADDR then (if reg <? 6 then u16 v else 0) else 0xFFFFFFFF).
  { unfold phy_value. destruct (pa =? PHY_ADDR) eqn:Ep; [|done].
    destruct (reg <? 6) eqn:Er; [|done]. unfold d2, mdio_ack, phy_write. rewrite Ep, Er.
    cbn [andb]. unfold phy_reg. cbn. rewrite list_lookup_total_insert_eq.
    - unfold u16. by rewrite Z.mod_mod.
    - rewrite (wf_phy_len d Hd). apply Z.ltb_lt in Er. lia. }
  exists (mkWorld (mdio_ack d4) m p t). split; [|split].
  - unfold mdio_rw. erewrite run_bind by by apply exec_mmio_data. fold d1.
    erewrite run_bind by exact Hw. erewrite run_bind by exact Hr. unfold nvnet_mmio_read.
    rewrite <-Hval. change (get_reg_ext NVNET_MDIO_DATA 4) with (get_reg NVNET_MDIO_DATA).
    rewrite exec_get_reg by (done || by apply wf_put_reg). do 2 f_equal.
    unfold mdio_ack. rewrite reg32_put_other by done. unfold d4. rewrite reg32_put_same by done.
    rewrite Hval. unfold u32. repeat case_match; apply Z.mod_small; try lia.
    pose proof (u16_range v). unfold is_u16 in *. lia.
  - cbn. unfold phy_write. by destruct (_ && _).
  - cbn [dev]. unfold mdio_ack. rewrite reg32_put_same by done. unfold d4.
    rewrite reg32_put_other by done. unfold d3. rewrite reg32_put_same, Hc by done.
    apply Z.bits_inj'. intros i Hi. apply (f_equal (λ z, Z.testbit z i)) in Huse.
    revert Huse. unfold u32. rewrite !Z.land_spec, Z.bits_0. intros Huse.
    destruct (Z.lt_ge_cases i 32).
    + rewrite Z.mod_pow2_bits_low by lia. rewrite Z.land_spec.
      destruct (Z.testbit (mdio_cmd pa reg) i), (Z.testbit NVNET_MDIO_ADDR_INUSE i); try done;
        by rewrite ?andb_false_r.
    + by rewrite Z.mod_pow2_bits_high by lia.
Qed.
End mdio_spec.

Lemma mdio_roundtrip_witness :
  ∃ w', @mdio_rw (const_host 0) 1 4 0x1234 zero_world = Ok (0x1234, w').
Proof.
  destruct (@mdio_roundtrip (const_host 0) zero_world 1 4 0x1234 wf_zero_dev)
    as (w' & Hrun & _); [lia|lia|unfold is_u32; lia|]. exists w'. exact Hrun.
Defined.

(** ** Link negotiation *)

Lemma phy_reg_set_same i v d :
  wf_dev d → 0 ≤ i < 6 → phy_reg i (set_phy_reg i v d) = v.
Proof.
  intros Hd Hi. unfold phy_reg. cbn. apply list_lookup_total_insert_eq.
  rewrite (wf_phy_len d Hd). lia.
Qed.
Lemma phy_reg_set_other i j v d :
  0 ≤ i → 0 ≤ j → i ≠ j → phy_reg j (set_phy_reg i v d) = phy_reg j d.
Proof. intros. unfold phy_reg. cbn. apply list_lookup_total_insert_ne. lia. Qed.
Lemma phy_reg_put_reg i a v d : phy_reg i (put_reg a v d) = phy_reg i d.
Proof. done. Qed.
Lemma phy_reg_range i d : wf_dev d → is_u32 (phy_reg i d).
Proof.
  intros Hd. unfold phy_reg. rewrite list_lookup_total_alt.
  destruct (phy_regs d !! Z.to_nat i) eqn:E; [|done].
  eapply (Forall_lookup_1 is_u32); [apply Hd|done].
Qed.
Lemma lor_land_self x k : (x ||| k) &&& k = k.
Proof. bitwise i. Qed.
Lemma lor_keeps_bit x j k : (x &&& k) = k → ((x ||| j) &&& k) = k.
Proof.
  intros Hx. bitwise i. apply (f_equal (λ z, Z.testbit z i)) in Hx. rewrite Z.land_spec in Hx.
  by destruct (Z.testbit x i), (Z.testbit j i), (Z.testbit k i).
Qed.

Section link.
Context `{HostOS}.

(** The device when the negotiation has succeeded. *)
Definition phy_or (i k : Z) (d : NvNetState) : NvNetState := set_phy_reg i (phy_reg i d ||| k) d.
Definition link_done_dev (d : NvNetState) : NvNetState :=
  let d := phy_or MII_BMSR MII_BMSR_LINK_ST
             (phy_or MII_BMSR MII_BMSR_AN_COMP (phy_or MII_ANLPAR MII_ANLPAR_ACK d)) in
  let d := put_reg NVNET_ADAPTER_CONTROL
             (reg32 d NVNET_ADAPTER_CONTROL ||| NVNET_ADAPTER_CONTROL_LINKUP) d in
  raise_status NVNET_IRQ_STATUS_MIIEVENT
    (put_reg NVNET_MII_STATUS (reg32 d NVNET_MII_STATUS ||| NVNET_MII_STATUS_LINKCHANGE) d).

Lemma wf_phy_or i k d : wf_dev d → is_u32 k → wf_dev (phy_or i k d).
Proof.
  intros Hd Hk. apply wf_set_phy_reg; [done|]. apply lor_bound; [lia|by apply phy_reg_range|done].
Qed.

Lemma exec_autoneg_done d m p t :
  wf_dev d → autoneg_done (mkWorld d m p t) = Ok (tt, mkWorld (link_done_dev d) m p t).
Proof.
  intros Hd. unfold autoneg_done, set_link_up, update_regs_on_link_up.
  do 2 erewrite run_bind by reflexivity.
  set (d1 := phy_or MII_BMSR MII_BMSR_AN_COMP (phy_or MII_ANLPAR MII_ANLPAR_ACK d)).
  assert (Hd2 : wf_dev (phy_or MII_BMSR MII_BMSR_LINK_ST d1))
    by (repeat apply wf_phy_or; try done; unfold is_u32; vm_compute; split; congruence).
  erewrite run_bind; [|erewrite run_bind by reflexivity;
    exact (exec_or_reg _ m p t NVNET_ADAPTER_CONTROL _ Hd2 eq_refl)].
  by rewrite exec_set_mii_intr_status by by apply wf_put_reg.
Qed.

Lemma link_done_spec d :
  wf_dev d →
  let e := link_done_dev d in
  phy_reg MII_BMSR e &&& MII_BMSR_LINK_ST = MII_BMSR_LINK_ST ∧
  phy_reg MII_BMSR e &&& MII_BMSR_AN_COMP = MII_BMSR_AN_COMP ∧
  phy_reg MII_ANLPAR e &&& MII_ANLPAR_ACK = MII_ANLPAR_ACK ∧
  reg32 e NVNET_ADAPTER_CONTROL &&& NVNET_ADAPTER_CONTROL_LINKUP = NVNET_ADAPTER_CONTROL_LINKUP ∧
  reg32 e NVNET_MII_STATUS &&& NVNET_MII_STATUS_LINKCHANGE = NVNET_MII_STATUS_LINKCHANGE ∧
  reg32 e NVNET_IRQ_STATUS &&& NVNET_IRQ_STATUS_MIIEVENT = NVNET_IRQ_STATUS_MIIEVENT ∧
  irq e = irq_level e.
Proof.
  intros Hd e.
  set (d1 := phy_or MII_ANLPAR MII_ANLPAR_ACK d). set (d2 := phy_or MII_BMSR MII_BMSR_AN_COMP d1).
  set (d3 := phy_or MII_BMSR MII_BMSR_LINK_ST d2).
  assert (Hd1 : wf_dev d1) by (apply wf_phy_or; [done|unfold is_u32; vm_compute; split; congruence]).
  assert (Hd2 : wf_dev d2) by (apply wf_phy_or; [done|unfold is_u32; vm_compute; split; congruence]).
  assert (Hd3 : wf_dev d3) by (apply wf_phy_or; [done|unfold is_u32; vm_compute; split; congruence]).
  assert (Hr : ∀ a, reg32 d3 a = reg32 d a) by done.
  assert (Hbmsr : phy_reg MII_BMSR e = (phy_reg MII_BMSR d1 ||| MII_BMSR_AN_COMP) ||| MII_BMSR_LINK_ST).
  { change (phy_reg MII_BMSR d3 = phy_reg MII_BMSR d1 ||| MII_BMSR_AN_COMP ||| MII_BMSR_LINK_ST).
    unfold d3, phy_or. rewrite phy_reg_set_same by done. unfold d2, phy_or.
    by rewrite phy_reg_set_same by done. }
  assert (Hanl : phy_reg MII_ANLPAR e = phy_reg MII_ANLPAR d ||| MII_ANLPAR_ACK).
  { change (phy_reg MII_ANLPAR d3 = phy_reg MII_ANLPAR d ||| MII_ANLPAR_ACK).
    unfold d3, d2, phy_or at 1 2. rewrite !phy_reg_set_other by done. unfold d1, phy_or.
    by rewrite phy_reg_set_same by done. }
  rewrite Hbmsr, Hanl. split_and!; try apply lor_land_self; [by apply lor_keeps_bit, lor_land_self|..].
  all: try done.
  all: unfold e, link_done_dev; fold d1; fold d2; fold d3; regs_simpl.
  all: rewrite ?Hr, ?u32_id by (apply lor_bound; [lia|by apply reg32_range|done]).
  all: try apply lor_land_self.
Qed.

(** Plugging the cable back in: with auto-negotiation enabled and incomplete,
    the link change only arms the negotiation timer, 250 ms from now; when the
    timer fires with the cable still in, the link is up, negotiation is
    complete and acknowledged by the partner, the adapter reports the link, and
    the link-change interrupt is raised. *)
Theorem link_renegotiates w :
  let now := hr_val (os_ret (trace w) h_clock_ms) in
  wf_dev (dev w) → link_down (dev w) = false →
  phy_reg MII_BMCR (dev w) &&& MII_BMCR_AUTOEN ≠ 0 →
  phy_reg MII_BMSR (dev w) &&& MII_BMSR_AN_COMP = 0 →
  ∃ w1 w2, nvnet_set_link_status w = Ok (tt, w1) ∧
    autoneg_timer_deadline (dev w1) = Some (now + 250) ∧
    regs (dev w1) = regs (dev w) ∧ phy_regs (dev w1) = phy_regs (dev w) ∧
    autoneg_timer w1 = Ok (tt, w2) ∧ link_up w2 = Ok (true, w2) ∧
    phy_reg MII_BMSR (dev w2) &&& MII_BMSR_AN_COMP = MII_BMSR_AN_COMP ∧
    phy_reg MII_ANLPAR (dev w2) &&& MII_ANLPAR_ACK = MII_ANLPAR_ACK ∧
    reg32 (dev w2) NVNET_ADAPTER_CONTROL &&& NVNET_ADAPTER_CONTROL_LINKUP =
      NVNET_ADAPTER_CONTROL_LINKUP ∧
    reg32 (dev w2) NVNET_MII_STATUS &&& NVNET_MII_STATUS_LINKCHANGE =
      NVNET_MII_STATUS_LINKCHANGE ∧
    reg32 (dev w2) NVNET_IRQ_STATUS &&& NVNET_IRQ_STATUS_MIIEVENT = NVNET_IRQ_STATUS_MIIEVENT ∧
    irq (dev w2) = irq_level (dev w2).
Proof.
  destruct w as [d m p t]. intros now Hd Hl Ha%truthy_true Hn%truthy_false. cbn [dev trace] in *.
  set (d1 := d <| autoneg_timer_deadline := Some (now + 250) |>).
  assert (Hd1 : wf_dev d1) by (destruct Hd; by split).
  exists (mkWorld d1 m p (h_clock_ms :: t)), (mkWorld (link_done_dev d1) m p (h_clock_ms :: t)).
  assert (H1 : nvnet_set_link_status (mkWorld d m p t) = Ok (tt, mkWorld d1 m p (h_clock_ms :: t))).
  { unfold nvnet_set_link_status. erewrite run_bind by reflexivity. cbn [dev]. rewrite Hl.
    do 2 erewrite run_bind by reflexivity. cbn [dev]. by rewrite Ha, Hn. }
  split; [exact H1|]. do 3 (split; [done|]).
  split. { unfold autoneg_timer. erewrite run_bind by reflexivity. cbn [dev].
    change (link_down d1) with (link_down d). rewrite Hl. by apply exec_autoneg_done. }
  pose proof (link_done_spec d1 Hd1) as (B1 & B2 & B3 & B4 & B5 & B6 & B7).
  split. { rewrite exec_link_up. do 2 f_equal. apply truthy_true. by rewrite B1. }
  by cbn [dev].
Qed.
End link.

(** A device with auto-negotiation enabled and not complete. *)
Definition demo_link_world : World :=
  zero_world <| dev ::= set_phy_reg MII_BMCR MII_BMCR_AUTOEN |>.

Lemma link_renegotiates_witness :
  ∃ w1 w2, @nvnet_set_link_status (const_host 1000) demo_link_world = Ok (tt, w1) ∧
    autoneg_timer_deadline (dev w1) = Some 1250 ∧
    @autoneg_timer w1 = Ok (tt, w2) ∧ link_up w2 = Ok (true, w2).
Proof.
  destruct (@link_renegotiates (const_host 1000) demo_link_world)
    as (w1 & w2 & H1 & Ht & _ & _ & H2 & H3 & _).
  - apply wf_set_phy_reg; [apply wf_zero_dev|unfold is_u32; vm_compute; split; congruence].
  - reflexivity.
  - vm_compute. congruence.
  - reflexivity.
  - exists w1, w2. split; [exact H1|]. split; [exact Ht|]. split; [exact H2|exact H3].
Defined.

(** ** Reset *)

Section reset.
Context `{HostOS}.

Lemma reg32_zero d a : reg_ok a = true → reg32 (d <| regs := replicate 1024 0 |>) a = 0.
Proof.
  intros Ha%reg_ok_bounds. unfold reg32. cbn [regs field_update].
  change (regs (d <| regs := replicate 1024 0 |>)) with (replicate 1024 0).
  assert (Hs : slice a 4 (replicate 1024 0) = replicate 4 0).
  { unfold slice. rewrite drop_replicate, take_replicate. f_equal. lia. }
  by rewrite Hs.
Qed.

(** The PHY registers when the cable is pulled. *)
Definition phy_and (i k : Z) (d : NvNetState) : NvNetState :=
  set_phy_reg i (phy_reg i d &&& not32 k) d.
Definition phy_down (d : NvNetState) : NvNetState :=
  phy_and MII_ANLPAR MII_ANLPAR_ACK
    (phy_and MII_BMSR MII_BMSR_AN_COMP (phy_and MII_BMSR MII_BMSR_LINK_ST d)).

Lemma wf_phy_down d : wf_dev d → wf_dev (phy_down d).
Proof.
  assert (Ha : ∀ i k e, wf_dev e → wf_dev (phy_and i k e)).
  { intros i k e He. apply wf_set_phy_reg; [done|]. apply land_bound; [lia|by apply phy_reg_range]. }
  intros Hd. by repeat apply Ha.
Qed.
Lemma exec_update_regs_on_link_down d m p t :
  wf_dev d → update_regs_on_link_down (mkWorld d m p t) = Ok (tt, mkWorld
    (put_reg NVNET_ADAPTER_CONTROL
       (reg32 d NVNET_ADAPTER_CONTROL &&& not32 NVNET_ADAPTER_CONTROL_LINKUP) (phy_down d)) m p t).
Proof.
  intros Hd. unfold update_regs_on_link_down. do 3 erewrite run_bind by reflexivity.
  exact (exec_and_reg _ m p t NVNET_ADAPTER_CONTROL _ (wf_phy_down d Hd) eq_refl).
Qed.

(** Reset: every register reads 0 except the idle bit of the transmit/receive
    control, the PHY has its power-on registers (with the link, negotiation and
    acknowledge bits clear if the cable is out), both packet buffers are zero
    and empty and the negotiation timer is stopped.  The interrupt line is not
    touched. *)
Theorem nvnet_reset_state w :
  wf_dev (dev w) →
  ∃ w', nvnet_reset w = Ok (tt, w') ∧
    (∀ a, reg_ok a = true → reg32 (dev w') a =
       if a =? NVNET_TX_RX_CONTROL then NVNET_TX_RX_CONTROL_IDLE else 0) ∧
    phy_regs (dev w') =
      (if link_down (dev w) then [0x1100; MII_BMSR_AUTONEG; 0; 0; 0x3E0; 0x3E0] else phy_reg_init) ∧
    tx_dma_buf (dev w') = replicate 1628 0 ∧ rx_dma_buf (dev w') = replicate 1628 0 ∧
    tx_dma_buf_offset (dev w') = 0 ∧ autoneg_timer_deadline (dev w') = None ∧
    irq (dev w') = irq (dev w) ∧ proxy w' = proxy w ∧ ram w' = ram w ∧ trace w' = trace w.
Proof.
  destruct w as [d m p t]. cbn [dev proxy ram trace]. intros Hd.
  set (d0 := d <| regs := replicate 1024 0 |>). assert (Hd0 : wf_dev d0) by by apply wf_cleared.
  unfold nvnet_reset. erewrite run_bind by reflexivity.
  erewrite run_bind by exact (exec_or_reg d0 m p t NVNET_TX_RX_CONTROL _ Hd0 eq_refl).
  rewrite (reg32_zero d) by done. set (d1 := put_reg _ _ d0).
  assert (Hd1 : wf_dev d1) by by apply wf_put_reg.
  assert (Hr1 : ∀ a, reg_ok a = true → reg32 d1 a =
            if a =? NVNET_TX_RX_CONTROL then NVNET_TX_RX_CONTROL_IDLE else 0).
  { intros a Ha. destruct (Z.eqb_spec a NVNET_TX_RX_CONTROL) as [->|].
    - unfold d1. by rewrite reg32_put_same.
    - unfold d1. rewrite reg32_put_other by done. by apply reg32_zero. }
  set (d2 := d1 <| phy_regs := phy_reg_init |> <| tx_dma_buf := replicate 1628 0 |>
    <| rx_dma_buf := replicate 1628 0 |> <| tx_dma_buf_offset := 0 |>
    <| autoneg_timer_deadline := None |>).
  assert (Hd2 : wf_dev d2).
  { destruct Hd1. split; try done; try apply bytes_replicate.
    repeat constructor; vm_compute; congruence. }
  do 2 erewrite run_bind by reflexivity.
  erewrite run_bind by exact (eq_refl (Ok (link_down d, mkWorld d2 m p t))).
  destruct (link_down d); cbn [whenM].
  - erewrite run_bind by exact (exec_update_regs_on_link_down d2 m p t Hd2).
    eexists. split; [reflexivity|]. cbn [dev]. split_and!; try reflexivity.
    intros a Ha. change (reg32 (put_reg NVNET_ADAPTER_CONTROL
      (reg32 d1 NVNET_ADAPTER_CONTROL &&& not32 NVNET_ADAPTER_CONTROL_LINKUP) d1) a =
      if a =? NVNET_TX_RX_CONTROL then NVNET_TX_RX_CONTROL_IDLE else 0).
    destruct (Z.eq_dec a NVNET_ADAPTER_CONTROL) as [->|].
    + rewrite reg32_put_same by done. by rewrite Hr1.
    + rewrite reg32_put_other by done. by apply Hr1.
  - erewrite run_bind by reflexivity. eexists. split; [reflexivity|]. by split_and!.
Qed.
End reset.

Lemma nvnet_reset_state_witness :
  ∃ w', nvnet_reset demo_rx_world = Ok (tt, w') ∧ reg32 (dev w') NVNET_TX_RX_CONTROL = 8.
Proof.
  destruct (nvnet_reset_state demo_rx_world wf_demo_rx_dev) as (w' & Hr & Hregs & _).
  exists w'. split; [exact Hr|]. exact (Hregs NVNET_TX_RX_CONTROL eq_refl).
Defined.

(** The interrupt line can outlive its cause: clearing the status register with
    bit 1 of the transmit/receive control does not update the line, so a machine
    is reachable in which the line is asserted and no status bit is set. *)
Theorem stale_interrupt_reachable :
  ∃ w, @reachable (const_host 0) w ∧ irq (dev w) = true ∧ reg32 (dev w) NVNET_IRQ_STATUS = 0.
Proof.
  eexists. split.
  - eapply (@reach_step (const_host 0) _ (ev_mmio_write NVNET_TX_RX_CONTROL 2 4)).
    + eapply (@reach_step (const_host 0) _ (ev_link_status true)).
      * eapply (@reach_step (const_host 0) _ (ev_mmio_write NVNET_IRQ_MASK 0x40 4));
          [constructor|vm_compute; congruence|vm_compute; reflexivity].
      * done.
      * vm_compute; reflexivity.
    + vm_compute; congruence.
    + vm_compute; reflexivity.
  - split; vm_compute; reflexivity.
Qed.

(** ** Migration *)

Section migration.
Context `{HostOS}.

(** The registers after the ring indices of an old snapshot were converted. *)
Definition migrated (d : NvNetState) : NvNetState :=
  let d := d <| phy_regs := phy_reg_init |> in
  let d := (put_reg NVNET_TX_RING_NEXT_DESC_PHYS_ADDR
    (u32 (tx_ring_base d + tx_ring_index d mod tx_ring_size d * sizeof_RingDesc)) d)
    <| tx_ring_index := 0 |> in
  (put_reg NVNET_RX_RING_NEXT_DESC_PHYS_ADDR
    (u32 (rx_ring_base d + rx_ring_index d mod rx_ring_size d * sizeof_RingDesc)) d)
    <| rx_ring_index := 0 |>.

Lemma wf_reset_phy d : wf_dev d → wf_dev (d <| phy_regs := phy_reg_init |>).
Proof. intros []. split; try done. repeat constructor; vm_compute; congruence. Qed.
Lemma wf_clear_tx_index d : wf_dev d → wf_dev (d <| tx_ring_index := 0 |>).
Proof. intros []. by split. Qed.

Lemma exec_modM x n w : n ≠ 0 → modM x n w = Ok (x mod n, w).
Proof. intros Hn%Z.eqb_neq. unfold modM. by rewrite Hn. Qed.

Lemma exec_post_load_v1 d m p t :
  wf_dev d → tx_ring_size d ≠ 0 → rx_ring_size d ≠ 0 →
  nvnet_post_load 1 (mkWorld d m p t) =
    Ok (tt, mkWorld ((migrated d) <| link_down := false |>) m p t).
Proof.
  intros Hd Ht Hr. unfold nvnet_post_load. cbn [Z.ltb Z.compare Pos.compare Pos.compare_cont whenM].
  set (d1 := d <| phy_regs := phy_reg_init |>). assert (Hd1 := wf_reset_phy d Hd). fold d1 in Hd1.
  set (d2 := put_reg NVNET_TX_RING_NEXT_DESC_PHYS_ADDR
    (u32 (tx_ring_base d1 + tx_ring_index d1 mod tx_ring_size d1 * sizeof_RingDesc)) d1).
  assert (Hd2 := wf_put_reg d1 NVNET_TX_RING_NEXT_DESC_PHYS_ADDR
    (u32 (tx_ring_base d1 + tx_ring_index d1 mod tx_ring_size d1 * sizeof_RingDesc)) Hd1).
  fold d2 in Hd2. set (d3 := d2 <| tx_ring_index := 0 |>).
  assert (Hd3 := wf_clear_tx_index d2 Hd2). fold d3 in Hd3.
  assert (Hr3 : rx_ring_size d3 ≠ 0).
  { unfold rx_ring_size. change (reg32 d3 NVNET_RING_SIZE) with (reg32 d2 NVNET_RING_SIZE).
    unfold d2. by rewrite reg32_put_other. }
  erewrite (run_bind _ _ tt _ (mkWorld (migrated d) m p t)).
  - by do 3 erewrite run_bind by reflexivity.
  - erewrite run_bind by reflexivity.
    erewrite run_bind by exact (exec_get_reg d1 m p t NVNET_TX_RING_PHYS_ADDR Hd1 eq_refl).
    erewrite run_bind by reflexivity.
    erewrite run_bind by exact (exec_get_tx_ring_size d1 m p t Hd1).
    erewrite run_bind by exact (exec_modM _ _ _ Ht).
    erewrite run_bind by exact (exec_set_reg d1 m p t NVNET_TX_RING_NEXT_DESC_PHYS_ADDR _ Hd1 eq_refl).
    erewrite run_bind by reflexivity.
    erewrite run_bind by exact (exec_get_reg d3 m p t NVNET_RX_RING_PHYS_ADDR Hd3 eq_refl).
    erewrite run_bind by reflexivity.
    erewrite run_bind by exact (exec_get_rx_ring_size d3 m p t Hd3).
    erewrite run_bind by exact (exec_modM _ _ _ Hr3).
    by erewrite run_bind
      by exact (exec_set_reg d3 m p t NVNET_RX_RING_NEXT_DESC_PHYS_ADDR _ Hd3 eq_refl).
Qed.

Lemma migrated_regs d a :
  wf_dev d → reg_ok a = true → a ≠ NVNET_TX_RING_NEXT_DESC_PHYS_ADDR →
  a ≠ NVNET_RX_RING_NEXT_DESC_PHYS_ADDR → reg32 (migrated d) a = reg32 d a.
Proof.
  intros Hd Ha H1 H2. set (d1 := d <| phy_regs := phy_reg_init |>).
  assert (Hd1 := wf_reset_phy d Hd). fold d1 in Hd1.
  set (d2 := (put_reg NVNET_TX_RING_NEXT_DESC_PHYS_ADDR
    (u32 (tx_ring_base d1 + tx_ring_index d1 mod tx_ring_size d1 * sizeof_RingDesc)) d1)
    <| tx_ring_index := 0 |>).
  change (reg32 (put_reg NVNET_RX_RING_NEXT_DESC_PHYS_ADDR
    (u32 (rx_ring_base d2 + rx_ring_index d2 mod rx_ring_size d2 * sizeof_RingDesc)) d2) a =
    reg32 d a).
  rewrite reg32_put_other by (done || by apply wf_clear_tx_index, wf_put_reg).
  change (reg32 (put_reg NVNET_TX_RING_NEXT_DESC_PHYS_ADDR
    (u32 (tx_ring_base d1 + tx_ring_index d1 mod tx_ring_size d1 * sizeof_RingDesc)) d1) a =
    reg32 d a).
  by rewrite reg32_put_other.
Qed.

Lemma slot_u32 base n i :
  ring_fits base n → u32 (u32 (base + i mod n * sizeof_RingDesc)) = base + 8 * (i mod n).
Proof.
  intros (?&?&?). pose proof (Z.mod_pos_bound i n). unfold sizeof_RingDesc, u32.
  rewrite Z.mod_mod by lia. rewrite Z.mod_small; lia.
Qed.

Lemma migrated_next d :
  wf_dev d → ring_fits (tx_ring_base d) (tx_ring_size d) →
  ring_fits (rx_ring_base d) (rx_ring_size d) →
  reg32 (migrated d) NVNET_TX_RING_NEXT_DESC_PHYS_ADDR =
    tx_ring_base d + 8 * (tx_ring_index d mod tx_ring_size d) ∧
  reg32 (migrated d) NVNET_RX_RING_NEXT_DESC_PHYS_ADDR =
    rx_ring_base d + 8 * (rx_ring_index d mod rx_ring_size d).
Proof.
  intros Hd Ht Hr. set (d1 := d <| phy_regs := phy_reg_init |>).
  assert (Hd1 := wf_reset_phy d Hd). fold d1 in Hd1.
  set (v := u32 (tx_ring_base d1 + tx_ring_index d1 mod tx_ring_size d1 * sizeof_RingDesc)).
  set (e := put_reg NVNET_TX_RING_NEXT_DESC_PHYS_ADDR v d1).
  assert (He : wf_dev e) by by apply wf_put_reg.
  set (d2 := e <| tx_ring_index := 0 |>). assert (Hd2 := wf_clear_tx_index e He). fold d2 in Hd2.
  set (v2 := u32 (rx_ring_base d2 + rx_ring_index d2 mod rx_ring_size d2 * sizeof_RingDesc)).
  assert (Hb : rx_ring_base d2 = rx_ring_base d).
  { change (reg32 e NVNET_RX_RING_PHYS_ADDR = reg32 d1 NVNET_RX_RING_PHYS_ADDR).
    by apply reg32_put_other. }
  assert (Hn : rx_ring_size d2 = rx_ring_size d).
  { unfold rx_ring_size. change (reg32 d2 NVNET_RING_SIZE) with (reg32 e NVNET_RING_SIZE).
    unfold e. by rewrite reg32_put_other. }
  split.
  - change (reg32 (put_reg NVNET_RX_RING_NEXT_DESC_PHYS_ADDR v2 d2)
      NVNET_TX_RING_NEXT_DESC_PHYS_ADDR = tx_ring_base d + 8 * (tx_ring_index d mod tx_ring_size d)).
    rewrite reg32_put_other by done.
    change (reg32 e NVNET_TX_RING_NEXT_DESC_PHYS_ADDR =
      tx_ring_base d + 8 * (tx_ring_index d mod tx_ring_size d)).
    unfold e. rewrite reg32_put_same by done. by apply slot_u32.
  - change (reg32 (put_reg NVNET_RX_RING_NEXT_DESC_PHYS_ADDR v2 d2)
      NVNET_RX_RING_NEXT_DESC_PHYS_ADDR = rx_ring_base d + 8 * (rx_ring_index d mod rx_ring_size d)).
    rewrite reg32_put_same by done. unfold v2. rewrite Hb, Hn. by apply slot_u32.
Qed.

Lemma exec_post_load_div0 d m p t :
  wf_dev d → tx_ring_size d = 0 → nvnet_post_load 1 (mkWorld d m p t) = Fault DivByZero.
Proof.
  intros Hd Hz. unfold nvnet_post_load. cbn [Z.ltb Z.compare Pos.compare Pos.compare_cont whenM].
  set (d1 := d <| phy_regs := phy_reg_init |>). assert (Hd1 := wf_reset_phy d Hd). fold d1 in Hd1.
  apply run_bind_fault. erewrite run_bind by reflexivity.
  erewrite run_bind by exact (exec_get_reg d1 m p t NVNET_TX_RING_PHYS_ADDR Hd1 eq_refl).
  erewrite run_bind by reflexivity.
  erewrite run_bind by exact (exec_get_tx_ring_size d1 m p t Hd1).
  apply run_bind_fault. change (tx_ring_size d1) with (tx_ring_size d). by rewrite Hz.
Qed.

Lemma rings_migrated d i j :
  wf_dev d → ring_fits (tx_ring_base d) (tx_ring_size d) →
  ring_fits (rx_ring_base d) (rx_ring_size d) →
  reg32 (migrated d) NVNET_TX_RING_NEXT_DESC_PHYS_ADDR = tx_ring_base d + 8 * (i mod tx_ring_size d) →
  reg32 (migrated d) NVNET_RX_RING_NEXT_DESC_PHYS_ADDR = rx_ring_base d + 8 * (j mod rx_ring_size d) →
  tx_at ((migrated d) <| link_down := false |>) (i mod tx_ring_size d) ∧
  rx_at ((migrated d) <| link_down := false |>) (j mod rx_ring_size d).
Proof.
  intros Hd Ht Hr H1 H2. pose proof (migrated_regs d) as Hreg.
  set (e := (migrated d) <| link_down := false |>).
  assert (He : ∀ a, reg32 e a = reg32 (migrated d) a) by reflexivity. clearbody e.
  revert H1 H2 Hreg He. generalize (migrated d). intros g H1 H2 Hreg He.
  assert (Hm : ∀ i n b, ring_fits b n → 0 ≤ i mod n < n)
    by (intros ??? (?&?&?); apply Z.mod_pos_bound; lia).
  unfold tx_at, rx_at, tx_ring_base, tx_ring_size, rx_ring_base, rx_ring_size in *.
  rewrite !He, (Hreg NVNET_TX_RING_PHYS_ADDR), (Hreg NVNET_RX_RING_PHYS_ADDR),
    (Hreg NVNET_RING_SIZE) by done.
  split; (split; [done|]); split; eauto.
Qed.

(** C40. Loading a snapshot of version 1: for rings that fit in memory, the saved
    ring indices become pointers to the slots of those indices modulo the ring
    sizes, and the link is up; but a transmit ring size field of 0xFFFF, whose
    16-bit size wraps to zero, makes the conversion divide by zero. *)
Theorem post_load_migrates w :
  wf_dev (dev w) →
  (tx_ring_size (dev w) = 0 → nvnet_post_load 1 w = Fault DivByZero) ∧
  (ring_fits (tx_ring_base (dev w)) (tx_ring_size (dev w)) →
   ring_fits (rx_ring_base (dev w)) (rx_ring_size (dev w)) →
   ∃ w', nvnet_post_load 1 w = Ok (tt, w') ∧ link_down (dev w') = false ∧
     tx_at (dev w') (tx_ring_index (dev w) mod tx_ring_size (dev w)) ∧
     rx_at (dev w') (rx_ring_index (dev w) mod rx_ring_size (dev w))).
Proof.
  destruct w as [d m p t]. cbn [dev]. intros Hd. split.
  - intros H0. by apply exec_post_load_div0.
  - intros Ht Hr. pose proof (migrated_next d Hd Ht Hr) as [H1 H2].
    exists (mkWorld ((migrated d) <| link_down := false |>) m p t).
    split; [apply exec_post_load_v1; [done|destruct Ht; lia|destruct Hr; lia]|].
    split; [reflexivity|]. cbn [dev]. by apply rings_migrated.
Qed.
End migration.

(** An old snapshot with rings of four descriptors and transmit index 6. *)
Lemma post_load_migrates_witness :
  ∃ w', @nvnet_post_load (const_host 0) 1
      (demo_tx_world <| dev ::= λ s, s <| tx_ring_index := 6 |> |>) = Ok (tt, w') ∧
    tx_at (dev w') 2.
Proof.
  destruct (@post_load_migrates (const_host 0)
    (demo_tx_world <| dev ::= λ s, s <| tx_ring_index := 6 |> |>)) as [_ Hok].
  - destruct wf_demo_tx as [[] _]. split; done.
  - destruct Hok as (w' & Hr & _ & Ht & _).
    + unfold ring_fits. vm_compute. repeat split; congruence.
    + unfold ring_fits. vm_compute. repeat split; congruence.
    + exists w'. split; [exact Hr|]. exact Ht.
Defined.
