(* ===== verification/Swizzle.v ===== *)
(** * Swizzle: Z-ordered textures

    Models hw/xbox/nv2a/pgraph/swizzle.c and swizzle.h.  The state of the
    copying loops is the destination buffer; the source is another object.
    Offsets into a swizzled texture are [int]s in the code but only enter
    unsigned arithmetic, so they are kept as 32-bit unsigned values. *)

From S2P Require Import Prelude.

(** ** Definitions *)

(** The [do ... while] loop of [generate_swizzle_masks]. *)
Fixpoint swizzle_masks_loop {S} (fuel : nat) (width height depth : Z) (bit mask_bit x y z : Z)
    : M S (Z * Z * Z) :=
  match fuel with
  | O => raise OutOfFuel
  | S fuel =>
      let '(x, mask_bit, done) :=
        if bit <? width then (x ||| mask_bit, u32 (mask_bit <<< 1), false) else (x, mask_bit, true) in
      let '(y, mask_bit, done) :=
        if bit <? height then (y ||| mask_bit, u32 (mask_bit <<< 1), false) else (y, mask_bit, done) in
      let '(z, mask_bit, done) :=
        if bit <? depth then (z ||| mask_bit, u32 (mask_bit <<< 1), false) else (z, mask_bit, done) in
      if (done : bool)
      then assertM ((x ^^^ y ^^^ z) =? u32 (mask_bit - 1));; mret (x, y, z)
      else swizzle_masks_loop fuel width height depth (u32 (bit <<< 1)) mask_bit x y z
  end.

(** A dimension of at most [2^31] needs at most 32 rounds, and one more to
    notice. *)
Definition generate_swizzle_masks {S} (width height depth : Z) : M S (Z * Z * Z) :=
  swizzle_masks_loop 33 width height depth 1 1 0 0 0.

(** [off = (off - mask) & mask] *)
Definition next_off (off mask : Z) : Z := u32 (off - mask) &&& mask.

(** A loop [for (i = 0; i < n; i++)] that also steps an offset in a mask. *)
Fixpoint for_off {S} (n : nat) (i off mask : Z) (body : Z → Z → M S unit) : M S unit :=
  match n with
  | O => mret tt
  | S n => body i off;; for_off n (i + 1) (next_off off mask) mask body
  end.

(** [memcpy(dst_buf + d, src_buf + s, n)] *)
Definition copy_bytes (src_buf : list Z) (d s n : Z) : M (list Z) unit :=
  data ← rd src_buf s n; write_at d data.

Definition swizzle_box_internal (src_buf : list Z) (width height depth row_pitch slice_pitch
    bytes_per_pixel : Z) : M (list Z) unit :=
  '(mask_x, mask_y, mask_z) ← generate_swizzle_masks width height depth;
  for_off (Z.to_nat depth) 0 0 mask_z (λ z off_z,
    for_off (Z.to_nat height) 0 0 mask_y (λ y off_y,
      let src_tmp := z * slice_pitch + u32 (y * row_pitch) in
      let dst_tmp := u32 ((off_y + off_z) * bytes_per_pixel) in
      for_off (Z.to_nat width) 0 0 mask_x (λ x off_x,
        let src := src_tmp + u32 (x * bytes_per_pixel) in
        let dst := dst_tmp + u32 (off_x * bytes_per_pixel) in
        copy_bytes src_buf dst src bytes_per_pixel))).

Definition unswizzle_box_internal (src_buf : list Z) (width height depth row_pitch slice_pitch
    bytes_per_pixel : Z) : M (list Z) unit :=
  '(mask_x, mask_y, mask_z) ← generate_swizzle_masks width height depth;
  for_off (Z.to_nat depth) 0 0 mask_z (λ z off_z,
    for_off (Z.to_nat height) 0 0 mask_y (λ y off_y,
      let src_tmp := u32 ((off_y + off_z) * bytes_per_pixel) in
      let dst_tmp := z * slice_pitch + u32 (y * row_pitch) in
      for_off (Z.to_nat width) 0 0 mask_x (λ x off_x,
        let src := src_tmp + u32 (off_x * bytes_per_pixel) in
        let dst := dst_tmp + u32 (x * bytes_per_pixel) in
        copy_bytes src_buf dst src bytes_per_pixel))).

(** [MULTIVERSION]: a copy of the loop for each common pixel size. *)
Definition multiversion {A} (internal : Z → A) (bytes_per_pixel : Z) : A :=
  match bytes_per_pixel with
  | 1 => internal 1
  | 2 => internal 2
  | 3 => internal 3
  | 4 => internal 4
  | _ => internal bytes_per_pixel
  end.
Definition swizzle_box (src_buf : list Z) (width height depth row_pitch slice_pitch
    bytes_per_pixel : Z) : M (list Z) unit :=
  multiversion (swizzle_box_internal src_buf width height depth row_pitch slice_pitch) bytes_per_pixel.
Definition unswizzle_box (src_buf : list Z) (width height depth row_pitch slice_pitch
    bytes_per_pixel : Z) : M (list Z) unit :=
  multiversion (unswizzle_box_internal src_buf width height depth row_pitch slice_pitch) bytes_per_pixel.

Definition swizzle_rect (src_buf : list Z) (width height pitch bytes_per_pixel : Z) :=
  swizzle_box src_buf width height 1 pitch 0 bytes_per_pixel.
Definition unswizzle_rect (src_buf : list Z) (width height pitch bytes_per_pixel : Z) :=
  unswizzle_box src_buf width height 1 pitch 0 bytes_per_pixel.

(** ** Scattering the bits of a coordinate over a mask

    [dep n mask k] puts the bits of [k], lowest first, at the set bits of the
    [n]-bit [mask]; [ext] gathers them again; [pop] counts them. *)

Fixpoint dep (n : nat) (mask k : Z) : Z :=
  match n with
  | O => 0
  | S n => if Z.odd mask then k mod 2 + 2 * dep n (mask / 2) (k / 2) else 2 * dep n (mask / 2) k
  end.

Fixpoint ext (n : nat) (mask v : Z) : Z :=
  match n with
  | O => 0
  | S n => if Z.odd mask then v mod 2 + 2 * ext n (mask / 2) (v / 2) else ext n (mask / 2) (v / 2)
  end.

Fixpoint pop (n : nat) (mask : Z) : Z :=
  match n with
  | O => 0
  | S n => (if Z.odd mask then 1 else 0) + pop n (mask / 2)
  end.

(** Conversion looks inside these last: on open masks they only branch. *)
Strategy 100 [dep ext pop].

Lemma half_range n x : 0 ≤ x < 2 ^ Z.of_nat (S n) → 0 ≤ x / 2 < 2 ^ Z.of_nat n.
Proof. rewrite Nat2Z.inj_succ, Z.pow_succ_r by lia. dlia. Qed.
Lemma odd_split x : x = (if Z.odd x then 1 else 0) + 2 * (x / 2).
Proof. pose proof (Zmod_odd x). destruct (Z.odd x); dlia. Qed.

(** Bits of a number and of its halves. *)
Lemma testbit_cons b x i :
  0 ≤ i → 0 ≤ b < 2 → Z.testbit (b + 2 * x) i = if i =? 0 then b =? 1 else Z.testbit x (i - 1).
Proof.
  intros Hi Hb. destruct (Z.eqb_spec i 0) as [->|].
  - assert (b = 0 ∨ b = 1) as [->| ->] by lia; cbn [Z.eqb Pos.eqb].
    + by rewrite Z.add_0_l, Z.testbit_even_0.
    + by rewrite Z.add_comm, Z.testbit_odd_0.
  - replace i with (Z.succ (i - 1)) at 1 by lia. assert (b = 0 ∨ b = 1) as [->| ->] by lia.
    + rewrite Z.add_0_l, Z.testbit_even_succ by lia. done.
    + rewrite Z.add_comm, Z.testbit_odd_succ by lia. done.
Qed.
Lemma land_cons a b x y :
  0 ≤ a < 2 → 0 ≤ b < 2 → (a + 2 * x) &&& (b + 2 * y) = a * b + 2 * (x &&& y).
Proof.
  intros Ha Hb. apply Z.bits_inj'. intros i Hi. rewrite Z.land_spec, !testbit_cons by nia.
  destruct (Z.eqb_spec i 0); [|by rewrite Z.land_spec].
  assert (a = 0 ∨ a = 1) as [->| ->] by lia; assert (b = 0 ∨ b = 1) as [->| ->] by lia; done.
Qed.

Lemma dep_range n mask k : 0 ≤ dep n mask k < 2 ^ Z.of_nat n.
Proof.
  revert mask k. induction n as [|n IH]; intros mask k; cbn [dep]; [cbn; lia|].
  rewrite Nat2Z.inj_succ, Z.pow_succ_r by lia. pose proof (Z.mod_pos_bound k 2).
  destruct (Z.odd mask); [specialize (IH (mask / 2) (k / 2))|specialize (IH (mask / 2) k)]; lia.
Qed.
(** Case analysis on the lowest bit of a mask. *)
Lemma mask_cases mask :
  ∃ m, mask / 2 = m ∧ (Z.odd mask = true ∧ mask = 1 + 2 * m ∨ Z.odd mask = false ∧ mask = 0 + 2 * m).
Proof. exists (mask / 2). split; [done|]. pose proof (odd_split mask). destruct (Z.odd mask); auto. Qed.
Ltac mask_case mask :=
  let m := fresh "m" in let E1 := fresh in let E2 := fresh in let E3 := fresh in
  destruct (mask_cases mask) as (m & E1 & [[E2 E3]|[E2 E3]]);
  rewrite ?E1, ?E2 in *; clear E1 E2; rewrite ?E3 in *; clear mask E3.

Lemma dep_in_mask n mask k : dep n mask k &&& mask = dep n mask k.
Proof.
  revert mask k. induction n as [|n IH]; intros mask k; cbn [dep]; [done|].
  pose proof (Z.mod_pos_bound k 2). mask_case mask.
  - rewrite land_cons by lia. rewrite IH. lia.
  - rewrite <-(Z.add_0_l (2 * dep n m k)) at 1. rewrite land_cons by lia. rewrite IH. lia.
Qed.
Lemma dep_0 n mask : dep n mask 0 = 0.
Proof.
  revert mask. induction n as [|n IH]; intros mask; cbn [dep]; [done|].
  change (0 / 2) with 0. change (0 mod 2) with 0. rewrite !IH. by destruct (Z.odd mask).
Qed.

Lemma dep_le n mask k : 0 ≤ mask < 2 ^ Z.of_nat n → dep n mask k ≤ mask.
Proof.
  revert mask k. induction n as [|n IH]; intros mask k Hm; cbn [dep]; [cbn in Hm; lia|].
  pose proof (half_range n mask Hm) as Hh. pose proof (Z.mod_pos_bound k 2). mask_case mask.
  - specialize (IH m (k / 2) Hh). lia.
  - specialize (IH m k Hh). lia.
Qed.

(** Subtracting the mask and masking counts. *)
Lemma not_in_mask_add n d m : 0 ≤ d < 2 ^ n → d &&& m = d → 0 ≤ n → (d + Z.lnot m) &&& m = d.
Proof.
  intros Hd Hin Hn. assert (Hdis : d &&& Z.lnot m = 0).
  { apply Z.bits_inj'. intros i Hi. apply (f_equal (λ z, Z.testbit z i)) in Hin.
    rewrite Z.land_spec in Hin. rewrite Z.land_spec, Z.lnot_spec, Z.bits_0 by done.
    destruct (Z.testbit d i), (Z.testbit m i); done. }
  rewrite Z.add_nocarry_lxor by done. apply Z.bits_inj'. intros i Hi.
  apply (f_equal (λ z, Z.testbit z i)) in Hin. rewrite Z.land_spec in Hin.
  rewrite Z.land_spec, Z.lxor_spec, Z.lnot_spec by done.
  destruct (Z.testbit d i), (Z.testbit m i); done.
Qed.

Lemma dep_step n mask k :
  0 ≤ mask < 2 ^ Z.of_nat n → (dep n mask k - mask) &&& mask = dep n mask (k + 1).
Proof.
  revert mask k. induction n as [|n IH]; intros mask k Hm.
  { assert (mask = 0) as -> by (cbn in Hm; lia). done. }
  pose proof (half_range n mask Hm) as Hh. cbn [dep]. mask_case mask.
  - pose proof (Z.mod_pos_bound k 2) as Hk. assert (k mod 2 = 0 ∨ k mod 2 = 1) as [E|E] by lia.
    + replace ((k + 1) / 2) with (k / 2) by dlia. replace ((k + 1) mod 2) with 1 by dlia. rewrite E.
      replace (0 + 2 * dep n m (k / 2) - (1 + 2 * m))
        with (1 + 2 * (dep n m (k / 2) + Z.lnot m)) by (unfold Z.lnot; lia).
      rewrite land_cons by lia.
      rewrite (not_in_mask_add (Z.of_nat n)); [lia|apply dep_range|apply dep_in_mask|lia].
    + replace ((k + 1) / 2) with (k / 2 + 1) by dlia. replace ((k + 1) mod 2) with 0 by dlia.
      rewrite E. replace (1 + 2 * dep n m (k / 2) - (1 + 2 * m))
        with (0 + 2 * (dep n m (k / 2) - m)) by lia.
      rewrite land_cons by lia. rewrite IH by done. lia.
  - replace (2 * dep n m k - (0 + 2 * m)) with (0 + 2 * (dep n m k - m)) by lia.
    rewrite land_cons by lia. rewrite IH by done. lia.
Qed.

Lemma u32_land x m : is_u32 m → u32 x &&& m = x &&& m.
Proof.
  intros Hm. apply Z.bits_inj'. intros i Hi. rewrite !Z.land_spec. unfold u32.
  destruct (Z.lt_ge_cases i 32).
  - by rewrite Z.mod_pow2_bits_low by lia.
  - by rewrite (testbit_high 32 m), !andb_false_r by done.
Qed.
Lemma next_off_dep mask k : is_u32 mask → next_off (dep 32 mask k) mask = dep 32 mask (k + 1).
Proof. intros Hm. unfold next_off. rewrite u32_land by done. by apply dep_step. Qed.

(** The loop visits the scattered coordinates in order. *)
Lemma for_off_dep {S} n i mask (body : Z → Z → M S unit) s :
  is_u32 mask →
  for_off n i (dep 32 mask i) mask body s =
  forM (seqZ i (Z.of_nat n)) (λ k, body k (dep 32 mask k)) s.
Proof.
  intros Hm. revert i s. induction n as [|n IH]; intros i s; [done|].
  rewrite seqZ_cons by lia. cbn [for_off forM]. unfold mbind, M_bind.
  destruct (body i _ s) as [[? s']|]; [|done]. rewrite next_off_dep by done.
  rewrite IH. unfold Z.succ. do 2 f_equal. lia.
Qed.
Lemma for_off_0 {S} n mask (body : Z → Z → M S unit) s :
  is_u32 mask →
  for_off n 0 0 mask body s = forM (seqZ 0 (Z.of_nat n)) (λ k, body k (dep 32 mask k)) s.
Proof. intros Hm. rewrite <-for_off_dep by done. by rewrite dep_0. Qed.

(** Gathering inverts scattering, also in the presence of bits outside the mask. *)
Lemma pop_range n mask : 0 ≤ pop n mask ≤ Z.of_nat n.
Proof.
  revert mask. induction n as [|n IH]; intros mask; cbn [pop]; [lia|].
  specialize (IH (mask / 2)). destruct (Z.odd mask); lia.
Qed.
Lemma ext_dep n mask k v :
  0 ≤ k < 2 ^ pop n mask → v &&& mask = dep n mask k → 0 ≤ mask < 2 ^ Z.of_nat n → ext n mask v = k.
Proof.
  revert mask k v. induction n as [|n IH]; intros mask k v Hk Hv Hm; cbn [ext pop dep] in *; [cbn in Hk; lia|].
  pose proof (half_range n mask Hm) as Hh. pose proof (Z.mod_pos_bound v 2) as Hv2.
  assert (Ev : v = v mod 2 + 2 * (v / 2)) by dlia. mask_case mask.
  - rewrite Ev, land_cons in Hv by lia. pose proof (Z.mod_pos_bound k 2).
    pose proof (pop_range n m). rewrite Z.pow_add_r in Hk by lia.
    rewrite (IH m (k / 2)); [dlia|dlia|dlia|done].
  - rewrite Ev, land_cons in Hv by lia. apply IH; [done|dlia|done].
Qed.

(** ** The masks *)

(** Masks that share out the bits below [p]. *)
Record shares (p x y z : Z) : Prop := {
  sh_x : 0 ≤ x; sh_y : 0 ≤ y; sh_z : 0 ≤ z;
  sh_xy : x &&& y = 0; sh_yz : y &&& z = 0; sh_xz : x &&& z = 0;
  sh_sum : x + y + z = 2 ^ p - 1
}.

Lemma pow2_land x p : 0 ≤ p → 0 ≤ x < 2 ^ p → x &&& 2 ^ p = 0.
Proof.
  intros Hp Hx. apply Z.bits_inj'. intros i Hi. rewrite Z.land_spec, Z.bits_0.
  rewrite Z.pow2_bits_eqb by done. destruct (Z.eqb_spec p i) as [->|]; [|by rewrite andb_false_r].
  by rewrite (testbit_high i x) by (done || lia).
Qed.
Lemma lor_pow2 x p : 0 ≤ p → 0 ≤ x < 2 ^ p → x ||| 2 ^ p = x + 2 ^ p.
Proof. intros. symmetry. by apply Z.add_nocarry_lor, pow2_land. Qed.
Lemma lor_pow2_land x y p :
  0 ≤ p → 0 ≤ y < 2 ^ p → x &&& y = 0 → (x ||| 2 ^ p) &&& y = 0.
Proof.
  intros Hp Hy Hxy. rewrite Z.land_lor_distr_l, Hxy, Z.lor_0_l, Z.land_comm. by apply pow2_land.
Qed.

Lemma shares_perm p x y z : shares p x y z → shares p y x z.
Proof. intros []. split; try done; [by rewrite Z.land_comm|lia]. Qed.
Lemma shares_rot p x y z : shares p x y z → shares p z y x.
Proof. intros []. split; try done; [rewrite Z.land_comm; done..|lia]. Qed.
Lemma shares_add p x y z : 0 ≤ p → shares p x y z → shares (p + 1) (x ||| 2 ^ p) y z.
Proof.
  intros Hp []. split; try done.
  - rewrite lor_pow2; lia.
  - by apply lor_pow2_land; [|lia|].
  - by apply lor_pow2_land; [|lia|].
  - rewrite lor_pow2 by lia. rewrite Z.pow_add_r by lia. lia.
Qed.
Lemma shares_lxor p x y z : shares p x y z → x ^^^ y ^^^ z = 2 ^ p - 1.
Proof.
  intros []. rewrite <-sh_sum0.
  rewrite <-(Z.add_nocarry_lxor x y) by done. rewrite <-Z.add_nocarry_lxor; [done|].
  rewrite Z.add_nocarry_lxor by done. apply Z.bits_inj'. intros i Hi.
  apply (f_equal (λ v, Z.testbit v i)) in sh_xz0, sh_yz0.
  rewrite Z.land_spec, Z.bits_0 in sh_xz0, sh_yz0. rewrite Z.land_spec, Z.lxor_spec, Z.bits_0.
  by destruct (Z.testbit x i), (Z.testbit y i), (Z.testbit z i).
Qed.

(** A new highest bit of a mask carries the next bit of the coordinate. *)
Lemma pow2_succ p : 0 ≤ p → 2 ^ (p + 1) = 2 * 2 ^ p.
Proof. intros. by rewrite Z.pow_add_r, Z.mul_comm. Qed.
Lemma pop_0 n : pop n 0 = 0.
Proof. induction n as [|n IH]; [done|]. cbn [pop Z.odd]. change (0 / 2) with 0. lia. Qed.
Lemma pop_add n x p : 0 ≤ p < Z.of_nat n → 0 ≤ x < 2 ^ p → pop n (x + 2 ^ p) = pop n x + 1.
Proof.
  revert x p. induction n as [|n IH]; intros x p Hp Hx; [lia|]. cbn [pop].
  destruct (Z.eq_dec p 0) as [->|Hne].
  - assert (x = 0) as -> by (cbn in Hx; lia). change (0 + 2 ^ 0) with 1. cbn [Z.odd].
    change (1 / 2) with 0. change (0 / 2) with 0. lia.
  - replace p with (p - 1 + 1) in Hx |- * by lia. rewrite pow2_succ in Hx |- * by lia.
    replace ((x + 2 * 2 ^ (p - 1)) / 2) with (x / 2 + 2 ^ (p - 1)) by dlia.
    rewrite IH by dlia. rewrite Z.odd_add_mul_2. destruct (Z.odd x); lia.
Qed.
Lemma dep_add_low n x p k :
  0 ≤ p → 0 ≤ x < 2 ^ p → 0 ≤ k < 2 ^ pop n x → dep n (x + 2 ^ p) k = dep n x k.
Proof.
  revert x p k. induction n as [|n IH]; intros x p k Hp Hx Hk; [done|].
  cbn [dep pop] in *. pose proof (pop_range n (x / 2)). destruct (Z.eq_dec p 0) as [->|Hne].
  - assert (x = 0) as -> by (cbn in Hx; lia). change (0 / 2) with 0 in *. cbn [Z.odd] in Hk.
    rewrite pop_0 in Hk. assert (k = 0) as -> by (cbn in Hk; lia).
    change (0 + 2 ^ 0) with 1. cbn [Z.odd]. change (1 / 2) with 0.
    change (0 / 2) with 0. change (0 mod 2) with 0. by rewrite dep_0.
  - replace p with (p - 1 + 1) in Hx |- * by lia. rewrite pow2_succ in Hx |- * by lia.
    replace ((x + 2 * 2 ^ (p - 1)) / 2) with (x / 2 + 2 ^ (p - 1)) by dlia.
    rewrite Z.odd_add_mul_2. revert Hk. destruct (Z.odd x); intros Hk.
    + rewrite Z.pow_add_r in Hk by lia. change (2 ^ 1) with 2 in Hk.
      by rewrite IH by dlia.
    + rewrite Z.add_0_l in Hk. by rewrite IH by (done || dlia).
Qed.
Lemma dep_add_high n x p :
  0 ≤ p < Z.of_nat n → 0 ≤ x < 2 ^ p → dep n (x + 2 ^ p) (2 ^ pop n x) = 2 ^ p.
Proof.
  revert x p. induction n as [|n IH]; intros x p Hp Hx; [lia|].
  cbn [dep pop]. pose proof (pop_range n (x / 2)). destruct (Z.eq_dec p 0) as [->|Hne].
  - assert (x = 0) as -> by (cbn in Hx; lia). change (0 + 2 ^ 0) with 1. cbn [Z.odd].
    change (0 / 2) with 0. rewrite pop_0. change (2 ^ (0 + 0)) with 1.
    change (1 / 2) with 0. change (1 mod 2) with 1. by rewrite dep_0.
  - replace p with (p - 1 + 1) in Hx |- * by lia. rewrite pow2_succ in Hx |- * by lia.
    replace ((x + 2 * 2 ^ (p - 1)) / 2) with (x / 2 + 2 ^ (p - 1)) by dlia.
    rewrite Z.odd_add_mul_2. specialize (IH (x / 2) (p - 1)). destruct (Z.odd x).
    + replace (1 + pop n (x / 2)) with (pop n (x / 2) + 1) by lia. rewrite pow2_succ by lia.
      replace (2 * 2 ^ pop n (x / 2) / 2) with (2 ^ pop n (x / 2)) by dlia.
      replace (2 * 2 ^ pop n (x / 2) mod 2) with 0 by dlia. rewrite IH by dlia. lia.
    + rewrite Z.add_0_l, IH by dlia. lia.
Qed.

(** The loop, on dimensions [2^a], [2^b] and [2^c], before the round for bit [i]
    of the coordinates. *)
Section masks.
Context {S : Type} (a b c : Z) (Ha : 0 ≤ a) (Hb : 0 ≤ b) (Hc : 0 ≤ c) (Hsum : a + b + c ≤ 31).

(** Where bit [k] of each coordinate goes. *)
Definition pos_x (k : Z) : Z := k + Z.min k b + Z.min k c.
Definition pos_y (k : Z) : Z := Z.min (k + 1) a + k + Z.min k c.
Definition pos_z (k : Z) : Z := Z.min (k + 1) a + Z.min (k + 1) b + k.

(** [mask] has [n] bits, the [k]-th of them at [pos k]. *)
Definition laid_out (pos : Z → Z) (n mask : Z) : Prop :=
  pop 32 mask = n ∧ ∀ k, 0 ≤ k < n → dep 32 mask (2 ^ k) = 2 ^ pos k.

Lemma laid_out_add pos n mask p :
  0 ≤ p < 32 → 0 ≤ mask < 2 ^ p → 0 ≤ n → laid_out pos n mask → pos n = p →
  laid_out pos (n + 1) (mask ||| 2 ^ p).
Proof.
  intros Hp Hm Hn [Hpop Hk] Hpos. rewrite lor_pow2 by lia. split.
  - rewrite pop_add; [lia|change (Z.of_nat 32) with 32; lia|lia].
  - intros k Hkn. destruct (Z.eq_dec k n) as [->|Hne].
    + assert (E : 2 ^ n = 2 ^ pop 32 mask) by (by rewrite Hpop). rewrite E.
      rewrite dep_add_high; [by rewrite Hpos|change (Z.of_nat 32) with 32; lia|lia].
    + rewrite dep_add_low; [apply Hk; lia|lia|lia|]. rewrite Hpop.
      split; [lia|]. apply Z.pow_lt_mono_r; lia.
Qed.

Record round (i p x y z : Z) : Prop := {
  rd_pos : p = Z.min i a + Z.min i b + Z.min i c;
  rd_shares : shares p x y z;
  rd_x : laid_out pos_x (Z.min i a) x;
  rd_y : laid_out pos_y (Z.min i b) y;
  rd_z : laid_out pos_z (Z.min i c) z
}.

Lemma pow2_ltb i n : 0 ≤ i → 0 ≤ n → (2 ^ i <? 2 ^ n) = (i <? n).
Proof.
  intros Hi Hn. destruct (Z.ltb_spec i n).
  - apply Z.ltb_lt, Z.pow_lt_mono_r; lia.
  - apply Z.ltb_ge, Z.pow_le_mono_r; lia.
Qed.
Lemma shl_pow2 p : 0 ≤ p < 31 → u32 (2 ^ p <<< 1) = 2 ^ (p + 1).
Proof.
  intros Hp. rewrite Z.shiftl_mul_pow2 by lia. rewrite <-Z.pow_add_r by lia. apply Z.mod_small.
  split; [lia|]. apply Z.pow_lt_mono_r; lia.
Qed.

Lemma round_step i p x y z (Hi : 0 ≤ i) :
  round i p x y z →
  let '(x1, p1) := if i <? a then (x ||| 2 ^ p, p + 1) else (x, p) in
  let '(y1, p2) := if i <? b then (y ||| 2 ^ p1, p1 + 1) else (y, p1) in
  let '(z1, p3) := if i <? c then (z ||| 2 ^ p2, p2 + 1) else (z, p2) in
  round (i + 1) p3 x1 y1 z1.
Proof.
  intros [Hp Hs Hx Hy Hz].
  assert (S1 : let '(x1, p1) := if i <? a then (x ||| 2 ^ p, p + 1) else (x, p) in
    p1 = Z.min (i + 1) a + Z.min i b + Z.min i c ∧ shares p1 x1 y z ∧
    laid_out pos_x (Z.min (i + 1) a) x1).
  { destruct (Z.ltb_spec i a).
    - split_and!; [lia|by apply shares_add; [lia|]|].
      replace (Z.min (i + 1) a) with (Z.min i a + 1) by lia.
      destruct Hs. apply laid_out_add; try done; unfold pos_x; lia.
    - split_and!; [lia|done|]. by replace (Z.min (i + 1) a) with (Z.min i a) by lia. }
  destruct (if i <? a then _ else _) as [x1 p1]. destruct S1 as (Hp1 & Hs1 & Hx1).
  assert (S2 : let '(y1, p2) := if i <? b then (y ||| 2 ^ p1, p1 + 1) else (y, p1) in
    p2 = Z.min (i + 1) a + Z.min (i + 1) b + Z.min i c ∧ shares p2 x1 y1 z ∧
    laid_out pos_y (Z.min (i + 1) b) y1).
  { destruct (Z.ltb_spec i b).
    - split_and!; [lia|by apply shares_perm, shares_add, shares_perm; [lia|]|].
      replace (Z.min (i + 1) b) with (Z.min i b + 1) by lia.
      destruct Hs1. apply laid_out_add; try done; unfold pos_y; lia.
    - split_and!; [lia|done|]. by replace (Z.min (i + 1) b) with (Z.min i b) by lia. }
  destruct (if i <? b then _ else _) as [y1 p2]. destruct S2 as (Hp2 & Hs2 & Hy1).
  destruct (Z.ltb_spec i c).
  - split; [lia|by apply shares_rot, shares_add, shares_rot; [lia|]|done|done|].
    replace (Z.min (i + 1) c) with (Z.min i c + 1) by lia.
    destruct Hs2. apply laid_out_add; try done; unfold pos_z; lia.
  - split; [lia|done|done|done|]. by replace (Z.min (i + 1) c) with (Z.min i c) by lia.
Qed.

Lemma masks_loop fuel i p x y z (s : S) :
  0 ≤ i ≤ 31 → 31 - i < Z.of_nat fuel → round i p x y z →
  ∃ mx my mz, round 32 (a + b + c) mx my mz ∧
    swizzle_masks_loop fuel (2 ^ a) (2 ^ b) (2 ^ c) (2 ^ i) (2 ^ p) x y z s = Ok ((mx, my, mz), s).
Proof.
  revert i p x y z. induction fuel as [|fuel IH]; intros i p x y z Hi Hf Hr; [lia|].
  pose proof (rd_pos _ _ _ _ _ Hr) as Hp. cbn [swizzle_masks_loop]. rewrite !pow2_ltb by lia.
  destruct (Z.leb_spec (Z.max a (Z.max b c)) i) as [Hdone|Hmore].
  - replace (i <? a) with false by lia. replace (i <? b) with false by lia.
    replace (i <? c) with false by lia. destruct Hr as [_ Hs Hx Hy Hz].
    assert (p = a + b + c) as -> by lia. exists x, y, z. split.
    + replace (Z.min i a) with (Z.min 32 a) in Hx by lia.
      replace (Z.min i b) with (Z.min 32 b) in Hy by lia.
      replace (Z.min i c) with (Z.min 32 c) in Hz by lia. split; try done. lia.
    + erewrite run_bind; [done|]. apply run_assert, Z.eqb_eq.
      rewrite (shares_lxor _ _ _ _ Hs). symmetry. apply Z.mod_small.
      pose proof (Z.pow_lt_mono_r 2 (a + b + c) 32). lia.
  - pose proof (round_step i p x y z ltac:(lia) Hr) as Hn.
    assert (Hbit : u32 (2 ^ i <<< 1) = 2 ^ (i + 1)) by (apply shl_pow2; lia). rewrite Hbit.
    destruct (Z.ltb_spec i a), (Z.ltb_spec i b), (Z.ltb_spec i c); try lia;
      rewrite ?shl_pow2 by lia; apply IH; (done || lia).
Qed.

Lemma round_0 : round 0 0 0 0 0.
Proof.
  assert (Hl : ∀ pos, laid_out pos 0 0) by (intros; split; [done|lia]).
  split; [lia|by split|..]; rewrite Z.min_l by done; apply Hl.
Qed.

Lemma run_generate_swizzle_masks (s : S) :
  ∃ mx my mz, round 32 (a + b + c) mx my mz ∧
    generate_swizzle_masks (2 ^ a) (2 ^ b) (2 ^ c) s = Ok ((mx, my, mz), s).
Proof. apply (masks_loop 33 0 0 0 0 0); [lia|lia|apply round_0]. Qed.
End masks.

(** ** The reference: Z-order by interleaving bits *)

(** The low [n] bits of [x], bit [k] at position [pos k]. *)
Fixpoint scatter (pos : Z → Z) (n : nat) (x : Z) : Z :=
  match n with
  | O => 0
  | S n => scatter pos n x + if Z.testbit x (Z.of_nat n) then 2 ^ pos (Z.of_nat n) else 0
  end.

(** The offset of pixel [(x, y, z)] in a swizzled texture of [2^a] by [2^b] by
    [2^c] pixels. *)
Definition zorder (a b c x y z : Z) : Z :=
  scatter (pos_x b c) (Z.to_nat a) x + scatter (pos_y a c) (Z.to_nat b) y +
  scatter (pos_z a b) (Z.to_nat c) z.

Lemma dep_add_bit n mask k j :
  0 ≤ j → 0 ≤ k < 2 ^ j → dep n mask (k + 2 ^ j) = dep n mask k + dep n mask (2 ^ j).
Proof.
  revert mask k j. induction n as [|n IH]; intros mask k j Hj Hk; cbn [dep]; [done|].
  destruct (Z.odd mask); [|rewrite IH by done; lia]. destruct (Z.eq_dec j 0) as [->|Hne].
  - assert (k = 0) as -> by (cbn in Hk; lia). change (0 + 2 ^ 0) with 1. change (2 ^ 0) with 1.
    change (0 / 2) with 0. change (1 / 2) with 0. rewrite dep_0. done.
  - replace j with (j - 1 + 1) in Hk |- * by lia. rewrite pow2_succ in Hk |- * by lia.
    replace ((k + 2 * 2 ^ (j - 1)) / 2) with (k / 2 + 2 ^ (j - 1)) by dlia.
    replace (2 * 2 ^ (j - 1) / 2) with (2 ^ (j - 1)) by dlia. rewrite IH by dlia. dlia.
Qed.

Lemma mod_pow2_succ x n :
  0 ≤ n → x mod 2 ^ (n + 1) = x mod 2 ^ n + if Z.testbit x n then 2 ^ n else 0.
Proof.
  intros Hn. pose proof (Z.testbit_spec' x n Hn) as Hb. rewrite pow2_succ, Z.mul_comm by done.
  rewrite Z.rem_mul_r by lia. rewrite <-Hb. destruct (Z.testbit x n); cbn [Z.b2z]; lia.
Qed.

Lemma scatter_dep pos m mask n x :
  laid_out pos m mask → Z.of_nat n ≤ m → scatter pos n x = dep 32 mask (x mod 2 ^ Z.of_nat n).
Proof.
  intros [_ Hk] Hn. induction n as [|n IH].
  - cbn [scatter]. change (2 ^ Z.of_nat 0) with 1. by rewrite Z.mod_1_r, dep_0.
  - cbn [scatter]. rewrite IH by lia. replace (Z.of_nat (S n)) with (Z.of_nat n + 1) by lia.
    rewrite mod_pow2_succ by lia. destruct (Z.testbit x (Z.of_nat n)); [|by rewrite !Z.add_0_r].
    rewrite dep_add_bit; [|lia|apply Z.mod_pos_bound; lia]. by rewrite Hk by lia.
Qed.

(** ** Offsets of a box *)

Section box.
Context (a b c : Z) (Ha : 0 ≤ a) (Hb : 0 ≤ b) (Hc : 0 ≤ c) (Hsum : a + b + c ≤ 31).
Context (mx my mz : Z) (Hr : round a b c 32 (a + b + c) mx my mz).

Definition offset (x y z : Z) : Z := dep 32 mx x + dep 32 my y + dep 32 mz z.

Lemma round_shares : shares (a + b + c) mx my mz.
Proof. apply Hr. Qed.
Lemma round_pops : pop 32 mx = a ∧ pop 32 my = b ∧ pop 32 mz = c.
Proof.
  destruct Hr as [_ _ [-> _] [-> _] [-> _]]. rewrite !Z.min_r by lia. done.
Qed.
Lemma masks_u32 : is_u32 mx ∧ is_u32 my ∧ is_u32 mz.
Proof.
  destruct round_shares. pose proof (Z.pow_lt_mono_r 2 (a + b + c) 32). unfold is_u32. lia.
Qed.

Lemma offset_zorder x y z :
  0 ≤ x < 2 ^ a → 0 ≤ y < 2 ^ b → 0 ≤ z < 2 ^ c → offset x y z = zorder a b c x y z.
Proof.
  intros Hx Hy Hz. destruct Hr as [_ _ Lx Ly Lz]. unfold zorder, offset.
  rewrite (scatter_dep _ _ _ _ x Lx), (scatter_dep _ _ _ _ y Ly), (scatter_dep _ _ _ _ z Lz) by lia.
  rewrite !Z2Nat.id by done. by rewrite !Z.mod_small.
Qed.

(** Parts of masks that do not meet add without carries. *)
Lemma sub_disjoint u v m n : u &&& m = u → v &&& n = v → m &&& n = 0 → u &&& v = 0.
Proof.
  intros Hu Hv Hmn. apply Z.bits_inj'. intros i Hi.
  apply (f_equal (λ t, Z.testbit t i)) in Hu, Hv, Hmn. rewrite Z.land_spec in Hu, Hv, Hmn.
  rewrite Z.bits_0 in Hmn. rewrite Z.land_spec, Z.bits_0.
  by destruct (Z.testbit u i), (Z.testbit v i), (Z.testbit m i), (Z.testbit n i).
Qed.

Lemma offset_lor x y z : offset x y z = dep 32 mx x ||| dep 32 my y ||| dep 32 mz z.
Proof.
  destruct round_shares. unfold offset.
  pose proof (sub_disjoint _ _ _ _ (dep_in_mask 32 mx x) (dep_in_mask 32 my y) sh_xy0) as H1.
  pose proof (sub_disjoint _ _ _ _ (dep_in_mask 32 mx x) (dep_in_mask 32 mz z) sh_xz0) as H2.
  pose proof (sub_disjoint _ _ _ _ (dep_in_mask 32 my y) (dep_in_mask 32 mz z) sh_yz0) as H3.
  rewrite (Z.add_nocarry_lor (dep 32 mx x)) by done. apply Z.add_nocarry_lor.
  by rewrite Z.land_lor_distr_l, H2, H3.
Qed.
Lemma offset_masks x y z :
  offset x y z &&& mx = dep 32 mx x ∧ offset x y z &&& my = dep 32 my y ∧
  offset x y z &&& mz = dep 32 mz z.
Proof.
  destruct round_shares. rewrite offset_lor.
  assert (H : ∀ m n k, m &&& n = 0 → dep 32 m k &&& n = 0).
  { intros m n k Hmn. rewrite <-(dep_in_mask 32 m k), <-Z.land_assoc, Hmn. apply Z.land_0_r. }
  rewrite !Z.land_lor_distr_l, !dep_in_mask.
  rewrite (H my mx), (H mz mx), (H mx my), (H mz my), (H mx mz), (H my mz)
    by (done || by rewrite Z.land_comm).
  by rewrite !Z.lor_0_l, !Z.lor_0_r.
Qed.

Lemma offset_inj x y z x' y' z' :
  0 ≤ x < 2 ^ a → 0 ≤ y < 2 ^ b → 0 ≤ z < 2 ^ c →
  0 ≤ x' < 2 ^ a → 0 ≤ y' < 2 ^ b → 0 ≤ z' < 2 ^ c →
  offset x y z = offset x' y' z' → x = x' ∧ y = y' ∧ z = z'.
Proof.
  intros ?????? E. destruct round_pops as (Px & Py & Pz). destruct masks_u32 as (Ux & Uy & Uz).
  destruct (offset_masks x y z) as (X & Y & Z0), (offset_masks x' y' z') as (X' & Y' & Z0').
  rewrite <-E in X', Y', Z0'.
  assert (Hext : ∀ m k k' v, is_u32 m → 0 ≤ k < 2 ^ pop 32 m → 0 ≤ k' < 2 ^ pop 32 m →
            v &&& m = dep 32 m k → v &&& m = dep 32 m k' → k = k').
  { intros m k k' v Hm Hk Hk' E1 E2. transitivity (ext 32 m v); [symmetry|]; apply ext_dep; assumption. }
  split_and!.
  - apply (Hext mx _ _ (offset x y z)); rewrite ?Px; assumption.
  - apply (Hext my _ _ (offset x y z)); rewrite ?Py; assumption.
  - apply (Hext mz _ _ (offset x y z)); rewrite ?Pz; assumption.
Qed.
Lemma offset_range x y z : 0 ≤ offset x y z < 2 ^ (a + b + c).
Proof.
  destruct round_shares, masks_u32 as (Ux & Uy & Uz). unfold offset.
  pose proof (dep_range 32 mx x). pose proof (dep_range 32 my y). pose proof (dep_range 32 mz z).
  pose proof (dep_le 32 mx x Ux). pose proof (dep_le 32 my y Uy). pose proof (dep_le 32 mz z Uz). lia.
Qed.
End box.

(** ** Pixels of a box *)

(** All pixels of a box, in the order of the loops. *)
Definition pixels (width height depth : Z) : list (Z * Z * Z) :=
  seqZ 0 depth ≫= λ z, seqZ 0 height ≫= λ y, (λ x, (x, y, z)) <$> seqZ 0 width.

Lemma elem_of_pixels w h dp x y z :
  (x, y, z) ∈ pixels w h dp ↔ 0 ≤ x < w ∧ 0 ≤ y < h ∧ 0 ≤ z < dp.
Proof.
  unfold pixels. rewrite list_elem_of_bind. split.
  - intros (z' & (y' & (x' & [= -> -> ->] & Hx)%list_elem_of_fmap & Hy)%list_elem_of_bind & Hz).
    rewrite elem_of_seqZ in Hx, Hy, Hz. lia.
  - intros (? & ? & ?). exists z. rewrite elem_of_seqZ. split; [|lia]. apply list_elem_of_bind.
    exists y. rewrite elem_of_seqZ. split; [|lia]. apply list_elem_of_fmap. exists x.
    rewrite elem_of_seqZ. split; [done|lia].
Qed.
(** The three loops of either direction, as one loop over the pixels. *)
Lemma run_box_loops mx my mz w h dp (body : Z → Z → Z → Z → Z → Z → M (list Z) unit) s :
  is_u32 mx → is_u32 my → is_u32 mz → 0 ≤ w → 0 ≤ h → 0 ≤ dp →
  for_off (Z.to_nat dp) 0 0 mz (λ z oz, for_off (Z.to_nat h) 0 0 my (λ y oy,
    for_off (Z.to_nat w) 0 0 mx (λ x ox, body x y z ox oy oz))) s =
  forM (pixels w h dp) (λ '(x, y, z), body x y z (dep 32 mx x) (dep 32 my y) (dep 32 mz z)) s.
Proof.
  intros Ux Uy Uz Hw Hh Hd. unfold pixels. rewrite <-forM_flat, for_off_0, Z2Nat.id by done.
  apply forM_ext. clear s. intros z s _. rewrite <-forM_flat, for_off_0, Z2Nat.id by done.
  apply forM_ext. clear s. intros y s _. rewrite <-forM_fmap, for_off_0, Z2Nat.id by done. done.
Qed.

(** ** Correctness of the two directions *)

(** A linear image of [2^a] by [2^b] by [2^c] pixels in [len] bytes, and the
    swizzled one in [slen]; pitches leave room for a row and for a slice. *)
Record box_ok (a b c row_pitch slice_pitch bpp len slen : Z) : Prop := {
  bx_a : 0 ≤ a; bx_b : 0 ≤ b; bx_c : 0 ≤ c; bx_sum : a + b + c ≤ 31;
  bx_bpp : 0 < bpp;
  bx_row : 2 ^ a * bpp ≤ row_pitch;
  bx_slice : c = 0 ∨ 2 ^ b * row_pitch ≤ slice_pitch;
  bx_slice_nonneg : 0 ≤ slice_pitch;
  bx_len : (2 ^ c - 1) * slice_pitch + 2 ^ b * row_pitch ≤ len;
  bx_slen : 2 ^ (a + b + c) * bpp ≤ slen;
  bx_rows32 : 2 ^ b * row_pitch < 2 ^ 32; bx_slen32 : 2 ^ (a + b + c) * bpp < 2 ^ 32
}.

(** Where a pixel is in the linear image. *)
Definition linear (row_pitch slice_pitch bpp x y z : Z) : Z :=
  z * slice_pitch + y * row_pitch + x * bpp.

Section directions.
Context (a b c row_pitch slice_pitch bpp len slen : Z)
  (Hbox : box_ok a b c row_pitch slice_pitch bpp len slen).

Definition in_box (p : Z * Z * Z) : Prop :=
  let '(x, y, z) := p in 0 ≤ x < 2 ^ a ∧ 0 ≤ y < 2 ^ b ∧ 0 ≤ z < 2 ^ c.
Definition lin (p : Z * Z * Z) : Z := let '(x, y, z) := p in linear row_pitch slice_pitch bpp x y z.
Definition swz (p : Z * Z * Z) : Z := let '(x, y, z) := p in zorder a b c x y z * bpp.
Definition box : list (Z * Z * Z) := pixels (2 ^ a) (2 ^ b) (2 ^ c).

Lemma elem_of_box p : p ∈ box ↔ in_box p.
Proof. destruct p as [[x y] z]. apply elem_of_pixels. Qed.

Lemma lin_bounds p : in_box p → 0 ≤ lin p ∧ lin p + bpp ≤ len.
Proof.
  destruct p as [[x y] z], Hbox. unfold in_box, lin, linear. intros (? & ? & ?).
  assert (0 ≤ row_pitch) by nia. assert (x * bpp + bpp ≤ row_pitch) by nia.
  assert (y * row_pitch + row_pitch ≤ 2 ^ b * row_pitch) by nia.
  assert (z * slice_pitch ≤ (2 ^ c - 1) * slice_pitch) by nia. nia.
Qed.
Lemma lin_apart p q : in_box p → in_box q → p ≠ q → apart bpp (lin p) (lin q).
Proof.
  destruct p as [[x y] z], q as [[x' y'] z'], Hbox. unfold in_box, lin, linear, apart.
  intros (Hx & Hy & Hz) (Hx' & Hy' & Hz') Hne.
  assert (0 ≤ row_pitch) by nia. assert (x * bpp + bpp ≤ row_pitch) by nia.
  assert (x' * bpp + bpp ≤ row_pitch) by nia.
  assert (y * row_pitch + row_pitch ≤ 2 ^ b * row_pitch) by nia.
  assert (y' * row_pitch + row_pitch ≤ 2 ^ b * row_pitch) by nia.
  destruct (Z.lt_total z z') as [Hzz|[->|Hzz]].
  - destruct bx_slice0 as [->|]; [change (2 ^ 0) with 1 in *; lia|]. left. nia.
  - destruct (Z.lt_total y y') as [Hyy|[->|Hyy]]; [left; nia| |right; nia].
    destruct (Z.lt_total x x') as [Hxx|[->|Hxx]]; [left; nia|done|right; nia].
  - destruct bx_slice0 as [->|]; [change (2 ^ 0) with 1 in *; lia|]. right. nia.
Qed.

Lemma no_wrap p q r T bpp' :
  0 ≤ p → 0 ≤ q → 0 ≤ r → p + q + r < T → 0 < bpp' → T * bpp' < 2 ^ 32 →
  u32 ((q + r) * bpp') + u32 (p * bpp') = (p + q + r) * bpp'.
Proof.
  intros. assert (Hsmall : ∀ t, 0 ≤ t ≤ T → u32 (t * bpp') = t * bpp').
  { intros t Ht. apply u32_id. unfold is_u32. nia. }
  rewrite (Hsmall (q + r)), (Hsmall p) by lia. ring.
Qed.

(** Facts about swizzled offsets, from the masks of any run. *)
Section from_masks.
Context (mx my mz : Z) (Hr : round a b c 32 (a + b + c) mx my mz).

Lemma swz_offset x y z : in_box (x, y, z) → offset mx my mz x y z = zorder a b c x y z.
Proof. destruct Hbox. intros (? & ? & ?). by apply offset_zorder. Qed.
Lemma swz_bounds p : in_box p → 0 ≤ swz p ∧ swz p + bpp ≤ slen.
Proof.
  destruct p as [[x y] z]. intros Hp. unfold swz. rewrite <-swz_offset by done. destruct Hbox.
  pose proof (offset_range a b c bx_a0 bx_b0 bx_c0 bx_sum0 _ _ _ Hr x y z). nia.
Qed.
Lemma swz_apart p q : in_box p → in_box q → p ≠ q → apart bpp (swz p) (swz q).
Proof.
  destruct p as [[x y] z], q as [[x' y'] z']. intros Hp Hq Hne. unfold swz, apart.
  rewrite <-!swz_offset by done. destruct Hbox, Hp as (? & ? & ?), Hq as (? & ? & ?).
  assert (offset mx my mz x y z ≠ offset mx my mz x' y' z').
  { intros E. apply (offset_inj a b c) in E; try done. destruct E as (-> & -> & ->). done. }
  nia.
Qed.
(** The address arithmetic of the inner loop does not wrap. *)
Lemma swz_address x y z :
  in_box (x, y, z) →
  u32 ((dep 32 my y + dep 32 mz z) * bpp) + u32 (dep 32 mx x * bpp) = swz (x, y, z).
Proof.
  intros Hp. unfold swz. rewrite <-swz_offset by exact Hp. destruct Hbox.
  apply (no_wrap _ _ _ (2 ^ (a + b + c))); [apply dep_range..| |assumption|assumption].
  apply (offset_range a b c bx_a0 bx_b0 bx_c0 bx_sum0 _ _ _ Hr x y z).
Qed.
Lemma lin_address x y z :
  in_box (x, y, z) → z * slice_pitch + u32 (y * row_pitch) + u32 (x * bpp) = lin (x, y, z).
Proof.
  intros (? & ? & ?). unfold lin, linear. destruct Hbox. assert (0 ≤ row_pitch) by nia.
  assert (0 ≤ x * bpp ≤ 2 ^ a * bpp) by nia. assert (0 ≤ y * row_pitch ≤ 2 ^ b * row_pitch) by nia.
  assert (row_pitch ≤ 2 ^ b * row_pitch) by nia.
  rewrite (u32_id (y * row_pitch)), (u32_id (x * bpp)) by (unfold is_u32; lia). done.
Qed.
End from_masks.

(** A loop of copies between such places is a loop of writes. *)
Lemma run_pixel_copies src (to from : Z * Z * Z → Z) dst :
  (∀ p, in_box p → 0 ≤ from p ∧ from p + bpp ≤ blen src) →
  (∀ p, in_box p → 0 ≤ to p ∧ to p + bpp ≤ blen dst) →
  (∀ p q, in_box p → in_box q → p ≠ q → apart bpp (to p) (to q)) →
  ∃ dst', forM box (λ p, copy_bytes src (to p) (from p) bpp) dst = Ok (tt, dst') ∧
    written to (λ p, slice (from p) bpp src) bpp box dst dst'.
Proof.
  intros Hfrom Hto Hap. pose proof (bx_bpp _ _ _ _ _ _ _ _ Hbox) as Hbpp.
  destruct (run_writes to (λ p, slice (from p) bpp src) bpp box dst) as (dst' & E & Hw).
  { intros p Hp%elem_of_box. destruct (Hfrom p Hp), (Hto p Hp). by rewrite blen_slice by lia. }
  { intros p q Hp%elem_of_box Hq%elem_of_box. destruct (decide (p = q)) as [->|]; [by right|].
    left. by apply Hap. }
  exists dst'. split; [|done]. rewrite <-E. apply forM_ext. intros p s Hp%elem_of_box.
  destruct (Hfrom p Hp). unfold copy_bytes. erewrite run_bind; [done|]. apply run_rd; lia.
Qed.

Lemma run_swizzle_box_internal src dst :
  len ≤ blen src → slen ≤ blen dst →
  ∃ dst', swizzle_box_internal src (2 ^ a) (2 ^ b) (2 ^ c) row_pitch slice_pitch bpp dst = Ok (tt, dst')
    ∧ written swz (λ p, slice (lin p) bpp src) bpp box dst dst'.
Proof.
  intros Hsrc Hdst. destruct (run_generate_swizzle_masks (S:=list Z) a b c) with (s := dst)
    as (mx & my & mz & Hr & E); [apply Hbox..|].
  destruct (masks_u32 a b c (bx_sum _ _ _ _ _ _ _ _ Hbox) mx my mz Hr) as (Ux & Uy & Uz).
  destruct (run_pixel_copies src swz lin dst) as (dst' & Ec & Hc).
  { intros p Hp. pose proof (lin_bounds p Hp). lia. }
  { intros p Hp. pose proof (swz_bounds _ _ _ Hr p Hp). lia. }
  { apply (swz_apart _ _ _ Hr). }
  exists dst'. split; [|done]. unfold swizzle_box_internal. erewrite run_bind by exact E. cbv zeta.
  rewrite (run_box_loops mx my mz (2 ^ a) (2 ^ b) (2 ^ c) (λ x y z ox oy oz,
    copy_bytes src (u32 ((oy + oz) * bpp) + u32 (ox * bpp))
      (z * slice_pitch + u32 (y * row_pitch) + u32 (x * bpp)) bpp)) by (done || lia).
  rewrite <-Ec. apply forM_ext. intros [[x y] z] s' Hp%elem_of_box.
  by rewrite (swz_address _ _ _ Hr), lin_address.
Qed.

Lemma run_unswizzle_box_internal src dst :
  slen ≤ blen src → len ≤ blen dst →
  ∃ dst', unswizzle_box_internal src (2 ^ a) (2 ^ b) (2 ^ c) row_pitch slice_pitch bpp dst = Ok (tt, dst')
    ∧ written lin (λ p, slice (swz p) bpp src) bpp box dst dst'.
Proof.
  intros Hsrc Hdst. destruct (run_generate_swizzle_masks (S:=list Z) a b c) with (s := dst)
    as (mx & my & mz & Hr & E); [apply Hbox..|].
  destruct (masks_u32 a b c (bx_sum _ _ _ _ _ _ _ _ Hbox) mx my mz Hr) as (Ux & Uy & Uz).
  destruct (run_pixel_copies src lin swz dst) as (dst' & Ec & Hc).
  { intros p Hp. pose proof (swz_bounds _ _ _ Hr p Hp). lia. }
  { intros p Hp. pose proof (lin_bounds p Hp). lia. }
  { apply lin_apart. }
  exists dst'. split; [|done]. unfold unswizzle_box_internal. erewrite run_bind by exact E. cbv zeta.
  rewrite (run_box_loops mx my mz (2 ^ a) (2 ^ b) (2 ^ c) (λ x y z ox oy oz,
    copy_bytes src (z * slice_pitch + u32 (y * row_pitch) + u32 (x * bpp))
      (u32 ((oy + oz) * bpp) + u32 (ox * bpp)) bpp)) by (done || lia).
  rewrite <-Ec. apply forM_ext. intros [[x y] z] s' Hp%elem_of_box.
  by rewrite (swz_address _ _ _ Hr), lin_address.
Qed.
End directions.

Lemma multiversion_internal {A} (internal : Z → A) bpp : multiversion internal bpp = internal bpp.
Proof. unfold multiversion. by repeat case_match; subst. Qed.

(** The bytes of a buffer are those of the windows that tile it. *)
Lemma byte_in_pixel row_pitch slice_pitch bpp w h dp i :
  0 < bpp → 0 < w → 0 < h → row_pitch = w * bpp → slice_pitch = h * row_pitch →
  0 ≤ i < dp * slice_pitch →
  ∃ x y z, 0 ≤ x < w ∧ 0 ≤ y < h ∧ 0 ≤ z < dp ∧
    linear row_pitch slice_pitch bpp x y z ≤ i < linear row_pitch slice_pitch bpp x y z + bpp.
Proof.
  intros Hb Hw Hh -> -> Hi. set (R := w * bpp) in *. assert (0 < R) by nia.
  pose proof (Z.div_mod i (h * R) ltac:(nia)) as E1. pose proof (Z.mod_pos_bound i (h * R) ltac:(nia)) as B1.
  set (z := i / (h * R)) in *. set (i1 := i mod (h * R)) in *.
  pose proof (Z.div_mod i1 R ltac:(lia)) as E2. pose proof (Z.mod_pos_bound i1 R ltac:(lia)) as B2.
  set (y := i1 / R) in *. set (i2 := i1 mod R) in *.
  pose proof (Z.div_mod i2 bpp ltac:(lia)) as E3. pose proof (Z.mod_pos_bound i2 bpp ltac:(lia)) as B3.
  set (x := i2 / bpp) in *. set (i3 := i2 mod bpp) in *. clearbody x y z i1 i2 i3.
  exists x, y, z. unfold linear. split_and!; nia.
Qed.

(** ** Properties *)

(** C27. For an image of power-of-two dimensions whose pitches leave room for its
    rows and slices, [swizzle_box] does not fault, keeps the size of the
    destination and puts the bytes of every pixel [(x, y, z)] at the offset
    obtained by interleaving the bits of the coordinates (Z-order), so the
    subtract-and-mask stepping is equivalent to the interleaving. *)
Theorem swizzle_box_zorder a b c row_pitch slice_pitch bpp src dst :
  box_ok a b c row_pitch slice_pitch bpp (blen src) (blen dst) →
  ∃ dst', swizzle_box src (2 ^ a) (2 ^ b) (2 ^ c) row_pitch slice_pitch bpp dst = Ok (tt, dst') ∧
    blen dst' = blen dst ∧
    ∀ x y z, 0 ≤ x < 2 ^ a → 0 ≤ y < 2 ^ b → 0 ≤ z < 2 ^ c →
      slice (zorder a b c x y z * bpp) bpp dst' =
      slice (linear row_pitch slice_pitch bpp x y z) bpp src.
Proof.
  intros Hbox. unfold swizzle_box. rewrite multiversion_internal.
  destruct (run_swizzle_box_internal _ _ _ _ _ _ _ _ Hbox src dst) as (dst' & E & [Hl Hd _]);
    [lia..|]. exists dst'. split_and!; [done|done|]. intros x y z Hx Hy Hz.
  apply (Hd (x, y, z)), elem_of_box. done.
Qed.

Lemma swizzle_box_zorder_witness :
  ∃ dst', swizzle_box [10; 11; 12; 13; 14; 15; 16; 17] (2 ^ 1) (2 ^ 2) (2 ^ 0) 2 0 1 (replicate 8 0)
            = Ok (tt, dst') ∧
    blen dst' = blen (replicate 8 0) ∧
    ∀ x y z, 0 ≤ x < 2 ^ 1 → 0 ≤ y < 2 ^ 2 → 0 ≤ z < 2 ^ 0 →
      slice (zorder 1 2 0 x y z * 1) 1 dst' =
      slice (linear 2 0 1 x y z) 1 [10; 11; 12; 13; 14; 15; 16; 17].
Proof.
  apply swizzle_box_zorder. change (blen (replicate 8 0)) with 8.
  change (blen [10; 11; 12; 13; 14; 15; 16; 17]) with 8. split; try lia; done.
Defined.

Lemma packed_box a b c bpp len :
  0 ≤ a → 0 ≤ b → 0 ≤ c → a + b + c ≤ 31 → 0 < bpp → len = 2 ^ (a + b + c) * bpp → len < 2 ^ 32 →
  box_ok a b c (2 ^ a * bpp) (2 ^ b * (2 ^ a * bpp)) bpp len len ∧
  len = 2 ^ c * (2 ^ b * (2 ^ a * bpp)).
Proof.
  intros ????? El ?. assert (E : len = 2 ^ c * (2 ^ b * (2 ^ a * bpp))).
  { rewrite El, !Z.pow_add_r by lia. ring. }
  assert (0 < 2 ^ a ∧ 0 < 2 ^ b ∧ 0 < 2 ^ c) as (? & ? & ?) by lia.
  split; [|done]. assert (0 < 2 ^ b * (2 ^ a * bpp)) by nia. split; nia.
Qed.

(** C28. Swizzling a packed image of power-of-two dimensions (up to 4 GiB) into a
    buffer of its size and unswizzling the result into another returns the image,
    byte for byte, whatever the buffers held before. *)
Theorem unswizzle_swizzle_box a b c bpp src dst out :
  0 ≤ a → 0 ≤ b → 0 ≤ c → a + b + c ≤ 31 → 0 < bpp →
  blen src = 2 ^ (a + b + c) * bpp → blen src < 2 ^ 32 → blen dst = blen src → blen out = blen src →
  ∃ swizzled,
    swizzle_box src (2 ^ a) (2 ^ b) (2 ^ c) (2 ^ a * bpp) (2 ^ b * (2 ^ a * bpp)) bpp dst
      = Ok (tt, swizzled) ∧
    unswizzle_box swizzled (2 ^ a) (2 ^ b) (2 ^ c) (2 ^ a * bpp) (2 ^ b * (2 ^ a * bpp)) bpp out
      = Ok (tt, src).
Proof.
  intros Ha Hb Hc Hsum Hbpp Hlen Hlen32 Hdst Hout. unfold swizzle_box, unswizzle_box.
  destruct (packed_box a b c bpp (blen src)) as [Hbox Etot]; [done..|].
  destruct (run_swizzle_box_internal _ _ _ _ _ _ _ _ Hbox src dst) as (mid & E & [Hl Hd _]); [lia..|].
  exists mid. rewrite !multiversion_internal. split; [done|].
  destruct (run_unswizzle_box_internal _ _ _ _ _ _ _ _ Hbox mid out) as (res & E' & [Hl' Hd' _]); [lia..|].
  rewrite E'. do 2 f_equal. apply list_eq_same_length with (n := length src);
    [done|unfold blen in *; lia|]. intros i u v Hi Hu Hv.
  destruct (byte_in_pixel (2 ^ a * bpp) (2 ^ b * (2 ^ a * bpp)) bpp (2 ^ a) (2 ^ b) (2 ^ c) (Z.of_nat i))
    as (x & y & z & Hx & Hy & Hz & Hp); [lia..|unfold blen in *; lia|].
  assert (Hpix : slice (lin (2 ^ a * bpp) (2 ^ b * (2 ^ a * bpp)) bpp (x, y, z)) bpp res =
                 slice (lin (2 ^ a * bpp) (2 ^ b * (2 ^ a * bpp)) bpp (x, y, z)) bpp src).
  { transitivity (slice (swz a b c bpp (x, y, z)) bpp mid); [apply Hd'|apply Hd]; by apply elem_of_box. }
  eapply slice_lookup_eq; [exact Hpix|exact Hp| |eassumption..].
  apply (lin_bounds _ _ _ _ _ _ _ _ Hbox). done.
Qed.

Lemma unswizzle_swizzle_box_witness :
  ∃ swizzled,
    swizzle_box [1; 2; 3; 4; 5; 6; 7; 8] (2 ^ 1) (2 ^ 1) (2 ^ 1) (2 ^ 1 * 1) (2 ^ 1 * (2 ^ 1 * 1)) 1
      (replicate 8 0) = Ok (tt, swizzled) ∧
    unswizzle_box swizzled (2 ^ 1) (2 ^ 1) (2 ^ 1) (2 ^ 1 * 1) (2 ^ 1 * (2 ^ 1 * 1)) 1 (replicate 8 9)
      = Ok (tt, [1; 2; 3; 4; 5; 6; 7; 8]).
Proof. apply unswizzle_swizzle_box; cbn; (done || lia). Defined.
