(* ===== verification/S3tc.v ===== *)
(** * S3tc: decompression of DXT textures

    Models hw/xbox/nv2a/pgraph/s3tc.c.  The state of the block decoders is the
    buffer [converted_data]; the compressed [data] is a read-only object.  The
    arrays of colours are lists of their initialised elements, so that a read of
    an element that was never set faults.  [g_malloc] is a parameter that gives
    the initial contents of a new object.  Arithmetic on [int]s is unbounded here;
    the theorems ask for sizes that stay below [2^31]. *)

From S2P Require Import Prelude.

(** ** Definitions *)

Inductive S3TC_DECOMPRESS_FORMAT :=
  | S3TC_DECOMPRESS_FORMAT_DXT1
  | S3TC_DECOMPRESS_FORMAT_DXT3
  | S3TC_DECOMPRESS_FORMAT_DXT5.

Record bc1_colors := {
  bc_r : list Z;
  bc_g : list Z;
  bc_b : list Z;
  bc_a : list Z
}.

Definition decode_bc1_colors (c0 c1 : Z) (transparent : bool) : bc1_colors :=
  let r0 := u8 (((c0 &&& 0xF800) >>> 8) * 0xFF / 0xF8) in
  let g0 := u8 (((c0 &&& 0x07E0) >>> 3) * 0xFF / 0xFC) in
  let b0 := u8 (((c0 &&& 0x001F) <<< 3) * 0xFF / 0xF8) in
  let r1 := u8 (((c1 &&& 0xF800) >>> 8) * 0xFF / 0xF8) in
  let g1 := u8 (((c1 &&& 0x07E0) >>> 3) * 0xFF / 0xFC) in
  let b1 := u8 (((c1 &&& 0x001F) <<< 3) * 0xFF / 0xF8) in
  if transparent then
    {| bc_r := [r0; r1; u8 ((r0 + r1) / 2); 0];
       bc_g := [g0; g1; u8 ((g0 + g1) / 2); 0];
       bc_b := [b0; b1; u8 ((b0 + b1) / 2); 0];
       bc_a := [255; 255; 255; 0] |}
  else
    {| bc_r := [r0; r1; u8 ((2 * r0 + r1) / 3); u8 ((r0 + 2 * r1) / 3)];
       bc_g := [g0; g1; u8 ((2 * g0 + g1) / 3); u8 ((g0 + 2 * g1) / 3)];
       bc_b := [b0; b1; u8 ((2 * b0 + b1) / 3); u8 ((b0 + 2 * b1) / 3)];
       bc_a := [255; 255; 255; 255] |}.

(** The indices of [for (int v = lo; v < hi; v++)]. *)
Definition range (lo hi : Z) : list Z := seqZ lo (hi - lo).

Definition write_block_to_texture (indices i j width height z_pos_factor : Z) (c : bc1_colors)
    (separate_alpha : bool) : M (list Z) unit :=
  let x0 := i * 4 in
  let y0 := j * 4 in
  let x1 := x0 + 4 in
  let y1 := y0 + 4 in
  forM (range y0 (Z.min y1 height)) (λ y,
    let y_index := 4 * (y - y0) in
    let z_plus_y_pos_factor := z_pos_factor + y * width in
    forM (range x0 (Z.min x1 width)) (λ x,
      let xy_index := y_index + x - x0 in
      let index := (indices >>> (2 * xy_index)) &&& 0x03 in
      let alpha_index := if separate_alpha then xy_index else index in
      let p := (z_plus_y_pos_factor + x) * 4 in
      r ← rd8 (bc_r c) index;
      g ← rd8 (bc_g c) index;
      b ← rd8 (bc_b c) index;
      a ← rd8 (bc_a c) alpha_index;
      write_at p [r; g; b; a])).

(** Element [i] of [block_data] taken as an array of 16, 32 or 64 bit integers. *)
Definition rd_u16 (data : list Z) (block i : Z) : M (list Z) Z :=
  bs ← rd data (block + 2 * i) 2; mret (of_le bs).
Definition rd_u32 (data : list Z) (block i : Z) : M (list Z) Z :=
  bs ← rd data (block + 4 * i) 4; mret (of_le bs).
Definition rd_u64 (data : list Z) (block i : Z) : M (list Z) Z :=
  bs ← rd data (block + 8 * i) 8; mret (of_le bs).

(** [block] is the offset of [block_data] in [data]. *)
Definition decompress_dxt1_block (data : list Z) (block i j width height z_pos_factor : Z)
    : M (list Z) unit :=
  c0 ← rd_u16 data block 0;
  c1 ← rd_u16 data block 1;
  let c := decode_bc1_colors c0 c1 (c0 <=? c1) in
  indices ← rd_u32 data block 1;
  write_block_to_texture indices i j width height z_pos_factor c false.

Definition decompress_dxt3_block (data : list Z) (block i j width height z_pos_factor : Z)
    : M (list Z) unit :=
  c0 ← rd_u16 data block 4;
  c1 ← rd_u16 data block 5;
  let c := decode_bc1_colors c0 c1 false in
  alpha ← rd_u64 data block 0;
  let a := (λ a_i, u8 ((((alpha >>> (4 * a_i)) &&& 0x0F) <<< 4) * 0xFF / 0xF0)) <$> seqZ 0 16 in
  indices ← rd_u32 data block 3;
  write_block_to_texture indices i j width height z_pos_factor
    {| bc_r := bc_r c; bc_g := bc_g c; bc_b := bc_b c; bc_a := a |} true.

Definition dxt5_palette (a0 a1 : Z) : list Z :=
  if a0 >? a1 then
    [a0; a1; u8 ((6 * a0 + 1 * a1) / 7); u8 ((5 * a0 + 2 * a1) / 7); u8 ((4 * a0 + 3 * a1) / 7);
     u8 ((3 * a0 + 4 * a1) / 7); u8 ((2 * a0 + 5 * a1) / 7); u8 ((1 * a0 + 6 * a1) / 7)]
  else
    [a0; a1; u8 ((4 * a0 + 1 * a1) / 5); u8 ((3 * a0 + 2 * a1) / 5); u8 ((2 * a0 + 3 * a1) / 5);
     u8 ((1 * a0 + 4 * a1) / 5); 0; 255].

Definition decompress_dxt5_block (data : list Z) (block i j width height z_pos_factor : Z)
    : M (list Z) unit :=
  c0 ← rd_u16 data block 4;
  c1 ← rd_u16 data block 5;
  let c := decode_bc1_colors c0 c1 false in
  alpha ← rd_u64 data block 0;
  a0 ← rd8 data block;
  a1 ← rd8 data (block + 1);
  let a_palette := dxt5_palette a0 a1 in
  let a := (λ a_i, byte_at a_palette ((alpha >>> (16 + 3 * a_i)) &&& 0x07)) <$> seqZ 0 16 in
  indices ← rd_u32 data block 3;
  write_block_to_texture indices i j width height z_pos_factor
    {| bc_r := bc_r c; bc_g := bc_g c; bc_b := bc_b c; bc_a := a |} true.

(** The chain of [if]s on the format shared by both decompressors. *)
Definition decompress_block (color_format : S3TC_DECOMPRESS_FORMAT) (data : list Z)
    (index i j width height z_pos_factor : Z) : M (list Z) unit :=
  match color_format with
  | S3TC_DECOMPRESS_FORMAT_DXT1 =>
      decompress_dxt1_block data (8 * index) i j width height z_pos_factor
  | S3TC_DECOMPRESS_FORMAT_DXT3 =>
      decompress_dxt3_block data (16 * index) i j width height z_pos_factor
  | S3TC_DECOMPRESS_FORMAT_DXT5 =>
      decompress_dxt5_block data (16 * index) i j width height z_pos_factor
  end.

(** The locals of [s3tc_decompress_3d] that its loops update. *)
Record s3tc_locals := {
  converted_data : list Z;
  cur_depth : Z;
  sub_block_index : Z
}.
#[global] Instance eta_s3tc_locals : EtaRecord s3tc_locals := λ s,
  {| converted_data := converted_data s; cur_depth := cur_depth s;
     sub_block_index := sub_block_index s |}.

(** Run a block decoder on the buffer among the locals. *)
Definition on_data (m : M (list Z) unit) : M s3tc_locals unit := λ s,
  match m (converted_data s) with
  | Ok (_, d) => Ok (tt, s <| converted_data := d |>)
  | Fault e => Fault e
  end.

Section decompress.
Context (g_malloc : Z → list Z).

Definition s3tc_decompress_3d (color_format : S3TC_DECOMPRESS_FORMAT) (data : list Z)
    (width height depth : Z) : M () (list Z) := λ _,
  let body : M s3tc_locals unit :=
    assertM (width >? 0);;
    assertM (height >? 0);;
    assertM (depth >? 0);;
    let physical_width := u32 (width + 3) &&& not32 3 in
    let physical_height := u32 (height + 3) &&& not32 3 in
    let num_blocks_x := physical_width / 4 in
    let num_blocks_y := physical_height / 4 in
    let num_blocks_z := u32 (depth + 3) / 4 in
    forM (range 0 num_blocks_z) (λ k,
      cur ← gets cur_depth;
      let residual_depth := s32 (depth - cur) in
      let block_depth := Z.min residual_depth 4 in
      forM (range 0 num_blocks_y) (λ j,
        forM (range 0 num_blocks_x) (λ i,
          forM (range 0 block_depth) (λ slice,
            let z_pos_factor := s32 ((cur + slice) * width * height) in
            index ← gets sub_block_index;
            on_data (decompress_block color_format data index i j (s32 width) (s32 height) z_pos_factor);;
            modify (λ s, s <| sub_block_index ::= λ n, n + 1 |>))));;
      modify (λ s, s <| cur_depth ::= λ n, n + block_depth |>)) in
  match body {| converted_data := g_malloc (u32 (width * height * depth * 4));
                cur_depth := 0; sub_block_index := 0 |} with
  | Ok (_, s) => Ok (converted_data s, tt)
  | Fault e => Fault e
  end.

Definition s3tc_decompress_2d (color_format : S3TC_DECOMPRESS_FORMAT) (data : list Z)
    (width height : Z) : M () (list Z) := λ _,
  let body : M (list Z) unit :=
    assertM (width >? 0);;
    assertM (height >? 0);;
    let physical_width := u32 (width + 3) &&& not32 3 in
    let physical_height := u32 (height + 3) &&& not32 3 in
    let num_blocks_x := physical_width / 4 in
    let num_blocks_y := physical_height / 4 in
    forM (range 0 num_blocks_y) (λ j,
      forM (range 0 num_blocks_x) (λ i,
        let block_index := j * num_blocks_x + i in
        decompress_block color_format data block_index i j (s32 width) (s32 height) 0)) in
  match body (g_malloc (u32 (width * height * 4))) with
  | Ok (_, d) => Ok (d, tt)
  | Fault e => Fault e
  end.
End decompress.

(** ** The reference: one texel of a block, as the format defines it *)

(** Field [k] of [n] bits of a packed integer, and an [n]-bit channel scaled to 8. *)
Definition field (n v k : Z) : Z := (v / 2 ^ (n * k)) mod 2 ^ n.
Definition expand (n v : Z) : Z := v * 255 / (2 ^ n - 1).

Definition red (c : Z) : Z := expand 5 (c / 2 ^ 11).
Definition green (c : Z) : Z := expand 6 (c / 2 ^ 5 mod 2 ^ 6).
Definition blue (c : Z) : Z := expand 5 (c mod 2 ^ 5).

(** The ramp between two end points: four colours, or three and black. *)
Definition ramp (four : bool) (e0 e1 index : Z) : Z :=
  if index =? 0 then e0 else if index =? 1 then e1
  else if index =? 2 then if four then (2 * e0 + e1) / 3 else (e0 + e1) / 2
  else if four then (e0 + 2 * e1) / 3 else 0.

Definition alpha_ramp (a0 a1 code : Z) : Z :=
  if code =? 0 then a0 else if code =? 1 then a1
  else if a0 >? a1 then ((8 - code) * a0 + (code - 1) * a1) / 7
  else if code <=? 5 then ((6 - code) * a0 + (code - 1) * a1) / 5
  else if code =? 6 then 0 else 255.

Definition block_size (fmt : S3TC_DECOMPRESS_FORMAT) : Z :=
  match fmt with S3TC_DECOMPRESS_FORMAT_DXT1 => 8 | _ => 16 end.

Definition texel (fmt : S3TC_DECOMPRESS_FORMAT) (block : list Z) (t : Z) : list Z :=
  let colours := slice (block_size fmt - 8) 8 block in
  let c0 := of_le (slice 0 2 colours) in
  let c1 := of_le (slice 2 2 colours) in
  let index := field 2 (of_le (slice 4 4 colours)) t in
  let four := match fmt with S3TC_DECOMPRESS_FORMAT_DXT1 => c0 >? c1 | _ => true end in
  let alpha :=
    match fmt with
    | S3TC_DECOMPRESS_FORMAT_DXT1 => if four || negb (index =? 3) then 255 else 0
    | S3TC_DECOMPRESS_FORMAT_DXT3 => 17 * field 4 (of_le (slice 0 8 block)) t
    | S3TC_DECOMPRESS_FORMAT_DXT5 =>
        alpha_ramp (byte_at block 0) (byte_at block 1) (field 3 (of_le (slice 2 6 block)) t)
    end in
  [ramp four (red c0) (red c1) index; ramp four (green c0) (green c1) index;
   ramp four (blue c0) (blue c1) index; alpha].

(** ** Colours *)

Lemma shiftr_field n v k : 0 ≤ n → 0 ≤ k → (v >>> (n * k)) &&& Z.ones n = field n v k.
Proof. intros. rewrite Z.land_ones, Z.shiftr_div_pow2 by nia. done. Qed.
Lemma field_range n v k : 0 ≤ n → 0 ≤ field n v k < 2 ^ n.
Proof. intros. apply Z.mod_pos_bound. lia. Qed.

(** [c & (ones w << p)], moved down to bit [3]. *)
Lemma channel_bits c p w :
  0 ≤ p → 0 ≤ w → c &&& (Z.ones w <<< p) = ((c / 2 ^ p) mod 2 ^ w) * 2 ^ p.
Proof.
  intros. rewrite <-Z.shiftl_mul_pow2, <-Z.land_ones, <-Z.shiftr_div_pow2 by lia.
  apply Z.bits_inj'. intros i Hi. rewrite Z.land_spec, !Z.shiftl_spec by done.
  destruct (Z.lt_ge_cases i p); [by rewrite !(Z.testbit_neg_r _ (i - p)), andb_false_r by lia|].
  rewrite Z.land_spec, Z.shiftr_spec by lia. do 2 f_equal. lia.
Qed.

Lemma expand_range n v : 0 < n → 0 ≤ v < 2 ^ n → is_u8 (expand n v).
Proof.
  intros Hn Hv. assert (1 < 2 ^ n) by (by apply Z.pow_gt_1). unfold expand, is_u8.
  split; [apply Z.div_pos; lia|]. apply Z.div_lt_upper_bound; [lia|]. change (2 ^ 8) with 256. nia.
Qed.
Lemma red_range c : is_u16 c → is_u8 (red c).
Proof. intros Hc. apply expand_range; [done|]. unfold is_u16 in Hc. dlia. Qed.
Lemma green_range c : is_u8 (green c).
Proof. apply expand_range; [done|]. apply Z.mod_pos_bound. lia. Qed.
Lemma blue_range c : is_u8 (blue c).
Proof. apply expand_range; [done|]. apply Z.mod_pos_bound. lia. Qed.

Lemma decode_red c : is_u16 c → u8 (((c &&& 0xF800) >>> 8) * 0xFF / 0xF8) = red c.
Proof.
  intros Hc. change 0xF800 with (Z.ones 5 <<< 11). rewrite channel_bits by lia.
  rewrite (Z.mod_small (c / 2 ^ 11)) by (unfold is_u16 in Hc; dlia).
  rewrite Z.shiftr_div_pow2 by lia. rewrite <-(u8_id (red c)) by (by apply red_range).
  f_equal. unfold red, expand. change (2 ^ 5 - 1) with 31.
  generalize (c / 2 ^ 11). intros v. dlia.
Qed.
Lemma decode_green c : u8 (((c &&& 0x07E0) >>> 3) * 0xFF / 0xFC) = green c.
Proof.
  change 0x07E0 with (Z.ones 6 <<< 5). rewrite channel_bits by lia.
  rewrite Z.shiftr_div_pow2 by lia. rewrite <-(u8_id (green c)) by apply green_range.
  f_equal. unfold green, expand. change (2 ^ 6 - 1) with 63.
  generalize ((c / 2 ^ 5) mod 2 ^ 6). intros v. dlia.
Qed.
Lemma decode_blue c : u8 (((c &&& 0x001F) <<< 3) * 0xFF / 0xF8) = blue c.
Proof.
  change 0x001F with (Z.ones 5). rewrite Z.land_ones, Z.shiftl_mul_pow2 by lia.
  rewrite <-(u8_id (blue c)) by apply blue_range. f_equal. unfold blue, expand.
  change (2 ^ 5 - 1) with 31. generalize (c mod 2 ^ 5). intros v. dlia.
Qed.

Lemma ramp_table (four : bool) e0 e1 index :
  is_u8 e0 → is_u8 e1 → 0 ≤ index < 4 →
  byte_at (if four then [e0; e1; u8 ((2 * e0 + e1) / 3); u8 ((e0 + 2 * e1) / 3)]
           else [e0; e1; u8 ((e0 + e1) / 2); 0]) index = ramp four e0 e1 index.
Proof.
  unfold is_u8. intros H0 H1 Hi. assert (index = 0 ∨ index = 1 ∨ index = 2 ∨ index = 3) as Hc by lia.
  destruct Hc as [->|[->|[->| ->]]], four; try done; cbn; apply Z.mod_small; dlia.
Qed.

(** The palette of a colour block, channel by channel. *)
Lemma decode_bc1_colors_ramps c0 c1 tr index :
  is_u16 c0 → is_u16 c1 → 0 ≤ index < 4 →
  let c := decode_bc1_colors c0 c1 tr in
  byte_at (bc_r c) index = ramp (negb tr) (red c0) (red c1) index ∧
  byte_at (bc_g c) index = ramp (negb tr) (green c0) (green c1) index ∧
  byte_at (bc_b c) index = ramp (negb tr) (blue c0) (blue c1) index ∧
  byte_at (bc_a c) index = (if negb tr || negb (index =? 3) then 255 else 0) ∧
  blen (bc_r c) = 4 ∧ blen (bc_g c) = 4 ∧ blen (bc_b c) = 4 ∧ blen (bc_a c) = 4.
Proof.
  intros Hc0 Hc1 Hi c. subst c. unfold decode_bc1_colors. rewrite !decode_red, !decode_green, !decode_blue by done.
  rewrite <-!ramp_table by (try apply red_range; try apply green_range; try apply blue_range; done).
  assert (Ha : index = 0 ∨ index = 1 ∨ index = 2 ∨ index = 3) by lia.
  destruct tr; split_and!; try done; destruct Ha as [->|[->|[->| ->]]]; done.
Qed.

(** ** One block *)

Lemma elem_of_range lo hi x : x ∈ range lo hi ↔ lo ≤ x < hi.
Proof. unfold range. rewrite elem_of_seqZ. lia. Qed.

(** The texels of block [(i, j)] that are inside the texture. *)
Definition block_texels (i j width height : Z) : list (Z * Z) :=
  range (j * 4) (Z.min (j * 4 + 4) height) ≫= λ y,
    (λ x, (x, y)) <$> range (i * 4) (Z.min (i * 4 + 4) width).

Lemma elem_of_block_texels i j w h x y :
  (x, y) ∈ block_texels i j w h ↔ i * 4 ≤ x < i * 4 + 4 ∧ j * 4 ≤ y < j * 4 + 4 ∧ x < w ∧ y < h.
Proof.
  unfold block_texels. rewrite list_elem_of_bind. split.
  - intros (y' & (x' & [= -> ->] & Hx)%list_elem_of_fmap & Hy). rewrite elem_of_range in Hx, Hy. lia.
  - intros H. exists y. rewrite elem_of_range. split; [|lia]. apply list_elem_of_fmap.
    exists x. rewrite elem_of_range. split; [done|lia].
Qed.

(** Drawing a block with colours [c], when texel [t] of the block comes out as [v t]. *)
Definition draws (indices : Z) (c : bc1_colors) (separate_alpha : bool) (v : Z → list Z) : Prop :=
  ∀ t, 0 ≤ t < 16 →
    let index := field 2 indices t in
    blen (bc_r c) = 4 ∧ blen (bc_g c) = 4 ∧ blen (bc_b c) = 4 ∧
    (if separate_alpha then t else index) < blen (bc_a c) ∧
    v t = [byte_at (bc_r c) index; byte_at (bc_g c) index; byte_at (bc_b c) index;
           byte_at (bc_a c) (if separate_alpha then t else index)].

Lemma run_write_block indices i j w h zpf c sep v buf :
  draws indices c sep v →
  write_block_to_texture indices i j w h zpf c sep buf =
  forM (block_texels i j w h) (λ '(x, y),
    write_at ((zpf + y * w + x) * 4) (v (4 * (y - j * 4) + (x - i * 4)))) buf.
Proof.
  intros Hd. unfold write_block_to_texture, block_texels. cbv zeta. rewrite <-forM_flat.
  apply forM_ext. clear buf. intros y buf Hy%elem_of_range. rewrite <-forM_fmap.
  apply forM_ext. clear buf. intros x buf Hx%elem_of_range.
  replace (4 * (y - j * 4) + x - i * 4) with (4 * (y - j * 4) + (x - i * 4)) by lia.
  set (t := 4 * (y - j * 4) + (x - i * 4)). assert (Ht : 0 ≤ t < 16) by lia.
  change 0x03 with (Z.ones 2). rewrite shiftr_field by lia.
  pose proof (field_range 2 indices t ltac:(lia)) as Hf. change (2 ^ 2) with 4 in Hf.
  destruct (Hd t Ht) as (Lr & Lg & Lb & La & ->). clearbody t.
  do 3 (erewrite run_bind; [|apply run_rd8; lia]).
  erewrite run_bind; [done|]. apply run_rd8. destruct sep; lia.
Qed.

(** Integers read from a block. *)
Lemma run_rd_u16 data block i s :
  0 ≤ block + 2 * i → block + 2 * i + 2 ≤ blen data →
  rd_u16 data block i s = Ok (of_le (slice (block + 2 * i) 2 data), s).
Proof. intros. unfold rd_u16. erewrite run_bind; [done|apply run_rd; lia]. Qed.
Lemma run_rd_u32 data block i s :
  0 ≤ block + 4 * i → block + 4 * i + 4 ≤ blen data →
  rd_u32 data block i s = Ok (of_le (slice (block + 4 * i) 4 data), s).
Proof. intros. unfold rd_u32. erewrite run_bind; [done|apply run_rd; lia]. Qed.
Lemma run_rd_u64 data block i s :
  0 ≤ block + 8 * i → block + 8 * i + 8 ≤ blen data →
  rd_u64 data block i s = Ok (of_le (slice (block + 8 * i) 8 data), s).
Proof. intros. unfold rd_u64. erewrite run_bind; [done|apply run_rd; lia]. Qed.
Lemma of_le_u16 data off :
  bytes data → 0 ≤ off → off + 2 ≤ blen data → is_u16 (of_le (slice off 2 data)).
Proof.
  intros Hd Ho Hl. pose proof (of_le_range (slice off 2 data) (bytes_slice _ _ _ Hd)) as H.
  by rewrite blen_slice in H by lia.
Qed.

(** Alpha values of the two formats that keep them apart. *)
Lemma byte_at_fmap_seqZ (f : Z → Z) n t : 0 ≤ t < n → byte_at (f <$> seqZ 0 n) t = f t.
Proof.
  intros Ht. unfold byte_at. rewrite list_lookup_total_alt, list_lookup_fmap, lookup_seqZ_lt by lia.
  cbn. f_equal. lia.
Qed.
Lemma blen_fmap_seqZ (f : Z → Z) n : 0 ≤ n → blen (f <$> seqZ 0 n) = n.
Proof. intros. unfold blen. rewrite length_fmap, length_seqZ. lia. Qed.

Lemma dxt3_alpha v t :
  0 ≤ t → u8 ((((v >>> (4 * t)) &&& 0x0F) <<< 4) * 0xFF / 0xF0) = 17 * field 4 v t.
Proof.
  intros Ht. change 0x0F with (Z.ones 4). rewrite shiftr_field by lia.
  pose proof (field_range 4 v t ltac:(lia)) as Hf. rewrite Z.shiftl_mul_pow2 by lia.
  unfold u8. rewrite Z.mod_small; dlia.
Qed.
Lemma dxt5_palette_ramp a0 a1 code :
  is_u8 a0 → is_u8 a1 → 0 ≤ code < 8 → byte_at (dxt5_palette a0 a1) code = alpha_ramp a0 a1 code.
Proof.
  unfold is_u8. intros H0 H1 Hc. unfold dxt5_palette, alpha_ramp.
  assert (Hcases : code = 0 ∨ code = 1 ∨ code = 2 ∨ code = 3 ∨ code = 4 ∨ code = 5 ∨ code = 6 ∨ code = 7)
    by lia.
  destruct (a0 >? a1); destruct Hcases as [->|[->|[->|[->|[->|[->|[->| ->]]]]]]]; try done;
    cbn; apply Z.mod_small; dlia.
Qed.
(** The alpha indices start after the two end points. *)
Lemma of_le_app b1 b2 : of_le (b1 ++ b2) = of_le b1 + 2 ^ (8 * blen b1) * of_le b2.
Proof.
  induction b1 as [|x b1 IH]; cbn [of_le app].
  - change (blen []) with 0. change (2 ^ (8 * 0)) with 1. lia.
  - rewrite IH. change (x :: b1) with ([x] ++ b1). rewrite blen_app. change (blen [x]) with 1.
    replace (8 * (1 + blen b1)) with (8 + 8 * blen b1) by lia.
    rewrite Z.pow_add_r by (pose proof (blen_nonneg b1); lia). ring.
Qed.
Lemma dxt5_codes block t :
  bytes block → blen block = 16 → 0 ≤ t →
  (of_le (slice 0 8 block) >>> (16 + 3 * t)) &&& 0x07 = field 3 (of_le (slice 2 6 block)) t.
Proof.
  intros Hb Hl Ht. assert (slice 0 8 block = slice 0 2 block ++ slice 2 6 block) as ->.
  { unfold slice. change (Z.to_nat 0) with 0%nat. change (Z.to_nat 8) with (2 + 6)%nat.
    by rewrite !drop_0, <-take_take_drop. }
  rewrite of_le_app, blen_slice by lia. rewrite <-Z.shiftr_shiftr by lia.
  pose proof (of_le_u16 block 0 Hb ltac:(lia) ltac:(lia)) as H2. unfold is_u16 in H2.
  rewrite (Z.shiftr_div_pow2 _ 16) by lia. change (8 * 2) with 16.
  rewrite (Z.mul_comm (2 ^ 16)), Z.div_add, (Z.div_small (of_le (slice 0 2 block))), Z.add_0_l by lia.
  change 0x07 with (Z.ones 3). by apply shiftr_field.
Qed.

(** ** A block decoded to its texels *)

Section block.
Context (data : list Z) (index : Z) (Hdata : bytes data) (Hindex : 0 ≤ index).

Definition block_at (fmt : S3TC_DECOMPRESS_FORMAT) : list Z :=
  slice (block_size fmt * index) (block_size fmt) data.

Lemma run_decompress_dxt1 i j w h zpf buf :
  8 * index + 8 ≤ blen data →
  decompress_dxt1_block data (8 * index) i j w h zpf buf =
  forM (block_texels i j w h) (λ '(x, y), write_at ((zpf + y * w + x) * 4)
    (texel S3TC_DECOMPRESS_FORMAT_DXT1 (block_at S3TC_DECOMPRESS_FORMAT_DXT1)
       (4 * (y - j * 4) + (x - i * 4)))) buf.
Proof.
  intros Hlen. unfold decompress_dxt1_block.
  do 2 (erewrite run_bind; [|apply run_rd_u16; lia]). cbv zeta.
  erewrite run_bind; [|apply run_rd_u32; lia].
  apply (run_write_block _ _ _ _ _ _ _ _ (texel _ _)). intros t Ht idx.
  pose proof (field_range 2 (of_le (slice (8 * index + 4 * 1) 4 data)) t ltac:(lia)) as Hf.
  change (2 ^ 2) with 4 in Hf.
  destruct (decode_bc1_colors_ramps (of_le (slice (8 * index + 2 * 0) 2 data))
    (of_le (slice (8 * index + 2 * 1) 2 data))
    (of_le (slice (8 * index + 2 * 0) 2 data) <=? of_le (slice (8 * index + 2 * 1) 2 data)) idx)
    as (Er & Eg & Eb & Ea & Lr & Lg & Lb & La); [apply of_le_u16; (done || lia)..|done|].
  split_and!; [done..|by rewrite La; apply Hf|]. rewrite Er, Eg, Eb, Ea. subst idx.
  unfold texel, block_at. cbv zeta. cbn [block_size]. rewrite !slice_slice by lia.
  rewrite !Z.gtb_ltb, !Z.ltb_antisym.
  replace (8 * index + (8 - 8) + 0) with (8 * index + 2 * 0) by lia.
  replace (8 * index + (8 - 8) + 2) with (8 * index + 2 * 1) by lia.
  replace (8 * index + (8 - 8) + 4) with (8 * index + 4 * 1) by lia.
  done.
Qed.

(** The two formats with 16-byte blocks share the colour half. *)
Lemma draws_separate blk indices a c0 c1 fmt :
  bytes blk → blen blk = 16 → block_size fmt = 16 → blen a = 16 →
  indices = of_le (slice 12 4 blk) → c0 = of_le (slice 8 2 blk) → c1 = of_le (slice 10 2 blk) →
  (∀ t, 0 ≤ t < 16 → texel fmt blk t !!! 3%nat = byte_at a t) →
  let c := decode_bc1_colors c0 c1 false in
  draws indices {| bc_r := bc_r c; bc_g := bc_g c; bc_b := bc_b c; bc_a := a |} true (texel fmt blk).
Proof.
  intros Hb Hl Hfmt Ha -> -> -> Halpha c t Ht idx. cbn [bc_r bc_g bc_b bc_a].
  pose proof (field_range 2 (of_le (slice 12 4 blk)) t ltac:(lia)) as Hf. change (2 ^ 2) with 4 in Hf.
  destruct (decode_bc1_colors_ramps (of_le (slice 8 2 blk)) (of_le (slice 10 2 blk)) false idx)
    as (Er & Eg & Eb & _ & Lr & Lg & Lb & _); [apply of_le_u16; (done || lia)..|done|].
  split_and!; [done..|lia|]. rewrite <-Halpha by done. subst c. rewrite Er, Eg, Eb. subst idx.
  unfold texel. cbv zeta. rewrite Hfmt, !slice_slice by lia.
  by destruct fmt.
Qed.

Lemma run_decompress_dxt3 i j w h zpf buf :
  16 * index + 16 ≤ blen data →
  decompress_dxt3_block data (16 * index) i j w h zpf buf =
  forM (block_texels i j w h) (λ '(x, y), write_at ((zpf + y * w + x) * 4)
    (texel S3TC_DECOMPRESS_FORMAT_DXT3 (block_at S3TC_DECOMPRESS_FORMAT_DXT3)
       (4 * (y - j * 4) + (x - i * 4)))) buf.
Proof.
  intros Hlen. unfold decompress_dxt3_block.
  do 2 (erewrite run_bind; [|apply run_rd_u16; lia]). cbv zeta.
  erewrite run_bind; [|apply run_rd_u64; lia]. erewrite run_bind; [|apply run_rd_u32; lia].
  apply (run_write_block _ _ _ _ _ _ _ _ (texel _ _)). unfold block_at. cbn [block_size].
  apply draws_separate; [by apply bytes_slice|apply blen_slice; lia|done|by apply blen_fmap_seqZ|..].
  1-3: by rewrite slice_slice by lia.
  intros t Ht. rewrite byte_at_fmap_seqZ, dxt3_alpha by lia. cbn -[Z.mul slice field].
  by rewrite slice_slice by lia.
Qed.

Lemma run_decompress_dxt5 i j w h zpf buf :
  16 * index + 16 ≤ blen data →
  decompress_dxt5_block data (16 * index) i j w h zpf buf =
  forM (block_texels i j w h) (λ '(x, y), write_at ((zpf + y * w + x) * 4)
    (texel S3TC_DECOMPRESS_FORMAT_DXT5 (block_at S3TC_DECOMPRESS_FORMAT_DXT5)
       (4 * (y - j * 4) + (x - i * 4)))) buf.
Proof.
  intros Hlen. unfold decompress_dxt5_block.
  do 2 (erewrite run_bind; [|apply run_rd_u16; lia]). cbv zeta.
  erewrite run_bind; [|apply run_rd_u64; lia].
  do 2 (erewrite run_bind; [|apply run_rd8; lia]). erewrite run_bind; [|apply run_rd_u32; lia].
  apply (run_write_block _ _ _ _ _ _ _ _ (texel _ _)). unfold block_at. cbn [block_size].
  set (blk := slice (16 * index) 16 data).
  assert (Hb : bytes blk) by (by apply bytes_slice). assert (Hl : blen blk = 16) by (apply blen_slice; lia).
  apply draws_separate; [done|done|done|by apply blen_fmap_seqZ|..].
  1-3: subst blk; by rewrite slice_slice by lia.
  intros t Ht. rewrite byte_at_fmap_seqZ by lia.
  replace (slice (16 * index + 8 * 0) 8 data) with (slice 0 8 blk)
    by (subst blk; by rewrite slice_slice by lia).
  replace (byte_at data (16 * index)) with (byte_at blk 0)
    by (subst blk; rewrite byte_at_slice by lia; f_equal; lia).
  replace (byte_at data (16 * index + 1)) with (byte_at blk 1)
    by (subst blk; by rewrite byte_at_slice by lia).
  rewrite dxt5_codes, dxt5_palette_ramp; [done|by apply bytes_byte_at..|apply field_range; lia|done|done|lia].
Qed.

Lemma run_decompress_block fmt i j w h zpf buf :
  block_size fmt * index + block_size fmt ≤ blen data →
  decompress_block fmt data index i j w h zpf buf =
  forM (block_texels i j w h) (λ '(x, y), write_at ((zpf + y * w + x) * 4)
    (texel fmt (block_at fmt) (4 * (y - j * 4) + (x - i * 4)))) buf.
Proof.
  destruct fmt; [apply run_decompress_dxt1|apply run_decompress_dxt3|apply run_decompress_dxt5].
Qed.
End block.

(** ** Whole textures *)

(** Where texel [(x, y, z)] is in a texture of [w] by [h] by [d] texels. *)
Definition address (w h x y z : Z) : Z := ((z * h + y) * w + x) * 4.

Lemma linear_bound w h x y : 0 ≤ x < w → 0 ≤ y < h → 0 ≤ y * w + x < h * w.
Proof. nia. Qed.
Lemma linear_inj w x y x' y' : 0 ≤ x < w → 0 ≤ x' < w → y * w + x = y' * w + x' → x = x' ∧ y = y'.
Proof. intros. assert (y = y') by nia. lia. Qed.

Section texture.
Context (w h d : Z) (T : Z → Z → Z → list Z) (HT : ∀ x y z, blen (T x y z) = 4).
Definition inside (p : Z * Z * Z) : Prop :=
  let '(x, y, z) := p in 0 ≤ x < w ∧ 0 ≤ y < h ∧ 0 ≤ z < d.

(** Writing texels, each as often as one likes, in any order. *)
Lemma run_texels (l : list (Z * Z * Z)) buf :
  (∀ p, p ∈ l → inside p) → blen buf = w * h * d * 4 →
  ∃ out, forM l (λ '(x, y, z), write_at (address w h x y z) (T x y z)) buf = Ok (tt, out) ∧
    blen out = blen buf ∧
    ∀ x y z, (x, y, z) ∈ l → slice (address w h x y z) 4 out = T x y z.
Proof.
  intros Hin Hbuf.
  destruct (run_writes (λ '(x, y, z), address w h x y z) (λ '(x, y, z), T x y z) 4 l buf)
    as (out & E & [Hl Hd _]).
  - intros [[x y] z] Hp. destruct (Hin _ Hp) as (Hx & Hy & Hz). split; [done|]. unfold address.
    pose proof (linear_bound h d y z Hy Hz). pose proof (linear_bound w (d * h) x (z * h + y) Hx ltac:(lia)).
    lia.
  - intros [[x y] z] [[x' y'] z'] Hp Hq.
    destruct (Hin _ Hp) as (Hx & Hy & Hz), (Hin _ Hq) as (Hx' & Hy' & Hz').
    destruct (decide ((z * h + y) * w + x = (z' * h + y') * w + x')) as [Heq|Hne].
    + right. apply linear_inj in Heq as [-> Heq]; [|done..]. apply linear_inj in Heq as [-> ->]; done.
    + left. unfold apart, address. lia.
  - exists out. split_and!; [|done|intros x y z; apply (Hd (x, y, z))].
    rewrite <-E. apply forM_ext. by intros [[x y] z].
Qed.
End texture.

Lemma num_blocks n : 0 < n → n < 2 ^ 31 → (u32 (n + 3) &&& not32 3) / 4 = (n + 3) / 4.
Proof.
  intros. rewrite u32_id by (unfold is_u32; lia).
  assert (E : (n + 3) &&& not32 3 = (n + 3) / 4 * 4); [|rewrite E; dlia].
  change (not32 3) with (Z.ones 30 <<< 2). rewrite channel_bits by lia.
  change (2 ^ 2) with 4. rewrite Z.mod_small by dlia. done.
Qed.

(** Decoding a block at slice [z] of the texture. *)
Lemma block_as_texels fmt data index i j w h z buf :
  bytes data → 0 ≤ index → block_size fmt * index + block_size fmt ≤ blen data →
  decompress_block fmt data index i j w h (z * w * h) buf =
  forM ((λ '(x, y), (x, y, z)) <$> block_texels i j w h) (λ '(x, y, z), write_at (address w h x y z)
    (texel fmt (block_at data index fmt) (4 * (y mod 4) + x mod 4))) buf.
Proof.
  intros Hb Hi Hl. rewrite run_decompress_block by done. rewrite <-forM_fmap. apply forM_ext.
  intros [x y] s (? & ? & _)%elem_of_block_texels. f_equal; [f_equal|].
  - unfold address. lia.
  - f_equal. dlia.
Qed.

(** ** Two dimensions *)

Definition texel_2d (fmt : S3TC_DECOMPRESS_FORMAT) (data : list Z) (w x y : Z) : list Z :=
  texel fmt (block_at data (y / 4 * ((w + 3) / 4) + x / 4) fmt) (4 * (y mod 4) + x mod 4).

Lemma block_index_2d nx ny i j bs len :
  0 ≤ i < nx → 0 ≤ j < ny → 0 < bs → bs * (nx * ny) ≤ len →
  0 ≤ j * nx + i ∧ bs * (j * nx + i) + bs ≤ len.
Proof. intros. pose proof (linear_bound nx ny i j). nia. Qed.

Lemma run_2d_loops fmt data w h buf :
  0 < w → 0 < h → bytes data →
  block_size fmt * (((w + 3) / 4) * ((h + 3) / 4)) ≤ blen data → blen buf = w * h * 4 →
  ∃ out, forM (range 0 ((h + 3) / 4)) (λ j, forM (range 0 ((w + 3) / 4)) (λ i,
      decompress_block fmt data (j * ((w + 3) / 4) + i) i j w h 0)) buf = Ok (tt, out) ∧
    blen out = w * h * 4 ∧
    ∀ x y, 0 ≤ x < w → 0 ≤ y < h → slice (address w h x y 0) 4 out = texel_2d fmt data w x y.
Proof.
  intros Hw Hh Hb Hlen Hbuf. set (nx := (w + 3) / 4) in *. set (ny := (h + 3) / 4) in *.
  set (l := range 0 ny ≫= λ j, range 0 nx ≫= λ i, (λ '(x, y), (x, y, 0)) <$> block_texels i j w h).
  assert (Hbs : 0 < block_size fmt) by (by destruct fmt).
  assert (Hmem : ∀ x y z, (x, y, z) ∈ l ↔ inside w h 1 (x, y, z)).
  { intros x y z. subst l. rewrite list_elem_of_bind. unfold inside. split.
    - intros (j & (i & ([x' y'] & [= -> -> ->] & Hxy)%list_elem_of_fmap & Hi)%list_elem_of_bind & Hj).
      rewrite elem_of_block_texels in Hxy. rewrite elem_of_range in Hi, Hj. lia.
    - intros (Hx & Hy & Hz). exists (y / 4). rewrite elem_of_range. split; [|subst ny; dlia].
      apply list_elem_of_bind. exists (x / 4). rewrite elem_of_range. split; [|subst nx; dlia].
      apply list_elem_of_fmap. exists (x, y). split; [repeat f_equal; lia|].
      rewrite elem_of_block_texels. dlia. }
  destruct (run_texels w h 1 (λ x y z, texel_2d fmt data w x y)) with (l := l) (buf := buf)
    as (out & E & Hl & Hd); [done|by intros [[x y] z]; apply Hmem|lia|].
  exists out. split_and!; [|lia|intros x y Hx Hy; apply Hd, Hmem; unfold inside; lia].
  rewrite <-E. subst l. rewrite <-forM_flat. apply forM_ext. intros j s Hj%elem_of_range.
  rewrite <-forM_flat. apply forM_ext. clear s. intros i s Hi%elem_of_range.
  destruct (block_index_2d nx ny i j (block_size fmt) (blen data)); [done..|].
  change 0 with (0 * w * h) at 1. rewrite block_as_texels by done. apply forM_ext. clear s.
  intros p s ([x y] & -> & Hxy%elem_of_block_texels)%list_elem_of_fmap.
  unfold texel_2d. fold nx. replace (y / 4) with j by dlia. by replace (x / 4) with i by dlia.
Qed.

(** ** Three dimensions *)

Definition block_index_3d (w h d x y z : Z) : Z :=
  let nx := (w + 3) / 4 in
  let ny := (h + 3) / 4 in
  let k := z / 4 in
  4 * k * (nx * ny) + (y / 4 * nx + x / 4) * Z.min (d - 4 * k) 4 + z mod 4.

Definition texel_3d (fmt : S3TC_DECOMPRESS_FORMAT) (data : list Z) (w h d x y z : Z) : list Z :=
  texel fmt (block_at data (block_index_3d w h d x y z) fmt) (4 * (y mod 4) + x mod 4).

(** Code on the locals that works on the buffer like [g] and moves the two
    counters from [st] to [st']. *)
Definition locals (buf : list Z) (st : Z * Z) : s3tc_locals :=
  {| converted_data := buf; cur_depth := st.1; sub_block_index := st.2 |}.
Definition acts (m : M s3tc_locals unit) (g : M (list Z) unit) (st st' : Z * Z) : Prop :=
  ∀ buf, m (locals buf st) =
    match g buf with Ok (_, buf') => Ok (tt, locals buf' st') | Fault e => Fault e end.

Lemma acts_forM n (body : Z → M s3tc_locals unit) g (st : Z → Z * Z) :
  0 ≤ n → (∀ x, 0 ≤ x < n → acts (body x) (g x) (st x) (st (x + 1))) →
  acts (forM (range 0 n) body) (forM (range 0 n) g) (st 0) (st n).
Proof.
  intros Hn Hb. unfold range. rewrite Z.sub_0_r.
  assert (Hgen : ∀ (m : nat) x, 0 ≤ x → x + Z.of_nat m = n →
            acts (forM (seqZ x (Z.of_nat m)) body) (forM (seqZ x (Z.of_nat m)) g) (st x) (st n)).
  { intros m. induction m as [|m IH]; intros x Hx Hxn buf.
    - by replace x with n by lia.
    - rewrite seqZ_cons by lia. cbn [forM]. unfold mbind, M_bind. rewrite Hb by lia.
      destruct (g x buf) as [[[] buf']|]; [|done].
      replace (Z.pred (Z.of_nat (S m))) with (Z.of_nat m) by lia.
      unfold Z.succ. apply IH; lia. }
  specialize (Hgen (Z.to_nat n) 0). rewrite Z2Nat.id in Hgen by done. apply Hgen; lia.
Qed.
Lemma acts_ext m g g' st st' : acts m g st st' → (∀ buf, g buf = g' buf) → acts m g' st st'.
Proof. intros H E buf. by rewrite <-E. Qed.

(** The counters at the start of layer [k], row [j], column [i] of the blocks. *)
Section counters.
Context (fmt : S3TC_DECOMPRESS_FORMAT) (data : list Z) (w h d : Z).
Context (Hw : 0 < w) (Hh : 0 < h) (Hd : 0 < d) (Hsize : w * h * d * 4 < 2 ^ 31).
Let nx := (w + 3) / 4.
Let ny := (h + 3) / 4.

Definition sub_block (i j z n : Z) : M (list Z) unit :=
  decompress_block fmt data n i j w h (z * w * h).

Lemma size_bounds : w < 2 ^ 31 ∧ h < 2 ^ 31 ∧ d < 2 ^ 31 ∧ w * h * d < 2 ^ 29.
Proof.
  change (2 ^ 29) with 536870912. change (2 ^ 31) with 2147483648 in *.
  assert (0 < w * h) by nia. assert (0 < h * d) by nia. assert (0 < w * d) by nia.
  assert (w * (h * d) = w * h * d) by ring. assert (h * (w * d) = w * h * d) by ring.
  split_and!; nia.
Qed.

Lemma sub_block_acts cur n s i j :
  0 ≤ cur + s < d →
  acts (index ← gets sub_block_index;
        on_data (decompress_block fmt data index i j (s32 w) (s32 h) (s32 ((cur + s) * w * h)));;
        modify (λ st, st <| sub_block_index ::= λ n, n + 1 |>))
    (sub_block i j (cur + s) n) (cur, n) (cur, n + 1).
Proof.
  intros Hs buf. destruct size_bounds as (? & ? & ? & ?).
  rewrite !s32_id by (assert (0 < w * h) by nia; nia).
  erewrite run_bind by done. unfold mbind, M_bind, on_data, sub_block. cbn [locals converted_data].
  by destruct (decompress_block _ _ _ _ _ _ _ _ buf) as [[[] buf']|].
Qed.

(** One layer of blocks. *)
Lemma layer_acts cur bd n0 :
  0 ≤ cur → 0 ≤ bd → cur + bd ≤ d →
  acts (forM (range 0 ny) (λ j, forM (range 0 nx) (λ i, forM (range 0 bd) (λ s,
          index ← gets sub_block_index;
          on_data (decompress_block fmt data index i j (s32 w) (s32 h) (s32 ((cur + s) * w * h)));;
          modify (λ st, st <| sub_block_index ::= λ n, n + 1 |>)))))
    (forM (range 0 ny) (λ j, forM (range 0 nx) (λ i, forM (range 0 bd) (λ s,
       sub_block i j (cur + s) (n0 + j * (nx * bd) + i * bd + s)))))
    (cur, n0) (cur, n0 + ny * (nx * bd)).
Proof.
  intros Hcur Hbd Hd'. assert (0 ≤ nx ∧ 0 ≤ ny) as [? ?] by (subst nx ny; dlia).
  replace (cur, n0) with (cur, n0 + 0 * (nx * bd)) by (f_equal; lia).
  apply (acts_forM ny _ _ (λ j, (cur, n0 + j * (nx * bd)))); [done|]. intros j Hj.
  replace (cur, n0 + j * (nx * bd)) with (cur, n0 + j * (nx * bd) + 0 * bd) by (f_equal; lia).
  replace (cur, n0 + (j + 1) * (nx * bd)) with (cur, n0 + j * (nx * bd) + nx * bd) by (f_equal; lia).
  apply (acts_forM nx _ _ (λ i, (cur, n0 + j * (nx * bd) + i * bd))); [done|]. intros i Hi.
  replace (cur, n0 + j * (nx * bd) + i * bd) with (cur, n0 + j * (nx * bd) + i * bd + 0) by (f_equal; lia).
  replace (cur, n0 + j * (nx * bd) + (i + 1) * bd)
    with (cur, n0 + j * (nx * bd) + i * bd + bd) by (f_equal; lia).
  apply (acts_forM bd _ _ (λ s, (cur, n0 + j * (nx * bd) + i * bd + s))); [done|]. intros s Hs.
  replace (n0 + j * (nx * bd) + i * bd + (s + 1)) with (n0 + j * (nx * bd) + i * bd + s + 1) by lia.
  apply sub_block_acts. lia.
Qed.

(** All layers; every layer but the last has depth 4. *)
Definition layer_depth (k : Z) : Z := Z.min (d - 4 * k) 4.

Lemma volume_acts :
  acts (forM (range 0 ((d + 3) / 4)) (λ k,
          cur ← gets cur_depth;
          let residual_depth := s32 (d - cur) in
          let block_depth := Z.min residual_depth 4 in
          forM (range 0 ny) (λ j, forM (range 0 nx) (λ i, forM (range 0 block_depth) (λ s,
            let z_pos_factor := s32 ((cur + s) * w * h) in
            index ← gets sub_block_index;
            on_data (decompress_block fmt data index i j (s32 w) (s32 h) z_pos_factor);;
            modify (λ st, st <| sub_block_index ::= λ n, n + 1 |>))));;
          modify (λ st, st <| cur_depth ::= λ n, n + block_depth |>)))
    (forM (range 0 ((d + 3) / 4)) (λ k,
       forM (range 0 ny) (λ j, forM (range 0 nx) (λ i, forM (range 0 (layer_depth k)) (λ s,
         sub_block i j (4 * k + s)
           (4 * k * (nx * ny) + j * (nx * layer_depth k) + i * layer_depth k + s))))))
    (0, 0) (d, d * (nx * ny)).
Proof.
  destruct size_bounds as (? & ? & Hd31 & ?).
  replace (d, d * (nx * ny)) with (Z.min (4 * ((d + 3) / 4)) d, Z.min (4 * ((d + 3) / 4)) d * (nx * ny))
    by (replace (Z.min (4 * ((d + 3) / 4)) d) with d by dlia; done).
  replace (0, 0) with (Z.min (4 * 0) d, Z.min (4 * 0) d * (nx * ny))
    by (replace (Z.min (4 * 0) d) with 0 by lia; done).
  apply (acts_forM _ _ _ (λ k, (Z.min (4 * k) d, Z.min (4 * k) d * (nx * ny)))); [dlia|].
  intros k Hk buf. assert (Hk4 : 4 * k < d) by dlia. replace (Z.min (4 * k) d) with (4 * k) by lia.
  erewrite run_bind by done. cbv zeta. cbn [locals cur_depth fst].
  rewrite (s32_id (d - 4 * k)) by lia. fold (layer_depth k).
  unfold mbind at 1, M_bind at 1. rewrite layer_acts by (unfold layer_depth; lia).
  replace (Z.min (4 * (k + 1)) d) with (4 * k + layer_depth k) by (unfold layer_depth; lia).
  replace (4 * k * (nx * ny) + ny * (nx * layer_depth k))
    with ((4 * k + layer_depth k) * (nx * ny)) by ring.
  by destruct (forM _ _ buf) as [[[] buf']|].
Qed.

(** The texels of the layers are those of the texture. *)
Definition volume_texels : list (Z * Z * Z) :=
  range 0 ((d + 3) / 4) ≫= λ k, range 0 ny ≫= λ j, range 0 nx ≫= λ i,
    range 0 (layer_depth k) ≫= λ s, (λ '(x, y), (x, y, 4 * k + s)) <$> block_texels i j w h.

Lemma elem_of_volume x y z : (x, y, z) ∈ volume_texels ↔ inside w h d (x, y, z).
Proof.
  unfold volume_texels, inside, layer_depth. split.
  - intros (k & (j & (i & (s & ([x' y'] & [= -> -> ->] & Hxy)%list_elem_of_fmap & Hs)%list_elem_of_bind
      & Hi)%list_elem_of_bind & Hj)%list_elem_of_bind & Hk)%list_elem_of_bind.
    rewrite elem_of_block_texels in Hxy. rewrite elem_of_range in Hs, Hi, Hj, Hk. lia.
  - intros (Hx & Hy & Hz).
    apply list_elem_of_bind; exists (z / 4); split; [|apply elem_of_range; dlia].
    apply list_elem_of_bind; exists (y / 4); split; [|apply elem_of_range; subst ny; dlia].
    apply list_elem_of_bind; exists (x / 4); split; [|apply elem_of_range; subst nx; dlia].
    apply list_elem_of_bind; exists (z mod 4); split; [|apply elem_of_range; dlia].
    apply list_elem_of_fmap. exists (x, y). split; [f_equal; dlia|]. apply elem_of_block_texels. dlia.
Qed.

Lemma block_index_3d_bound i j k s :
  0 ≤ i < nx → 0 ≤ j < ny → 0 ≤ k < (d + 3) / 4 → 0 ≤ s < layer_depth k →
  let n := 4 * k * (nx * ny) + j * (nx * layer_depth k) + i * layer_depth k + s in
  0 ≤ n < nx * ny * d.
Proof.
  intros Hi Hj Hk Hs n. pose proof (linear_bound nx ny i j Hi Hj) as H1.
  pose proof (linear_bound (layer_depth k) (ny * nx) s (j * nx + i) Hs H1) as H2.
  assert (E : n = 4 * k * (ny * nx) + ((j * nx + i) * layer_depth k + s)) by (subst n; ring).
  assert (4 * k + layer_depth k ≤ d) by (unfold layer_depth; lia). assert (0 ≤ ny * nx) by nia.
  assert ((4 * k + layer_depth k) * (ny * nx) ≤ d * (ny * nx)) by nia. nia.
Qed.

Lemma run_3d_loops buf :
  bytes data → block_size fmt * (nx * ny * d) ≤ blen data → blen buf = w * h * d * 4 →
  ∃ out, forM (range 0 ((d + 3) / 4)) (λ k,
       forM (range 0 ny) (λ j, forM (range 0 nx) (λ i, forM (range 0 (layer_depth k)) (λ s,
         sub_block i j (4 * k + s)
           (4 * k * (nx * ny) + j * (nx * layer_depth k) + i * layer_depth k + s))))) buf = Ok (tt, out) ∧
    blen out = w * h * d * 4 ∧
    ∀ x y z, 0 ≤ x < w → 0 ≤ y < h → 0 ≤ z < d →
      slice (address w h x y z) 4 out = texel_3d fmt data w h d x y z.
Proof.
  intros Hb Hlen Hbuf. assert (Hbs : 0 < block_size fmt) by (by destruct fmt).
  destruct (run_texels w h d (texel_3d fmt data w h d)) with (l := volume_texels) (buf := buf)
    as (out & E & Hl & Hdat); [done|by intros [[x y] z]; apply elem_of_volume|lia|].
  exists out. split_and!; [|lia|intros x y z Hx Hy Hz; by apply Hdat, elem_of_volume].
  rewrite <-E. unfold volume_texels.
  rewrite <-forM_flat. apply forM_ext. clear - Hb Hlen Hbs Hw Hh Hd. intros k b Hk%elem_of_range.
  rewrite <-forM_flat. apply forM_ext. clear b. intros j b Hj%elem_of_range.
  rewrite <-forM_flat. apply forM_ext. clear b. intros i b Hi%elem_of_range.
  rewrite <-forM_flat. apply forM_ext. clear b. intros s b Hs%elem_of_range.
  pose proof (block_index_3d_bound i j k s Hi Hj Hk Hs) as Hn. cbv zeta in Hn.
  set (n := 4 * k * (nx * ny) + _ + _ + _) in *.
  unfold sub_block. rewrite block_as_texels; [|done|lia|nia]. apply forM_ext. clear b.
  intros p b ([x y] & -> & Hxy%elem_of_block_texels)%list_elem_of_fmap. unfold texel_3d.
  assert (block_index_3d w h d x y (4 * k + s) = n) as ->; [|done].
  unfold block_index_3d. fold nx ny. unfold layer_depth in *.
  replace (x / 4) with i by dlia. replace (y / 4) with j by dlia.
  replace ((4 * k + s) / 4) with k by dlia. replace ((4 * k + s) mod 4) with s by dlia.
  subst n. ring.
Qed.
End counters.

(** ** Properties *)

Section properties.
Context (g_malloc : Z → list Z) (g_malloc_size : ∀ n, 0 ≤ n → blen (g_malloc n) = n).

(** C29. A two-dimensional texture decompresses without a fault to [4 * w * h] bytes
    in which every texel, also in blocks cut off by the edge, is the one the
    format defines from its 4x4 block, for DXT1, DXT3 and DXT5 alike. *)
Theorem s3tc_decompress_2d_texels fmt data w h :
  0 < w → 0 < h → w * h * 4 < 2 ^ 31 → bytes data →
  block_size fmt * (((w + 3) / 4) * ((h + 3) / 4)) ≤ blen data →
  ∃ out, s3tc_decompress_2d g_malloc fmt data w h tt = Ok (out, tt) ∧ blen out = w * h * 4 ∧
    ∀ x y, 0 ≤ x < w → 0 ≤ y < h → slice ((y * w + x) * 4) 4 out = texel_2d fmt data w x y.
Proof.
  intros Hw Hh Hsize Hb Hlen. destruct (size_bounds w h 1) as (? & ? & _ & ?); [lia..|].
  assert (Hu : u32 (w * h * 4) = w * h * 4) by (apply u32_id; unfold is_u32; nia).
  destruct (run_2d_loops fmt data w h (g_malloc (w * h * 4))) as (out & E & Hl & Hd);
    [done..|apply g_malloc_size; nia|].
  exists out. split_and!; [|done|].
  - unfold s3tc_decompress_2d. rewrite Hu. do 2 (erewrite run_bind by (apply run_assert; lia)).
    cbv zeta. rewrite !num_blocks, !s32_id by lia. by rewrite E.
  - intros x y Hx Hy. by rewrite <-Hd by done.
Qed.

(** A volume texture decompresses without a fault to [4 * w * h * d] bytes in
    which every texel is the one the format defines; the blocks of the slices of
    a layer are consecutive, and the last layer may be thinner than four. *)
Theorem s3tc_decompress_3d_texels fmt data w h d :
  0 < w → 0 < h → 0 < d → w * h * d * 4 < 2 ^ 31 → bytes data →
  block_size fmt * (((w + 3) / 4) * ((h + 3) / 4) * d) ≤ blen data →
  ∃ out, s3tc_decompress_3d g_malloc fmt data w h d tt = Ok (out, tt) ∧ blen out = w * h * d * 4 ∧
    ∀ x y z, 0 ≤ x < w → 0 ≤ y < h → 0 ≤ z < d →
      slice (((z * h + y) * w + x) * 4) 4 out = texel_3d fmt data w h d x y z.
Proof.
  intros Hw Hh Hd Hsize Hb Hlen. destruct (size_bounds w h d) as (? & ? & ? & ?); [lia..|].
  assert (0 < w * h) by nia. assert (0 ≤ w * h * d * 4) by nia.
  assert (Hu : u32 (w * h * d * 4) = w * h * d * 4) by (apply u32_id; unfold is_u32; lia).
  destruct (run_3d_loops fmt data w h d Hw Hh (g_malloc (w * h * d * 4))) as (out & E & Hl & Hdat);
    [done..|by apply g_malloc_size|].
  exists out. split_and!; [|done|done].
  unfold s3tc_decompress_3d. rewrite Hu. do 3 (erewrite run_bind by (apply run_assert; lia)).
  cbv zeta. rewrite !num_blocks by lia. rewrite (u32_id (d + 3)) by (unfold is_u32; lia).
  pose proof (volume_acts fmt data w h d Hw Hh Hd Hsize (g_malloc (w * h * d * 4))) as Hv.
  cbv zeta in Hv. unfold locals in Hv at 1. cbn [fst snd] in Hv. rewrite Hv, E. done.
Qed.
End properties.

Lemma s3tc_decompress_2d_texels_witness :
  ∃ out, s3tc_decompress_2d (λ n, replicate (Z.to_nat n) 0) S3TC_DECOMPRESS_FORMAT_DXT1
           [0; 248; 31; 0; 228; 228; 228; 228] 3 2 tt = Ok (out, tt) ∧ blen out = 3 * 2 * 4 ∧
    ∀ x y, 0 ≤ x < 3 → 0 ≤ y < 2 → slice ((y * 3 + x) * 4) 4 out =
      texel_2d S3TC_DECOMPRESS_FORMAT_DXT1 [0; 248; 31; 0; 228; 228; 228; 228] 3 x y.
Proof.
  apply s3tc_decompress_2d_texels; try done.
  - intros n Hn. unfold blen. rewrite length_replicate. lia.
  - repeat constructor; lia.
Defined.

Lemma s3tc_decompress_3d_texels_witness :
  ∃ out, s3tc_decompress_3d (λ n, replicate (Z.to_nat n) 0) S3TC_DECOMPRESS_FORMAT_DXT5
           (replicate 80 7) 2 3 5 tt = Ok (out, tt) ∧ blen out = 2 * 3 * 5 * 4 ∧
    ∀ x y z, 0 ≤ x < 2 → 0 ≤ y < 3 → 0 ≤ z < 5 → slice (((z * 3 + y) * 2 + x) * 4) 4 out =
      texel_3d S3TC_DECOMPRESS_FORMAT_DXT5 (replicate 80 7) 2 3 5 x y z.
Proof.
  apply s3tc_decompress_3d_texels; try done.
  - intros n Hn. unfold blen. rewrite length_replicate. lia.
  - apply Forall_replicate. unfold is_u8. lia.
Defined.
