(* ===== verification/Smbus.v ===== *)
(** * Smbus: the I2C bus, the SMBus slave protocol and the master commands

    Models hw/i2c/core.c (the synchronous transfers), hw/i2c/smbus_slave.c and
    hw/i2c/smbus_master.c.  A bus carries devices of one type [D], the disjoint
    union of the device types of the machine; [SMBusFamily] is the class table
    that [SMBUS_DEVICE_GET_CLASS] consults.  [current_devs] holds positions in
    the list of children where the code holds pointers. *)

From S2P Require Import Prelude.

(** ** Definitions: slaves *)

(** The methods of a device class; a missing method is [None]. *)
Record SMBusDeviceClass (D : Type) := {
  quick_cmd : option (Z → M D unit);
  write_data : option (list Z → Z → M D Z);
  receive_byte : option (M D Z)
}.
Arguments quick_cmd {D}.
Arguments write_data {D}.
Arguments receive_byte {D}.

Class SMBusFamily (D : Type) := SMBUS_DEVICE_GET_CLASS : D → SMBusDeviceClass D.

Inductive smbus_mode :=
  | SMBUS_IDLE
  | SMBUS_WRITE_DATA
  | SMBUS_READ_DATA
  | SMBUS_DONE
  | SMBUS_CONFUSED.
#[global] Instance smbus_mode_eq_dec : EqDecision smbus_mode.
Proof. solve_decision. Defined.

Inductive i2c_event :=
  | I2C_START_RECV
  | I2C_START_SEND
  | I2C_START_SEND_ASYNC
  | I2C_FINISH
  | I2C_NACK.

Abbreviation SMBUS_DATA_MAX_LEN := 34 (only parsing).
Abbreviation I2C_BROADCAST := 0x00 (only parsing).

(** [SMBusDevice], with the state of its subclass in [impl]. *)
Record SMBusDevice (D : Type) := mkSMBusDevice {
  address : Z;
  mode : smbus_mode;
  data_len : Z;
  data_buf : list Z;
  impl : D
}.
Arguments mkSMBusDevice {D}.
Arguments address {D}.
Arguments mode {D}.
Arguments data_len {D}.
Arguments data_buf {D}.
Arguments impl {D}.
#[global] Instance eta_SMBusDevice {D} : EtaRecord (SMBusDevice D) := λ d,
  mkSMBusDevice (address d) (mode d) (data_len d) (data_buf d) (impl d).

(** The I2C bus. *)
Record I2CBus (D : Type) := mkI2CBus {
  children : list (SMBusDevice D);
  current_devs : list nat;
  broadcast : bool
}.
Arguments mkI2CBus {D}.
Arguments children {D}.
Arguments current_devs {D}.
Arguments broadcast {D}.
#[global] Instance eta_I2CBus {D} : EtaRecord (I2CBus D) := λ b,
  mkI2CBus (children b) (current_devs b) (broadcast b).

(** Run code on a part of the state: on the subclass state of a device, and on a
    child of the bus. *)
Definition on_impl {D A} (m : M D A) : M (SMBusDevice D) A := λ d,
  match m (impl d) with
  | Ok (a, i) => Ok (a, d <| impl := i |>)
  | Fault e => Fault e
  end.
Definition on_child {D A} (n : nat) (m : M (SMBusDevice D) A) : M (I2CBus D) A := λ b,
  match children b !! n with
  | Some d =>
      match m d with
      | Ok (a, d') => Ok (a, b <| children := <[n := d']> (children b) |>)
      | Fault e => Fault e
      end
  | None => Fault OutOfBounds
  end.

Section smbus.
Context {D : Type} `{!SMBusFamily D}.

Definition set_mode (m : smbus_mode) : M (SMBusDevice D) unit := modify (λ d, d <| mode := m |>).

Definition smbus_do_quick_cmd (recv : Z) : M (SMBusDevice D) unit :=
  sc ← gets (λ d, SMBUS_DEVICE_GET_CLASS (impl d));
  match quick_cmd sc with
  | Some f => on_impl (f recv)
  | None => mret tt
  end.

Definition smbus_do_write : M (SMBusDevice D) unit :=
  sc ← gets (λ d, SMBUS_DEVICE_GET_CLASS (impl d));
  match write_data sc with
  | Some f =>
      buf ← gets data_buf;
      len ← gets data_len;
      on_impl (f buf (u8 len));;
      mret tt
  | None => mret tt
  end.

Definition smbus_i2c_event (event : i2c_event) : M (SMBusDevice D) Z :=
  m ← gets mode;
  len ← gets data_len;
  match event with
  | I2C_START_SEND =>
      match m with
      | SMBUS_IDLE => set_mode SMBUS_WRITE_DATA
      | _ => set_mode SMBUS_CONFUSED
      end;;
      mret 0
  | I2C_START_RECV =>
      match m with
      | SMBUS_IDLE => set_mode SMBUS_READ_DATA
      | SMBUS_WRITE_DATA =>
          if len =? 0 then set_mode SMBUS_CONFUSED
          else smbus_do_write;; set_mode SMBUS_READ_DATA
      | _ => set_mode SMBUS_CONFUSED
      end;;
      mret 0
  | I2C_FINISH =>
      (if len =? 0 then
         match m with
         | SMBUS_WRITE_DATA => smbus_do_quick_cmd 0
         | SMBUS_READ_DATA => smbus_do_quick_cmd 1
         | _ => mret tt
         end
       else
         match m with
         | SMBUS_WRITE_DATA => smbus_do_write
         | _ => mret tt
         end);;
      modify (λ d, d <| mode := SMBUS_IDLE |> <| data_len := 0 |>);;
      mret 0
  | I2C_NACK =>
      match m with
      | SMBUS_DONE => mret tt
      | SMBUS_READ_DATA => set_mode SMBUS_DONE
      | _ => set_mode SMBUS_CONFUSED
      end;;
      mret 0
  | I2C_START_SEND_ASYNC => mret (-1)
  end.

Definition smbus_i2c_recv : M (SMBusDevice D) Z :=
  sc ← gets (λ d, SMBUS_DEVICE_GET_CLASS (impl d));
  m ← gets mode;
  match m with
  | SMBUS_READ_DATA =>
      match receive_byte sc with
      | Some f => on_impl f
      | None => mret 0xff
      end
  | _ => set_mode SMBUS_CONFUSED;; mret 0xff
  end.

Definition smbus_i2c_send (data : Z) : M (SMBusDevice D) Z :=
  m ← gets mode;
  match m with
  | SMBUS_WRITE_DATA =>
      len ← gets data_len;
      if len >=? SMBUS_DATA_MAX_LEN then mret 0
      else
        buf ← gets data_buf;
        buf' ← wr buf len [data];
        modify (λ d, d <| data_buf := buf' |> <| data_len := len + 1 |>);;
        mret 0
  | _ => mret 0
  end.

(** ** Definitions: the bus *)

(** [i2c_slave_match] on child [n]: whether it matches, and the list it leaves. *)
Definition i2c_slave_match (n : nat) (candidate : SMBusDevice D) (addr : Z) (bcast : bool)
    (devs : list nat) : bool * list nat :=
  if (address candidate =? addr) || bcast then (true, n :: devs) else (false, devs).

Fixpoint scan_children (n : nat) (kids : list (SMBusDevice D)) (addr : Z) (bcast : bool)
    (devs : list nat) : list nat :=
  match kids with
  | [] => devs
  | candidate :: kids =>
      let '(matched, devs) := i2c_slave_match n candidate addr bcast devs in
      if matched && negb bcast then devs else scan_children (S n) kids addr bcast devs
  end.

Definition i2c_scan_bus (addr : Z) (bcast : bool) : M (I2CBus D) unit :=
  modify (λ b, b <| current_devs := scan_children 0 (children b) addr bcast (current_devs b) |>).

Definition i2c_end_transfer : M (I2CBus D) unit :=
  devs ← gets current_devs;
  forM devs (λ n,
    on_child n (smbus_i2c_event I2C_FINISH);;
    modify (λ b, b <| current_devs := tail (current_devs b) |>));;
  modify (λ b, b <| broadcast := false |>).

Definition i2c_do_start_transfer (addr : Z) (event : i2c_event) : M (I2CBus D) Z :=
  whenM (addr =? I2C_BROADCAST) (modify (λ b, b <| broadcast := true |>));;
  devs ← gets current_devs;
  bcast ← gets broadcast;
  let bus_scanned := match devs with [] => true | _ => false end in
  whenM bus_scanned (i2c_scan_bus addr bcast);;
  devs ← gets current_devs;
  match devs with
  | [] => mret 1
  | _ =>
      r ← forM_until devs (λ n,
        rv ← on_child n (smbus_i2c_event event);
        if truthy rv && negb bcast
        then whenM bus_scanned i2c_end_transfer;; mret (Some rv)
        else mret None);
      mret (match r with Some rv => rv | None => 0 end)
  end.

Definition i2c_start_transfer (addr : Z) (is_recv : bool) : M (I2CBus D) Z :=
  i2c_do_start_transfer addr (if is_recv then I2C_START_RECV else I2C_START_SEND).
Definition i2c_start_recv (addr : Z) : M (I2CBus D) Z := i2c_do_start_transfer addr I2C_START_RECV.
Definition i2c_start_send (addr : Z) : M (I2CBus D) Z := i2c_do_start_transfer addr I2C_START_SEND.

(** The loop of [i2c_send]; [ret || send(...)] does not call [send] after an error. *)
Fixpoint i2c_send_loop (devs : list nat) (data : Z) (ret : bool) : M (I2CBus D) bool :=
  match devs with
  | [] => mret ret
  | n :: devs =>
      ret' ← (if ret then mret true
              else r ← on_child n (smbus_i2c_send data); mret (truthy r)) : M (I2CBus D) bool;
      i2c_send_loop devs data ret'
  end.
Definition i2c_send (data : Z) : M (I2CBus D) Z :=
  devs ← gets current_devs;
  ret ← i2c_send_loop devs data false;
  mret (if (ret : bool) then -1 else 0).

Definition i2c_recv : M (I2CBus D) Z :=
  devs ← gets current_devs;
  bcast ← gets broadcast;
  match devs with
  | n :: _ => if negb bcast then on_child n smbus_i2c_recv else mret 0xff
  | [] => mret 0xff
  end.

Definition i2c_nack : M (I2CBus D) unit :=
  devs ← gets current_devs;
  forM devs (λ n, on_child n (smbus_i2c_event I2C_NACK);; mret tt).

(** ** Definitions: master commands *)

Definition smbus_quick_command (addr read : Z) : M (I2CBus D) Z :=
  rv ← i2c_start_transfer addr (truthy read);
  if truthy rv then mret (-1)
  else i2c_end_transfer;; mret 0.

Definition smbus_receive_byte (addr : Z) : M (I2CBus D) Z :=
  rv ← i2c_start_recv addr;
  if truthy rv then mret (-1)
  else
    data ← i2c_recv;
    i2c_nack;;
    i2c_end_transfer;;
    mret data.

Definition smbus_send_byte (addr data : Z) : M (I2CBus D) Z :=
  rv ← i2c_start_send addr;
  if truthy rv then mret (-1)
  else
    i2c_send data;;
    i2c_end_transfer;;
    mret 0.

Definition smbus_read_byte (addr command : Z) : M (I2CBus D) Z :=
  rv ← i2c_start_send addr;
  if truthy rv then mret (-1)
  else
    i2c_send command;;
    rv ← i2c_start_recv addr;
    if truthy rv then i2c_end_transfer;; mret (-1)
    else
      data ← i2c_recv;
      i2c_nack;;
      i2c_end_transfer;;
      mret data.

Definition smbus_write_byte (addr command data : Z) : M (I2CBus D) Z :=
  rv ← i2c_start_send addr;
  if truthy rv then mret (-1)
  else
    i2c_send command;;
    i2c_send data;;
    i2c_end_transfer;;
    mret 0.

Definition smbus_read_word (addr command : Z) : M (I2CBus D) Z :=
  rv ← i2c_start_send addr;
  if truthy rv then mret (-1)
  else
    i2c_send command;;
    rv ← i2c_start_recv addr;
    if truthy rv then i2c_end_transfer;; mret (-1)
    else
      lo ← i2c_recv;
      hi ← i2c_recv;
      let data := u16 (lo ||| (hi <<< 8)) in
      i2c_nack;;
      i2c_end_transfer;;
      mret data.

Definition smbus_write_word (addr command data : Z) : M (I2CBus D) Z :=
  rv ← i2c_start_send addr;
  if truthy rv then mret (-1)
  else
    i2c_send command;;
    i2c_send (data &&& 0xff);;
    i2c_send (data >>> 8);;
    i2c_end_transfer;;
    mret 0.

(** [data[i] = i2c_recv(bus)] for [i < n]: the bytes received. *)
Fixpoint recv_block (n : nat) : M (I2CBus D) (list Z) :=
  match n with
  | O => mret []
  | S n => b ← i2c_recv; bs ← recv_block n; mret (b :: bs)
  end.

(** The caller's array [data] of [len] bytes goes in and comes out. *)
Definition smbus_read_block (addr command : Z) (data : list Z) (len : Z) (recv_len send_cmd : bool)
    : M (I2CBus D) (Z * list Z) :=
  rv ← (if send_cmd then
          rv ← i2c_start_send addr;
          (if truthy rv then mret rv else i2c_send command;; mret 0)
        else mret 0) : M (I2CBus D) Z;
  if truthy rv then mret (-1, data)
  else
    rv ← i2c_start_recv addr;
    if truthy rv then whenM send_cmd i2c_end_transfer;; mret (-1, data)
    else
      rlen ← (if recv_len then i2c_recv else mret len) : M (I2CBus D) Z;
      let rlen := if rlen >? len then 0 else rlen in
      bs ← recv_block (Z.to_nat rlen);
      data' ← wr data 0 bs;
      i2c_nack;;
      i2c_end_transfer;;
      mret (rlen, data').

Definition smbus_write_block (addr command : Z) (data : list Z) (len : Z) (send_len : bool)
    : M (I2CBus D) Z :=
  let len := if len >? 32 then 32 else len in
  rv ← i2c_start_send addr;
  if truthy rv then mret (-1)
  else
    i2c_send command;;
    (if send_len then i2c_send len;; mret tt else mret tt);;
    forM (seqZ 0 len) (λ i, b ← rd8 data i; i2c_send b;; mret tt);;
    i2c_end_transfer;;
    mret 0.
End smbus.

(** ** The master interface

    What a bus offers to a controller: the commands of smbus_master.c. *)

Class SMBusMaster (B : Type) := {
  m_quick_command : Z → Z → M B Z;
  m_receive_byte : Z → M B Z;
  m_send_byte : Z → Z → M B Z;
  m_read_byte : Z → Z → M B Z;
  m_write_byte : Z → Z → Z → M B Z;
  m_read_word : Z → Z → M B Z;
  m_write_word : Z → Z → Z → M B Z;
  m_read_block : Z → Z → list Z → Z → bool → bool → M B (Z * list Z);
  m_write_block : Z → Z → list Z → Z → bool → M B Z
}.

#[global] Instance i2c_master {D} `{!SMBusFamily D} : SMBusMaster (I2CBus D) := {|
  m_quick_command := smbus_quick_command;
  m_receive_byte := smbus_receive_byte;
  m_send_byte := smbus_send_byte;
  m_read_byte := smbus_read_byte;
  m_write_byte := smbus_write_byte;
  m_read_word := smbus_read_word;
  m_write_word := smbus_write_word;
  m_read_block := smbus_read_block;
  m_write_block := smbus_write_block
|}.

(** ** The abstract bus

    A list of addressed devices, without transfers, modes or buffers: a command
    hands a whole payload to the devices it selects and takes bytes back. *)

Abbreviation abus D := (list (Z * D)).

(** The devices a transfer to [addr] selects: all of them, last first, for a
    broadcast, and otherwise the first that has the address. *)
Fixpoint first_match (n : nat) (addrs : list Z) (addr : Z) : list nat :=
  match addrs with
  | [] => []
  | a :: addrs => if a =? addr then [n] else first_match (S n) addrs addr
  end.
Definition select (addrs : list Z) (addr : Z) : list nat :=
  if addr =? I2C_BROADCAST then rev (seq 0 (length addrs)) else first_match 0 addrs addr.

Section abstract.
Context {D : Type} `{!SMBusFamily D}.

(** The methods of a device, with the defaults for missing ones. *)
Definition dev_quick (read : Z) : M D unit := λ d,
  match quick_cmd (SMBUS_DEVICE_GET_CLASS d) with Some f => f read d | None => Ok (tt, d) end.
Definition dev_write (payload : list Z) : M D unit := λ d,
  match write_data (SMBUS_DEVICE_GET_CLASS d) with
  | Some f => (f payload (blen payload);; mret tt) d
  | None => Ok (tt, d)
  end.
Definition dev_recv : M D Z := λ d,
  match receive_byte (SMBUS_DEVICE_GET_CLASS d) with Some f => f d | None => Ok (0xff, d) end.

Definition on_entry {A} (n : nat) (m : M D A) : M (abus D) A := λ a,
  match a !! n with
  | Some (addr, d) =>
      match m d with
      | Ok (r, d') => Ok (r, <[n := (addr, d')]> a)
      | Fault e => Fault e
      end
  | None => Fault OutOfBounds
  end.

Definition selected (addr : Z) : M (abus D) (list nat) := gets (λ a, select a.*1 addr).

(** A command that hands over [payload] (a quick command if it is empty). *)
Definition spec_send (addr : Z) (payload : list Z) : M (abus D) Z :=
  sel ← selected addr;
  match sel with
  | [] => mret (-1)
  | _ => forM sel (λ n, on_entry n (dev_write payload));; mret 0
  end.
Definition spec_quick (addr read : Z) : M (abus D) Z :=
  sel ← selected addr;
  match sel with
  | [] => mret (-1)
  | _ => forM sel (λ n, on_entry n (dev_quick (if truthy read then 1 else 0)));; mret 0
  end.

(** A byte from the selected device; nobody answers a broadcast. *)
Definition spec_recv (addr : Z) (sel : list nat) : M (abus D) Z :=
  if addr =? I2C_BROADCAST then mret 0xff
  else match sel with n :: _ => on_entry n dev_recv | [] => mret 0xff end.
Fixpoint spec_recvs (addr : Z) (sel : list nat) (n : nat) : M (abus D) (list Z) :=
  match n with
  | O => mret []
  | S n => b ← spec_recv addr sel; bs ← spec_recvs addr sel n; mret (b :: bs)
  end.

(** A command that hands over [payload], if there is one, and reads with [k]. *)
Definition spec_read {A} (addr : Z) (payload : list Z) (none : A) (k : list nat → M (abus D) A)
    : M (abus D) A :=
  sel ← selected addr;
  match sel with
  | [] => mret none
  | _ =>
      whenM (negb (blen payload =? 0)) (forM sel (λ n, on_entry n (dev_write payload)));;
      k sel
  end.

Definition spec_block (addr : Z) (data : list Z) (len : Z) (recv_len : bool) (sel : list nat)
    : M (abus D) (Z * list Z) :=
  rlen ← (if recv_len then spec_recv addr sel else mret len) : M (abus D) Z;
  let rlen := if rlen >? len then 0 else rlen in
  bs ← spec_recvs addr sel (Z.to_nat rlen);
  data' ← wr data 0 bs;
  mret (rlen, data').

#[global] Instance spec_master : SMBusMaster (abus D) := {|
  m_quick_command := spec_quick;
  m_receive_byte addr := spec_read addr [] (-1) (spec_recv addr);
  m_send_byte addr data := spec_send addr [data];
  m_read_byte addr command := spec_read addr [command] (-1) (spec_recv addr);
  m_write_byte addr command data := spec_send addr [command; data];
  m_read_word addr command := spec_read addr [command] (-1) (λ sel,
    lo ← spec_recv addr sel; hi ← spec_recv addr sel; mret (u16 (lo ||| (hi <<< 8))));
  m_write_word addr command data := spec_send addr [command; data &&& 0xff; data >>> 8];
  m_read_block addr command data len recv_len send_cmd :=
    spec_read addr (if send_cmd then [command] else []) (-1, data) (spec_block addr data len recv_len);
  m_write_block addr command data len send_len :=
    let len := if len >? 32 then 32 else len in
    sel ← selected addr;
    match sel with
    | [] => mret (-1)
    | _ => bs ← rd data 0 len;
           spec_send addr (command :: (if send_len then [len] else []) ++ bs)
    end
|}.
End abstract.
