(* ===== verification/SmbusSpec.v ===== *)
(** * SmbusSpec: the I2C bus refines the abstract bus

    A simulation, phase by phase of a transfer, between the bus of [Smbus] with
    its slave state machines and the abstract bus on which a command is one step.
    It rests on one law of the devices: [write_data] looks at no more than the
    bytes it is given. *)

From S2P Require Import Prelude.
From S2P Require Import Smbus.

Class SMBusLaws (D : Type) `{!SMBusFamily D} :=
  write_data_prefix : ∀ (d : D) f buf len,
    write_data (SMBUS_DEVICE_GET_CLASS d) = Some f → 0 < len ≤ blen buf →
    len ≤ SMBUS_DATA_MAX_LEN → f buf len d = f (take (Z.to_nat len) buf) len d.

(** ** Phases of a transfer *)

(** What a slave is doing: its mode and the bytes it has been sent. *)
Definition slave_phase : Type := smbus_mode * list Z.

Record phase := mkPhase {
  ph_sel : list nat;
  ph_bcast : bool;
  ph_dev : nat → slave_phase
}.
Definition idle_phase : phase := mkPhase [] false (λ _, (SMBUS_IDLE, [])).
(** All selected slaves in the same phase, the others idle. *)
Definition busy_phase (sel : list nat) (bcast : bool) (q : slave_phase) : phase :=
  mkPhase sel bcast (λ n, if decide (n ∈ sel) then q else (SMBUS_IDLE, [])).

Section refinement.
Context {D : Type} `{!SMBusFamily D} `{!SMBusLaws D} (addrs : list Z).

Record holds (q : slave_phase) (d : SMBusDevice D) : Prop := {
  hd_mode : mode d = q.1;
  hd_len : data_len d = blen q.2;
  hd_buf : take (length q.2) (data_buf d) = q.2;
  hd_size : blen (data_buf d) = SMBUS_DATA_MAX_LEN
}.

Record repr (P : phase) (bus : I2CBus D) (a : abus D) : Prop := {
  rp_addrs : a.*1 = addrs;
  rp_view : (λ d, (address d, impl d)) <$> children bus = a;
  rp_sel : current_devs bus = ph_sel P;
  rp_bcast : broadcast bus = ph_bcast P;
  rp_dev : ∀ n d, children bus !! n = Some d → holds (ph_dev P n) d
}.

(** Simulation of code on a slave, and of code on the bus. *)
Definition slave_sim {A} (q : slave_phase) (m : M (SMBusDevice D) A) (s : M D A)
    (q' : slave_phase) : Prop :=
  ∀ d, holds q d →
    match s (impl d) with
    | Ok (r, i) => ∃ d', m d = Ok (r, d') ∧ impl d' = i ∧ address d' = address d ∧ holds q' d'
    | Fault e => m d = Fault e
    end.
Definition sim {A} (P : phase) (m : M (I2CBus D) A) (s : M (abus D) A) (Q : A → phase) : Prop :=
  ∀ bus a, repr P bus a →
    match s a with
    | Ok (r, a') => ∃ bus', m bus = Ok (r, bus') ∧ repr (Q r) bus' a'
    | Fault e => m bus = Fault e
    end.

(** ** Rules *)

Lemma sim_ret {A} P (x : A) Q : Q x = P → sim P (mret x) (mret x) Q.
Proof. intros HQ bus a H. exists bus. rewrite HQ. done. Qed.
Lemma sim_bind {A B} P (m : M (I2CBus D) A) s Q (k : A → M (I2CBus D) B) ks Q' :
  sim P m s Q → (∀ r, sim (Q r) (k r) (ks r) Q') → sim P (m ≫= k) (s ≫= ks) Q'.
Proof.
  intros Hm Hk bus a H. specialize (Hm bus a H). unfold mbind, M_bind.
  destruct (s a) as [[r a']|e]; [|by rewrite Hm]. destruct Hm as (bus' & -> & H'). by apply Hk.
Qed.
(** A step that the abstract bus does not take. *)
Lemma sim_stutter {A B} P (m : M (I2CBus D) A) r Q (k : A → M (I2CBus D) B) s Q' :
  sim P m (mret r) (λ _, Q) → sim Q (k r) s Q' → sim P (m ≫= k) s Q'.
Proof.
  intros Hm Hk bus a H. destruct (Hm bus a H) as (bus' & E & H').
  erewrite run_bind by exact E. by apply Hk.
Qed.
Lemma sim_bind_value {A B} P (m : M (I2CBus D) A) (s : M (abus D) unit) x Q (k : A → M (I2CBus D) B) s' Q' :
  sim P m (s;; mret x) (λ _, Q) → sim Q (k x) s' Q' → sim P (m ≫= k) (s;; s') Q'.
Proof.
  intros Hm Hk bus a H. specialize (Hm bus a H). unfold mbind, M_bind in *.
  destruct (s a) as [[[] a']|e]; [|by rewrite Hm]. destruct Hm as (bus' & -> & H'). by apply Hk.
Qed.
Lemma sim_post {A} P (m : M (I2CBus D) A) s Q Q' :
  sim P m s Q → (∀ r bus a, repr (Q r) bus a → repr (Q' r) bus a) → sim P m s Q'.
Proof.
  intros Hm HQ bus a H. specialize (Hm bus a H). destruct (s a) as [[r a']|e]; [|done].
  destruct Hm as (bus' & ? & ?). eauto.
Qed.
Lemma sim_spec {A} P (m : M (I2CBus D) A) s s' Q :
  sim P m s Q → (∀ a, a.*1 = addrs → s a = s' a) → sim P m s' Q.
Proof. intros Hm E bus a H. rewrite <-E by apply H. by apply Hm. Qed.
Lemma sim_code {A} P (m m' : M (I2CBus D) A) s Q :
  sim P m s Q → (∀ bus a, repr P bus a → m' bus = m bus) → sim P m' s Q.
Proof. intros Hm E bus a H. rewrite (E bus a H). by apply Hm. Qed.

(** Phases only matter as functions. *)
Lemma repr_ext P P' bus a :
  repr P bus a → ph_sel P' = ph_sel P → ph_bcast P' = ph_bcast P →
  (∀ n, ph_dev P' n = ph_dev P n) → repr P' bus a.
Proof.
  intros [] Hs Hb Hd. split; [done|done|congruence|congruence|]. intros n d E. rewrite Hd. by apply rp_dev0.
Qed.

Lemma slave_sim_bind {A B} q (m : M (SMBusDevice D) A) s q' (k : A → M (SMBusDevice D) B) ks q'' :
  slave_sim q m s q' → (∀ r, slave_sim q' (k r) (ks r) q'') → slave_sim q (m ≫= k) (s ≫= ks) q''.
Proof.
  intros Hm Hk d H. specialize (Hm d H). unfold mbind, M_bind.
  destruct (s (impl d)) as [[r i]|e]; [|by rewrite Hm]. destruct Hm as (d' & -> & <- & Ha & H').
  specialize (Hk r d' H'). destruct (ks r (impl d')) as [[r' i']|e]; [|done]. by rewrite <-Ha.
Qed.
Lemma slave_sim_ret {A} q (x : A) : slave_sim q (mret x) (mret x) q.
Proof. intros d H. by exists d. Qed.
Lemma slave_sim_impl {A} q (m : M D A) : slave_sim q (on_impl m) m q.
Proof.
  intros d H. unfold on_impl. destruct (m (impl d)) as [[r i]|e]; [|done].
  eexists. split_and!; [done..|]. by destruct H.
Qed.
Lemma slave_sim_mode q m : slave_sim q (set_mode m) (mret tt) (m, q.2).
Proof. intros d H. eexists. split_and!; [done..|]. by destruct H. Qed.

(** ** Slaves *)

Lemma dev_write_sim q : q.2 ≠ [] → slave_sim q smbus_do_write (dev_write q.2) q.
Proof.
  intros Hne d H. unfold smbus_do_write, dev_write. erewrite run_bind by done.
  destruct (write_data _) as [f|] eqn:Ef; [|by exists d]. unfold on_impl, mbind, M_bind, gets.
  destruct H as [Hm Hl Hb Hs]. rewrite Hl.
  assert (Hpos : 0 < blen q.2) by (destruct q as [? [|]]; [done|unfold blen; cbn; lia]).
  assert (Hle : blen q.2 ≤ blen (data_buf d))
    by (unfold blen; rewrite <-Hb, length_take; lia).
  rewrite u8_id by (unfold is_u8; rewrite Hs in Hle; lia).
  rewrite (write_data_prefix (impl d) f (data_buf d)) by (exact Ef || lia).
  replace (Z.to_nat (blen q.2)) with (length q.2) by (unfold blen; lia). rewrite Hb.
  destruct (f _ _ (impl d)) as [[r i]|e]; [|done]. eexists. by split_and!.
Qed.
Lemma dev_quick_sim q r : slave_sim q (smbus_do_quick_cmd r) (dev_quick r) q.
Proof.
  intros d H. unfold smbus_do_quick_cmd, dev_quick. erewrite run_bind by done.
  destruct (quick_cmd _) as [f|]; [by apply slave_sim_impl|by exists d].
Qed.

Lemma slave_sim_gets {A B} q (f : SMBusDevice D → B) x (k : B → M (SMBusDevice D) A) s q' :
  (∀ d, holds q d → f d = x) → slave_sim q (k x) s q' → slave_sim q (gets f ≫= k) s q'.
Proof. intros Hf Hk d H. erewrite run_bind by done. rewrite (Hf d H). by apply Hk. Qed.
(** Steps that only set the mode, before or after a step of the device. *)
Lemma slave_sim_mode_ret {A} q m (x : A) : slave_sim q (set_mode m;; mret x) (mret x) (m, q.2).
Proof. intros d H. eexists. split_and!; [done..|]. by destruct H. Qed.
Lemma slave_sim_then_mode {A} q (c : M (SMBusDevice D) unit) s m (x : A) :
  slave_sim q c s q → slave_sim q ((c;; set_mode m);; mret x) (s;; mret x) (m, q.2).
Proof.
  intros Hc d H. specialize (Hc d H). unfold mbind, M_bind. destruct (s (impl d)) as [[[] i]|e];
    [|by rewrite Hc]. destruct Hc as (d' & -> & Hi & Ha & H'). eexists. split_and!; [done..|]. by destruct H'.
Qed.
Lemma slave_sim_then_reset {A} q (c : M (SMBusDevice D) unit) s (x : A) :
  slave_sim q c s q →
  slave_sim q (c;; modify (λ d, d <| mode := SMBUS_IDLE |> <| data_len := 0 |>);; mret x)
    (s;; mret x) (SMBUS_IDLE, []).
Proof.
  intros Hc d H. specialize (Hc d H). unfold mbind, M_bind. destruct (s (impl d)) as [[[] i]|e];
    [|by rewrite Hc]. destruct Hc as (d' & -> & Hi & Ha & H'). eexists. split_and!; [done..|].
  destruct H'. by split.
Qed.

(** Each event in the phases where the master sends it. *)
Ltac slave_event :=
  unfold smbus_i2c_event;
  eapply slave_sim_gets; [intros ? H; apply (hd_mode _ _ H)|];
  eapply slave_sim_gets; [intros ? H; apply (hd_len _ _ H)|]; cbn [fst snd].

Lemma start_send_sim :
  slave_sim (SMBUS_IDLE, []) (smbus_i2c_event I2C_START_SEND) (mret 0) (SMBUS_WRITE_DATA, []).
Proof. slave_event. apply (slave_sim_mode_ret (SMBUS_IDLE, [])). Qed.
Lemma start_recv_sim :
  slave_sim (SMBUS_IDLE, []) (smbus_i2c_event I2C_START_RECV) (mret 0) (SMBUS_READ_DATA, []).
Proof. slave_event. apply (slave_sim_mode_ret (SMBUS_IDLE, [])). Qed.
Lemma nonempty_len (pl : list Z) : pl ≠ [] → (blen pl =? 0) = false.
Proof. by destruct pl. Qed.
Lemma restart_sim pl :
  pl ≠ [] →
  slave_sim (SMBUS_WRITE_DATA, pl) (smbus_i2c_event I2C_START_RECV) (dev_write pl;; mret 0)
    (SMBUS_READ_DATA, pl).
Proof.
  intros Hpl. slave_event. rewrite nonempty_len by done.
  apply (slave_sim_then_mode (SMBUS_WRITE_DATA, pl)). by apply (dev_write_sim (SMBUS_WRITE_DATA, pl)).
Qed.
Lemma nack_sim pl :
  slave_sim (SMBUS_READ_DATA, pl) (smbus_i2c_event I2C_NACK) (mret 0) (SMBUS_DONE, pl).
Proof. slave_event. apply (slave_sim_mode_ret (SMBUS_READ_DATA, pl)). Qed.
Lemma finish_done_sim pl :
  slave_sim (SMBUS_DONE, pl) (smbus_i2c_event I2C_FINISH) (mret tt;; mret 0) (SMBUS_IDLE, []).
Proof. slave_event. apply slave_sim_then_reset. destruct (blen pl =? 0); apply slave_sim_ret. Qed.
Lemma finish_write_sim pl :
  pl ≠ [] →
  slave_sim (SMBUS_WRITE_DATA, pl) (smbus_i2c_event I2C_FINISH) (dev_write pl;; mret 0) (SMBUS_IDLE, []).
Proof.
  intros Hpl. slave_event. rewrite nonempty_len by done. apply slave_sim_then_reset.
  by apply (dev_write_sim (SMBUS_WRITE_DATA, pl)).
Qed.
Lemma finish_quick_sim (read : bool) :
  slave_sim (if read then SMBUS_READ_DATA else SMBUS_WRITE_DATA, []) (smbus_i2c_event I2C_FINISH)
    (dev_quick (if read then 1 else 0);; mret 0) (SMBUS_IDLE, []).
Proof. slave_event. apply slave_sim_then_reset. destruct read; apply dev_quick_sim. Qed.

Lemma recv_sim pl : slave_sim (SMBUS_READ_DATA, pl) smbus_i2c_recv dev_recv (SMBUS_READ_DATA, pl).
Proof.
  intros d H. unfold smbus_i2c_recv, dev_recv. do 2 (erewrite run_bind by done).
  rewrite (hd_mode _ _ H). cbn [fst]. destruct (receive_byte _); [by apply slave_sim_impl|by exists d].
Qed.
Lemma send_sim pl b :
  blen pl < SMBUS_DATA_MAX_LEN →
  slave_sim (SMBUS_WRITE_DATA, pl) (smbus_i2c_send b) (mret 0) (SMBUS_WRITE_DATA, pl ++ [b]).
Proof.
  intros Hlt d [Hm Hl Hb Hs]. cbn [fst snd] in *. unfold smbus_i2c_send. erewrite run_bind by done.
  rewrite Hm. erewrite run_bind by done. rewrite Hl.
  destruct (blen pl >=? SMBUS_DATA_MAX_LEN) eqn:E; [lia|]. erewrite run_bind by done.
  erewrite run_bind by (unfold wr; erewrite run_bind by (apply run_inBounds; change (blen [b]) with 1;
    pose proof (blen_nonneg pl); lia); done).
  eexists. split_and!; [done..|]. split; cbn.
  - done.
  - rewrite blen_app. done.
  - change (take (length (pl ++ [b])) (put (blen pl) [b] (data_buf d)) = pl ++ [b]).
    replace (length (pl ++ [b])) with (Z.to_nat (blen pl + blen [b])) by (unfold blen; rewrite length_app; cbn; lia).
    pose proof (slice_put_append (blen pl) [b] (data_buf d)) as Ha. unfold slice at 1 in Ha.
    rewrite drop_0 in Ha. rewrite Ha; [|apply blen_nonneg|change (blen [b]) with 1; lia].
    unfold slice. rewrite drop_0. f_equal. rewrite <-Hb at 2. f_equal. unfold blen. lia.
  - change (blen (put (blen pl) [b] (data_buf d)) = SMBUS_DATA_MAX_LEN). by rewrite blen_put.
Qed.

(** ** Loops over the selected slaves *)

Lemma on_child_sim {A} P n m s q' :
  (n < length addrs)%nat → slave_sim (ph_dev P n) m s q' →
  sim P (on_child n m) (on_entry n s)
    (λ _ : A, mkPhase (ph_sel P) (ph_bcast P) (λ k, if decide (k = n) then q' else ph_dev P k)).
Proof.
  intros Hn Hs bus a [Ha Hv Hsel Hb Hd]. unfold on_child, on_entry.
  assert (Hlen : length (children bus) = length addrs) by (by rewrite <-Ha, <-Hv, !length_fmap).
  destruct (lookup_lt_is_Some_2 (children bus) n ltac:(lia)) as [d Ed].
  assert (Ea : a !! n = Some (address d, impl d)) by (by rewrite <-Hv, list_lookup_fmap, Ed).
  rewrite Ea, Ed. specialize (Hs d (Hd n d Ed)). destruct (s (impl d)) as [[r i]|e]; [|by rewrite Hs].
  destruct Hs as (d' & -> & Hi & Hadr & Hh). eexists. split; [done|]. split; cbn.
  - rewrite list_fmap_insert. cbn. rewrite Ha. apply list_insert_id. by rewrite <-Ha, list_lookup_fmap, Ea.
  - rewrite list_fmap_insert, Hv, Hadr, Hi. done.
  - done.
  - done.
  - intros k dk Ek. case_decide as Hk.
    + subst k. rewrite list_lookup_insert_eq in Ek by lia. injection Ek as <-. done.
    + rewrite list_lookup_insert_ne in Ek by done. by apply Hd.
Qed.

(** The same step on every slave of a list; each may also change the selection. *)
Definition after (P : phase) (sel : list nat) (l : list nat) (q : slave_phase) : phase :=
  mkPhase sel (ph_bcast P) (λ k, if decide (k ∈ l) then q else ph_dev P k).

Lemma loop_sim_gen P g l q m s q' :
  NoDup l → (∀ n, n ∈ l → (n < length addrs)%nat ∧ ph_dev P n = q) → slave_sim q m (s;; mret 0) q' →
  sim P (forM l (λ n, on_child n m;; modify (λ b, b <| current_devs ::= g |>)))
    (forM l (λ n, on_entry n s)) (λ _, after P (Nat.iter (length l) g (ph_sel P)) l q').
Proof.
  intros Hnd Hl Hs. revert P Hl. induction Hnd as [|n l Hn Hnd IH]; intros P Hl.
  { eapply sim_post; [by apply (sim_ret P tt (λ _, P))|]. intros ? bus a H.
    apply (repr_ext P); [done|done|done|]. intros k. cbn. by rewrite decide_False by apply not_elem_of_nil. }
  cbn [forM]. eapply (sim_bind _ _ _ (λ _, mkPhase (g (ph_sel P)) (ph_bcast P)
    (λ k, if decide (k = n) then q' else ph_dev P k))).
  - destruct (Hl n) as [Hlt Hq]; [by left|]. rewrite <-Hq in Hs.
    pose proof (on_child_sim P n m (s;; mret 0) q' Hlt Hs) as Hc.
    intros bus a H. specialize (Hc bus a H). unfold on_entry, mbind, M_bind in *.
    destruct (a !! n) as [[adr d]|]; [|by rewrite Hc]. destruct (s d) as [[[] d']|e]; [|by rewrite Hc].
    destruct Hc as (bus' & -> & []). eexists. split; [done|]. split; try done. cbn. by rewrite rp_sel0.
  - intros _. eapply sim_post; [apply IH|].
    + intros k Hk. destruct (Hl k) as [Hlt Hq]; [by right|]. split; [done|]. cbn.
      rewrite decide_False; [done|]. by intros ->.
    + intros ? bus a H. apply (repr_ext _ _ _ _ H); [|done|].
      * cbn [ph_sel after length]. apply Nat.iter_succ_r.
      * intros k. cbn. destruct (decide (k ∈ l)); [by rewrite decide_True by (by right)|].
        destruct (decide (k = n)) as [->|]; [by rewrite decide_True by (by left)|].
        rewrite decide_False; [done|]. by intros [?|?]%elem_of_cons.
Qed.
Lemma loop_sim P l q m s q' :
  NoDup l → (∀ n, n ∈ l → (n < length addrs)%nat ∧ ph_dev P n = q) → slave_sim q m (s;; mret 0) q' →
  sim P (forM l (λ n, on_child n m;; mret tt)) (forM l (λ n, on_entry n s))
    (λ _, after P (ph_sel P) l q').
Proof.
  intros Hnd Hl Hs. eapply sim_code; [eapply sim_post; [by apply (loop_sim_gen P id l q m s q')|]|].
  - intros ? bus a H. apply (repr_ext _ _ _ _ H); [|done..]. cbn.
    clear. induction (length l) as [|k IH]; [done|]. by rewrite IH at 1.
  - intros bus a _. apply forM_ext. intros n b _. unfold mbind, M_bind.
    destruct (on_child n m b) as [[r b']|]; [|done]. by destruct b'.
Qed.

(** Steps that leave the devices alone. *)
Lemma on_entries_ret l (a : abus D) :
  a.*1 = addrs → (∀ n, n ∈ l → (n < length addrs)%nat) →
  forM l (λ n, on_entry n (mret tt)) a = Ok (tt, a).
Proof.
  intros Ha. revert a Ha. induction l as [|n l IH]; intros a Ha Hl; [done|]. cbn [forM].
  assert (Hn : (n < length a)%nat) by (rewrite <-(length_fmap fst), Ha; apply Hl; by left).
  destruct (lookup_lt_is_Some_2 a n Hn) as [[adr d] E]. erewrite run_bind.
  - apply IH; [done|]. intros; apply Hl. by right.
  - unfold on_entry. rewrite E. cbn. by rewrite list_insert_id.
Qed.
Lemma quiet_loop_sim P l q m q' :
  NoDup l → (∀ n, n ∈ l → (n < length addrs)%nat ∧ ph_dev P n = q) → slave_sim q m (mret 0) q' →
  sim P (forM l (λ n, on_child n m;; mret tt)) (mret tt) (λ _, after P (ph_sel P) l q').
Proof.
  intros Hnd Hl Hs. eapply sim_spec; [by apply (loop_sim P l q m (mret tt) q')|].
  intros a Ha. apply on_entries_ret; [done|]. intros n Hn. by apply Hl.
Qed.

(** ** Selection *)

Lemma scan_first n (kids : list (SMBusDevice D)) addr devs :
  scan_children n kids addr false devs = first_match n (address <$> kids) addr ++ devs.
Proof.
  revert n. induction kids as [|d kids IH]; intros n; [done|]. cbn. unfold i2c_slave_match.
  rewrite orb_false_r. destruct (address d =? addr); [done|apply IH].
Qed.
Lemma scan_broadcast n (kids : list (SMBusDevice D)) addr devs :
  scan_children n kids addr true devs = rev (seq n (length kids)) ++ devs.
Proof.
  revert n devs. induction kids as [|d kids IH]; intros n devs; [done|]. cbn.
  unfold i2c_slave_match. rewrite orb_true_r. cbn. by rewrite IH, <-app_assoc.
Qed.
Lemma scan_select (kids : list (SMBusDevice D)) addr :
  scan_children 0 kids addr (addr =? I2C_BROADCAST) [] = select (address <$> kids) addr.
Proof.
  unfold select. destruct (addr =? I2C_BROADCAST).
  - by rewrite scan_broadcast, app_nil_r, length_fmap.
  - by rewrite scan_first, app_nil_r.
Qed.

Lemma first_match_ok n l addr :
  NoDup (first_match n l addr) ∧ ∀ k, k ∈ first_match n l addr → (n ≤ k < n + length l)%nat.
Proof.
  revert n. induction l as [|x l IH]; intros n; cbn.
  - split; [constructor|]. by intros k ?%not_elem_of_nil.
  - destruct (x =? addr).
    + split; [apply NoDup_singleton|]. intros k ->%list_elem_of_singleton. lia.
    + destruct (IH (S n)) as [Hn Hk]. split; [done|]. intros k Hin. specialize (Hk k Hin). lia.
Qed.
Lemma select_ok addr : NoDup (select addrs addr) ∧ ∀ k, k ∈ select addrs addr → (k < length addrs)%nat.
Proof.
  unfold select. destruct (addr =? I2C_BROADCAST).
  - split; [apply NoDup_ListNoDup, NoDup_rev, seq_NoDup|]. intros k Hk.
    apply list_elem_of_In, in_rev, in_seq in Hk. lia.
  - destruct (first_match_ok 0 addrs addr) as [Hn Hk]. split; [done|]. intros k Hin. specialize (Hk k Hin). lia.
Qed.
Lemma select_broadcast addr : addrs ≠ [] → select addrs addr = [] → (addr =? I2C_BROADCAST) = false.
Proof.
  unfold select. destruct (addr =? I2C_BROADCAST); [|done]. intros Hne E.
  apply (f_equal length) in E. rewrite length_rev, length_seq in E. by destruct addrs.
Qed.

(** ** Steps of a transfer *)

(** Events other than the asynchronous start are acknowledged. *)
Lemma event_acks ev (d : SMBusDevice D) :
  ev ≠ I2C_START_SEND_ASYNC → wlp (smbus_i2c_event ev) (λ r _, r = 0) d.
Proof.
  intros Hev. unfold smbus_i2c_event. do 2 (apply wpE_bind, wpE_gets).
  assert (Hlast : ∀ (m : M (SMBusDevice D) unit) d, wlp (m;; mret 0) (λ r _, r = 0) d).
  { intros m d'. unfold wpE, mbind, M_bind. by destruct (m d') as [[]|]. }
  assert (Hany : ∀ (m : M (SMBusDevice D) unit) d, wlp m (λ _ _, True) d).
  { intros m d'. unfold wpE. by destruct (m d') as [[]|]. }
  destruct ev; try apply Hlast; [done|]. apply wpE_bind.
  eapply wpE_mono; [apply Hany|intros; apply Hlast].
Qed.

(** The loop of [i2c_do_start_transfer] never leaves early. *)
Lemma start_loop ev l (nak : Z → M (I2CBus D) (option Z)) bc (bus : I2CBus D) :
  ev ≠ I2C_START_SEND_ASYNC →
  forM_until l (λ n, rv ← on_child n (smbus_i2c_event ev);
                     if truthy rv && negb bc then nak rv else mret None) bus =
  (forM l (λ n, on_child n (smbus_i2c_event ev);; mret tt);; mret None) bus.
Proof.
  intros Hev. revert bus. induction l as [|n l IH]; intros bus; [done|]. cbn [forM forM_until].
  unfold mbind, M_bind in *. unfold on_child at 1 3. destruct (children bus !! n) as [d|]; [|done].
  pose proof (event_acks ev d Hev) as Hr. unfold wpE in Hr.
  destruct (smbus_i2c_event ev d) as [[r d']|]; [|done]. subst r. apply IH.
Qed.

Section transfer.
Context (addr : Z) (Hne : addrs ≠ []).
Let sel := select addrs addr.
Let bc := addr =? I2C_BROADCAST.

Lemma busy_sel q n :
  n ∈ sel → (n < length addrs)%nat ∧ ph_dev (busy_phase sel bc q) n = q.
Proof. intros Hn. split; [by apply (select_ok addr)|]. cbn. by rewrite decide_True. Qed.
Lemma after_busy P q bus a :
  ph_bcast P = bc → (∀ k, k ∉ sel → ph_dev P k = (SMBUS_IDLE, [])) →
  repr (after P sel sel q) bus a → repr (busy_phase sel bc q) bus a.
Proof.
  intros Hb Hd H. apply (repr_ext _ _ _ _ H); [done|done|]. intros k. cbn. case_decide; [done|].
  symmetry. by apply Hd.
Qed.

(** A start on an idle bus; the bus is left alone if nobody has the address. *)
Lemma start_sim ev q :
  ev ≠ I2C_START_SEND_ASYNC → slave_sim (SMBUS_IDLE, []) (smbus_i2c_event ev) (mret 0) q →
  sim idle_phase (i2c_do_start_transfer addr ev) (mret (if decide (sel = []) then 1 else 0))
    (λ _, if decide (sel = []) then idle_phase else busy_phase sel bc q).
Proof.
  intros Hev Hq bus a H. unfold i2c_do_start_transfer.
  set (bus1 := bus <| broadcast := bc |>).
  assert (E1 : whenM (addr =? I2C_BROADCAST) (modify (λ b, b <| broadcast := true |>)) bus = Ok (tt, bus1)).
  { subst bus1 bc. destruct (addr =? I2C_BROADCAST); [done|]. destruct H as [_ _ _ Hb _]. cbn in Hb.
    destruct bus. cbn in *. by rewrite <-Hb. }
  erewrite run_bind by exact E1. do 2 (erewrite run_bind by done).
  destruct H as [Ha Hv Hs Hb Hd]. cbn in Hs, Hb. change (current_devs bus1) with (current_devs bus). rewrite Hs.
  cbv zeta. cbn [whenM]. erewrite run_bind by done. erewrite run_bind by done. cbn.
  assert (Esel : scan_children 0 (children bus) addr bc [] = sel).
  { subst bc sel. rewrite scan_select. f_equal. by rewrite <-Ha, <-Hv, <-list_fmap_compose. }
  rewrite Hs, Esel. destruct (decide (sel = [])) as [E0|Hsel].
  - rewrite E0. eexists. split; [done|]. split; try done. cbn. by apply select_broadcast.
  - set (bus2 := mkI2CBus (children bus) sel bc). destruct (select_ok addr) as [Hnd Hlt].
    assert (H2 : repr (mkPhase sel bc (λ _, (SMBUS_IDLE, []))) bus2 a) by done.
    destruct (quiet_loop_sim (mkPhase sel bc (λ _, (SMBUS_IDLE, []))) sel (SMBUS_IDLE, [])
      (smbus_i2c_event ev) q Hnd ltac:(intros n Hn; split; [by apply Hlt|done]) Hq bus2 a H2)
      as (bus3 & E3 & H3).
    exists bus3. split; [|by apply (after_busy (mkPhase sel bc (λ _, (SMBUS_IDLE, []))))].
    assert (Hm : ∀ (m1 m2 : M (I2CBus D) Z), match sel with [] => m1 | _ => m2 end = m2)
      by (by destruct sel).
    rewrite Hm. erewrite (run_bind _ _ None); [done|]. rewrite start_loop by done.
    erewrite run_bind by exact E3. done.
Qed.

Context (Hsel : sel ≠ []).
Lemma sel_match {A} (x y : A) : match sel with [] => x | _ => y end = y.
Proof. by destruct sel. Qed.

(** The code of a bus operation, run from a busy bus, knows the selection. *)
Lemma sim_devs {A} q (k : list nat → M (I2CBus D) A) s Q :
  sim (busy_phase sel bc q) (k sel) s Q → sim (busy_phase sel bc q) (gets current_devs ≫= k) s Q.
Proof.
  intros Hk. eapply sim_code; [exact Hk|]. intros bus a H. erewrite run_bind by done.
  by rewrite (rp_sel _ _ _ H).
Qed.
Lemma sim_bcast {A} q (k : bool → M (I2CBus D) A) s Q :
  sim (busy_phase sel bc q) (k bc) s Q → sim (busy_phase sel bc q) (gets broadcast ≫= k) s Q.
Proof.
  intros Hk. eapply sim_code; [exact Hk|]. intros bus a H. erewrite run_bind by done.
  by rewrite (rp_bcast _ _ _ H).
Qed.

Lemma busy_loop_sim q m s q' :
  slave_sim q m (s;; mret 0) q' →
  sim (busy_phase sel bc q) (forM sel (λ n, on_child n m;; mret tt)) (forM sel (λ n, on_entry n s))
    (λ _, busy_phase sel bc q').
Proof.
  intros Hs. eapply sim_post; [apply (loop_sim _ sel q m s q'); [apply (select_ok addr)|apply busy_sel|done]|].
  intros ? bus a H. apply (after_busy (busy_phase sel bc q)); [done| |done].
  intros k Hk. cbn. by rewrite decide_False.
Qed.
Lemma busy_quiet_sim q m q' :
  slave_sim q m (mret 0) q' →
  sim (busy_phase sel bc q) (forM sel (λ n, on_child n m;; mret tt)) (mret tt) (λ _, busy_phase sel bc q').
Proof.
  intros Hs. eapply sim_spec; [by apply (busy_loop_sim q m (mret tt) q')|].
  intros a Ha. apply on_entries_ret; [done|]. apply (select_ok addr).
Qed.

(** A repeated start after a write hands the payload over. *)
Lemma restart_bus_sim pl :
  pl ≠ [] →
  sim (busy_phase sel bc (SMBUS_WRITE_DATA, pl)) (i2c_start_recv addr)
    (forM sel (λ n, on_entry n (dev_write pl));; mret 0)
    (λ _, busy_phase sel bc (SMBUS_READ_DATA, pl)).
Proof.
  intros Hpl. unfold i2c_start_recv, i2c_do_start_transfer.
  apply (sim_stutter _ _ tt (busy_phase sel bc (SMBUS_WRITE_DATA, pl))).
  { intros bus a H. exists bus. split; [|done]. pose proof (rp_bcast _ _ _ H) as Hb. cbn in Hb. unfold bc in Hb.
    destruct (addr =? I2C_BROADCAST); [|done]. destruct bus. cbn in *. by rewrite <-Hb. }
  apply sim_devs, sim_bcast. cbv zeta. rewrite sel_match.
  apply (sim_stutter _ _ tt (busy_phase sel bc (SMBUS_WRITE_DATA, pl))); [by apply sim_ret|].
  apply sim_devs. rewrite sel_match.
  apply (sim_code _ (forM sel (λ n, on_child n (smbus_i2c_event I2C_START_RECV);; mret tt);; mret 0)).
  - eapply sim_bind; [by apply busy_loop_sim, restart_sim|]. intros. by apply sim_ret.
  - intros bus a _. unfold mbind at 1, M_bind at 1. rewrite start_loop by done.
    unfold mbind, M_bind. by destruct (forM _ _ bus) as [[[] ?]|].
Qed.

Lemma send_bus_sim pl b :
  blen pl < SMBUS_DATA_MAX_LEN →
  sim (busy_phase sel bc (SMBUS_WRITE_DATA, pl)) (i2c_send b) (mret 0)
    (λ _, busy_phase sel bc (SMBUS_WRITE_DATA, pl ++ [b])).
Proof.
  intros Hlt. unfold i2c_send. apply sim_devs.
  apply (sim_code _ (forM sel (λ n, on_child n (smbus_i2c_send b);; mret tt);; mret 0)).
  - eapply sim_stutter; [by apply busy_quiet_sim, send_sim|]. by apply sim_ret.
  - intros bus a H.
    assert (Hg : ∀ l (bus : I2CBus D), (ret ← i2c_send_loop l b false; mret (if (ret : bool) then -1 else 0)) bus =
                          (forM l (λ n, on_child n (smbus_i2c_send b);; mret tt);; mret 0) bus); [|apply Hg].
    clear. induction l as [|n l IH]; intros bus; [done|]. cbn [i2c_send_loop forM].
    assert (Hr : ∀ d : SMBusDevice D, wlp (smbus_i2c_send b) (λ r _, r = 0) d).
    { intros d. unfold smbus_i2c_send. apply wpE_bind, wpE_gets. destruct (mode d); try done.
      apply wpE_bind, wpE_gets. case_match; [done|]. apply wpE_bind, wpE_gets.
      unfold wpE, wr, inBounds, mbind, M_bind. by destruct (_ && _). }
    unfold mbind, M_bind, on_child in *. destruct (children bus !! n) as [d|]; [|done].
    specialize (Hr d). unfold wpE in Hr. destruct (smbus_i2c_send b d) as [[r d']|]; [|done].
    subst r. apply IH.
Qed.

Lemma recv_bus_sim pl :
  sim (busy_phase sel bc (SMBUS_READ_DATA, pl)) i2c_recv (spec_recv addr sel)
    (λ _, busy_phase sel bc (SMBUS_READ_DATA, pl)).
Proof.
  unfold i2c_recv, spec_recv. apply sim_devs, sim_bcast. fold bc.
  assert (∃ n sel', sel = n :: sel') as (n & sel' & Es) by (destruct sel; [done|eauto]).
  assert (Hm : ∀ A (x : A) f, match sel with [] => x | k :: _ => f k end = f n) by (by rewrite Es).
  rewrite (Hm _ _ (λ n, if negb bc then on_child n smbus_i2c_recv else mret 0xff)).
  rewrite (Hm _ _ (λ n, on_entry n dev_recv)). destruct bc; cbn [negb]; [by apply sim_ret|].
  assert (Hn : n ∈ sel) by (rewrite Es; by left).
  assert (Hlt : (n < length addrs)%nat) by (by apply (select_ok addr)).
  eapply sim_post; [apply (on_child_sim _ n _ dev_recv (SMBUS_READ_DATA, pl)); [done|]|].
  - cbn. rewrite decide_True by done. apply recv_sim.
  - intros ? bus a H. apply (repr_ext _ _ _ _ H); [done|done|]. intros k. cbn [ph_dev busy_phase].
    destruct (decide (k = n)) as [->|]; [by rewrite decide_True|done].
Qed.

Lemma nack_bus_sim pl :
  sim (busy_phase sel bc (SMBUS_READ_DATA, pl)) i2c_nack (mret tt)
    (λ _, busy_phase sel bc (SMBUS_DONE, pl)).
Proof. unfold i2c_nack. apply sim_devs, busy_quiet_sim, nack_sim. Qed.

(** The end of a transfer leaves the bus idle. *)
Lemma end_bus_sim q s :
  slave_sim q (smbus_i2c_event I2C_FINISH) (s;; mret 0) (SMBUS_IDLE, []) →
  sim (busy_phase sel bc q) i2c_end_transfer (forM sel (λ n, on_entry n s)) (λ _, idle_phase).
Proof.
  intros Hs. unfold i2c_end_transfer. apply sim_devs.
  eapply sim_spec; [eapply (sim_bind _ _ (forM sel (λ n, on_entry n s)) _ _ (λ _, mret tt))|].
  - apply (loop_sim_gen _ tail sel q _ s (SMBUS_IDLE, [])); [apply (select_ok addr)|apply busy_sel|done].
  - intros ? bus a H. exists (bus <| broadcast := false |>). split; [done|].
    destruct H as [H1 H2 H3 H4 H5]. split; try done.
    + cbn in *. rewrite H3. clear. induction sel as [|n l IH]; [done|].
      cbn [length]. rewrite Nat.iter_succ_r. done.
    + intros n d E. specialize (H5 n d E). cbn in *. case_decide; done.
  - intros a _. unfold mbind, M_bind. by destruct (forM _ _ a) as [[[] ?]|].
Qed.
Lemma end_done_sim pl :
  sim (busy_phase sel bc (SMBUS_DONE, pl)) i2c_end_transfer (mret tt) (λ _, idle_phase).
Proof.
  eapply sim_spec; [by apply (end_bus_sim _ (mret tt)), finish_done_sim|].
  intros a Ha. apply on_entries_ret; [done|]. apply (select_ok addr).
Qed.
End transfer.

(** ** Commands *)

Section commands.
Context (addr : Z) (Hne : addrs ≠ []).
Let sel := select addrs addr.
Let bc := addr =? I2C_BROADCAST.

(** A command starts a transfer, or fails when nobody has the address. *)
Lemma command_sim {A} ev q (none : A) k (s : list nat → M (abus D) A) :
  ev ≠ I2C_START_SEND_ASYNC → slave_sim (SMBUS_IDLE, []) (smbus_i2c_event ev) (mret 0) q →
  (sel ≠ [] → sim (busy_phase sel bc q) k (s sel) (λ _, idle_phase)) →
  sim idle_phase (rv ← i2c_do_start_transfer addr ev; if truthy rv then mret none else k)
    (sl ← selected addr; match sl with [] => mret none | _ => s sl end) (λ _, idle_phase).
Proof.
  intros Hev Hq Hk. eapply sim_stutter; [by apply (start_sim addr Hne ev q)|]. fold sel bc.
  apply (sim_spec _ _ (match sel with [] => mret none | _ => s sel end)).
  - destruct (decide (sel = [])) as [->|Hsel]; [by apply sim_ret|].
    assert (match sel with [] => mret none | _ => s sel end = s sel) as -> by (by destruct sel).
    by apply Hk.
  - intros a Ha. unfold selected. erewrite run_bind by done. by rewrite Ha.
Qed.
Lemma send_command_sim {A} (none : A) k s :
  (sel ≠ [] → sim (busy_phase sel bc (SMBUS_WRITE_DATA, [])) k (s sel) (λ _, idle_phase)) →
  sim idle_phase (rv ← i2c_start_send addr; if truthy rv then mret none else k)
    (sl ← selected addr; match sl with [] => mret none | _ => s sl end) (λ _, idle_phase).
Proof. apply command_sim; [done|apply start_send_sim]. Qed.
Lemma recv_command_sim {A} (none : A) k s :
  (sel ≠ [] → sim (busy_phase sel bc (SMBUS_READ_DATA, [])) k (s sel) (λ _, idle_phase)) →
  sim idle_phase (rv ← i2c_start_recv addr; if truthy rv then mret none else k)
    (sl ← selected addr; match sl with [] => mret none | _ => s sl end) (λ _, idle_phase).
Proof. apply command_sim; [done|apply start_recv_sim]. Qed.

Section selected.
Context (Hsel : sel ≠ []).

(** One more byte. *)
Lemma send_then {A} pl b k s Q :
  blen pl < SMBUS_DATA_MAX_LEN →
  sim (busy_phase sel bc (SMBUS_WRITE_DATA, pl ++ [b])) k s Q →
  sim (busy_phase sel bc (SMBUS_WRITE_DATA, pl)) (i2c_send b;; k) s (Q : A → phase).
Proof. intros Hlt Hk. eapply sim_stutter; [by apply send_bus_sim|done]. Qed.

(** The end of a write, of a quick command and of a read. *)
Lemma write_end pl :
  pl ≠ [] →
  sim (busy_phase sel bc (SMBUS_WRITE_DATA, pl)) (i2c_end_transfer;; mret 0)
    (forM sel (λ n, on_entry n (dev_write pl));; mret 0) (λ _, idle_phase).
Proof.
  intros Hpl. eapply sim_bind; [by apply end_bus_sim, finish_write_sim|]. intros. by apply sim_ret.
Qed.
Lemma quick_end (read : bool) :
  sim (busy_phase sel bc (if read then SMBUS_READ_DATA else SMBUS_WRITE_DATA, []))
    (i2c_end_transfer;; mret 0)
    (forM sel (λ n, on_entry n (dev_quick (if read then 1 else 0)));; mret 0) (λ _, idle_phase).
Proof. eapply sim_bind; [by apply end_bus_sim, finish_quick_sim|]. intros. by apply sim_ret. Qed.
Lemma read_end {A} pl (x : A) :
  sim (busy_phase sel bc (SMBUS_READ_DATA, pl)) (i2c_nack;; i2c_end_transfer;; mret x) (mret x)
    (λ _, idle_phase).
Proof.
  eapply sim_stutter; [by apply nack_bus_sim|]. eapply sim_stutter; [by apply end_done_sim|].
  by apply sim_ret.
Qed.

(** A read that follows a write of [pl]. *)
Lemma read_after {A} pl (none : A) k s :
  pl ≠ [] → sim (busy_phase sel bc (SMBUS_READ_DATA, pl)) k s (λ _, idle_phase) →
  sim (busy_phase sel bc (SMBUS_WRITE_DATA, pl))
    (rv ← i2c_start_recv addr; if truthy rv then i2c_end_transfer;; mret none else k)
    (whenM (negb (blen pl =? 0)) (forM sel (λ n, on_entry n (dev_write pl)));; s) (λ _, idle_phase).
Proof.
  intros Hpl Hk. rewrite nonempty_len by done. cbn [negb whenM].
  by eapply sim_bind_value; [by apply restart_bus_sim|].
Qed.

Lemma recvs_sim pl n :
  sim (busy_phase sel bc (SMBUS_READ_DATA, pl)) (recv_block n) (spec_recvs addr sel n)
    (λ _, busy_phase sel bc (SMBUS_READ_DATA, pl)).
Proof.
  induction n as [|n IH]; cbn [recv_block spec_recvs]; [by apply sim_ret|].
  eapply sim_bind; [by apply recv_bus_sim|]. intros b.
  eapply sim_bind; [exact IH|]. intros bs. by apply sim_ret.
Qed.

(** The last part of the reading commands. *)
Lemma read_byte_tail pl :
  sim (busy_phase sel bc (SMBUS_READ_DATA, pl))
    (data ← i2c_recv; i2c_nack;; i2c_end_transfer;; mret data) (spec_recv addr sel) (λ _, idle_phase).
Proof.
  eapply sim_spec; [eapply (sim_bind _ _ _ _ _ mret); [by apply recv_bus_sim|intros; by apply read_end]|].
  intros a _. apply bind_ret.
Qed.
Lemma read_word_tail pl :
  sim (busy_phase sel bc (SMBUS_READ_DATA, pl))
    (lo ← i2c_recv; hi ← i2c_recv; let data := u16 (lo ||| (hi <<< 8)) in
     i2c_nack;; i2c_end_transfer;; mret data)
    (lo ← spec_recv addr sel; hi ← spec_recv addr sel; mret (u16 (lo ||| (hi <<< 8)))) (λ _, idle_phase).
Proof.
  eapply sim_bind; [by apply recv_bus_sim|]. intros lo. eapply sim_bind; [by apply recv_bus_sim|].
  intros hi. by apply read_end.
Qed.
Lemma wr_sim P data bs : sim P (wr data 0 bs) (wr data 0 bs) (λ _, P).
Proof. intros bus a H. unfold wr, inBounds, mbind, M_bind. destruct (_ && _); [by exists bus|done]. Qed.
Lemma read_block_tail pl data len (recv_len : bool) :
  sim (busy_phase sel bc (SMBUS_READ_DATA, pl))
    (rlen ← (if recv_len then i2c_recv else mret len) : M (I2CBus D) Z;
     let rlen := if rlen >? len then 0 else rlen in
     bs ← recv_block (Z.to_nat rlen);
     data' ← wr data 0 bs;
     i2c_nack;; i2c_end_transfer;; mret (rlen, data'))
    (spec_block addr data len recv_len sel) (λ _, idle_phase).
Proof.
  unfold spec_block. eapply (sim_bind _ _ _ (λ _, busy_phase sel bc (SMBUS_READ_DATA, pl))).
  { destruct recv_len; [by apply recv_bus_sim|by apply sim_ret]. }
  intros rlen. eapply sim_bind; [by apply recvs_sim|]. intros bs.
  eapply sim_bind; [apply wr_sim|]. intros data'. by apply read_end.
Qed.

(** The loop of [smbus_write_block]. *)
Lemma send_bytes_sim data n i pl :
  0 ≤ i → i + Z.of_nat n ≤ blen data → blen pl + Z.of_nat n ≤ SMBUS_DATA_MAX_LEN →
  sim (busy_phase sel bc (SMBUS_WRITE_DATA, pl))
    (forM (seqZ i (Z.of_nat n)) (λ i, b ← rd8 data i; i2c_send b;; mret tt)) (mret tt)
    (λ _, busy_phase sel bc (SMBUS_WRITE_DATA, pl ++ slice i (Z.of_nat n) data)).
Proof.
  revert i pl. induction n as [|n IH]; intros i pl Hi Hle Hpl.
  { apply sim_ret. unfold slice. by rewrite take_0, app_nil_r. }
  rewrite seqZ_cons by lia. cbn [forM]. replace (Z.pred (Z.of_nat (S n))) with (Z.of_nat n) by lia.
  eapply (sim_stutter _ _ tt (busy_phase sel bc (SMBUS_WRITE_DATA, pl ++ [byte_at data i]))).
  { eapply sim_code; [apply (send_then pl (byte_at data i) (mret tt) (mret tt)); [lia|by apply sim_ret]|].
    intros bus a _. erewrite run_bind by (apply run_rd8; lia). done. }
  eapply sim_post; [apply IH; [lia|lia|rewrite blen_app; change (blen [_]) with 1; lia]|].
  intros ? bus a H. rewrite <-app_assoc in H. unfold Z.succ in H.
  replace (slice i (Z.of_nat (S n)) data) with ([byte_at data i] ++ slice (i + 1) (Z.of_nat n) data); [done|].
  rewrite (slice_cons i) by lia. cbn [app]. do 2 f_equal. lia.
Qed.
End selected.

Lemma quick_command_sim read :
  sim idle_phase (smbus_quick_command addr read) (spec_quick addr read) (λ _, idle_phase).
Proof.
  apply (command_sim (if truthy read then I2C_START_RECV else I2C_START_SEND)
    (if truthy read then SMBUS_READ_DATA else SMBUS_WRITE_DATA, [])).
  - by destruct (truthy read).
  - destruct (truthy read); [apply start_recv_sim|apply start_send_sim].
  - intros Hsel. by apply quick_end.
Qed.
Lemma receive_byte_sim :
  sim idle_phase (smbus_receive_byte addr) (spec_read addr [] (-1) (spec_recv addr)) (λ _, idle_phase).
Proof. apply (recv_command_sim (-1) _ (spec_recv addr)). intros Hsel. by apply read_byte_tail. Qed.
Lemma send_byte_sim data :
  sim idle_phase (smbus_send_byte addr data) (spec_send addr [data]) (λ _, idle_phase).
Proof. apply send_command_sim. intros Hsel. apply send_then; [done|]. by apply write_end. Qed.
Lemma write_byte_sim command data :
  sim idle_phase (smbus_write_byte addr command data) (spec_send addr [command; data]) (λ _, idle_phase).
Proof.
  apply send_command_sim. intros Hsel. do 2 (apply send_then; [done|]). by apply write_end.
Qed.
Lemma write_word_sim command data :
  sim idle_phase (smbus_write_word addr command data)
    (spec_send addr [command; data &&& 0xff; data >>> 8]) (λ _, idle_phase).
Proof.
  apply send_command_sim. intros Hsel. do 3 (apply send_then; [done|]). by apply write_end.
Qed.
Lemma read_byte_sim command :
  sim idle_phase (smbus_read_byte addr command) (spec_read addr [command] (-1) (spec_recv addr))
    (λ _, idle_phase).
Proof.
  apply (send_command_sim (-1)). intros Hsel. apply send_then; [done|].
  apply read_after; [done|done|]. by apply read_byte_tail.
Qed.
Lemma read_word_sim command :
  sim idle_phase (smbus_read_word addr command)
    (spec_read addr [command] (-1) (λ sel,
       lo ← spec_recv addr sel; hi ← spec_recv addr sel; mret (u16 (lo ||| (hi <<< 8)))))
    (λ _, idle_phase).
Proof.
  apply (send_command_sim (-1)). intros Hsel. apply send_then; [done|].
  apply read_after; [done|done|]. by apply read_word_tail.
Qed.
Lemma read_block_sim command data len recv_len send_cmd :
  sim idle_phase (smbus_read_block addr command data len recv_len send_cmd)
    (spec_read addr (if send_cmd then [command] else []) (-1, data) (spec_block addr data len recv_len))
    (λ _, idle_phase).
Proof.
  unfold smbus_read_block. destruct send_cmd.
  - eapply sim_code; [apply (send_command_sim (-1, data)
      (i2c_send command;; rv ← i2c_start_recv addr;
       if truthy rv then i2c_end_transfer;; mret (-1, data) else
         rlen ← (if recv_len then i2c_recv else mret len) : M (I2CBus D) Z;
         let rlen := if rlen >? len then 0 else rlen in
         bs ← recv_block (Z.to_nat rlen);
         data' ← wr data 0 bs;
         i2c_nack;; i2c_end_transfer;; mret (rlen, data')))|].
    + intros Hsel. apply send_then; [done|]. apply read_after; [done|done|]. by apply read_block_tail.
    + intros bus a _. unfold mbind, M_bind. destruct (i2c_start_send addr bus) as [[rv b1]|]; [|done].
      destruct (truthy rv) eqn:E; cbn; [by rewrite E|].
      destruct (i2c_send command b1) as [[? b2]|]; done.
  - eapply sim_code; [eapply (recv_command_sim (-1, data) _ (spec_block addr data len recv_len));
      intros; by apply read_block_tail|].
    intros bus a _. unfold mbind, M_bind. cbn. by destruct (i2c_start_recv addr bus) as [[rv b1]|].
Qed.
Lemma write_block_sim command data len send_len :
  0 ≤ len → Z.min len 32 ≤ blen data →
  sim idle_phase (smbus_write_block addr command data len send_len)
    (m_write_block addr command data len send_len) (λ _, idle_phase).
Proof.
  intros Hlen Hdata. unfold smbus_write_block. cbn [m_write_block spec_master]. cbv zeta.
  replace (if len >? 32 then 32 else len) with (Z.min len 32) by (destruct (Z.gtb_spec len 32); lia).
  set (n := Z.min len 32) in *. assert (Hn : 0 ≤ n ≤ 32) by lia.
  set (pl := command :: (if send_len then [n] else []) ++ slice 0 n data).
  eapply sim_spec; [apply (send_command_sim (-1) _ (λ sel, forM sel (λ n, on_entry n (dev_write pl));; mret 0))|].
  - intros Hsel. apply send_then; [done|].
    assert (Hmid : sim (busy_phase sel bc (SMBUS_WRITE_DATA, [] ++ [command]))
      (if send_len then i2c_send n;; mret tt else mret tt) (mret tt)
      (λ _, busy_phase sel bc (SMBUS_WRITE_DATA, command :: if send_len then [n] else []))).
    { destruct send_len; [|by apply sim_ret]. apply send_then; [done|]. by apply sim_ret. }
    eapply sim_stutter; [exact Hmid|].
    eapply sim_stutter; [|by apply (write_end pl)]. rewrite <-(Z2Nat.id n) by lia.
    eapply sim_post; [apply send_bytes_sim; [done|lia|]|].
    + unfold blen. destruct send_len; cbn [length]; lia.
    + intros ? bus a H. by rewrite Z2Nat.id in H by lia.
  - intros a Ha. unfold selected. erewrite !run_bind by done.
    destruct (select a.*1 addr) eqn:Es; [done|].
    erewrite (run_bind (rd data 0 n)) by (apply run_rd; lia). unfold spec_send, selected.
    erewrite (run_bind (gets (λ a, select a.*1 addr))) by done. by rewrite Es.
Qed.
End commands.

End refinement.
