(* ===== verification/SmbusDevices.v ===== *)
(** * SmbusDevices: the devices on the Xbox SMBus

    Models hw/xbox/smbus_xbox_smc.c (system management controller),
    smbus_adm1032.c (temperature sensor), smbus_cx25871.c, smbus_fs454.c and
    smbus_xcalibur.c (video encoders) and smbus_storage.c (EEPROM), with the
    union of their states as the device type of the bus.  Requests to the rest of
    the machine (reset, shutdown, ACPI event) are recorded in the order made. *)

From Stdlib Require Import String Ascii.
From S2P Require Import Prelude.
From S2P Require Import Smbus.
From S2P Require Import SmbusSpec.

(** ** System management controller *)

Abbreviation SMC_REG_VER := 0x01 (only parsing).
Abbreviation SMC_REG_POWER := 0x02 (only parsing).
Abbreviation SMC_REG_POWER_RESET := 0x01 (only parsing).
Abbreviation SMC_REG_POWER_CYCLE := 0x40 (only parsing).
Abbreviation SMC_REG_POWER_SHUTDOWN := 0x80 (only parsing).
Abbreviation SMC_REG_TRAYSTATE := 0x03 (only parsing).
Abbreviation SMC_REG_TRAYSTATE_OPEN := 0x10 (only parsing).
Abbreviation SMC_REG_TRAYSTATE_NO_MEDIA_DETECTED := 0x40 (only parsing).
Abbreviation SMC_REG_TRAYSTATE_MEDIA_DETECTED := 0x60 (only parsing).
Abbreviation SMC_REG_AVPACK := 0x04 (only parsing).
Abbreviation SMC_REG_AVPACK_SCART := 0x00 (only parsing).
Abbreviation SMC_REG_AVPACK_HDTV := 0x01 (only parsing).
Abbreviation SMC_REG_AVPACK_VGA := 0x02 (only parsing).
Abbreviation SMC_REG_AVPACK_RFU := 0x03 (only parsing).
Abbreviation SMC_REG_AVPACK_SVIDEO := 0x04 (only parsing).
Abbreviation SMC_REG_AVPACK_COMPOSITE := 0x06 (only parsing).
Abbreviation SMC_REG_AVPACK_NONE := 0x07 (only parsing).
Abbreviation SMC_REG_ERROR_WRITE := 0x0e (only parsing).
Abbreviation SMC_REG_ERROR_READ := 0x0f (only parsing).
Abbreviation SMC_REG_INTSTATUS := 0x11 (only parsing).
Abbreviation SMC_REG_INTSTATUS_POWER := 0x01 (only parsing).
Abbreviation SMC_REG_INTSTATUS_TRAYCLOSED := 0x02 (only parsing).
Abbreviation SMC_REG_INTSTATUS_TRAYOPENING := 0x04 (only parsing).
Abbreviation SMC_REG_INTSTATUS_EJECT_BUTTON := 0x20 (only parsing).
Abbreviation SMC_REG_SCRATCH := 0x1b (only parsing).
Abbreviation SMC_REG_SCRATCH_SHORT_ANIMATION := 0x04 (only parsing).
Abbreviation SMC_VERSION_LENGTH := 3 (only parsing).

(** What the controller asks of the rest of the machine. *)
Inductive smc_request :=
  | qemu_system_reset_request
  | qemu_system_shutdown_request
  | acpi_send_event_extsmi.

Record SMBusSMCDevice := mkSMC {
  version_string : option (list Z);
  version_string_index : Z;
  cmd : Z;
  traystate_reg : Z;
  avpack_reg : Z;
  intstatus_reg : Z;
  scratch_reg : Z;
  error_reg : Z;
  requests : list smc_request
}.
#[global] Instance eta_SMC : EtaRecord SMBusSMCDevice := λ s,
  mkSMC (version_string s) (version_string_index s) (cmd s) (traystate_reg s) (avpack_reg s)
    (intstatus_reg s) (scratch_reg s) (error_reg s) (requests s).

Definition request (r : smc_request) : M SMBusSMCDevice unit :=
  modify (λ s, s <| requests ::= λ l, l ++ [r] |>).

Definition smc_quick_cmd (read : Z) : M SMBusSMCDevice unit := mret tt.

Definition smc_write_data (buf : list Z) (len : Z) : M SMBusSMCDevice Z :=
  c ← rd8 buf 0;
  modify (λ s, s <| cmd := c |>);;
  let len := u8 (len - 1) in
  if len <? 1 then mret 0
  else
    v ← rd8 buf 1;
    (if c =? SMC_REG_VER then modify (λ s, s <| version_string_index := v |>)
     else if c =? SMC_REG_POWER then
       if truthy (v &&& (SMC_REG_POWER_RESET ||| SMC_REG_POWER_CYCLE))
       then request qemu_system_reset_request
       else if truthy (v &&& SMC_REG_POWER_SHUTDOWN) then request qemu_system_shutdown_request
       else mret tt
     else if c =? SMC_REG_ERROR_WRITE then modify (λ s, s <| error_reg := v |>)
     else if c =? SMC_REG_SCRATCH then modify (λ s, s <| scratch_reg := v |>)
     else mret tt);;
    mret 0.

(** [version_string_index++ % SMC_VERSION_LENGTH] is C's remainder on [int]; the
    build makes signed overflow wrap. *)
Definition smc_receive_byte : M SMBusSMCDevice Z :=
  s ← gets id;
  let c := cmd s in
  modify (λ s, s <| cmd := u8 (c + 1) |>);;
  if c =? SMC_REG_VER then
    modify (λ s, s <| version_string_index ::= λ i, s32 (i + 1) |>);;
    match version_string s with
    | Some v => rd8 v (Z.rem (version_string_index s) SMC_VERSION_LENGTH)
    | None => raise OutOfBounds
    end
  else if c =? SMC_REG_TRAYSTATE then mret (traystate_reg s)
  else if c =? SMC_REG_SCRATCH then mret (scratch_reg s)
  else if c =? SMC_REG_AVPACK then mret (avpack_reg s)
  else if c =? SMC_REG_ERROR_READ then mret (error_reg s)
  else if c =? SMC_REG_INTSTATUS then
    modify (λ s, s <| intstatus_reg := 0 |>);; mret (intstatus_reg s)
  else if c =? 0x1c then mret 0x52
  else if c =? 0x1d then mret 0x72
  else if c =? 0x1e then mret 0xea
  else if c =? 0x1f then mret 0x46
  else mret 0.

Definition xbox_smc_avpack_to_reg (avpack : string) : option Z :=
  if String.eqb avpack "composite" then Some SMC_REG_AVPACK_COMPOSITE
  else if String.eqb avpack "scart" then Some SMC_REG_AVPACK_SCART
  else if String.eqb avpack "svideo" then Some SMC_REG_AVPACK_SVIDEO
  else if String.eqb avpack "vga" then Some SMC_REG_AVPACK_VGA
  else if String.eqb avpack "rfu" then Some SMC_REG_AVPACK_RFU
  else if String.eqb avpack "hdtv" then Some SMC_REG_AVPACK_HDTV
  else if String.eqb avpack "none" then Some SMC_REG_AVPACK_NONE
  else None.

Definition xbox_assert_extsmi : M SMBusSMCDevice unit := request acpi_send_event_extsmi.

Definition xbox_smc_power_button : M SMBusSMCDevice unit :=
  modify (λ s, s <| intstatus_reg ::= λ r, r ||| SMC_REG_INTSTATUS_POWER |>);;
  xbox_assert_extsmi.

Definition xbox_smc_eject_button : M SMBusSMCDevice unit :=
  modify (λ s, s <| intstatus_reg ::= λ r, r ||| SMC_REG_INTSTATUS_EJECT_BUTTON |>);;
  xbox_assert_extsmi.

(** The drive as [xbox_smc_update_tray_state] sees it: [None] when there is no
    block backend [ide0-cd1], otherwise whether its tray is open and whether it
    holds a medium. *)
Definition cd_drive : Type := option (bool * bool).

Definition xbox_smc_update_tray_state (blk : cd_drive) : M SMBusSMCDevice unit :=
  match blk with
  | None => assertM false
  | Some (tray_open, medium) =>
      (if (tray_open : bool) then
         modify (λ s, s <| traystate_reg := SMC_REG_TRAYSTATE_OPEN |>
                        <| intstatus_reg ::= λ r, r ||| SMC_REG_INTSTATUS_TRAYOPENING |>)
       else
         modify (λ s, s <| traystate_reg := (if (medium : bool) then SMC_REG_TRAYSTATE_MEDIA_DETECTED
                                             else SMC_REG_TRAYSTATE_NO_MEDIA_DETECTED) |>
                        <| intstatus_reg ::= λ r, r ||| SMC_REG_INTSTATUS_TRAYCLOSED |>));;
      xbox_assert_extsmi
  end.

(** The errors [smbus_smc_realize] reports; it goes on after both. *)
Inductive smc_error := UnsupportedAvpack | UnsupportedVersion.

Definition string_bytes (v : string) : list Z := (λ c, Z.of_nat (nat_of_ascii c)) <$> list_ascii_of_string v.

Definition smbus_smc_realize (short_animation : bool) (avpack smc_version : option string)
    (blk : cd_drive) : M SMBusSMCDevice (list smc_error) :=
  modify (λ s, mkSMC None 0 0 0 0 0 0 0 (requests s));;
  whenM short_animation (modify (λ s, s <| scratch_reg := SMC_REG_SCRATCH_SHORT_ANIMATION |>));;
  e1 ← match avpack with
       | Some a =>
           match xbox_smc_avpack_to_reg a with
           | Some r => modify (λ s, s <| avpack_reg := r |>);; mret []
           | None => mret [UnsupportedAvpack]
           end
       | None => mret []
       end;
  e2 ← match smc_version with
       | Some v =>
           modify (λ s, s <| version_string := Some (string_bytes v) |>);;
           mret (if Z.of_nat (String.length v) =? SMC_VERSION_LENGTH then [] else [UnsupportedVersion])
       | None => mret []
       end;
  xbox_smc_update_tray_state blk;;
  mret (e1 ++ e2).

(** ** Temperature sensor *)

Record SMBusADM1032Device := mkADM1032 { adm_cmd : Z }.

Definition smbus_adm1032_quick_cmd (read : Z) : M SMBusADM1032Device unit := mret tt.
Definition smbus_adm1032_write_data (buf : list Z) (len : Z) : M SMBusADM1032Device Z :=
  c ← rd8 buf 0;
  modify (λ _, mkADM1032 c);;
  mret 0.
Definition smbus_adm1032_receive_byte : M SMBusADM1032Device Z :=
  c ← gets adm_cmd;
  modify (λ _, mkADM1032 (u8 (c + 1)));;
  mret (if (c =? 0x0) || (c =? 0x1) then 50 else 0).
Definition smbus_adm1032_realize : M SMBusADM1032Device unit := modify (λ _, mkADM1032 0).

(** ** Video encoders

    The three files are the same up to names. *)

Record encoder := mkEncoder {
  registers : list Z;
  enc_cmd : Z
}.
#[global] Instance eta_encoder : EtaRecord encoder := λ e, mkEncoder (registers e) (enc_cmd e).

Definition encoder_write_data (buf : list Z) (len : Z) : M encoder Z :=
  c ← rd8 buf 0;
  modify (λ e, e <| enc_cmd := c |>);;
  let len := u8 (len - 1) in
  if len <? 1 then mret 0
  else
    bs ← rd buf 1 (Z.min len (256 - c));
    regs ← gets registers;
    regs' ← wr regs c bs;
    modify (λ e, e <| registers := regs' |>);;
    mret 0.
Definition encoder_receive_byte : M encoder Z :=
  c ← gets enc_cmd;
  modify (λ e, e <| enc_cmd := u8 (c + 1) |>);;
  regs ← gets registers;
  rd8 regs c.
Definition encoder_realize : M encoder unit := modify (λ _, mkEncoder (replicate 256 0) 0).

Definition smbus_cx25871_quick_cmd (read : Z) : M encoder unit := mret tt.
Definition smbus_cx25871_write_data := encoder_write_data.
Definition smbus_cx25871_receive_byte := encoder_receive_byte.
Definition smbus_cx25871_realize := encoder_realize.
Definition smbus_fs454_quick_cmd (read : Z) : M encoder unit := mret tt.
Definition smbus_fs454_write_data := encoder_write_data.
Definition smbus_fs454_receive_byte := encoder_receive_byte.
Definition smbus_fs454_realize := encoder_realize.
Definition smbus_xcalibur_quick_cmd (read : Z) : M encoder unit := mret tt.
Definition smbus_xcalibur_write_data := encoder_write_data.
Definition smbus_xcalibur_receive_byte := encoder_receive_byte.
Definition smbus_xcalibur_realize := encoder_realize.

(** ** EEPROM

    The host file behind it: its contents, whether it opens, and how many of the
    bytes of a [write] or [read] it transfers. *)

Record host_file := mkHostFile {
  contents : list Z;
  opens : bool;
  transfer : Z → Z
}.

Record SMBusStorageDevice := mkStorage {
  file : option host_file;
  data : list Z;
  size : Z;
  offset : Z;
  persist : bool
}.
#[global] Instance eta_Storage : EtaRecord SMBusStorageDevice := λ s,
  mkStorage (file s) (data s) (size s) (offset s) (persist s).

Inductive storage_error := WrongSize | CannotOpen | ReadFailure | FileUnspecified.

(** [read] leaves the bytes it does transfer. *)
Definition smbus_storage_realize : M SMBusStorageDevice (option storage_error) :=
  sz ← gets size;
  modify (λ s, s <| data := replicate (Z.to_nat sz) 0 |> <| offset := 0 |>);;
  f ← gets file;
  match f with
  | None => mret (Some FileUnspecified)
  | Some f =>
      if negb (blen (contents f) =? sz) then mret (Some WrongSize)
      else if negb (opens f) then mret (Some CannotOpen)
      else
        let rc := transfer f sz in
        modify (λ s, s <| data ::= put 0 (take (Z.to_nat rc) (contents f)) |>);;
        mret (if negb (rc =? sz) then Some ReadFailure else None)
  end.

Definition step_offset : M SMBusStorageDevice unit :=
  s ← gets id;
  if size s =? 0 then raise DivByZero
  else modify (λ s, s <| offset := u32 (offset s + 1) mod size s |>).

(** The loop that stores [buf[i]] and the bytes after it, [n] in all. *)
Fixpoint storage_store (buf : list Z) (i : Z) (n : nat) : M SMBusStorageDevice unit :=
  match n with
  | O => mret tt
  | S n =>
      b ← rd8 buf i;
      s ← gets id;
      d ← wr (data s) (offset s) [b];
      modify (λ s, s <| data := d |>);;
      step_offset;;
      storage_store buf (i + 1) n
  end.

Definition smbus_storage_write_data (buf : list Z) (len : Z) : M SMBusStorageDevice Z :=
  c ← rd8 buf 0;
  modify (λ s, s <| offset := c |>);;
  let len := u8 (len - 1) in
  storage_store buf 1 (Z.to_nat len);;
  s ← gets id;
  match file s with
  | Some f =>
      if (0 <? len) && persist s then
        if negb (opens f) then mret (-1)
        else
          let wc := transfer f (size s) in
          modify (λ s, s <| file := Some (mkHostFile
            (take (Z.to_nat wc) (data s) ++ drop (Z.to_nat wc) (contents f)) (opens f) (transfer f)) |>);;
          mret (if negb (wc =? size s) then -1 else 0)
      else mret 0
  | None => mret 0
  end.

Definition smbus_storage_receive_byte : M SMBusStorageDevice Z :=
  s ← gets id;
  val ← rd8 (data s) (offset s);
  step_offset;;
  mret val.

(** ** The devices of the machine *)

Inductive device :=
  | dev_smc (s : SMBusSMCDevice)
  | dev_adm1032 (s : SMBusADM1032Device)
  | dev_cx25871 (s : encoder)
  | dev_fs454 (s : encoder)
  | dev_xcalibur (s : encoder)
  | dev_storage (s : SMBusStorageDevice).

(** Methods of a class, applied to a device whose type the cast macro checks. *)
Definition cast {T A} (get : device → option T) (mk : T → device) (m : M T A) : M device A := λ d,
  match get d with
  | Some s => match m s with Ok (a, s') => Ok (a, mk s') | Fault e => Fault e end
  | None => Fault AssertFailed
  end.
Definition XBOX_SMC {A} (m : M SMBusSMCDevice A) : M device A :=
  cast (λ d, match d with dev_smc s => Some s | _ => None end) dev_smc m.
Definition SMBUS_ADM1032 {A} (m : M SMBusADM1032Device A) : M device A :=
  cast (λ d, match d with dev_adm1032 s => Some s | _ => None end) dev_adm1032 m.
Definition SMBUS_CX25871 {A} (m : M encoder A) : M device A :=
  cast (λ d, match d with dev_cx25871 s => Some s | _ => None end) dev_cx25871 m.
Definition SMBUS_fs454 {A} (m : M encoder A) : M device A :=
  cast (λ d, match d with dev_fs454 s => Some s | _ => None end) dev_fs454 m.
Definition SMBUS_xcalibur {A} (m : M encoder A) : M device A :=
  cast (λ d, match d with dev_xcalibur s => Some s | _ => None end) dev_xcalibur m.
Definition SMBUS_STORAGE {A} (m : M SMBusStorageDevice A) : M device A :=
  cast (λ d, match d with dev_storage s => Some s | _ => None end) dev_storage m.

Definition smbus_smc_class : SMBusDeviceClass device := {|
  quick_cmd := Some (λ r, XBOX_SMC (smc_quick_cmd r));
  write_data := Some (λ buf len, XBOX_SMC (smc_write_data buf len));
  receive_byte := Some (XBOX_SMC smc_receive_byte) |}.
Definition smbus_adm1032_class : SMBusDeviceClass device := {|
  quick_cmd := Some (λ r, SMBUS_ADM1032 (smbus_adm1032_quick_cmd r));
  write_data := Some (λ buf len, SMBUS_ADM1032 (smbus_adm1032_write_data buf len));
  receive_byte := Some (SMBUS_ADM1032 smbus_adm1032_receive_byte) |}.
Definition smbus_cx25871_class : SMBusDeviceClass device := {|
  quick_cmd := Some (λ r, SMBUS_CX25871 (smbus_cx25871_quick_cmd r));
  write_data := Some (λ buf len, SMBUS_CX25871 (smbus_cx25871_write_data buf len));
  receive_byte := Some (SMBUS_CX25871 smbus_cx25871_receive_byte) |}.
Definition smbus_fs454_class : SMBusDeviceClass device := {|
  quick_cmd := Some (λ r, SMBUS_fs454 (smbus_fs454_quick_cmd r));
  write_data := Some (λ buf len, SMBUS_fs454 (smbus_fs454_write_data buf len));
  receive_byte := Some (SMBUS_fs454 smbus_fs454_receive_byte) |}.
Definition smbus_xcalibur_class : SMBusDeviceClass device := {|
  quick_cmd := Some (λ r, SMBUS_xcalibur (smbus_xcalibur_quick_cmd r));
  write_data := Some (λ buf len, SMBUS_xcalibur (smbus_xcalibur_write_data buf len));
  receive_byte := Some (SMBUS_xcalibur smbus_xcalibur_receive_byte) |}.
Definition smbus_storage_class : SMBusDeviceClass device := {|
  quick_cmd := None;
  write_data := Some (λ buf len, SMBUS_STORAGE (smbus_storage_write_data buf len));
  receive_byte := Some (SMBUS_STORAGE smbus_storage_receive_byte) |}.

#[global] Instance xbox_devices : SMBusFamily device := λ d,
  match d with
  | dev_smc _ => smbus_smc_class
  | dev_adm1032 _ => smbus_adm1032_class
  | dev_cx25871 _ => smbus_cx25871_class
  | dev_fs454 _ => smbus_fs454_class
  | dev_xcalibur _ => smbus_xcalibur_class
  | dev_storage _ => smbus_storage_class
  end.
