(* ===== verification/AmdSmbus.v ===== *)
(** * AmdSmbus: the AMD756 SMBus controller

    Models hw/xbox/amd_smbus.c over any bus that offers the master interface, so
    that the same controller runs on the I2C bus and on the abstract bus. *)

From S2P Require Import Prelude.
From S2P Require Import Smbus.
From S2P Require Import SmbusSpec.

(** ** Definitions *)

Abbreviation SMB_GLOBAL_STATUS := 0x0 (only parsing).
Abbreviation SMB_GLOBAL_ENABLE := 0x2 (only parsing).
Abbreviation SMB_HOST_ADDRESS := 0x4 (only parsing).
Abbreviation SMB_HOST_DATA := 0x6 (only parsing).
Abbreviation SMB_HOST_COMMAND := 0x8 (only parsing).
Abbreviation SMB_HOST_BLOCK_DATA := 0x9 (only parsing).
Abbreviation AMD756_QUICK := 0x00 (only parsing).
Abbreviation AMD756_BYTE := 0x01 (only parsing).
Abbreviation AMD756_BYTE_DATA := 0x02 (only parsing).
Abbreviation AMD756_WORD_DATA := 0x03 (only parsing).
Abbreviation AMD756_BLOCK_DATA := 0x05 (only parsing).
Abbreviation GS_ABRT_STS := 1 (only parsing).
Abbreviation GS_COL_STS := 2 (only parsing).
Abbreviation GS_PRERR_STS := 4 (only parsing).
Abbreviation GS_HCYC_STS := 16 (only parsing).
Abbreviation GS_TO_STS := 32 (only parsing).
Abbreviation GS_CLEAR_STS := (GS_ABRT_STS ||| GS_COL_STS ||| GS_PRERR_STS ||| GS_HCYC_STS ||| GS_TO_STS) (only parsing).
Abbreviation GE_CYC_TYPE_MASK := 7 (only parsing).
Abbreviation GE_HOST_STC := 8 (only parsing).
Abbreviation GE_HCYC_EN := 16 (only parsing).
Abbreviation GE_ABORT := 32 (only parsing).

(** [smb_irq] is the level of the interrupt line, if one is connected. *)
Record AMD756SMBus (B : Type) := mkAMD {
  smbus : B;
  smb_stat : Z;
  smb_ctl : Z;
  smb_cmd : Z;
  smb_addr : Z;
  smb_data0 : Z;
  smb_data1 : Z;
  smb_data : list Z;
  smb_index : Z;
  smb_irq : option bool
}.
Arguments mkAMD {B}.
Arguments smbus {B}.
Arguments smb_stat {B}.
Arguments smb_ctl {B}.
Arguments smb_cmd {B}.
Arguments smb_addr {B}.
Arguments smb_data0 {B}.
Arguments smb_data1 {B}.
Arguments smb_data {B}.
Arguments smb_index {B}.
Arguments smb_irq {B}.
#[global] Instance eta_AMD {B} : EtaRecord (AMD756SMBus B) := λ s,
  mkAMD (smbus s) (smb_stat s) (smb_ctl s) (smb_cmd s) (smb_addr s) (smb_data0 s) (smb_data1 s)
    (smb_data s) (smb_index s) (smb_irq s).

Section controller.
Context {B : Type} `{!SMBusMaster B}.
Implicit Types s : AMD756SMBus B.

Definition on_bus {A} (m : M B A) : M (AMD756SMBus B) A := λ s,
  match m (smbus s) with
  | Ok (a, b) => Ok (a, s <| smbus := b |>)
  | Fault e => Fault e
  end.

(** The labels at the end of [amd756_smb_transaction]. *)
Definition trans_error : M (AMD756SMBus B) unit :=
  modify (λ s, s <| smb_stat ::= λ v, v ||| GS_PRERR_STS |>).
Definition trans_done (ret : Z) : M (AMD756SMBus B) unit :=
  if ret <? 0 then trans_error
  else modify (λ s, s <| smb_stat ::= λ v, v ||| GS_HCYC_STS |>).
Definition trans_data8 (ret : Z) : M (AMD756SMBus B) unit :=
  if ret <? 0 then trans_error
  else modify (λ s, s <| smb_data0 := u8 ret |>);; trans_done ret.
Definition trans_data16 (ret : Z) : M (AMD756SMBus B) unit :=
  if ret <? 0 then trans_error
  else modify (λ s, s <| smb_data1 := u8 (ret >>> 8) |>);; trans_data8 ret.

Definition amd756_smb_transaction : M (AMD756SMBus B) unit :=
  s ← gets id;
  let prot := smb_ctl s &&& GE_CYC_TYPE_MASK in
  let read := smb_addr s &&& 0x01 in
  let cmd := smb_cmd s in
  let addr := (smb_addr s >>> 1) &&& 0x7f in
  if prot =? AMD756_QUICK then
    ret ← on_bus (m_quick_command addr read); trans_done ret
  else if prot =? AMD756_BYTE then
    if truthy read then ret ← on_bus (m_receive_byte addr); trans_data8 ret
    else ret ← on_bus (m_send_byte addr cmd); trans_done ret
  else if prot =? AMD756_BYTE_DATA then
    if truthy read then ret ← on_bus (m_read_byte addr cmd); trans_data8 ret
    else ret ← on_bus (m_write_byte addr cmd (smb_data0 s)); trans_done ret
  else if prot =? AMD756_WORD_DATA then
    if truthy read then ret ← on_bus (m_read_word addr cmd); trans_data16 ret
    else ret ← on_bus (m_write_word addr cmd ((smb_data1 s <<< 8) ||| smb_data0 s)); trans_done ret
  else if prot =? AMD756_BLOCK_DATA then
    if truthy read then
      '(ret, d) ← on_bus (m_read_block addr cmd (smb_data s) 32 true true);
      modify (λ s, s <| smb_data := d |>);;
      trans_data8 ret
    else ret ← on_bus (m_write_block addr cmd (smb_data s) (smb_data0 s) true); trans_done ret
  else trans_error.

Definition qemu_irq_raise : M (AMD756SMBus B) unit :=
  modify (λ s, s <| smb_irq ::= λ i, match i with Some _ => Some true | None => None end |>).
Definition qemu_irq_lower : M (AMD756SMBus B) unit :=
  modify (λ s, s <| smb_irq ::= λ i, match i with Some _ => Some false | None => None end |>).

Definition amd756_smb_ioport_writeb (addr val : Z) : M (AMD756SMBus B) unit :=
  let addr := addr &&& 0x3f in
  if addr =? SMB_GLOBAL_STATUS then
    s ← gets id;
    whenM (match smb_irq s with Some _ => true | None => false end)
      (if truthy (smb_ctl s &&& GE_HCYC_EN)
          && truthy ((val &&& GS_CLEAR_STS) &&& Z.lnot (smb_stat s &&& GS_CLEAR_STS))
       then qemu_irq_raise else qemu_irq_lower);;
    if truthy (val &&& GS_CLEAR_STS) then modify (λ s, s <| smb_stat := 0 |> <| smb_index := 0 |>)
    else if truthy (val &&& GS_HCYC_STS) then modify (λ s, s <| smb_stat := GS_HCYC_STS |> <| smb_index := 0 |>)
    else modify (λ s, s <| smb_stat := GS_HCYC_STS |> <| smb_index := 0 |>)
  else if addr =? SMB_GLOBAL_ENABLE then
    modify (λ s, s <| smb_ctl := u8 val |>);;
    whenM (truthy (val &&& GE_ABORT)) (modify (λ s, s <| smb_stat ::= λ v, v ||| GS_ABRT_STS |>));;
    whenM (truthy (val &&& GE_HOST_STC))
      (amd756_smb_transaction;;
       s ← gets id;
       whenM (match smb_irq s with Some _ => true | None => false end
              && truthy (val &&& GE_HCYC_EN) && truthy (smb_stat s &&& GS_CLEAR_STS))
         qemu_irq_raise)
  else if addr =? SMB_HOST_COMMAND then modify (λ s, s <| smb_cmd := u8 val |>)
  else if addr =? SMB_HOST_ADDRESS then modify (λ s, s <| smb_addr := u8 val |>)
  else if addr =? SMB_HOST_DATA then modify (λ s, s <| smb_data0 := u8 val |>)
  else if addr =? SMB_HOST_DATA + 1 then modify (λ s, s <| smb_data1 := u8 val |>)
  else if addr =? SMB_HOST_BLOCK_DATA then
    s ← gets id;
    d ← wr (smb_data s) (smb_index s) [u8 val];
    let index := u8 (smb_index s + 1) in
    modify (λ s, s <| smb_data := d |> <| smb_index := (if index >? 31 then 0 else index) |>)
  else mret tt.

Definition amd756_smb_ioport_readb (addr : Z) : M (AMD756SMBus B) Z :=
  let addr := addr &&& 0x3f in
  s ← gets id;
  if addr =? SMB_GLOBAL_STATUS then mret (smb_stat s)
  else if addr =? SMB_GLOBAL_ENABLE then mret (smb_ctl s &&& 0x1f)
  else if addr =? SMB_HOST_COMMAND then mret (smb_cmd s)
  else if addr =? SMB_HOST_ADDRESS then mret (smb_addr s)
  else if addr =? SMB_HOST_DATA then mret (smb_data0 s)
  else if addr =? SMB_HOST_DATA + 1 then mret (smb_data1 s)
  else if addr =? SMB_HOST_BLOCK_DATA then
    val ← rd8 (smb_data s) (smb_index s);
    let index := u8 (smb_index s + 1) in
    modify (λ s, s <| smb_index := (if index >? 31 then 0 else index) |>);;
    mret val
  else mret 0.

Definition amd756_smbus_init (bus : B) (irq : bool) : M (AMD756SMBus B) unit :=
  modify (λ s, s <| smbus := bus |> <| smb_stat := 0 |>
                 <| smb_irq := (if irq then Some false else None) |>).

(** A port access of the guest, and a sequence of them with the values read. *)
Inductive port_access := PortWrite (addr val : Z) | PortRead (addr : Z).
Definition access (p : port_access) : M (AMD756SMBus B) Z :=
  match p with
  | PortWrite addr val => amd756_smb_ioport_writeb addr val;; mret 0
  | PortRead addr => amd756_smb_ioport_readb addr
  end.
Fixpoint accesses (l : list port_access) : M (AMD756SMBus B) (list Z) :=
  match l with
  | [] => mret []
  | p :: l => v ← access p; vs ← accesses l; mret (v :: vs)
  end.
End controller.
