(* ===== verification/AmdSmbusSpec.v ===== *)
(** * AmdSmbusSpec: correctness of the SMBus controller

    The controller on the I2C bus refines the controller on the abstract bus, for
    every sequence of port accesses; with devices that keep their laws no access
    stops the machine, and every started transaction completes. *)

From S2P Require Import Prelude.
From S2P Require Import Smbus.
From S2P Require Import SmbusSpec.
From S2P Require Import AmdSmbus.

(** ** The controller over two buses *)

Definition with_bus {B B'} (s : AMD756SMBus B) (b : B') : AMD756SMBus B' :=
  mkAMD b (smb_stat s) (smb_ctl s) (smb_cmd s) (smb_addr s) (smb_data0 s) (smb_data1 s)
    (smb_data s) (smb_index s) (smb_irq s).

(** What the transactions rely on. *)
Definition regs_ok {B} (s : AMD756SMBus B) : Prop := blen (smb_data s) = 32 ∧ is_u8 (smb_data0 s).

Section refinement.
Context {D : Type} `{!SMBusFamily D} `{!SMBusLaws D} (addrs : list Z) (Hne : addrs ≠ []).

(** Equal registers, and buses that are idle and show the same devices. *)
Definition same (s : AMD756SMBus (I2CBus D)) (t : AMD756SMBus (abus D)) : Prop :=
  ∃ b, s = with_bus t b ∧ repr addrs idle_phase b (smbus t) ∧ regs_ok t.

Definition csim {A} (m : M (AMD756SMBus (I2CBus D)) A) (m' : M (AMD756SMBus (abus D)) A) : Prop :=
  ∀ s t, same s t →
    match m' t with
    | Ok (r, t') => ∃ s', m s = Ok (r, s') ∧ same s' t'
    | Fault e => m s = Fault e
    end.

Lemma csim_ret {A} (x : A) : csim (mret x) (mret x).
Proof. intros s t H. by exists s. Qed.
Lemma csim_bind {A A'} (m : M _ A) m' (k : A → M _ A') k' :
  csim m m' → (∀ r, csim (k r) (k' r)) → csim (m ≫= k) (m' ≫= k').
Proof.
  intros Hm Hk s t H. specialize (Hm s t H). unfold mbind, M_bind.
  destruct (m' t) as [[r t']|e]; [|by rewrite Hm]. destruct Hm as (s' & -> & H'). by apply Hk.
Qed.
Lemma csim_bind_post {A A'} (m : M _ A) m' (Q : A → Prop) (k : A → M _ A') k' :
  csim m m' → (∀ t, wlp m' (λ r _, Q r) t) → (∀ r, Q r → csim (k r) (k' r)) → csim (m ≫= k) (m' ≫= k').
Proof.
  intros Hm HQ Hk s t H. specialize (Hm s t H). specialize (HQ t). unfold mbind, M_bind, wpE in *.
  destruct (m' t) as [[r t']|e]; [|by rewrite Hm]. destruct Hm as (s' & -> & H'). by apply Hk.
Qed.
Lemma csim_modify f g : (∀ s t, same s t → same (f s) (g t)) → csim (modify f) (modify g).
Proof. intros H s t Hst. eexists. split; [done|]. by apply H. Qed.
Lemma csim_if {A} (b : bool) (m1 m2 : M _ A) m1' m2' :
  csim m1 m1' → csim m2 m2' → csim (if b then m1 else m2) (if b then m1' else m2').
Proof. by destruct b. Qed.
Lemma csim_when (b : bool) m m' : csim m m' → csim (whenM b m) (whenM b m').
Proof. destruct b; [done|]. intros _. apply csim_ret. Qed.
(** Looking at the state: the registers can be read off the abstract side. *)
Lemma csim_state {A} (k : AMD756SMBus (I2CBus D) → M _ A) k' :
  (∀ t b, regs_ok t → csim (k (with_bus t b)) (k' t)) → csim (gets id ≫= k) (gets id ≫= k').
Proof.
  intros Hk s t H. do 2 (erewrite run_bind by done). destruct H as (b & -> & Hb & Hr).
  apply (Hk t b Hr). by exists b.
Qed.
Lemma csim_bus {A} (m : M (I2CBus D) A) m' :
  sim addrs idle_phase m m' (λ _, idle_phase) → csim (on_bus m) (on_bus m').
Proof.
  intros Hm s t (b & -> & Hb & Hr). unfold on_bus. cbn [smbus with_bus]. specialize (Hm b (smbus t) Hb).
  destruct (m' (smbus t)) as [[r a]|e]; [|by rewrite Hm]. destruct Hm as (b' & -> & Hb').
  eexists. split; [done|]. by exists b'.
Qed.

(** An update at both buses is the same text; the side conditions compute. *)
Ltac csim_update :=
  apply csim_modify; intros ? ? (? & -> & ? & ?);
  eexists; split_and!; [reflexivity|assumption|];
  unfold regs_ok in *; cbn; intuition auto with width.

Lemma trans_error_sim : csim trans_error trans_error.
Proof. csim_update. Qed.
Lemma trans_done_sim ret : csim (trans_done ret) (trans_done ret).
Proof. unfold trans_done. apply csim_if; [apply trans_error_sim|csim_update]. Qed.
Lemma trans_data8_sim ret : csim (trans_data8 ret) (trans_data8 ret).
Proof.
  unfold trans_data8. apply csim_if; [apply trans_error_sim|].
  apply csim_bind; [csim_update|intros; apply trans_done_sim].
Qed.
Lemma trans_data16_sim ret : csim (trans_data16 ret) (trans_data16 ret).
Proof.
  unfold trans_data16. apply csim_if; [apply trans_error_sim|].
  apply csim_bind; [csim_update|intros; apply trans_data8_sim].
Qed.

(** A block read returns an array of the size it was given. *)
Lemma block_read_size addr command d0 (t : AMD756SMBus (abus D)) :
  wlp (on_bus (m_read_block addr command d0 32 true true)) (λ r _, blen r.2 = blen d0) t.
Proof.
  assert (H : ∀ a, wlp (m_read_block addr command d0 32 true true) (λ r _, blen r.2 = blen d0) a).
  { intros a. cbn. unfold spec_read. apply wpE_bind, wpE_gets. case_match; [done|].
    apply wpE_bind. apply wlp_run. intros _ a1 _. unfold spec_block. apply wpE_bind, wlp_run. intros rlen a2 _.
    apply wpE_bind, wlp_run. intros bs a3 _. unfold wr. apply wpE_bind, wpE_bind.
    apply wpE_inBounds; [|done]. intros _. apply wpE_ret, wpE_ret. apply blen_put. }
  specialize (H (smbus t)). unfold on_bus, wpE in *. by destruct (m_read_block _ _ _ _ _ _ _) as [[[]]|].
Qed.

Lemma transaction_sim : csim amd756_smb_transaction amd756_smb_transaction.
Proof.
  unfold amd756_smb_transaction. apply csim_state. intros t b [Hlen Hd0]. cbv zeta.
  cbn [with_bus smb_ctl smb_addr smb_cmd smb_data0 smb_data1 smb_data].
  repeat apply csim_if.
  - apply csim_bind; [by apply csim_bus, quick_command_sim|apply trans_done_sim].
  - apply csim_bind; [by apply csim_bus, receive_byte_sim|apply trans_data8_sim].
  - apply csim_bind; [by apply csim_bus, send_byte_sim|apply trans_done_sim].
  - apply csim_bind; [by apply csim_bus, read_byte_sim|apply trans_data8_sim].
  - apply csim_bind; [by apply csim_bus, write_byte_sim|apply trans_done_sim].
  - apply csim_bind; [by apply csim_bus, read_word_sim|apply trans_data16_sim].
  - apply csim_bind; [by apply csim_bus, write_word_sim|apply trans_done_sim].
  - eapply (csim_bind_post _ _ (λ r, blen r.2 = 32)); [by apply csim_bus, read_block_sim| |].
    + intros t'. eapply wpE_mono; [apply block_read_size|]. intros r _ ->. exact Hlen.
    + intros [ret d] Hd. apply csim_bind; [|intros; apply trans_data8_sim]. csim_update.
  - unfold is_u8 in Hd0. apply csim_bind; [apply csim_bus, write_block_sim; (done || lia)|apply trans_done_sim].
  - apply trans_error_sim.
Qed.

Lemma writeb_sim addr val : csim (amd756_smb_ioport_writeb addr val) (amd756_smb_ioport_writeb addr val).
Proof.
  unfold amd756_smb_ioport_writeb. cbv zeta. repeat apply csim_if.
  - apply csim_state. intros t b _. cbn [with_bus smb_irq smb_ctl smb_stat].
    apply csim_bind; [apply csim_when, csim_if; csim_update|]. intros _. repeat apply csim_if; csim_update.
  - apply csim_bind; [csim_update|]. intros _. apply csim_bind; [apply csim_when; csim_update|]. intros _.
    apply csim_when, csim_bind; [apply transaction_sim|]. intros _. apply csim_state. intros t b _.
    apply csim_when. csim_update.
  - csim_update.
  - csim_update.
  - csim_update.
  - csim_update.
  - apply csim_state. intros t b [Hlen _]. cbn [with_bus smb_data smb_index].
    eapply (csim_bind_post _ _ (λ d, blen d = 32)); [| |intros; csim_update].
    + intros s' t' H. unfold wr, inBounds, mbind, M_bind. destruct (_ && _); [by exists s'|done].
    + intros t'. unfold wr. apply wpE_bind, wpE_inBounds; [|done]. intros _. apply wpE_ret. by rewrite blen_put.
  - apply csim_ret.
Qed.
Lemma readb_sim addr : csim (amd756_smb_ioport_readb addr) (amd756_smb_ioport_readb addr).
Proof.
  unfold amd756_smb_ioport_readb. cbv zeta. apply csim_state. intros t b _.
  cbn [with_bus smb_irq smb_ctl smb_stat smb_cmd smb_addr smb_data0 smb_data1 smb_data smb_index].
  repeat apply csim_if; try apply csim_ret. apply csim_bind.
  - intros s' t' H. unfold rd8, inBounds, mbind, M_bind. destruct (_ && _); [by exists s'|done].
  - intros v. apply csim_bind; [csim_update|]. intros. apply csim_ret.
Qed.
Lemma access_sim p : csim (access p) (access p).
Proof.
  destruct p; cbn [access]; [|apply readb_sim].
  apply csim_bind; [apply writeb_sim|]. intros. apply csim_ret.
Qed.
Lemma accesses_sim l : csim (accesses l) (accesses l).
Proof.
  induction l as [|p l IH]; cbn [accesses]; [apply csim_ret|].
  apply csim_bind; [apply access_sim|]. intros v. apply csim_bind; [exact IH|]. intros. apply csim_ret.
Qed.
End refinement.

(** ** Safety

    [dev_ok n d]: device [d] is well formed and can still hand out [n] bytes (a
    device may count the bytes it hands out in a C [int]). *)

Class SMBusSafe (D : Type) `{!SMBusFamily D} := {
  dev_ok : Z → D → Prop;
  dev_ok_mono n m d : 0 ≤ n ≤ m → dev_ok m d → dev_ok n d;
  dev_quick_ok n r d : dev_ok n d → wp (dev_quick r) (λ _, dev_ok n) d;
  dev_write_ok n pl d : dev_ok n d → bytes pl → pl ≠ [] → blen pl ≤ SMBUS_DATA_MAX_LEN →
    wp (dev_write pl) (λ _, dev_ok n) d;
  dev_recv_ok n d : 0 ≤ n → dev_ok (n + 1) d → wp dev_recv (λ b d', is_u8 b ∧ dev_ok n d') d
}.

Section safety.
Context {D : Type} `{!SMBusFamily D} `{!SMBusSafe D}.

Definition bus_ok (n : Z) (a : abus D) : Prop := Forall (λ e, dev_ok n e.2) a.

Lemma bus_ok_mono n m a : 0 ≤ n ≤ m → bus_ok m a → bus_ok n a.
Proof. intros Hn Ha. eapply Forall_impl; [exact Ha|]. intros e. by apply dev_ok_mono. Qed.

(** An operation on one device keeps the addresses and the others. *)
Lemma on_entry_ok {A} k n n' (m : M D A) (Q : A → Prop) (a : abus D) :
  (k < length a)%nat → bus_ok n a → 0 ≤ n' ≤ n →
  (∀ d, dev_ok n d → wp m (λ r d', Q r ∧ dev_ok n' d') d) →
  wp (on_entry k m) (λ r a', Q r ∧ a'.*1 = a.*1 ∧ bus_ok n' a') a.
Proof.
  intros Hk Ha Hn Hm. unfold wpE, on_entry. destruct (lookup_lt_is_Some_2 a k Hk) as [[addr d] E]. rewrite E.
  assert (Hd : dev_ok n d) by (eapply (Forall_lookup_1 (λ e, dev_ok n e.2)) in Ha; [|exact E]; done).
  specialize (Hm d Hd). unfold wpE in Hm. destruct (m d) as [[r d']|]; [|done]. destruct Hm as [HQ Hd'].
  split_and!; [done| |].
  - rewrite list_fmap_insert. apply list_insert_id. by rewrite list_lookup_fmap, E.
  - apply Forall_insert; [by apply (bus_ok_mono n' n)|done].
Qed.

Lemma select_lt (a : abus D) addr k : k ∈ select a.*1 addr → (k < length a)%nat.
Proof. intros Hk. rewrite <-(length_fmap fst). by apply (select_ok a.*1 addr). Qed.

(** The same on all selected devices. *)
Lemma on_entries_ok n (m : M D unit) l (a : abus D) :
  0 ≤ n → (∀ k, k ∈ l → (k < length a)%nat) → bus_ok n a →
  (∀ d, dev_ok n d → wp m (λ _ d', dev_ok n d') d) →
  wp (forM l (λ k, on_entry k m)) (λ _ a', a'.*1 = a.*1 ∧ bus_ok n a') a.
Proof.
  intros Hn Hl Ha Hm. revert a Hl Ha. induction l as [|k l IH]; intros a Hl Ha; [done|]. cbn [forM].
  apply wpE_bind. eapply wpE_mono; [apply (on_entry_ok k n n m (λ _, True)); [apply Hl; by left|done|lia|]|].
  - intros d Hd. eapply wpE_mono; [by apply Hm|]. done.
  - intros _ a' (_ & E & Ha'). eapply wpE_mono; [apply IH|].
    + intros j Hj. rewrite <-(length_fmap fst a'), E, length_fmap. apply Hl. by right.
    + done.
    + intros _ a'' [E' ?]. by rewrite E', E.
Qed.

Lemma spec_recv_ok addr n (a : abus D) :
  0 ≤ n → bus_ok (n + 1) a →
  wp (spec_recv addr (select a.*1 addr)) (λ b a', is_u8 b ∧ a'.*1 = a.*1 ∧ bus_ok n a') a.
Proof.
  intros Hn Ha. assert (Hff : is_u8 0xff) by (unfold is_u8; lia).
  assert (Ha' : bus_ok n a) by (by apply (bus_ok_mono n (n + 1)); [lia|]).
  unfold spec_recv. apply wpE_if; intros _; [by apply wpE_ret|].
  destruct (select a.*1 addr) as [|k l] eqn:E; [by apply wpE_ret|].
  apply (on_entry_ok k (n + 1)); [|done|lia|].
  - apply (select_lt a addr). rewrite E. by left.
  - intros d Hd. by apply dev_recv_ok.
Qed.
Lemma spec_recvs_ok addr k n (a : abus D) :
  0 ≤ n → bus_ok (n + Z.of_nat k) a →
  wp (spec_recvs addr (select a.*1 addr) k)
    (λ bs a', bytes bs ∧ length bs = k ∧ a'.*1 = a.*1 ∧ bus_ok n a') a.
Proof.
  revert n a. induction k as [|k IH]; intros n a Hn Ha; cbn [spec_recvs].
  { apply wpE_ret. split_and!; [constructor|done|done|]. apply (bus_ok_mono n (n + Z.of_nat 0)); [lia|done]. }
  apply wpE_bind. eapply wpE_mono; [apply (spec_recv_ok addr (n + Z.of_nat k)); [lia|]|].
  - eapply bus_ok_mono; [|exact Ha]. lia.
  - intros b a' (Hb & E & Ha'). rewrite <-E. apply wpE_bind. eapply wpE_mono; [by apply IH|].
    intros bs a'' (Hbs & Hl & E' & Ha''). apply wpE_ret. split_and!; [by constructor|cbn; lia|done|done].
Qed.

(** Commands: none stops the machine, and the devices stay well formed. *)
Lemma selected_ok {A} addr (none : A) k Q (a : abus D) :
  Q none a → (select a.*1 addr ≠ [] → wp (k (select a.*1 addr)) Q a) →
  wp (sl ← selected addr; match sl with [] => mret none | _ => k sl end) Q a.
Proof.
  intros Hnone Hk. unfold selected. apply wpE_bind, wpE_gets.
  destruct (select a.*1 addr) eqn:E; [by apply wpE_ret|]. by apply Hk.
Qed.
Lemma spec_send_ok addr pl n (a : abus D) :
  0 ≤ n → bytes pl → pl ≠ [] → blen pl ≤ SMBUS_DATA_MAX_LEN → bus_ok n a →
  wp (spec_send addr pl) (λ _ a', bus_ok n a') a.
Proof.
  intros Hn Hpl Hne Hlen Ha. apply selected_ok; [done|]. intros Hsel. apply wpE_bind.
  eapply wpE_mono; [apply (on_entries_ok n); [done|apply select_lt|done|]|].
  - intros d Hd. by apply dev_write_ok.
  - by intros _ a' [_ ?].
Qed.
Lemma spec_quick_ok addr read n (a : abus D) :
  0 ≤ n → bus_ok n a → wp (spec_quick addr read) (λ _ a', bus_ok n a') a.
Proof.
  intros Hn Ha. apply selected_ok; [done|]. intros Hsel. apply wpE_bind.
  eapply wpE_mono; [apply (on_entries_ok n); [done|apply select_lt|done|]|].
  - intros d Hd. by apply dev_quick_ok.
  - by intros _ a' [_ ?].
Qed.
Lemma spec_read_ok {A} addr pl (none : A) k (Q : A → abus D → Prop) n a :
  0 ≤ n → bytes pl → blen pl ≤ SMBUS_DATA_MAX_LEN → bus_ok n a → Q none a →
  (∀ a', a'.*1 = a.*1 → bus_ok n a' → wp (k (select a'.*1 addr)) Q a') →
  wp (spec_read addr pl none k) Q a.
Proof.
  intros Hn Hpl Hlen Ha Hnone Hk. apply selected_ok; [done|]. intros Hsel. apply wpE_bind, wpE_when.
  - intros Hz. assert (pl ≠ []) by (by destruct pl).
    eapply wpE_mono; [apply (on_entries_ok n); [done|apply select_lt|done|]|].
    + intros d Hd. by apply dev_write_ok.
    + intros _ a' [E Ha']. rewrite <-E. by apply Hk.
  - intros _. by apply Hk.
Qed.
Lemma spec_block_ok addr data n (a : abus D) :
  0 ≤ n → bytes data → blen data = 32 → bus_ok (n + 33) a →
  wp (spec_block addr data 32 true (select a.*1 addr))
    (λ r a', bytes r.2 ∧ blen r.2 = 32 ∧ bus_ok n a') a.
Proof.
  intros Hn Hdata Hlen Ha. unfold spec_block. apply wpE_bind.
  eapply wpE_mono; [apply (spec_recv_ok addr (n + 32)); [lia|by replace (n + 32 + 1) with (n + 33) by lia]|].
  intros r a' (Hr & E & Ha'). cbv zeta. unfold is_u8 in Hr.
  set (rlen := if r >? 32 then 0 else r). assert (Hrlen : 0 ≤ rlen ≤ 32)
    by (subst rlen; destruct (Z.gtb_spec r 32); lia).
  rewrite <-E. apply wpE_bind. eapply wpE_mono; [apply (spec_recvs_ok addr (Z.to_nat rlen) n); [done|]|].
  { eapply bus_ok_mono; [|exact Ha']. lia. }
  intros bs a'' (Hbs & Hl & E' & Ha''). apply wpE_bind. unfold wr. apply wpE_bind, wpE_inBounds.
  - intros _. apply wpE_ret, wpE_ret. cbn [snd].
    split_and!; [by apply bytes_put|by rewrite blen_put|done].
  - unfold blen in *. lia.
Qed.

(** The registers of the controller, on either bus. *)
Record amd_regs {B} (s : AMD756SMBus B) : Prop := {
  ar_stat : is_u8 (smb_stat s); ar_ctl : is_u8 (smb_ctl s); ar_cmd : is_u8 (smb_cmd s);
  ar_addr : is_u8 (smb_addr s); ar_data0 : is_u8 (smb_data0 s); ar_data1 : is_u8 (smb_data1 s);
  ar_data : bytes (smb_data s); ar_len : blen (smb_data s) = 32; ar_index : 0 ≤ smb_index s ≤ 31
}.
Definition amd_ok (n : Z) (t : AMD756SMBus (abus D)) : Prop := amd_regs t ∧ bus_ok n (smbus t).

Lemma is_u8_lor a b : is_u8 a → is_u8 b → is_u8 (a ||| b).
Proof. by apply lor_bound. Qed.
Lemma status_bits_u8 : is_u8 GS_PRERR_STS ∧ is_u8 GS_HCYC_STS ∧ is_u8 GS_ABRT_STS ∧ is_u8 0.
Proof. by unfold is_u8. Qed.

(** Updates of the registers keep them well formed. *)
Ltac amd_update H :=
  intros; apply wpE_modify; destruct (H : amd_ok _ _) as [[] ?];
  pose proof status_bits_u8 as (? & ? & ? & ?);
  split; [split; cbn; auto using is_u8_lor with width|done].

Lemma trans_error_ok n t : amd_ok n t → wp trans_error (λ _, amd_ok n) t.
Proof. intros H. amd_update H. Qed.
Lemma trans_done_ok n ret t : amd_ok n t → wp (trans_done ret) (λ _, amd_ok n) t.
Proof. intros H. apply wpE_if; intros _; [by apply trans_error_ok|]. amd_update H. Qed.
Lemma trans_data8_ok n ret t : amd_ok n t → wp (trans_data8 ret) (λ _, amd_ok n) t.
Proof.
  intros H. apply wpE_if; intros _; [by apply trans_error_ok|]. apply wpE_bind.
  eapply (wpE_mono _ (λ _, amd_ok n)); [amd_update H|]. intros _ t' H'. by apply trans_done_ok.
Qed.
Lemma trans_data16_ok n ret t : amd_ok n t → wp (trans_data16 ret) (λ _, amd_ok n) t.
Proof.
  intros H. apply wpE_if; intros _; [by apply trans_error_ok|]. apply wpE_bind.
  eapply (wpE_mono _ (λ _, amd_ok n)); [amd_update H|]. intros _ t' H'. by apply trans_data8_ok.
Qed.
Lemma on_bus_ok {A} (m : M (abus D) A) n n' (Q : A → Prop) t :
  amd_ok n t → (bus_ok n (smbus t) → wp m (λ r a, Q r ∧ bus_ok n' a) (smbus t)) →
  wp (on_bus m) (λ r t', Q r ∧ amd_ok n' t') t.
Proof.
  intros [Hr Hb] Hm. specialize (Hm Hb). unfold wpE, on_bus in *. destruct (m (smbus t)) as [[r a]|]; [|done].
  destruct Hm as [HQ Ha]. split; [done|]. split; [|done]. by destruct Hr.
Qed.
(** A command followed by one of the labels. *)
Lemma command_ok (m : M (abus D) Z) (k : Z → M (AMD756SMBus (abus D)) unit) n t :
  amd_ok (n + 33) t → (bus_ok (n + 33) (smbus t) → wp m (λ _, bus_ok n) (smbus t)) →
  (∀ ret t', amd_ok n t' → wp (k ret) (λ _, amd_ok n) t') →
  wp (ret ← on_bus m; k ret) (λ _, amd_ok n) t.
Proof.
  intros Ht Hm Hk. apply wpE_bind. eapply wpE_mono; [apply (on_bus_ok m (n + 33) n (λ _, True)); [done|]|].
  - intros Hb. eapply wpE_mono; [by apply Hm|]. done.
  - intros ret t' [_ Ht']. by apply Hk.
Qed.

Lemma word_bytes hi lo : is_u8 hi → is_u8 lo →
  is_u8 (((hi <<< 8) ||| lo) &&& 0xff) ∧ is_u8 (((hi <<< 8) ||| lo) >>> 8).
Proof.
  intros Hhi Hlo. rewrite lor_shl_add by done. unfold is_u8 in *. change 0xff with (Z.ones 8).
  rewrite Z.land_ones, Z.shiftr_div_pow2 by lia. split; dlia.
Qed.

Lemma write_block_ok n addr cmd data len a :
  0 ≤ n → bus_ok n a → is_u8 cmd → is_u8 len → bytes data → blen data = 32 →
  wp (m_write_block addr cmd data len true) (λ _ : Z, bus_ok n) a.
Proof.
  intros Hn Ha Hc Hl Hd Hb. cbn [m_write_block spec_master]. cbv zeta. unfold is_u8 in Hl.
  replace (if len >? 32 then 32 else len) with (Z.min len 32) by (destruct (Z.gtb_spec len 32); lia).
  apply selected_ok; [done|]. intros Hsel. apply wpE_bind. unfold rd. apply wpE_bind, wpE_inBounds; [|lia].
  intros _. apply wpE_ret, spec_send_ok; [lia| |done| |done].
  - constructor; [done|]. constructor; [unfold is_u8; lia|]. by apply bytes_slice.
  - change (cmd :: [Z.min len 32] ++ slice 0 (Z.min len 32) data)
      with ([cmd; Z.min len 32] ++ slice 0 (Z.min len 32) data).
    rewrite blen_app, blen_slice by lia. change (blen [_; _]) with 2. lia.
Qed.

Lemma transaction_ok n t :
  0 ≤ n → amd_ok (n + 33) t → wp amd756_smb_transaction (λ _, amd_ok n) t.
Proof.
  intros Hn Ht. pose proof Ht as [[] Hb]. unfold amd756_smb_transaction. apply wpE_bind, wpE_gets. cbv zeta.
  unfold id.
  assert (Hw : ∀ a m, bus_ok (n + 33) a → wp m (λ _ : Z, bus_ok (n + 33)) a → wp m (λ _ : Z, bus_ok n) a).
  { intros a m _ H. eapply wpE_mono; [exact H|]. intros ? a'. apply bus_ok_mono. lia. }
  assert (Hrecv : ∀ addr pl, bytes pl → blen pl ≤ SMBUS_DATA_MAX_LEN →
    wp (spec_read addr pl (-1) (spec_recv addr)) (λ _, bus_ok n) (smbus t)).
  { intros addr pl Hpl Hl. apply (spec_read_ok _ _ _ _ _ (n + 33)); try done; [lia|by apply (bus_ok_mono n (n + 33)); [lia|]|].
    intros a' _ Ha'. eapply wpE_mono; [apply (spec_recv_ok addr n); [done|]|by intros ? ? (_ & _ & ?)].
    eapply bus_ok_mono; [|exact Ha']. lia. }
  repeat (apply wpE_if; intros _).
  - apply command_ok; [done| |apply trans_done_ok]. intros H. apply Hw; [done|].
    apply spec_quick_ok; [lia|done].
  - apply command_ok; [done| |apply trans_data8_ok]. intros H. apply Hrecv; [auto with bytes|done].
  - apply command_ok; [done| |apply trans_done_ok]. intros H. apply Hw; [done|].
    apply spec_send_ok; [lia|auto with bytes|done|done|done].
  - apply command_ok; [done| |apply trans_data8_ok]. intros H. apply Hrecv; [auto with bytes|done].
  - apply command_ok; [done| |apply trans_done_ok]. intros H. apply Hw; [done|].
    apply spec_send_ok; [lia|auto with bytes|done|done|done].
  - apply command_ok; [done| |apply trans_data16_ok]. intros H.
    apply (spec_read_ok _ _ _ _ _ (n + 33)); try done;
      [lia|auto with bytes|by apply (bus_ok_mono n (n + 33)); [lia|]|].
    intros a' _ Ha'. apply wpE_bind. eapply wpE_mono; [apply (spec_recv_ok _ (n + 1)); [lia|]|].
    { eapply bus_ok_mono; [|exact Ha']. lia. }
    intros lo a1 (_ & E1 & Ha1). rewrite <-E1. apply wpE_bind.
    eapply wpE_mono; [by apply (spec_recv_ok _ n)|]. intros hi a2 (_ & _ & Ha2). by apply wpE_ret.
  - apply command_ok; [done| |apply trans_done_ok]. intros H. apply Hw; [done|].
    destruct (word_bytes (smb_data1 t) (smb_data0 t)) as [? ?]; [done..|].
    apply spec_send_ok; [lia|auto with bytes|done|done|done].
  - apply wpE_bind. eapply wpE_mono; [apply (on_bus_ok _ (n + 33) n (λ r, bytes r.2 ∧ blen r.2 = 32)); [done|]|].
    + intros H. apply (spec_read_ok _ _ _ _ _ (n + 33)); [lia|auto with bytes|done|done| |].
      * split; [done|]. by apply (bus_ok_mono n (n + 33)); [lia|].
      * intros a' _ Ha'. eapply wpE_mono; [by apply (spec_block_ok _ _ n)|]. by intros r a'' (? & ? & ?).
    + intros [ret d] t' [[Hd1 Hd2] Ht']. apply wpE_bind.
      eapply (wpE_mono _ (λ _, amd_ok n)); [amd_update Ht'|]. intros _ t'' H''. by apply trans_data8_ok.
  - apply command_ok; [done| |apply trans_done_ok]. intros H. apply Hw; [done|].
    by apply write_block_ok; [lia|..].
  - eapply (wpE_mono _ (λ _, amd_ok (n + 33))); [by apply trans_error_ok|]. intros _ t' [? ?]. split; [done|].
    by apply (bus_ok_mono n (n + 33)); [lia|].
Qed.

Lemma writeb_ok addr val n t :
  0 ≤ n → amd_ok (n + 33) t → wp (amd756_smb_ioport_writeb addr val) (λ _, amd_ok n) t.
Proof.
  intros Hn Ht. assert (Hmono : ∀ t', amd_ok (n + 33) t' → amd_ok n t').
  { intros t' [? ?]. split; [done|]. by apply (bus_ok_mono n (n + 33)); [lia|]. }
  pose proof (Hmono t Ht) as Ht'.
  unfold amd756_smb_ioport_writeb. cbv zeta.
  repeat (apply wpE_if; intros _); try solve [amd_update Ht'].
  - apply wpE_bind, wpE_gets, wpE_bind. apply (wpE_mono _ (λ _, amd_ok n)).
    + apply wpE_when; [intros _|done]. apply wpE_if; intros _; amd_update Ht'.
    + intros ? t1 H1. repeat (apply wpE_if; intros _); amd_update H1; lia.
  - apply wpE_bind. apply (wpE_mono _ (λ _, amd_ok (n + 33))); [amd_update Ht|].
    intros ? t1 H1. apply wpE_bind. apply (wpE_mono _ (λ _, amd_ok (n + 33))).
    { apply wpE_when; [intros _; amd_update H1|done]. }
    intros ? t2 H2. apply wpE_when; [intros _|by intros _; apply Hmono].
    apply wpE_bind. eapply wpE_mono; [by apply transaction_ok|]. intros ? t3 H3.
    apply wpE_bind, wpE_gets, wpE_when; [intros _; amd_update H3|done].
  - destruct Ht' as [[] Hb]. apply wpE_bind, wpE_gets, wpE_bind. unfold id, wr.
    apply wpE_bind, wpE_inBounds; [|change (blen [_]) with 1; lia]. intros _. apply wpE_ret, wpE_modify.
    split; [|done]. split; cbn; auto with width.
    + apply (bytes_put (smb_index t) [u8 val]); auto with bytes.
    + exact (eq_trans (blen_put (smb_index t) [u8 val] _) ar_len0).
    + unfold u8. rewrite Z.mod_small by lia. destruct (Z.gtb_spec (smb_index t + 1) 31); lia.
Qed.
Lemma readb_ok addr n t :
  amd_ok n t → wp (amd756_smb_ioport_readb addr) (λ v t', is_u8 v ∧ amd_ok n t') t.
Proof.
  intros Ht. pose proof Ht as [[] Hb]. unfold amd756_smb_ioport_readb. cbv zeta.
  apply wpE_bind, wpE_gets. unfold id. repeat (apply wpE_if; intros _); try (by apply wpE_ret).
  - apply wpE_ret. split; [|done]. by apply land_bound.
  - apply wpE_bind. unfold rd8. apply wpE_bind, wpE_inBounds; [|lia]. intros _. apply wpE_ret, wpE_bind, wpE_modify, wpE_ret.
    split; [by apply bytes_byte_at|]. split; [|done]. split; cbn; auto.
    unfold u8. rewrite Z.mod_small by lia. destruct (Z.gtb_spec (smb_index t + 1) 31); lia.
Qed.
Lemma accesses_ok l n t :
  0 ≤ n → amd_ok (n + 33 * Z.of_nat (length l)) t →
  wp (accesses l) (λ vs t', bytes vs ∧ amd_ok n t') t.
Proof.
  intros Hn. revert t. induction l as [|p l IH]; intros t Ht; cbn [accesses].
  { apply wpE_ret. split; [constructor|]. by replace (n + 33 * Z.of_nat (length [])) with n in Ht by (cbn; lia). }
  cbn [length] in Ht. apply wpE_bind.
  apply (wpE_mono _ (λ v t', is_u8 v ∧ amd_ok (n + 33 * Z.of_nat (length l)) t')).
  - replace (n + 33 * Z.of_nat (S (length l))) with (n + 33 * Z.of_nat (length l) + 33) in Ht by lia.
    destruct p; cbn [access].
    + apply wpE_bind. eapply wpE_mono; [apply writeb_ok; [|exact Ht]; lia|]. intros ? t' H'. by apply wpE_ret.
    + apply readb_ok. destruct Ht as [? ?]. split; [done|]. eapply bus_ok_mono; [|done]. lia.
  - intros v t' [Hv Ht']. apply wpE_bind. eapply wpE_mono; [by apply IH|]. intros vs t'' [Hvs Ht''].
    apply wpE_ret. split; [by apply bytes_cons|done].
Qed.
End safety.
