(* ===== verification/SmbusXbox.v ===== *)
(** * SmbusXbox: the SMBus of the machine

    The devices of [SmbusDevices] keep the laws of [SmbusSpec] and
    [AmdSmbusSpec]; hence the properties of the whole stack, from the ports of
    the controller to the registers of a device. *)

From S2P Require Import Prelude.
From S2P Require Import Smbus.
From S2P Require Import SmbusSpec.
From S2P Require Import SmbusDevices.
From S2P Require Import AmdSmbus.
From S2P Require Import AmdSmbusSpec.

(** ** Devices look at the bytes they are given *)

Lemma rd8_prefix {S} buf n i (s : S) :
  0 ≤ i < n → n ≤ blen buf → rd8 (take (Z.to_nat n) buf) i s = rd8 buf i s.
Proof.
  intros Hi Hn. assert (blen (take (Z.to_nat n) buf) = n) by (unfold blen in *; rewrite length_take; lia).
  rewrite !run_rd8 by lia. do 2 f_equal. unfold byte_at. rewrite !list_lookup_total_alt, lookup_take.
  by rewrite decide_True by lia.
Qed.
Lemma rd_prefix {S} buf n off len (s : S) :
  0 ≤ off → off + len ≤ n → n ≤ blen buf →
  rd (take (Z.to_nat n) buf) off len s = rd buf off len s.
Proof.
  intros. destruct (Z.ltb_spec len 0).
  { unfold rd, inBounds, mbind, M_bind. replace (0 <=? len) with false by lia. by rewrite !andb_false_r. }
  assert (blen (take (Z.to_nat n) buf) = n) by (unfold blen in *; rewrite length_take; lia).
  rewrite !run_rd by lia. do 2 f_equal. apply list_eq. intros i. rewrite !lookup_slice by done.
  case_decide; [|done]. by rewrite lookup_take, decide_True by lia.
Qed.
Lemma bind_ext {S A A'} (m m' : M S A) (k k' : A → M S A') s :
  m s = m' s → (∀ a s', k a s' = k' a s') → (m ≫= k) s = (m' ≫= k') s.
Proof. intros E Hk. unfold mbind, M_bind. rewrite E. destruct (m' s) as [[]|]; [apply Hk|done]. Qed.

Section prefix.
Context (buf : list Z) (len : Z) (Hlen : 0 < len ≤ blen buf) (H8 : len < 256).
Let pre := take (Z.to_nat len) buf.

Lemma smc_write_prefix s : smc_write_data buf len s = smc_write_data pre len s.
Proof.
  unfold smc_write_data. apply bind_ext; [symmetry; apply rd8_prefix; lia|]. intros c s1.
  apply bind_ext; [done|]. intros _ s2. cbv zeta. unfold u8. rewrite Z.mod_small by lia.
  destruct (Z.ltb_spec (len - 1) 1); [done|]. apply bind_ext; [symmetry; apply rd8_prefix; lia|done].
Qed.
Lemma adm1032_write_prefix s : smbus_adm1032_write_data buf len s = smbus_adm1032_write_data pre len s.
Proof. unfold smbus_adm1032_write_data. apply bind_ext; [symmetry; apply rd8_prefix; lia|done]. Qed.
Lemma encoder_write_prefix s : encoder_write_data buf len s = encoder_write_data pre len s.
Proof.
  unfold encoder_write_data. apply bind_ext; [symmetry; apply rd8_prefix; lia|]. intros c s1.
  apply bind_ext; [done|]. intros _ s2. cbv zeta. unfold u8. rewrite Z.mod_small by lia.
  destruct (Z.ltb_spec (len - 1) 1); [done|]. apply bind_ext; [|done]. symmetry. apply rd_prefix; lia.
Qed.
Lemma store_prefix n i s :
  0 ≤ i → i + Z.of_nat n ≤ len → storage_store buf i n s = storage_store pre i n s.
Proof.
  revert i s. induction n as [|n IH]; intros i s Hi Hn; [done|]. cbn [storage_store].
  apply bind_ext; [symmetry; apply rd8_prefix; lia|]. intros b s1. apply bind_ext; [done|]. intros s2 s3.
  apply bind_ext; [done|]. intros d s4. apply bind_ext; [done|]. intros _ s5. apply bind_ext; [done|].
  intros _ s6. apply IH; lia.
Qed.
Lemma storage_write_prefix s : smbus_storage_write_data buf len s = smbus_storage_write_data pre len s.
Proof.
  unfold smbus_storage_write_data. apply bind_ext; [symmetry; apply rd8_prefix; lia|]. intros c s1.
  apply bind_ext; [done|]. intros _ s2. cbv zeta. unfold u8. rewrite Z.mod_small by lia.
  apply bind_ext; [|done]. apply store_prefix; lia.
Qed.
End prefix.

#[global] Instance xbox_devices_laws : SMBusLaws device.
Proof.
  intros d f buf len Hf Hlen Hmax.
  destruct d as [s|s|s|s|s|s]; injection Hf as <-;
    unfold XBOX_SMC, SMBUS_ADM1032, SMBUS_CX25871, SMBUS_fs454, SMBUS_xcalibur, SMBUS_STORAGE, cast.
  - by rewrite smc_write_prefix by lia.
  - by rewrite adm1032_write_prefix by lia.
  - unfold smbus_cx25871_write_data. by rewrite encoder_write_prefix by lia.
  - unfold smbus_fs454_write_data. by rewrite encoder_write_prefix by lia.
  - unfold smbus_xcalibur_write_data. by rewrite encoder_write_prefix by lia.
  - by rewrite storage_write_prefix by lia.
Qed.

(** ** Well-formed devices *)

(** The version string is read through an [int] counter, so a number of reads of
    it is part of the condition. *)
Record smc_ok (n : Z) (s : SMBusSMCDevice) : Prop := {
  so_cmd : is_u8 (cmd s); so_tray : is_u8 (traystate_reg s); so_avpack : is_u8 (avpack_reg s);
  so_int : is_u8 (intstatus_reg s); so_scratch : is_u8 (scratch_reg s); so_error : is_u8 (error_reg s);
  so_version : ∃ v, version_string s = Some v ∧ bytes v ∧ blen v = SMC_VERSION_LENGTH;
  so_index : 0 ≤ version_string_index s; so_reads : version_string_index s + n < 2 ^ 31;
  so_reset : 255 + n < 2 ^ 31
}.
Record encoder_ok (e : encoder) : Prop := {
  eo_cmd : is_u8 (enc_cmd e); eo_regs : bytes (registers e); eo_len : blen (registers e) = 256
}.
Record storage_ok (s : SMBusStorageDevice) : Prop := {
  to_data : bytes (data s); to_len : blen (data s) = size s;
  to_size : 256 ≤ size s < 2 ^ 32; to_offset : 0 ≤ offset s < size s
}.
Definition xbox_dev_ok (n : Z) (d : device) : Prop :=
  match d with
  | dev_smc s => smc_ok n s
  | dev_adm1032 s => is_u8 (adm_cmd s)
  | dev_cx25871 s | dev_fs454 s | dev_xcalibur s => encoder_ok s
  | dev_storage s => storage_ok s
  end.

Lemma wp_cast {T A} (get : device → option T) mk (m : M T A) (Q : A → T → Prop) s :
  get (mk s) = Some s → wp m Q s → wp (cast get mk m) (λ a d, ∃ s', d = mk s' ∧ Q a s') (mk s).
Proof.
  intros Hg Hm. unfold wpE, cast in *. rewrite Hg. destruct (m s) as [[a s']|]; [|done]. by exists s'.
Qed.

Lemma first_byte pl : bytes pl → pl ≠ [] → is_u8 (byte_at pl 0) ∧ 0 < blen pl.
Proof. intros Hb Hne. split; [by apply bytes_byte_at|]. destruct pl; [done|]. unfold blen. cbn. lia. Qed.
Lemma wp_rd8 {S} buf i (Q : Z → S → Prop) s :
  0 ≤ i < blen buf → Q (byte_at buf i) s → wp (rd8 buf i) Q s.
Proof. intros Hi HQ. unfold wpE. by rewrite run_rd8. Qed.
Lemma wp_wr {S} buf off bs (Q : list Z → S → Prop) s :
  0 ≤ off → off + blen bs ≤ blen buf → Q (put off bs buf) s → wp (wr buf off bs) Q s.
Proof.
  intros Ho Hl HQ. unfold wr. apply wpE_bind, wpE_inBounds; [|lia]. intros _. by apply wpE_ret.
Qed.
Lemma wp_rd {S} buf off len (Q : list Z → S → Prop) s :
  0 ≤ off → 0 ≤ len → off + len ≤ blen buf → Q (slice off len buf) s → wp (rd buf off len) Q s.
Proof. intros Ho Hn Hl HQ. unfold wpE. by rewrite run_rd. Qed.

Lemma len_u8 pl : pl ≠ [] → blen pl ≤ SMBUS_DATA_MAX_LEN → u8 (blen pl - 1) = blen pl - 1.
Proof.
  intros Hne Hl. apply u8_id. assert (0 < blen pl) by (destruct pl; [done|unfold blen; cbn; lia]).
  unfold is_u8 in *. lia.
Qed.

Section device_ok.
Context (pl : list Z) (Hpl : bytes pl) (Hne : pl ≠ []) (Hmax : blen pl ≤ SMBUS_DATA_MAX_LEN).

Lemma smc_write_ok n s : smc_ok n s → wp (smc_write_data pl (blen pl)) (λ _, smc_ok n) s.
Proof.
  intros H. destruct (first_byte pl Hpl Hne) as [Hc Hpos]. unfold smc_write_data.
  apply wpE_bind, wp_rd8; [lia|]. apply wpE_bind, wpE_modify. cbv zeta. rewrite len_u8 by done.
  assert (H1 : smc_ok n (s <| cmd := byte_at pl 0 |>)) by (by destruct H; split).
  apply wpE_if; intros Hl; [by apply wpE_ret|].
  apply wpE_bind, wp_rd8; [lia|]. pose proof (bytes_byte_at pl 1 Hpl) as Hv. clear H.
  set (s1 := s <| cmd := byte_at pl 0 |>) in *. clearbody s1. apply wpE_bind.
  apply (wpE_mono _ (λ _, smc_ok n)); [|intros; by apply wpE_ret]. unfold is_u8 in *.
  repeat (apply wpE_if; intros _); try (by apply wpE_ret); apply wpE_modify; destruct H1; split; cbn; try done; lia.
Qed.
Lemma encoder_write_ok e : encoder_ok e → wp (encoder_write_data pl (blen pl)) (λ _, encoder_ok) e.
Proof.
  intros H. destruct (first_byte pl Hpl Hne) as [Hc Hpos]. unfold encoder_write_data.
  apply wpE_bind, wp_rd8; [lia|]. apply wpE_bind, wpE_modify. cbv zeta. rewrite len_u8 by done.
  pose proof Hc as Hc'. unfold is_u8 in Hc'.
  apply wpE_if; intros Hl; [apply wpE_ret; by destruct H; split|].
  apply wpE_bind, wp_rd; [lia|lia|lia|]. apply wpE_bind, wpE_gets. destruct H.
  apply wpE_bind, wp_wr; [lia|rewrite blen_slice by lia; cbn [registers]; change (registers _) with (registers e); lia|].
  apply wpE_bind, wpE_modify, wpE_ret. split; [done| |].
  - apply (bytes_put _ _ (registers e)); [by apply bytes_slice|done].
  - exact (eq_trans (blen_put _ _ (registers e)) eo_len0).
Qed.
Lemma step_offset_ok s : storage_ok s → wp step_offset (λ _, storage_ok) s.
Proof.
  intros H. pose proof H as []. unfold step_offset. apply wpE_bind, wpE_gets. unfold id.
  apply wpE_if; intros Hz; [lia|]. apply wpE_modify. split; try done. cbn. apply Z.mod_pos_bound. lia.
Qed.
Lemma store_ok k i s :
  0 ≤ i → i + Z.of_nat k ≤ blen pl → storage_ok s → wp (storage_store pl i k) (λ _, storage_ok) s.
Proof.
  revert i s. induction k as [|k IH]; intros i s Hi Hk H; [done|]. cbn [storage_store]. pose proof H as [].
  apply wpE_bind, wp_rd8; [lia|]. apply wpE_bind, wpE_gets, wpE_bind, wp_wr; [unfold id; lia|unfold id; change (blen [_]) with 1; lia|].
  apply wpE_bind, wpE_modify, wpE_bind. eapply wpE_mono; [apply step_offset_ok|].
  - split; try done.
    + apply (bytes_put (offset s) [byte_at pl i]); auto with bytes.
    + exact (eq_trans (blen_put (offset s) [byte_at pl i] _) to_len0).
  - intros ? s' H'. apply IH; [lia|lia|done].
Qed.
Lemma storage_write_ok s : storage_ok s → wp (smbus_storage_write_data pl (blen pl)) (λ _, storage_ok) s.
Proof.
  intros H. destruct (first_byte pl Hpl Hne) as [Hc Hpos]. unfold smbus_storage_write_data.
  apply wpE_bind, wp_rd8; [lia|]. apply wpE_bind, wpE_modify. cbv zeta. rewrite len_u8 by done.
  apply wpE_bind. eapply wpE_mono; [apply store_ok; [lia|lia|]|].
  - destruct H. split; try done. cbn. unfold is_u8 in Hc. lia.
  - intros ? s' H'. apply wpE_bind, wpE_gets. unfold id. destruct (file s'); [|done].
    repeat (apply wpE_if; intros _); try (by apply wpE_ret). apply wpE_bind, wpE_modify, wpE_ret.
    by destruct H'; split.
Qed.
End device_ok.

Lemma smc_recv_ok n s :
  0 ≤ n → smc_ok (n + 1) s → wp smc_receive_byte (λ b s', is_u8 b ∧ smc_ok n s') s.
Proof.
  intros Hn H. unfold smc_receive_byte. apply wpE_bind, wpE_gets. unfold id. cbv zeta.
  apply wpE_bind, wpE_modify. pose proof H as [].
  assert (H1 : smc_ok n (s <| cmd := u8 (cmd s + 1) |>)) by (split; cbn; auto with width; lia).
  set (s1 := s <| cmd := u8 (cmd s + 1) |>) in *.
  apply wpE_if; intros _.
  - destruct so_version0 as (v & Ev & Hv & Hlv). apply wpE_bind, wpE_modify. rewrite Ev.
    pose proof (Z.rem_bound_pos (version_string_index s) SMC_VERSION_LENGTH ltac:(lia) ltac:(done)) as Hr.
    apply wp_rd8; [lia|]. split; [by apply bytes_byte_at|]. subst s1.
    assert (Es : s32 (version_string_index s + 1) = version_string_index s + 1) by (apply s32_id; lia).
    split; cbn; rewrite ?Es; eauto with width; lia.
  - clearbody s1. assert (Hlit : ∀ x, 0 ≤ x < 256 → is_u8 x) by done.
    repeat (apply wpE_if; intros _); try (apply wpE_ret; split; [(done || (apply Hlit; lia))|done]).
    apply wpE_bind, wpE_modify, wpE_ret. split; [done|]. by destruct H1; split.
Qed.
Lemma encoder_recv_ok e : encoder_ok e → wp encoder_receive_byte (λ b e', is_u8 b ∧ encoder_ok e') e.
Proof.
  intros []. unfold encoder_receive_byte. apply wpE_bind, wpE_gets, wpE_bind, wpE_modify, wpE_bind, wpE_gets.
  unfold is_u8 in eo_cmd0. apply wp_rd8; [cbn; lia|]. split; [by apply bytes_byte_at|].
  split; try done. apply u8_range.
Qed.
Lemma storage_recv_ok s :
  storage_ok s → wp smbus_storage_receive_byte (λ b s', is_u8 b ∧ storage_ok s') s.
Proof.
  intros H. pose proof H as []. unfold smbus_storage_receive_byte. apply wpE_bind, wpE_gets, wpE_bind, wp_rd8;
    [unfold id; lia|]. apply wpE_bind. eapply wpE_mono; [by apply step_offset_ok|].
  intros ? s' H'. apply wpE_ret. split; [by apply bytes_byte_at|done].
Qed.

(** A method of the class of a device, lifted to the union. *)
Lemma wp_cast_ok {T A} get mk (m : M T A) (P : T → Prop) (Q : A → Prop) n s :
  get (mk s) = Some s → (∀ s', P s' → xbox_dev_ok n (mk s')) → wp m (λ a s', Q a ∧ P s') s →
  wp (cast get mk m) (λ a d, Q a ∧ xbox_dev_ok n d) (mk s).
Proof.
  intros Hg HP Hm. eapply wpE_mono; [by apply wp_cast|]. intros a d (s' & -> & ? & ?). auto.
Qed.

Lemma xbox_mono n m d : 0 ≤ n ≤ m → xbox_dev_ok m d → xbox_dev_ok n d.
Proof. intros Hn. destruct d; try done. intros []. split; try done; lia. Qed.
Lemma xbox_quick n r d : xbox_dev_ok n d → wp (dev_quick r) (λ _, xbox_dev_ok n) d.
Proof. by destruct d. Qed.
Lemma xbox_write n pl d :
  xbox_dev_ok n d → bytes pl → pl ≠ [] → blen pl ≤ SMBUS_DATA_MAX_LEN →
  wp (dev_write pl) (λ _, xbox_dev_ok n) d.
Proof.
  intros H Hpl Hne Hmax. destruct (first_byte pl Hpl Hne) as [Hc Hpos].
  assert (Htrue : ∀ S (m : M S Z) (P : S → Prop) s, wp m (λ _, P) s → wp m (λ r s', True ∧ P s') s).
  { intros S m P s Hm. eapply wpE_mono; [exact Hm|]. done. }
  assert (Hgo : ∀ f, write_data (SMBUS_DEVICE_GET_CLASS d) = Some f →
                wp (f pl (blen pl)) (λ _ d', True ∧ xbox_dev_ok n d') d).
  { intros f Ef. destruct d as [s|s|s|s|s|s]; injection Ef as <-.
    - by apply (wp_cast_ok _ _ _ (smc_ok n)), Htrue, smc_write_ok.
    - apply (wp_cast_ok _ _ _ (λ s, is_u8 (adm_cmd s))), Htrue; [done|done|].
      unfold smbus_adm1032_write_data. apply wpE_bind, wp_rd8; [lia|]. by apply wpE_bind, wpE_modify, wpE_ret.
    - by apply (wp_cast_ok _ _ _ encoder_ok), Htrue, encoder_write_ok.
    - by apply (wp_cast_ok _ _ _ encoder_ok), Htrue, encoder_write_ok.
    - by apply (wp_cast_ok _ _ _ encoder_ok), Htrue, encoder_write_ok.
    - by apply (wp_cast_ok _ _ _ storage_ok), Htrue, storage_write_ok. }
  unfold wpE, dev_write. destruct (write_data _) as [f|]; [|done].
  specialize (Hgo f eq_refl). unfold wpE, mbind, M_bind in *. destruct (f pl (blen pl) d) as [[]|]; [|done].
  by destruct Hgo.
Qed.
Lemma xbox_recv n d :
  0 ≤ n → xbox_dev_ok (n + 1) d → wp dev_recv (λ b d', is_u8 b ∧ xbox_dev_ok n d') d.
Proof.
  intros Hn H. destruct d as [s|s|s|s|s|s].
  - by apply (wp_cast_ok _ _ _ (smc_ok n)), smc_recv_ok.
  - apply (wp_cast_ok _ _ _ (λ s, is_u8 (adm_cmd s))); [done|done|].
    unfold smbus_adm1032_receive_byte. apply wpE_bind, wpE_gets, wpE_bind, wpE_modify, wpE_ret.
    split; [by case_match|apply u8_range].
  - by apply (wp_cast_ok _ _ _ encoder_ok), encoder_recv_ok.
  - by apply (wp_cast_ok _ _ _ encoder_ok), encoder_recv_ok.
  - by apply (wp_cast_ok _ _ _ encoder_ok), encoder_recv_ok.
  - by apply (wp_cast_ok _ _ _ storage_ok), storage_recv_ok.
Qed.

#[global] Instance xbox_devices_safe : SMBusSafe device := {|
  dev_ok := xbox_dev_ok;
  dev_ok_mono := xbox_mono;
  dev_quick_ok := xbox_quick;
  dev_write_ok := xbox_write;
  dev_recv_ok := xbox_recv
|}.

(** ** The machine *)

Abbreviation xbox_smbus := (AMD756SMBus (I2CBus device)).

Definition device_view (d : SMBusDevice device) : Z * device := (address d, impl d).
(** The controller on the abstract bus that shows the same devices. *)
Definition view (s : xbox_smbus) : AMD756SMBus (abus device) :=
  with_bus s (device_view <$> children (smbus s)).

(** Between transfers: no device is selected and every slave waits. *)
Record quiet (s : xbox_smbus) : Prop := {
  qt_children : children (smbus s) ≠ [];
  qt_devs : current_devs (smbus s) = [];
  qt_bcast : broadcast (smbus s) = false;
  qt_slaves : Forall (holds (SMBUS_IDLE, [])) (children (smbus s))
}.
(** A quiet machine whose devices can still hand out [n] bytes. *)
Record machine_ok (n : Z) (s : xbox_smbus) : Prop := {
  mo_quiet : quiet s;
  mo_regs : amd_regs s;
  mo_devs : Forall (λ d, xbox_dev_ok n (impl d)) (children (smbus s))
}.

Abbreviation bus_addrs s := (address <$> children (smbus s)).

Lemma quiet_same s : quiet s → regs_ok s → same (bus_addrs s) s (view s).
Proof.
  intros [Hc Hd Hb Hs] Hr. exists (smbus s). split_and!; [by destruct s| |done].
  split; [|done|done|done|]. { cbn. by rewrite <-list_fmap_compose. }
  intros k d E. by eapply (Forall_lookup_1 (holds (SMBUS_IDLE, []))).
Qed.
Lemma same_quiet addrs s t : addrs ≠ [] → same addrs s t → view s = t ∧ quiet s ∧ bus_addrs s = addrs.
Proof.
  intros Hne (b & -> & [Ha Hv Hs Hb Hd] & _).
  assert (Eaddrs : address <$> children b = addrs) by (by rewrite <-Ha, <-Hv, <-list_fmap_compose).
  split_and!; [|split|done].
  - unfold view. cbn. change (device_view <$> children b) with ((λ d, (address d, impl d)) <$> children b).
    rewrite Hv. by destruct t.
  - cbn. intros E. rewrite E in Eaddrs. by apply Hne.
  - done.
  - done.
  - apply Forall_lookup_2. intros k d E. by apply (Hd k d).
Qed.

(** Runs on the I2C bus, read off runs on the abstract bus. *)
Lemma run_on_view l s :
  quiet s → regs_ok s →
  match accesses l (view s) with
  | Ok (vs, t') => ∃ s', accesses l s = Ok (vs, s') ∧ view s' = t' ∧ quiet s' ∧ bus_addrs s' = bus_addrs s
  | Fault e => accesses l s = Fault e
  end.
Proof.
  intros Hq Hr. assert (Hne : bus_addrs s ≠ []).
  { destruct Hq as [Hc _ _ _]. by intros ?%fmap_nil_inv. }
  pose proof (accesses_sim (bus_addrs s) Hne l s (view s) (quiet_same s Hq Hr)) as H.
  destruct (accesses l (view s)) as [[vs t']|e]; [|done]. destruct H as (s' & E & Hs').
  destruct (same_quiet _ _ _ Hne Hs') as (? & ? & ?). eauto 6.
Qed.

Lemma machine_view n s : machine_ok n s → amd_ok n (view s).
Proof.
  intros [Hq [] Hd]. split; [by split|]. unfold bus_ok, view. cbn. apply Forall_fmap. exact Hd.
Qed.
Lemma view_machine n s : quiet s → amd_ok n (view s) → machine_ok n s.
Proof.
  intros Hq [[] Hb]. split; [done|by split|]. unfold bus_ok, view in Hb.
  cbn [smbus with_bus] in Hb. rewrite Forall_fmap in Hb. exact Hb.
Qed.
Lemma machine_run n s l :
  0 ≤ n → machine_ok (n + 33 * Z.of_nat (length l)) s →
  ∃ vs s', accesses l s = Ok (vs, s') ∧ bytes vs ∧ machine_ok n s'.
Proof.
  intros Hn Hs. pose proof (machine_view _ _ Hs) as Ht. pose proof Hs as [Hq [] _].
  pose proof (accesses_ok l n (view s) Hn Ht) as Hrun. pose proof (run_on_view l s Hq ltac:(done)) as Hsim.
  unfold wpE in Hrun. destruct (accesses l (view s)) as [[vs t']|e]; [|done]. destruct Hrun as [Hvs Ht'].
  destruct Hsim as (s' & E & <- & Hq' & _). exists vs, s'. split_and!; [done..|]. by apply view_machine.
Qed.

(** ** Register transactions through the ports *)

Lemma run_accesses_cons {B} `{!SMBusMaster B} p l v vs (t t1 t2 : AMD756SMBus B) :
  access p t = Ok (v, t1) → accesses l t1 = Ok (vs, t2) → accesses (p :: l) t = Ok (v :: vs, t2).
Proof. intros E1 E2. cbn [accesses]. erewrite run_bind by exact E1. by erewrite run_bind by exact E2. Qed.
Lemma run_accesses_app {B} `{!SMBusMaster B} l1 l2 vs1 vs2 (t t1 t2 : AMD756SMBus B) :
  accesses l1 t = Ok (vs1, t1) → accesses l2 t1 = Ok (vs2, t2) → accesses (l1 ++ l2) t = Ok (vs1 ++ vs2, t2).
Proof.
  revert vs1 t. induction l1 as [|p l1 IH]; intros vs1 t E1 E2; cbn [accesses app] in *.
  { by injection E1 as <- <-. }
  unfold mbind, M_bind in *. destruct (access p t) as [[v t']|]; [|done].
  destruct (accesses l1 t') as [[vs t'']|] eqn:El; [|done]. injection E1 as <- <-.
  by rewrite (IH vs t' El E2).
Qed.

Section byte_data.
Context (A : Z) (HA : 0 < A < 128) (n : nat).

Definition read_stc : Z := AMD756_BYTE_DATA ||| GE_HOST_STC.
(** The accesses of a driver that writes, and that reads, a register. *)
Definition port_write_byte (r v : Z) : list port_access :=
  [PortWrite SMB_HOST_ADDRESS (2 * A); PortWrite SMB_HOST_COMMAND r; PortWrite SMB_HOST_DATA v;
   PortWrite SMB_GLOBAL_ENABLE read_stc].
Definition port_read_byte (r : Z) : list port_access :=
  [PortWrite SMB_HOST_ADDRESS (2 * A + 1); PortWrite SMB_HOST_COMMAND r;
   PortWrite SMB_GLOBAL_ENABLE read_stc; PortRead SMB_HOST_DATA].

Lemma addr_decode b : 0 ≤ b < 2 → (u8 (2 * A + b) >>> 1) &&& 0x7f = A ∧ u8 (2 * A + b) &&& 0x01 = b.
Proof.
  intros Hb. rewrite u8_id by (unfold is_u8; lia). rewrite Z.shiftr_div_pow2 by lia. change (2 ^ 1) with 2.
  replace ((2 * A + b) / 2) with A by dlia. split.
  - change 0x7f with (Z.ones 7). rewrite Z.land_ones by lia. by apply Z.mod_small; lia.
  - rewrite (Z.land_ones (2 * A + b) 1 ltac:(lia) : (2 * A + b) &&& 0x01 = _).
    change (2 ^ 1) with 2. dlia.
Qed.

(** Accesses that only set a register, and the two transactions. *)
Lemma access_addr v t : access (PortWrite SMB_HOST_ADDRESS v) t = Ok (0, t <| smb_addr := u8 v |>).
Proof. done. Qed.
Lemma access_cmd v t : access (PortWrite SMB_HOST_COMMAND v) t = Ok (0, t <| smb_cmd := u8 v |>).
Proof. done. Qed.
Lemma access_data v t : access (PortWrite SMB_HOST_DATA v) t = Ok (0, t <| smb_data0 := u8 v |>).
Proof. done. Qed.
Lemma start_byte_data (t : AMD756SMBus (abus device)) t1 :
  amd756_smb_transaction (t <| smb_ctl := read_stc |>) = Ok (tt, t1) →
  access (PortWrite SMB_GLOBAL_ENABLE read_stc) t = Ok (0, t1).
Proof.
  intros E. assert (W : amd756_smb_ioport_writeb SMB_GLOBAL_ENABLE read_stc t =
    (amd756_smb_transaction;; s ← gets id;
     whenM (match smb_irq s with Some _ => true | None => false end && false
            && truthy (smb_stat s &&& GS_CLEAR_STS)) qemu_irq_raise) (t <| smb_ctl := read_stc |>)) by done.
  unfold access. erewrite run_bind; [done|]. rewrite W. erewrite run_bind by exact E.
  erewrite run_bind by done. by rewrite andb_false_r.
Qed.
Lemma byte_data_write (t : AMD756SMBus (abus device)) d d' :
  smb_ctl t = read_stc → smb_addr t = u8 (2 * A) → select (smbus t).*1 A = [n] → smbus t !! n = Some (A, d) →
  dev_write [smb_cmd t; smb_data0 t] d = Ok (tt, d') →
  ∃ t', amd756_smb_transaction t = Ok (tt, t') ∧ smbus t' = <[n := (A, d')]> (smbus t).
Proof.
  intros Ec Ea Hsel Hn Hd. destruct (addr_decode 0) as [EA Er]; [lia|]. rewrite Z.add_0_r in EA, Er.
  assert (Eb : on_bus (m_write_byte A (smb_cmd t) (smb_data0 t)) t =
               Ok (0, t <| smbus := <[n := (A, d')]> (smbus t) |>)).
  { unfold on_bus. cbn [m_write_byte spec_master]. unfold spec_send, selected. erewrite run_bind by done.
    rewrite Hsel. cbn [forM]. unfold mbind, M_bind, on_entry. by rewrite Hn, Hd. }
  unfold amd756_smb_transaction. erewrite run_bind by done. cbv zeta. unfold id. rewrite Ec, Ea, EA, Er.
  change (if _ =? _ then _ else _) with (ret ← on_bus (m_write_byte A (smb_cmd t) (smb_data0 t)); trans_done ret).
  erewrite run_bind by exact Eb. eexists. split; reflexivity.
Qed.
Lemma byte_data_read (t : AMD756SMBus (abus device)) d b d' :
  smb_ctl t = read_stc → smb_addr t = u8 (2 * A + 1) → select (smbus t).*1 A = [n] →
  smbus t !! n = Some (A, d) → is_u8 b →
  (dev_write [smb_cmd t];; dev_recv) d = Ok (b, d') →
  ∃ t', amd756_smb_transaction t = Ok (tt, t') ∧ smbus t' = <[n := (A, d')]> (smbus t) ∧ smb_data0 t' = b.
Proof.
  intros Ec Ea Hsel Hn Hb Hd. destruct (addr_decode 1) as [EA Er]; [lia|].
  assert (HA0 : (A =? I2C_BROADCAST) = false) by (apply Z.eqb_neq; lia).
  assert (Hlt : (n < length (smbus t))%nat) by (by apply lookup_lt_Some in Hn).
  assert (Eb : on_bus (m_read_byte A (smb_cmd t)) t = Ok (b, t <| smbus := <[n := (A, d')]> (smbus t) |>)).
  { unfold on_bus. cbn [m_read_byte spec_master]. unfold spec_read, selected. erewrite run_bind by done.
    rewrite Hsel. change (negb (blen [smb_cmd t] =? 0)) with true. cbn [whenM forM]. unfold spec_recv. rewrite HA0.
    unfold mbind, M_bind in *. unfold on_entry at 1. rewrite Hn.
    destruct (dev_write [smb_cmd t] d) as [[[] d1]|]; [|done].
    cbn. unfold on_entry. rewrite list_lookup_insert_eq by done. rewrite Hd. by rewrite list_insert_insert_eq. }
  unfold amd756_smb_transaction. erewrite run_bind by done. cbv zeta. unfold id. rewrite Ec, Ea, EA, Er.
  change (if _ =? _ then _ else _) with (ret ← on_bus (m_read_byte A (smb_cmd t)); trans_data8 ret).
  erewrite run_bind by exact Eb. unfold trans_data8, trans_done. unfold is_u8 in Hb.
  replace (b <? 0) with false by lia. eexists. split_and!; [reflexivity|reflexivity|]. cbn. by apply u8_id.
Qed.

Lemma run_port_write r v d d' (t : AMD756SMBus (abus device)) :
  is_u8 r → is_u8 v → select (smbus t).*1 A = [n] → smbus t !! n = Some (A, d) →
  dev_write [r; v] d = Ok (tt, d') →
  ∃ t', accesses (port_write_byte r v) t = Ok ([0; 0; 0; 0], t') ∧ smbus t' = <[n := (A, d')]> (smbus t).
Proof.
  intros Hr Hv Hsel Hn Hd.
  destruct (byte_data_write (t <| smb_addr := u8 (2 * A) |> <| smb_cmd := u8 r |> <| smb_data0 := u8 v |>
    <| smb_ctl := read_stc |>) d d') as (t' & E & Et); [done..| |].
  { change (dev_write [u8 r; u8 v] d = Ok (tt, d')). by rewrite !u8_id by done. }
  exists t'. split; [|done]. unfold port_write_byte.
  eapply run_accesses_cons; [apply access_addr|]. eapply run_accesses_cons; [apply access_cmd|].
  eapply run_accesses_cons; [apply access_data|]. eapply run_accesses_cons; [by apply start_byte_data|]. done.
Qed.
Lemma run_port_read r d b d' (t : AMD756SMBus (abus device)) :
  is_u8 r → is_u8 b → select (smbus t).*1 A = [n] → smbus t !! n = Some (A, d) →
  (dev_write [r];; dev_recv) d = Ok (b, d') →
  ∃ t', accesses (port_read_byte r) t = Ok ([0; 0; 0; b], t') ∧ smbus t' = <[n := (A, d')]> (smbus t).
Proof.
  intros Hr Hb Hsel Hn Hd.
  destruct (byte_data_read (t <| smb_addr := u8 (2 * A + 1) |> <| smb_cmd := u8 r |>
    <| smb_ctl := read_stc |>) d b d') as (t' & E & Et & Ed); [done..| |].
  { change ((dev_write [u8 r];; dev_recv) d = Ok (b, d')). by rewrite u8_id by done. }
  exists t'. split; [|done]. unfold port_read_byte.
  eapply run_accesses_cons; [apply access_addr|]. eapply run_accesses_cons; [apply access_cmd|].
  eapply run_accesses_cons; [by apply start_byte_data|]. eapply run_accesses_cons; [|done].
  unfold access. rewrite <-Ed. done.
Qed.
(** Writing a register and reading it again. *)
Lemma run_port_write_read r v d d1 d2 (t : AMD756SMBus (abus device)) :
  is_u8 r → is_u8 v → select (smbus t).*1 A = [n] → smbus t !! n = Some (A, d) →
  dev_write [r; v] d = Ok (tt, d1) → (dev_write [r];; dev_recv) d1 = Ok (v, d2) →
  ∃ t', accesses (port_write_byte r v ++ port_read_byte r) t = Ok ([0; 0; 0; 0; 0; 0; 0; v], t') ∧
    smbus t' = <[n := (A, d2)]> (smbus t).
Proof.
  intros Hr Hv Hsel Hn Hw Hrd.
  destruct (run_port_write r v d d1 t) as (t1 & E1 & Et1); [done..|].
  destruct (run_port_read r d1 v d2 t1) as (t2 & E2 & Et2); [done|done| | |done|].
  - rewrite Et1, list_fmap_insert. cbn [fst]. rewrite list_insert_id; [done|]. by rewrite list_lookup_fmap, Hn.
  - rewrite Et1, list_lookup_insert_eq; [done|]. by apply lookup_lt_Some in Hn.
  - exists t2. split; [by apply (run_accesses_app _ _ _ _ _ _ _ E1 E2)|]. by rewrite Et2, Et1, list_insert_insert_eq.
Qed.
End byte_data.

(** ** Registers of the devices *)

Definition is_encoder (mk : encoder → device) : Prop :=
  mk = dev_cx25871 ∨ mk = dev_fs454 ∨ mk = dev_xcalibur.

Lemma encoder_set r v e mk :
  is_encoder mk → encoder_ok e → is_u8 r →
  dev_write [r; v] (mk e) = Ok (tt, mk (mkEncoder (put r [v] (registers e)) r)).
Proof.
  intros Hmk [_ _ Hl] Hr. unfold is_u8 in Hr.
  assert (E : encoder_write_data [r; v] 2 e = Ok (0, mkEncoder (put r [v] (registers e)) r)).
  { unfold encoder_write_data. erewrite run_bind by done. erewrite run_bind by done.
    change (u8 (2 - 1) <? 1) with false. change (byte_at [r; v] 0) with r. change (u8 (2 - 1)) with 1.
    replace (Z.min 1 (256 - r)) with 1 by lia. erewrite run_bind by done. erewrite run_bind by done.
    change (slice 1 1 [r; v]) with [v]. erewrite run_bind; [|apply run_wr; [lia|]]; [done|].
    change (blen (registers e) = 256) in Hl. change (blen [v]) with 1. cbn. lia. }
  destruct Hmk as [->|[->| ->]]; unfold dev_write; cbn -[encoder_write_data];
    change (blen [r; v]) with 2; unfold mbind, M_bind, SMBUS_CX25871, SMBUS_fs454, SMBUS_xcalibur, cast,
      smbus_cx25871_write_data, smbus_fs454_write_data, smbus_xcalibur_write_data; by rewrite E.
Qed.
Lemma encoder_get r e mk :
  is_encoder mk → encoder_ok e → is_u8 r →
  (dev_write [r];; dev_recv) (mk e) = Ok (byte_at (registers e) r, mk (mkEncoder (registers e) (u8 (r + 1)))).
Proof.
  intros Hmk [_ _ Hl] Hr. unfold is_u8 in Hr.
  assert (E : encoder_write_data [r] 1 e = Ok (0, mkEncoder (registers e) r)) by done.
  assert (E' : encoder_receive_byte (mkEncoder (registers e) r) =
               Ok (byte_at (registers e) r, mkEncoder (registers e) (u8 (r + 1)))).
  { unfold encoder_receive_byte. do 3 (erewrite run_bind by done). apply run_rd8. cbn. lia. }
  destruct Hmk as [->|[->| ->]]; unfold mbind, M_bind, dev_write, dev_recv;
    cbn -[encoder_write_data encoder_receive_byte]; change (blen [r]) with 1;
    unfold mbind, M_bind, SMBUS_CX25871, SMBUS_fs454, SMBUS_xcalibur, cast, smbus_cx25871_write_data,
      smbus_fs454_write_data, smbus_xcalibur_write_data; rewrite E; cbn -[encoder_receive_byte];
    unfold cast, smbus_cx25871_receive_byte, smbus_fs454_receive_byte, smbus_xcalibur_receive_byte; by rewrite E'.
Qed.

(** A byte stored in the EEPROM; with a working host file it is on disk too. *)
Definition file_works (st : SMBusStorageDevice) (f : host_file) : Prop :=
  file st = Some f ∧ opens f = true ∧ transfer f (size st) = size st ∧ persist st = true ∧
  blen (contents f) = size st.

Lemma storage_set r v st f :
  storage_ok st → file_works st f → is_u8 r →
  dev_write [r; v] (dev_storage st) =
  Ok (tt, dev_storage (mkStorage (Some (mkHostFile (put r [v] (data st)) true (transfer f)))
    (put r [v] (data st)) (size st) ((r + 1) mod size st) true)).
Proof.
  intros [_ Hl Hsz _] (Hf & Ho & Ht & Hp & Hc) Hr. unfold is_u8 in Hr.
  assert (E : smbus_storage_write_data [r; v] 2 st = Ok (0, mkStorage
    (Some (mkHostFile (put r [v] (data st)) true (transfer f)))
    (put r [v] (data st)) (size st) ((r + 1) mod size st) true)).
  { unfold smbus_storage_write_data. erewrite run_bind by done. erewrite run_bind by done.
    change (u8 (2 - 1)) with 1. change (byte_at [r; v] 0) with r. change (Z.to_nat 1) with 1%nat.
    set (st1 := st <| offset := r |>). set (st2 := st1 <| data := put r [v] (data st) |> <| offset := (r + 1) mod size st |>).
    assert (Es : storage_store [r; v] 1 1 st1 = Ok (tt, st2)).
    { cbn [storage_store]. erewrite run_bind by done. erewrite run_bind by done.
      erewrite run_bind; [|apply (run_wr (data st) r [v]); [lia|change (blen [v]) with 1; lia]].
      erewrite run_bind by done. erewrite run_bind; [done|]. unfold step_offset. erewrite run_bind by done.
      subst st1 st2. cbn -[Z.modulo]. replace (size st =? 0) with false by lia.
      unfold modify. do 2 f_equal. cbn -[Z.modulo]. by rewrite u32_id by (unfold is_u32; lia). }
    erewrite run_bind by exact Es. erewrite run_bind by done. subst st1 st2. cbn -[Z.modulo take drop put].
    rewrite Hf, Hp. cbn -[Z.modulo take drop put]. rewrite Ho. cbn -[Z.modulo take drop put]. rewrite Ht, Z.eqb_refl.
    unfold mbind, M_bind, modify. cbn -[Z.modulo take drop put].
    rewrite take_ge, drop_ge, app_nil_r by (rewrite ?length_put; unfold blen in *; lia).
    destruct st. cbn -[put Z.modulo] in *. by rewrite Hp. }
  unfold dev_write. cbn -[smbus_storage_write_data put]. change (blen [r; v]) with 2.
  unfold mbind, M_bind, SMBUS_STORAGE, cast. by rewrite E.
Qed.
Lemma storage_get r st :
  storage_ok st → is_u8 r →
  (dev_write [r];; dev_recv) (dev_storage st) =
  Ok (byte_at (data st) r, dev_storage (st <| offset := (r + 1) mod size st |>)).
Proof.
  intros [_ Hl Hsz _] Hr. unfold is_u8 in Hr.
  assert (E : smbus_storage_write_data [r] 1 st = Ok (0, st <| offset := r |>))
    by (by destruct st as [[f|] ????]).
  assert (E' : smbus_storage_receive_byte (st <| offset := r |>) =
               Ok (byte_at (data st) r, st <| offset := (r + 1) mod size st |>)).
  { unfold smbus_storage_receive_byte. erewrite run_bind by done.
    erewrite run_bind; [|apply (run_rd8 (data st) r); lia]. unfold step_offset, mbind, M_bind, gets, id. cbn -[Z.modulo].
    replace (size st =? 0) with false by lia. unfold modify. do 2 f_equal. cbn -[Z.modulo].
    by rewrite u32_id by (unfold is_u32; lia). }
  unfold mbind, M_bind, dev_write, dev_recv. cbn -[smbus_storage_write_data smbus_storage_receive_byte].
  change (blen [r]) with 1. unfold mbind, M_bind, SMBUS_STORAGE, cast. rewrite E.
  cbn -[smbus_storage_receive_byte]. unfold cast. by rewrite E'.
Qed.


Section completion.
Context {B : Type} `{!SMBusMaster B} (irq : option bool).
Implicit Types t : AMD756SMBus B.

End completion.

(** A register transaction and its inverse on the machine, whatever the device. *)
Lemma register_roundtrip s n A d d1 d2 r v :
  quiet s → amd_regs s → 0 < A < 128 → select (bus_addrs s) A = [n] →
  (device_view <$> children (smbus s)) !! n = Some (A, d) →
  dev_write [r; v] d = Ok (tt, d1) → (dev_write [r];; dev_recv) d1 = Ok (v, d2) → is_u8 r → is_u8 v →
  ∃ s', accesses (port_write_byte A r v ++ port_read_byte A r) s = Ok ([0; 0; 0; 0; 0; 0; 0; v], s') ∧
    quiet s' ∧ device_view <$> children (smbus s') = <[n := (A, d2)]> (device_view <$> children (smbus s)).
Proof.
  intros Hq [] HA Hsel Hn Hw Hrd Hr Hv.
  destruct (run_port_write_read A HA n r v d d1 d2 (view s)) as (t' & E & Et); try done.
  { change (smbus (view s)) with (device_view <$> children (smbus s)). by rewrite <-list_fmap_compose. }
  pose proof (run_on_view (port_write_byte A r v ++ port_read_byte A r) s Hq ltac:(done)) as Hs.
  rewrite E in Hs. destruct Hs as (s' & Es & <- & Hq' & _). by exists s'.
Qed.

(** ** Properties *)

(** C2. The controller on the I2C bus, with its slave state machines, refines the
    controller on the abstract bus where a command is one step on the devices it
    selects: for every sequence of port accesses from a quiet machine the values
    read, the fault if there is one, and the devices afterwards are the same, and
    the bus is quiet again. *)
Theorem smbus_controller_refines l s :
  quiet s → amd_regs s →
  match accesses l (view s) with
  | Ok (vs, t') => ∃ s', accesses l s = Ok (vs, s') ∧ view s' = t' ∧ quiet s'
  | Fault e => accesses l s = Fault e
  end.
Proof.
  intros Hq []. pose proof (run_on_view l s Hq ltac:(done)) as H.
  destruct (accesses l (view s)) as [[vs t']|e]; [|done]. destruct H as (s' & ? & ? & ? & _). eauto.
Qed.

(** The counter of the reads of the version string is an [int] that only a write resets.  The
    read at its largest value wraps it to a negative one, with which the next read of the
    version is before the string. *)
Lemma version_count_overflows s v :
  cmd s = SMC_REG_VER → version_string s = Some v → blen v = SMC_VERSION_LENGTH →
  version_string_index s = 2 ^ 31 - 1 →
  ∃ b s', smc_receive_byte s = Ok (b, s') ∧
    smc_receive_byte (s' <| cmd := SMC_REG_VER |>) = Fault OutOfBounds.
Proof.
  intros Hc Hv Hl Hi. destruct s. cbn in *. subst. unfold smc_receive_byte, rd8.
  eexists _, _. split; [unfold inBounds, mbind, M_bind; cbn; rewrite Hl; reflexivity|done].
Qed.

(** C13. No sequence of port accesses of the guest stops the machine, as long as the counter of
    the reads of the version string of the management controller, an [int], does not overflow
    (an access reads it at most 33 times; [version_count_overflows] is what happens then): from a
    quiet machine with well-formed devices every access returns a byte, the index into the block
    buffer stays inside it, and the machine is quiet and well formed again. *)
Theorem smbus_accesses_safe n s l :
  0 ≤ n → machine_ok (n + 33 * Z.of_nat (length l)) s →
  ∃ vs s', accesses l s = Ok (vs, s') ∧ bytes vs ∧ machine_ok n s'.
Proof. apply machine_run. Qed.


(** A register of a video encoder, of any of the three kinds and at any
    address that is its own on the bus, reads back through the ports of the
    controller as it was written, and the other devices are untouched. *)
Theorem encoder_port_roundtrip s n A mk e r v :
  quiet s → amd_regs s → 0 < A < 128 → select (bus_addrs s) A = [n] →
  (device_view <$> children (smbus s)) !! n = Some (A, mk e) → is_encoder mk → encoder_ok e →
  is_u8 r → is_u8 v →
  ∃ s', accesses (port_write_byte A r v ++ port_read_byte A r) s = Ok ([0; 0; 0; 0; 0; 0; 0; v], s') ∧
    quiet s' ∧ device_view <$> children (smbus s') = <[n := (A, mk (mkEncoder (put r [v] (registers e)) (u8 (r + 1))))]>
      (device_view <$> children (smbus s)).
Proof.
  intros Hq Hregs HA Hsel Hn Hmk He Hr Hv.
  assert (He' : encoder_ok (mkEncoder (put r [v] (registers e)) r)).
  { destruct He. split; [done|apply bytes_put; auto with bytes|exact (eq_trans (blen_put _ _ _) eo_len0)]. }
  assert (Hget : byte_at (put r [v] (registers e)) r = v).
  { destruct He. unfold is_u8 in Hr. rewrite byte_at_put_eq by (change (blen [v]) with 1; lia). by rewrite Z.sub_diag. }
  destruct (register_roundtrip s n A (mk e) _ (mk (mkEncoder (put r [v] (registers e)) (u8 (r + 1)))) r v Hq Hregs HA Hsel Hn
    (encoder_set r v e mk Hmk He Hr)) as (s' & ? & ? & ?); [|done|done|by eauto].
  rewrite (encoder_get r _ mk Hmk He' Hr). cbn [registers]. by rewrite Hget.
Qed.

(** C38. A byte written to the EEPROM through the ports of the controller reads
    back, is the only byte of the contents that changed, and, with persistence and
    a host file that can be written, is in the file as well. *)
Theorem eeprom_port_roundtrip s n A st f r v :
  quiet s → amd_regs s → 0 < A < 128 → select (bus_addrs s) A = [n] →
  (device_view <$> children (smbus s)) !! n = Some (A, dev_storage st) → storage_ok st →
  file_works st f → is_u8 r → is_u8 v →
  ∃ s' st' f', accesses (port_write_byte A r v ++ port_read_byte A r) s = Ok ([0; 0; 0; 0; 0; 0; 0; v], s') ∧
    quiet s' ∧
    device_view <$> children (smbus s') = <[n := (A, dev_storage st')]> (device_view <$> children (smbus s)) ∧
    data st' = put r [v] (data st) ∧ file_works st' f' ∧ contents f' = data st'.
Proof.
  intros Hq Hregs HA Hsel Hn Hst Hf Hr Hv. pose proof (storage_set r v st f Hst Hf Hr) as Hset.
  set (f' := mkHostFile (put r [v] (data st)) true (transfer f)) in *.
  set (st1 := mkStorage (Some f') (put r [v] (data st)) (size st) ((r + 1) mod size st) true) in *.
  assert (Hst1 : storage_ok st1).
  { destruct Hst. split; [apply bytes_put; auto with bytes|exact (eq_trans (blen_put _ _ _) to_len0)|done|].
    apply (Z.mod_pos_bound (r + 1) (size st)). lia. }
  assert (Hget : byte_at (data st1) r = v).
  { destruct Hst. unfold is_u8 in Hr. cbn [data st1]. rewrite byte_at_put_eq by (change (blen [v]) with 1; lia).
    by rewrite Z.sub_diag. }
  destruct (register_roundtrip s n A (dev_storage st) (dev_storage st1)
    (dev_storage (st1 <| offset := (r + 1) mod size st1 |>)) r v Hq Hregs HA Hsel Hn Hset)
    as (s' & E & Hq' & Hv'); [|done|done|].
  { by rewrite (storage_get r st1 Hst1 Hr), Hget. }
  exists s', (st1 <| offset := (r + 1) mod size st1 |>), f'. split_and!; [done|done|done|done| |done].
  destruct Hf as (_ & _ & Ht & _ & _), Hst. split_and!; try done. exact (eq_trans (blen_put _ _ _) to_len0).
Qed.

(** *** Witnesses: a machine with an encoder and an EEPROM *)

Definition idle_slave (a : Z) (d : device) : SMBusDevice device :=
  mkSMBusDevice a SMBUS_IDLE 0 (replicate 34 0) d.
Definition example_storage : SMBusStorageDevice :=
  mkStorage (Some (mkHostFile (replicate 256 0) true id)) (replicate 256 0) 256 0 true.
Definition example_smc : SMBusSMCDevice := mkSMC (Some [80; 48; 49]) 0 0 0x60 6 0 0 0 [].
Definition example_machine : xbox_smbus :=
  mkAMD (mkI2CBus [idle_slave 0x10 (dev_smc example_smc); idle_slave 0x45 (dev_cx25871 (mkEncoder (replicate 256 0) 0));
                   idle_slave 0x54 (dev_storage example_storage)] [] false)
    0 0 0 0 0 0 (replicate 32 0) 0 (Some false).

Lemma example_quiet : quiet example_machine.
Proof. split; [done|done|done|]. repeat constructor. Qed.
Lemma example_regs : amd_regs example_machine.
Proof. split; try done. apply bytes_replicate. Qed.
Lemma example_encoder_ok : encoder_ok (mkEncoder (replicate 256 0) 0).
Proof. split; [done|apply bytes_replicate|done]. Qed.
Lemma example_storage_ok : storage_ok example_storage.
Proof. split; [apply bytes_replicate|done|done|done]. Qed.
Lemma example_ok n : 0 ≤ n ≤ 1000 → machine_ok n example_machine.
Proof.
  intros Hn. split; [apply example_quiet|apply example_regs|]. repeat apply Forall_cons_2; [..|constructor].
  - split; cbn; try done; try lia. exists [80; 48; 49]. split_and!; [done| |done].
    repeat (apply bytes_cons; [done|]). apply bytes_nil.
  - apply example_encoder_ok.
  - apply example_storage_ok.
Qed.

Lemma smbus_controller_refines_witness :
  match accesses [PortWrite 2 8; PortRead 0] (view example_machine) with
  | Ok (vs, t') => ∃ s', accesses [PortWrite 2 8; PortRead 0] example_machine = Ok (vs, s') ∧ view s' = t' ∧ quiet s'
  | Fault e => accesses [PortWrite 2 8; PortRead 0] example_machine = Fault e
  end.
Proof. apply smbus_controller_refines; [apply example_quiet|apply example_regs]. Defined.

Lemma smbus_accesses_safe_witness :
  ∃ vs s', accesses [PortWrite 4 0x21; PortWrite 8 1; PortWrite 2 10; PortRead 6] example_machine = Ok (vs, s') ∧
    bytes vs ∧ machine_ok 5 s'.
Proof. apply (smbus_accesses_safe 5); [lia|]. apply example_ok. cbn. lia. Defined.


Lemma encoder_port_roundtrip_witness :
  ∃ s', accesses (port_write_byte 0x45 7 0xAB ++ port_read_byte 0x45 7) example_machine
          = Ok ([0; 0; 0; 0; 0; 0; 0; 0xAB], s') ∧ quiet s' ∧
    device_view <$> children (smbus s') =
      <[1%nat := (0x45, dev_cx25871 (mkEncoder (put 7 [0xAB] (replicate 256 0)) (u8 8)))]>
        (device_view <$> children (smbus example_machine)).
Proof.
  apply (encoder_port_roundtrip example_machine 1 0x45 dev_cx25871 (mkEncoder (replicate 256 0) 0) 7 0xAB);
    [apply example_quiet|apply example_regs|lia|done|done|by left|apply example_encoder_ok|done|done].
Defined.

Lemma eeprom_port_roundtrip_witness :
  ∃ s' st' f', accesses (port_write_byte 0x54 9 0x5A ++ port_read_byte 0x54 9) example_machine
          = Ok ([0; 0; 0; 0; 0; 0; 0; 0x5A], s') ∧ quiet s' ∧
    device_view <$> children (smbus s') =
      <[2%nat := (0x54, dev_storage st')]> (device_view <$> children (smbus example_machine)) ∧
    data st' = put 9 [0x5A] (data example_storage) ∧ file_works st' f' ∧ contents f' = data st'.
Proof.
  apply (eeprom_port_roundtrip example_machine 2 0x54 example_storage
    (mkHostFile (replicate 256 0) true id) 9 0x5A);
    [apply example_quiet|apply example_regs|lia|done|done|apply example_storage_ok|done|done|done].
Defined.
