(* ===== verification/Sha1.v ===== *)
(** * Sha1: the hash of util/sha1.c

    The context is the C structure; [sha1_process] works on the array [w] and the
    variables [a] to [e], which are private states of the same monad.  The array
    [w] is the list of its initialised elements, so that a read of an element that
    was never set faults.  A pointer into the context is modelled as such: the
    data given to [sha1_input] is read from the state at each iteration, because
    hw/xbox/eeprom_generation.c feeds a context its own [msg_blk].

    The reference is FIPS 180-4: the padded message is cut into blocks of 64 bytes,
    and a block updates the hash value by 80 rounds over a schedule that is a
    sliding window of 16 words. *)

From S2P Require Import Prelude.

(** ** Definitions *)

Record SHA1Context := {
  intermediate : list Z;  (* uint32_t[5] *)
  msg_blk : list Z;       (* uint8_t[64] *)
  msg_blk_index : Z;      (* uint32_t *)
  msg_length : Z;         (* uint32_t length *)
  computed : bool
}.
#[global] Instance eta_SHA1Context : EtaRecord SHA1Context := λ c,
  {| intermediate := intermediate c; msg_blk := msg_blk c; msg_blk_index := msg_blk_index c;
     msg_length := msg_length c; computed := computed c |}.

Definition sha1_rotate (bits val : Z) : Z := u32 (val <<< bits) ||| (val >>> (32 - bits)).

Definition sha1_fill (a b c d e : Z) : M SHA1Context unit :=
  modify (λ ctx, ctx <| intermediate := [a; b; c; d; e] |>).

(** [w[0..15]]: the words of the block. *)
Definition load_words (blk : list Z) : M (list Z) unit :=
  forM (seqZ 0 16) (λ i, word ← rd blk (4 * i) 4; modify (λ w, w ++ [of_be word])).

(** [w[16..79]] *)
Definition extend_words : M (list Z) unit :=
  forM (seqZ 16 64) (λ i,
    w ← gets id;
    w3 ← rd8 w (i - 3);
    w8 ← rd8 w (i - 8);
    w14 ← rd8 w (i - 14);
    w16 ← rd8 w (i - 16);
    modify (λ w, w ++ [sha1_rotate 1 (w3 ^^^ w8 ^^^ w14 ^^^ w16)])).

(** The variables [a], [b], [c], [d], [e]. *)
Definition sha1_vars : Type := Z * Z * Z * Z * Z.

(** One iteration of the main loop. *)
Definition sha1_round (w : list Z) (i : Z) : M sha1_vars unit :=
  '(a, b, c, d, e) ← gets id;
  wi ← rd8 w i;
  let temp := u32 (sha1_rotate 5 a + wi + e) in
  let temp :=
    match i / 20 with
    | 0 => u32 (temp + u32 (0x5A827999 + ((b &&& c) ||| (not32 b &&& d))))
    | 1 => u32 (temp + u32 (0x6ED9EBA1 + (b ^^^ c ^^^ d)))
    | 2 => u32 (temp + u32 (0x8F1BBCDC + ((b &&& c) ||| (b &&& d) ||| (c &&& d))))
    | 3 => u32 (temp + u32 (0xCA62C1D6 + (b ^^^ c ^^^ d)))
    | _ => temp
    end in
  modify (λ _, (temp, a, sha1_rotate 30 b, c, d)).

Definition sha1_process : M SHA1Context unit :=
  ctx ← gets id;
  h0 ← rd8 (intermediate ctx) 0;
  h1 ← rd8 (intermediate ctx) 1;
  h2 ← rd8 (intermediate ctx) 2;
  h3 ← rd8 (intermediate ctx) 3;
  h4 ← rd8 (intermediate ctx) 4;
  '(_, w) ← locally [] (load_words (msg_blk ctx);; extend_words);
  '(_, (a, b, c, d, e)) ← locally (h0, h1, h2, h3, h4) (forM (seqZ 0 80) (sha1_round w));
  modify (λ ctx, ctx
    <| intermediate := [u32 (h0 + a); u32 (h1 + b); u32 (h2 + c); u32 (h3 + d); u32 (h4 + e)] |>
    <| msg_blk_index := 0 |>).

(** [ctx->msg_blk[off] = bs], for one or more bytes. *)
Definition store_blk (off : Z) (bs : list Z) : M SHA1Context unit :=
  ctx ← gets id;
  blk ← wr (msg_blk ctx) off bs;
  modify (λ ctx, ctx <| msg_blk := blk |>).

(** [ctx->msg_blk[ctx->msg_blk_index++] = b] *)
Definition push_byte (b : Z) : M SHA1Context unit :=
  ctx ← gets id;
  store_blk (msg_blk_index ctx) [b];;
  modify (λ ctx, ctx <| msg_blk_index ::= λ i, u32 (i + 1) |>).

(** [while (ctx->msg_blk_index < limit) ctx->msg_blk[ctx->msg_blk_index++] = 0] *)
Fixpoint zero_until (fuel : nat) (limit : Z) : M SHA1Context unit :=
  ctx ← gets id;
  if msg_blk_index ctx <? limit then
    match fuel with
    | O => raise OutOfFuel
    | S fuel => push_byte 0;; zero_until fuel limit
    end
  else mret tt.

Definition sha1_pad : M SHA1Context unit :=
  push_byte 0x80;;
  index ← gets msg_blk_index;
  whenM (56 <? index) (zero_until 64 64;; sha1_process);;
  zero_until 64 56;;
  store_blk 56 (le_bytes 4 0);;
  len ← gets msg_length;
  store_blk 60 (be_bytes 4 len);;
  sha1_process.

Definition sha1_input (data : SHA1Context → list Z) (len : Z) : M SHA1Context unit :=
  modify (λ ctx, ctx <| msg_length ::= λ l, u32 (l + u64 (len <<< 3)) |>);;
  forM (seqZ 0 len) (λ i,
    object ← gets data;
    b ← rd8 object i;
    push_byte b;;
    index ← gets msg_blk_index;
    whenM (index =? 64) sha1_process).

(** The 20 bytes that [sha1_result] stores through its argument. *)
Definition digest_byte (h : list Z) (i : Z) : M SHA1Context Z :=
  word ← rd8 h (i >>> 2);
  mret (u8 (word >>> (8 * (3 - (i &&& 3))))).

Fixpoint digest_bytes (h : list Z) (l : list Z) : M SHA1Context (list Z) :=
  match l with
  | [] => mret []
  | i :: l => b ← digest_byte h i; bs ← digest_bytes h l; mret (b :: bs)
  end.

Definition sha1_result : M SHA1Context (list Z) :=
  done ← gets computed;
  whenM (negb done) (
    sha1_pad;;
    modify (λ ctx, ctx <| msg_length := 0 |> <| computed := true |>));;
  h ← gets intermediate;
  digest_bytes h (seqZ 0 20).

Definition sha1_reset : M SHA1Context unit :=
  sha1_fill 0x67452301 0xEFCDAB89 0x98BADCFE 0x10325476 0xC3D2E1F0;;
  modify (λ ctx, ctx <| msg_blk_index := 0 |> <| computed := false |> <| msg_length := 0 |>).

(** ** FIPS 180-4 *)

Definition fips_f (t x y z : Z) : Z :=
  if t <? 20 then (x &&& y) ^^^ (not32 x &&& z)
  else if t <? 40 then x ^^^ y ^^^ z
  else if t <? 60 then (x &&& y) ^^^ (x &&& z) ^^^ (y &&& z)
  else x ^^^ y ^^^ z.
Definition fips_k (t : Z) : Z :=
  if t <? 20 then 0x5A827999
  else if t <? 40 then 0x6ED9EBA1
  else if t <? 60 then 0x8F1BBCDC
  else 0xCA62C1D6.
Definition fips_round (t wt : Z) (v : sha1_vars) : sha1_vars :=
  let '(a, b, c, d, e) := v in
  (u32 (sha1_rotate 5 a + fips_f t b c d + e + fips_k t + wt), a, sha1_rotate 30 b, c, d).
Fixpoint fips_rounds (t : Z) (ws : list Z) (v : sha1_vars) : sha1_vars :=
  match ws with
  | [] => v
  | wt :: ws => fips_rounds (t + 1) ws (fips_round t wt v)
  end.

(** The schedule goes on from a window of the last 16 words, newest first. *)
Fixpoint schedule (n : nat) (window : list Z) : list Z :=
  match n with
  | O => []
  | S n =>
      let wt := sha1_rotate 1 (window !!! 2%nat ^^^ window !!! 7%nat
                               ^^^ window !!! 13%nat ^^^ window !!! 15%nat) in
      wt :: schedule n (wt :: take 15 window)
  end.
Definition block_words (blk : list Z) : list Z :=
  (λ i, of_be (slice (4 * i) 4 blk)) <$> seqZ 0 16.
Definition fips_compress (h : sha1_vars) (blk : list Z) : sha1_vars :=
  let ws := block_words blk in
  let '(h0, h1, h2, h3, h4) := h in
  let '(a, b, c, d, e) := fips_rounds 0 (ws ++ schedule 64 (reverse ws)) h in
  (u32 (h0 + a), u32 (h1 + b), u32 (h2 + c), u32 (h3 + d), u32 (h4 + e)).

(** The message is padded to whole blocks, its length in bits last; [len0] bits
    were hashed before it. *)
Definition fips_pad (len0 : Z) (msg : list Z) : list Z :=
  msg ++ [0x80] ++ replicate (Z.to_nat ((55 - blen msg) mod 64)) 0
  ++ be_bytes 8 (len0 + 8 * blen msg).
Definition blocks (bs : list Z) : list (list Z) := reshape (replicate (length bs / 64) 64%nat) bs.
Definition words (h : sha1_vars) : list Z := let '(a, b, c, d, e) := h in [a; b; c; d; e].
Definition fips_sha1_from (h : sha1_vars) (len0 : Z) (msg : list Z) : list Z :=
  words (foldl fips_compress h (blocks (fips_pad len0 msg))) ≫= be_bytes 4.
Definition fips_h0 : sha1_vars :=
  (0x67452301, 0xEFCDAB89, 0x98BADCFE, 0x10325476, 0xC3D2E1F0).
Definition fips_sha1 (msg : list Z) : list Z := fips_sha1_from fips_h0 0 msg.

(** ** The block function *)

Lemma forM_append {X} (l : list X) (f : X → M (list Z) Z) (g : X → Z) w :
  (∀ x w, x ∈ l → f x w = Ok (g x, w)) →
  forM l (λ x, v ← f x; modify (λ w, w ++ [v])) w = Ok (tt, w ++ (g <$> l)).
Proof.
  revert w. induction l as [|x l IH]; intros w Hf; cbn [forM fmap list_fmap].
  { by rewrite app_nil_r. }
  assert (f x w = Ok (g x, w)) as Hx by (apply Hf; left).
  rewrite (run_bind _ _ tt w (w ++ [g x])) by (by rewrite (run_bind _ _ _ _ _ Hx)).
  rewrite IH by (intros; apply Hf; by right). by rewrite <-app_assoc.
Qed.
Lemma run_load_words blk w :
  blen blk = 64 → load_words blk w = Ok (tt, w ++ block_words blk).
Proof.
  intros Hl. unfold load_words, block_words.
  rewrite <-(forM_append _ (λ i, word ← rd blk (4 * i) 4; mret (of_be word))).
  - apply forM_ext. intros i w' Hi%elem_of_seqZ. by rewrite <-bind_assoc.
  - intros i w' Hi%elem_of_seqZ. erewrite run_bind; [done|]. apply run_rd; lia.
Qed.

(** The window holds the last elements of the array. *)
Lemma window_lookup w j k :
  j = Z.of_nat (length w) - Z.of_nat (S k) → (16 ≤ length w)%nat → (k < 16)%nat →
  byte_at w j = take 16 (reverse w) !!! k.
Proof.
  intros -> Hw Hk. unfold byte_at. rewrite lookup_total_take, decide_True by done.
  rewrite !list_lookup_total_alt, reverse_lookup by lia. do 2 f_equal. lia.
Qed.

Lemma run_extend n i w :
  i = Z.of_nat (length w) → (16 ≤ length w)%nat →
  forM (seqZ i (Z.of_nat n)) (λ i,
    w ← gets id;
    w3 ← rd8 w (i - 3);
    w8 ← rd8 w (i - 8);
    w14 ← rd8 w (i - 14);
    w16 ← rd8 w (i - 16);
    modify (λ w, w ++ [sha1_rotate 1 (w3 ^^^ w8 ^^^ w14 ^^^ w16)])) w
  = Ok (tt, w ++ schedule n (take 16 (reverse w))).
Proof.
  revert i w. induction n as [|n IH]; intros i w Hi Hw.
  { cbn. by rewrite app_nil_r. }
  rewrite seqZ_cons by lia. cbn [forM].
  assert (blen w = i) as Hb by (unfold blen; lia).
  erewrite run_bind; [|erewrite run_bind by done; do 4 (erewrite run_bind by (apply run_rd8; unfold id; lia)); done].
  unfold id. rewrite (window_lookup w (i - 3) 2), (window_lookup w (i - 8) 7),
    (window_lookup w (i - 14) 13), (window_lookup w (i - 16) 15) by lia.
  cbn [schedule]. set (wt := sha1_rotate 1 _).
  replace (Z.pred (Z.of_nat (S n))) with (Z.of_nat n) by lia.
  rewrite IH by (rewrite length_app; cbn; lia).
  by rewrite reverse_snoc, take_take, <-app_assoc.
Qed.

Lemma length_block_words blk : length (block_words blk) = 16%nat.
Proof. done. Qed.
Lemma length_schedule n window : length (schedule n window) = n.
Proof. revert window. induction n; intros; cbn [schedule length]; auto. Qed.

(** The code joins with [|] what the standard joins with exclusive or. *)
Lemma ch_lor b c d : (b &&& c) ||| (not32 b &&& d) = (b &&& c) ^^^ (not32 b &&& d).
Proof.
  bitwise i. unfold not32, u32. destruct (Z.lt_ge_cases i 32); autorewrite with bits; btauto.
Qed.
Lemma maj_lor b c d :
  (b &&& c) ||| (b &&& d) ||| (c &&& d) = (b &&& c) ^^^ (b &&& d) ^^^ (c &&& d).
Proof. bitwise i. Qed.

Lemma run_sha1_round w i v :
  0 ≤ i < 80 → length w = 80%nat →
  sha1_round w i v = Ok (tt, fips_round i (byte_at w i) v).
Proof.
  intros Hi Hw. destruct v as [[[[a b] c] d] e]. unfold sha1_round.
  rewrite (run_bind _ _ (a, b, c, d, e) _ (a, b, c, d, e)) by done. cbv beta iota.
  rewrite (run_bind _ _ (byte_at w i) _ (a, b, c, d, e)) by (apply run_rd8; unfold blen; lia).
  unfold modify, fips_round. do 6 f_equal.
  assert (∀ k f, u32 (u32 (sha1_rotate 5 a + byte_at w i + e) + u32 (k + f)) =
                 u32 (sha1_rotate 5 a + f + e + k + byte_at w i)) as Hsum.
  { intros k f. unfold u32. rewrite <-Z.add_mod by done. f_equal. lia. }
  assert (i / 20 = 0 ∨ i / 20 = 1 ∨ i / 20 = 2 ∨ i / 20 = 3) as Hc by dlia.
  unfold fips_f, fips_k. rewrite <-ch_lor, <-maj_lor.
  destruct (Z.ltb_spec i 20), (Z.ltb_spec i 40), (Z.ltb_spec i 60);
    destruct Hc as [E|[E|[E|E]]]; rewrite E; try (exfalso; dlia); apply Hsum.
Qed.

Lemma run_rounds w i v :
  length w = 80%nat → 0 ≤ i ≤ 80 →
  forM (seqZ i (80 - i)) (sha1_round w) v = Ok (tt, fips_rounds i (drop (Z.to_nat i) w) v).
Proof.
  intros Hw Hi. remember (Z.to_nat (80 - i)) as n eqn:Hn. revert i v Hi Hn.
  induction n as [|n IH]; intros i v Hi Hn.
  { assert (i = 80) as -> by lia. by rewrite drop_ge by (rewrite Hw; done). }
  rewrite seqZ_cons by lia. cbn [forM].
  erewrite run_bind by (apply run_sha1_round; [lia|done]).
  replace (Z.pred (80 - i)) with (80 - Z.succ i) by lia. rewrite IH by lia.
  assert (w !! Z.to_nat i = Some (byte_at w i)) as E.
  { unfold byte_at. apply list_lookup_lookup_total_lt. lia. }
  rewrite (drop_S _ _ _ E). cbn [fips_rounds].
  by replace (Z.to_nat (Z.succ i)) with (S (Z.to_nat i)) by lia.
Qed.

Lemma run_sha1_process ctx h :
  intermediate ctx = words h → blen (msg_blk ctx) = 64 →
  sha1_process ctx = Ok (tt, ctx <| intermediate := words (fips_compress h (msg_blk ctx)) |>
                                 <| msg_blk_index := 0 |>).
Proof.
  intros Hh Hb. destruct h as [[[[h0 h1] h2] h3] h4]. unfold sha1_process.
  rewrite (run_bind _ _ ctx _ ctx) by done. rewrite Hh.
  do 5 (erewrite run_bind by (by apply run_rd8)).
  set (ws := block_words (msg_blk ctx)).
  assert ((load_words (msg_blk ctx);; extend_words) [] = Ok (tt, ws ++ schedule 64 (reverse ws))) as Hw.
  { erewrite run_bind by (by apply run_load_words). cbn [app]. fold ws.
    unfold extend_words. change 64 with (Z.of_nat 64). rewrite run_extend by done.
    by rewrite (take_ge (reverse ws)). }
  erewrite run_bind by (by apply run_locally, Hw). cbv beta iota.
  erewrite run_bind.
  2:{ apply run_locally, (run_rounds _ 0); [by rewrite length_app, length_schedule|lia]. }
  cbn [words byte_at]. rewrite drop_0. unfold fips_compress. fold ws.
  change (byte_at _ 0) with h0. change (byte_at _ 1) with h1. change (byte_at _ 2) with h2.
  change (byte_at _ 3) with h3. change (byte_at _ 4) with h4.
  by destruct (fips_rounds 0 _ _) as [[[[a b] c] d] e].
Qed.

(** ** Buffering

    [holds h rest n c ctx]: the blocks so far gave the hash value [h], and the
    bytes [rest] wait in [msg_blk]. *)

Record holds (h : sha1_vars) (rest : list Z) (n : Z) (c : bool) (ctx : SHA1Context) : Prop := {
  h_hash : intermediate ctx = words h;
  h_blk : blen (msg_blk ctx) = 64;
  h_rest : slice 0 (blen rest) (msg_blk ctx) = rest;
  h_index : msg_blk_index ctx = blen rest;
  h_length : msg_length ctx = n;
  h_computed : computed ctx = c
}.

Lemma slice_all buf n : n = blen buf → slice 0 n buf = buf.
Proof. intros ->. unfold slice, blen. by rewrite drop_0, take_ge by lia. Qed.

Lemma run_store_blk off bs ctx :
  0 ≤ off → off + blen bs ≤ blen (msg_blk ctx) →
  store_blk off bs ctx = Ok (tt, ctx <| msg_blk := put off bs (msg_blk ctx) |>).
Proof.
  intros. unfold store_blk. rewrite (run_bind _ _ ctx _ ctx) by done.
  by rewrite (run_bind _ _ _ _ _ (run_wr (msg_blk ctx) off bs ctx ltac:(done) ltac:(done))).
Qed.

Lemma run_push h rest n c ctx b :
  holds h rest n c ctx → blen rest < 64 →
  ∃ ctx', push_byte b ctx = Ok (tt, ctx') ∧ holds h (rest ++ [b]) n c ctx'.
Proof.
  intros [Hh Hb Hr Hi Hn Hc] Hlt. pose proof (blen_nonneg rest).
  unfold push_byte. rewrite (run_bind _ _ ctx _ ctx) by done. rewrite Hi.
  eexists. split.
  { erewrite run_bind; [done|]. apply run_store_blk; [done|]. change (blen [b]) with 1. lia. }
  assert (blen (rest ++ [b]) = blen rest + 1) as Hl by apply blen_app.
  split; cbn -[put]; rewrite ?Hl; [done| | | |done|done].
  - by rewrite blen_put.
  - rewrite <-Hr at 3. change 1 with (blen [b]). apply slice_put_append; [lia|].
    change (blen [b]) with 1. lia.
  - rewrite Hi. apply u32_id. unfold is_u32. lia.
Qed.

Lemma run_full h rest n c ctx :
  holds h rest n c ctx → blen rest = 64 →
  ∃ ctx', sha1_process ctx = Ok (tt, ctx') ∧ holds (fips_compress h rest) [] n c ctx'.
Proof.
  intros [Hh Hb Hr Hi Hn Hc] Hl. eexists. split; [by apply run_sha1_process|].
  rewrite Hl, slice_all in Hr by done. by split; cbn; rewrite ?Hr.
Qed.

Lemma run_zero_until fuel limit h rest n c ctx :
  holds h rest n c ctx → blen rest ≤ limit ≤ 64 → limit - blen rest ≤ Z.of_nat fuel →
  ∃ ctx', zero_until fuel limit ctx = Ok (tt, ctx') ∧
    holds h (rest ++ replicate (Z.to_nat (limit - blen rest)) 0) n c ctx'.
Proof.
  revert rest ctx. induction fuel as [|fuel IH]; intros rest ctx H Hl Hf; cbn [zero_until];
    rewrite (run_bind _ _ ctx _ ctx) by done; rewrite (h_index _ _ _ _ _ H);
    destruct (Z.ltb_spec (blen rest) limit); try lia.
  1,3: exists ctx; split; [done|]; replace (limit - blen rest) with 0 by lia; by rewrite app_nil_r.
  destruct (run_push _ _ _ _ _ 0 H) as (ctx1 & E1 & H1); [lia|].
  assert (blen (rest ++ [0]) = blen rest + 1) as Ha by apply blen_app.
  destruct (IH _ _ H1) as (ctx2 & E2 & H2); [lia..|].
  exists ctx2. split; [by erewrite run_bind|].
  replace (Z.to_nat (limit - blen rest)) with (S (Z.to_nat (limit - blen (rest ++ [0])))) by lia.
  by rewrite <-app_assoc in H2.
Qed.

(** [absorbed h d n c ctx]: the bytes [d] went in after the hash value [h]. *)
Definition absorbed (h : sha1_vars) (d : list Z) (n : Z) (c : bool) (ctx : SHA1Context) : Prop :=
  ∃ bl rest, d = mjoin bl ++ rest ∧ Forall (λ b, length b = 64%nat) bl ∧ blen rest < 64 ∧
    holds (foldl fips_compress h bl) rest n c ctx.

Lemma run_feed_byte h d n c ctx b :
  absorbed h d n c ctx →
  ∃ ctx', (push_byte b;; index ← gets msg_blk_index; whenM (index =? 64) sha1_process) ctx
          = Ok (tt, ctx') ∧ absorbed h (d ++ [b]) n c ctx'.
Proof.
  intros (bl & rest & -> & Hbl & Hr & H).
  destruct (run_push _ _ _ _ _ b H) as (ctx1 & E1 & H1); [done|].
  assert (blen (rest ++ [b]) = blen rest + 1) as Hl by apply blen_app.
  erewrite run_bind by done. rewrite (run_bind _ _ (blen (rest ++ [b])) _ ctx1).
  2:{ unfold gets. by rewrite (h_index _ _ _ _ _ H1). }
  destruct (Z.eqb_spec (blen (rest ++ [b])) 64) as [E|E]; cbn [whenM].
  - destruct (run_full _ _ _ _ _ H1 E) as (ctx2 & E2 & H2). exists ctx2. split; [done|].
    exists (bl ++ [rest ++ [b]]), []. rewrite foldl_app, join_app. split_and!; [|..|done].
    + cbn. by rewrite !app_nil_r, app_assoc.
    + apply Forall_app. split; [done|]. apply Forall_singleton. unfold blen in E. lia.
    + done.
  - exists ctx1. split; [done|]. exists bl, (rest ++ [b]). rewrite app_assoc. split_and!; [done..|lia|done].
Qed.

Lemma run_feed h d bs n c ctx i :
  absorbed h d n c ctx → 0 ≤ i ≤ blen bs →
  ∃ ctx', forM (seqZ i (blen bs - i)) (λ i,
      object ← gets (λ _ : SHA1Context, bs);
      b ← rd8 object i;
      push_byte b;;
      index ← gets msg_blk_index;
      whenM (index =? 64) sha1_process) ctx = Ok (tt, ctx') ∧
    absorbed h (d ++ drop (Z.to_nat i) bs) n c ctx'.
Proof.
  remember (Z.to_nat (blen bs - i)) as k eqn:Hk. revert d i ctx Hk.
  induction k as [|k IH]; intros d i ctx Hk H Hi.
  - assert (i = blen bs) as -> by lia. rewrite Z.sub_diag. exists ctx. split; [done|].
    unfold blen. rewrite Nat2Z.id, drop_all. by rewrite app_nil_r.
  - destruct (run_feed_byte _ _ _ _ _ (byte_at bs i) H) as (ctx1 & E1 & H1).
    destruct (IH _ (i + 1) _ ltac:(lia) H1) as (ctx2 & E2 & H2); [lia|].
    exists ctx2. split.
    + rewrite seqZ_cons by lia. cbn [forM].
      rewrite (run_bind _ _ tt _ ctx1).
      2:{ rewrite (run_bind _ _ bs _ ctx) by done.
          by rewrite (run_bind _ _ (byte_at bs i) _ ctx) by (apply run_rd8; lia). }
      replace (Z.pred (blen bs - i)) with (blen bs - (i + 1)) by lia. exact E2.
    + assert (bs !! Z.to_nat i = Some (byte_at bs i)) as E.
      { unfold byte_at. apply list_lookup_lookup_total_lt. unfold blen in *. lia. }
      rewrite (drop_S _ _ _ E). replace (S (Z.to_nat i)) with (Z.to_nat (i + 1)) by lia.
      by rewrite <-app_assoc in H2.
Qed.

Lemma run_sha1_input h d bs n ctx :
  absorbed h d n false ctx →
  ∃ ctx', sha1_input (λ _, bs) (blen bs) ctx = Ok (tt, ctx') ∧
    absorbed h (d ++ bs) (u32 (n + 8 * blen bs)) false ctx'.
Proof.
  intros (bl & rest & -> & Hbl & Hr & [Hh Hb Hs Hi Hn Hc]). unfold sha1_input.
  erewrite run_bind by done.
  destruct (run_feed h (mjoin bl ++ rest) bs (u32 (n + 8 * blen bs)) false
    (ctx <| msg_length ::= λ l, u32 (l + u64 (blen bs <<< 3)) |>) 0) as (ctx' & E & H').
  - exists bl, rest. split_and!; [done..|]. split; try done. cbn -[u64].
    rewrite Hn. unfold u32, u64. rewrite Z.shiftl_mul_pow2 by done.
    rewrite <-(Z.add_mod_idemp_r n (_ mod 2 ^ 64)), <-(Z.add_mod_idemp_r n (8 * _)) by done.
    do 2 f_equal. rewrite Z.mod_mod_divide by (by exists (2 ^ 32)). f_equal. lia.
  - split; [done|apply blen_nonneg].
  - rewrite Z.sub_0_r in E. exists ctx'. by rewrite drop_0 in H'.
Qed.

(** ** Padding *)

Lemma put_length_field r b1 b2 blk :
  blen blk = 64 → slice 0 56 blk = r → blen b1 = 4 → blen b2 = 4 →
  put 60 b2 (put 56 b1 blk) = r ++ b1 ++ b2.
Proof.
  intros Hb <- H1 H2. rewrite <-(slice_all (put 60 _ _) (60 + blen b2)) by (rewrite !blen_put; lia).
  rewrite slice_put_append by (rewrite ?blen_put; lia).
  replace 60 with (56 + blen b1) by lia. rewrite slice_put_append by lia. by rewrite app_assoc.
Qed.

(** The last block takes the length. *)
Lemma run_finish h r n c ctx :
  holds h r n c ctx → blen r = 56 →
  ∃ ctx', (store_blk 56 (le_bytes 4 0);; len ← gets msg_length; store_blk 60 (be_bytes 4 len);;
           sha1_process) ctx = Ok (tt, ctx') ∧
    holds (fips_compress h (r ++ le_bytes 4 0 ++ be_bytes 4 n)) [] n c ctx'.
Proof.
  intros [Hh Hb Hr Hi Hn Hc] Hl.
  set (ctx1 := ctx <| msg_blk := put 56 (le_bytes 4 0) (msg_blk ctx) |>).
  assert (blen (msg_blk ctx1) = 64) as Hb1 by (subst ctx1; cbn -[put]; by rewrite blen_put).
  rewrite (run_bind _ _ tt _ ctx1) by (apply run_store_blk; [done|by rewrite Hb]).
  rewrite (run_bind _ _ n _ ctx1) by (unfold gets; cbn -[put]; by rewrite Hn).
  assert (put 60 (be_bytes 4 n) (msg_blk ctx1) = r ++ le_bytes 4 0 ++ be_bytes 4 n) as Hp.
  { apply put_length_field; [done|by rewrite <-Hl|done|apply blen_be_bytes]. }
  rewrite (run_bind _ _ tt _ (ctx1 <| msg_blk := r ++ le_bytes 4 0 ++ be_bytes 4 n |>)).
  2:{ rewrite <-Hp. apply run_store_blk; [done|]. by rewrite Hb1, blen_be_bytes. }
  assert (blen (r ++ le_bytes 4 0 ++ be_bytes 4 n) = 64) as Hl'.
  { by rewrite !blen_app, blen_be_bytes, blen_le_bytes, Hl. }
  eexists. split; [by apply run_sha1_process|]. by split.
Qed.

Lemma run_sha1_pad h rest n c ctx :
  holds h rest n c ctx → blen rest < 64 →
  ∃ bl ctx', sha1_pad ctx = Ok (tt, ctx') ∧ Forall (λ b, length b = 64%nat) bl ∧
    mjoin bl = rest ++ [0x80] ++ replicate (Z.to_nat ((55 - blen rest) mod 64)) 0
               ++ le_bytes 4 0 ++ be_bytes 4 n ∧
    holds (foldl fips_compress h bl) [] n c ctx'.
Proof.
  intros H Hl. pose proof (blen_nonneg rest) as Hnn. unfold sha1_pad.
  destruct (run_push _ _ _ _ _ 0x80 H Hl) as (ctx1 & E1 & H1). erewrite run_bind by done.
  assert (blen (rest ++ [0x80]) = blen rest + 1) as Hl1 by apply blen_app.
  rewrite (run_bind _ _ (blen rest + 1) _ ctx1)
    by (unfold gets; by rewrite (h_index _ _ _ _ _ H1), Hl1).
  assert (∀ r k, blen (r ++ replicate (Z.to_nat k) 0) = blen r + Z.max 0 k) as Hz.
  { intros r k. rewrite blen_app. unfold blen. rewrite length_replicate. lia. }
  assert (∀ b, blen b = 64 → length b = 64%nat) as H64 by (unfold blen; lia).
  assert (∀ r, blen r = 56 → blen (r ++ le_bytes 4 0 ++ be_bytes 4 n) = 64) as Hlast.
  { intros r Hr. rewrite !blen_app, blen_be_bytes, blen_le_bytes, Hr. done. }
  destruct (Z.ltb_spec 56 (blen rest + 1)); cbn [whenM].
  - destruct (run_zero_until 64 64 _ _ _ _ _ H1) as (ctx2 & E2 & H2); [lia..|].
    destruct (run_full _ _ _ _ _ H2) as (ctx3 & E3 & H3); [rewrite Hz; lia|].
    destruct (run_zero_until 64 56 _ _ _ _ _ H3) as (ctx4 & E4 & H4); [done..|].
    destruct (run_finish _ _ _ _ _ H4) as (ctx5 & E5 & H5); [done|].
    eexists [_; _], ctx5. split_and!; [| | |exact H5].
    + rewrite (run_bind _ _ tt _ ctx3) by (by erewrite run_bind). by erewrite run_bind.
    + apply Forall_cons. split; [apply H64; rewrite Hz; lia|].
      apply Forall_singleton, H64, Hlast. done.
    + rewrite Hl1. replace ((55 - blen rest) mod 64) with (64 - (blen rest + 1) + 56) by dlia.
      rewrite Z2Nat.inj_add, replicate_add by lia. cbn [mjoin list_join].
      by rewrite app_nil_r, <-!app_assoc.
  - destruct (run_zero_until 64 56 _ _ _ _ _ H1) as (ctx4 & E4 & H4); [lia..|].
    destruct (run_finish _ _ _ _ _ H4) as (ctx5 & E5 & H5); [rewrite Hz; lia|].
    eexists [_], ctx5. split_and!; [| | |exact H5].
    + erewrite run_bind by done. by erewrite run_bind.
    + apply Forall_singleton, H64, Hlast. rewrite Hz. lia.
    + rewrite Hl1. replace ((55 - blen rest) mod 64) with (56 - (blen rest + 1)) by dlia.
      unfold mjoin. cbn [list_join]. by rewrite app_nil_r, <-!app_assoc.
Qed.

(** ** The digest *)

Lemma be_bytes_4 v :
  be_bytes 4 v = [u8 (v >>> 24); u8 (v >>> 16); u8 (v >>> 8); u8 (v >>> 0)].
Proof.
  unfold be_bytes. cbn -[Z.div Z.modulo]. rewrite !Z.shiftr_div_pow2, !Z.div_div by done.
  by rewrite Z.div_1_r.
Qed.

Lemma run_digest_bytes h ctx :
  digest_bytes (words h) (seqZ 0 20) ctx = Ok (words h ≫= be_bytes 4, ctx).
Proof. destruct h as [[[[a b] c] d] e]. cbn [words mbind list_bind]. by rewrite !be_bytes_4. Qed.

(** A length below [2^32] fills the lower half of the length field. *)
Lemma be_bytes_8 n : 0 ≤ n < 2 ^ 32 → be_bytes 8 n = le_bytes 4 0 ++ be_bytes 4 n.
Proof.
  intros Hn. unfold be_bytes. cbn -[Z.div Z.modulo].
  assert (n / 2 ^ 8 / 2 ^ 8 / 2 ^ 8 / 2 ^ 8 = 0) as ->.
  { rewrite !Z.div_div by done. by apply Z.div_small. }
  done.
Qed.

Lemma blocks_app b msg :
  length b = 64%nat → blocks (b ++ msg) = b :: blocks msg.
Proof.
  intros Hb. unfold blocks. rewrite length_app, Hb.
  replace ((64 + length msg) / 64)%nat with (S (length msg / 64)).
  2:{ replace (64 + length msg)%nat with (length msg + 1 * 64)%nat by lia. rewrite Nat.div_add by done. lia. }
  cbn [replicate reshape]. by rewrite take_app_length', drop_app_length'.
Qed.
Lemma blocks_join (bl : list (list Z)) :
  Forall (λ b, length b = 64%nat) bl → blocks (mjoin bl) = bl.
Proof.
  induction 1 as [|b bl Hb _ IH]; [done|]. change (mjoin (b :: bl)) with (b ++ mjoin bl).
  by rewrite blocks_app, IH.
Qed.
Lemma blen_join (bl : list (list Z)) :
  Forall (λ b, length b = 64%nat) bl → blen (mjoin bl) = 64 * Z.of_nat (length bl).
Proof.
  induction 1 as [|b bl Hb _ IH]; [done|]. change (mjoin (b :: bl)) with (b ++ mjoin bl).
  rewrite blen_app, IH. unfold blen. rewrite Hb. cbn [length]. lia.
Qed.

Lemma run_sha1_result h d len0 ctx :
  absorbed h d (len0 + 8 * blen d) false ctx → 0 ≤ len0 → len0 + 8 * blen d < 2 ^ 32 →
  ∃ ctx', sha1_result ctx = Ok (fips_sha1_from h len0 d, ctx') ∧ blen (msg_blk ctx') = 64.
Proof.
  intros (bl & rest & Hd & Hbl & Hr & H) Hl0 Hl. unfold sha1_result.
  destruct (run_sha1_pad _ _ _ _ _ H Hr) as (bl' & ctx1 & E1 & Hbl' & Hj & H1).
  rewrite (run_bind _ _ false _ ctx) by (unfold gets; by rewrite (h_computed _ _ _ _ _ H)).
  cbn [negb whenM].
  set (ctx2 := ctx1 <| msg_length := 0 |> <| computed := true |>).
  rewrite (run_bind _ _ tt _ ctx2) by (by erewrite run_bind).
  rewrite (run_bind _ _ (words (foldl fips_compress h (bl ++ bl'))) _ ctx2).
  2:{ unfold gets. cbn. by rewrite (h_hash _ _ _ _ _ H1), foldl_app. }
  exists ctx2. split; [|apply H1]. rewrite run_digest_bytes. unfold fips_sha1_from.
  do 5 f_equal. rewrite <-(blocks_join (bl ++ bl')) by (by apply Forall_app).
  f_equal. unfold fips_pad. pose proof (blen_nonneg d). rewrite be_bytes_8 by lia.
  rewrite join_app, Hj, Hd, <-app_assoc. do 4 f_equal.
  rewrite blen_app, blen_join by done. do 2 f_equal. dlia.
Qed.

(** Hashing goes on from an earlier hash value as if the earlier blocks were part
    of the message. *)
Lemma fips_sha1_resume h b len0 msg :
  length b = 64%nat →
  fips_sha1_from h len0 (b ++ msg) = fips_sha1_from (fips_compress h b) (len0 + 512) msg.
Proof.
  intros Hb. unfold fips_sha1_from. do 2 f_equal.
  assert (fips_pad len0 (b ++ msg) = b ++ fips_pad (len0 + 512) msg) as ->.
  { unfold fips_pad. rewrite <-app_assoc, blen_app. unfold blen at 1 3. rewrite Hb.
    do 4 f_equal; [f_equal; f_equal; dlia|f_equal; lia]. }
  by rewrite blocks_app.
Qed.

(** ** Properties *)

Lemma absorbed_start h n ctx :
  intermediate ctx = words h → blen (msg_blk ctx) = 64 → msg_blk_index ctx = 0 →
  msg_length ctx = n → computed ctx = false → absorbed h [] n false ctx.
Proof. intros. exists [], []. by split_and!. Qed.

Lemma run_inputs h d chunks len0 ctx :
  absorbed h d (len0 + 8 * blen d) false ctx → 0 ≤ len0 →
  len0 + 8 * blen (d ++ mjoin chunks) < 2 ^ 32 →
  ∃ ctx', forM chunks (λ c, sha1_input (λ _, c) (blen c)) ctx = Ok (tt, ctx') ∧
    absorbed h (d ++ mjoin chunks) (len0 + 8 * blen (d ++ mjoin chunks)) false ctx'.
Proof.
  revert d ctx. induction chunks as [|c chunks IH]; intros d ctx H H0 Hl.
  { change (mjoin []) with ([] : list Z). rewrite app_nil_r. by exists ctx. }
  change (mjoin (c :: chunks)) with (c ++ mjoin chunks) in *. cbn [forM].
  rewrite !blen_app in Hl.
  pose proof (blen_nonneg d) as ?. pose proof (blen_nonneg c) as ?. pose proof (blen_nonneg (mjoin chunks)) as ?.
  destruct (run_sha1_input _ _ c _ _ H) as (ctx1 & E1 & Ha).
  rewrite u32_id in Ha by (unfold is_u32; lia).
  destruct (IH (d ++ c) ctx1) as (ctx2 & E2 & Hd2); [|done|rewrite !blen_app; lia|].
  { rewrite blen_app. by replace (len0 + 8 * (blen d + blen c)) with (len0 + 8 * blen d + 8 * blen c) by lia. }
  exists ctx2. rewrite app_assoc. split; [by erewrite run_bind|done].
Qed.

(** C16. A reset context that is fed any chunks of data, of less than [2^32] bits in
    all, and asked for its result gives the SHA-1 digest of FIPS 180-4 of their
    concatenation. *)
Theorem sha1_digest (chunks : list (list Z)) ctx :
  blen (msg_blk ctx) = 64 → 8 * blen (mjoin chunks) < 2 ^ 32 →
  ∃ ctx', (sha1_reset;; forM chunks (λ c, sha1_input (λ _, c) (blen c));; sha1_result) ctx
    = Ok (fips_sha1 (mjoin chunks), ctx').
Proof.
  intros Hb Hl. erewrite run_bind by done.
  destruct (run_inputs fips_h0 [] chunks 0
    (ctx <| intermediate := words fips_h0 |> <| msg_blk_index := 0 |> <| computed := false |>
         <| msg_length := 0 |>)) as (ctx1 & E1 & H1); [by apply absorbed_start|done|done|].
  destruct (run_sha1_result _ _ _ _ H1) as (ctx2 & E2 & _); [done..|].
  exists ctx2. unfold sha1_fill, modify. by rewrite (run_bind _ _ _ _ _ E1).
Qed.
Lemma sha1_digest_witness :
  ∃ ctx', (sha1_reset;; forM [[97]; [98; 99]] (λ c, sha1_input (λ _, c) (blen c));; sha1_result)
      {| intermediate := [1; 2; 3; 4; 5]; msg_blk := replicate 64 7; msg_blk_index := 9;
         msg_length := 11; computed := true |}
    = Ok ([0xA9; 0x99; 0x3E; 0x36; 0x47; 0x06; 0x81; 0x6A; 0xBA; 0x3E;
           0x25; 0x71; 0x78; 0x50; 0xC2; 0x6C; 0x9C; 0xD0; 0xD8; 0x9D], ctx').
Proof.
  destruct (sha1_digest [[97]; [98; 99]]
    {| intermediate := [1; 2; 3; 4; 5]; msg_blk := replicate 64 7; msg_blk_index := 9;
       msg_length := 11; computed := true |}) as [ctx' E]; [reflexivity|reflexivity|].
  exists ctx'. rewrite E. do 2 f_equal.
Defined.
