(* ===== verification/Rc4.v ===== *)
(** * Rc4: the stream cipher of util/rc4.c

    The state is the array [s] of the context.  The loop variables that survive an
    iteration are arguments of the loops. *)

From S2P Require Import Prelude.

(** ** Definitions *)

(** [uint8_t s[256]] *)
Definition RC4Context : Type := list Z.

Definition rc4_swap (first second : Z) : M RC4Context unit :=
  s ← gets id;
  temp ← rd8 s first;
  b ← rd8 s second;
  s ← wr s first [b];
  s ← wr s second [temp];
  modify (λ _, s).

(** The second loop of [rc4_init], [n] iterations before its end. *)
Fixpoint rc4_schedule (n : nat) (i j : Z) (data : list Z) (len : Z) : M RC4Context unit :=
  match n with
  | O => mret tt
  | S n =>
      s ← gets id;
      si ← rd8 s i;
      (if len =? 0 then raise DivByZero else mret tt);;
      b ← rd8 data (i mod len);
      let j := (j + si + b) mod 256 in
      rc4_swap i j;;
      rc4_schedule n (i + 1) j data len
  end.

Definition rc4_init (data : list Z) (len : Z) : M RC4Context unit :=
  forM (seqZ 0 256) (λ i, write_at i [u8 i]);;
  rc4_schedule 256 0 0 data len.

(** The loop of [rc4_crypt], [n] iterations before its end; it returns the data. *)
Fixpoint rc4_crypt_loop (n : nat) (i j k : Z) (data : list Z) : M RC4Context (list Z) :=
  match n with
  | O => mret data
  | S n =>
      let i := (i + 1) mod 256 in
      s ← gets id;
      si ← rd8 s i;
      let j := (j + si) mod 256 in
      rc4_swap i j;;
      s ← gets id;
      si ← rd8 s i;
      sj ← rd8 s j;
      b ← rd8 s ((si + sj) mod 256);
      d ← rd8 data k;
      data ← wr data k [d ^^^ b];
      rc4_crypt_loop n i j (k + 1) data
  end.

Definition rc4_crypt (data : list Z) (len : Z) : M RC4Context (list Z) :=
  rc4_crypt_loop (Z.to_nat len) 0 0 0 data.

(** ** The cipher

    The key permutes the bytes; the permutation gives a stream of bytes that does
    not depend on the data. *)

Definition swap (s : list Z) (i j : Z) : list Z :=
  <[Z.to_nat j := byte_at s i]> (<[Z.to_nat i := byte_at s j]> s).

Fixpoint key_permutation (n : nat) (i j : Z) (key s : list Z) : list Z :=
  match n with
  | O => s
  | S n =>
      let j := (j + byte_at s i + byte_at key (i mod blen key)) mod 256 in
      key_permutation n (i + 1) j key (swap s i j)
  end.

Fixpoint stream (n : nat) (i j : Z) (s : list Z) : list Z :=
  match n with
  | O => []
  | S n =>
      let i := (i + 1) mod 256 in
      let j := (j + byte_at s i) mod 256 in
      let s := swap s i j in
      byte_at s ((byte_at s i + byte_at s j) mod 256) :: stream n i j s
  end.

Definition rc4_permutation (key : list Z) : list Z := key_permutation 256 0 0 key (seqZ 0 256).
Definition keystream (key : list Z) (n : nat) : list Z := stream n 0 0 (rc4_permutation key).
Definition rc4 (key data : list Z) : list Z := zip_with Z.lxor data (keystream key (length data)).

(** ** Swapping keeps a permutation *)

Lemma put_1 i b s : put i [b] s = <[Z.to_nat i := b]> s.
Proof. done. Qed.

Lemma length_swap s i j : length (swap s i j) = length s.
Proof. unfold swap. by rewrite !length_insert. Qed.

Lemma insert_perm {A} (l : list A) i x y : l !! i = Some x → x :: <[i := y]> l ≡ₚ y :: l.
Proof.
  revert i. induction l as [|z l IH]; intros [|i] Hx; [done..| |].
  - injection Hx as ->. apply perm_swap.
  - cbn. rewrite perm_swap, (IH i Hx). apply perm_swap.
Qed.

Lemma swap_perm s i j :
  0 ≤ i < blen s → 0 ≤ j < blen s → swap s i j ≡ₚ s.
Proof.
  unfold blen. intros Hi Hj. unfold swap.
  assert (∀ k, 0 ≤ k < blen s → s !! Z.to_nat k = Some (byte_at s k)) as Hs.
  { unfold blen. intros k Hk. unfold byte_at. apply list_lookup_lookup_total_lt. lia. }
  apply (Permutation_cons_inv (a:=byte_at s j)).
  rewrite (insert_perm (<[Z.to_nat i := _]> s) _ (byte_at s j)); [by apply insert_perm, Hs|].
  destruct (decide (i = j)) as [->|Hne].
  - rewrite list_lookup_insert_eq by lia. done.
  - rewrite list_lookup_insert_ne by lia. by apply Hs.
Qed.

Lemma run_swap s i j :
  0 ≤ i < blen s → 0 ≤ j < blen s → rc4_swap i j s = Ok (tt, swap s i j).
Proof.
  intros Hi Hj. unfold rc4_swap. rewrite (run_bind _ _ s _ s) by done.
  rewrite (run_bind _ _ (byte_at s i) _ s) by (by apply run_rd8).
  rewrite (run_bind _ _ (byte_at s j) _ s) by (by apply run_rd8).
  rewrite (run_bind _ _ (put i [byte_at s j] s) _ s) by (apply run_wr; change (blen [_]) with 1; lia).
  rewrite (run_bind _ _ (swap s i j) _ s); [done|].
  unfold swap. rewrite <-!put_1. apply run_wr; rewrite ?blen_put; change (blen [_]) with 1; lia.
Qed.

(** ** The loops compute the cipher *)

Lemma byte_index_bound x s : blen s = 256 → 0 ≤ x mod 256 < blen s.
Proof. intros ->. by apply Z.mod_pos_bound. Qed.
Lemma blen_swap s i j : blen (swap s i j) = blen s.
Proof. unfold blen. by rewrite length_swap. Qed.

Lemma run_rc4_schedule n i j key s :
  0 < blen key → blen s = 256 → 0 ≤ i → i + Z.of_nat n ≤ 256 →
  rc4_schedule n i j key (blen key) s = Ok (tt, key_permutation n i j key s) ∧
  key_permutation n i j key s ≡ₚ s.
Proof.
  intros Hk. revert i j s. induction n as [|n IH]; intros i j s Hs Hi Hn; [done|].
  cbn [rc4_schedule key_permutation].
  pose proof (Z.mod_pos_bound i (blen key) Hk) as Him.
  set (j' := (j + byte_at s i + byte_at key (i mod blen key)) mod 256).
  assert (0 ≤ j' < blen s) as Hj by (by apply byte_index_bound).
  destruct (IH (i + 1) j' (swap s i j')) as [E P]; [rewrite ?blen_swap; lia..|].
  split; [|rewrite P; apply swap_perm; lia].
  rewrite (run_bind _ _ s _ s) by done.
  rewrite (run_bind _ _ (byte_at s i) _ s) by (apply run_rd8; lia).
  rewrite (run_bind _ _ tt _ s) by (destruct (Z.eqb_spec (blen key) 0); [lia|done]).
  rewrite (run_bind _ _ (byte_at key (i mod blen key)) _ s) by (by apply run_rd8).
  cbv zeta. fold j'. by rewrite (run_bind _ _ tt _ (swap s i j')) by (apply run_swap; lia).
Qed.

Lemma run_identity n s :
  (n ≤ 256)%nat → blen s = 256 →
  ∃ s', forM (seqZ 0 (Z.of_nat n)) (λ i, write_at i [u8 i]) s = Ok (tt, s') ∧ blen s' = 256 ∧
    slice 0 (Z.of_nat n) s' = seqZ 0 (Z.of_nat n).
Proof.
  intros Hn Hs. induction n as [|n IH]; [by exists s|].
  destruct IH as (s1 & E & Hl & Hsl); [lia|].
  rewrite seqZ_S, Z.add_0_l. exists (put (Z.of_nat n) [Z.of_nat n] s1).
  rewrite forM_app, (run_bind _ _ tt _ s1) by done. cbn [forM]. split_and!.
  - rewrite (run_bind _ _ tt _ (put (Z.of_nat n) [Z.of_nat n] s1)); [done|].
    rewrite u8_id by (unfold is_u8; lia). apply run_write_at; change (blen [_]) with 1; lia.
  - by rewrite blen_put.
  - rewrite <-Hsl. replace (Z.of_nat (S n)) with (Z.of_nat n + blen [Z.of_nat n])
      by (change (blen [_]) with 1; lia).
    apply slice_put_append; [lia|change (blen [_]) with 1; lia].
Qed.

Lemma run_rc4_init key s :
  0 < blen key → blen s = 256 →
  rc4_init key (blen key) s = Ok (tt, rc4_permutation key) ∧ rc4_permutation key ≡ₚ seqZ 0 256.
Proof.
  intros Hk Hs. unfold rc4_init. destruct (run_identity 256 s) as (s1 & E & Hl & Hsl); [done|done|].
  assert (s1 = seqZ 0 256) as ->.
  { change 256 with (Z.of_nat 256). rewrite <-Hsl. unfold slice. rewrite drop_0, take_ge; [done|]. unfold blen in Hl. lia. }
  rewrite (run_bind _ _ tt _ (seqZ 0 256)) by done. by apply run_rc4_schedule.
Qed.

Lemma run_rc4_crypt_loop n i j k data s :
  blen s = 256 → 0 ≤ k → k + Z.of_nat n = blen data →
  ∃ s', rc4_crypt_loop n i j k data s =
      Ok (take (Z.to_nat k) data ++ zip_with Z.lxor (drop (Z.to_nat k) data) (stream n i j s), s') ∧
    s' ≡ₚ s.
Proof.
  revert i j k data s. induction n as [|n IH]; intros i j k data s Hs Hk Hn.
  { exists s. split; [|done]. cbn [rc4_crypt_loop stream].
    rewrite take_ge, drop_ge by (unfold blen in Hn; lia). by rewrite app_nil_r. }
  cbn [rc4_crypt_loop stream]. set (i' := (i + 1) mod 256). set (j' := (j + byte_at s i') mod 256).
  assert (0 ≤ i' < blen s) as Hi by (by apply byte_index_bound).
  assert (0 ≤ j' < blen s) as Hj by (by apply byte_index_bound).
  set (s1 := swap s i' j'). assert (blen s1 = 256) as Hs1 by (subst s1; by rewrite blen_swap).
  set (b := byte_at s1 ((byte_at s1 i' + byte_at s1 j') mod 256)).
  set (data1 := put k [byte_at data k ^^^ b] data).
  destruct (IH i' j' (k + 1) data1 s1) as (s2 & E & P).
  { done. } { lia. } { subst data1. rewrite blen_put. lia. }
  exists s2. split; [|rewrite P; by apply swap_perm].
  rewrite (run_bind _ _ s _ s) by done.
  rewrite (run_bind _ _ (byte_at s i') _ s) by (by apply run_rd8). cbv zeta. fold j'.
  rewrite (run_bind _ _ tt _ s1) by (by apply run_swap).
  rewrite (run_bind _ _ s1 _ s1) by done.
  rewrite (run_bind _ _ (byte_at s1 i') _ s1) by (apply run_rd8; lia).
  rewrite (run_bind _ _ (byte_at s1 j') _ s1) by (apply run_rd8; lia).
  rewrite (run_bind _ _ b _ s1) by (by apply run_rd8, byte_index_bound).
  rewrite (run_bind _ _ (byte_at data k) _ s1) by (apply run_rd8; lia).
  rewrite (run_bind _ _ data1 _ s1) by (apply run_wr; change (blen [_]) with 1; lia).
  rewrite E. do 2 f_equal. subst data1. rewrite put_1.
  assert (data !! Z.to_nat k = Some (byte_at data k)) as Hd.
  { unfold byte_at. apply list_lookup_lookup_total_lt. unfold blen in Hn. lia. }
  rewrite (drop_S _ _ _ Hd). replace (Z.to_nat (k + 1)) with (S (Z.to_nat k)) by lia.
  rewrite drop_insert_lt by lia. cbn [zip_with].
  rewrite (take_S_r _ _ (byte_at data k ^^^ b))
    by (by eapply list_lookup_insert_eq, lookup_lt_Some).
  rewrite take_insert_ge by lia. by rewrite <-app_assoc.
Qed.

Lemma length_stream n i j s : length (stream n i j s) = n.
Proof. revert i j s. induction n; intros; cbn [stream length]; auto. Qed.

Lemma length_rc4 key data : length (rc4 key data) = length data.
Proof. unfold rc4, keystream. rewrite length_zip_with, length_stream. lia. Qed.

(** Enciphering twice with one key is the identity. *)
Lemma zip_lxor_twice (data ks : list Z) :
  length ks = length data → zip_with Z.lxor (zip_with Z.lxor data ks) ks = data.
Proof.
  revert ks. induction data as [|d data IH]; intros [|k ks] Hl; try done.
  cbn [zip_with]. rewrite IH by (cbn in Hl; lia).
  by rewrite Z.lxor_assoc, Z.lxor_nilpotent, Z.lxor_0_r.
Qed.
Lemma rc4_involutive key data : rc4 key (rc4 key data) = data.
Proof.
  unfold rc4 at 1. rewrite length_rc4. unfold rc4. apply zip_lxor_twice, length_stream.
Qed.

Lemma run_rc4 key data s :
  0 < blen key → blen s = 256 →
  ∃ s', (rc4_init key (blen key);; rc4_crypt data (blen data)) s = Ok (rc4 key data, s') ∧
    s' ≡ₚ seqZ 0 256.
Proof.
  intros Hk Hs. destruct (run_rc4_init key s Hk Hs) as [E P].
  destruct (run_rc4_crypt_loop (length data) 0 0 0 data (rc4_permutation key)) as (s' & E' & P').
  { unfold blen. by rewrite (Permutation_length P). } { done. } { done. }
  exists s'. split; [|by rewrite P']. rewrite (run_bind _ _ tt _ (rc4_permutation key)) by done.
  unfold rc4_crypt, blen. by rewrite Nat2Z.id.
Qed.

(** ** Property *)

(** C34. Enciphering data with a key from a fresh initialisation stays inside the
    arrays, replaces the data by its exclusive or with a key stream that does not
    depend on it, and keeps the array a permutation of the 256 bytes; enciphering
    the result again with the same key gives the data back. *)
Theorem rc4_roundtrip key data s1 s2 :
  0 < blen key → blen s1 = 256 → blen s2 = 256 →
  ∃ c s1' s2',
    (rc4_init key (blen key);; rc4_crypt data (blen data)) s1 = Ok (c, s1') ∧
    c = zip_with Z.lxor data (keystream key (length data)) ∧ s1' ≡ₚ seqZ 0 256 ∧
    (rc4_init key (blen key);; rc4_crypt c (blen c)) s2 = Ok (data, s2').
Proof.
  intros Hk H1 H2. destruct (run_rc4 key data s1 Hk H1) as (s1' & E1 & P1).
  destruct (run_rc4 key (rc4 key data) s2 Hk H2) as (s2' & E2 & _).
  rewrite rc4_involutive in E2. by exists (rc4 key data), s1', s2'.
Qed.
Lemma rc4_roundtrip_witness :
  ∃ s2', (rc4_init [75; 101; 121] 3;;
          rc4_crypt [0xBB; 0xF3; 0x16; 0xE8; 0xD9; 0x40; 0xAF; 0x0A; 0xD3] 9) (replicate 256 0)
    = Ok ([80; 108; 97; 105; 110; 116; 101; 120; 116], s2').
Proof.
  destruct (rc4_roundtrip [75; 101; 121] [80; 108; 97; 105; 110; 116; 101; 120; 116]
    (replicate 256 1) (replicate 256 0)) as (c & s1' & s2' & _ & Hc & _ & E);
    [reflexivity|reflexivity|reflexivity|].
  exists s2'. vm_compute in Hc. subst c. exact E.
Defined.
