(* ===== verification/Eeprom.v ===== *)
(** * Eeprom: generating the EEPROM image of hw/xbox/eeprom_generation.c

    The packed structure [XboxEEPROM] is the buffer of its 256 bytes; a member is
    its offset, and a pointer to a member with a length is a window of the buffer,
    which may span several members as it does in the code.  The source of random
    bytes and the host file are parameters: a draw can fail, which ends the process
    ([error_fatal]), the file may not open, and a write may be short.

    The theorem is the acceptance test of the console's kernel: the image has valid
    checksums, and deciphering its security section with the key derived from its
    hash gives data with that hash. *)

From S2P Require Import Prelude.
From S2P Require Import Sha1.
From S2P Require Import Rc4.

(** ** Definitions *)

(** Offsets of the members of [XboxEEPROM]. *)
Abbreviation EE_hash := 0 (only parsing).
Abbreviation EE_confounder := 20 (only parsing).
Abbreviation EE_hdd_key := 28 (only parsing).
Abbreviation EE_region := 44 (only parsing).
Abbreviation EE_checksum := 48 (only parsing).
Abbreviation EE_serial := 52 (only parsing).
Abbreviation EE_mac := 64 (only parsing).
Abbreviation EE_online_key := 72 (only parsing).
Abbreviation EE_video_standard := 88 (only parsing).
Abbreviation EE_user_checksum := 96 (only parsing).
Abbreviation EE_user_section := 100 (only parsing).
Abbreviation EE_sizeof := 256 (only parsing).

Inductive XboxEEPROMVersion :=
  | XBOX_EEPROM_VERSION_D
  | XBOX_EEPROM_VERSION_R1
  | XBOX_EEPROM_VERSION_R2
  | XBOX_EEPROM_VERSION_R3.

(** The loop of [xbox_eeprom_crc], [n] iterations before its end. *)
Fixpoint crc_loop {S} (n : nat) (i high low : Z) (data : list Z) : M S Z :=
  match n with
  | O => mret (not32 (u32 (high + low)))
  | Datatypes.S n =>
      word ← rd data (4 * i) 4;
      let val := of_le word in
      let sum := (high <<< 32) ||| low in
      crc_loop n (i + 1) (u32 (u64 (sum + val) >>> 32)) (u32 (low + val)) data
  end.
Definition xbox_eeprom_crc {S} (data : list Z) (len : Z) : M S Z :=
  crc_loop (Z.to_nat (len / 4)) 0 0 0 data.

Definition xbox_sha1_iv (ver : XboxEEPROMVersion) (first : bool) : sha1_vars :=
  match ver, first with
  | XBOX_EEPROM_VERSION_D, true => (0x85F9E51A, 0xE04613D2, 0x6D86A50C, 0x77C32E3C, 0x4BD717A4)
  | XBOX_EEPROM_VERSION_D, false => (0x5D7A9C6B, 0xE1922BEB, 0xB82CCDBC, 0x3137AB34, 0x486B52B3)
  | XBOX_EEPROM_VERSION_R2, true => (0x39B06E79, 0xC9BD25E8, 0xDBC6B498, 0x40B4389D, 0x86BBD7ED)
  | XBOX_EEPROM_VERSION_R2, false => (0x9B49BED3, 0x84B430FC, 0x6B8749CD, 0xEBFE5FE5, 0xD96E7393)
  | XBOX_EEPROM_VERSION_R3, true => (0x8058763A, 0xF97D4E0E, 0x865A9762, 0x8A3D920D, 0x08995B2C)
  | XBOX_EEPROM_VERSION_R3, false => (0x01075307, 0xA2F1E037, 0x1186EEEA, 0x88DA9992, 0x168A5609)
  | _, true => (0x72127625, 0x336472B9, 0xBE609BEA, 0xF55E226B, 0x99958DAC)
  | _, false => (0x76441D41, 0x4DE82659, 0x2E8EF85E, 0xB256FACA, 0xC4FE2DE8)
  end.

Definition xbox_sha1_reset (ver : XboxEEPROMVersion) (first : bool) : M SHA1Context unit :=
  modify (λ ctx, ctx <| msg_blk_index := 0 |> <| computed := false |> <| msg_length := 512 |>);;
  let '(a, b, c, d, e) := xbox_sha1_iv ver first in
  sha1_fill a b c d e.

(** The digest that the function stores through [hash]. *)
Definition xbox_sha1_compute (ver : XboxEEPROMVersion) (data : list Z) (len : Z)
    : M SHA1Context (list Z) :=
  xbox_sha1_reset ver true;;
  sha1_input (λ _, data) len;;
  inner ← sha1_result;
  store_blk 0 inner;;
  xbox_sha1_reset ver false;;
  sha1_input msg_blk 20;;
  sha1_result.

(** The first bytes of the user section: time zone and language. *)
Definition default_user_section : list Z :=
  [0x00; 0x00; 0x00; 0x00; 0x47; 0x4D; 0x54; 0x00; 0x42; 0x53; 0x54; 0x00;
   0x00; 0x00; 0x00; 0x00; 0x00; 0x00; 0x00; 0x00; 0x0A; 0x05; 0x00; 0x02; 0x03; 0x05; 0x00; 0x01; 0x00; 0x00;
   0x00; 0x00; 0x00; 0x00; 0x00; 0x00; 0x00; 0x00; 0x00; 0x00; 0xC4; 0xFF; 0xFF; 0xFF].

(** The host: a source of random bytes whose draws can fail, whether the file
    opens for writing, and how many of the bytes given to it [fwrite] writes. *)
Class EepromHost := {
  rng : Type;
  qcrypto_random_bytes : rng → Z → option (list Z * rng);
  fopen_ok : bool;
  fwrite_count : Z → Z
}.

Section generate.
Context `{EepromHost}.

(** The local variables of [xbox_eeprom_generate], and the file. *)
Record generator := {
  e : list Z;
  sctx : SHA1Context;
  rctx : RC4Context;
  source : rng;
  file : option (list Z)
}.
#[global] Instance eta_generator : EtaRecord generator := λ g,
  {| e := e g; sctx := sctx g; rctx := rctx g; source := source g; file := file g |}.

(** [memcpy(&e + off, bs, length bs)] *)
Definition store (off : Z) (bs : list Z) : M generator unit :=
  g ← gets id;
  e' ← wr (e g) off bs;
  modify (λ g, g <| e := e' |>).

(** The window of [len] bytes at [&e + off]. *)
Definition window (off len : Z) : M generator (list Z) :=
  g ← gets id;
  rd (e g) off len.

(** [qcrypto_random_bytes(&e + off, len, &error_fatal)] *)
Definition randomize (off len : Z) : M generator unit :=
  g ← gets id;
  match qcrypto_random_bytes (source g) len with
  | None => raise Exit
  | Some (bs, r) => modify (λ g, g <| source := r |>);; store off bs
  end.

Definition on_sctx {A} (m : M SHA1Context A) : M generator A := λ g,
  match m (sctx g) with
  | Ok (a, c) => Ok (a, g <| sctx := c |>)
  | Fault f => Fault f
  end.
Definition on_rctx {A} (m : M RC4Context A) : M generator A := λ g,
  match m (rctx g) with
  | Ok (a, c) => Ok (a, g <| rctx := c |>)
  | Fault f => Fault f
  end.

Definition serial_digits : M generator unit :=
  forM (seqZ 0 12) (λ i,
    g ← gets id;
    b ← rd8 (e g) (EE_serial + i);
    store (EE_serial + i) [u8 (48 + b mod 10)]).

(** Everything before the checksums. *)
Definition fill_image : M generator unit :=
  modify (λ g, g <| e := replicate 256 0 |>);;
  store EE_region (le_bytes 4 1);;
  store EE_video_standard (le_bytes 4 0x00400100);;
  randomize EE_confounder 8;;
  randomize EE_hdd_key 16;;
  randomize EE_online_key 16;;
  store EE_mac [0x00; 0x50; 0xF2];;
  randomize (EE_mac + 3) 3;;
  randomize EE_serial 12;;
  serial_digits;;
  store EE_user_section default_user_section;;
  store (EE_user_section + 0x2C) (le_bytes 4 1).

Definition update_checksums : M generator unit :=
  data ← window EE_serial 0x2C;
  crc ← xbox_eeprom_crc data 0x2C;
  store EE_checksum (le_bytes 4 crc);;
  data ← window EE_user_section 0x5C;
  crc ← xbox_eeprom_crc data 0x5C;
  store EE_user_checksum (le_bytes 4 crc).

Definition encrypt_section (ver : XboxEEPROMVersion) : M generator unit :=
  data ← window EE_confounder 0x1C;
  hash ← on_sctx (xbox_sha1_compute ver data 0x1C);
  store EE_hash hash;;
  data ← window EE_hash 20;
  seed ← on_sctx (xbox_sha1_compute ver data 20);
  on_rctx (rc4_init seed 20);;
  data ← window EE_confounder 0x1C;
  data ← on_rctx (rc4_crypt data 0x1C);
  store EE_confounder data.

Definition save_file : M generator bool :=
  if negb fopen_ok then mret false
  else
    g ← gets id;
    let n := fwrite_count EE_sizeof in
    modify (λ g, g <| file := Some (take (Z.to_nat n) (e g)) |>);;
    mret (n =? EE_sizeof).

Definition xbox_eeprom_generate (ver : XboxEEPROMVersion) : M generator bool :=
  fill_image;;
  update_checksums;;
  encrypt_section ver;;
  save_file.
End generate.

(** ** The checksum: the words' sum with the carries added back once *)

Fixpoint word_sum (n : nat) (i : Z) (data : list Z) : Z :=
  match n with
  | O => 0
  | S n => of_le (slice (4 * i) 4 data) + word_sum n (i + 1) data
  end.
Definition crc_of_sum (sum : Z) : Z := not32 (u32 (sum / 2 ^ 32 + sum mod 2 ^ 32)).
Definition checksum (data : list Z) : Z := crc_of_sum (word_sum (length data / 4) 0 data).

Lemma of_le_word off data : bytes data → 0 ≤ off → off + 4 ≤ blen data → is_u32 (of_le (slice off 4 data)).
Proof.
  intros Hd Ho Hl. pose proof (of_le_range (slice off 4 data) (bytes_slice off 4 data Hd)) as Hr.
  by rewrite blen_slice in Hr by lia.
Qed.

Lemma run_crc_loop {S} n i high low data (s : S) :
  bytes data → 0 ≤ i → 4 * (i + Z.of_nat n) ≤ blen data → is_u32 low → 0 ≤ high →
  high + Z.of_nat n < 2 ^ 32 →
  crc_loop n i high low data s = Ok (crc_of_sum (high * 2 ^ 32 + low + word_sum n i data), s).
Proof.
  intros Hd. revert i high low. induction n as [|n IH]; intros i high low Hi Hl Hlow Hhigh Hn;
    cbn [crc_loop word_sum].
  { unfold crc_of_sum, is_u32 in *.
    assert ((high * 2 ^ 32 + low + 0) / 2 ^ 32 = high) as -> by dlia.
    by assert ((high * 2 ^ 32 + low + 0) mod 2 ^ 32 = low) as -> by dlia. }
  assert (is_u32 (of_le (slice (4 * i) 4 data))) as Hw by (apply of_le_word; [done|lia..]).
  rewrite (run_bind _ _ (slice (4 * i) 4 data) _ s) by (apply run_rd; lia). cbv zeta.
  rewrite lor_shl_add by (unfold is_u32 in Hlow; lia).
  unfold is_u32 in Hlow, Hw. set (val := of_le _) in *.
  assert (u64 (high * 2 ^ 32 + low + val) = high * 2 ^ 32 + low + val) as -> by (apply Z.mod_small; lia).
  rewrite Z.shiftr_div_pow2 by done.
  assert (0 ≤ (high * 2 ^ 32 + low + val) / 2 ^ 32 ≤ high + 1) as Hh by dlia.
  rewrite (u32_id (_ / _)) by (unfold is_u32; lia).
  rewrite IH; [|lia|lia|apply u32_range|lia|lia]. do 3 f_equal. unfold u32. dlia.
Qed.

Lemma run_xbox_eeprom_crc {S} data (s : S) :
  bytes data → blen data < 2 ^ 32 → xbox_eeprom_crc data (blen data) s = Ok (checksum data, s).
Proof.
  intros Hd Hl. unfold xbox_eeprom_crc, checksum, blen in *.
  assert (Z.to_nat (Z.of_nat (length data) / 4) = (length data / 4)%nat) as ->.
  { rewrite <-(Nat2Z.id (length data / 4)), Nat2Z.inj_div. done. }
  assert (length data / 4 * 4 ≤ length data)%nat as Hq.
  { pose proof (Nat.Div0.mul_div_le (length data) 4). lia. }
  rewrite run_crc_loop; [done|done|done|unfold blen; lia|done|done|lia].
Qed.

(** ** The keyed hash *)

Definition keyed_hash (ver : XboxEEPROMVersion) (msg : list Z) : list Z :=
  fips_sha1_from (xbox_sha1_iv ver false) 512 (fips_sha1_from (xbox_sha1_iv ver true) 512 msg).

Lemma blen_fips h len0 msg : blen (fips_sha1_from h len0 msg) = 20.
Proof. unfold fips_sha1_from. by destruct (foldl _ _ _) as [[[[a b] c] d] e']. Qed.

(** A context fed from its own block buffer overwrites each byte with itself. *)
Lemma put_same i buf : 0 ≤ i < blen buf → put i [byte_at buf i] buf = buf.
Proof.
  unfold blen. intros Hi. unfold put, byte_at. cbn. apply list_insert_id.
  apply list_lookup_lookup_total_lt. lia.
Qed.
Lemma run_feed_alias n i len ctx :
  msg_blk_index ctx = i → 0 ≤ i → i + Z.of_nat n ≤ len < 64 → blen (msg_blk ctx) = 64 →
  let body data i :=
    object ← gets data;
    b ← rd8 object i;
    push_byte b;;
    index ← gets msg_blk_index;
    whenM (index =? 64) sha1_process in
  forM (seqZ i (Z.of_nat n)) (body msg_blk) ctx =
  forM (seqZ i (Z.of_nat n)) (body (λ _, slice 0 len (msg_blk ctx))) ctx.
Proof.
  intros Hi Hi0 Hn Hb body. revert i ctx Hi Hi0 Hn Hb. induction n as [|n IH]; intros i ctx Hi Hi0 Hn Hb; [done|].
  rewrite seqZ_cons by lia. cbn [forM].
  set (ctx' := ctx <| msg_blk_index := i + 1 |>).
  assert (∀ data, byte_at (data ctx) i = byte_at (msg_blk ctx) i → i < blen (data ctx) →
    body data i ctx = Ok (tt, ctx')) as Hbody.
  { intros data Hd Hl. unfold body. rewrite (run_bind _ _ (data ctx) _ ctx) by done.
    rewrite (run_bind _ _ (byte_at (msg_blk ctx) i) _ ctx) by (rewrite run_rd8, Hd; [done|lia]).
    rewrite (run_bind _ _ tt _ ctx').
    - rewrite (run_bind _ _ (i + 1) _ ctx') by done. by destruct (Z.eqb_spec (i + 1) 64); [lia|].
    - unfold push_byte. rewrite (run_bind _ _ ctx _ ctx) by done. rewrite Hi.
      rewrite (run_bind _ _ tt _ ctx).
      + unfold modify, ctx', field_update. by rewrite Hi, u32_id by (unfold is_u32; lia).
      + rewrite run_store_blk by (change (blen [_]) with 1; lia). rewrite put_same by lia.
        by destruct ctx. }
  rewrite (run_bind _ _ tt _ ctx') by (apply Hbody; [done|lia]).
  rewrite (run_bind (body (λ _, slice 0 len (msg_blk ctx)) i) _ tt _ ctx').
  2:{ apply Hbody; [apply byte_at_slice; lia|]. rewrite blen_slice; lia. }
  replace (Z.pred (Z.of_nat (S n))) with (Z.of_nat n) by lia.
  apply (IH (Z.succ i) ctx'); [done|lia|lia|done].
Qed.
Lemma sha1_input_alias len ctx :
  msg_blk_index ctx = 0 → 0 ≤ len < 64 → blen (msg_blk ctx) = 64 →
  sha1_input msg_blk len ctx = sha1_input (λ _, slice 0 len (msg_blk ctx)) len ctx.
Proof.
  intros Hi Hl Hb. unfold sha1_input. erewrite !run_bind by done.
  set (ctx1 := ctx <| msg_length ::= _ |>).
  assert (Hk := run_feed_alias (Z.to_nat len) 0 len ctx1). rewrite Z2Nat.id in Hk by lia.
  apply Hk; [done|done|lia|done].
Qed.

Lemma absorbed_reset ver first ctx :
  blen (msg_blk ctx) = 64 →
  ∃ ctx', xbox_sha1_reset ver first ctx = Ok (tt, ctx') ∧ msg_blk ctx' = msg_blk ctx ∧
    msg_blk_index ctx' = 0 ∧ absorbed (xbox_sha1_iv ver first) [] 512 false ctx'.
Proof.
  intros Hb. unfold xbox_sha1_reset. erewrite run_bind by done.
  destruct (xbox_sha1_iv ver first) as [[[[a b] c] d] e']. eexists. split; [done|].
  split_and!; [done..|]. by apply absorbed_start.
Qed.

(** One pass: reset, input, result. *)
Lemma run_keyed_pass ver first data ctx :
  absorbed (xbox_sha1_iv ver first) [] 512 false ctx → 512 + 8 * blen data < 2 ^ 32 →
  ∃ ctx', (sha1_input (λ _, data) (blen data);; sha1_result) ctx
          = Ok (fips_sha1_from (xbox_sha1_iv ver first) 512 data, ctx') ∧ blen (msg_blk ctx') = 64.
Proof.
  intros H Hl. pose proof (blen_nonneg data) as Hnn.
  destruct (run_sha1_input _ _ data _ _ H) as (ctx1 & E1 & H1).
  rewrite u32_id in H1 by (unfold is_u32; lia).
  destruct (run_sha1_result _ _ 512 _ H1) as (ctx2 & E2 & Hb2); [done|done|].
  exists ctx2. split; [by rewrite (run_bind _ _ _ _ _ E1)|done].
Qed.

Lemma run_xbox_sha1_compute ver data ctx :
  blen (msg_blk ctx) = 64 → 512 + 8 * blen data < 2 ^ 32 →
  ∃ ctx', xbox_sha1_compute ver data (blen data) ctx = Ok (keyed_hash ver data, ctx') ∧
    blen (msg_blk ctx') = 64.
Proof.
  intros Hb Hl. set (inner := fips_sha1_from (xbox_sha1_iv ver true) 512 data).
  assert (blen inner = 20) as Hin by apply blen_fips.
  destruct (absorbed_reset ver true ctx Hb) as (ctx1 & E1 & _ & _ & H1).
  destruct (run_keyed_pass _ _ data _ H1 Hl) as (ctx2 & E2 & Hb2).
  set (ctx3 := ctx2 <| msg_blk := put 0 inner (msg_blk ctx2) |>).
  assert (blen (msg_blk ctx3) = 64) as Hb3 by (unfold ctx3; cbn -[put]; by rewrite blen_put).
  destruct (absorbed_reset ver false ctx3 Hb3) as (ctx4 & E4 & Hblk & Hi & H4).
  destruct (run_keyed_pass _ _ inner _ H4) as (ctx5 & E5 & Hb5); [by rewrite Hin|].
  exists ctx5. split; [|done]. unfold xbox_sha1_compute.
  rewrite (run_bind _ _ tt _ ctx1) by done.
  rewrite bind_assoc, (run_bind _ _ _ _ _ E2). fold inner.
  rewrite (run_bind _ _ tt _ ctx3) by (apply run_store_blk; lia).
  rewrite (run_bind _ _ tt _ ctx4) by done.
  assert (slice 0 20 (msg_blk ctx4) = inner) as Hs.
  { rewrite Hblk. apply slice_put_same; lia. }
  unfold mbind, M_bind in E5 |- *. rewrite sha1_input_alias by (by rewrite ?Hblk).
  rewrite Hs. rewrite Hin in E5. exact E5.
Qed.

(** ** The image *)

Record draw := { d_confounder : list Z; d_hdd_key : list Z; d_online_key : list Z;
                 d_mac : list Z; d_serial : list Z }.

(** A successful draw fills the buffer with bytes. *)
Class EepromHostLaws (H : EepromHost) : Prop := {
  random_fills : ∀ r n bs r', qcrypto_random_bytes r n = Some (bs, r') → blen bs = n ∧ bytes bs;
  fwrite_range : ∀ n, 0 ≤ n → 0 ≤ fwrite_count n ≤ n
}.

Definition digit (b : Z) : Z := u8 (48 + b mod 10).

(** The contents of the image before the checksums and the cipher. *)
Record filled (d : draw) (img : list Z) : Prop := {
  f_size : blen img = 256;
  f_bytes : bytes img;
  f_secret : slice 20 28 img = d_confounder d ++ d_hdd_key d ++ le_bytes 4 1;
  f_serial : slice 52 12 img = digit <$> d_serial d;
  f_mac : slice 64 6 img = [0x00; 0x50; 0xF2] ++ d_mac d;
  f_online : slice 72 16 img = d_online_key d;
  f_video : slice 88 4 img = le_bytes 4 0x00400100;
  f_user : slice 100 48 img = default_user_section ++ le_bytes 4 1
}.

(** The image as the sequence of writes to it. *)
Definition image (d : draw) : list Z :=
  let img := put 44 (le_bytes 4 1) (replicate 256 0) in
  let img := put 88 (le_bytes 4 0x00400100) img in
  let img := put 20 (d_confounder d) img in
  let img := put 28 (d_hdd_key d) img in
  let img := put 72 (d_online_key d) img in
  let img := put 64 [0x00; 0x50; 0xF2] img in
  let img := put 67 (d_mac d) img in
  let img := put 52 (d_serial d) img in
  let img := put 52 (digit <$> slice 52 12 img) img in
  let img := put 100 default_user_section img in
  put 144 (le_bytes 4 1) img.

Record drawn (d : draw) : Prop := {
  dr_confounder : blen (d_confounder d) = 8 ∧ bytes (d_confounder d);
  dr_hdd_key : blen (d_hdd_key d) = 16 ∧ bytes (d_hdd_key d);
  dr_online_key : blen (d_online_key d) = 16 ∧ bytes (d_online_key d);
  dr_mac : blen (d_mac d) = 3 ∧ bytes (d_mac d);
  dr_serial : blen (d_serial d) = 12 ∧ bytes (d_serial d)
}.

(** Reduce windows of nested writes. *)
Ltac windows :=
  repeat first
    [ rewrite slice_put_disjoint by (rewrite ?blen_put, ?blen_le_bytes; lia)
    | rewrite slice_put_same by (rewrite ?blen_put, ?blen_le_bytes; lia) ].

Lemma filled_image d : drawn d → filled d (image d).
Proof.
  intros [[Lc Bc] [Lk Bk] [Lo Bo] [Lm Bm] [Ls Bs]].
  assert (blen default_user_section = 44) as Lu by done.
  assert (blen [0x00; 0x50; 0xF2] = 3) as L3 by done.
  assert (blen (replicate 256 0) = 256) as L0 by done.
  assert (∀ v, blen (le_bytes 4 v) = 4) as L4 by (intros; apply blen_le_bytes).
  assert (blen (digit <$> d_serial d) = 12) as Ld by (unfold blen; by rewrite length_fmap).
  unfold image. cbv zeta. rewrite (slice_put_same 52 12) by (rewrite ?blen_put; lia).
  split.
  - by rewrite !blen_put.
  - assert (bytes (digit <$> d_serial d)) by (apply Forall_fmap, Forall_true; intros; apply u8_range).
    assert (bytes default_user_section) by (repeat (apply bytes_cons; [done|]); apply bytes_nil).
    assert (bytes [0x00; 0x50; 0xF2]) by (repeat (apply bytes_cons; [done|]); apply bytes_nil).
    auto 20 with bytes.
  - rewrite (slice_split 20 8 20) by done. change (20 + 8) with 28.
    rewrite (slice_split 28 16 4) by done. change (28 + 16) with 44. by windows.
  - by windows.
  - rewrite (slice_split 64 3 3) by done. change (64 + 3) with 67. by windows.
  - by windows.
  - by windows.
  - rewrite (slice_split 100 44 4) by done. change (100 + 44) with 144. by windows.
Qed.

Section image.
Context {H : EepromHost} {HL : EepromHostLaws H}.

Definition draws (r : rng) : option draw :=
  '(c, r) ← qcrypto_random_bytes r 8;
  '(k, r) ← qcrypto_random_bytes r 16;
  '(o, r) ← qcrypto_random_bytes r 16;
  '(m, r) ← qcrypto_random_bytes r 3;
  '(s, r) ← qcrypto_random_bytes r 12;
  Some {| d_confounder := c; d_hdd_key := k; d_online_key := o; d_mac := m; d_serial := s |}.

Lemma run_store off bs g :
  0 ≤ off → off + blen bs ≤ blen (e g) → store off bs g = Ok (tt, g <| e := put off bs (e g) |>).
Proof.
  intros. unfold store. rewrite (run_bind _ _ g _ g) by done.
  by rewrite (run_bind _ _ (put off bs (e g)) _ g) by (by apply run_wr).
Qed.
Lemma run_window off len g :
  0 ≤ off → 0 ≤ len → off + len ≤ blen (e g) → window off len g = Ok (slice off len (e g), g).
Proof. intros. unfold window. rewrite (run_bind _ _ g _ g) by done. by apply run_rd. Qed.
Lemma run_randomize off len g bs r :
  qcrypto_random_bytes (source g) len = Some (bs, r) → 0 ≤ off → off + len ≤ blen (e g) →
  randomize off len g = Ok (tt, g <| source := r |> <| e := put off bs (e g) |>).
Proof.
  intros Hr Ho Hl. destruct (random_fills _ _ _ _ Hr) as [Hb _]. unfold randomize.
  rewrite (run_bind _ _ g _ g) by done. rewrite Hr.
  rewrite (run_bind _ _ tt _ (g <| source := r |>)) by done.
  refine (run_store off bs (g <| source := r |>) Ho _). cbn. lia.
Qed.
Lemma run_randomize_fails off len g :
  qcrypto_random_bytes (source g) len = None → randomize off len g = Fault Exit.
Proof. intros Hr. unfold randomize. rewrite (run_bind _ _ g _ g) by done. by rewrite Hr. Qed.

Lemma run_serial_digits n g :
  (n ≤ 12)%nat → blen (e g) = 256 →
  forM (seqZ 0 (Z.of_nat n)) (λ i,
    g ← gets id;
    b ← rd8 (e g) (EE_serial + i);
    store (EE_serial + i) [u8 (48 + b mod 10)]) g
  = Ok (tt, g <| e := put 52 (digit <$> slice 52 (Z.of_nat n) (e g)) (e g) |>).
Proof.
  intros Hn He. induction n as [|n IH]; [by destruct g|].
  assert (blen (digit <$> slice 52 (Z.of_nat n) (e g)) = Z.of_nat n) as Hl.
  { unfold blen at 1. rewrite length_fmap, length_slice; lia. }
  rewrite seqZ_S, forM_app. unfold mbind at 1, M_bind at 1. rewrite IH by lia. cbn [forM].
  set (g1 := g <| e := _ |>). change (EE_serial + (0 + Z.of_nat n)) with (52 + Z.of_nat n).
  assert (blen (e g1) = 256) as H1 by (unfold g1; cbn -[put]; by rewrite blen_put).
  rewrite (run_bind _ _ tt _ (g1 <| e := put (52 + Z.of_nat n) [digit (byte_at (e g) (52 + Z.of_nat n))] (e g1) |>)).
  - unfold mret, M_ret. do 2 f_equal. unfold g1. cbn -[put slice]. unfold field_update. f_equal.
    rewrite <-Hl at 1. rewrite put_app by (rewrite ?Hl; change (blen [_]) with 1; lia). f_equal.
    replace (Z.of_nat (S n)) with (Z.of_nat n + 1) by lia. rewrite slice_split, fmap_app by lia. f_equal.
    rewrite slice_cons by lia. done.
  - rewrite (run_bind _ _ g1 _ g1) by done.
    rewrite (run_bind _ _ (byte_at (e g) (52 + Z.of_nat n)) _ g1).
    + apply run_store; [lia|]. change (blen [_]) with 1. lia.
    + rewrite run_rd8 by lia. unfold g1. cbn -[put]. rewrite byte_at_put_ne by lia. done.
Qed.

Lemma wp_store off bs (Q : () → generator → Prop) E g :
  0 ≤ off → off + blen bs ≤ blen (e g) →
  (∀ img, img = put off bs (e g) → Q tt (g <| e := img |>)) →
  wpE (store off bs) Q E g.
Proof. intros ?? HQ. unfold wpE. rewrite run_store by done. by apply HQ. Qed.
Lemma wp_randomize off len (Q : () → generator → Prop) (E : fault → Prop) g :
  0 ≤ off → off + len ≤ blen (e g) →
  (∀ bs r img, qcrypto_random_bytes (source g) len = Some (bs, r) → blen bs = len ∧ bytes bs →
     img = put off bs (e g) → Q tt (g <| source := r |> <| e := img |>)) →
  (qcrypto_random_bytes (source g) len = None → E Exit) →
  wpE (randomize off len) Q E g.
Proof.
  intros Ho Hl HQ HE. unfold wpE. destruct (qcrypto_random_bytes (source g) len) as [[bs r]|] eqn:Hr.
  - rewrite (run_randomize off len g bs r) by done. apply (HQ bs); [done| |done].
    by apply (random_fills _ _ _ _ Hr).
  - rewrite run_randomize_fails by done. by apply HE.
Qed.
Lemma wp_serial_digits (Q : () → generator → Prop) E g :
  blen (e g) = 256 →
  (∀ img, img = put 52 (digit <$> slice 52 12 (e g)) (e g) → Q tt (g <| e := img |>)) →
  wpE serial_digits Q E g.
Proof.
  intros He HQ. unfold wpE, serial_digits. change 12 with (Z.of_nat 12) at 1.
  rewrite run_serial_digits by done. by apply HQ.
Qed.

(** One write, draw or failure. *)
Ltac opened := cbn -[blen put replicate le_bytes slice default_user_section].
Ltac sizes := opened; subst; rewrite ?blen_put, ?blen_le_bytes; lia.
Ltac store_step :=
  first [apply wp_store; [done|sizes|] | apply wp_serial_digits; [sizes|]];
  let Himg := fresh "Himg" in intros ?img Himg; revert Himg; opened; intros Himg.
Ltac draw_step :=
  apply wpE_bind, wp_randomize;
  [ done | sizes
  | let Hr := fresh in let Himg := fresh "Himg" in intros ?bs ?r ?img Hr [?L ?B] Himg;
    revert Himg; revert Hr; opened; intros Hr Himg; rewrite Hr; clear Hr; opened
  | let Hr := fresh in intros Hr; revert Hr; opened; intros Hr; by rewrite Hr ].

Lemma fill_image_spec g :
  wpE fill_image (λ _ g', ∃ d, draws (source g) = Some d ∧ filled d (e g') ∧
                    sctx g' = sctx g ∧ rctx g' = rctx g ∧ file g' = file g)
    (λ f, f = Exit ∧ draws (source g) = None) g.
Proof.
  unfold fill_image, draws.
  assert (blen default_user_section = 44) as Lu by done.
  assert (blen [0x00; 0x50; 0xF2] = 3) as Lm by done.
  assert (blen (replicate 256 0) = 256) as L0 by done.
  assert (∀ v, blen (le_bytes 4 v) = 4) as L4 by (intros; apply blen_le_bytes).
  apply wpE_bind, wpE_modify. do 2 (apply wpE_bind; store_step).
  do 3 draw_step. apply wpE_bind; store_step. do 2 draw_step.
  do 2 (apply wpE_bind; store_step). store_step.
  set (d := Build_draw _ _ _ _ _). exists d. split_and!; try done.
  assert (drawn d) as Hd by done. cbn [e]. subst. by apply filled_image.
Qed.

(** The checks of the console's kernel: both checksums hold, and the section
    deciphered with the key derived from the stored hash has that hash. *)
Record accepted (ver : XboxEEPROMVersion) (secret img : list Z) : Prop := {
  ac_size : blen img = 256;
  ac_checksum : slice 48 4 img = le_bytes 4 (checksum (slice 52 44 img));
  ac_user_checksum : slice 96 4 img = le_bytes 4 (checksum (slice 100 92 img));
  ac_secret : rc4 (keyed_hash ver (slice 0 20 img)) (slice 20 28 img) = secret;
  ac_hash : keyed_hash ver secret = slice 0 20 img
}.

Definition with_checksums (img : list Z) : list Z :=
  put 96 (le_bytes 4 (checksum (slice 100 92 img))) (put 48 (le_bytes 4 (checksum (slice 52 44 img))) img).
Definition ciphered (ver : XboxEEPROMVersion) (img : list Z) : list Z :=
  let hash := keyed_hash ver (slice 20 28 img) in
  put 20 (rc4 (keyed_hash ver hash) (slice 20 28 img)) (put 0 hash img).

Lemma run_update_checksums g :
  blen (e g) = 256 → bytes (e g) →
  update_checksums g = Ok (tt, g <| e := with_checksums (e g) |>).
Proof.
  intros Hl Hb. unfold update_checksums.
  set (img1 := put 48 (le_bytes 4 (checksum (slice 52 44 (e g)))) (e g)).
  assert (blen img1 = 256) as Hl1 by (unfold img1; by rewrite blen_put).
  assert (slice 100 92 img1 = slice 100 92 (e g)) as Hs.
  { unfold img1. apply slice_put_disjoint; rewrite ?blen_le_bytes; lia. }
  rewrite (run_bind _ _ (slice 52 44 (e g)) _ g) by (apply run_window; lia).
  rewrite (run_bind _ _ (checksum (slice 52 44 (e g))) _ g).
  2:{ replace 44 with (blen (slice 52 44 (e g))) at 2 by (apply blen_slice; lia).
      apply run_xbox_eeprom_crc; [by apply bytes_slice|rewrite blen_slice; lia]. }
  rewrite (run_bind _ _ tt _ (g <| e := img1 |>)) by (apply run_store; rewrite ?blen_le_bytes; lia).
  rewrite (run_bind _ _ (slice 100 92 img1) _ (g <| e := img1 |>)) 
    by (apply run_window; [done|done|change (100 + 92 ≤ blen img1); lia]).
  rewrite (run_bind _ _ (checksum (slice 100 92 img1)) _ (g <| e := img1 |>)).
  2:{ replace 92 with (blen (slice 100 92 img1)) at 2 by (apply blen_slice; lia).
      apply run_xbox_eeprom_crc; [rewrite Hs; by apply bytes_slice|rewrite blen_slice; lia]. }
  rewrite run_store; [by rewrite Hs|done|].
  change (96 + blen (le_bytes 4 (checksum (slice 100 92 img1))) ≤ blen img1). rewrite blen_le_bytes. lia.
Qed.

Lemma run_on_sctx {A} (m : M SHA1Context A) a c g :
  m (sctx g) = Ok (a, c) → on_sctx m g = Ok (a, g <| sctx := c |>).
Proof. unfold on_sctx. by intros ->. Qed.
Lemma run_on_rctx {A} (m : M RC4Context A) a c g :
  m (rctx g) = Ok (a, c) → on_rctx m g = Ok (a, g <| rctx := c |>).
Proof. unfold on_rctx. by intros ->. Qed.

(** The keyed hash of a window of the image. *)
Lemma run_hash_window {B} ver off len g (k : list Z → M generator B) :
  0 ≤ off → 0 ≤ len < 2 ^ 20 → off + len ≤ blen (e g) → blen (msg_blk (sctx g)) = 64 →
  ∃ c, blen (msg_blk c) = 64 ∧
    (data ← window off len; hash ← on_sctx (xbox_sha1_compute ver data len); k hash) g =
    k (keyed_hash ver (slice off len (e g))) (g <| sctx := c |>).
Proof.
  intros Ho Hl Hb Hs. assert (blen (slice off len (e g)) = len) as Hw by (apply blen_slice; lia).
  destruct (run_xbox_sha1_compute ver (slice off len (e g)) (sctx g)) as (c & E & Hc); [done|lia|].
  exists c. split; [done|]. rewrite (run_bind _ _ (slice off len (e g)) _ g) by (apply run_window; lia).
  rewrite Hw in E. by rewrite (run_bind _ _ _ _ _ (run_on_sctx _ _ _ _ E)).
Qed.

Lemma run_encrypt_section ver g :
  blen (e g) = 256 → blen (msg_blk (sctx g)) = 64 → blen (rctx g) = 256 →
  ∃ g', encrypt_section ver g = Ok (tt, g') ∧ e g' = ciphered ver (e g) ∧ file g' = file g.
Proof.
  intros Hl Hs Hr. unfold encrypt_section.
  set (hash := keyed_hash ver (slice 20 28 (e g))).
  assert (blen hash = 20) as Hh by apply blen_fips.
  destruct (run_hash_window ver 20 28 g (λ hash, store 0 hash;; data ← window 0 20;
    seed ← on_sctx (xbox_sha1_compute ver data 20); on_rctx (rc4_init seed 20);;
    data ← window 20 28; data ← on_rctx (rc4_crypt data 28); store 20 data)) as (c & Hc & ->); [lia..|].
  fold hash. set (g1 := g <| sctx := c |> <| e := put 0 hash (e g) |>).
  assert (blen (e g1) = 256) as Hl1 by (unfold g1; cbn -[put blen]; by rewrite blen_put).
  rewrite (run_bind _ _ tt _ g1) by (apply run_store; [done|cbn -[blen]; lia]).
  destruct (run_hash_window ver 0 20 g1 (λ seed, on_rctx (rc4_init seed 20);;
    data ← window 20 28; data ← on_rctx (rc4_crypt data 28); store 20 data)) as (c' & Hc' & ->); [lia|lia|lia|done|].
  assert (slice 0 20 (e g1) = hash) as -> by (apply slice_put_same; lia).
  set (seed := keyed_hash ver hash). assert (blen seed = 20) as Hseed by apply blen_fips.
  destruct (run_rc4_init seed (rctx g)) as [E1 P1]; [lia|done|]. rewrite Hseed in E1.
  set (g2 := g1 <| sctx := c' |> <| rctx := rc4_permutation seed |>).
  rewrite (run_bind _ _ tt _ g2) by (by apply run_on_rctx).
  assert (slice 20 28 (e g2) = slice 20 28 (e g)) as Hw by (apply slice_put_disjoint; lia).
  rewrite (run_bind _ _ (slice 20 28 (e g)) _ g2) 
    by (rewrite <-Hw; apply run_window; [done|done|change (20 + 28 ≤ blen (e g1)); lia]).
  destruct (run_rc4 seed (slice 20 28 (e g)) (rctx g)) as (s' & E2 & _); [lia|done|].
  rewrite Hseed, blen_slice, (run_bind _ _ _ _ _ E1) in E2 by lia.
  rewrite (run_bind _ _ (rc4 seed (slice 20 28 (e g))) _ (g2 <| rctx := s' |>)) by (by apply run_on_rctx).
  exists (g2 <| rctx := s' |> <| e := put 20 (rc4 seed (slice 20 28 (e g))) (e g1) |>).
  split; [|split; reflexivity].
  refine (run_store _ _ (g2 <| rctx := s' |>) _ _); [done|].
  unfold blen at 1. rewrite length_rc4. fold (blen (slice 20 28 (e g))). rewrite blen_slice by lia.
  change (e (g2 <| rctx := s' |>)) with (e g1). lia.
Qed.

Lemma accepted_image ver d img :
  filled d img → accepted ver (d_confounder d ++ d_hdd_key d ++ le_bytes 4 1) (ciphered ver (with_checksums img)).
Proof.
  intros [Hl Hb Hsec _ _ _ _ _]. unfold ciphered. cbv zeta. rewrite <-Hsec.
  assert (slice 20 28 (with_checksums img) = slice 20 28 img) as ->.
  { unfold with_checksums. by windows. }
  set (hash := keyed_hash ver (slice 20 28 img)). assert (blen hash = 20) as Hh by apply blen_fips.
  set (c := rc4 _ _). assert (blen c = 28) as Hc.
  { unfold c, blen. rewrite length_rc4. fold (blen (slice 20 28 img)). by rewrite blen_slice by lia. }
  unfold with_checksums. split.
  - by rewrite !blen_put.
  - by windows.
  - by windows.
  - windows. apply rc4_involutive.
  - by windows.
Qed.

Lemma kept_windows ver img off len :
  blen img = 256 → 52 ≤ off → 0 ≤ len → off + len ≤ 96 ∨ 100 ≤ off →
  slice off len (ciphered ver (with_checksums img)) = slice off len img.
Proof.
  intros Hl Ho Hn Hd. unfold ciphered. cbv zeta.
  set (hash := keyed_hash ver (slice 20 28 (with_checksums img))).
  assert (blen hash = 20) as Hh by apply blen_fips.
  set (c := rc4 _ _). assert (blen c = 28) as Hc.
  { unfold c, blen. rewrite length_rc4. fold (blen (slice 20 28 (with_checksums img))).
    rewrite blen_slice; unfold with_checksums; rewrite ?blen_put; lia. }
  unfold with_checksums. by windows.
Qed.

(** ** Property *)

(** C14. Generating an EEPROM either ends the process because the random source
    failed, with no file touched, or makes an image that the console accepts: both
    checksums hold, and the security section deciphers, with the key derived from
    the stored hash, to the drawn confounder, disk key and region with that hash.
    The serial number is decimal digits, the MAC address has the vendor prefix, and
    the function reports success exactly when the file opened and took all bytes. *)
Theorem xbox_eeprom_generate_accepted ver g :
  blen (msg_blk (sctx g)) = 64 → blen (rctx g) = 256 →
  match draws (source g) with
  | None => xbox_eeprom_generate ver g = Fault Exit
  | Some d =>
      ∃ img g', xbox_eeprom_generate ver g = Ok (fopen_ok && (fwrite_count 256 =? 256), g') ∧
        file g' = (if fopen_ok then Some (take (Z.to_nat (fwrite_count 256)) img) else file g) ∧
        accepted ver (d_confounder d ++ d_hdd_key d ++ le_bytes 4 1) img ∧
        slice 52 12 img = digit <$> d_serial d ∧
        slice 64 6 img = [0x00; 0x50; 0xF2] ++ d_mac d ∧
        slice 72 16 img = d_online_key d ∧
        slice 88 4 img = le_bytes 4 0x00400100 ∧
        slice 100 48 img = default_user_section ++ le_bytes 4 1
  end.
Proof.
  intros Hs Hr. unfold xbox_eeprom_generate. pose proof (fill_image_spec g) as Hf. unfold wpE in Hf.
  destruct (fill_image g) as [[[] g1]|f] eqn:Ef.
  - destruct Hf as (d & -> & Hd & Hs1 & Hr1 & Hf1). pose proof Hd as [Hl Hb _ Hse Hm Ho Hv Hu].
    destruct (run_encrypt_section ver (g1 <| e := with_checksums (e g1) |>)) as (g2 & E2 & He2 & Hf2).
    { cbn -[put]. unfold with_checksums. by rewrite !blen_put. } { by rewrite <-Hs, <-Hs1. } { by rewrite <-Hr, <-Hr1. }
    exists (ciphered ver (with_checksums (e g1))).
    rewrite (run_bind _ _ tt _ g1) by done.
    rewrite (run_bind _ _ tt _ _ (run_update_checksums g1 Hl Hb)).
    rewrite (run_bind _ _ tt _ g2) by done. unfold save_file.
    rewrite !kept_windows by (done || lia).
    destruct fopen_ok; cbn [negb andb]; eexists; (split; [done|]); split_and!; try done.
    + cbn -[put]. by rewrite He2.
    + by apply accepted_image.
    + rewrite Hf2. exact Hf1.
    + by apply accepted_image.
  - destruct Hf as [-> ->]. by rewrite (run_bind_fault _ _ _ _ Ef).
Qed.
End image.

(** A host whose draws count upwards and whose file takes everything. *)
Definition counting_host : EepromHost := {|
  rng := Z;
  qcrypto_random_bytes := λ r n, if n <? 0 then None else Some (u8 <$> seqZ r n, r + n);
  fopen_ok := true;
  fwrite_count := λ n, n
|}.
#[global] Instance counting_host_laws : EepromHostLaws counting_host.
Proof.
  split; [|cbn; lia]. intros r n bs r'. cbn. destruct (Z.ltb_spec n 0); [done|]. intros [= <- _].
  split; [unfold blen; rewrite length_fmap, length_seqZ; lia|].
  apply Forall_fmap, Forall_true. intros x. apply u8_range.
Qed.
Definition demo_generator : generator (H := counting_host) :=
  {| e := []; rctx := replicate 256 0; source := (0 : rng (EepromHost := counting_host)); file := None;
     sctx := {| intermediate := []; msg_blk := replicate 64 0; msg_blk_index := 0; msg_length := 0;
                computed := false |} |}.

Lemma xbox_eeprom_generate_accepted_witness :
  ∃ img g', xbox_eeprom_generate XBOX_EEPROM_VERSION_R1 demo_generator = Ok (true, g') ∧
    file g' = Some (take 256 img) ∧
    accepted XBOX_EEPROM_VERSION_R1 (seqZ 0 24 ++ [1; 0; 0; 0]) img ∧
    slice 64 6 img = [0x00; 0x50; 0xF2; 40; 41; 42].
Proof.
  pose proof (xbox_eeprom_generate_accepted XBOX_EEPROM_VERSION_R1 demo_generator
    eq_refl eq_refl) as Hw.
  assert (draws (source demo_generator) = Some
    {| d_confounder := seqZ 0 8; d_hdd_key := seqZ 8 16; d_online_key := seqZ 24 16;
       d_mac := [40; 41; 42]; d_serial := seqZ 43 12 |}) as Hd by reflexivity.
  rewrite Hd in Hw. destruct Hw as (img & g' & E & Hf & Ha & _ & Hm & _).
  exists img, g'. exact (conj E (conj Hf (conj Ha Hm))).
Defined.
