(* ===== verification/Lpc47m157.v ===== *)
(** * Lpc47m157: the Super I/O chip of hw/xbox/lpc47m157.c

    The chip is programmed through an index and a data port while it is in
    configuration mode; leaving the mode moves the two serial ports to where their
    registers say.  The I/O regions of the serial ports are modelled as far as the
    chip uses them: a region is in the port space at an address or it is not, and
    adding a region twice or removing one that is not there fails an assertion
    (system/memory.c, hw/isa/isa-bus.c).  The serial cores behind the regions are not
    modelled. *)

From S2P Require Import Prelude.

(** ** Definitions *)

Abbreviation MAX_DEVICE := 0xC (only parsing).
Abbreviation DEVICE_SERIAL_PORT_1 := 0x4 (only parsing).
Abbreviation CONFIG_PORT := 0x00 (only parsing).
Abbreviation INDEX_PORT := CONFIG_PORT (only parsing).
Abbreviation DATA_PORT := 0x01 (only parsing).
Abbreviation ENTER_CONFIG_KEY := 0x55 (only parsing).
Abbreviation EXIT_CONFIG_KEY := 0xAA (only parsing).
Abbreviation MAX_CONFIG_REG := 0x30 (only parsing).
Abbreviation MAX_DEVICE_REGS := 0xFF (only parsing).
Abbreviation CONFIG_DEVICE_NUMBER := 0x07 (only parsing).
Abbreviation CONFIG_PORT_LOW := 0x26 (only parsing).
Abbreviation CONFIG_PORT_HIGH := 0x27 (only parsing).
Abbreviation CONFIG_DEVICE_ACTIVATE := 0x30 (only parsing).
Abbreviation CONFIG_DEVICE_BASE_ADDRESS_HIGH := 0x60 (only parsing).
Abbreviation CONFIG_DEVICE_BASE_ADDRESS_LOW := 0x61 (only parsing).
Abbreviation CONFIG_DEVICE_INTERRUPT := 0x70 (only parsing).
Abbreviation ISA_NUM_IRQS := 16 (only parsing).

(** A region: whether the I/O port space contains it, and its address there. *)
Record MemoryRegion := { container : bool; mr_addr : Z }.

Record SerialState := { io : MemoryRegion; ss_irq : option Z }.
#[global] Instance eta_SerialState : EtaRecord SerialState := λ s,
  {| io := io s; ss_irq := ss_irq s |}.

Record LPC47M157State_Serial := { active : bool; iobase : Z; irq : Z; state : SerialState }.
#[global] Instance eta_Serial : EtaRecord LPC47M157State_Serial := λ s,
  {| active := active s; iobase := iobase s; irq := irq s; state := state s |}.

Record LPC47M157State := {
  lpc_io : MemoryRegion;
  configuration_mode : bool;
  selected_reg : Z;               (* uint32_t *)
  config_regs : list Z;           (* uint8_t[MAX_CONFIG_REG] *)
  device_regs : list (list Z);    (* uint8_t[MAX_DEVICE][MAX_DEVICE_REGS] *)
  serial : list LPC47M157State_Serial  (* [2] *)
}.
#[global] Instance eta_LPC47M157State : EtaRecord LPC47M157State := λ s,
  {| lpc_io := lpc_io s; configuration_mode := configuration_mode s; selected_reg := selected_reg s;
     config_regs := config_regs s; device_regs := device_regs s; serial := serial s |}.

Record ISALPC47M157State := { sysopt : bool; isa_iobase : Z; lpc : LPC47M157State }.
#[global] Instance eta_ISALPC : EtaRecord ISALPC47M157State := λ s,
  {| sysopt := sysopt s; isa_iobase := isa_iobase s; lpc := lpc s |}.

Section regions.
Context {S : Type}.

(** A zeroed region: outside the port space. *)
Definition memory_region_init_io : MemoryRegion := {| container := false; mr_addr := 0 |}.
Definition isa_register_ioport (mr : MemoryRegion) (start : Z) : M S MemoryRegion :=
  assertM (negb (container mr));; mret {| container := true; mr_addr := start |}.
Definition isa_unregister_ioport (mr : MemoryRegion) : M S MemoryRegion :=
  assertM (container mr);; mret {| container := false; mr_addr := mr_addr mr |}.
Definition isa_get_irq (isairq : Z) : M S Z :=
  assertM (isairq <? ISA_NUM_IRQS);; mret isairq.

(** An element of an array of structures or rows. *)
Definition elt {A} (l : list A) (i : Z) : M S A :=
  match (if i <? 0 then None else l !! Z.to_nat i) with
  | Some x => mret x
  | None => raise OutOfBounds
  end.
End regions.

(** Take a serial port down if it is not where it should be, and up if it should be. *)
Definition settle (ser : LPC47M157State_Serial) (base line act : Z)
    : M LPC47M157State LPC47M157State_Serial :=
  ser ← (if active ser && (negb (truthy act) || negb (iobase ser =? base) || negb (irq ser =? line)) then
           mr ← isa_unregister_ioport (io (state ser));
           mret (ser <| state := {| io := mr; ss_irq := None |} |> <| active := false |>)
         else mret ser);
  if negb (active ser) && truthy act then
    q ← (if negb (line =? 0) then q ← isa_get_irq line; mret (Some q) else mret None);
    mr ← isa_register_ioport memory_region_init_io base;
    mret (ser <| state := {| io := mr; ss_irq := q |} |> <| iobase := base |> <| irq := line |>
              <| active := true |>)
  else mret ser.

(** One iteration of the loop of [update_devices]. *)
Definition update_serial (i : Z) : M LPC47M157State unit :=
  s ← gets id;
  ser ← elt (serial s) i;
  dev ← elt (device_regs s) (DEVICE_SERIAL_PORT_1 + i);
  hi ← rd8 dev CONFIG_DEVICE_BASE_ADDRESS_HIGH;
  lo ← rd8 dev CONFIG_DEVICE_BASE_ADDRESS_LOW;
  let base := u16 ((hi <<< 8) ||| lo) in
  int ← rd8 dev CONFIG_DEVICE_INTERRUPT;
  let line := int &&& 0x0f in
  act ← rd8 dev CONFIG_DEVICE_ACTIVATE;
  ser ← settle ser base line act;
  modify (λ s, s <| serial ::= <[Z.to_nat i := ser]> |>).

Definition update_devices : M LPC47M157State unit := forM [0; 1] update_serial.

Definition lpc47m157_io_write (addr val : Z) : M LPC47M157State unit :=
  s ← gets id;
  if (addr =? CONFIG_PORT) && ((val =? ENTER_CONFIG_KEY) || (val =? EXIT_CONFIG_KEY)) then
    if val =? ENTER_CONFIG_KEY then
      modify (λ s, s <| configuration_mode := true |>)
    else if val =? EXIT_CONFIG_KEY then
      whenM (configuration_mode s) update_devices;;
      modify (λ s, s <| configuration_mode := false |>)
    else mret tt
  else if configuration_mode s then
    if addr =? INDEX_PORT then
      modify (λ s, s <| selected_reg := u32 val |>)
    else if addr =? DATA_PORT then
      if selected_reg s <? MAX_CONFIG_REG then
        regs ← wr (config_regs s) (selected_reg s) [u8 val];
        modify (λ s, s <| config_regs := regs |>)
      else
        number ← rd8 (config_regs s) CONFIG_DEVICE_NUMBER;
        assertM (number <? MAX_DEVICE);;
        dev ← elt (device_regs s) number;
        dev ← wr dev (selected_reg s) [u8 val];
        modify (λ s, s <| device_regs ::= <[Z.to_nat number := dev]> |>)
    else assertM false
  else mret tt.

Definition lpc47m157_io_read (addr : Z) : M LPC47M157State Z :=
  s ← gets id;
  if configuration_mode s then
    if addr =? DATA_PORT then
      if selected_reg s <? MAX_CONFIG_REG then
        rd8 (config_regs s) (selected_reg s)
      else
        number ← rd8 (config_regs s) CONFIG_DEVICE_NUMBER;
        assertM (number <? MAX_DEVICE);;
        dev ← elt (device_regs s) number;
        rd8 dev (selected_reg s)
    else if negb (addr =? INDEX_PORT) then assertM false;; mret 0
    else mret 0
  else mret 0.

(** The registers and the chip's own region; a realized device starts zeroed. *)
Definition lpc47m157_realize : M ISALPC47M157State unit :=
  modify (λ isa, isa <| isa_iobase := if sysopt isa then 0x4e else 0x2e |>);;
  isa ← gets id;
  regs ← wr (config_regs (lpc isa)) CONFIG_PORT_LOW [isa_iobase isa &&& 0xff];
  regs ← wr regs CONFIG_PORT_HIGH [isa_iobase isa >>> 8];
  mr ← isa_register_ioport memory_region_init_io (isa_iobase isa);
  modify (λ isa, isa <| lpc ::= λ s, s <| config_regs := regs |> <| lpc_io := mr |> |>).

Definition lpc47m157_post_load : M LPC47M157State Z := update_devices;; mret 0.

(** Accesses by the guest to the two ports. *)
Inductive port_access := PortWrite (addr val : Z) | PortRead (addr : Z).
Definition lpc_access (a : port_access) : M LPC47M157State Z :=
  match a with
  | PortWrite addr val => lpc47m157_io_write addr val;; mret 0
  | PortRead addr => lpc47m157_io_read addr
  end.
Fixpoint lpc_accesses (l : list port_access) : M LPC47M157State (list Z) :=
  match l with
  | [] => mret []
  | a :: l => v ← lpc_access a; vs ← lpc_accesses l; mret (v :: vs)
  end.

(** ** Well-formed states *)

(** Where a serial port answers: its address and interrupt line. *)
Definition answers (ser : LPC47M157State_Serial) : option (Z * option Z) :=
  if container (io (state ser)) then Some (mr_addr (io (state ser)), ss_irq (state ser)) else None.

(** Where the registers of a device ask for it. *)
Definition line_of (row : list Z) : option Z :=
  let line := byte_at row 0x70 &&& 0x0f in if line =? 0 then None else Some line.
Definition asked (row : list Z) : option (Z * option Z) :=
  if truthy (byte_at row 0x30)
  then Some (u16 ((byte_at row 0x60 <<< 8) ||| byte_at row 0x61), line_of row) else None.

Record wf_serial (ser : LPC47M157State_Serial) : Prop := {
  ws_container : container (io (state ser)) = active ser;
  ws_addr : active ser = true → mr_addr (io (state ser)) = iobase ser;
  ws_irq : active ser = true → ss_irq (state ser) = if irq ser =? 0 then None else Some (irq ser);
  ws_base : is_u16 (iobase ser);
  ws_line : 0 ≤ irq ser < ISA_NUM_IRQS
}.
Definition wf_row (row : list Z) : Prop := blen row = MAX_DEVICE_REGS ∧ bytes row.

Record wf_lpc (s : LPC47M157State) : Prop := {
  wl_selected : is_u32 (selected_reg s);
  wl_config : blen (config_regs s) = MAX_CONFIG_REG ∧ bytes (config_regs s);
  wl_rows : length (device_regs s) = 12%nat;
  wl_row : Forall wf_row (device_regs s);
  wl_serials : length (serial s) = 2%nat;
  wl_serial : Forall wf_serial (serial s)
}.

Lemma run_elt {S A} (l : list A) i x (s : S) :
  0 ≤ i → l !! Z.to_nat i = Some x → elt l i s = Ok (x, s).
Proof. intros Hi Hx. unfold elt. destruct (Z.ltb_spec i 0); [lia|]. by rewrite Hx. Qed.

(** ** Moving the serial ports *)

Lemma run_settle ser base line act s :
  wf_serial ser → is_u16 base → 0 ≤ line < 16 →
  ∃ ser', settle ser base line act s = Ok (ser', s) ∧ wf_serial ser' ∧
    answers ser' = if truthy act then Some (base, if line =? 0 then None else Some line) else None.
Proof.
  intros W Hbase Hline. pose proof W as [Hc Ha Hi Hb Hl]. unfold settle, answers.
  assert (∀ ser1, wf_serial ser1 → active ser1 = false → truthy act = true →
    ∃ ser', (q ← (if negb (line =? 0) then q ← isa_get_irq line; mret (Some q) else mret None);
             mr ← isa_register_ioport memory_region_init_io base;
             mret (ser1 <| state := {| io := mr; ss_irq := q |} |> <| iobase := base |> <| irq := line |>
                        <| active := true |>)) s = Ok (ser', s) ∧ wf_serial ser' ∧
      (if container (io (state ser')) then Some (mr_addr (io (state ser')), ss_irq (state ser')) else None)
      = Some (base, if line =? 0 then None else Some line)) as Hon.
  { intros ser1 W1 A1 T. eexists. split.
    - rewrite (run_bind _ _ (if line =? 0 then None else Some line) _ s); [done|].
      destruct (Z.eqb_spec line 0); cbn [negb]; [done|].
      rewrite (run_bind _ _ line _ s); [done|]. unfold isa_get_irq.
      by rewrite (run_bind _ _ tt _ s) by (apply run_assert; lia).
    - split; [split; cbn; done|done]. }
  destruct (active ser) eqn:A; cbn [andb].
  - destruct (truthy act) eqn:T; cbn [negb orb].
    + destruct (negb (iobase ser =? base) || negb (irq ser =? line)) eqn:C.
      * rewrite (run_bind _ _ (ser <| state := {| io := {| container := false; mr_addr := mr_addr (io (state ser)) |};
                                                   ss_irq := None |} |> <| active := false |>) _ s).
        2:{ unfold isa_unregister_ioport. by rewrite Hc. }
        cbn [active negb andb]. apply Hon; [|done..]. by split.
      * rewrite (run_bind _ _ ser _ s) by done. rewrite A. cbn [negb andb].
        exists ser. split; [done|]. split; [done|].
        rewrite Hc, Ha, Hi by done. apply orb_false_iff in C as [C1 C2].
        apply negb_false_iff, Z.eqb_eq in C1. apply negb_false_iff, Z.eqb_eq in C2. by subst.
    + rewrite (run_bind _ _ (ser <| state := {| io := {| container := false; mr_addr := mr_addr (io (state ser)) |};
                                                 ss_irq := None |} |> <| active := false |>) _ s).
      2:{ unfold isa_unregister_ioport. by rewrite Hc. }
      eexists. split; [done|]. by split; [split|].
  - rewrite (run_bind _ _ ser _ s) by done. rewrite A. cbn [negb andb].
    destruct (truthy act) eqn:T; [by apply Hon|].
    exists ser. split; [done|]. split; [done|]. by rewrite Hc.
Qed.

Lemma wf_row_bytes row i : wf_row row → is_u8 (byte_at row i).
Proof. intros [_ Hb]. by apply bytes_byte_at. Qed.

Lemma run_update_serial s i row :
  wf_lpc s → 0 ≤ i < 2 → device_regs s !! Z.to_nat (4 + i) = Some row →
  ∃ ser', update_serial i s = Ok (tt, s <| serial ::= <[Z.to_nat i := ser']> |>) ∧
    wf_serial ser' ∧ answers ser' = asked row.
Proof.
  intros W Hi Hrow.
  assert (wf_row row) as Wr by (eapply Forall_lookup_1; [apply W|done]).
  destruct (lookup_lt_is_Some_2 (serial s) (Z.to_nat i)) as [ser Hser]; [rewrite (wl_serials _ W); lia|].
  assert (wf_serial ser) as Ws by (eapply Forall_lookup_1; [apply W|done]).
  destruct (run_settle ser (u16 ((byte_at row 0x60 <<< 8) ||| byte_at row 0x61)) (byte_at row 0x70 &&& 0x0f)
    (byte_at row 0x30) s) as (ser' & E & Ws' & Ha); [done|apply u16_range|apply (land_bound_r 4); lia|].
  exists ser'. split; [|done]. destruct Wr as [Hl _]. unfold update_serial.
  rewrite (run_bind _ _ s _ s) by done.
  rewrite (run_bind _ _ ser _ s) by (apply run_elt; [lia|done]).
  rewrite (run_bind _ _ row _ s) by (apply run_elt; [lia|done]).
  do 4 (erewrite run_bind by (apply run_rd8; rewrite Hl; done)). cbv zeta.
  by rewrite (run_bind _ _ _ _ _ E).
Qed.

Lemma run_update_devices s row4 row5 :
  wf_lpc s → device_regs s !! 4%nat = Some row4 → device_regs s !! 5%nat = Some row5 →
  ∃ l, update_devices s = Ok (tt, s <| serial := l |>) ∧ wf_lpc (s <| serial := l |>) ∧
    answers <$> l = [asked row4; asked row5].
Proof.
  intros W H4 H5.
  destruct (run_update_serial s 0 row4 W) as (ser0 & E0 & W0 & A0); [done|done|].
  set (s1 := s <| serial ::= <[Z.to_nat 0 := ser0]> |>) in *.
  assert (wf_lpc s1) as W1.
  { destruct W. split; cbn; try done; [by rewrite length_insert|]. by apply Forall_insert. }
  destruct (run_update_serial s1 1 row5 W1) as (ser1 & E1 & W1' & A1); [done|done|].
  destruct (serial s) as [|x [|y [|z l]]] eqn:Hs; try (by pose proof (wl_serials _ W) as Hl; rewrite Hs in Hl).
  exists [ser0; ser1]. split_and!.
  - unfold update_devices. cbn [forM]. rewrite (run_bind _ _ tt _ s1) by done.
    rewrite (run_bind _ _ _ _ _ E1). unfold mret, M_ret. do 2 f_equal. unfold s1, field_update. cbn.
    by rewrite Hs.
  - destruct W. split; cbn; try done. apply Forall_cons. split; [done|]. by apply Forall_singleton.
  - cbn. by rewrite A0, A1.
Qed.

(** ** Accesses *)

(** The fault that stops an access, if any: a data access to a device register with a
    device number the chip does not have, or with the one index past the registers
    of a device. *)
Definition stops (s : LPC47M157State) (a : port_access) : option fault :=
  let addr := match a with PortWrite addr _ => addr | PortRead addr => addr end in
  if configuration_mode s && (addr =? DATA_PORT) && (MAX_CONFIG_REG <=? selected_reg s) then
    if MAX_DEVICE <=? byte_at (config_regs s) CONFIG_DEVICE_NUMBER then Some AssertFailed
    else if MAX_DEVICE_REGS <=? selected_reg s then Some OutOfBounds else None
  else None.

(** The accesses the bus lets through: one byte to one of the two ports. *)
Definition port_ok (a : port_access) : Prop :=
  match a with
  | PortWrite addr val => (addr = 0 ∨ addr = 1) ∧ is_u8 val
  | PortRead addr => addr = 0 ∨ addr = 1
  end.

Lemma rows_lookup s n :
  wf_lpc s → 0 ≤ n < 12 → ∃ row, device_regs s !! Z.to_nat n = Some row ∧ wf_row row.
Proof.
  intros W Hn. destruct (lookup_lt_is_Some_2 (device_regs s) (Z.to_nat n)) as [row Hr].
  { rewrite (wl_rows _ W). lia. }
  exists row. split; [done|]. eapply Forall_lookup_1; [apply W|done].
Qed.

(** A device register access: the row of the selected device, or a fault. *)
Lemma run_device_row {B} s (k : Z → list Z → M LPC47M157State B) :
  wf_lpc s →
  (number ← rd8 (config_regs s) CONFIG_DEVICE_NUMBER; assertM (number <? MAX_DEVICE);;
   dev ← elt (device_regs s) number; k number dev) s =
  if MAX_DEVICE <=? byte_at (config_regs s) CONFIG_DEVICE_NUMBER then Fault AssertFailed
  else k (byte_at (config_regs s) CONFIG_DEVICE_NUMBER)
         (device_regs s !!! Z.to_nat (byte_at (config_regs s) CONFIG_DEVICE_NUMBER)) s.
Proof.
  intros W. destruct (wl_config _ W) as [Hl Hb].
  pose proof (bytes_byte_at (config_regs s) CONFIG_DEVICE_NUMBER Hb) as Hn. unfold is_u8 in Hn.
  rewrite (run_bind _ _ (byte_at (config_regs s) CONFIG_DEVICE_NUMBER) _ s)
    by (apply run_rd8; rewrite Hl; done).
  set (n := byte_at _ _) in *. destruct (Z.leb_spec 12 n).
  - apply run_bind_fault. unfold assertM. by destruct (Z.ltb_spec n 12); [lia|].
  - rewrite (run_bind _ _ tt _ s) by (apply run_assert; lia).
    destruct (rows_lookup s n W) as (row & Hr & _); [lia|].
    rewrite (run_bind _ _ row _ s) by (apply run_elt; [lia|done]).
    by rewrite (list_lookup_total_correct _ _ _ Hr).
Qed.

Lemma lpc_write_spec addr val s :
  wf_lpc s → addr = 0 ∨ addr = 1 → is_u8 val →
  match stops s (PortWrite addr val) with
  | Some f => lpc47m157_io_write addr val s = Fault f
  | None => ∃ s', lpc47m157_io_write addr val s = Ok (tt, s') ∧ wf_lpc s'
  end.
Proof.
  intros W Ha Hv. unfold lpc47m157_io_write, stops.
  rewrite (run_bind _ _ s _ s) by done.
  destruct Ha as [-> | ->]; cbn [Z.eqb Pos.eqb andb].
  - rewrite andb_false_r. cbn [andb].
    destruct (Z.eqb_spec val 85) as [->|]; cbn [orb].
    { eexists. split; [done|]. by destruct W. }
    destruct (Z.eqb_spec val 170) as [->|].
    + destruct (configuration_mode s) eqn:Hm; cbn [whenM].
      * destruct (rows_lookup s 4 W) as (row4 & H4 & _); [done|].
        destruct (rows_lookup s 5 W) as (row5 & H5 & _); [done|].
        destruct (run_update_devices s row4 row5 W H4 H5) as (l & E & W' & _).
        rewrite (run_bind _ _ _ _ _ E). eexists. split; [done|]. by destruct W'.
      * eexists. split; [done|]. by destruct W.
    + destruct (configuration_mode s); [|by exists s].
      eexists. split; [done|]. destruct W. split; try done. apply u32_range.
  - destruct (configuration_mode s); cbn [andb]; [|by exists s].
    pose proof (wl_config _ W) as [Hl Hb].
    pose proof (wl_selected _ W) as Hs. unfold is_u32 in Hs.
    destruct (Z.leb_spec 48 (selected_reg s)), (Z.ltb_spec (selected_reg s) 48); try lia.
    + rewrite (run_device_row s (λ number dev, dev ← wr dev (selected_reg s) [u8 val];
        modify (λ s, s <| device_regs ::= <[Z.to_nat number := dev]> |>))) by done.
      set (n := byte_at (config_regs s) 7).
      destruct (Z.leb_spec 12 n); [done|].
      assert (0 ≤ n) by (apply (bytes_byte_at (config_regs s) 7 Hb)).
      destruct (rows_lookup s n W) as (row & Hr & [Hrl Hrb]); [lia|].
      rewrite (list_lookup_total_correct _ _ _ Hr).
      destruct (Z.leb_spec 255 (selected_reg s)).
      * apply run_bind_fault. unfold wr. apply run_bind_fault. unfold inBounds.
        change (blen [_]) with 1. by destruct (Z.leb_spec (selected_reg s + 1) (blen row)); [lia|rewrite andb_false_r].
      * rewrite (run_bind _ _ (put (selected_reg s) [u8 val] row) _ s)
          by (apply run_wr; change (blen [_]) with 1; lia).
        eexists. split; [done|]. destruct W. split; cbn -[put]; try done; [by rewrite length_insert|].
        apply Forall_insert; [done|]. split; [by rewrite blen_put|]. auto with bytes.
    + rewrite (run_bind _ _ (put (selected_reg s) [u8 val] (config_regs s)) _ s)
        by (apply run_wr; change (blen [_]) with 1; lia).
      eexists. split; [done|]. destruct W. split; cbn -[put]; try done.
      split; [by rewrite blen_put|]. auto with bytes.
Qed.

Lemma lpc_read_spec addr s :
  wf_lpc s → addr = 0 ∨ addr = 1 →
  match stops s (PortRead addr) with
  | Some f => lpc47m157_io_read addr s = Fault f
  | None => ∃ v, lpc47m157_io_read addr s = Ok (v, s) ∧ is_u8 v
  end.
Proof.
  intros W Ha. unfold lpc47m157_io_read, stops.
  rewrite (run_bind _ _ s _ s) by done.
  destruct (configuration_mode s); cbn [andb]; [|by exists 0].
  destruct Ha as [-> | ->]; cbn [Z.eqb Pos.eqb andb negb]; [by exists 0|].
  pose proof (wl_config _ W) as [Hl Hb].
  pose proof (wl_selected _ W) as Hs. unfold is_u32 in Hs.
  destruct (Z.leb_spec 48 (selected_reg s)), (Z.ltb_spec (selected_reg s) 48); try lia.
  - rewrite (run_device_row s (λ _ dev, rd8 dev (selected_reg s))) by done.
    set (n := byte_at (config_regs s) 7). destruct (Z.leb_spec 12 n); [done|].
    assert (0 ≤ n) by (apply (bytes_byte_at (config_regs s) 7 Hb)).
    destruct (rows_lookup s n W) as (row & Hr & [Hrl Hrb]); [lia|].
    rewrite (list_lookup_total_correct _ _ _ Hr).
    destruct (Z.leb_spec 255 (selected_reg s)).
    + apply run_bind_fault. unfold inBounds.
      by destruct (Z.ltb_spec (selected_reg s) (blen row)); [lia|rewrite andb_false_r].
    + rewrite run_rd8 by lia. eexists. split; [done|]. by apply bytes_byte_at.
  - rewrite run_rd8 by lia. eexists. split; [done|]. by apply bytes_byte_at.
Qed.

(** ** Properties *)

Lemma lpc_access_spec a s :
  wf_lpc s → port_ok a →
  match stops s a with
  | Some f => lpc_access a s = Fault f
  | None => ∃ v s', lpc_access a s = Ok (v, s') ∧ wf_lpc s' ∧ is_u8 v
  end.
Proof.
  intros W Ha. destruct a as [addr val|addr]; cbn [lpc_access].
  - destruct Ha as [Ha Hv]. pose proof (lpc_write_spec addr val s W Ha Hv) as H.
    destruct (stops s _); [by apply run_bind_fault|]. destruct H as (s' & E & W').
    exists 0, s'. by rewrite (run_bind _ _ _ _ _ E).
  - pose proof (lpc_read_spec addr s W Ha) as H.
    destruct (stops s _); [done|]. destruct H as (v & E & Hv). by exists v, s.
Qed.

(** The device before it is realized. *)
Definition zeroed (opt : bool) : ISALPC47M157State :=
  let ser := {| active := false; iobase := 0; irq := 0;
                state := {| io := memory_region_init_io; ss_irq := None |} |} in
  {| sysopt := opt; isa_iobase := 0;
     lpc := {| lpc_io := memory_region_init_io; configuration_mode := false; selected_reg := 0;
               config_regs := replicate 48 0; device_regs := replicate 12 (replicate 255 0);
               serial := [ser; ser] |} |}.

Lemma run_realize opt :
  ∃ isa, lpc47m157_realize (zeroed opt) = Ok (tt, isa) ∧ wf_lpc (lpc isa) ∧
    mr_addr (lpc_io (lpc isa)) = if opt then 0x4e else 0x2e.
Proof.
  assert (wf_row (replicate 255 0)) by (split; [done|apply bytes_replicate]).
  destruct opt; (eexists; split; [reflexivity|]; split; [|reflexivity]); (split; [done| |done|by apply Forall_replicate|done|]).
  1,3: split; [done|]; do 48 (apply bytes_cons; [done|]); apply bytes_nil.
  all: apply Forall_cons; split; [by split|]; apply Forall_singleton; by split.
Qed.

(** C33. From a realized chip, any sequence of byte accesses to its two ports keeps the
    state well typed (registers are bytes in arrays of their size, and each serial
    port is in the port space exactly when it is active, at its recorded address and
    line) and reads bytes, until the first access that [stops]: a data access to the
    registers of a device number above 11, or with index 0xFF, and only those. *)
Theorem lpc_accesses_typed opt l :
  Forall port_ok l →
  ∃ isa, lpc47m157_realize (zeroed opt) = Ok (tt, isa) ∧
  match lpc_accesses l (lpc isa) with
  | Ok (vs, s') => wf_lpc s' ∧ bytes vs
  | Fault f => ∃ l1 a l2 vs s', l = l1 ++ a :: l2 ∧ lpc_accesses l1 (lpc isa) = Ok (vs, s') ∧
      wf_lpc s' ∧ stops s' a = Some f
  end.
Proof.
  intros Hl. destruct (run_realize opt) as (isa & E & W & _). exists isa. split; [done|]. clear E.
  revert W. generalize (lpc isa). clear isa. induction Hl as [|a l Ha Hl IH]; intros s W; [by split; [|apply bytes_nil]|].
  cbn [lpc_accesses]. pose proof (lpc_access_spec a s W Ha) as H. destruct (stops s a) as [f|] eqn:Hs.
  - rewrite (run_bind_fault _ _ _ _ H). by exists [], a, l, [], s.
  - destruct H as (v & s1 & E & W1 & Hv). rewrite (run_bind _ _ _ _ _ E). specialize (IH s1 W1).
    destruct (lpc_accesses l s1) as [[vs s2]|f] eqn:El.
    + rewrite (run_bind _ _ _ _ _ El). destruct IH. by split; [|apply bytes_cons].
    + rewrite (run_bind_fault _ _ _ _ El). destruct IH as (l1 & a' & l2 & vs & s2 & -> & E1 & W2 & Hf).
      exists (a :: l1), a', l2, (v :: vs), s2. split; [done|]. cbn [lpc_accesses].
      by rewrite (run_bind _ _ _ _ _ E), (run_bind _ _ _ _ _ E1).
Qed.
Lemma lpc_accesses_typed_witness :
  ∃ isa, lpc47m157_realize (zeroed false) = Ok (tt, isa) ∧
  ∃ s', lpc_accesses [PortWrite 0 0x55; PortWrite 0 0x26; PortRead 1] (lpc isa) = Ok ([0; 0; 0x2e], s') ∧
    wf_lpc s'.
Proof.
  destruct (lpc_accesses_typed false [PortWrite 0 0x55; PortWrite 0 0x26; PortRead 1])
    as (isa & E & H).
  { repeat (apply Forall_cons; split; [first [split; [by left|done]|by right]|]). by apply Forall_nil. }
  exists isa. split; [exact E|]. cbv in E. injection E as <-.
  eexists. split; [reflexivity|]. exact (proj1 H).
Defined.

(** Programming steps. *)
Lemma run_select r s :
  configuration_mode s = true → is_u8 r → r ≠ 0x55 → r ≠ 0xAA →
  lpc47m157_io_write 0 r s = Ok (tt, s <| selected_reg := r |>).
Proof.
  intros Hm Hr H1 H2. unfold lpc47m157_io_write.
  rewrite (run_bind _ _ s _ s) by done. cbn [Z.eqb andb].
  destruct (Z.eqb_spec r 85), (Z.eqb_spec r 170); try done. cbn [orb]. rewrite Hm.
  unfold modify. by rewrite u32_id by (unfold is_u8, is_u32 in *; lia).
Qed.
Lemma run_set_config r v s :
  configuration_mode s = true → selected_reg s = r → 0 ≤ r < 0x30 → is_u8 v → blen (config_regs s) = 0x30 →
  lpc47m157_io_write 1 v s = Ok (tt, s <| config_regs := put r [v] (config_regs s) |>).
Proof.
  intros Hm Hs Hr Hv Hl. unfold lpc47m157_io_write.
  rewrite (run_bind _ _ s _ s) by done. cbn [Z.eqb Pos.eqb andb]. rewrite Hm, Hs.
  destruct (Z.ltb_spec r 48); [|lia].
  rewrite (run_bind _ _ (put r [v] (config_regs s)) _ s); [done|].
  rewrite u8_id by done. apply run_wr; change (blen [_]) with 1; lia.
Qed.
Lemma run_set_device r v n row s :
  wf_lpc s → configuration_mode s = true → selected_reg s = r → 0x30 ≤ r < 0xFF → is_u8 v →
  byte_at (config_regs s) 7 = n → 0 ≤ n < 12 → device_regs s !! Z.to_nat n = Some row →
  lpc47m157_io_write 1 v s = Ok (tt, s <| device_regs ::= <[Z.to_nat n := put r [v] row]> |>) ∧
  wf_row (put r [v] row).
Proof.
  intros W Hm Hs Hr Hv Hn Hn' Hrow.
  assert (wf_row row) as [Hl Hb] by (eapply Forall_lookup_1; [apply W|done]).
  split; [|split; [by rewrite blen_put|auto with bytes]].
  unfold lpc47m157_io_write.
  rewrite (run_bind _ _ s _ s) by done. cbn [Z.eqb Pos.eqb andb]. rewrite Hm, Hs.
  destruct (Z.ltb_spec r 48); [lia|].
  rewrite (run_device_row s (λ number dev, dev ← wr dev r [u8 v];
    modify (λ s, s <| device_regs ::= <[Z.to_nat number := dev]> |>))) by done.
  rewrite Hn. destruct (Z.leb_spec 12 n); [lia|].
  rewrite (list_lookup_total_correct _ _ _ Hrow), u8_id by done.
  by rewrite (run_bind _ _ (put r [v] row) _ s) by (apply run_wr; change (blen [_]) with 1; lia).
Qed.

Lemma run_leave s s' :
  configuration_mode s = true → update_devices s = Ok (tt, s') →
  lpc47m157_io_write 0 0xAA s = Ok (tt, s' <| configuration_mode := false |>).
Proof.
  intros Hm E. unfold lpc47m157_io_write. rewrite (run_bind _ _ s _ s) by done.
  cbn [Z.eqb Pos.eqb andb orb]. rewrite Hm. cbn [whenM].
  by rewrite (run_bind _ _ _ _ _ E).
Qed.

(** In configuration mode with device [n] selected, whose registers are [row]. *)
Record programming (n : Z) (row : list Z) (s t : LPC47M157State) : Prop := {
  pg_wf : wf_lpc t;
  pg_mode : configuration_mode t = true;
  pg_number : byte_at (config_regs t) 7 = n;
  pg_rows : device_regs t = <[Z.to_nat n := row]> (device_regs s);
  pg_serial : serial t = serial s
}.

Lemma run_write_then addr v l s s1 vs s' :
  lpc47m157_io_write addr v s = Ok (tt, s1) → lpc_accesses l s1 = Ok (vs, s') →
  lpc_accesses (PortWrite addr v :: l) s = Ok (0 :: vs, s').
Proof.
  intros E1 E. cbn [lpc_accesses lpc_access]. unfold mbind, M_bind in *. by rewrite E1; cbn; rewrite E.
Qed.

(** Selecting a device. *)
Lemma program_number n row s :
  wf_lpc s → 0 ≤ n < 12 → device_regs s !! Z.to_nat n = Some row →
  ∃ t, programming n row s t ∧
    ∀ l vs s', lpc_accesses l t = Ok (vs, s') →
      lpc_accesses (PortWrite 0 0x55 :: PortWrite 0 7 :: PortWrite 1 n :: l) s = Ok (0 :: 0 :: 0 :: vs, s').
Proof.
  intros W Hn Hr. pose proof (wl_config _ W) as [Hl Hb].
  set (s1 := s <| configuration_mode := true |>).
  exists (s1 <| selected_reg := 7 |> <| config_regs := put 7 [n] (config_regs s) |>). split.
  - split; cbn -[put]; try done.
    + destruct W. split; cbn -[put]; try done. split; [by rewrite blen_put|].
      apply bytes_put; [|done]. apply bytes_cons; [unfold is_u8; lia|apply bytes_nil].
    + rewrite byte_at_put_eq by (change (blen [n]) with 1; lia). done.
    + by rewrite list_insert_id.
  - intros l vs s' E. assert (is_u8 n) by (unfold is_u8; lia).
    eapply run_write_then; [done|]. fold s1.
    eapply run_write_then; [by apply run_select|].
    eapply run_write_then; [by eapply run_set_config|exact E].
Qed.

(** Setting a register of the device. *)
Lemma program_register n row s t r v :
  programming n row s t → 0 ≤ n < 12 → (Z.to_nat n < length (device_regs s))%nat →
  0x30 ≤ r < 0xFF → r ≠ 0x55 → r ≠ 0xAA → is_u8 v →
  ∃ t', programming n (put r [v] row) s t' ∧
    ∀ l vs s', lpc_accesses l t' = Ok (vs, s') →
      lpc_accesses (PortWrite 0 r :: PortWrite 1 v :: l) t = Ok (0 :: 0 :: vs, s').
Proof.
  intros [W Hm Hnum Hrows Hser] Hn Hlen Hr Hr1 Hr2 Hv.
  assert (is_u8 r) as Hr8 by (unfold is_u8; lia).
  set (t1 := t <| selected_reg := r |>).
  assert (wf_lpc t1) as W1 by (destruct W; split; try done; unfold is_u32; cbn; lia).
  destruct (run_set_device r v n row t1) as [E2 Hrow]; try done.
  { cbn. rewrite Hrows. by apply list_lookup_insert_eq. }
  eexists. split; [|intros l vs s' E; eapply run_write_then; [by apply run_select|];
    by eapply run_write_then].
  split; try done.
  - destruct W1. split; cbn -[put]; try done; [by rewrite length_insert|]. by apply Forall_insert.
  - cbn -[put]. by rewrite Hrows, list_insert_insert_eq.
Qed.

(** The accesses that put serial port [i] at [base] with interrupt [line]. *)
Definition com_program (i base line : Z) : list port_access :=
  [PortWrite 0 ENTER_CONFIG_KEY; PortWrite 0 CONFIG_DEVICE_NUMBER; PortWrite 1 (DEVICE_SERIAL_PORT_1 + i);
   PortWrite 0 CONFIG_DEVICE_BASE_ADDRESS_HIGH; PortWrite 1 (base / 256);
   PortWrite 0 CONFIG_DEVICE_BASE_ADDRESS_LOW; PortWrite 1 (base mod 256);
   PortWrite 0 CONFIG_DEVICE_INTERRUPT; PortWrite 1 line;
   PortWrite 0 CONFIG_DEVICE_ACTIVATE; PortWrite 1 1;
   PortWrite 0 EXIT_CONFIG_KEY].

Lemma asked_programmed base line row :
  wf_row row → is_u16 base → 0 ≤ line < 16 →
  asked (put 0x30 [1] (put 0x70 [line] (put 0x61 [base mod 256] (put 0x60 [base / 256] row))))
  = Some (base, if line =? 0 then None else Some line).
Proof.
  intros [Hl _] Hb Hline. unfold is_u16 in Hb. unfold asked, line_of.
  assert (∀ r v row, blen row = 255 → 0 ≤ r < 255 → byte_at (put r [v] row) r = v) as Hsame.
  { intros r v row0 Hl0 Hr. rewrite byte_at_put_eq by (change (blen [v]) with 1; lia).
    by replace (r - r) with 0 by lia. }
  assert (∀ r r' v row, blen row = 255 → 0 ≤ r < 255 → 0 ≤ r' → r ≠ r' →
    byte_at (put r [v] row) r' = byte_at row r') as Hother.
  { intros r r' v row0 Hl0 Hr Hr' Hne. apply byte_at_put_ne; change (blen [v]) with 1; lia. }
  rewrite (Hsame 0x30) by (rewrite ?blen_put; done). cbn [truthy Z.eqb negb].
  rewrite !(Hother 0x30) by (rewrite ?blen_put; done).
  rewrite (Hsame 0x70), !(Hother 0x70) by (rewrite ?blen_put; done).
  rewrite (Hsame 0x61), !(Hother 0x61), (Hsame 0x60) by (rewrite ?blen_put; done).
  assert (base / 256 < 256) by (apply Z.div_lt_upper_bound; lia).
  rewrite lor_shl_add by (try apply Z.mod_pos_bound; done).
  assert (base / 256 * 2 ^ 8 + base mod 256 = base) as -> by dlia. rewrite u16_id by done.
  change 15 with (Z.ones 4). rewrite Z.land_ones, Z.mod_small by lia. done.
Qed.

(** C32. Programming a serial port through the two ports of the chip, from any
    well-formed state, puts it at the given address with the given interrupt line when
    configuration mode is left, moving it if it was elsewhere; the other serial port
    goes where its own registers say. *)
Theorem lpc_com_setup s i base line other :
  wf_lpc s → i = 0 ∨ i = 1 → is_u16 base → 0 ≤ line < 16 →
  device_regs s !! Z.to_nat (5 - i) = Some other →
  ∃ s', lpc_accesses (com_program i base line) s = Ok (replicate 12 0, s') ∧
    wf_lpc s' ∧ configuration_mode s' = false ∧
    answers <$> serial s' !! Z.to_nat i = Some (Some (base, if line =? 0 then None else Some line)) ∧
    answers <$> serial s' !! Z.to_nat (1 - i) = Some (asked other).
Proof.
  intros W Hi Hb Hl Ho. destruct (rows_lookup s (4 + i) W) as (row & Hr & Wr); [lia|].
  assert (Z.to_nat (4 + i) < length (device_regs s))%nat as Hlen by (rewrite (wl_rows _ W); lia).
  unfold is_u16 in Hb.
  assert (is_u8 (base / 256)) as H1 by (unfold is_u8; dlia).
  assert (is_u8 (base mod 256)) as H2 by (unfold is_u8; dlia).
  assert (is_u8 line) as H3 by (unfold is_u8; lia).
  destruct (program_number (4 + i) row s W ltac:(lia) Hr) as (t0 & P0 & E0).
  destruct (program_register _ _ _ _ 0x60 (base / 256) P0) as (t1 & P1 & E1); [lia|done..|].
  destruct (program_register _ _ _ _ 0x61 (base mod 256) P1) as (t2 & P2 & E2); [lia|done..|].
  destruct (program_register _ _ _ _ 0x70 line P2) as (t3 & P3 & E3); [lia|done..|].
  destruct (program_register _ _ _ _ 0x30 1 P3) as (t4 & P4 & E4); [lia|done..|].
  destruct P4 as [W4 Hm4 _ Hrows4 _].
  assert (device_regs t4 !! Z.to_nat (4 + i) =
    Some (put 0x30 [1] (put 0x70 [line] (put 0x61 [base mod 256] (put 0x60 [base / 256] row))))) as Hnew
    by (rewrite Hrows4; by apply list_lookup_insert_eq).
  assert (device_regs t4 !! Z.to_nat (5 - i) = Some other) as Hold
    by (rewrite Hrows4, list_lookup_insert_ne by lia; done).
  assert (∃ l, update_devices t4 = Ok (tt, t4 <| serial := l |>) ∧ wf_lpc (t4 <| serial := l |>) ∧
    answers <$> l !! Z.to_nat i = Some (Some (base, if line =? 0 then None else Some line)) ∧
    answers <$> l !! Z.to_nat (1 - i) = Some (asked other)) as (l & E5 & W5 & A1 & A2).
  { rewrite <-(asked_programmed base line row) by done.
    destruct Hi as [-> | ->]; [destruct (run_update_devices t4 _ _ W4 Hnew Hold) as (l & E & Wl & Al)
      |destruct (run_update_devices t4 _ _ W4 Hold Hnew) as (l & E & Wl & Al)];
      exists l; by rewrite <-!list_lookup_fmap, Al. }
  exists (t4 <| serial := l |> <| configuration_mode := false |>). split_and!; try done.
  - apply E0, E1, E2, E3, E4. by eapply run_write_then; [apply run_leave|].
  - by destruct W5.
Qed.
Lemma lpc_com_setup_witness :
  ∃ isa, lpc47m157_realize (zeroed false) = Ok (tt, isa) ∧
  ∃ s', lpc_accesses (com_program 0 0x3F8 4) (lpc isa) = Ok (replicate 12 0, s') ∧
    answers <$> serial s' = [Some (0x3F8, Some 4); None].
Proof.
  eexists. split; [reflexivity|]. cbn [lpc field_update].
  match goal with |- ∃ s', lpc_accesses _ ?s = _ ∧ _ =>
    destruct (lpc_com_setup s 0 0x3F8 4 (replicate 255 0)) as (s' & E & W & _ & A1 & A2)
  end.
  - destruct (run_realize false) as (isa & E & W & _). cbv in E. injection E as <-. exact W.
  - left. reflexivity.
  - split; [discriminate|reflexivity].
  - split; [discriminate|reflexivity].
  - reflexivity.
  - exists s'. split; [exact E|]. pose proof (wl_serials _ W) as Hl.
    destruct (serial s') as [|x [|y [|z l]]]; try discriminate Hl.
    injection A1 as A1. injection A2 as A2. cbn [fmap list_fmap]. rewrite A1, A2. reflexivity.
Defined.
