(* ===== verification/Nv2aRegs.v ===== *)
(** * Nv2aRegs: the register map of hw/xbox/nv2a/nv2a_regs.h

    The addresses, bits and fields the modelled engines use, under the names of the
    header. *)

From S2P Require Import Prelude.

(** ** PMC *)

Abbreviation NV_PMC_BOOT_0 := 0%Z (only parsing).
Abbreviation NV_PMC_INTR_0 := 0x100%Z (only parsing).
Abbreviation NV_PMC_INTR_0_PFIFO := 0x100%Z (only parsing).
Abbreviation NV_PMC_INTR_0_PGRAPH := 0x1000%Z (only parsing).
Abbreviation NV_PMC_INTR_0_PCRTC := 0x1000000%Z (only parsing).
Abbreviation NV_PMC_INTR_EN_0 := 0x140%Z (only parsing).

(** ** PBUS *)

Abbreviation NV_PBUS_PCI_NV_0 := 0x800%Z (only parsing).
Abbreviation NV_PBUS_PCI_NV_1 := 0x804%Z (only parsing).
Abbreviation NV_PBUS_PCI_NV_2 := 0x808%Z (only parsing).

(** ** PFIFO *)

Abbreviation NV_PFIFO_INTR_0 := 0x100%Z (only parsing).
Abbreviation NV_PFIFO_INTR_EN_0 := 0x140%Z (only parsing).
Abbreviation NV_PFIFO_RAMHT := 0x210%Z (only parsing).
Abbreviation NV_PFIFO_RAMHT_BASE_ADDRESS := 0x1f0%Z (only parsing).
Abbreviation NV_PFIFO_RAMHT_SIZE := 0x30000%Z (only parsing).
Abbreviation NV_PFIFO_RUNOUT_STATUS := 0x400%Z (only parsing).
Abbreviation NV_PFIFO_RUNOUT_STATUS_LOW_MARK := 0x10%Z (only parsing).
Abbreviation NV_PFIFO_MODE := 0x504%Z (only parsing).
Abbreviation NV_PFIFO_CACHE1_PUSH0 := 0x1200%Z (only parsing).
Abbreviation NV_PFIFO_CACHE1_PUSH0_ACCESS := 1%Z (only parsing).
Abbreviation NV_PFIFO_CACHE1_PUSH1 := 0x1204%Z (only parsing).
Abbreviation NV_PFIFO_CACHE1_PUSH1_CHID := 0x1f%Z (only parsing).
Abbreviation NV_PFIFO_CACHE1_PUSH1_MODE := 0x100%Z (only parsing).
Abbreviation NV_PFIFO_CACHE1_PUSH1_MODE_DMA := 1%Z (only parsing).
Abbreviation NV_PFIFO_CACHE1_STATUS := 0x1214%Z (only parsing).
Abbreviation NV_PFIFO_CACHE1_STATUS_LOW_MARK := 0x10%Z (only parsing).
Abbreviation NV_PFIFO_CACHE1_DMA_PUSH := 0x1220%Z (only parsing).
Abbreviation NV_PFIFO_CACHE1_DMA_PUSH_ACCESS := 1%Z (only parsing).
Abbreviation NV_PFIFO_CACHE1_DMA_PUSH_STATUS := 0x1000%Z (only parsing).
Abbreviation NV_PFIFO_CACHE1_DMA_STATE := 0x1228%Z (only parsing).
Abbreviation NV_PFIFO_CACHE1_DMA_STATE_METHOD_TYPE := 1%Z (only parsing).
Abbreviation NV_PFIFO_CACHE1_DMA_STATE_METHOD_TYPE_INC := 0%Z (only parsing).
Abbreviation NV_PFIFO_CACHE1_DMA_STATE_METHOD_TYPE_NON_INC := 1%Z (only parsing).
Abbreviation NV_PFIFO_CACHE1_DMA_STATE_METHOD := 0x1ffc%Z (only parsing).
Abbreviation NV_PFIFO_CACHE1_DMA_STATE_SUBCHANNEL := 0xe000%Z (only parsing).
Abbreviation NV_PFIFO_CACHE1_DMA_STATE_METHOD_COUNT := 0x1ffc0000%Z (only parsing).
Abbreviation NV_PFIFO_CACHE1_DMA_STATE_ERROR := 0xe0000000%Z (only parsing).
Abbreviation NV_PFIFO_CACHE1_DMA_STATE_ERROR_NONE := 0%Z (only parsing).
Abbreviation NV_PFIFO_CACHE1_DMA_STATE_ERROR_CALL := 1%Z (only parsing).
Abbreviation NV_PFIFO_CACHE1_DMA_STATE_ERROR_RETURN := 3%Z (only parsing).
Abbreviation NV_PFIFO_CACHE1_DMA_STATE_ERROR_RESERVED_CMD := 4%Z (only parsing).
Abbreviation NV_PFIFO_CACHE1_DMA_INSTANCE := 0x122c%Z (only parsing).
Abbreviation NV_PFIFO_CACHE1_DMA_INSTANCE_ADDRESS := 0xffff%Z (only parsing).
Abbreviation NV_PFIFO_CACHE1_DMA_PUT := 0x1240%Z (only parsing).
Abbreviation NV_PFIFO_CACHE1_DMA_GET := 0x1244%Z (only parsing).
Abbreviation NV_PFIFO_CACHE1_REF := 0x1248%Z (only parsing).
Abbreviation NV_PFIFO_CACHE1_DMA_SUBROUTINE := 0x124c%Z (only parsing).
Abbreviation NV_PFIFO_CACHE1_DMA_SUBROUTINE_STATE := 1%Z (only parsing).
Abbreviation NV_PFIFO_CACHE1_PULL0 := 0x1250%Z (only parsing).
Abbreviation NV_PFIFO_CACHE1_PULL0_ACCESS := 1%Z (only parsing).
Abbreviation NV_PFIFO_CACHE1_PULL1 := 0x1254%Z (only parsing).
Abbreviation NV_PFIFO_CACHE1_PULL1_ENGINE := 3%Z (only parsing).
Abbreviation NV_PFIFO_CACHE1_ENGINE := 0x1280%Z (only parsing).
Abbreviation NV_PFIFO_CACHE1_DMA_DCOUNT := 0x12a0%Z (only parsing).
Abbreviation NV_PFIFO_CACHE1_DMA_GET_JMP_SHADOW := 0x12a4%Z (only parsing).
Abbreviation NV_PFIFO_CACHE1_DMA_RSVD_SHADOW := 0x12a8%Z (only parsing).
Abbreviation NV_PFIFO_CACHE1_DMA_DATA_SHADOW := 0x12ac%Z (only parsing).
Abbreviation NV_PFIFO_CACHE1_METHOD_TYPE := 1%Z (only parsing).
Abbreviation NV_PFIFO_CACHE1_METHOD_ADDRESS := 0x1ffc%Z (only parsing).
Abbreviation NV_PFIFO_CACHE1_METHOD_SUBCHANNEL := 0xe000%Z (only parsing).

(** ** PGRAPH *)

Abbreviation NV_PGRAPH_DEBUG_3 := 0x8c%Z (only parsing).
Abbreviation NV_PGRAPH_DEBUG_3_HW_CONTEXT_SWITCH := 4%Z (only parsing).
Abbreviation NV_PGRAPH_INTR := 0x100%Z (only parsing).
Abbreviation NV_PGRAPH_INTR_CONTEXT_SWITCH := 0x1000%Z (only parsing).
Abbreviation NV_PGRAPH_INTR_ERROR := 0x100000%Z (only parsing).
Abbreviation NV_PGRAPH_NSOURCE := 0x108%Z (only parsing).
Abbreviation NV_PGRAPH_NSOURCE_NOTIFICATION := 1%Z (only parsing).
Abbreviation NV_PGRAPH_INTR_EN := 0x140%Z (only parsing).
Abbreviation NV_PGRAPH_CTX_CONTROL := 0x144%Z (only parsing).
Abbreviation NV_PGRAPH_CTX_CONTROL_CHID := 0x10000%Z (only parsing).
Abbreviation NV_PGRAPH_CTX_USER := 0x148%Z (only parsing).
Abbreviation NV_PGRAPH_CTX_USER_CHID := 0x1f000000%Z (only parsing).
Abbreviation NV_PGRAPH_CTX_SWITCH1 := 0x14c%Z (only parsing).
Abbreviation NV_PGRAPH_CTX_SWITCH1_GRCLASS := 0xff%Z (only parsing).
Abbreviation NV_PGRAPH_CTX_SWITCH2 := 0x150%Z (only parsing).
Abbreviation NV_PGRAPH_CTX_SWITCH3 := 0x154%Z (only parsing).
Abbreviation NV_PGRAPH_CTX_SWITCH4 := 0x158%Z (only parsing).
Abbreviation NV_PGRAPH_CTX_SWITCH5 := 0x15c%Z (only parsing).
Abbreviation NV_PGRAPH_CTX_CACHE1 := 0x160%Z (only parsing).
Abbreviation NV_PGRAPH_CTX_CACHE2 := 0x180%Z (only parsing).
Abbreviation NV_PGRAPH_CTX_CACHE3 := 0x1a0%Z (only parsing).
Abbreviation NV_PGRAPH_CTX_CACHE4 := 0x1c0%Z (only parsing).
Abbreviation NV_PGRAPH_CTX_CACHE5 := 0x1e0%Z (only parsing).
Abbreviation NV_PGRAPH_TRAPPED_ADDR := 0x704%Z (only parsing).
Abbreviation NV_PGRAPH_TRAPPED_ADDR_MTHD := 0x1fff%Z (only parsing).
Abbreviation NV_PGRAPH_TRAPPED_ADDR_SUBCH := 0x70000%Z (only parsing).
Abbreviation NV_PGRAPH_TRAPPED_ADDR_CHID := 0x1f00000%Z (only parsing).
Abbreviation NV_PGRAPH_TRAPPED_DATA_LOW := 0x708%Z (only parsing).
Abbreviation NV_PGRAPH_SURFACE := 0x710%Z (only parsing).
Abbreviation NV_PGRAPH_SURFACE_WRITE_3D := 0x700000%Z (only parsing).
Abbreviation NV_PGRAPH_SURFACE_READ_3D := 0x7000000%Z (only parsing).
Abbreviation NV_PGRAPH_SURFACE_MODULO_3D := 0x70000000%Z (only parsing).
Abbreviation NV_PGRAPH_INCREMENT := 0x71c%Z (only parsing).
Abbreviation NV_PGRAPH_INCREMENT_READ_3D := 2%Z (only parsing).
Abbreviation NV_PGRAPH_FIFO := 0x720%Z (only parsing).
Abbreviation NV_PGRAPH_FIFO_ACCESS := 1%Z (only parsing).
Abbreviation NV_PGRAPH_RDI_INDEX := 0x750%Z (only parsing).
Abbreviation NV_PGRAPH_RDI_INDEX_ADDRESS := 0x1ffc%Z (only parsing).
Abbreviation NV_PGRAPH_RDI_INDEX_SELECT := 0x1ff0000%Z (only parsing).
Abbreviation NV_PGRAPH_RDI_DATA := 0x754%Z (only parsing).
Abbreviation NV_PGRAPH_CHANNEL_CTX_POINTER := 0x784%Z (only parsing).
Abbreviation NV_PGRAPH_CHANNEL_CTX_POINTER_INST := 0xffff%Z (only parsing).
Abbreviation NV_PGRAPH_CHANNEL_CTX_TRIGGER := 0x788%Z (only parsing).
Abbreviation NV_PGRAPH_CHANNEL_CTX_TRIGGER_READ_IN := 1%Z (only parsing).
Abbreviation NV_PGRAPH_PATT_COLOR0 := 0xb10%Z (only parsing).
Abbreviation RDI_INDEX_VTX_CONSTANTS0 := 0x17%Z (only parsing).
Abbreviation RDI_INDEX_VTX_CONSTANTS1 := 0xcc%Z (only parsing).
Abbreviation NV2A_VERTEXSHADER_CONSTANTS := 0xc0%Z (only parsing).

(** ** PCRTC *)

Abbreviation NV_PCRTC_INTR_0 := 0x100%Z (only parsing).
Abbreviation NV_PCRTC_INTR_0_VBLANK := 1%Z (only parsing).
Abbreviation NV_PCRTC_INTR_EN_0 := 0x140%Z (only parsing).
Abbreviation NV_PCRTC_START := 0x800%Z (only parsing).
Abbreviation NV_PCRTC_RASTER := 0x808%Z (only parsing).

(** ** PVIDEO *)

Abbreviation NV_PVIDEO_BUFFER := 0x700%Z (only parsing).
Abbreviation NV_PVIDEO_STOP := 0x704%Z (only parsing).
Abbreviation NV_PVIDEO_POINT_OUT := 0x948%Z (only parsing).
Abbreviation NV_PVIDEO_POINT_OUT_Y := 0xfff0000%Z (only parsing).
Abbreviation NV_PVIDEO_SIZE_OUT := 0x950%Z (only parsing).
Abbreviation NV_PVIDEO_SIZE_OUT_HEIGHT := 0xfff0000%Z (only parsing).

(** ** PTIMER *)

Abbreviation NV_PTIMER_INTR_0 := 0x100%Z (only parsing).
Abbreviation NV_PTIMER_INTR_EN_0 := 0x140%Z (only parsing).
Abbreviation NV_PTIMER_NUMERATOR := 0x200%Z (only parsing).
Abbreviation NV_PTIMER_DENOMINATOR := 0x210%Z (only parsing).
Abbreviation NV_PTIMER_TIME_0 := 0x400%Z (only parsing).
Abbreviation NV_PTIMER_TIME_1 := 0x410%Z (only parsing).
Abbreviation NV_PTIMER_ALARM_0 := 0x420%Z (only parsing).

(** ** PFB *)

Abbreviation NV_PFB_CSTATUS := 0x20c%Z (only parsing).
Abbreviation NV_PFB_WBC := 0x410%Z (only parsing).

(** ** PRAMDAC *)

Abbreviation NV_PRAMDAC_NVPLL_COEFF := 0x500%Z (only parsing).
Abbreviation NV_PRAMDAC_NVPLL_COEFF_MDIV := 0xff%Z (only parsing).
Abbreviation NV_PRAMDAC_NVPLL_COEFF_NDIV := 0xff00%Z (only parsing).
Abbreviation NV_PRAMDAC_NVPLL_COEFF_PDIV := 0x70000%Z (only parsing).
Abbreviation NV_PRAMDAC_MPLL_COEFF := 0x504%Z (only parsing).
Abbreviation NV_PRAMDAC_VPLL_COEFF := 0x508%Z (only parsing).
Abbreviation NV_PRAMDAC_PLL_TEST_COUNTER := 0x514%Z (only parsing).
Abbreviation NV_PRAMDAC_PLL_TEST_COUNTER_VPLL2_LOCK := 0x8000000%Z (only parsing).
Abbreviation NV_PRAMDAC_PLL_TEST_COUNTER_NVPLL_LOCK := 0x20000000%Z (only parsing).
Abbreviation NV_PRAMDAC_PLL_TEST_COUNTER_MPLL_LOCK := 0x40000000%Z (only parsing).
Abbreviation NV_PRAMDAC_PLL_TEST_COUNTER_VPLL_LOCK := 0x80000000%Z (only parsing).
Abbreviation NV_PRAMDAC_GENERAL_CONTROL := 0x600%Z (only parsing).
Abbreviation NV_PRAMDAC_FP_VDISPLAY_END := 0x800%Z (only parsing).
Abbreviation NV_PRAMDAC_FP_VCRTC := 0x808%Z (only parsing).
Abbreviation NV_PRAMDAC_FP_VSYNC_END := 0x810%Z (only parsing).
Abbreviation NV_PRAMDAC_FP_VVALID_END := 0x818%Z (only parsing).
Abbreviation NV_PRAMDAC_FP_HDISPLAY_END := 0x820%Z (only parsing).
Abbreviation NV_PRAMDAC_FP_HCRTC := 0x828%Z (only parsing).
Abbreviation NV_PRAMDAC_FP_HVALID_END := 0x838%Z (only parsing).
Abbreviation NV2A_CRYSTAL_FREQ := 0xfe502a%Z (only parsing).

(** ** The user area and the DAC *)

Abbreviation NV_USER_DAC_WRITE_MODE_ADDRESS := 0x3c8%Z (only parsing).
Abbreviation NV_USER_DAC_PALETTE_DATA := 0x3c9%Z (only parsing).
Abbreviation NV_USER_DMA_PUT := 0x40%Z (only parsing).
Abbreviation NV_USER_DMA_GET := 0x44%Z (only parsing).
Abbreviation NV_USER_REF := 0x48%Z (only parsing).
Abbreviation NV2A_NUM_CHANNELS := 0x20%Z (only parsing).

(** ** DMA objects and RAMHT entries *)

Abbreviation NV_DMA_CLASS := 0xfff%Z (only parsing).
Abbreviation NV_DMA_TARGET := 0x30000%Z (only parsing).
Abbreviation NV_DMA_ADJUST := 0xfff00000%Z (only parsing).
Abbreviation NV_DMA_ADDRESS := 0xfffff000%Z (only parsing).
Abbreviation NV_RAMHT_INSTANCE := 0xffff%Z (only parsing).
Abbreviation NV_RAMHT_ENGINE := 0x30000%Z (only parsing).
Abbreviation NV_RAMHT_CHID := 0x1f000000%Z (only parsing).
Abbreviation NV_RAMHT_STATUS := 0x80000000%Z (only parsing).

(** ** Graphics classes and their methods *)

Abbreviation NV_SET_OBJECT := 0%Z (only parsing).
Abbreviation NV_BETA := 0x12%Z (only parsing).
Abbreviation NV012_SET_OBJECT := 0%Z (only parsing).
Abbreviation NV012_SET_BETA := 0x300%Z (only parsing).
Abbreviation NV_CONTEXT_PATTERN := 0x44%Z (only parsing).
Abbreviation NV044_SET_MONOCHROME_COLOR0 := 0x310%Z (only parsing).
Abbreviation NV_CONTEXT_SURFACES_2D := 0x62%Z (only parsing).
Abbreviation NV062_SET_OBJECT := 0%Z (only parsing).
Abbreviation NV062_SET_CONTEXT_DMA_IMAGE_SOURCE := 0x184%Z (only parsing).
Abbreviation NV062_SET_CONTEXT_DMA_IMAGE_DESTIN := 0x188%Z (only parsing).
Abbreviation NV062_SET_COLOR_FORMAT := 0x300%Z (only parsing).
Abbreviation NV062_SET_PITCH := 0x304%Z (only parsing).
Abbreviation NV062_SET_OFFSET_SOURCE := 0x308%Z (only parsing).
Abbreviation NV062_SET_OFFSET_DESTIN := 0x30c%Z (only parsing).
Abbreviation NV_IMAGE_BLIT := 0x9f%Z (only parsing).
Abbreviation NV09F_SET_OBJECT := 0%Z (only parsing).
Abbreviation NV09F_SET_CONTEXT_SURFACES := 0x19c%Z (only parsing).
Abbreviation NV09F_SET_OPERATION := 0x2fc%Z (only parsing).
Abbreviation NV09F_CONTROL_POINT_IN := 0x300%Z (only parsing).
Abbreviation NV09F_CONTROL_POINT_OUT := 0x304%Z (only parsing).
Abbreviation NV09F_SIZE := 0x308%Z (only parsing).
Abbreviation NV_KELVIN_PRIMITIVE := 0x97%Z (only parsing).
Abbreviation NV097_DRAW_ARRAYS := 0x1810%Z (only parsing).
Abbreviation NV097_SET_BEGIN_END := 0x17fc%Z (only parsing).
Abbreviation NV097_SET_BEGIN_END_OP_END := 0%Z (only parsing).
