(* ===== verification/KelvinRegs.v ===== *)
(** * KelvinRegs: the methods of the 3D class in hw/xbox/nv2a/nv2a_regs.h

    The methods of the class NV097, their values, and the registers and fields their
    handlers use, under the names of the header. *)

From S2P Require Import Prelude.

(** ** Methods of the 3D class and their values *)

Abbreviation NV097_SET_SURFACE_CLIP_HORIZONTAL_X := 0xffff%Z (only parsing).
Abbreviation NV097_SET_SURFACE_CLIP_HORIZONTAL_WIDTH := 0xffff0000%Z (only parsing).
Abbreviation NV097_SET_SURFACE_CLIP_VERTICAL_Y := 0xffff%Z (only parsing).
Abbreviation NV097_SET_SURFACE_CLIP_VERTICAL_HEIGHT := 0xffff0000%Z (only parsing).
Abbreviation NV097_SET_SURFACE_FORMAT_COLOR := 0xf%Z (only parsing).
Abbreviation NV097_SET_SURFACE_FORMAT_ZETA := 0xf0%Z (only parsing).
Abbreviation NV097_SET_SURFACE_FORMAT_ANTI_ALIASING := 0xf000%Z (only parsing).
Abbreviation NV097_SET_SURFACE_FORMAT_WIDTH := 0xff0000%Z (only parsing).
Abbreviation NV097_SET_SURFACE_FORMAT_HEIGHT := 0xff000000%Z (only parsing).
Abbreviation NV097_SET_SURFACE_FORMAT_TYPE := 0xf00%Z (only parsing).
Abbreviation NV097_SET_SURFACE_PITCH_COLOR := 0xffff%Z (only parsing).
Abbreviation NV097_SET_SURFACE_PITCH_ZETA := 0xffff0000%Z (only parsing).
Abbreviation NV097_SET_COMBINER_ALPHA_ICW := 0x260%Z (only parsing).
Abbreviation NV097_SET_TEXTURE_ADDRESS := 0x1b08%Z (only parsing).
Abbreviation NV097_SET_CONTROL0_STENCIL_WRITE_ENABLE := 1%Z (only parsing).
Abbreviation NV097_SET_CONTROL0_Z_FORMAT := 0x1000%Z (only parsing).
Abbreviation NV097_SET_CONTROL0_Z_PERSPECTIVE_ENABLE := 0x10000%Z (only parsing).
Abbreviation NV097_SET_LIGHT_CONTROL_SEPARATE_SPECULAR := 1%Z (only parsing).
Abbreviation NV097_SET_LIGHT_CONTROL_LOCALEYE := 0x10000%Z (only parsing).
Abbreviation NV097_SET_LIGHT_CONTROL_ALPHA_FROM_MATERIAL_SPECULAR := 0x20000%Z (only parsing).
Abbreviation NV097_SET_FOG_MODE_V_LINEAR := 0x2601%Z (only parsing).
Abbreviation NV097_SET_FOG_MODE_V_EXP := 0x800%Z (only parsing).
Abbreviation NV097_SET_FOG_MODE_V_EXP2 := 0x801%Z (only parsing).
Abbreviation NV097_SET_FOG_MODE_V_EXP_ABS := 0x802%Z (only parsing).
Abbreviation NV097_SET_FOG_MODE_V_EXP2_ABS := 0x803%Z (only parsing).
Abbreviation NV097_SET_FOG_MODE_V_LINEAR_ABS := 0x804%Z (only parsing).
Abbreviation NV097_SET_FOG_GEN_MODE_V_SPEC_ALPHA := 0%Z (only parsing).
Abbreviation NV097_SET_FOG_GEN_MODE_V_RADIAL := 1%Z (only parsing).
Abbreviation NV097_SET_FOG_GEN_MODE_V_PLANAR := 2%Z (only parsing).
Abbreviation NV097_SET_FOG_GEN_MODE_V_ABS_PLANAR := 3%Z (only parsing).
Abbreviation NV097_SET_FOG_GEN_MODE_V_FOG_X := 6%Z (only parsing).
Abbreviation NV097_SET_FOG_COLOR_RED := 0xff%Z (only parsing).
Abbreviation NV097_SET_FOG_COLOR_GREEN := 0xff00%Z (only parsing).
Abbreviation NV097_SET_FOG_COLOR_BLUE := 0xff0000%Z (only parsing).
Abbreviation NV097_SET_FOG_COLOR_ALPHA := 0xff000000%Z (only parsing).
Abbreviation NV097_SET_WINDOW_CLIP_HORIZONTAL := 0x2c0%Z (only parsing).
Abbreviation NV097_SET_WINDOW_CLIP_VERTICAL := 0x2e0%Z (only parsing).
Abbreviation NV097_SET_BLEND_FUNC_SFACTOR_V_ZERO := 0%Z (only parsing).
Abbreviation NV097_SET_BLEND_FUNC_SFACTOR_V_ONE := 1%Z (only parsing).
Abbreviation NV097_SET_BLEND_FUNC_SFACTOR_V_SRC_COLOR := 0x300%Z (only parsing).
Abbreviation NV097_SET_BLEND_FUNC_SFACTOR_V_ONE_MINUS_SRC_COLOR := 0x301%Z (only parsing).
Abbreviation NV097_SET_BLEND_FUNC_SFACTOR_V_SRC_ALPHA := 0x302%Z (only parsing).
Abbreviation NV097_SET_BLEND_FUNC_SFACTOR_V_ONE_MINUS_SRC_ALPHA := 0x303%Z (only parsing).
Abbreviation NV097_SET_BLEND_FUNC_SFACTOR_V_DST_ALPHA := 0x304%Z (only parsing).
Abbreviation NV097_SET_BLEND_FUNC_SFACTOR_V_ONE_MINUS_DST_ALPHA := 0x305%Z (only parsing).
Abbreviation NV097_SET_BLEND_FUNC_SFACTOR_V_DST_COLOR := 0x306%Z (only parsing).
Abbreviation NV097_SET_BLEND_FUNC_SFACTOR_V_ONE_MINUS_DST_COLOR := 0x307%Z (only parsing).
Abbreviation NV097_SET_BLEND_FUNC_SFACTOR_V_SRC_ALPHA_SATURATE := 0x308%Z (only parsing).
Abbreviation NV097_SET_BLEND_FUNC_SFACTOR_V_CONSTANT_COLOR := 0x8001%Z (only parsing).
Abbreviation NV097_SET_BLEND_FUNC_SFACTOR_V_ONE_MINUS_CONSTANT_COLOR := 0x8002%Z (only parsing).
Abbreviation NV097_SET_BLEND_FUNC_SFACTOR_V_CONSTANT_ALPHA := 0x8003%Z (only parsing).
Abbreviation NV097_SET_BLEND_FUNC_SFACTOR_V_ONE_MINUS_CONSTANT_ALPHA := 0x8004%Z (only parsing).
Abbreviation NV097_SET_BLEND_FUNC_DFACTOR_V_ZERO := 0%Z (only parsing).
Abbreviation NV097_SET_BLEND_FUNC_DFACTOR_V_ONE := 1%Z (only parsing).
Abbreviation NV097_SET_BLEND_FUNC_DFACTOR_V_SRC_COLOR := 0x300%Z (only parsing).
Abbreviation NV097_SET_BLEND_FUNC_DFACTOR_V_ONE_MINUS_SRC_COLOR := 0x301%Z (only parsing).
Abbreviation NV097_SET_BLEND_FUNC_DFACTOR_V_SRC_ALPHA := 0x302%Z (only parsing).
Abbreviation NV097_SET_BLEND_FUNC_DFACTOR_V_ONE_MINUS_SRC_ALPHA := 0x303%Z (only parsing).
Abbreviation NV097_SET_BLEND_FUNC_DFACTOR_V_DST_ALPHA := 0x304%Z (only parsing).
Abbreviation NV097_SET_BLEND_FUNC_DFACTOR_V_ONE_MINUS_DST_ALPHA := 0x305%Z (only parsing).
Abbreviation NV097_SET_BLEND_FUNC_DFACTOR_V_DST_COLOR := 0x306%Z (only parsing).
Abbreviation NV097_SET_BLEND_FUNC_DFACTOR_V_ONE_MINUS_DST_COLOR := 0x307%Z (only parsing).
Abbreviation NV097_SET_BLEND_FUNC_DFACTOR_V_SRC_ALPHA_SATURATE := 0x308%Z (only parsing).
Abbreviation NV097_SET_BLEND_FUNC_DFACTOR_V_CONSTANT_COLOR := 0x8001%Z (only parsing).
Abbreviation NV097_SET_BLEND_FUNC_DFACTOR_V_ONE_MINUS_CONSTANT_COLOR := 0x8002%Z (only parsing).
Abbreviation NV097_SET_BLEND_FUNC_DFACTOR_V_CONSTANT_ALPHA := 0x8003%Z (only parsing).
Abbreviation NV097_SET_BLEND_FUNC_DFACTOR_V_ONE_MINUS_CONSTANT_ALPHA := 0x8004%Z (only parsing).
Abbreviation NV097_SET_BLEND_EQUATION_V_FUNC_SUBTRACT := 0x800a%Z (only parsing).
Abbreviation NV097_SET_BLEND_EQUATION_V_FUNC_REVERSE_SUBTRACT := 0x800b%Z (only parsing).
Abbreviation NV097_SET_BLEND_EQUATION_V_FUNC_ADD := 0x8006%Z (only parsing).
Abbreviation NV097_SET_BLEND_EQUATION_V_MIN := 0x8007%Z (only parsing).
Abbreviation NV097_SET_BLEND_EQUATION_V_MAX := 0x8008%Z (only parsing).
Abbreviation NV097_SET_BLEND_EQUATION_V_FUNC_REVERSE_SUBTRACT_SIGNED := 0xf005%Z (only parsing).
Abbreviation NV097_SET_BLEND_EQUATION_V_FUNC_ADD_SIGNED := 0xf006%Z (only parsing).
Abbreviation NV097_SET_COLOR_MASK_ALPHA_WRITE_ENABLE := 0x1000000%Z (only parsing).
Abbreviation NV097_SET_COLOR_MASK_RED_WRITE_ENABLE := 0x10000%Z (only parsing).
Abbreviation NV097_SET_COLOR_MASK_GREEN_WRITE_ENABLE := 0x100%Z (only parsing).
Abbreviation NV097_SET_COLOR_MASK_BLUE_WRITE_ENABLE := 1%Z (only parsing).
Abbreviation NV097_SET_STENCIL_OP_V_KEEP := 0x1e00%Z (only parsing).
Abbreviation NV097_SET_STENCIL_OP_V_ZERO := 0%Z (only parsing).
Abbreviation NV097_SET_STENCIL_OP_V_REPLACE := 0x1e01%Z (only parsing).
Abbreviation NV097_SET_STENCIL_OP_V_INCRSAT := 0x1e02%Z (only parsing).
Abbreviation NV097_SET_STENCIL_OP_V_DECRSAT := 0x1e03%Z (only parsing).
Abbreviation NV097_SET_STENCIL_OP_V_INVERT := 0x150a%Z (only parsing).
Abbreviation NV097_SET_STENCIL_OP_V_INCR := 0x8507%Z (only parsing).
Abbreviation NV097_SET_STENCIL_OP_V_DECR := 0x8508%Z (only parsing).
Abbreviation NV097_SET_SHADE_MODE_V_FLAT := 0x1d00%Z (only parsing).
Abbreviation NV097_SET_SHADE_MODE_V_SMOOTH := 0x1d01%Z (only parsing).
Abbreviation NV097_SET_FRONT_POLYGON_MODE_V_POINT := 0x1b00%Z (only parsing).
Abbreviation NV097_SET_FRONT_POLYGON_MODE_V_LINE := 0x1b01%Z (only parsing).
Abbreviation NV097_SET_FRONT_POLYGON_MODE_V_FILL := 0x1b02%Z (only parsing).
Abbreviation NV097_SET_CULL_FACE_V_FRONT := 0x404%Z (only parsing).
Abbreviation NV097_SET_CULL_FACE_V_BACK := 0x405%Z (only parsing).
Abbreviation NV097_SET_CULL_FACE_V_FRONT_AND_BACK := 0x408%Z (only parsing).
Abbreviation NV097_SET_FRONT_FACE_V_CW := 0x900%Z (only parsing).
Abbreviation NV097_SET_FRONT_FACE_V_CCW := 0x901%Z (only parsing).
Abbreviation NV097_SET_MATERIAL_EMISSION := 0x3a8%Z (only parsing).
Abbreviation NV097_SET_TEXGEN_S_DISABLE := 0%Z (only parsing).
Abbreviation NV097_SET_TEXGEN_S_EYE_LINEAR := 0x2400%Z (only parsing).
Abbreviation NV097_SET_TEXGEN_S_OBJECT_LINEAR := 0x2401%Z (only parsing).
Abbreviation NV097_SET_TEXGEN_S_SPHERE_MAP := 0x2402%Z (only parsing).
Abbreviation NV097_SET_TEXGEN_S_REFLECTION_MAP := 0x8512%Z (only parsing).
Abbreviation NV097_SET_TEXGEN_S_NORMAL_MAP := 0x8511%Z (only parsing).
Abbreviation NV097_SET_TEXGEN_S := 0x3c0%Z (only parsing).
Abbreviation NV097_SET_TEXGEN_T := 0x3c4%Z (only parsing).
Abbreviation NV097_SET_TEXGEN_R := 0x3c8%Z (only parsing).
Abbreviation NV097_SET_TEXGEN_Q := 0x3cc%Z (only parsing).
Abbreviation NV097_SET_TEXTURE_MATRIX_ENABLE := 0x420%Z (only parsing).
Abbreviation NV097_SET_POINT_SIZE_V_MAX := 0x1ff%Z (only parsing).
Abbreviation NV097_SET_PROJECTION_MATRIX := 0x440%Z (only parsing).
Abbreviation NV097_SET_MODEL_VIEW_MATRIX := 0x480%Z (only parsing).
Abbreviation NV097_SET_INVERSE_MODEL_VIEW_MATRIX := 0x580%Z (only parsing).
Abbreviation NV097_SET_COMPOSITE_MATRIX := 0x680%Z (only parsing).
Abbreviation NV097_SET_TEXTURE_MATRIX := 0x6c0%Z (only parsing).
Abbreviation NV097_SET_FOG_PARAMS := 0x9c0%Z (only parsing).
Abbreviation NV097_SET_TEXGEN_PLANE_S := 0x840%Z (only parsing).
Abbreviation NV097_SET_FOG_PLANE := 0x9d0%Z (only parsing).
Abbreviation NV097_SET_SPECULAR_PARAMS := 0x9e0%Z (only parsing).
Abbreviation NV097_SET_SCENE_AMBIENT_COLOR := 0xa10%Z (only parsing).
Abbreviation NV097_SET_VIEWPORT_OFFSET := 0xa20%Z (only parsing).
Abbreviation NV097_SET_POINT_PARAMS := 0xa30%Z (only parsing).
Abbreviation NV097_SET_EYE_POSITION := 0xa50%Z (only parsing).
Abbreviation NV097_SET_COMBINER_FACTOR0 := 0xa60%Z (only parsing).
Abbreviation NV097_SET_COMBINER_FACTOR1 := 0xa80%Z (only parsing).
Abbreviation NV097_SET_COMBINER_ALPHA_OCW := 0xaa0%Z (only parsing).
Abbreviation NV097_SET_COMBINER_COLOR_ICW := 0xac0%Z (only parsing).
Abbreviation NV097_SET_COLOR_KEY_COLOR := 0xae0%Z (only parsing).
Abbreviation NV097_SET_VIEWPORT_SCALE := 0xaf0%Z (only parsing).
Abbreviation NV097_SET_TRANSFORM_PROGRAM := 0xb00%Z (only parsing).
Abbreviation NV097_SET_TRANSFORM_CONSTANT := 0xb80%Z (only parsing).
Abbreviation NV097_SET_VERTEX3F := 0x1500%Z (only parsing).
Abbreviation NV097_SET_BACK_LIGHT_AMBIENT_COLOR := 0xc00%Z (only parsing).
Abbreviation NV097_SET_BACK_LIGHT_DIFFUSE_COLOR := 0xc0c%Z (only parsing).
Abbreviation NV097_SET_BACK_LIGHT_SPECULAR_COLOR := 0xc18%Z (only parsing).
Abbreviation NV097_SET_LIGHT_AMBIENT_COLOR := 0x1000%Z (only parsing).
Abbreviation NV097_SET_LIGHT_DIFFUSE_COLOR := 0x100c%Z (only parsing).
Abbreviation NV097_SET_LIGHT_SPECULAR_COLOR := 0x1018%Z (only parsing).
Abbreviation NV097_SET_LIGHT_LOCAL_RANGE := 0x1024%Z (only parsing).
Abbreviation NV097_SET_LIGHT_INFINITE_HALF_VECTOR := 0x1028%Z (only parsing).
Abbreviation NV097_SET_LIGHT_INFINITE_DIRECTION := 0x1034%Z (only parsing).
Abbreviation NV097_SET_LIGHT_SPOT_FALLOFF := 0x1040%Z (only parsing).
Abbreviation NV097_SET_LIGHT_SPOT_DIRECTION := 0x104c%Z (only parsing).
Abbreviation NV097_SET_LIGHT_LOCAL_POSITION := 0x105c%Z (only parsing).
Abbreviation NV097_SET_LIGHT_LOCAL_ATTENUATION := 0x1068%Z (only parsing).
Abbreviation NV097_SET_VERTEX4F := 0x1518%Z (only parsing).
Abbreviation NV097_SET_NORMAL3S := 0x1540%Z (only parsing).
Abbreviation NV097_SET_TEXCOORD0_4S := 0x15b0%Z (only parsing).
Abbreviation NV097_SET_TEXCOORD1_4S := 0x15d8%Z (only parsing).
Abbreviation NV097_SET_TEXCOORD2_4S := 0x1600%Z (only parsing).
Abbreviation NV097_SET_TEXCOORD3_4S := 0x1630%Z (only parsing).
Abbreviation NV097_SET_DIFFUSE_COLOR3F := 0x1560%Z (only parsing).
Abbreviation NV097_SET_SPECULAR_COLOR3F := 0x1580%Z (only parsing).
Abbreviation NV097_SET_NORMAL3F := 0x1530%Z (only parsing).
Abbreviation NV097_SET_DIFFUSE_COLOR4F := 0x1550%Z (only parsing).
Abbreviation NV097_SET_SPECULAR_COLOR4F := 0x1570%Z (only parsing).
Abbreviation NV097_SET_TEXCOORD0_4F := 0x15a0%Z (only parsing).
Abbreviation NV097_SET_TEXCOORD1_4F := 0x15c8%Z (only parsing).
Abbreviation NV097_SET_TEXCOORD2_4F := 0x15f0%Z (only parsing).
Abbreviation NV097_SET_TEXCOORD3_4F := 0x1620%Z (only parsing).
Abbreviation NV097_SET_WEIGHT4F := 0x16c0%Z (only parsing).
Abbreviation NV097_SET_WEIGHT2F := 0x16a0%Z (only parsing).
Abbreviation NV097_SET_WEIGHT3F := 0x16b0%Z (only parsing).
Abbreviation NV097_SET_TEXCOORD0_2F := 0x1590%Z (only parsing).
Abbreviation NV097_SET_TEXCOORD1_2F := 0x15b8%Z (only parsing).
Abbreviation NV097_SET_TEXCOORD2_2F := 0x15e0%Z (only parsing).
Abbreviation NV097_SET_TEXCOORD3_2F := 0x1608%Z (only parsing).
Abbreviation NV097_SET_DIFFUSE_COLOR4UB := 0x156c%Z (only parsing).
Abbreviation NV097_SET_SPECULAR_COLOR4UB := 0x158c%Z (only parsing).
Abbreviation NV097_SET_VERTEX_DATA_ARRAY_FORMAT := 0x1760%Z (only parsing).
Abbreviation NV097_SET_VERTEX_DATA_ARRAY_FORMAT_TYPE := 0xf%Z (only parsing).
Abbreviation NV097_SET_VERTEX_DATA_ARRAY_FORMAT_SIZE := 0xf0%Z (only parsing).
Abbreviation NV097_SET_VERTEX_DATA_ARRAY_FORMAT_STRIDE := 0xffffff00%Z (only parsing).
Abbreviation NV097_SET_VERTEX_DATA_ARRAY_FORMAT_TYPE_UB_D3D := 0%Z (only parsing).
Abbreviation NV097_SET_VERTEX_DATA_ARRAY_FORMAT_TYPE_UB_OGL := 4%Z (only parsing).
Abbreviation NV097_SET_VERTEX_DATA_ARRAY_FORMAT_TYPE_S1 := 1%Z (only parsing).
Abbreviation NV097_SET_VERTEX_DATA_ARRAY_FORMAT_TYPE_F := 2%Z (only parsing).
Abbreviation NV097_SET_VERTEX_DATA_ARRAY_FORMAT_TYPE_S32K := 5%Z (only parsing).
Abbreviation NV097_SET_VERTEX_DATA_ARRAY_FORMAT_TYPE_CMP := 6%Z (only parsing).
Abbreviation NV097_SET_VERTEX_DATA_ARRAY_OFFSET := 0x1720%Z (only parsing).
Abbreviation NV097_GET_REPORT_OFFSET := 0xffffff%Z (only parsing).
Abbreviation NV097_GET_REPORT_TYPE := 0xff000000%Z (only parsing).
Abbreviation NV097_GET_REPORT_TYPE_ZPASS_PIXEL_CNT := 1%Z (only parsing).
Abbreviation NV097_SET_EYE_DIRECTION := 0x17e0%Z (only parsing).
Abbreviation NV097_SET_BEGIN_END_OP_POLYGON := 0xa%Z (only parsing).
Abbreviation NV097_SET_TEXTURE_OFFSET := 0x1b00%Z (only parsing).
Abbreviation NV097_SET_TEXTURE_FORMAT := 0x1b04%Z (only parsing).
Abbreviation NV097_SET_TEXTURE_FORMAT_CONTEXT_DMA := 3%Z (only parsing).
Abbreviation NV097_SET_TEXTURE_FORMAT_CUBEMAP_ENABLE := 4%Z (only parsing).
Abbreviation NV097_SET_TEXTURE_FORMAT_BORDER_SOURCE := 8%Z (only parsing).
Abbreviation NV097_SET_TEXTURE_FORMAT_DIMENSIONALITY := 0xf0%Z (only parsing).
Abbreviation NV097_SET_TEXTURE_FORMAT_COLOR := 0xff00%Z (only parsing).
Abbreviation NV097_SET_TEXTURE_FORMAT_MIPMAP_LEVELS := 0xf0000%Z (only parsing).
Abbreviation NV097_SET_TEXTURE_FORMAT_BASE_SIZE_U := 0xf00000%Z (only parsing).
Abbreviation NV097_SET_TEXTURE_FORMAT_BASE_SIZE_V := 0xf000000%Z (only parsing).
Abbreviation NV097_SET_TEXTURE_FORMAT_BASE_SIZE_P := 0xf0000000%Z (only parsing).
Abbreviation NV097_SET_TEXTURE_CONTROL0 := 0x1b0c%Z (only parsing).
Abbreviation NV097_SET_TEXTURE_CONTROL1 := 0x1b10%Z (only parsing).
Abbreviation NV097_SET_TEXTURE_FILTER := 0x1b14%Z (only parsing).
Abbreviation NV097_SET_TEXTURE_IMAGE_RECT := 0x1b1c%Z (only parsing).
Abbreviation NV097_SET_TEXTURE_PALETTE := 0x1b20%Z (only parsing).
Abbreviation NV097_SET_TEXTURE_PALETTE_CONTEXT_DMA := 1%Z (only parsing).
Abbreviation NV097_SET_TEXTURE_PALETTE_LENGTH := 0xc%Z (only parsing).
Abbreviation NV097_SET_TEXTURE_PALETTE_OFFSET := 0xffffffc0%Z (only parsing).
Abbreviation NV097_SET_TEXTURE_BORDER_COLOR := 0x1b24%Z (only parsing).
Abbreviation NV097_SET_TEXTURE_SET_BUMP_ENV_MAT := 0x1b28%Z (only parsing).
Abbreviation NV097_SET_TEXTURE_SET_BUMP_ENV_SCALE := 0x1b38%Z (only parsing).
Abbreviation NV097_SET_TEXTURE_SET_BUMP_ENV_OFFSET := 0x1b3c%Z (only parsing).
Abbreviation NV097_DRAW_ARRAYS_START_INDEX := 0xffffff%Z (only parsing).
Abbreviation NV097_DRAW_ARRAYS_COUNT := 0xff000000%Z (only parsing).
Abbreviation NV097_INLINE_ARRAY := 0x1818%Z (only parsing).
Abbreviation NV097_SET_EYE_VECTOR := 0x181c%Z (only parsing).
Abbreviation NV097_SET_VERTEX_DATA2F_M := 0x1880%Z (only parsing).
Abbreviation NV097_SET_VERTEX_DATA4F_M := 0x1a00%Z (only parsing).
Abbreviation NV097_SET_VERTEX_DATA2S := 0x1900%Z (only parsing).
Abbreviation NV097_SET_VERTEX_DATA4UB := 0x1940%Z (only parsing).
Abbreviation NV097_SET_VERTEX_DATA4S_M := 0x1980%Z (only parsing).
Abbreviation NV097_SET_ZMIN_MAX_CONTROL_ZCLAMP_EN := 0xf0%Z (only parsing).
Abbreviation NV097_SET_ZMIN_MAX_CONTROL_ZCLAMP_EN_CULL := 0%Z (only parsing).
Abbreviation NV097_SET_ZMIN_MAX_CONTROL_ZCLAMP_EN_CLAMP := 1%Z (only parsing).
Abbreviation NV097_SET_ANTI_ALIASING_CONTROL_ENABLE := 1%Z (only parsing).
Abbreviation NV097_SET_SPECULAR_FOG_FACTOR := 0x1e20%Z (only parsing).
Abbreviation NV097_SET_SPECULAR_PARAMS_BACK := 0x1e28%Z (only parsing).
Abbreviation NV097_SET_COMBINER_COLOR_OCW := 0x1e40%Z (only parsing).
Abbreviation NV097_SET_TRANSFORM_DATA := 0x1e80%Z (only parsing).
Abbreviation NV097_SET_TRANSFORM_EXECUTION_MODE_MODE := 3%Z (only parsing).
Abbreviation NV097_SET_TRANSFORM_EXECUTION_MODE_RANGE_MODE := 0xfffffffc%Z (only parsing).
Abbreviation NV097_SET_OBJECT := 0%Z (only parsing).
Abbreviation NV097_NO_OPERATION := 0x100%Z (only parsing).
Abbreviation NV097_WAIT_FOR_IDLE := 0x110%Z (only parsing).
Abbreviation NV097_SET_FLIP_READ := 0x120%Z (only parsing).
Abbreviation NV097_SET_FLIP_WRITE := 0x124%Z (only parsing).
Abbreviation NV097_SET_FLIP_MODULO := 0x128%Z (only parsing).
Abbreviation NV097_FLIP_INCREMENT_WRITE := 0x12c%Z (only parsing).
Abbreviation NV097_FLIP_STALL := 0x130%Z (only parsing).
Abbreviation NV097_SET_CONTEXT_DMA_NOTIFIES := 0x180%Z (only parsing).
Abbreviation NV097_SET_CONTEXT_DMA_A := 0x184%Z (only parsing).
Abbreviation NV097_SET_CONTEXT_DMA_B := 0x188%Z (only parsing).
Abbreviation NV097_SET_CONTEXT_DMA_STATE := 0x190%Z (only parsing).
Abbreviation NV097_SET_CONTEXT_DMA_COLOR := 0x194%Z (only parsing).
Abbreviation NV097_SET_CONTEXT_DMA_ZETA := 0x198%Z (only parsing).
Abbreviation NV097_SET_CONTEXT_DMA_VERTEX_A := 0x19c%Z (only parsing).
Abbreviation NV097_SET_CONTEXT_DMA_VERTEX_B := 0x1a0%Z (only parsing).
Abbreviation NV097_SET_CONTEXT_DMA_SEMAPHORE := 0x1a4%Z (only parsing).
Abbreviation NV097_SET_CONTEXT_DMA_REPORT := 0x1a8%Z (only parsing).
Abbreviation NV097_SET_SURFACE_CLIP_HORIZONTAL := 0x200%Z (only parsing).
Abbreviation NV097_SET_SURFACE_CLIP_VERTICAL := 0x204%Z (only parsing).
Abbreviation NV097_SET_SURFACE_FORMAT := 0x208%Z (only parsing).
Abbreviation NV097_SET_SURFACE_PITCH := 0x20c%Z (only parsing).
Abbreviation NV097_SET_SURFACE_COLOR_OFFSET := 0x210%Z (only parsing).
Abbreviation NV097_SET_SURFACE_ZETA_OFFSET := 0x214%Z (only parsing).
Abbreviation NV097_SET_COMBINER_SPECULAR_FOG_CW0 := 0x288%Z (only parsing).
Abbreviation NV097_SET_COMBINER_SPECULAR_FOG_CW1 := 0x28c%Z (only parsing).
Abbreviation NV097_SET_CONTROL0 := 0x290%Z (only parsing).
Abbreviation NV097_SET_LIGHT_CONTROL := 0x294%Z (only parsing).
Abbreviation NV097_SET_COLOR_MATERIAL := 0x298%Z (only parsing).
Abbreviation NV097_SET_FOG_MODE := 0x29c%Z (only parsing).
Abbreviation NV097_SET_FOG_GEN_MODE := 0x2a0%Z (only parsing).
Abbreviation NV097_SET_FOG_ENABLE := 0x2a4%Z (only parsing).
Abbreviation NV097_SET_FOG_COLOR := 0x2a8%Z (only parsing).
Abbreviation NV097_SET_WINDOW_CLIP_TYPE := 0x2b4%Z (only parsing).
Abbreviation NV097_SET_ALPHA_TEST_ENABLE := 0x300%Z (only parsing).
Abbreviation NV097_SET_BLEND_ENABLE := 0x304%Z (only parsing).
Abbreviation NV097_SET_CULL_FACE_ENABLE := 0x308%Z (only parsing).
Abbreviation NV097_SET_DEPTH_TEST_ENABLE := 0x30c%Z (only parsing).
Abbreviation NV097_SET_DITHER_ENABLE := 0x310%Z (only parsing).
Abbreviation NV097_SET_LIGHTING_ENABLE := 0x314%Z (only parsing).
Abbreviation NV097_SET_POINT_PARAMS_ENABLE := 0x318%Z (only parsing).
Abbreviation NV097_SET_POINT_SMOOTH_ENABLE := 0x31c%Z (only parsing).
Abbreviation NV097_SET_LINE_SMOOTH_ENABLE := 0x320%Z (only parsing).
Abbreviation NV097_SET_POLY_SMOOTH_ENABLE := 0x324%Z (only parsing).
Abbreviation NV097_SET_SKIN_MODE := 0x328%Z (only parsing).
Abbreviation NV097_SET_STENCIL_TEST_ENABLE := 0x32c%Z (only parsing).
Abbreviation NV097_SET_POLY_OFFSET_POINT_ENABLE := 0x330%Z (only parsing).
Abbreviation NV097_SET_POLY_OFFSET_LINE_ENABLE := 0x334%Z (only parsing).
Abbreviation NV097_SET_POLY_OFFSET_FILL_ENABLE := 0x338%Z (only parsing).
Abbreviation NV097_SET_ALPHA_FUNC := 0x33c%Z (only parsing).
Abbreviation NV097_SET_ALPHA_REF := 0x340%Z (only parsing).
Abbreviation NV097_SET_BLEND_FUNC_SFACTOR := 0x344%Z (only parsing).
Abbreviation NV097_SET_BLEND_FUNC_DFACTOR := 0x348%Z (only parsing).
Abbreviation NV097_SET_BLEND_COLOR := 0x34c%Z (only parsing).
Abbreviation NV097_SET_BLEND_EQUATION := 0x350%Z (only parsing).
Abbreviation NV097_SET_DEPTH_FUNC := 0x354%Z (only parsing).
Abbreviation NV097_SET_COLOR_MASK := 0x358%Z (only parsing).
Abbreviation NV097_SET_DEPTH_MASK := 0x35c%Z (only parsing).
Abbreviation NV097_SET_STENCIL_MASK := 0x360%Z (only parsing).
Abbreviation NV097_SET_STENCIL_FUNC := 0x364%Z (only parsing).
Abbreviation NV097_SET_STENCIL_FUNC_REF := 0x368%Z (only parsing).
Abbreviation NV097_SET_STENCIL_FUNC_MASK := 0x36c%Z (only parsing).
Abbreviation NV097_SET_STENCIL_OP_FAIL := 0x370%Z (only parsing).
Abbreviation NV097_SET_STENCIL_OP_ZFAIL := 0x374%Z (only parsing).
Abbreviation NV097_SET_STENCIL_OP_ZPASS := 0x378%Z (only parsing).
Abbreviation NV097_SET_SHADE_MODE := 0x37c%Z (only parsing).
Abbreviation NV097_SET_PROVOKING_VERTEX := 0x9fc%Z (only parsing).
Abbreviation NV097_SET_POLYGON_OFFSET_SCALE_FACTOR := 0x384%Z (only parsing).
Abbreviation NV097_SET_POLYGON_OFFSET_BIAS := 0x388%Z (only parsing).
Abbreviation NV097_SET_FRONT_POLYGON_MODE := 0x38c%Z (only parsing).
Abbreviation NV097_SET_BACK_POLYGON_MODE := 0x390%Z (only parsing).
Abbreviation NV097_SET_CLIP_MIN := 0x394%Z (only parsing).
Abbreviation NV097_SET_CLIP_MAX := 0x398%Z (only parsing).
Abbreviation NV097_SET_CULL_FACE := 0x39c%Z (only parsing).
Abbreviation NV097_SET_FRONT_FACE := 0x3a0%Z (only parsing).
Abbreviation NV097_SET_NORMALIZATION_ENABLE := 0x3a4%Z (only parsing).
Abbreviation NV097_SET_MATERIAL_ALPHA := 0x3b4%Z (only parsing).
Abbreviation NV097_SET_SPECULAR_ENABLE := 0x3b8%Z (only parsing).
Abbreviation NV097_SET_LIGHT_ENABLE_MASK := 0x3bc%Z (only parsing).
Abbreviation NV097_SET_POINT_SIZE := 0x43c%Z (only parsing).
Abbreviation NV097_SET_TEXGEN_VIEW_MODEL := 0x9cc%Z (only parsing).
Abbreviation NV097_SET_TEXCOORD0_2S := 0x1598%Z (only parsing).
Abbreviation NV097_SET_TEXCOORD1_2S := 0x15c0%Z (only parsing).
Abbreviation NV097_SET_TEXCOORD2_2S := 0x15e8%Z (only parsing).
Abbreviation NV097_SET_TEXCOORD3_2S := 0x1610%Z (only parsing).
Abbreviation NV097_SET_FOG_COORD := 0x1698%Z (only parsing).
Abbreviation NV097_SET_WEIGHT1F := 0x169c%Z (only parsing).
Abbreviation NV097_SET_LOGIC_OP_ENABLE := 0x17bc%Z (only parsing).
Abbreviation NV097_SET_LOGIC_OP := 0x17c0%Z (only parsing).
Abbreviation NV097_CLEAR_REPORT_VALUE := 0x17c8%Z (only parsing).
Abbreviation NV097_SET_ZPASS_PIXEL_COUNT_ENABLE := 0x17cc%Z (only parsing).
Abbreviation NV097_GET_REPORT := 0x17d0%Z (only parsing).
Abbreviation NV097_ARRAY_ELEMENT16 := 0x1800%Z (only parsing).
Abbreviation NV097_ARRAY_ELEMENT32 := 0x1808%Z (only parsing).
Abbreviation NV097_SET_SEMAPHORE_OFFSET := 0x1d6c%Z (only parsing).
Abbreviation NV097_BACK_END_WRITE_SEMAPHORE_RELEASE := 0x1d70%Z (only parsing).
Abbreviation NV097_SET_ZMIN_MAX_CONTROL := 0x1d78%Z (only parsing).
Abbreviation NV097_SET_ANTI_ALIASING_CONTROL := 0x1d7c%Z (only parsing).
Abbreviation NV097_SET_ZSTENCIL_CLEAR_VALUE := 0x1d8c%Z (only parsing).
Abbreviation NV097_SET_COLOR_CLEAR_VALUE := 0x1d90%Z (only parsing).
Abbreviation NV097_CLEAR_SURFACE := 0x1d94%Z (only parsing).
Abbreviation NV097_SET_CLEAR_RECT_HORIZONTAL := 0x1d98%Z (only parsing).
Abbreviation NV097_SET_CLEAR_RECT_VERTICAL := 0x1d9c%Z (only parsing).
Abbreviation NV097_SET_SHADER_CLIP_PLANE_MODE := 0x17f8%Z (only parsing).
Abbreviation NV097_SET_COMBINER_CONTROL := 0x1e60%Z (only parsing).
Abbreviation NV097_SET_SHADOW_ZSLOPE_THRESHOLD := 0x1e68%Z (only parsing).
Abbreviation NV097_SET_SHADOW_DEPTH_FUNC := 0x1e6c%Z (only parsing).
Abbreviation NV097_SET_SHADER_STAGE_PROGRAM := 0x1e70%Z (only parsing).
Abbreviation NV097_SET_DOT_RGBMAPPING := 0x1e74%Z (only parsing).
Abbreviation NV097_SET_SHADER_OTHER_STAGE_INPUT := 0x1e78%Z (only parsing).
Abbreviation NV097_LAUNCH_TRANSFORM_PROGRAM := 0x1e90%Z (only parsing).
Abbreviation NV097_SET_TRANSFORM_EXECUTION_MODE := 0x1e94%Z (only parsing).
Abbreviation NV097_SET_TRANSFORM_PROGRAM_CXT_WRITE_EN := 0x1e98%Z (only parsing).
Abbreviation NV097_SET_TRANSFORM_PROGRAM_LOAD := 0x1e9c%Z (only parsing).
Abbreviation NV097_SET_TRANSFORM_PROGRAM_START := 0x1ea0%Z (only parsing).
Abbreviation NV097_SET_TRANSFORM_CONSTANT_LOAD := 0x1ea4%Z (only parsing).

(** ** Registers of PGRAPH *)

Abbreviation NV_PGRAPH_COMBINEALPHAI0 := 0x18c0%Z (only parsing).
Abbreviation NV_PGRAPH_COMBINESPECFOG0 := 0x1944%Z (only parsing).
Abbreviation NV_PGRAPH_COMBINESPECFOG1 := 0x1948%Z (only parsing).
Abbreviation NV_PGRAPH_TEXADDRESS0 := 0x19bc%Z (only parsing).
Abbreviation NV_PGRAPH_CONTROL_0 := 0x194c%Z (only parsing).
Abbreviation NV_PGRAPH_CONTROL_0_STENCIL_WRITE_ENABLE := 0x2000000%Z (only parsing).
Abbreviation NV_PGRAPH_SETUPRASTER := 0x1990%Z (only parsing).
Abbreviation NV_PGRAPH_SETUPRASTER_Z_FORMAT := 0x20000000%Z (only parsing).
Abbreviation NV_PGRAPH_CONTROL_0_Z_PERSPECTIVE_ENABLE := 0x800000%Z (only parsing).
Abbreviation NV_PGRAPH_CSV0_C := 0xfb8%Z (only parsing).
Abbreviation NV_PGRAPH_CSV0_C_SEPARATE_SPECULAR := 0x40000%Z (only parsing).
Abbreviation NV_PGRAPH_CSV0_C_LOCALEYE := 0x40000000%Z (only parsing).
Abbreviation NV_PGRAPH_CSV0_C_ALPHA_FROM_MATERIAL_SPECULAR := 0x20000%Z (only parsing).
Abbreviation NV_PGRAPH_CSV0_C_EMISSION := 0x6000000%Z (only parsing).
Abbreviation NV_PGRAPH_CSV0_C_AMBIENT := 0x1800000%Z (only parsing).
Abbreviation NV_PGRAPH_CSV0_C_DIFFUSE := 0x600000%Z (only parsing).
Abbreviation NV_PGRAPH_CSV0_C_SPECULAR := 0x180000%Z (only parsing).
Abbreviation NV_PGRAPH_CSV0_D_FOG_MODE := 0x200000%Z (only parsing).
Abbreviation NV_PGRAPH_CONTROL_3_FOG_MODE_LINEAR := 0%Z (only parsing).
Abbreviation NV_PGRAPH_CONTROL_3_FOG_MODE_EXP := 1%Z (only parsing).
Abbreviation NV_PGRAPH_CONTROL_3_FOG_MODE_EXP2 := 3%Z (only parsing).
Abbreviation NV_PGRAPH_CONTROL_3_FOG_MODE_EXP_ABS := 5%Z (only parsing).
Abbreviation NV_PGRAPH_CONTROL_3_FOG_MODE_EXP2_ABS := 7%Z (only parsing).
Abbreviation NV_PGRAPH_CONTROL_3_FOG_MODE_LINEAR_ABS := 4%Z (only parsing).
Abbreviation NV_PGRAPH_CONTROL_3 := 0x1958%Z (only parsing).
Abbreviation NV_PGRAPH_CONTROL_3_FOG_MODE := 0x70000%Z (only parsing).
Abbreviation NV_PGRAPH_CSV0_D_FOGGENMODE_SPEC_ALPHA := 0%Z (only parsing).
Abbreviation NV_PGRAPH_CSV0_D_FOGGENMODE_RADIAL := 1%Z (only parsing).
Abbreviation NV_PGRAPH_CSV0_D_FOGGENMODE_PLANAR := 2%Z (only parsing).
Abbreviation NV_PGRAPH_CSV0_D_FOGGENMODE_ABS_PLANAR := 3%Z (only parsing).
Abbreviation NV_PGRAPH_CSV0_D_FOGGENMODE_FOG_X := 4%Z (only parsing).
Abbreviation NV_PGRAPH_CSV0_D := 0xfb4%Z (only parsing).
Abbreviation NV_PGRAPH_CSV0_D_FOGGENMODE := 0x1c00000%Z (only parsing).
Abbreviation NV_PGRAPH_CSV0_D_FOGENABLE := 0x80000%Z (only parsing).
Abbreviation NV_PGRAPH_CONTROL_3_FOGENABLE := 0x100%Z (only parsing).
Abbreviation NV_PGRAPH_FOGCOLOR := 0x1980%Z (only parsing).
Abbreviation NV_PGRAPH_FOGCOLOR_RED := 0xff0000%Z (only parsing).
Abbreviation NV_PGRAPH_FOGCOLOR_GREEN := 0xff00%Z (only parsing).
Abbreviation NV_PGRAPH_FOGCOLOR_BLUE := 0xff%Z (only parsing).
Abbreviation NV_PGRAPH_FOGCOLOR_ALPHA := 0xff000000%Z (only parsing).
Abbreviation NV_PGRAPH_SETUPRASTER_WINDOWCLIPTYPE := 0x80000000%Z (only parsing).
Abbreviation NV_PGRAPH_WINDOWCLIPX0 := 0x1a44%Z (only parsing).
Abbreviation NV_PGRAPH_WINDOWCLIPY0 := 0x1a64%Z (only parsing).
Abbreviation NV_PGRAPH_CONTROL_0_ALPHATESTENABLE := 0x1000%Z (only parsing).
Abbreviation NV_PGRAPH_BLEND := 0x1804%Z (only parsing).
Abbreviation NV_PGRAPH_BLEND_EN := 8%Z (only parsing).
Abbreviation NV_PGRAPH_SETUPRASTER_CULLENABLE := 0x10000000%Z (only parsing).
Abbreviation NV_PGRAPH_CONTROL_0_ZENABLE := 0x4000%Z (only parsing).
Abbreviation NV_PGRAPH_CONTROL_0_DITHERENABLE := 0x400000%Z (only parsing).
Abbreviation NV_PGRAPH_CSV0_C_LIGHTING := 0x80000000%Z (only parsing).
Abbreviation NV_PGRAPH_CSV0_D_POINTPARAMSENABLE := 0x2000000%Z (only parsing).
Abbreviation NV_PGRAPH_CONTROL_3_POINTPARAMSENABLE := 0x200%Z (only parsing).
Abbreviation NV_PGRAPH_SETUPRASTER_POINTSMOOTHENABLE := 0x200%Z (only parsing).
Abbreviation NV_PGRAPH_SETUPRASTER_LINESMOOTHENABLE := 0x400%Z (only parsing).
Abbreviation NV_PGRAPH_SETUPRASTER_POLYSMOOTHENABLE := 0x800%Z (only parsing).
Abbreviation NV_PGRAPH_CSV0_D_SKIN := 0x1c000000%Z (only parsing).
Abbreviation NV_PGRAPH_CONTROL_1 := 0x1950%Z (only parsing).
Abbreviation NV_PGRAPH_CONTROL_1_STENCIL_TEST_ENABLE := 1%Z (only parsing).
Abbreviation NV_PGRAPH_SETUPRASTER_POFFSETPOINTENABLE := 0x40%Z (only parsing).
Abbreviation NV_PGRAPH_SETUPRASTER_POFFSETLINEENABLE := 0x80%Z (only parsing).
Abbreviation NV_PGRAPH_SETUPRASTER_POFFSETFILLENABLE := 0x100%Z (only parsing).
Abbreviation NV_PGRAPH_CONTROL_0_ALPHAFUNC := 0xf00%Z (only parsing).
Abbreviation NV_PGRAPH_CONTROL_0_ALPHAREF := 0xff%Z (only parsing).
Abbreviation NV_PGRAPH_BLEND_SFACTOR_ZERO := 0%Z (only parsing).
Abbreviation NV_PGRAPH_BLEND_SFACTOR_ONE := 1%Z (only parsing).
Abbreviation NV_PGRAPH_BLEND_SFACTOR_SRC_COLOR := 2%Z (only parsing).
Abbreviation NV_PGRAPH_BLEND_SFACTOR_ONE_MINUS_SRC_COLOR := 3%Z (only parsing).
Abbreviation NV_PGRAPH_BLEND_SFACTOR_SRC_ALPHA := 4%Z (only parsing).
Abbreviation NV_PGRAPH_BLEND_SFACTOR_ONE_MINUS_SRC_ALPHA := 5%Z (only parsing).
Abbreviation NV_PGRAPH_BLEND_SFACTOR_DST_ALPHA := 6%Z (only parsing).
Abbreviation NV_PGRAPH_BLEND_SFACTOR_ONE_MINUS_DST_ALPHA := 7%Z (only parsing).
Abbreviation NV_PGRAPH_BLEND_SFACTOR_DST_COLOR := 8%Z (only parsing).
Abbreviation NV_PGRAPH_BLEND_SFACTOR_ONE_MINUS_DST_COLOR := 9%Z (only parsing).
Abbreviation NV_PGRAPH_BLEND_SFACTOR_SRC_ALPHA_SATURATE := 0xa%Z (only parsing).
Abbreviation NV_PGRAPH_BLEND_SFACTOR_CONSTANT_COLOR := 0xc%Z (only parsing).
Abbreviation NV_PGRAPH_BLEND_SFACTOR_ONE_MINUS_CONSTANT_COLOR := 0xd%Z (only parsing).
Abbreviation NV_PGRAPH_BLEND_SFACTOR_CONSTANT_ALPHA := 0xe%Z (only parsing).
Abbreviation NV_PGRAPH_BLEND_SFACTOR_ONE_MINUS_CONSTANT_ALPHA := 0xf%Z (only parsing).
Abbreviation NV_PGRAPH_BLEND_SFACTOR := 0xf0%Z (only parsing).
Abbreviation NV_PGRAPH_BLEND_DFACTOR_ZERO := 0%Z (only parsing).
Abbreviation NV_PGRAPH_BLEND_DFACTOR_ONE := 1%Z (only parsing).
Abbreviation NV_PGRAPH_BLEND_DFACTOR_SRC_COLOR := 2%Z (only parsing).
Abbreviation NV_PGRAPH_BLEND_DFACTOR_ONE_MINUS_SRC_COLOR := 3%Z (only parsing).
Abbreviation NV_PGRAPH_BLEND_DFACTOR_SRC_ALPHA := 4%Z (only parsing).
Abbreviation NV_PGRAPH_BLEND_DFACTOR_ONE_MINUS_SRC_ALPHA := 5%Z (only parsing).
Abbreviation NV_PGRAPH_BLEND_DFACTOR_DST_ALPHA := 6%Z (only parsing).
Abbreviation NV_PGRAPH_BLEND_DFACTOR_ONE_MINUS_DST_ALPHA := 7%Z (only parsing).
Abbreviation NV_PGRAPH_BLEND_DFACTOR_DST_COLOR := 8%Z (only parsing).
Abbreviation NV_PGRAPH_BLEND_DFACTOR_ONE_MINUS_DST_COLOR := 9%Z (only parsing).
Abbreviation NV_PGRAPH_BLEND_DFACTOR_SRC_ALPHA_SATURATE := 0xa%Z (only parsing).
Abbreviation NV_PGRAPH_BLEND_DFACTOR_CONSTANT_COLOR := 0xc%Z (only parsing).
Abbreviation NV_PGRAPH_BLEND_DFACTOR_ONE_MINUS_CONSTANT_COLOR := 0xd%Z (only parsing).
Abbreviation NV_PGRAPH_BLEND_DFACTOR_CONSTANT_ALPHA := 0xe%Z (only parsing).
Abbreviation NV_PGRAPH_BLEND_DFACTOR_ONE_MINUS_CONSTANT_ALPHA := 0xf%Z (only parsing).
Abbreviation NV_PGRAPH_BLEND_DFACTOR := 0xf00%Z (only parsing).
Abbreviation NV_PGRAPH_BLENDCOLOR := 0x1808%Z (only parsing).
Abbreviation NV_PGRAPH_BLEND_EQN := 7%Z (only parsing).
Abbreviation NV_PGRAPH_CONTROL_0_ZFUNC := 0xf0000%Z (only parsing).
Abbreviation NV_PGRAPH_CONTROL_0_ALPHA_WRITE_ENABLE := 0x4000000%Z (only parsing).
Abbreviation NV_PGRAPH_CONTROL_0_RED_WRITE_ENABLE := 0x8000000%Z (only parsing).
Abbreviation NV_PGRAPH_CONTROL_0_GREEN_WRITE_ENABLE := 0x10000000%Z (only parsing).
Abbreviation NV_PGRAPH_CONTROL_0_BLUE_WRITE_ENABLE := 0x20000000%Z (only parsing).
Abbreviation NV_PGRAPH_CONTROL_0_ZWRITEENABLE := 0x1000000%Z (only parsing).
Abbreviation NV_PGRAPH_CONTROL_1_STENCIL_MASK_WRITE := 0xff000000%Z (only parsing).
Abbreviation NV_PGRAPH_CONTROL_1_STENCIL_FUNC := 0xf0%Z (only parsing).
Abbreviation NV_PGRAPH_CONTROL_1_STENCIL_REF := 0xff00%Z (only parsing).
Abbreviation NV_PGRAPH_CONTROL_1_STENCIL_MASK_READ := 0xff0000%Z (only parsing).
Abbreviation NV_PGRAPH_CONTROL_2_STENCIL_OP_V_KEEP := 1%Z (only parsing).
Abbreviation NV_PGRAPH_CONTROL_2_STENCIL_OP_V_ZERO := 2%Z (only parsing).
Abbreviation NV_PGRAPH_CONTROL_2_STENCIL_OP_V_REPLACE := 3%Z (only parsing).
Abbreviation NV_PGRAPH_CONTROL_2_STENCIL_OP_V_INCRSAT := 4%Z (only parsing).
Abbreviation NV_PGRAPH_CONTROL_2_STENCIL_OP_V_DECRSAT := 5%Z (only parsing).
Abbreviation NV_PGRAPH_CONTROL_2_STENCIL_OP_V_INVERT := 6%Z (only parsing).
Abbreviation NV_PGRAPH_CONTROL_2_STENCIL_OP_V_INCR := 7%Z (only parsing).
Abbreviation NV_PGRAPH_CONTROL_2_STENCIL_OP_V_DECR := 8%Z (only parsing).
Abbreviation NV_PGRAPH_CONTROL_2 := 0x1954%Z (only parsing).
Abbreviation NV_PGRAPH_CONTROL_2_STENCIL_OP_FAIL := 0xf%Z (only parsing).
Abbreviation NV_PGRAPH_CONTROL_2_STENCIL_OP_ZFAIL := 0xf0%Z (only parsing).
Abbreviation NV_PGRAPH_CONTROL_2_STENCIL_OP_ZPASS := 0xf00%Z (only parsing).
Abbreviation NV_PGRAPH_CONTROL_3_SHADEMODE := 0x80%Z (only parsing).
Abbreviation NV_PGRAPH_CONTROL_3_SHADEMODE_FLAT := 0%Z (only parsing).
Abbreviation NV_PGRAPH_CONTROL_3_SHADEMODE_SMOOTH := 1%Z (only parsing).
Abbreviation NV_PGRAPH_CONTROL_3_PROVOKING_VERTEX := 1%Z (only parsing).
Abbreviation NV_PGRAPH_ZOFFSETFACTOR := 0x1aa8%Z (only parsing).
Abbreviation NV_PGRAPH_ZOFFSETBIAS := 0x1aa4%Z (only parsing).
Abbreviation NV_PGRAPH_SETUPRASTER_FRONTFACEMODE_POINT := 1%Z (only parsing).
Abbreviation NV_PGRAPH_SETUPRASTER_FRONTFACEMODE_LINE := 2%Z (only parsing).
Abbreviation NV_PGRAPH_SETUPRASTER_FRONTFACEMODE_FILL := 0%Z (only parsing).
Abbreviation NV_PGRAPH_SETUPRASTER_FRONTFACEMODE := 3%Z (only parsing).
Abbreviation NV_PGRAPH_SETUPRASTER_BACKFACEMODE := 0xc%Z (only parsing).
Abbreviation NV_PGRAPH_ZCLIPMIN := 0x1a90%Z (only parsing).
Abbreviation NV_PGRAPH_ZCLIPMAX := 0x1abc%Z (only parsing).
Abbreviation NV_PGRAPH_SETUPRASTER_CULLCTRL_FRONT := 1%Z (only parsing).
Abbreviation NV_PGRAPH_SETUPRASTER_CULLCTRL_BACK := 2%Z (only parsing).
Abbreviation NV_PGRAPH_SETUPRASTER_CULLCTRL_FRONT_AND_BACK := 3%Z (only parsing).
Abbreviation NV_PGRAPH_SETUPRASTER_CULLCTRL := 0x600000%Z (only parsing).
Abbreviation NV_PGRAPH_SETUPRASTER_FRONTFACE := 0x800000%Z (only parsing).
Abbreviation NV_PGRAPH_CSV0_C_NORMALIZATION_ENABLE := 0x8000000%Z (only parsing).
Abbreviation NV_PGRAPH_CSV0_C_SPECULAR_ENABLE := 0x10000%Z (only parsing).
Abbreviation NV_PGRAPH_CSV0_D_LIGHTS := 0xffff%Z (only parsing).
Abbreviation NV_PGRAPH_CSV1_A_T0_S_DISABLE := 0%Z (only parsing).
Abbreviation NV_PGRAPH_CSV1_A_T0_S_EYE_LINEAR := 1%Z (only parsing).
Abbreviation NV_PGRAPH_CSV1_A_T0_S_OBJECT_LINEAR := 2%Z (only parsing).
Abbreviation NV_PGRAPH_CSV1_A_T0_S_SPHERE_MAP := 3%Z (only parsing).
Abbreviation NV_PGRAPH_CSV1_A_T0_S_REFLECTION_MAP := 5%Z (only parsing).
Abbreviation NV_PGRAPH_CSV1_A_T0_S_NORMAL_MAP := 4%Z (only parsing).
Abbreviation NV_PGRAPH_CSV1_A := 0xfc0%Z (only parsing).
Abbreviation NV_PGRAPH_CSV1_B := 0xfbc%Z (only parsing).
Abbreviation NV_PGRAPH_CSV1_A_T1_S := 0x700000%Z (only parsing).
Abbreviation NV_PGRAPH_CSV1_A_T0_S := 0x70%Z (only parsing).
Abbreviation NV_PGRAPH_CSV1_A_T1_T := 0x3800000%Z (only parsing).
Abbreviation NV_PGRAPH_CSV1_A_T0_T := 0x380%Z (only parsing).
Abbreviation NV_PGRAPH_CSV1_A_T1_R := 0x1c000000%Z (only parsing).
Abbreviation NV_PGRAPH_CSV1_A_T0_R := 0x1c00%Z (only parsing).
Abbreviation NV_PGRAPH_CSV1_A_T1_Q := 0xe0000000%Z (only parsing).
Abbreviation NV_PGRAPH_CSV1_A_T0_Q := 0xe000%Z (only parsing).
Abbreviation NV_PGRAPH_POINTSIZE := 0x198c%Z (only parsing).
Abbreviation NV_PGRAPH_FOGPARAM0 := 0x1984%Z (only parsing).
Abbreviation NV_PGRAPH_CSV0_D_TEXGEN_REF := 0x100000%Z (only parsing).
Abbreviation NV_PGRAPH_COMBINEFACTOR0 := 0x1880%Z (only parsing).
Abbreviation NV_PGRAPH_COMBINEFACTOR1 := 0x18a0%Z (only parsing).
Abbreviation NV_PGRAPH_COMBINEALPHAO0 := 0x18e0%Z (only parsing).
Abbreviation NV_PGRAPH_COMBINECOLORI0 := 0x1900%Z (only parsing).
Abbreviation NV_PGRAPH_COLORKEYCOLOR0 := 0x1870%Z (only parsing).
Abbreviation NV_PGRAPH_CHEOPS_OFFSET := 0xfc4%Z (only parsing).
Abbreviation NV_PGRAPH_CHEOPS_OFFSET_PROG_LD_PTR := 0xff%Z (only parsing).
Abbreviation NV_PGRAPH_CHEOPS_OFFSET_CONST_LD_PTR := 0xff00%Z (only parsing).
Abbreviation NV_PGRAPH_BLEND_LOGICOP_ENABLE := 0x10000%Z (only parsing).
Abbreviation NV_PGRAPH_BLEND_LOGICOP := 0xf000%Z (only parsing).
Abbreviation NV_PGRAPH_TEXOFFSET0 := 0x1a24%Z (only parsing).
Abbreviation NV_PGRAPH_TEXFMT0 := 0x1a04%Z (only parsing).
Abbreviation NV_PGRAPH_TEXFMT0_CONTEXT_DMA := 2%Z (only parsing).
Abbreviation NV_PGRAPH_TEXFMT0_CUBEMAPENABLE := 4%Z (only parsing).
Abbreviation NV_PGRAPH_TEXFMT0_BORDER_SOURCE := 8%Z (only parsing).
Abbreviation NV_PGRAPH_TEXFMT0_DIMENSIONALITY := 0xc0%Z (only parsing).
Abbreviation NV_PGRAPH_TEXFMT0_COLOR := 0x7f00%Z (only parsing).
Abbreviation NV_PGRAPH_TEXFMT0_MIPMAP_LEVELS := 0xf0000%Z (only parsing).
Abbreviation NV_PGRAPH_TEXFMT0_BASE_SIZE_U := 0xf00000%Z (only parsing).
Abbreviation NV_PGRAPH_TEXFMT0_BASE_SIZE_V := 0xf000000%Z (only parsing).
Abbreviation NV_PGRAPH_TEXFMT0_BASE_SIZE_P := 0xf0000000%Z (only parsing).
Abbreviation NV_PGRAPH_TEXCTL0_0 := 0x19cc%Z (only parsing).
Abbreviation NV_PGRAPH_TEXCTL1_0 := 0x19dc%Z (only parsing).
Abbreviation NV_PGRAPH_TEXFILTER0 := 0x19f4%Z (only parsing).
Abbreviation NV_PGRAPH_TEXIMAGERECT0 := 0x1a14%Z (only parsing).
Abbreviation NV_PGRAPH_TEXPALETTE0 := 0x1a34%Z (only parsing).
Abbreviation NV_PGRAPH_TEXPALETTE0_CONTEXT_DMA := 1%Z (only parsing).
Abbreviation NV_PGRAPH_TEXPALETTE0_LENGTH := 0xc%Z (only parsing).
Abbreviation NV_PGRAPH_TEXPALETTE0_OFFSET := 0xffffffc0%Z (only parsing).
Abbreviation NV_PGRAPH_BORDERCOLOR0 := 0x180c%Z (only parsing).
Abbreviation NV_PGRAPH_BUMPMAT00 := 0x181c%Z (only parsing).
Abbreviation NV_PGRAPH_BUMPMAT01 := 0x1828%Z (only parsing).
Abbreviation NV_PGRAPH_BUMPMAT11 := 0x1840%Z (only parsing).
Abbreviation NV_PGRAPH_BUMPMAT10 := 0x1834%Z (only parsing).
Abbreviation NV_PGRAPH_BUMPSCALE1 := 0x1858%Z (only parsing).
Abbreviation NV_PGRAPH_BUMPOFFSET1 := 0x184c%Z (only parsing).
Abbreviation NV_PGRAPH_EYEVEC0 := 0x1aac%Z (only parsing).
Abbreviation NV_PGRAPH_SEMAPHOREOFFSET := 0x19a0%Z (only parsing).
Abbreviation NV_PGRAPH_ZCOMPRESSOCCLUDE := 0x1a84%Z (only parsing).
Abbreviation NV_PGRAPH_ZCOMPRESSOCCLUDE_ZCLAMP_EN := 0x10%Z (only parsing).
Abbreviation NV_PGRAPH_ZCOMPRESSOCCLUDE_ZCLAMP_EN_CULL := 0%Z (only parsing).
Abbreviation NV_PGRAPH_ZCOMPRESSOCCLUDE_ZCLAMP_EN_CLAMP := 1%Z (only parsing).
Abbreviation NV_PGRAPH_ANTIALIASING := 0x1800%Z (only parsing).
Abbreviation NV_PGRAPH_ANTIALIASING_ENABLE := 1%Z (only parsing).
Abbreviation NV_PGRAPH_ZSTENCILCLEARVALUE := 0x1a88%Z (only parsing).
Abbreviation NV_PGRAPH_COLORCLEARVALUE := 0x186c%Z (only parsing).
Abbreviation NV_PGRAPH_CLEARRECTX := 0x1864%Z (only parsing).
Abbreviation NV_PGRAPH_CLEARRECTY := 0x1868%Z (only parsing).
Abbreviation NV_PGRAPH_SPECFOGFACTOR0 := 0x19ac%Z (only parsing).
Abbreviation NV_PGRAPH_SHADERCLIPMODE := 0x1994%Z (only parsing).
Abbreviation NV_PGRAPH_COMBINECOLORO0 := 0x1920%Z (only parsing).
Abbreviation NV_PGRAPH_COMBINECTL := 0x1940%Z (only parsing).
Abbreviation NV_PGRAPH_SHADOWZSLOPETHRESHOLD := 0x19a8%Z (only parsing).
Abbreviation NV_PGRAPH_SHADOWCTL := 0x19a4%Z (only parsing).
Abbreviation NV_PGRAPH_SHADOWCTL_SHADOW_ZFUNC := 7%Z (only parsing).
Abbreviation NV_PGRAPH_SHADERPROG := 0x199c%Z (only parsing).
Abbreviation NV_PGRAPH_SHADERCTL := 0x1998%Z (only parsing).
Abbreviation NV_PGRAPH_CSV0_D_MODE := 0xc0000000%Z (only parsing).
Abbreviation NV_PGRAPH_CSV0_D_RANGE_MODE := 0x40000%Z (only parsing).
Abbreviation NV_PGRAPH_CSV0_C_CHEOPS_PROGRAM_START := 0xff00%Z (only parsing).

(** ** Transform and lighting memory *)

Abbreviation NV_IGRAPH_XF_LTCTXA_CM_COL := 0x13%Z (only parsing).
Abbreviation NV_IGRAPH_XF_XFCTX_PMAT0 := 4%Z (only parsing).
Abbreviation NV_IGRAPH_XF_XFCTX_MMAT0 := 8%Z (only parsing).
Abbreviation NV_IGRAPH_XF_XFCTX_IMMAT0 := 0xc%Z (only parsing).
Abbreviation NV_IGRAPH_XF_XFCTX_CMAT0 := 0%Z (only parsing).
Abbreviation NV_IGRAPH_XF_XFCTX_T0MAT := 0x44%Z (only parsing).
Abbreviation NV_IGRAPH_XF_LTCTXA_FOG_K := 0x15%Z (only parsing).
Abbreviation NV_IGRAPH_XF_XFCTX_TG0MAT := 0x40%Z (only parsing).
Abbreviation NV_IGRAPH_XF_XFCTX_FOG := 0x39%Z (only parsing).
Abbreviation NV_IGRAPH_XF_LTCTXA_FR_AMB := 0x11%Z (only parsing).
Abbreviation NV_IGRAPH_XF_XFCTX_VPOFF := 0x3b%Z (only parsing).
Abbreviation NV_IGRAPH_XF_XFCTX_EYEP := 0x38%Z (only parsing).
Abbreviation NV_IGRAPH_XF_XFCTX_VPSCL := 0x3a%Z (only parsing).
Abbreviation NV_IGRAPH_XF_LTCTXB_L0_BAMB := 3%Z (only parsing).
Abbreviation NV_IGRAPH_XF_LTCTXB_L0_BDIF := 4%Z (only parsing).
Abbreviation NV_IGRAPH_XF_LTCTXB_L0_BSPC := 5%Z (only parsing).
Abbreviation NV_IGRAPH_XF_LTCTXB_L0_AMB := 0%Z (only parsing).
Abbreviation NV_IGRAPH_XF_LTCTXB_L0_DIF := 1%Z (only parsing).
Abbreviation NV_IGRAPH_XF_LTCTXB_L0_SPC := 2%Z (only parsing).
Abbreviation NV_IGRAPH_XF_LTC1_r0 := 4%Z (only parsing).
Abbreviation NV_IGRAPH_XF_LTCTXA_L0_K := 0%Z (only parsing).
Abbreviation NV_IGRAPH_XF_LTCTXA_L0_SPT := 1%Z (only parsing).
Abbreviation NV_IGRAPH_XF_LTCTXA_EYED := 0x10%Z (only parsing).

(** ** Vertex attributes and limits *)

Abbreviation NV2A_MAX_TRANSFORM_PROGRAM_LENGTH := 0x88%Z (only parsing).
Abbreviation NV2A_VERTEX_ATTR_POSITION := 0%Z (only parsing).
Abbreviation NV2A_VERTEX_ATTR_FOG := 5%Z (only parsing).
Abbreviation NV2A_VERTEX_ATTR_WEIGHT := 1%Z (only parsing).
Abbreviation NV2A_VERTEX_ATTR_NORMAL := 2%Z (only parsing).
Abbreviation NV2A_VERTEX_ATTR_TEXTURE0 := 9%Z (only parsing).
Abbreviation NV2A_VERTEX_ATTR_TEXTURE1 := 0xa%Z (only parsing).
Abbreviation NV2A_VERTEX_ATTR_TEXTURE2 := 0xb%Z (only parsing).
Abbreviation NV2A_VERTEX_ATTR_TEXTURE3 := 0xc%Z (only parsing).
Abbreviation NV2A_VERTEX_ATTR_DIFFUSE := 3%Z (only parsing).
Abbreviation NV2A_VERTEX_ATTR_SPECULAR := 4%Z (only parsing).
Abbreviation NV2A_MAX_BATCH_LENGTH := 0x7ffff%Z (only parsing).
Abbreviation NV2A_VERTEXSHADER_ATTRIBUTES := 0x10%Z (only parsing).
Abbreviation NV2A_LTCTXA_COUNT := 0x1a%Z (only parsing).
Abbreviation NV2A_LTCTXB_COUNT := 0x34%Z (only parsing).
Abbreviation NV2A_LTC1_COUNT := 0x14%Z (only parsing).
Abbreviation NV2A_MAX_LIGHTS := 8%Z (only parsing).
Abbreviation NV2A_MAX_TEXTURES := 4%Z (only parsing).

(** ** enum ShaderPrimitiveMode of pgraph/vsh_regs.h *)

Abbreviation PRIM_TYPE_INVALID := 0%Z (only parsing).
