(* ===== verification/Float32.v ===== *)
(** * Float32: the single-precision arithmetic of the C code

    Floats are kept as their 32 bits, the way the code moves them between registers,
    memory and [float] variables.  Arithmetic goes through the [spec_float] of the
    Standard Library: IEEE 754 with rounding to nearest even, each operation rounded by
    itself.  A NaN that an operation makes is the quiet NaN 0x7fc00000. *)

From Stdlib Require Import SpecFloat.
From stdpp Require Import base.
From S2P Require Import Prelude.

Definition float_of_bits (b : Z) : spec_float :=
  let s := Z.testbit b 31 in
  let e := (b >>> 23) &&& 0xff in
  let f := b &&& 0x7fffff in
  if e =? 0 then (if f =? 0 then S754_zero s else S754_finite s (Z.to_pos f) (-149))
  else if e =? 0xff then (if f =? 0 then S754_infinity s else S754_nan)
  else S754_finite s (Z.to_pos (f + 2 ^ 23)) (e - 150).

Definition sign_bit (s : bool) : Z := if s then 2 ^ 31 else 0.
Definition bits_of_float (x : spec_float) : Z :=
  match x with
  | S754_zero s => sign_bit s
  | S754_infinity s => sign_bit s + 0x7f800000
  | S754_nan => 0x7fc00000
  | S754_finite s m e =>
      if Zpos m <? 2 ^ 23 then sign_bit s + Zpos m
      else sign_bit s + (e + 150) * 2 ^ 23 + (Zpos m - 2 ^ 23)
  end.

(** Rounding a number [m * 2 ^ e] to single precision. *)
Definition round32 (m e : Z) : spec_float := binary_normalize 24 128 m e false.

(** [float] operators. *)
Definition f32_add (a b : Z) : Z := bits_of_float (SFadd 24 128 (float_of_bits a) (float_of_bits b)).
Definition f32_sub (a b : Z) : Z := bits_of_float (SFsub 24 128 (float_of_bits a) (float_of_bits b)).
Definition f32_mul (a b : Z) : Z := bits_of_float (SFmul 24 128 (float_of_bits a) (float_of_bits b)).
Definition f32_div (a b : Z) : Z := bits_of_float (SFdiv 24 128 (float_of_bits a) (float_of_bits b)).
Definition f32_gt (a b : Z) : bool := match SFcompare (float_of_bits a) (float_of_bits b) with Some Gt => true | _ => false end.
Definition f32_lt (a b : Z) : bool := f32_gt b a.
Definition f32_eq (a b : Z) : bool := match SFcompare (float_of_bits a) (float_of_bits b) with Some Eq => true | _ => false end.
Definition f32_max (a b : Z) : Z := if f32_gt a b then a else b.

(** [(float)n]. *)
Definition f32_of_Z (n : Z) : Z := bits_of_float (round32 n 0).

(** A quotient computed in [double] and stored in a [float]. *)
Definition to_single (x : spec_float) : spec_float :=
  match x with
  | S754_finite s m e => round32 (cond_Zopp s (Zpos m)) e
  | _ => x
  end.
Definition exact (n : Z) : spec_float :=
  match n with Z0 => S754_zero false | Zpos p => S754_finite false p 0 | Zneg p => S754_finite true p 0 end.
Definition f64_div (n d : Z) : Z := bits_of_float (to_single (SFdiv 53 1024 (exact n) (exact d))).

(** The decimal constants [n / 10 ^ k], of type [double] and of type [float]. *)
Definition dec (n k : Z) : Z := f64_div n (10 ^ k).
Definition decf (n k : Z) : Z := bits_of_float (SFdiv 24 128 (exact n) (exact (10 ^ k))).

Abbreviation f32_0 := 0%Z (only parsing).
Abbreviation f32_1 := 0x3f800000%Z (only parsing).
Abbreviation f32_2 := 0x40000000%Z (only parsing).
Abbreviation f32_m1 := 0xbf800000%Z (only parsing).
