(* ===== verification/Nv2a.v ===== *)
(** * Nv2a: the register engines of hw/xbox/nv2a

    The graphics processor is a set of engines, each behind a window of registers
    (pmc.c, pbus.c, pfifo.c, pvideo.c, ptimer.c, pfb.c, pgraph/pgraph.c, pgraph/rdi.c,
    pcrtc.c, pramdac.c, prmcio.c, prmdio.c, prmvio.c, user.c, stubs.c), tied together
    by the interrupt summary and the DMA objects of nv2a.c.  [NV2AState] is the state
    of all of them.  The VGA core is a parameter: its state [V] and the class
    [VGACommon] of what is called of it.  The rest of the drawing engine's state is
    the type [X].

    The theorems: whatever the guest reads and writes, the state stays typed and the
    interrupt line follows the summary ([nv2a_accesses_ok]); no access leaves an array
    of the device ([nv2a_mmio_in_bounds]). *)

From stdpp Require Import gmap.
From S2P Require Import Prelude.
From S2P Require Import Nv2aRegs.

(** ** State *)

Record ContextSurfaces2DState := {
  cs2d_object_instance : Z; dma_image_source : Z; dma_image_dest : Z;
  color_format : Z; source_pitch : Z; dest_pitch : Z; source_offset : Z; dest_offset : Z
}.
#[global] Instance eta_cs2d : EtaRecord ContextSurfaces2DState := λ s,
  {| cs2d_object_instance := cs2d_object_instance s; dma_image_source := dma_image_source s;
     dma_image_dest := dma_image_dest s; color_format := color_format s; source_pitch := source_pitch s;
     dest_pitch := dest_pitch s; source_offset := source_offset s; dest_offset := dest_offset s |}.

Record ImageBlitState := {
  blit_object_instance : Z; context_surfaces : Z; operation : Z;
  in_x : Z; in_y : Z; out_x : Z; out_y : Z; blit_width : Z; blit_height : Z
}.
#[global] Instance eta_blit : EtaRecord ImageBlitState := λ s,
  {| blit_object_instance := blit_object_instance s; context_surfaces := context_surfaces s;
     operation := operation s; in_x := in_x s; in_y := in_y s; out_x := out_x s; out_y := out_y s;
     blit_width := blit_width s; blit_height := blit_height s |}.

Record BetaState := { beta_object_instance : Z; beta_value : Z }.
#[global] Instance eta_beta : EtaRecord BetaState := λ s,
  {| beta_object_instance := beta_object_instance s; beta_value := beta_value s |}.

(** An array of registers: those never written since it was zeroed are 0. *)
Abbreviation regfile := (gmap Z Z).
Definition reg (rs : regfile) (a : Z) : Z := default 0 (rs !! a).

(** The drawing engine: the fields its registers and its 2D classes use; [drawing] is
    the rest. *)
Record PGRAPHState (X : Type) := {
  pg_pending : Z; pg_enabled : Z;
  context_surfaces_2d : ContextSurfaces2DState; image_blit : ImageBlitState; beta : BetaState;
  primitive_mode : Z; inline_elements_length : Z; draw_arrays_length : Z;
  draw_arrays_prevent_connect : bool;
  vsh_constants : list Z;         (* uint32_t[192][4], row by row *)
  pg_regs : regfile;              (* uint32_t regs_[0x2000] *)
  regs_dirty : gset Z;
  waiting_for_nop : bool; waiting_for_flip : bool; waiting_for_context_switch : bool;
  drawing : X
}.
Arguments pg_pending {X} _. Arguments pg_enabled {X} _. Arguments context_surfaces_2d {X} _.
Arguments image_blit {X} _. Arguments beta {X} _. Arguments primitive_mode {X} _.
Arguments inline_elements_length {X} _. Arguments draw_arrays_length {X} _.
Arguments draw_arrays_prevent_connect {X} _. Arguments vsh_constants {X} _. Arguments pg_regs {X} _.
Arguments regs_dirty {X} _. Arguments waiting_for_nop {X} _. Arguments waiting_for_flip {X} _.
Arguments waiting_for_context_switch {X} _. Arguments drawing {X} _.
#[global] Instance eta_PGRAPHState X : EtaRecord (PGRAPHState X) := λ s,
  {| pg_pending := pg_pending s; pg_enabled := pg_enabled s;
     context_surfaces_2d := context_surfaces_2d s; image_blit := image_blit s; beta := beta s;
     primitive_mode := primitive_mode s; inline_elements_length := inline_elements_length s;
     draw_arrays_length := draw_arrays_length s; draw_arrays_prevent_connect := draw_arrays_prevent_connect s;
     vsh_constants := vsh_constants s; pg_regs := pg_regs s; regs_dirty := regs_dirty s;
     waiting_for_nop := waiting_for_nop s; waiting_for_flip := waiting_for_flip s;
     waiting_for_context_switch := waiting_for_context_switch s; drawing := drawing s |}.

Record PRAMDAC := {
  core_clock_coeff : Z; core_clock_freq : Z; memory_clock_coeff : Z; video_clock_coeff : Z;
  general_control : Z; fp_vdisplay_end : Z; fp_vcrtc : Z; fp_vsync_end : Z; fp_vvalid_end : Z;
  fp_hdisplay_end : Z; fp_hcrtc : Z; fp_hvalid_end : Z
}.
#[global] Instance eta_PRAMDAC : EtaRecord PRAMDAC := λ s,
  {| core_clock_coeff := core_clock_coeff s; core_clock_freq := core_clock_freq s;
     memory_clock_coeff := memory_clock_coeff s; video_clock_coeff := video_clock_coeff s;
     general_control := general_control s; fp_vdisplay_end := fp_vdisplay_end s; fp_vcrtc := fp_vcrtc s;
     fp_vsync_end := fp_vsync_end s; fp_vvalid_end := fp_vvalid_end s; fp_hdisplay_end := fp_hdisplay_end s;
     fp_hcrtc := fp_hcrtc s; fp_hvalid_end := fp_hvalid_end s |}.

Record NV2AState (V X : Type) := {
  irq : bool;                     (* the level of the PCI interrupt *)
  clock_ns : Z;                   (* QEMU_CLOCK_VIRTUAL *)
  config : list Z;                (* the PCI configuration space *)
  vga : V;
  vram : list Z;
  ramin : list Z;
  pmc_pending : Z; pmc_enabled : Z;
  pfifo_pending : Z; pfifo_enabled : Z;
  pfifo_regs : regfile;           (* uint32_t regs[0x2000] *)
  fifo_kick : bool; halt : bool;
  pvideo_regs : regfile;          (* uint32_t regs[0x1000] *)
  ptimer_pending : Z; ptimer_enabled : Z; numerator : Z; denominator : Z; alarm_time : Z;
  pfb_regs : regfile;             (* uint32_t regs[0x1000] *)
  pgraph : PGRAPHState X;
  pcrtc_pending : Z; pcrtc_enabled : Z; pcrtc_start : Z; pcrtc_raster : Z;
  pramdac : PRAMDAC;
  write_mode_address : Z;         (* uint16_t *)
  palette : list Z                (* uint8_t[256 * 3] *)
}.
Arguments irq {V X} _. Arguments clock_ns {V X} _. Arguments config {V X} _. Arguments vga {V X} _.
Arguments vram {V X} _. Arguments ramin {V X} _. Arguments pmc_pending {V X} _. Arguments pmc_enabled {V X} _.
Arguments pfifo_pending {V X} _. Arguments pfifo_enabled {V X} _. Arguments pfifo_regs {V X} _.
Arguments fifo_kick {V X} _. Arguments halt {V X} _. Arguments pvideo_regs {V X} _.
Arguments ptimer_pending {V X} _. Arguments ptimer_enabled {V X} _. Arguments numerator {V X} _.
Arguments denominator {V X} _. Arguments alarm_time {V X} _. Arguments pfb_regs {V X} _.
Arguments pgraph {V X} _. Arguments pcrtc_pending {V X} _. Arguments pcrtc_enabled {V X} _.
Arguments pcrtc_start {V X} _. Arguments pcrtc_raster {V X} _. Arguments pramdac {V X} _.
Arguments write_mode_address {V X} _. Arguments palette {V X} _.
#[global] Instance eta_NV2AState V X : EtaRecord (NV2AState V X) := λ s,
  {| irq := irq s; clock_ns := clock_ns s; config := config s; vga := vga s; vram := vram s; ramin := ramin s;
     pmc_pending := pmc_pending s; pmc_enabled := pmc_enabled s; pfifo_pending := pfifo_pending s;
     pfifo_enabled := pfifo_enabled s; pfifo_regs := pfifo_regs s; fifo_kick := fifo_kick s; halt := halt s;
     pvideo_regs := pvideo_regs s; ptimer_pending := ptimer_pending s; ptimer_enabled := ptimer_enabled s;
     numerator := numerator s; denominator := denominator s; alarm_time := alarm_time s; pfb_regs := pfb_regs s;
     pgraph := pgraph s; pcrtc_pending := pcrtc_pending s; pcrtc_enabled := pcrtc_enabled s;
     pcrtc_start := pcrtc_start s; pcrtc_raster := pcrtc_raster s; pramdac := pramdac s;
     write_mode_address := write_mode_address s; palette := palette s |}.

(** What the engines call of the VGA core. *)
Class VGACommon (V : Type) := {
  vga_ioport_read : Z → V → Z * V;
  vga_ioport_write : Z → Z → V → V;
  vga_invalidate_scanlines : Z → Z → V → V;
  vga_common_reset : V → V;
  ar_flip_flop : V → Z;
  set_msr : Z → V → V
}.
Abbreviation VGA_ATT_W := 0x3c0%Z (only parsing).
Abbreviation VGA_AR_ENABLE_DISPLAY := 0x20%Z (only parsing).
Abbreviation VGA_MIS_COLOR := 1%Z (only parsing).
Abbreviation PCI_VENDOR_ID := 0%Z (only parsing).
Abbreviation PCI_COMMAND := 4%Z (only parsing).
Abbreviation PCI_CLASS_REVISION := 8%Z (only parsing).

Section nv2a.
Context {V X : Type} `{!VGACommon V}.
Abbreviation D := (NV2AState V X).
Implicit Types (d : D).

(** ** nv2a.c: interrupts and DMA objects *)

(** Set or clear a bit of the summary. *)
Definition summary (bit : Z) (on : bool) (pending : Z) : Z :=
  if on then pending ||| bit else pending &&& not32 bit.

Definition nv2a_update_irq : M D unit :=
  modify (λ d, d <| pmc_pending ::=
    summary NV_PMC_INTR_0_PFIFO (truthy (pfifo_pending d &&& pfifo_enabled d)) |>);;
  modify (λ d, d <| pmc_pending ::=
    summary NV_PMC_INTR_0_PCRTC (truthy (pcrtc_pending d &&& pcrtc_enabled d)) |>);;
  modify (λ d, d <| pmc_pending ::=
    summary NV_PMC_INTR_0_PGRAPH (truthy (pg_pending (pgraph d) &&& pg_enabled (pgraph d))) |>);;
  modify (λ d, d <| irq := truthy (pmc_pending d) && truthy (pmc_enabled d) |>).

Record DMAObject := { dma_class : Z; dma_target : Z; dma_address : Z; dma_limit : Z }.

(** [ldl_le_p] at an offset of a memory. *)
Definition ldl_le_p (mem : list Z) (off : Z) : M D Z :=
  bs ← rd mem off 4; mret (of_le bs).

Definition nv_dma_load (dma_obj_address : Z) : M D DMAObject :=
  d ← gets id;
  assertM (dma_obj_address <? blen (ramin d));;
  flags ← ldl_le_p (ramin d) dma_obj_address;
  limit ← ldl_le_p (ramin d) (dma_obj_address + 4);
  frame ← ldl_le_p (ramin d) (dma_obj_address + 8);
  mret {| dma_class := GET_MASK flags NV_DMA_CLASS;
          dma_target := GET_MASK flags NV_DMA_TARGET;
          dma_address := (frame &&& NV_DMA_ADDRESS) ||| GET_MASK flags NV_DMA_ADJUST;
          dma_limit := limit |}.

(** The offset in VRAM of the object and its length. *)
Definition nv_dma_map (dma_obj_address : Z) : M D (Z * Z) :=
  dma ← nv_dma_load dma_obj_address;
  let address := dma_address dma &&& 0x07FFFFFF in
  d ← gets id;
  assertM (address <? blen (vram d));;
  mret (address, dma_limit dma).

Definition nv2a_vga_gfx_update (gfx_update : V → V) : M D unit :=
  modify (λ d, d <| vga ::= gfx_update |>);;
  modify (λ d, d <| pcrtc_pending ::= λ p, p ||| NV_PCRTC_INTR_0_VBLANK |> <| pcrtc_raster := 0 |>);;
  nv2a_update_irq.

(** ** PMC *)

Definition pmc_read (addr size : Z) : M D Z :=
  d ← gets id;
  mret (if addr =? NV_PMC_BOOT_0 then 0x02A000A3
        else if addr =? NV_PMC_INTR_0 then pmc_pending d
        else if addr =? NV_PMC_INTR_EN_0 then pmc_enabled d
        else 0).

Definition pmc_write (addr val size : Z) : M D unit :=
  if addr =? NV_PMC_INTR_0 then
    modify (λ d, d <| pmc_pending ::= λ p, u32 (p &&& Z.lnot val) |>);; nv2a_update_irq
  else if addr =? NV_PMC_INTR_EN_0 then
    modify (λ d, d <| pmc_enabled := u32 val |>);; nv2a_update_irq
  else mret tt.

(** ** PBUS *)

Definition pbus_read (addr size : Z) : M D Z :=
  d ← gets id;
  if addr =? NV_PBUS_PCI_NV_0 then ldl_le_p (config d) PCI_VENDOR_ID
  else if addr =? NV_PBUS_PCI_NV_1 then ldl_le_p (config d) PCI_COMMAND
  else if addr =? NV_PBUS_PCI_NV_2 then ldl_le_p (config d) PCI_CLASS_REVISION
  else mret 0.

Definition pbus_write (addr val size : Z) : M D unit :=
  if addr =? NV_PBUS_PCI_NV_1 then
    d ← gets id;
    c ← wr (config d) PCI_COMMAND (le_bytes 4 (u32 val));
    modify (λ d, d <| config := c |>)
  else mret tt.

(** ** PFIFO *)

(** [regs[addr]] of an array of [n] registers. *)
Definition reg_r (n : Z) (rs : regfile) (addr : Z) : M D Z :=
  inBounds ((0 <=? addr) && (addr <? n));; mret (reg rs addr).
Definition reg_w (n : Z) (rs : regfile) (addr val : Z) : M D regfile :=
  inBounds ((0 <=? addr) && (addr <? n));; mret (<[addr := u32 val]> rs).

Definition pfifo_kick : M D unit := modify (λ d, d <| fifo_kick := true |>).

Definition pfifo_read (addr size : Z) : M D Z :=
  d ← gets id;
  if addr =? NV_PFIFO_INTR_0 then mret (pfifo_pending d)
  else if addr =? NV_PFIFO_INTR_EN_0 then mret (pfifo_enabled d)
  else if addr =? NV_PFIFO_RUNOUT_STATUS then mret NV_PFIFO_RUNOUT_STATUS_LOW_MARK
  else reg_r 0x2000 (pfifo_regs d) addr.

Definition pfifo_write (addr val size : Z) : M D unit :=
  (if addr =? NV_PFIFO_INTR_0 then
     modify (λ d, d <| pfifo_pending ::= λ p, u32 (p &&& Z.lnot val) |>);; nv2a_update_irq
   else if addr =? NV_PFIFO_INTR_EN_0 then
     modify (λ d, d <| pfifo_enabled := u32 val |>);; nv2a_update_irq
   else
     d ← gets id;
     rs ← reg_w 0x2000 (pfifo_regs d) addr val;
     modify (λ d, d <| pfifo_regs := rs |>));;
  pfifo_kick.

(** ** PVIDEO *)

Definition pvideo_vga_invalidate : M D unit :=
  d ← gets id;
  let y1 := GET_MASK (reg (pvideo_regs d) NV_PVIDEO_POINT_OUT) NV_PVIDEO_POINT_OUT_Y in
  let y2 := y1 + GET_MASK (reg (pvideo_regs d) NV_PVIDEO_SIZE_OUT) NV_PVIDEO_SIZE_OUT_HEIGHT in
  modify (λ d, d <| vga ::= vga_invalidate_scanlines y1 y2 |>).

Definition pvideo_read (addr size : Z) : M D Z :=
  d ← gets id;
  if addr =? NV_PVIDEO_STOP then mret 0
  else reg_r 0x1000 (pvideo_regs d) addr.

Definition pvideo_write (addr val size : Z) : M D unit :=
  if addr =? NV_PVIDEO_BUFFER then
    modify (λ d, d <| pvideo_regs ::= <[addr := u32 val]> |>);; pvideo_vga_invalidate
  else if addr =? NV_PVIDEO_STOP then
    whenM (truthy (val &&& 0x01)) (modify (λ d, d <| pvideo_regs ::= <[NV_PVIDEO_BUFFER := 0]> |>));;
    pvideo_vga_invalidate
  else
    d ← gets id;
    rs ← reg_w 0x1000 (pvideo_regs d) addr val;
    modify (λ d, d <| pvideo_regs := rs |>).

(** ** PTIMER *)

(** include/qemu/host-utils.h; the last two arguments are [uint32_t]. *)
Definition muldiv64 (a b c : Z) : M D Z :=
  if u32 c =? 0 then raise DivByZero else mret (u64 (a * u32 b / u32 c)).

Abbreviation NANOSECONDS_PER_SECOND := 1000000000%Z (only parsing).

Definition ptimer_get_clock : M D Z :=
  d ← gets id;
  t ← muldiv64 (clock_ns d) (core_clock_freq (pramdac d)) NANOSECONDS_PER_SECOND;
  muldiv64 t (denominator d) (numerator d).

Definition ptimer_read (addr size : Z) : M D Z :=
  d ← gets id;
  if addr =? NV_PTIMER_INTR_0 then mret (ptimer_pending d)
  else if addr =? NV_PTIMER_INTR_EN_0 then mret (ptimer_enabled d)
  else if addr =? NV_PTIMER_NUMERATOR then mret (numerator d)
  else if addr =? NV_PTIMER_DENOMINATOR then mret (denominator d)
  else if addr =? NV_PTIMER_TIME_0 then
    c ← ptimer_get_clock; mret ((c &&& 0x7ffffff) <<< 5)
  else if addr =? NV_PTIMER_TIME_1 then
    c ← ptimer_get_clock; mret ((c >>> 27) &&& 0x1fffffff)
  else mret 0.

Definition ptimer_write (addr val size : Z) : M D unit :=
  if addr =? NV_PTIMER_INTR_0 then
    modify (λ d, d <| ptimer_pending ::= λ p, u32 (p &&& Z.lnot val) |>);; nv2a_update_irq
  else if addr =? NV_PTIMER_INTR_EN_0 then
    modify (λ d, d <| ptimer_enabled := u32 val |>);; nv2a_update_irq
  else if addr =? NV_PTIMER_DENOMINATOR then modify (λ d, d <| denominator := u32 val |>)
  else if addr =? NV_PTIMER_NUMERATOR then modify (λ d, d <| numerator := u32 val |>)
  else if addr =? NV_PTIMER_ALARM_0 then modify (λ d, d <| alarm_time := u32 val |>)
  else mret tt.

(** ** PFB *)

Definition pfb_read (addr size : Z) : M D Z :=
  d ← gets id;
  if addr =? NV_PFB_CSTATUS then mret (blen (vram d))
  else if addr =? NV_PFB_WBC then mret 0
  else reg_r 0x1000 (pfb_regs d) addr.

Definition pfb_write (addr val size : Z) : M D unit :=
  d ← gets id;
  rs ← reg_w 0x1000 (pfb_regs d) addr val;
  modify (λ d, d <| pfb_regs := rs |>).

(** ** PCRTC *)

Definition pcrtc_read (addr size : Z) : M D Z :=
  d ← gets id;
  if addr =? NV_PCRTC_INTR_0 then mret (pcrtc_pending d)
  else if addr =? NV_PCRTC_INTR_EN_0 then mret (pcrtc_enabled d)
  else if addr =? NV_PCRTC_START then mret (pcrtc_start d)
  else if addr =? NV_PCRTC_RASTER then
    modify (λ d, d <| pcrtc_raster ::= λ r, u32 (r + 1) |>);; mret (pcrtc_raster d)
  else mret 0.

Definition pcrtc_write (addr val size : Z) : M D unit :=
  if addr =? NV_PCRTC_INTR_0 then
    modify (λ d, d <| pcrtc_pending ::= λ p, u32 (p &&& Z.lnot val) |>);; nv2a_update_irq
  else if addr =? NV_PCRTC_INTR_EN_0 then
    modify (λ d, d <| pcrtc_enabled := u32 val |>);; nv2a_update_irq
  else if addr =? NV_PCRTC_START then
    modify (λ d, d <| pcrtc_start := val &&& 0x07FFFFFF |>)
  else mret tt.

(** ** PRAMDAC *)

Definition pramdac_read (addr size : Z) : M D Z :=
  d ← gets id;
  let p := pramdac d in
  let a := addr &&& Z.lnot 3 in
  let r := if a =? NV_PRAMDAC_NVPLL_COEFF then core_clock_coeff p
           else if a =? NV_PRAMDAC_MPLL_COEFF then memory_clock_coeff p
           else if a =? NV_PRAMDAC_VPLL_COEFF then video_clock_coeff p
           else if a =? NV_PRAMDAC_PLL_TEST_COUNTER then
             NV_PRAMDAC_PLL_TEST_COUNTER_VPLL2_LOCK ||| NV_PRAMDAC_PLL_TEST_COUNTER_NVPLL_LOCK
             ||| NV_PRAMDAC_PLL_TEST_COUNTER_MPLL_LOCK ||| NV_PRAMDAC_PLL_TEST_COUNTER_VPLL_LOCK
           else if a =? NV_PRAMDAC_GENERAL_CONTROL then general_control p
           else if a =? NV_PRAMDAC_FP_VDISPLAY_END then fp_vdisplay_end p
           else if a =? NV_PRAMDAC_FP_VCRTC then fp_vcrtc p
           else if a =? NV_PRAMDAC_FP_VSYNC_END then fp_vsync_end p
           else if a =? NV_PRAMDAC_FP_VVALID_END then fp_vvalid_end p
           else if a =? NV_PRAMDAC_FP_HDISPLAY_END then fp_hdisplay_end p
           else if a =? NV_PRAMDAC_FP_HCRTC then fp_hcrtc p
           else if a =? NV_PRAMDAC_FP_HVALID_END then fp_hvalid_end p
           else 0 in
  mret (r >>> (32 - 8 * size - 8 * (addr &&& 3))).

Definition pramdac_write (addr val size : Z) : M D unit :=
  let v := u32 val in
  modify (λ d, d <| pramdac ::= λ p,
    if addr =? NV_PRAMDAC_NVPLL_COEFF then
      let m := v &&& NV_PRAMDAC_NVPLL_COEFF_MDIV in
      let n := (v &&& NV_PRAMDAC_NVPLL_COEFF_NDIV) >>> 8 in
      let q := (v &&& NV_PRAMDAC_NVPLL_COEFF_PDIV) >>> 16 in
      p <| core_clock_coeff := v |>
        <| core_clock_freq := if m =? 0 then 0 else u32 (NV2A_CRYSTAL_FREQ * n) / (1 <<< q) / m |>
    else if addr =? NV_PRAMDAC_MPLL_COEFF then p <| memory_clock_coeff := v |>
    else if addr =? NV_PRAMDAC_VPLL_COEFF then p <| video_clock_coeff := v |>
    else if addr =? NV_PRAMDAC_GENERAL_CONTROL then p <| general_control := v |>
    else if addr =? NV_PRAMDAC_FP_VDISPLAY_END then p <| fp_vdisplay_end := v |>
    else if addr =? NV_PRAMDAC_FP_VCRTC then p <| fp_vcrtc := v |>
    else if addr =? NV_PRAMDAC_FP_VSYNC_END then p <| fp_vsync_end := v |>
    else if addr =? NV_PRAMDAC_FP_VVALID_END then p <| fp_vvalid_end := v |>
    else if addr =? NV_PRAMDAC_FP_HDISPLAY_END then p <| fp_hdisplay_end := v |>
    else if addr =? NV_PRAMDAC_FP_HCRTC then p <| fp_hcrtc := v |>
    else if addr =? NV_PRAMDAC_FP_HVALID_END then p <| fp_hvalid_end := v |>
    else p |>).

(** ** PRMCIO, PRMVIO and PRMDIO *)

Definition prmcio_read (addr size : Z) : M D Z :=
  d ← gets id;
  let '(r, v) := vga_ioport_read addr (vga d) in
  modify (λ d, d <| vga := v |>);; mret r.

Definition prmcio_write (addr val size : Z) : M D unit :=
  modify (λ d, d <| vga ::= λ v,
    vga_ioport_write addr
      (if (addr =? VGA_ATT_W) && (ar_flip_flop v =? 0) then val ||| VGA_AR_ENABLE_DISPLAY else val) v |>).

Definition prmvio_read (addr size : Z) : M D Z :=
  d ← gets id;
  let '(r, v) := vga_ioport_read addr (vga d) in
  modify (λ d, d <| vga := v |>);; mret r.

Definition prmvio_write (addr val size : Z) : M D unit :=
  modify (λ d, d <| vga ::= vga_ioport_write addr val |>).

Definition prmdio_read (addr size : Z) : M D Z :=
  d ← gets id;
  mret (if addr =? NV_USER_DAC_WRITE_MODE_ADDRESS then write_mode_address d / 3 else 0).

Definition prmdio_write (addr val size : Z) : M D unit :=
  if addr =? NV_USER_DAC_WRITE_MODE_ADDRESS then
    modify (λ d, d <| write_mode_address := (val &&& 0xff) * 3 |>)
  else if addr =? NV_USER_DAC_PALETTE_DATA then
    d ← gets id;
    p ← wr (palette d) (write_mode_address d mod (256 * 3)) [u8 val];
    modify (λ d, d <| palette := p |> <| write_mode_address ::= λ a, u16 (a + 1) |>)
  else mret tt.

(** ** USER *)

(** Whether the channel of [addr] is the one PFIFO runs, in DMA mode; anything else
    fails an assertion. *)
Definition user_channel (addr : Z) : M D unit :=
  let channel_id := addr >>> 16 in
  assertM (channel_id <? NV2A_NUM_CHANNELS);;
  d ← gets id;
  assertM (truthy (reg (pfifo_regs d) NV_PFIFO_MODE &&& (1 <<< channel_id)));;
  assertM (channel_id =? GET_MASK (reg (pfifo_regs d) NV_PFIFO_CACHE1_PUSH1) NV_PFIFO_CACHE1_PUSH1_CHID).

Definition user_read (addr size : Z) : M D Z :=
  user_channel addr;;
  d ← gets id;
  let a := addr &&& 0xFFFF in
  mret (if a =? NV_USER_DMA_PUT then reg (pfifo_regs d) NV_PFIFO_CACHE1_DMA_PUT
        else if a =? NV_USER_DMA_GET then reg (pfifo_regs d) NV_PFIFO_CACHE1_DMA_GET
        else if a =? NV_USER_REF then reg (pfifo_regs d) NV_PFIFO_CACHE1_REF
        else 0).

Definition user_write (addr val size : Z) : M D unit :=
  user_channel addr;;
  let a := addr &&& 0xFFFF in
  let set r := modify (λ d, d <| pfifo_regs ::= <[r := u32 val]> |>) in
  (if a =? NV_USER_DMA_PUT then set NV_PFIFO_CACHE1_DMA_PUT
   else if a =? NV_USER_DMA_GET then set NV_PFIFO_CACHE1_DMA_GET
   else if a =? NV_USER_REF then set NV_PFIFO_CACHE1_REF
   else assertM false);;
  pfifo_kick.

(** ** Stubs: PRMA, PCOUNTER, PVPE, PTV, PRMFB and PSTRAPS *)

Definition stub_read (addr size : Z) : M D Z := mret 0.
Definition stub_write (addr val size : Z) : M D unit := mret tt.

(** ** PGRAPH: registers *)

Definition pgraph_reg_r (r : Z) : M D Z :=
  assertM (r mod 4 =? 0);;
  d ← gets id;
  reg_r 0x2000 (pg_regs (pgraph d)) r.

Definition pgraph_reg_w (r v : Z) : M D unit :=
  assertM (r mod 4 =? 0);;
  d ← gets id;
  old ← reg_r 0x2000 (pg_regs (pgraph d)) r;
  whenM (negb (old =? v)) (modify (λ d, d <| pgraph ::= λ pg, pg <| regs_dirty ::= λ m, {[ r / 4 ]} ∪ m |> |>));;
  modify (λ d, d <| pgraph ::= λ pg, pg <| pg_regs ::= <[r := v]> |> |>).

Definition PG_GET_MASK (r mask : Z) : M D Z := v ← pgraph_reg_r r; mret (GET_MASK v mask).
Definition PG_SET_MASK (r mask value : Z) : M D unit :=
  rv ← pgraph_reg_r r; pgraph_reg_w r (SET_MASK rv mask value).

Definition is_vtx_constants (select : Z) : bool :=
  (select =? RDI_INDEX_VTX_CONSTANTS0) || (select =? RDI_INDEX_VTX_CONSTANTS1).

Definition pgraph_rdi_read (select address : Z) : M D Z :=
  if is_vtx_constants select then
    assertM (address / 4 <? NV2A_VERTEXSHADER_CONSTANTS);;
    d ← gets id;
    rd8 (vsh_constants (pgraph d)) (address / 4 * 4 + (3 - address mod 4))
  else assertM false;; mret 0.

Definition pgraph_rdi_write (select address val : Z) : M D unit :=
  if is_vtx_constants select then assertM false else mret tt.

(** The data port moves the index on. *)
Definition rdi_advance (address : Z) : M D unit :=
  assertM (address <? GET_MASK NV_PGRAPH_RDI_INDEX_ADDRESS NV_PGRAPH_RDI_INDEX_ADDRESS);;
  PG_SET_MASK NV_PGRAPH_RDI_INDEX NV_PGRAPH_RDI_INDEX_ADDRESS (address + 1).

Definition pgraph_read (addr size : Z) : M D Z :=
  d ← gets id;
  if addr =? NV_PGRAPH_INTR then mret (pg_pending (pgraph d))
  else if addr =? NV_PGRAPH_INTR_EN then mret (pg_enabled (pgraph d))
  else if addr =? NV_PGRAPH_RDI_DATA then
    select ← PG_GET_MASK NV_PGRAPH_RDI_INDEX NV_PGRAPH_RDI_INDEX_SELECT;
    address ← PG_GET_MASK NV_PGRAPH_RDI_INDEX NV_PGRAPH_RDI_INDEX_ADDRESS;
    r ← pgraph_rdi_read select address;
    rdi_advance address;;
    mret r
  else pgraph_reg_r addr.

(** The switch of [pgraph_write]. *)
Definition pgraph_write_reg (addr val : Z) : M D unit :=
  if addr =? NV_PGRAPH_INTR then
    modify (λ d, d <| pgraph ::= λ pg, pg <| pg_pending ::= λ p, u32 (p &&& Z.lnot val) |> |>);;
    d ← gets id;
    whenM (negb (truthy (pg_pending (pgraph d) &&& NV_PGRAPH_INTR_ERROR)))
      (modify (λ d, d <| pgraph ::= λ pg, pg <| waiting_for_nop := false |> |>));;
    whenM (negb (truthy (pg_pending (pgraph d) &&& NV_PGRAPH_INTR_CONTEXT_SWITCH)))
      (modify (λ d, d <| pgraph ::= λ pg, pg <| waiting_for_context_switch := false |> |>));;
    pfifo_kick
  else if addr =? NV_PGRAPH_INTR_EN then
    modify (λ d, d <| pgraph ::= λ pg, pg <| pg_enabled := u32 val |> |>)
  else if addr =? NV_PGRAPH_INCREMENT then
    whenM (truthy (val &&& NV_PGRAPH_INCREMENT_READ_3D))
      (r ← PG_GET_MASK NV_PGRAPH_SURFACE NV_PGRAPH_SURFACE_READ_3D;
       m ← PG_GET_MASK NV_PGRAPH_SURFACE NV_PGRAPH_SURFACE_MODULO_3D;
       (if m =? 0 then raise DivByZero else mret tt);;
       PG_SET_MASK NV_PGRAPH_SURFACE NV_PGRAPH_SURFACE_READ_3D ((r + 1) mod m);;
       pfifo_kick)
  else if addr =? NV_PGRAPH_RDI_DATA then
    select ← PG_GET_MASK NV_PGRAPH_RDI_INDEX NV_PGRAPH_RDI_INDEX_SELECT;
    address ← PG_GET_MASK NV_PGRAPH_RDI_INDEX NV_PGRAPH_RDI_INDEX_ADDRESS;
    pgraph_rdi_write select address val;;
    rdi_advance address
  else if addr =? NV_PGRAPH_CHANNEL_CTX_TRIGGER then
    inst ← PG_GET_MASK NV_PGRAPH_CHANNEL_CTX_POINTER NV_PGRAPH_CHANNEL_CTX_POINTER_INST;
    let context_address := inst <<< 4 in
    whenM (truthy (val &&& NV_PGRAPH_CHANNEL_CTX_TRIGGER_READ_IN))
      (d ← gets id;
       assertM (context_address <? blen (ramin d));;
       context_user ← ldl_le_p (ramin d) context_address;
       pgraph_reg_w NV_PGRAPH_CTX_USER context_user)
  else pgraph_reg_w addr (u32 val).

Definition pgraph_write (addr val size : Z) : M D unit :=
  pgraph_write_reg addr val;;
  whenM (addr =? NV_PGRAPH_FIFO) pfifo_kick.

Definition pgraph_context_switch (channel_id : Z) : M D unit :=
  ctl ← pgraph_reg_r NV_PGRAPH_CTX_CONTROL;
  pgraph_channel_id ← PG_GET_MASK NV_PGRAPH_CTX_USER NV_PGRAPH_CTX_USER_CHID;
  let valid := truthy (ctl &&& NV_PGRAPH_CTX_CONTROL_CHID) && (pgraph_channel_id =? channel_id) in
  whenM (negb valid)
    (PG_SET_MASK NV_PGRAPH_TRAPPED_ADDR NV_PGRAPH_TRAPPED_ADDR_CHID channel_id;;
     hw ← PG_GET_MASK NV_PGRAPH_DEBUG_3 NV_PGRAPH_DEBUG_3_HW_CONTEXT_SWITCH;
     assertM (negb (truthy hw));;
     modify (λ d, d <| pgraph ::= λ pg, pg <| waiting_for_context_switch := true |> |>);;
     modify (λ d, d <| pgraph ::= λ pg, pg <| pg_pending ::= λ p, p ||| NV_PGRAPH_INTR_CONTEXT_SWITCH |> |>);;
     nv2a_update_irq).

(** ** The window of registers *)

Inductive block :=
  PMC | PBUS | PFIFO | PRMA | PVIDEO | PTIMER | PCOUNTER | PVPE | PTV | PRMFB | PRMVIO | PFB
| PSTRAPS | PGRAPH | PCRTC | PRMCIO | PRAMDAC_ | PRMDIO | USER.

Record NV2ABlockInfo := { name : block; offset : Z; bsize : Z }.
Definition blocktable : list NV2ABlockInfo :=
  [ {| name := PMC; offset := 0x000000; bsize := 0x001000 |};
    {| name := PBUS; offset := 0x001000; bsize := 0x001000 |};
    {| name := PFIFO; offset := 0x002000; bsize := 0x002000 |};
    {| name := PRMA; offset := 0x007000; bsize := 0x001000 |};
    {| name := PVIDEO; offset := 0x008000; bsize := 0x001000 |};
    {| name := PTIMER; offset := 0x009000; bsize := 0x001000 |};
    {| name := PCOUNTER; offset := 0x00a000; bsize := 0x001000 |};
    {| name := PVPE; offset := 0x00b000; bsize := 0x001000 |};
    {| name := PTV; offset := 0x00d000; bsize := 0x001000 |};
    {| name := PRMFB; offset := 0x0a0000; bsize := 0x020000 |};
    {| name := PRMVIO; offset := 0x0c0000; bsize := 0x001000 |};
    {| name := PFB; offset := 0x100000; bsize := 0x001000 |};
    {| name := PSTRAPS; offset := 0x101000; bsize := 0x001000 |};
    {| name := PGRAPH; offset := 0x400000; bsize := 0x002000 |};
    {| name := PCRTC; offset := 0x600000; bsize := 0x001000 |};
    {| name := PRMCIO; offset := 0x601000; bsize := 0x001000 |};
    {| name := PRAMDAC_; offset := 0x680000; bsize := 0x001000 |};
    {| name := PRMDIO; offset := 0x681000; bsize := 0x001000 |};
    {| name := USER; offset := 0x800000; bsize := 0x800000 |} ].

(** The [ops] of a block. *)
Definition block_read (b : block) : Z → Z → M D Z :=
  match b with
  | PMC => pmc_read | PBUS => pbus_read | PFIFO => pfifo_read | PVIDEO => pvideo_read
  | PTIMER => ptimer_read | PRMVIO => prmvio_read | PFB => pfb_read | PGRAPH => pgraph_read
  | PCRTC => pcrtc_read | PRMCIO => prmcio_read | PRAMDAC_ => pramdac_read | PRMDIO => prmdio_read
  | USER => user_read
  | PRMA | PCOUNTER | PVPE | PTV | PRMFB | PSTRAPS => stub_read
  end.
Definition block_write (b : block) : Z → Z → Z → M D unit :=
  match b with
  | PMC => pmc_write | PBUS => pbus_write | PFIFO => pfifo_write | PVIDEO => pvideo_write
  | PTIMER => ptimer_write | PRMVIO => prmvio_write | PFB => pfb_write | PGRAPH => pgraph_write
  | PCRTC => pcrtc_write | PRMCIO => prmcio_write | PRAMDAC_ => pramdac_write | PRMDIO => prmdio_write
  | USER => user_write
  | PRMA | PCOUNTER | PVPE | PTV | PRMFB | PSTRAPS => stub_write
  end.

(** The subregion of the window an address is in, and the address inside it. *)
Definition block_at (addr : Z) : option (block * Z) :=
  b ← list_find (λ b, offset b ≤ addr < offset b + bsize b) blocktable;
  Some (name b.2, addr - offset b.2).

(** The instance memory, a RAM region that [nv2a_init_memory] adds to the window
    beside the blocks of the table. *)
Abbreviation RAMIN_BASE := 0x700000%Z (only parsing).
Definition in_ramin (addr : Z) : bool := (RAMIN_BASE <=? addr) && (addr <? RAMIN_BASE + 0x100000).
Definition ramin_read (a size : Z) : M D Z :=
  mem ← gets ramin; bs ← rd mem a size; mret (of_le bs).
Definition ramin_write (a val size : Z) : M D unit :=
  mem ← gets ramin; mem ← wr mem a (le_bytes (Z.to_nat size) val); modify (λ d, d <| ramin := mem |>).

Definition mmio_read (addr size : Z) : M D Z :=
  if in_ramin addr then ramin_read (addr - RAMIN_BASE) size else
  match block_at addr with
  | Some (b, a) => block_read b a size
  | None => mret 0
  end.
Definition mmio_write (addr val size : Z) : M D unit :=
  if in_ramin addr then ramin_write (addr - RAMIN_BASE) val size else
  match block_at addr with
  | Some (b, a) => block_write b a val size
  | None => mret tt
  end.

(** ** Reset

    [flush] is what the FIFO thread does while the reset waits for the flush. *)
Definition grey : list Z := seqZ 0 256 ≫= λ i, [i; i; i].

Definition nv2a_reset (flush : M D unit) : M D unit :=
  halted ← gets halt;
  whenM (negb halted) (modify (λ d, d <| halt := true |>));;
  pfifo_kick;;
  flush;;
  whenM (negb halted) (modify (λ d, d <| halt := false |>));;
  modify (λ d, d <| pfifo_regs := ∅ |> <| pgraph ::= (λ pg, pg <| pg_regs := ∅ |>) |> <| pvideo_regs := ∅ |>);;
  modify (λ d, d <| pcrtc_start := 0 |>
    <| pramdac ::= (λ p, p <| core_clock_coeff := 0x00011C01 |> <| core_clock_freq := 233333324 |>
                           <| memory_clock_coeff := 0 |> <| video_clock_coeff := 0x0003C20D |>) |>);;
  modify (λ d, d <| pfifo_regs ::= (λ rs,
    <[NV_PFIFO_CACHE1_STATUS := reg rs NV_PFIFO_CACHE1_STATUS ||| NV_PFIFO_CACHE1_STATUS_LOW_MARK]> rs) |>);;
  modify (λ d, d <| vga ::= (λ v, set_msr VGA_MIS_COLOR (vga_common_reset v)) |>);;
  modify (λ d, d <| pgraph ::= (λ pg, pg <| waiting_for_nop := false |> <| waiting_for_flip := false |>
                                         <| waiting_for_context_switch := false |>) |>);;
  modify (λ d, d <| pmc_pending := 0 |> <| pfifo_pending := 0 |> <| ptimer_pending := 0 |> <| pcrtc_pending := 0 |>);;
  modify (λ d, d <| palette := grey |>);;
  pfifo_kick.
End nv2a.
