(* ===== verification/Nv2aSpec.v ===== *)
(** * Nv2aSpec: typing, bounds and interrupts of the register engines

    [good] is the invariant of the device: the arrays have their sizes, the integers
    their widths, and the interrupt summary and the line agree with the engines.  Every
    operation keeps it and faults only as [may_stop] says, which is a failed assertion or
    a division by zero and never an access outside an array. *)

From stdpp Require Import gmap.
From S2P Require Import Prelude.
From S2P Require Import Nv2aRegs.
From S2P Require Import Nv2a.

(** What the type of [vga_ioport_read] promises. *)
Class VGALaws (V : Type) `{!VGACommon V} :=
  vga_read_u32 : ∀ a v, is_u32 (vga_ioport_read (V:=V) a v).1.

Section spec.
Context {V X : Type} `{!VGACommon V} `{!VGALaws V}.
Abbreviation D := (NV2AState V X).
Implicit Types (d : D).

(** ** The invariant *)

Definition regs_u32 (rs : regfile) : Prop := map_Forall (λ _ v, is_u32 v) rs.

Definition pramdac_u32 (p : PRAMDAC) : Prop := Forall is_u32
  [core_clock_coeff p; core_clock_freq p; memory_clock_coeff p; video_clock_coeff p; general_control p;
   fp_vdisplay_end p; fp_vcrtc p; fp_vsync_end p; fp_vvalid_end p; fp_hdisplay_end p; fp_hcrtc p;
   fp_hvalid_end p].

Record typed d : Prop := {
  t_config : blen (config d) = 256 ∧ bytes (config d);
  t_vram : is_u32 (blen (vram d)) ∧ bytes (vram d);
  t_ramin : blen (ramin d) = 0x100000 ∧ bytes (ramin d);
  t_palette : blen (palette d) = 768 ∧ bytes (palette d);
  t_vsh : blen (vsh_constants (pgraph d)) = 768 ∧ Forall is_u32 (vsh_constants (pgraph d));
  t_pmc : is_u32 (pmc_pending d) ∧ is_u32 (pmc_enabled d);
  t_sources : ∀ i, 0 ≤ i → Z.testbit (pmc_pending d) i = true → i = 8 ∨ i = 12 ∨ i = 24;
  t_pfifo : is_u32 (pfifo_pending d) ∧ is_u32 (pfifo_enabled d);
  t_ptimer : is_u32 (ptimer_pending d) ∧ is_u32 (ptimer_enabled d);
  t_ratio : is_u32 (numerator d) ∧ is_u32 (denominator d);
  t_pcrtc : is_u32 (pcrtc_pending d) ∧ is_u32 (pcrtc_enabled d);
  t_raster : is_u32 (pcrtc_raster d) ∧ 0 ≤ pcrtc_start d < 2 ^ 27;
  t_pg : is_u32 (pg_pending (pgraph d)) ∧ is_u32 (pg_enabled (pgraph d));
  t_pramdac : pramdac_u32 (pramdac d);
  t_dac : is_u16 (write_mode_address d);
  t_fifo_regs : regs_u32 (pfifo_regs d);
  t_pg_regs : regs_u32 (pg_regs (pgraph d));
  t_pvideo_regs : regs_u32 (pvideo_regs d);
  t_pfb_regs : regs_u32 (pfb_regs d)
}.

(** The line is up when the summary has a bit and is enabled, and the summary has
    the bit of PFIFO and of PCRTC when the engine has an enabled interrupt. *)
Record irq_ok d : Prop := {
  io_line : irq d = truthy (pmc_pending d) && truthy (pmc_enabled d);
  io_pfifo : Z.testbit (pmc_pending d) 8 = truthy (pfifo_pending d &&& pfifo_enabled d);
  io_pcrtc : Z.testbit (pmc_pending d) 24 = truthy (pcrtc_pending d &&& pcrtc_enabled d)
}.

Definition good d : Prop := typed d ∧ irq_ok d.

(** ** Safe code *)

Definition safe {A} (E : fault → Prop) (P : A → Prop) (m : M D A) : Prop :=
  ∀ d, good d → wpE m (λ a d', P a ∧ good d') E d.

Lemma safe_ret {A} E (P : A → Prop) a : P a → safe E P (mret a).
Proof. by intros Ha d Hd. Qed.
Lemma safe_bind {A B} E (P : A → Prop) (Q : B → Prop) (m : M D A) (k : A → M D B) :
  safe E P m → (∀ a, P a → safe E Q (k a)) → safe E Q (m ≫= k).
Proof.
  intros Hm Hk d Hd. apply wpE_bind. eapply wpE_mono; [by apply Hm|].
  intros a d' [Ha Hd']. by apply Hk.
Qed.
Lemma safe_gets {A} E (f : D → A) (P : A → Prop) : (∀ d, good d → P (f d)) → safe E P (gets f).
Proof. intros H d Hd. split; [by apply H|done]. Qed.
Lemma safe_modify E f (P : () → Prop) : P tt → (∀ d, good d → good (f d)) → safe E P (modify f).
Proof. intros HP H d Hd. split; [done|by apply H]. Qed.
Lemma safe_assert (E : fault → Prop) b (P : () → Prop) : E AssertFailed → (b = true → P tt) → safe E P (assertM b).
Proof. intros HE HP d Hd. apply wpE_assert; auto. Qed.
Lemma safe_inBounds E b (P : () → Prop) : b = true → P tt → safe E P (inBounds b).
Proof. intros -> HP d Hd. by split. Qed.
Lemma safe_raise {A} (E : fault → Prop) e (P : A → Prop) : E e → safe E P (raise e).
Proof. intros HE d Hd. done. Qed.
Lemma safe_when E b m (P : () → Prop) : P tt → (b = true → safe E P m) → safe E P (whenM b m).
Proof. destruct b; [auto|]. intros HP _. by apply safe_ret. Qed.
Lemma safe_if {A} E (b : bool) (P : A → Prop) m1 m2 :
  (b = true → safe E P m1) → (b = false → safe E P m2) → safe E P (if b then m1 else m2).
Proof. destruct b; auto. Qed.

(** Interrupt handling: the update restores the agreement. *)
Lemma summary_u32 bit on p : is_u32 bit → is_u32 p → is_u32 (summary bit on p).
Proof. intros. unfold summary. destruct on; [by apply (lor_bound 32)|by apply (land_bound 32)]. Qed.

Lemma summary_bit k on p i :
  0 ≤ k < 32 → 0 ≤ i < 32 →
  Z.testbit (summary (2 ^ k) on p) i = if i =? k then on else Z.testbit p i.
Proof.
  intros Hk Hi. unfold summary, not32, u32. destruct on; autorewrite with bits;
    rewrite Z.pow2_bits_eqb by lia; destruct (Z.eqb_spec k i), (Z.eqb_spec i k); subst; try lia;
    by rewrite ?orb_true_r, ?orb_false_r, ?andb_false_r, ?andb_true_r.
Qed.

Lemma update_irq_good (d : D) :
  typed d → wp nv2a_update_irq (λ _ d', good d') d.
Proof.
  intros W. unfold nv2a_update_irq. do 3 apply wpE_bind, wpE_modify. apply wpE_modify.
  assert (∀ p o1 o2 o3, is_u32 p → is_u32 (summary 0x1000 o3 (summary 0x1000000 o2 (summary 0x100 o1 p)))) as Hu
    by (intros; by repeat apply summary_u32).
  split; [destruct W|]; split; try done; cbn -[Z.testbit].
  - split; [|apply t_pmc0]. apply Hu, t_pmc0.
  - intros i Hi. change 0x1000 with (2 ^ 12). change 0x1000000 with (2 ^ 24). change 0x100 with (2 ^ 8).
    destruct (Z.lt_ge_cases i 32).
    + rewrite !summary_bit by lia. repeat (case_match; [lia|]). by apply t_sources0.
    + rewrite (testbit_high 32); [done| |done]. apply Hu, t_pmc0.
  - change 0x1000 with (2 ^ 12). change 0x1000000 with (2 ^ 24). change 0x100 with (2 ^ 8).
    by rewrite !summary_bit by lia.
  - change 0x1000 with (2 ^ 12). change 0x1000000 with (2 ^ 24). change 0x100 with (2 ^ 8).
    by rewrite !summary_bit by lia.
Qed.

Lemma safe_update E (f : D → D) (P : () → Prop) :
  P tt → (∀ d, typed d → typed (f d)) → safe E P (modify f;; nv2a_update_irq).
Proof.
  intros HP Hf d [W _]. apply wpE_bind, wpE_modify.
  eapply wpE_mono; [eapply wpE_mono_E; [by apply update_irq_good, Hf|done]|]. intros [] d' Hd'. done.
Qed.

(** ** Leaves *)

Lemma reg_u32 rs a : regs_u32 rs → is_u32 (reg rs a).
Proof.
  intros H. unfold reg. destruct (rs !! a) as [v|] eqn:E; [by eapply H|done].
Qed.
Lemma regs_u32_insert rs a v : regs_u32 rs → is_u32 v → regs_u32 (<[a := v]> rs).
Proof. intros. by apply map_Forall_insert_2. Qed.
Lemma regs_u32_empty : regs_u32 ∅.
Proof. apply map_Forall_empty. Qed.

Lemma safe_reg_r E n rs a : regs_u32 rs → 0 ≤ a < n → safe E is_u32 (reg_r n rs a).
Proof.
  intros. eapply (safe_bind E (λ _, True)); [apply safe_inBounds; [lia|done]|].
  intros [] _. by apply safe_ret, reg_u32.
Qed.
Lemma safe_reg_w E n rs a v : regs_u32 rs → 0 ≤ a < n → safe E regs_u32 (reg_w n rs a v).
Proof.
  intros. eapply (safe_bind E (λ _, True)); [apply safe_inBounds; [lia|done]|].
  intros [] _. apply safe_ret, regs_u32_insert; [done|apply u32_range].
Qed.
Lemma safe_ldl E mem off : bytes mem → 0 ≤ off → off + 4 ≤ blen mem → safe E is_u32 (ldl_le_p mem off).
Proof.
  intros Hb Ho Hl. intros d Hd. unfold wpE, ldl_le_p.
  rewrite (run_bind _ _ (slice off 4 mem) _ d) by (apply run_rd; lia). split; [|done].
  pose proof (of_le_range (slice off 4 mem) (bytes_slice _ _ _ Hb)) as H.
  by rewrite blen_slice in H by lia.
Qed.
Lemma safe_wr E buf off bs n : blen buf = n → bytes buf → bytes bs → 0 ≤ off → off + blen bs ≤ blen buf →
  safe E (λ b, blen b = n ∧ bytes b) (wr buf off bs).
Proof.
  intros Hn Hb Hbs Ho Hl d Hd. unfold wpE. rewrite run_wr by lia. split; [|done].
  rewrite blen_put. auto with bytes.
Qed.

(** Writes to fields the interrupts do not depend on, and to those they do. *)
Ltac keep_typed := destruct 1; split; try assumption; cbn -[Z.testbit blen].
Ltac keep := intros ? [Hw Ho]; split; [revert Hw; keep_typed|by destruct Ho; split].

Lemma safe_kick E (P : () → Prop) : P tt → safe E P pfifo_kick.
Proof. intros. apply safe_modify; [done|]. keep. Qed.

(** Walk down code: [safe_step] takes one bind, branch or primitive. *)
Ltac safe_step :=
  lazymatch goal with
  | |- safe _ _ (gets id ≫= _) =>
      eapply (safe_bind _ good); [by apply safe_gets|let d := fresh "d" in let H := fresh "Hd" in intros d H]
  | |- safe _ _ (mret _) => apply safe_ret
  | |- safe _ _ (modify _;; nv2a_update_irq) => apply safe_update; [done|intros ?; keep_typed]
  | |- safe _ _ (modify _) => apply safe_modify; [done|keep]
  | |- safe _ _ (if _ then _ else _) => apply safe_if; intros ?
  | |- safe _ _ (whenM _ _) => apply safe_when; [done|intros ?]
  | |- safe _ _ pfifo_kick => by apply safe_kick
  end.
Ltac safe_seq := eapply (safe_bind _ (λ _, True)); [|intros [] _].

Abbreviation any := (λ _ : (), True).

Lemma clear_u32 p v : is_u32 (u32 (p &&& Z.lnot v)).
Proof. apply u32_range. Qed.
#[local] Hint Resolve u32_range u16_range clear_u32 : core.

Lemma safe_pmc_read E a n : safe E is_u32 (pmc_read a n).
Proof. unfold pmc_read. safe_step. safe_step. destruct Hd as [[] _]. repeat case_match; tauto || done. Qed.
Lemma safe_pmc_write E a v n : safe E any (pmc_write a v n).
Proof.
  unfold pmc_write. repeat safe_step; [naive_solver| |naive_solver..].
  intros i Hi. unfold u32. destruct (Z.lt_ge_cases i 32).
  - autorewrite with bits. intros [? _]%andb_true_iff. by apply t_sources0.
  - by rewrite Z.mod_pow2_bits_high by lia.
Qed.

Lemma safe_pbus_read E a n : safe E is_u32 (pbus_read a n).
Proof.
  unfold pbus_read. safe_step. destruct Hd as [[[Hl Hb]] _].
  repeat safe_step; try done; apply safe_ldl; rewrite ?Hl; done.
Qed.
Lemma safe_pbus_write E a v n : safe E any (pbus_write a v n).
Proof.
  unfold pbus_write. repeat safe_step; [|done]. pose proof Hd as [[[Hl Hb]] _].
  eapply safe_bind; [apply (safe_wr _ _ _ _ 256); rewrite ?Hl; auto with bytes; done|].
  intros c Hc. by safe_step.
Qed.

Lemma safe_pfifo_read E a n : 0 ≤ a < 0x2000 → safe E is_u32 (pfifo_read a n).
Proof.
  intros Ha. unfold pfifo_read. safe_step. destruct Hd as [[] _].
  repeat safe_step; try (done || tauto). by apply safe_reg_r.
Qed.
Lemma safe_pfifo_write E a v n : 0 ≤ a < 0x2000 → safe E any (pfifo_write a v n).
Proof.
  intros Ha. unfold pfifo_write. safe_seq; [|by safe_step].
  repeat safe_step; [naive_solver..|]. pose proof Hd as [[] _].
  eapply safe_bind; [by apply safe_reg_w|]. intros rs Hrs. by safe_step.
Qed.

Lemma safe_pvideo_invalidate E : safe E any pvideo_vga_invalidate.
Proof. unfold pvideo_vga_invalidate. by repeat safe_step. Qed.
Lemma safe_pvideo_read E a n : 0 ≤ a < 0x1000 → safe E is_u32 (pvideo_read a n).
Proof.
  intros Ha. unfold pvideo_read. safe_step. destruct Hd as [[] _].
  repeat safe_step; try done. by apply safe_reg_r.
Qed.
Lemma safe_pvideo_write E a v n : 0 ≤ a < 0x1000 → safe E any (pvideo_write a v n).
Proof.
  intros Ha. unfold pvideo_write. repeat safe_step.
  - safe_seq; [|apply safe_pvideo_invalidate]. safe_step. by apply regs_u32_insert.
  - safe_seq; [|apply safe_pvideo_invalidate]. repeat safe_step. by apply regs_u32_insert.
  - pose proof Hd as [[] _]. eapply safe_bind; [by apply safe_reg_w|]. intros rs Hrs. by safe_step.
Qed.

Lemma safe_clock E : E DivByZero → safe E (λ _, True) ptimer_get_clock.
Proof.
  intros HE. unfold ptimer_get_clock, muldiv64. safe_step.
  eapply (safe_bind _ (λ _, True)); [|intros t _]; apply safe_if; intros _;
    by apply safe_raise || apply safe_ret.
Qed.
Lemma safe_ptimer_read (E : fault → Prop) a n : E DivByZero → safe E is_u32 (ptimer_read a n).
Proof.
  intros HE. unfold ptimer_read. safe_step. destruct Hd as [[] _].
  repeat safe_step; try (done || tauto);
    (eapply safe_bind; [by apply safe_clock|]); intros c _; apply safe_ret.
  - rewrite Z.shiftl_mul_pow2 by done. pose proof (land_bound_r 27 c 0x7ffffff ltac:(lia) ltac:(lia)).
    unfold is_u32. lia.
  - apply (land_bound_r 32); lia.
Qed.
Lemma safe_ptimer_write E a v n : safe E any (ptimer_write a v n).
Proof. unfold ptimer_write. repeat safe_step; naive_solver. Qed.

Lemma safe_pfb_read E a n : 0 ≤ a < 0x1000 → safe E is_u32 (pfb_read a n).
Proof.
  intros Ha. unfold pfb_read. safe_step. destruct Hd as [[] _].
  repeat safe_step; try (done || tauto). by apply safe_reg_r.
Qed.
Lemma safe_pfb_write E a v n : 0 ≤ a < 0x1000 → safe E any (pfb_write a v n).
Proof.
  intros Ha. unfold pfb_write. safe_step. pose proof Hd as [[] _].
  eapply safe_bind; [by apply safe_reg_w|]. intros rs Hrs. by safe_step.
Qed.

Lemma safe_pcrtc_read E a n : safe E is_u32 (pcrtc_read a n).
Proof.
  unfold pcrtc_read. safe_step. destruct Hd as [[] _].
  repeat safe_step; try (done || tauto || (unfold is_u32; lia)).
  safe_seq; [|apply safe_ret; tauto]. safe_step. naive_solver.
Qed.
Lemma safe_pcrtc_write E a v n : safe E any (pcrtc_write a v n).
Proof.
  unfold pcrtc_write. repeat safe_step; [naive_solver..| |done].
  split; [tauto|]. apply (land_bound_r 27); lia.
Qed.

(** Narrow reads shift the register; the shift is not negative for accesses within it. *)
Definition access_ok (a n : Z) : Prop := (n = 1 ∨ n = 2 ∨ n = 4) ∧ a mod n = 0.

Lemma access_shift a n : access_ok a n → 0 ≤ 32 - 8 * n - 8 * (a &&& 3).
Proof.
  intros [Hn Ha]. change 3 with (Z.ones 2). rewrite Z.land_ones by done.
  destruct Hn as [-> | [-> | ->]]; change (2 ^ 2) with 4; [dlia..|]. rewrite Ha. lia.
Qed.
Lemma safe_pramdac_read E a n : access_ok a n → safe E is_u32 (pramdac_read a n).
Proof.
  intros Ha. apply access_shift in Ha. unfold pramdac_read. safe_step. destruct Hd as [[] _].
  unfold pramdac_u32 in *. cbv zeta. apply safe_ret.
  assert (∀ r s, is_u32 r → 0 ≤ s → is_u32 (r >>> s)) as Hs.
  { intros r s Hr Hs. rewrite Z.shiftr_div_pow2 by done. unfold is_u32 in *.
    assert (1 ≤ 2 ^ s) by (by apply (Z.pow_le_mono_r 2 0)). split; [apply Z.div_pos; lia|].
    eapply Z.le_lt_trans; [apply Z.div_le_upper_bound with (q := r)|apply Hr]; nia. }
  apply Hs; [|done]. rewrite !Forall_cons in *. destruct_and!.
  repeat case_match; done.
Qed.
(** The clock computed from the coefficients does not wrap. *)
Lemma clock_u32 v : is_u32 v → (v &&& 0xff) ≠ 0 →
  is_u32 (u32 (NV2A_CRYSTAL_FREQ * ((v &&& 0xff00) >>> 8)) / (1 <<< ((v &&& 0x70000) >>> 16)) / (v &&& 0xff)).
Proof.
  intros Hv Hm. pose proof (land_bound_r 8 v 0xff ltac:(lia) ltac:(lia)).
  pose proof (land_bound_r 19 v 0x70000 ltac:(lia) ltac:(lia)).
  set (q := (v &&& 0x70000) >>> 16).
  assert (0 ≤ q) by (unfold q; rewrite Z.shiftr_div_pow2 by done; apply Z.div_pos; lia).
  assert (1 ≤ 1 <<< q) by (rewrite Z.shiftl_mul_pow2 by done; pose proof (Z.pow_pos_nonneg 2 q); lia).
  set (c := u32 _). pose proof (u32_range (NV2A_CRYSTAL_FREQ * ((v &&& 0xff00) >>> 8))) as Hc. fold c in Hc.
  unfold is_u32 in *. assert (0 ≤ c / (1 <<< q) ≤ c).
  { split; [apply Z.div_pos; lia|]. apply Z.div_le_upper_bound; nia. }
  split; [apply Z.div_pos; lia|]. eapply Z.le_lt_trans; [apply Z.div_le_upper_bound with (q := c)|]; nia.
Qed.
Lemma safe_pramdac_write E a v n : safe E any (pramdac_write a v n).
Proof.
  unfold pramdac_write. cbv zeta. safe_step. revert t_pramdac0. generalize (pramdac d). intros p Hp.
  repeat case_match; destruct p; unfold pramdac_u32 in *; cbn -[u32 Z.land Z.shiftl Z.shiftr Z.mul] in *;
    rewrite !Forall_cons in Hp |- *; destruct_and!; split_and!; try done.
  apply clock_u32; [done|]. by apply Z.eqb_neq.
Qed.

Lemma safe_prmcio_read E a n : safe E is_u32 (prmcio_read a n).
Proof.
  unfold prmcio_read. safe_step. pose proof (vga_read_u32 a (vga d)) as H.
  destruct (vga_ioport_read a (vga d)) as [r v]. safe_seq; [by safe_step|]. by apply safe_ret.
Qed.
Lemma safe_prmcio_write E a v n : safe E any (prmcio_write a v n).
Proof. unfold prmcio_write. by safe_step. Qed.
Lemma safe_prmvio_write E a v n : safe E any (prmvio_write a v n).
Proof. unfold prmvio_write. by safe_step. Qed.

Lemma safe_prmdio_read E a n : safe E is_u32 (prmdio_read a n).
Proof.
  unfold prmdio_read. safe_step. safe_step. destruct Hd as [[] _]. unfold is_u16, is_u32 in *.
  case_match; [dlia|lia].
Qed.
Lemma safe_prmdio_write E a v n : safe E any (prmdio_write a v n).
Proof.
  unfold prmdio_write. repeat safe_step.
  - unfold is_u16. pose proof (land_bound_r 8 v 0xff ltac:(lia) ltac:(lia)). lia.
  - pose proof Hd as [[] _]. destruct t_palette0 as [Hl Hb]. eapply safe_bind.
    + apply (safe_wr _ _ _ _ 768); [done|done|auto with bytes| |].
      * apply Z.mod_pos_bound. lia.
      * rewrite Hl. pose proof (Z.mod_pos_bound (write_mode_address d) (256 * 3) ltac:(lia)).
        change (blen [u8 v]) with 1. lia.
    + intros c Hc. by safe_step.
  - done.
Qed.

Lemma safe_user_channel (E : fault → Prop) a : E AssertFailed → safe E any (user_channel a).
Proof.
  intros HE. unfold user_channel. cbv zeta. safe_seq; [by apply safe_assert|]. safe_step.
  safe_seq; [by apply safe_assert|]. by apply safe_assert.
Qed.
Lemma safe_user_read (E : fault → Prop) a n : E AssertFailed → safe E is_u32 (user_read a n).
Proof.
  intros HE. unfold user_read. safe_seq; [by apply safe_user_channel|]. safe_step. cbv zeta.
  safe_step. destruct Hd as [[] _]. repeat case_match; done || by apply reg_u32.
Qed.
Lemma safe_user_write (E : fault → Prop) a v n : E AssertFailed → safe E any (user_write a v n).
Proof.
  intros HE. unfold user_write. safe_seq; [by apply safe_user_channel|]. cbv zeta.
  safe_seq; [|by safe_step]. repeat safe_step; [by apply regs_u32_insert..|by apply safe_assert].
Qed.

(** ** PGRAPH *)

Lemma safe_pg_r (E : fault → Prop) r :
  E AssertFailed → 0 ≤ r < 0x2000 → safe E is_u32 (pgraph_reg_r r).
Proof.
  intros HE Hr. unfold pgraph_reg_r. safe_seq; [by apply safe_assert|]. safe_step.
  destruct Hd as [[] _]. by apply safe_reg_r.
Qed.
Lemma safe_pg_w (E : fault → Prop) r v :
  E AssertFailed → 0 ≤ r < 0x2000 → is_u32 v → safe E any (pgraph_reg_w r v).
Proof.
  intros HE Hr Hv. unfold pgraph_reg_w. safe_seq; [by apply safe_assert|]. safe_step.
  pose proof Hd as [[] _]. eapply safe_bind; [by apply safe_reg_r|]. intros old _.
  safe_seq; [by repeat safe_step|]. safe_step. by apply regs_u32_insert.
Qed.
Lemma safe_pg_get (E : fault → Prop) r mask :
  E AssertFailed → 0 ≤ r < 0x2000 → safe E is_u32 (PG_GET_MASK r mask).
Proof.
  intros. unfold PG_GET_MASK. eapply safe_bind; [by apply safe_pg_r|]. intros v Hv.
  by apply safe_ret, GET_MASK_u32.
Qed.
Lemma safe_pg_set (E : fault → Prop) r mask x :
  E AssertFailed → 0 ≤ r < 0x2000 → is_u32 mask → safe E any (PG_SET_MASK r mask x).
Proof.
  intros. unfold PG_SET_MASK. eapply safe_bind; [by apply safe_pg_r|]. intros v Hv.
  by apply safe_pg_w, SET_MASK_u32.
Qed.

Lemma safe_rdi_read (E : fault → Prop) sel a :
  E AssertFailed → is_u32 a → safe E is_u32 (pgraph_rdi_read sel a).
Proof.
  intros HE Ha. unfold pgraph_rdi_read. safe_step.
  - eapply (safe_bind _ (λ _, a / 4 < 192)); [apply safe_assert; [done|lia]|]. intros [] H192.
    safe_step. destruct Hd as [W O]. intros d' Hd'. unfold wpE. destruct (t_vsh _ W) as [Hl Hf].
    rewrite run_rd8; unfold is_u32 in Ha; [|rewrite Hl; dlia]. split; [|done].
    unfold byte_at. eapply (Forall_lookup_1 is_u32); [exact Hf|].
    apply list_lookup_lookup_total_lt. unfold blen in Hl. dlia.
  - safe_seq; [by apply safe_assert|]. by apply safe_ret.
Qed.
Lemma safe_rdi_advance (E : fault → Prop) a : E AssertFailed → safe E any (rdi_advance a).
Proof.
  intros HE. unfold rdi_advance. safe_seq; [by apply safe_assert|]. by apply safe_pg_set.
Qed.

Lemma safe_pgraph_read (E : fault → Prop) a n :
  E AssertFailed → 0 ≤ a < 0x2000 → safe E is_u32 (pgraph_read a n).
Proof.
  intros HE Ha. unfold pgraph_read. safe_step. destruct Hd as [[] _]. repeat safe_step; try tauto.
  - eapply safe_bind; [by apply safe_pg_get|]. intros sel _.
    eapply safe_bind; [by apply safe_pg_get|]. intros ad Had.
    eapply safe_bind; [by apply safe_rdi_read|]. intros r Hr.
    safe_seq; [by apply safe_rdi_advance|]. by apply safe_ret.
  - by apply safe_pg_r.
Qed.

Lemma safe_pgraph_write_reg (E : fault → Prop) a v :
  E AssertFailed → E DivByZero → 0 ≤ a < 0x2000 → safe E any (pgraph_write_reg a v).
Proof.
  intros HE HZ Ha. unfold pgraph_write_reg. repeat safe_step.
  - safe_seq; [safe_step; naive_solver|]. safe_step. do 2 (safe_seq; [by repeat safe_step|]). by safe_step.
  - naive_solver.
  - eapply safe_bind; [by apply safe_pg_get|]. intros r _.
    eapply safe_bind; [by apply safe_pg_get|]. intros m _.
    safe_seq; [safe_step; [by apply safe_raise|by apply safe_ret]|].
    safe_seq; [by apply safe_pg_set|]. by safe_step.
  - eapply safe_bind; [by apply safe_pg_get|]. intros sel _.
    eapply safe_bind; [by apply safe_pg_get|]. intros ad _.
    safe_seq; [|by apply safe_rdi_advance]. unfold pgraph_rdi_write.
    safe_step; [by apply safe_assert|by apply safe_ret].
  - eapply (safe_bind _ is_u32); [by apply safe_pg_get|]. intros inst Hi. cbv zeta.
    safe_step. safe_step. eapply (safe_bind _ (λ _, (inst <<< 4) < blen (ramin d))).
    { apply safe_assert; [done|]. lia. }
    intros [] Hlt. pose proof Hd as [[] _]. destruct t_ramin0 as [Hl Hb].
    rewrite Z.shiftl_mul_pow2 in * by done. unfold is_u32 in Hi.
    eapply safe_bind; [apply safe_ldl; [done|lia|lia]|]. intros c Hc. by apply safe_pg_w.
  - by apply safe_pg_w.
Qed.
Lemma safe_pgraph_write (E : fault → Prop) a v n :
  E AssertFailed → E DivByZero → 0 ≤ a < 0x2000 → safe E any (pgraph_write a v n).
Proof.
  intros. unfold pgraph_write. safe_seq; [by apply safe_pgraph_write_reg|]. by repeat safe_step.
Qed.
Lemma safe_context_switch (E : fault → Prop) ch :
  E AssertFailed → safe E any (pgraph_context_switch ch).
Proof.
  intros HE. unfold pgraph_context_switch. eapply safe_bind; [by apply safe_pg_r|]. intros ctl _.
  eapply safe_bind; [by apply safe_pg_get|]. intros id' _. cbv zeta. safe_step.
  safe_seq; [by apply safe_pg_set|]. eapply safe_bind; [by apply safe_pg_get|]. intros hw _.
  safe_seq; [by apply safe_assert|]. safe_seq; [by safe_step|]. safe_step.
  split; [|tauto]. apply (lor_bound 32); [lia|by destruct_and!|lia].
Qed.
Lemma safe_gfx_update E f : safe E any (nv2a_vga_gfx_update f).
Proof.
  unfold nv2a_vga_gfx_update. safe_seq; [by safe_step|]. safe_step; [|split; [done|tauto]].
  split; [|tauto]. apply (lor_bound 32); [lia|by destruct_and!|lia].
Qed.

(** ** Accesses by the guest *)

(** The faults an access to a block can end in. *)
Definition may_stop (b : block) (e : fault) : Prop :=
  match b with
  | USER => e = AssertFailed
  | PTIMER => e = DivByZero
  | PGRAPH => e = AssertFailed ∨ e = DivByZero
  | _ => False
  end.

Lemma block_at_Some addr b a :
  block_at addr = Some (b, a) → ∃ i, i ∈ blocktable ∧ name i = b ∧ a = addr - offset i ∧ 0 ≤ a < bsize i.
Proof.
  unfold block_at. intros ([n i] & Hf & [= <- <-])%bind_Some. exists i.
  apply list_find_Some in Hf as (Hl & Hr & _). apply list_elem_of_lookup_2 in Hl. cbn. split_and!; [done..|lia|lia].
Qed.
Lemma block_size addr b a :
  block_at addr = Some (b, a) →
  0 ≤ a ∧ match b with
          | PFIFO | PGRAPH => a < 0x2000
          | PVIDEO | PFB | PRAMDAC_ => a < 0x1000 ∧ ∀ n, n = 1 ∨ n = 2 ∨ n = 4 → a mod n = addr mod n
          | _ => True
          end.
Proof.
  intros (i & Hi & <- & -> & Hr)%block_at_Some. split; [lia|].
  repeat (apply elem_of_cons in Hi as [-> | Hi]; [cbn in *; try done; try lia|]).
  all: try by apply not_elem_of_nil in Hi.
  all: split; [lia|]; intros n [-> | [-> | ->]]; dlia.
Qed.

(** An aligned access to the instance memory is inside it. *)
Lemma ramin_range addr n :
  access_ok addr n → in_ramin addr = true → 0 ≤ addr - 0x700000 ∧ addr - 0x700000 + n ≤ 0x100000.
Proof.
  intros [Hn Ha] Hr. unfold in_ramin in Hr. apply andb_true_iff in Hr as [?%Z.leb_le ?%Z.ltb_lt].
  destruct Hn as [-> | [-> | ->]]; dlia.
Qed.
Lemma safe_ramin_read E a n :
  n = 1 ∨ n = 2 ∨ n = 4 → 0 ≤ a → a + n ≤ 0x100000 → safe E is_u32 (ramin_read a n).
Proof.
  intros Hn Ha Hl d Hd. pose proof Hd as [[] _]. destruct t_ramin0 as [Hm Hb].
  unfold wpE, ramin_read. rewrite (run_bind _ _ (ramin d) d d) by reflexivity.
  rewrite (run_bind _ _ (slice a n (ramin d)) _ d) by (apply run_rd; lia). split; [|done].
  pose proof (of_le_range (slice a n (ramin d)) (bytes_slice _ _ _ Hb)) as H.
  rewrite blen_slice in H by lia. unfold is_u32. destruct Hn as [-> | [-> | ->]]; lia.
Qed.
Lemma safe_ramin_write E a v n :
  n = 1 ∨ n = 2 ∨ n = 4 → 0 ≤ a → a + n ≤ 0x100000 → safe E any (ramin_write a v n).
Proof.
  intros Hn Ha Hl d Hd. pose proof Hd as [[] _]. destruct t_ramin0 as [Hm Hb].
  unfold wpE, ramin_write. rewrite (run_bind _ _ (ramin d) d d) by reflexivity.
  erewrite run_bind by (apply run_wr; [lia|rewrite blen_le_bytes; lia]).
  split; [done|]. destruct Hd as [[] []]. split; [|by split]. split; try done. cbn.
  rewrite blen_put. split; [done|]. auto with bytes.
Qed.

Lemma mmio_read_safe (E : fault → Prop) addr n :
  access_ok addr n → (∀ b a e, block_at addr = Some (b, a) → may_stop b e → E e) →
  safe E is_u32 (mmio_read addr n).
Proof.
  intros Hok HE. unfold mmio_read. destruct (in_ramin addr) eqn:Hram.
  { destruct (ramin_range _ _ Hok Hram). apply safe_ramin_read; [apply Hok|lia..]. }
  destruct Hok as [Hn Ha]. destruct (block_at addr) as [[b a]|] eqn:Hb; [|by apply safe_ret].
  pose proof (block_size _ _ _ Hb) as [H0 Hsz]. specialize (HE b a).
  destruct b; cbn [block_read]; try (by apply safe_ret).
  - apply safe_pmc_read.
  - apply safe_pbus_read.
  - by apply safe_pfifo_read.
  - apply safe_pvideo_read. lia.
  - apply safe_ptimer_read. by apply HE.
  - apply safe_prmcio_read.
  - apply safe_pfb_read. lia.
  - apply safe_pgraph_read; [|done]. apply HE; [done|by left].
  - apply safe_pcrtc_read.
  - apply safe_prmcio_read.
  - apply safe_pramdac_read. split; [done|]. destruct Hsz as [_ ->]; done.
  - apply safe_prmdio_read.
  - apply safe_user_read. by apply HE.
Qed.

Lemma mmio_write_safe (E : fault → Prop) addr v n :
  access_ok addr n → (∀ b a e, block_at addr = Some (b, a) → may_stop b e → E e) →
  safe E any (mmio_write addr v n).
Proof.
  intros Hok HE. unfold mmio_write. destruct (in_ramin addr) eqn:Hram.
  { destruct (ramin_range _ _ Hok Hram). apply safe_ramin_write; [apply Hok|lia..]. }
  destruct (block_at addr) as [[b a]|] eqn:Hb; [|by apply safe_ret].
  pose proof (block_size _ _ _ Hb) as [H0 Hsz]. specialize (HE b a).
  destruct b; cbn [block_write]; try (by apply safe_ret).
  - apply safe_pmc_write.
  - apply safe_pbus_write.
  - by apply safe_pfifo_write.
  - apply safe_pvideo_write. lia.
  - apply safe_ptimer_write.
  - apply safe_prmvio_write.
  - apply safe_pfb_write. lia.
  - apply safe_pgraph_write; [| |done]; apply HE; done || (by left) || (by right).
  - apply safe_pcrtc_write.
  - apply safe_prmcio_write.
  - apply safe_pramdac_write.
  - apply safe_prmdio_write.
  - apply safe_user_write. by apply HE.
Qed.

(** What happens to the device: accesses of the guest, and the end of a frame. *)
Inductive event := Read (addr size : Z) | Write (addr val size : Z) | Vblank (gfx_update : V → V).

Definition event_run (e : event) : M D Z :=
  match e with
  | Read addr size => mmio_read addr size
  | Write addr val size => mmio_write addr val size;; mret 0
  | Vblank f => nv2a_vga_gfx_update f;; mret 0
  end.
Fixpoint events_run (l : list event) : M D (list Z) :=
  match l with
  | [] => mret []
  | e :: l => v ← event_run e; vs ← events_run l; mret (v :: vs)
  end.

Definition event_ok (e : event) : Prop :=
  match e with
  | Read addr size => access_ok addr size
  | Write addr val size => access_ok addr size
  | Vblank _ => True
  end.
Definition event_block (e : event) : option block :=
  match e with
  | Read addr _ | Write addr _ _ => fst <$> block_at addr
  | Vblank _ => None
  end.

Lemma event_safe e :
  event_ok e → safe (λ f, ∃ b, event_block e = Some b ∧ may_stop b f) is_u32 (event_run e).
Proof.
  intros He. destruct e as [addr n|addr v n|f]; cbn [event_run event_block].
  - apply mmio_read_safe; [done|]. intros b a f -> Hf. by exists b.
  - safe_seq; [|by apply safe_ret]. apply mmio_write_safe; [done|]. intros b a f -> Hf. by exists b.
  - safe_seq; [apply safe_gfx_update|by apply safe_ret].
Qed.

(** C7. Whatever the guest reads and writes, in accesses of 1, 2 or 4 aligned bytes,
    and whenever frames end: every value read is a [uint32_t], the arrays and registers
    of the device keep their types, the summary has the bits of PFIFO and of PCRTC
    exactly when they have an enabled interrupt, and the interrupt line is up exactly
    when the summary is not zero and is enabled.  The device can stop only in an access
    to USER or PGRAPH, by a failed assertion, or to PTIMER or PGRAPH, by a division by
    zero; no access leaves an array. *)
Theorem nv2a_events_ok l d :
  good d → Forall event_ok l →
  wpE (events_run l) (λ vs d', Forall is_u32 vs ∧ good d')
    (λ f, ∃ e b, e ∈ l ∧ event_block e = Some b ∧ may_stop b f) d.
Proof.
  intros Hd Hl. revert d Hd. induction Hl as [|e l He Hl IH]; intros d Hd; [by split|].
  cbn [events_run]. apply wpE_bind. eapply wpE_mono.
  - eapply wpE_mono_E; [by apply event_safe|]. intros f (b & ? & ?). exists e, b. split; [left|done].
  - intros v d1 [Hv Hd1]. apply wpE_bind. eapply wpE_mono.
    + eapply wpE_mono_E; [by apply IH|]. intros f (e' & b & ? & ?). exists e', b. split; [by right|done].
    + intros vs d2 [Hvs Hd2]. apply wpE_ret. split; [by constructor|done].
Qed.

(** ** Interrupts *)

(** Some engine has an enabled interrupt. *)
Definition sources d : bool :=
  truthy (pfifo_pending d &&& pfifo_enabled d) || truthy (pcrtc_pending d &&& pcrtc_enabled d)
  || truthy (pg_pending (pgraph d) &&& pg_enabled (pgraph d)).

Lemma truthy_sources p :
  (∀ i, 0 ≤ i → Z.testbit p i = true → i = 8 ∨ i = 12 ∨ i = 24) →
  truthy p = Z.testbit p 8 || Z.testbit p 24 || Z.testbit p 12.
Proof.
  intros Hs. unfold truthy. destruct (Z.eqb_spec p 0) as [-> | Hp]; [done|]. cbn [negb].
  destruct (Z.testbit p 8) eqn:E8, (Z.testbit p 24) eqn:E24, (Z.testbit p 12) eqn:E12; try done.
  exfalso. apply Hp, Z.bits_inj'. intros i Hi. rewrite Z.bits_0.
  destruct (Z.testbit p i) eqn:E; [|done]. destruct (Hs i Hi E) as [-> | [-> | ->]]; congruence.
Qed.

(** The update computes the line from the engines; besides the line it changes only
    the summary. *)
Lemma run_nv2a_irq d :
  typed d → ∃ p, nv2a_update_irq d =
    Ok (tt, d <| pmc_pending := p |> <| irq := sources d && truthy (pmc_enabled d) |>).
Proof.
  intros W.
  set (p := summary (2 ^ 12) (truthy (pg_pending (pgraph d) &&& pg_enabled (pgraph d)))
    (summary (2 ^ 24) (truthy (pcrtc_pending d &&& pcrtc_enabled d))
      (summary (2 ^ 8) (truthy (pfifo_pending d &&& pfifo_enabled d)) (pmc_pending d)))).
  exists p. replace (sources d) with (truthy p); [reflexivity|].
  destruct (proj1 (wp_run _ _ _) (update_irq_good d W)) as ([] & d' & E & [W' _]).
  injection E as <-. rewrite (truthy_sources p (t_sources _ W')). unfold p.
  by rewrite !summary_bit by lia.
Qed.

Lemma frame_typed d f :
  typed d → typed (d <| vga ::= f |> <| pcrtc_pending ::= λ p, p ||| NV_PCRTC_INTR_0_VBLANK |> <| pcrtc_raster := 0 |>).
Proof.
  keep_typed; [|split; [done|tauto]]. split; [|tauto]. apply (lor_bound 32); [lia|by destruct_and!|lia].
Qed.
Lemma ack_typed d v : typed d → typed (d <| pcrtc_pending ::= λ p, u32 (p &&& Z.lnot v) |>).
Proof. keep_typed. split; [done|tauto]. Qed.

Lemma ack_vblank p : is_u32 p → u32 ((p ||| 1) &&& Z.lnot 1) = p &&& Z.lnot 1.
Proof.
  intros Hp. apply Z.bits_inj'. intros i Hi. unfold u32. destruct (Z.lt_ge_cases i 32).
  - autorewrite with bits. destruct (Z.testbit 1 i), (Z.testbit p i); done.
  - rewrite Z.mod_pow2_bits_high by lia. by rewrite Z.land_spec, (testbit_high 32 p) by done.
Qed.
Lemma truthy_land_bit p i : Z.testbit p i = true → truthy p = true.
Proof. unfold truthy. destruct (Z.eqb_spec p 0) as [-> | _]; [|done]. by rewrite Z.bits_0. Qed.

(** C21. The end of a frame and its acknowledgement: with the vertical blank interrupt
    enabled in PCRTC and interrupts enabled in PMC, the end of a frame raises the line
    and shows in the summary; writing the bit to PCRTC's interrupt register clears it
    there, and lowers the line unless another interrupt of an engine is pending. *)
Theorem vblank_interrupt d f :
  good d → Z.testbit (pcrtc_enabled d) 0 = true → pmc_enabled d ≠ 0 →
  ∃ d1 d2 p,
    event_run (Vblank f) d = Ok (0, d1) ∧ irq d1 = true ∧
    event_run (Read NV_PMC_INTR_0 4) d1 = Ok (p, d1) ∧ Z.testbit p 24 = true ∧
    event_run (Write (0x600000 + NV_PCRTC_INTR_0) NV_PCRTC_INTR_0_VBLANK 4) d1 = Ok (0, d2) ∧
    Z.testbit (pcrtc_pending d2) 0 = false ∧
    irq d2 = sources (d <| pcrtc_pending ::= λ p, p &&& Z.lnot 1 |>).
Proof.
  intros [W Ho] Hen Hpmc. pose proof (frame_typed d f W) as W0.
  set (d0 := d <| vga ::= f |> <| pcrtc_pending ::= λ p, p ||| 1 |> <| pcrtc_raster := 0 |>) in *.
  destruct (run_nv2a_irq d0 W0) as [p1 E1].
  set (d1 := d0 <| pmc_pending := p1 |> <| irq := _ |>) in E1.
  assert (good d1) as [W1 Ho1].
  { destruct (proj1 (wp_run _ _ _) (update_irq_good d0 W0)) as ([] & d' & E & G). congruence. }
  pose proof (ack_typed d1 1 W1) as W2. set (d1' := d1 <| pcrtc_pending ::= _ |>) in W2.
  destruct (run_nv2a_irq d1' W2) as [p2 E2]. set (d2 := d1' <| pmc_pending := p2 |> <| irq := _ |>) in E2.
  assert (truthy (pmc_enabled d) = true) as Ht by (unfold truthy; by destruct (Z.eqb_spec (pmc_enabled d) 0)).
  assert (truthy ((pcrtc_pending d ||| 1) &&& pcrtc_enabled d) = true) as Hv.
  { apply (truthy_land_bit _ 0). by rewrite Z.land_spec, Z.lor_spec, Hen, orb_true_r. }
  exists d1, d2, p1. split_and!.
  - cbn [event_run]. rewrite (run_bind _ _ tt _ d1); [done|]. exact E1.
  - cbn. unfold sources. cbn. rewrite Hv, Ht. by rewrite orb_true_r.
  - done.
  - destruct Ho1 as [_ _ Hb]. cbn -[Z.testbit] in Hb. by rewrite Hb.
  - cbn [event_run]. rewrite (run_bind _ _ tt _ d2); [done|]. exact E2.
  - cbn -[Z.testbit]. rewrite ack_vblank by apply W. by rewrite Z.land_spec, andb_false_r.
  - change (sources d1' && truthy (pmc_enabled d) = sources (d <| pcrtc_pending ::= λ p, p &&& Z.lnot 1 |>)).
    rewrite Ht, andb_true_r. unfold sources. cbn -[Z.land Z.lnot u32]. by rewrite ack_vblank by apply W.
Qed.

(** ** Where the line and the engines part *)

(** Acknowledging or masking interrupts in PGRAPH does not update the summary or the
    line: with PGRAPH the only source, the line stays up with no source left, until
    an access to another engine updates it. *)
Lemma pgraph_ack_stale d v n :
  wp (mmio_write (0x400000 + NV_PGRAPH_INTR) v n : M D unit) (λ _ d',
    pg_pending (pgraph d') = u32 (pg_pending (pgraph d) &&& Z.lnot v) ∧
    irq d' = irq d ∧ pmc_pending d' = pmc_pending d) d.
Proof.
  change (mmio_write (0x400000 + NV_PGRAPH_INTR) v n) with
    (pgraph_write_reg NV_PGRAPH_INTR v;; whenM false pfifo_kick : M D unit).
  unfold pgraph_write_reg. cbn [Z.eqb Pos.eqb].
  repeat first [ apply wpE_bind | apply wpE_modify | apply wpE_gets | apply wpE_when; intros ? ];
    done.
Qed.

(** A reset clears the summary and leaves the line as it was. *)
Lemma reset_line_stale d :
  wp (nv2a_reset (mret tt)) (λ _ d', pmc_pending d' = 0 ∧ irq d' = irq d) d.
Proof.
  unfold nv2a_reset, pfifo_kick. apply wpE_bind, wpE_gets, wpE_bind, wpE_when; intros Hh; rewrite Hh;
    repeat (lazymatch goal with
            | |- wpE (_ ≫= _) _ _ _ => apply wpE_bind
            | |- wpE (modify _) _ _ _ => apply wpE_modify
            | |- wpE (mret _) _ _ _ => apply wpE_ret
            | |- wpE (whenM true _) _ _ _ => cbn [whenM]
            | |- wpE (whenM false _) _ _ _ => cbn [whenM]
            end);
    by split.
Qed.

(** Reading the time before a numerator has been written divides by zero. *)
Lemma ptimer_unset d n : numerator d = 0 → mmio_read (0x9000 + NV_PTIMER_TIME_0) n d = Fault DivByZero.
Proof.
  intros Hn. change (mmio_read (0x9000 + NV_PTIMER_TIME_0) n d) with
    ((c ← ptimer_get_clock; mret ((c &&& 0x7ffffff) <<< 5)) d).
  apply run_bind_fault. unfold ptimer_get_clock. rewrite (run_bind _ _ d _ d) by done.
  rewrite (run_bind _ _ (u64 (clock_ns d * u32 (core_clock_freq (pramdac d)) / u32 1000000000)) _ d) by done.
  unfold muldiv64. by rewrite Hn.
Qed.
End spec.

(** ** A device *)

(** A VGA core that ignores its ports, and a device as it is created. *)
#[global] Instance VGA_unit : VGACommon () := {|
  vga_ioport_read _ v := (0xff, v); vga_ioport_write _ _ v := v; vga_invalidate_scanlines _ _ v := v;
  vga_common_reset v := v; ar_flip_flop _ := 0; set_msr _ v := v |}.
#[global] Instance VGA_unit_laws : VGALaws ().
Proof. intros a v. split; [done|]. done. Qed.

Definition pgraph_zero {X} (x : X) : PGRAPHState X :=
  {| pg_pending := 0; pg_enabled := 0;
     context_surfaces_2d := Build_ContextSurfaces2DState 0 0 0 0 0 0 0 0;
     image_blit := Build_ImageBlitState 0 0 0 0 0 0 0 0 0; beta := Build_BetaState 0 0;
     primitive_mode := 0; inline_elements_length := 0; draw_arrays_length := 0;
     draw_arrays_prevent_connect := false; vsh_constants := replicate 768 0; pg_regs := ∅; regs_dirty := ∅;
     waiting_for_nop := false; waiting_for_flip := false; waiting_for_context_switch := false; drawing := x |}.
Definition nv2a_created {X} (x : X) (mem : list Z) : NV2AState () X :=
  {| irq := false; clock_ns := 0; config := replicate 256 0; vga := tt; vram := mem;
     ramin := replicate (Z.to_nat 0x100000) 0; pmc_pending := 0; pmc_enabled := 0; pfifo_pending := 0;
     pfifo_enabled := 0; pfifo_regs := ∅; fifo_kick := false; halt := false; pvideo_regs := ∅;
     ptimer_pending := 0; ptimer_enabled := 0; numerator := 0; denominator := 0; alarm_time := 0;
     pfb_regs := ∅; pgraph := pgraph_zero x; pcrtc_pending := 0; pcrtc_enabled := 0; pcrtc_start := 0;
     pcrtc_raster := 0; pramdac := Build_PRAMDAC 0 0 0 0 0 0 0 0 0 0 0 0; write_mode_address := 0;
     palette := replicate 768 0 |}.
Definition nv2a_zero (mem : list Z) : NV2AState () () := nv2a_created tt mem.

Lemma nv2a_zero_good mem : is_u32 (blen mem) → bytes mem → good (nv2a_zero mem).
Proof.
  intros Hl Hb. assert (∀ n : nat, blen (replicate n 0) = Z.of_nat n) as Hn
    by (intros; unfold blen; by rewrite length_replicate).
  split; [|done]. split; try done; cbn -[replicate blen].
  - rewrite Hn. split; [done|apply bytes_replicate].
  - rewrite Hn. split; [lia|apply bytes_replicate].
  - rewrite Hn. split; [done|apply bytes_replicate].
  - rewrite Hn. split; [done|]. by apply Forall_replicate.
  - intros i Hi. by rewrite Z.bits_0.
  - unfold pramdac_u32. by repeat constructor.
Qed.

Lemma nv2a_events_ok_witness :
  let l := [Write 0x140 1 4; Write 0x600140 1 4; Vblank id; Read 0x100 4; Read 0x680501 1] in
  Forall event_ok l ∧
  wpE (events_run l) (λ vs d', Forall is_u32 vs ∧ good d')
    (λ f, ∃ e b, e ∈ l ∧ event_block e = Some b ∧ may_stop b f) (nv2a_zero [1; 2; 3]).
Proof.
  intros l. assert (Forall event_ok l) as Hl.
  { apply Forall_cons. split; [split; [lia|done]|]. apply Forall_cons. split; [split; [lia|done]|].
    apply Forall_cons. split; [done|]. apply Forall_cons. split; [split; [lia|done]|].
    apply Forall_cons. split; [split; [lia|done]|done]. }
  split; [exact Hl|]. apply nv2a_events_ok; [|exact Hl].
  apply nv2a_zero_good; [done|]. by repeat constructor.
Defined.

Lemma vblank_interrupt_witness :
  let d := (nv2a_zero [1]) <| pcrtc_enabled := 1 |> <| pmc_enabled := 1 |> in
  ∃ d1 d2 p,
    event_run (Vblank id) d = Ok (0, d1) ∧ irq d1 = true ∧
    event_run (Read NV_PMC_INTR_0 4) d1 = Ok (p, d1) ∧ Z.testbit p 24 = true ∧
    event_run (Write (0x600000 + NV_PCRTC_INTR_0) NV_PCRTC_INTR_0_VBLANK 4) d1 = Ok (0, d2) ∧
    Z.testbit (pcrtc_pending d2) 0 = false ∧
    irq d2 = sources (d <| pcrtc_pending ::= λ p, p &&& Z.lnot 1 |>).
Proof.
  apply vblank_interrupt; [|done|done].
  destruct (nv2a_zero_good [1]) as [W O]; [done|by repeat constructor|].
  split; [destruct W; by split|by destruct O; split].
Defined.
