(* ===== verification/Pgraph.v ===== *)
(** * Pgraph: the methods of the drawing engine, hw/xbox/nv2a/pgraph/pgraph.c

    [pgraph_method] is what the command FIFO calls for the words of a command.  The
    2D classes (beta, pattern, surfaces, blit) are modelled in full up to the call of the
    renderer; the methods of the 3D class are the table [kelvin_methods] of the class
    [Engine], of which KelvinTable has the instance, with the two wrappers by which the table batches words,
    [pgraph_method_inc] and [pgraph_method_non_inc]. *)

From stdpp Require Import gmap.
From S2P Require Import Prelude.
From S2P Require Import Nv2aRegs.
From S2P Require Import Nv2a.

(** A handler gets the subchannel, the method and its parameter.  (In the source it gets
    the words and their number too; only the two wrappers use them.) *)
Definition MethodFunc (V X : Type) : Type := Z → Z → Z → M (NV2AState V X) unit.

(** An entry of the table, by the macro that defines it; [Inc] has the end of the range
    of the method. *)
Inductive kelvin_method (V X : Type) :=
  Single (handler : MethodFunc V X) | Inc (handler : MethodFunc V X) (end_ : Z) | NonInc (handler : MethodFunc V X).
Arguments Single {V X} _.
Arguments Inc {V X} _ _.
Arguments NonInc {V X} _.

(** The renderer and the table of the 3D class. *)
Class Engine (V X : Type) := {
  ops_image_blit : M (NV2AState V X) unit;
  kelvin_methods : Z → option (kelvin_method V X)
}.

Section pgraph.
Context {V X : Type} `{!VGACommon V} `{!Engine V X}.
Abbreviation D := (NV2AState V X).

(** ** Batches of words *)

Section batch.
Variable handler : MethodFunc V X.

(** Word [i] of the command at [parameters]. *)
Definition word_at (parameters i : Z) : M D Z :=
  d ← gets id; ldl_le_p (vram d) (parameters + 4 * i).

Definition pgraph_method_inc (end_ subchannel method parameter parameters num_words_available : Z) (inc : bool)
    : M D Z :=
  if negb inc then handler subchannel method parameter;; mret 1
  else
    let count := Z.min num_words_available (u32 (end_ - method) / 4) in
    forM (seqZ 0 count) (λ i,
      parameter ← word_at parameters i;
      handler subchannel (method + 4 * i) parameter);;
    mret count.

Definition pgraph_method_non_inc (subchannel method parameter parameters num_words_available : Z) (inc : bool)
    : M D Z :=
  if inc then handler subchannel method parameter;; mret 1
  else
    forM (seqZ 0 num_words_available) (λ i,
      parameter ← word_at parameters i;
      handler subchannel method parameter);;
    mret num_words_available.
End batch.

(** ** Classes *)

Definition set_pg (f : PGRAPHState X → PGRAPHState X) : M D unit := modify (λ d, d <| pgraph ::= f |>).

Definition method_beta (method parameter : Z) : M D unit :=
  if method =? NV012_SET_OBJECT then
    set_pg (λ pg, pg <| beta ::= λ b, b <| beta_object_instance := parameter |> |>)
  else if method =? NV012_SET_BETA then
    set_pg (λ pg, pg <| beta ::= λ b, b <| beta_value :=
      if truthy (parameter &&& 0x80000000) then 0 else parameter &&& 0x7f800000 |> |>)
  else mret tt.

Definition method_pattern (method parameter : Z) : M D unit :=
  if method =? NV044_SET_MONOCHROME_COLOR0 then pgraph_reg_w NV_PGRAPH_PATT_COLOR0 parameter
  else mret tt.

Definition method_surfaces_2d (method parameter : Z) : M D unit :=
  let set (f : ContextSurfaces2DState → ContextSurfaces2DState) := set_pg (λ pg, pg <| context_surfaces_2d ::= f |>) in
  if method =? NV062_SET_OBJECT then set (λ c, c <| cs2d_object_instance := parameter |>)
  else if method =? NV062_SET_CONTEXT_DMA_IMAGE_SOURCE then set (λ c, c <| dma_image_source := parameter |>)
  else if method =? NV062_SET_CONTEXT_DMA_IMAGE_DESTIN then set (λ c, c <| dma_image_dest := parameter |>)
  else if method =? NV062_SET_COLOR_FORMAT then set (λ c, c <| color_format := parameter |>)
  else if method =? NV062_SET_PITCH then
    set (λ c, c <| source_pitch := parameter &&& 0xFFFF |> <| dest_pitch := parameter >>> 16 |>)
  else if method =? NV062_SET_OFFSET_SOURCE then set (λ c, c <| source_offset := parameter &&& 0x07FFFFFF |>)
  else if method =? NV062_SET_OFFSET_DESTIN then set (λ c, c <| dest_offset := parameter &&& 0x07FFFFFF |>)
  else mret tt.

Definition method_image_blit (method parameter : Z) : M D unit :=
  let set (f : ImageBlitState → ImageBlitState) := set_pg (λ pg, pg <| image_blit ::= f |>) in
  if method =? NV09F_SET_OBJECT then set (λ b, b <| blit_object_instance := parameter |>)
  else if method =? NV09F_SET_CONTEXT_SURFACES then set (λ b, b <| context_surfaces := parameter |>)
  else if method =? NV09F_SET_OPERATION then set (λ b, b <| operation := parameter |>)
  else if method =? NV09F_CONTROL_POINT_IN then
    set (λ b, b <| in_x := parameter &&& 0xFFFF |> <| in_y := parameter >>> 16 |>)
  else if method =? NV09F_CONTROL_POINT_OUT then
    set (λ b, b <| out_x := parameter &&& 0xFFFF |> <| out_y := parameter >>> 16 |>)
  else if method =? NV09F_SIZE then
    set (λ b, b <| blit_width := parameter &&& 0xFFFF |> <| blit_height := parameter >>> 16 |>);;
    d ← gets id;
    whenM (truthy (blit_width (image_blit (pgraph d))) && truthy (blit_height (image_blit (pgraph d))))
      ops_image_blit
  else mret tt.

(** Look ahead in the words for END, BEGIN of the same primitive and DRAW_ARRAYS again. *)
Definition lam (parameters i mthd : Z) : M D bool :=
  w ← word_at parameters (i * 2 + 1); mret ((w &&& 0x31fff) =? mthd).
Definition lap (parameters i prm : Z) : M D bool :=
  w ← word_at parameters (i * 2 + 2); mret (w =? prm).
Definition andM (m1 m2 : M D bool) : M D bool :=
  b ← m1; if b : bool then m2 else mret false.

Definition squash (method parameters max_lookahead_words : Z) : M D bool :=
  d ← gets id;
  let pg := pgraph d in
  if (method =? NV097_DRAW_ARRAYS) && (7 <=? max_lookahead_words) &&
     (inline_elements_length pg =? 0) && (draw_arrays_length pg <? 1250 - 1) then
    andM (lam parameters 0 NV097_SET_BEGIN_END)
      (andM (lap parameters 0 NV097_SET_BEGIN_END_OP_END)
        (andM (lam parameters 1 NV097_SET_BEGIN_END)
          (andM (lap parameters 1 (primitive_mode pg)) (lam parameters 2 NV097_DRAW_ARRAYS))))
  else mret false.

Definition method_kelvin (subchannel method parameter parameters avail look : Z) (inc : bool) : M D Z :=
  match kelvin_methods (method >>> 2) with
  | None => mret 1
  | Some entry =>
      num_words_consumed ←
        match entry with
        | Single handler => handler subchannel method parameter;; mret 1
        | Inc handler end_ => pgraph_method_inc handler end_ subchannel method parameter parameters avail inc
        | NonInc handler => pgraph_method_non_inc handler subchannel method parameter parameters avail inc
        end;
      sq ← squash method parameters look;
      if sq : bool then
        set_pg (λ pg, pg <| draw_arrays_prevent_connect := true |>);;
        mret (num_words_consumed + 4)
      else mret num_words_consumed
  end.

(** ** [pgraph_method] *)

(** Load the context of an object into the cache of the subchannel. *)
Definition method_set_object (subchannel parameter : Z) : M D unit :=
  d ← gets id;
  assertM (parameter <? blen (ramin d));;
  ctx_1 ← ldl_le_p (ramin d) parameter;
  ctx_2 ← ldl_le_p (ramin d) (parameter + 4);
  ctx_3 ← ldl_le_p (ramin d) (parameter + 8);
  ctx_4 ← ldl_le_p (ramin d) (parameter + 12);
  pgraph_reg_w (NV_PGRAPH_CTX_CACHE1 + subchannel * 4) ctx_1;;
  pgraph_reg_w (NV_PGRAPH_CTX_CACHE2 + subchannel * 4) ctx_2;;
  pgraph_reg_w (NV_PGRAPH_CTX_CACHE3 + subchannel * 4) ctx_3;;
  pgraph_reg_w (NV_PGRAPH_CTX_CACHE4 + subchannel * 4) ctx_4;;
  pgraph_reg_w (NV_PGRAPH_CTX_CACHE5 + subchannel * 4) parameter.

(** Switch to the context of the subchannel. *)
Definition method_ctx_switch (subchannel : Z) : M D unit :=
  forM [(NV_PGRAPH_CTX_SWITCH1, NV_PGRAPH_CTX_CACHE1); (NV_PGRAPH_CTX_SWITCH2, NV_PGRAPH_CTX_CACHE2);
        (NV_PGRAPH_CTX_SWITCH3, NV_PGRAPH_CTX_CACHE3); (NV_PGRAPH_CTX_SWITCH4, NV_PGRAPH_CTX_CACHE4);
        (NV_PGRAPH_CTX_SWITCH5, NV_PGRAPH_CTX_CACHE5)]
    (λ '(dst, src), v ← pgraph_reg_r (src + subchannel * 4); pgraph_reg_w dst v).

Definition pgraph_method (subchannel method parameter parameters num_words_available max_lookahead_words : Z)
    (inc : bool) : M D Z :=
  channel_valid ← PG_GET_MASK NV_PGRAPH_CTX_CONTROL NV_PGRAPH_CTX_CONTROL_CHID;
  assertM (truthy channel_valid);;
  assertM (subchannel <? 8);;
  whenM (method =? NV_SET_OBJECT) (method_set_object subchannel parameter);;
  method_ctx_switch subchannel;;
  graphics_class ← PG_GET_MASK NV_PGRAPH_CTX_SWITCH1 NV_PGRAPH_CTX_SWITCH1_GRCLASS;
  whenM (negb (subchannel =? 0)) (assertM (negb (graphics_class =? 0x97)));;
  if graphics_class =? NV_BETA then method_beta method parameter;; mret 1
  else if graphics_class =? NV_CONTEXT_PATTERN then method_pattern method parameter;; mret 1
  else if graphics_class =? NV_CONTEXT_SURFACES_2D then method_surfaces_2d method parameter;; mret 1
  else if graphics_class =? NV_IMAGE_BLIT then method_image_blit method parameter;; mret 1
  else if graphics_class =? NV_KELVIN_PRIMITIVE then
    method_kelvin subchannel method parameter parameters num_words_available max_lookahead_words inc
  else mret 1.
End pgraph.
