(* ===== verification/Pfifo.v ===== *)
(** * Pfifo: the command FIFO, hw/xbox/nv2a/pfifo.c

    The pusher reads commands from the push buffer in VRAM between DMA_GET and DMA_PUT,
    follows its jumps, calls and returns, and hands the words of methods to the puller,
    which looks objects up in RAMHT and calls the drawing engine.  The engine is behind
    the class [PGraph].  The FIFO thread runs the pusher whenever it is kicked; locks
    are not modelled, a run of the pusher is one step.

    The pusher need not stop (a jump can lead to itself), so its loop has fuel; the
    theorems of PfifoSpec give the fuel that is enough. *)

From stdpp Require Import gmap.
From S2P Require Import Prelude.
From S2P Require Import Nv2aRegs.
From S2P Require Import Nv2a.
From S2P Require Import Pgraph.

(** [pgraph_method]: subchannel, method, parameter, where the words are in VRAM, how
    many there are for the method and in all, and whether the method increases. *)
Class PGraph (V X : Type) :=
  pg_method : Z → Z → Z → Z → Z → Z → bool → M (NV2AState V X) Z.

Record RAMHTEntry := { e_handle : Z; e_instance : Z; e_engine : Z; e_channel_id : Z; e_valid : bool }.

Abbreviation ENGINE_GRAPHICS := 1%Z (only parsing).

Section pfifo.
Context {V X : Type} `{!VGACommon V} `{!PGraph V X}.
Abbreviation D := (NV2AState V X).

Definition fifo_r (r : Z) : M D Z := gets (λ d, reg (pfifo_regs d) r).
Definition fifo_w (r v : Z) : M D unit := modify (λ d, d <| pfifo_regs ::= <[r := v]> |>).
(** [SET_MASK] on a register. *)
Definition fifo_set (r mask v : Z) : M D unit := old ← fifo_r r; fifo_w r (SET_MASK old mask v).

(** ** RAMHT *)

(** The loop of [ramht_hash]: the handle shrinks by at least one bit each time. *)
Fixpoint hash_fold (fuel : nat) (bits handle hash : Z) : Z :=
  match fuel with
  | O => hash
  | S fuel =>
      if handle =? 0 then hash
      else hash_fold fuel bits (handle >>> bits) (hash ^^^ (handle &&& ((1 <<< bits) - 1)))
  end.

Definition ramht_size : M D Z :=
  r ← fifo_r NV_PFIFO_RAMHT; mret (1 <<< (GET_MASK r NV_PFIFO_RAMHT_SIZE + 12)).

Definition ramht_hash (handle : Z) : M D Z :=
  ramht_size ← ramht_size;
  let bits := ctz32 ramht_size - 1 in
  let hash := hash_fold 32 bits handle 0 in
  push1 ← fifo_r NV_PFIFO_CACHE1_PUSH1;
  let channel_id := GET_MASK push1 NV_PFIFO_CACHE1_PUSH1_CHID in
  mret (hash ^^^ u32 (channel_id <<< (bits - 4))).

Definition ramht_lookup (handle : Z) : M D RAMHTEntry :=
  ramht_size ← ramht_size;
  hash ← ramht_hash handle;
  assertM (u32 (hash * 8) <? ramht_size);;
  r ← fifo_r NV_PFIFO_RAMHT;
  let ramht_address := GET_MASK r NV_PFIFO_RAMHT_BASE_ADDRESS <<< 12 in
  ramin ← gets ramin;
  assertM (ramht_address + u32 (hash * 8) <? blen ramin);;
  let entry_ptr := ramht_address + u32 (hash * 8) in
  entry_handle ← ldl_le_p ramin entry_ptr;
  entry_context ← ldl_le_p ramin (entry_ptr + 4);
  mret {| e_handle := entry_handle;
          e_instance := (entry_context &&& NV_RAMHT_INSTANCE) <<< 4;
          e_engine := (entry_context &&& NV_RAMHT_ENGINE) >>> 16;
          e_channel_id := (entry_context &&& NV_RAMHT_CHID) >>> 24;
          e_valid := truthy (entry_context &&& NV_RAMHT_STATUS) |}.

(** ** The puller *)

Definition fifo_access (d : D) : bool := truthy (reg (pg_regs (pgraph d)) NV_PGRAPH_FIFO &&& NV_PGRAPH_FIFO_ACCESS).
Definition can_fifo_access : M D bool := gets fifo_access.

Definition is_flip_stall_complete : M D bool :=
  s ← pgraph_reg_r NV_PGRAPH_SURFACE;
  mret (negb (GET_MASK s NV_PGRAPH_SURFACE_READ_3D =? GET_MASK s NV_PGRAPH_SURFACE_WRITE_3D)).

Definition pfifo_stall_for_flip : M D bool :=
  d ← gets id;
  if waiting_for_flip (pgraph d) then
    complete ← is_flip_stall_complete;
    if negb complete then mret true
    else modify (λ d, d <| pgraph ::= λ pg, pg <| waiting_for_flip := false |> |>);; mret false
  else mret false.

Definition pfifo_puller_should_stall : M D bool :=
  flip ← pfifo_stall_for_flip;
  d ← gets id;
  mret (flip || waiting_for_nop (pgraph d) || waiting_for_context_switch (pgraph d) || negb (fifo_access d)).

(** Binding an object to a subchannel: method 0. *)
Definition puller_bind (subchannel parameter parameters avail look : Z) (inc : bool) : M D Z :=
  entry ← ramht_lookup parameter;
  assertM (e_valid entry);;
  assertM (e_engine entry =? ENGINE_GRAPHICS);;
  assertM (subchannel <? 8);;
  fifo_set NV_PFIFO_CACHE1_ENGINE (3 <<< (4 * subchannel)) (e_engine entry);;
  fifo_set NV_PFIFO_CACHE1_PULL1 NV_PFIFO_CACHE1_PULL1_ENGINE (e_engine entry);;
  access ← can_fifo_access;
  if access : bool then
    pgraph_context_switch (e_channel_id entry);;
    d ← gets id;
    if waiting_for_context_switch (pgraph d) then mret (-1)
    else pg_method subchannel 0 (e_instance entry) parameters avail look inc
  else mret (-1).

(** A method for the engine bound to the subchannel. *)
Definition puller_method (subchannel method parameter parameters avail look : Z) (inc : bool) : M D Z :=
  parameter ← (if (0x180 <=? method) && (method <? 0x200) then
                 entry ← ramht_lookup parameter;
                 assertM (e_valid entry);;
                 mret (e_instance entry)
               else mret parameter);
  engine_reg ← fifo_r NV_PFIFO_CACHE1_ENGINE;
  let engine := GET_MASK engine_reg (3 <<< (4 * subchannel)) in
  assertM (engine =? ENGINE_GRAPHICS);;
  fifo_set NV_PFIFO_CACHE1_PULL1 NV_PFIFO_CACHE1_PULL1_ENGINE engine;;
  access ← can_fifo_access;
  if access : bool then pg_method subchannel method parameter parameters avail look inc
  else mret (-1).

Definition pfifo_run_puller (method_entry parameter parameters num_words_available max_lookahead_words : Z)
    : M D Z :=
  stall ← pfifo_puller_should_stall;
  if stall : bool then mret (-1)
  else
    pull0 ← fifo_r NV_PFIFO_CACHE1_PULL0;
    status ← fifo_r NV_PFIFO_CACHE1_STATUS;
    if negb (truthy (GET_MASK pull0 NV_PFIFO_CACHE1_PULL0_ACCESS)) ||
       truthy (status &&& NV_PFIFO_CACHE1_STATUS_LOW_MARK) then mret (-1)
    else
      let method := method_entry &&& 0x1FFC in
      let subchannel := GET_MASK method_entry NV_PFIFO_CACHE1_METHOD_SUBCHANNEL in
      let inc := negb (truthy (GET_MASK method_entry NV_PFIFO_CACHE1_METHOD_TYPE)) in
      num_proc ←
        (if method =? 0 then
           puller_bind subchannel parameter parameters num_words_available max_lookahead_words inc
         else if 0x100 <=? method then
           puller_method subchannel method parameter parameters num_words_available max_lookahead_words inc
         else assertM false;; mret (-1));
      status ← fifo_r NV_PFIFO_CACHE1_STATUS;
      whenM (0 <? num_proc) (fifo_w NV_PFIFO_CACHE1_STATUS (status ||| NV_PFIFO_CACHE1_STATUS_LOW_MARK));;
      mret num_proc.

(** ** The pusher *)

Definition pusher_should_stall (d : D) : bool := negb (fifo_access d) || waiting_for_nop (pgraph d).
Definition pfifo_pusher_should_stall : M D bool := gets pusher_should_stall.

(** A data word of the active command: the new DMA_GET, or [None] to leave the loop. *)
Definition pusher_data (word word_ptr get avail : Z) : M D (option Z) :=
  dma_state ← fifo_r NV_PFIFO_CACHE1_DMA_STATE;
  let method_type := GET_MASK dma_state NV_PFIFO_CACHE1_DMA_STATE_METHOD_TYPE in
  let method_subchannel := GET_MASK dma_state NV_PFIFO_CACHE1_DMA_STATE_SUBCHANNEL in
  let method := GET_MASK dma_state NV_PFIFO_CACHE1_DMA_STATE_METHOD <<< 2 in
  let method_count := GET_MASK dma_state NV_PFIFO_CACHE1_DMA_STATE_METHOD_COUNT in
  fifo_w NV_PFIFO_CACHE1_DMA_DATA_SHADOW word;;
  assertM ((method &&& 3) =? 0);;
  let method_entry := SET_MASK 0 NV_PFIFO_CACHE1_METHOD_ADDRESS (method >>> 2) in
  let method_entry := SET_MASK method_entry NV_PFIFO_CACHE1_METHOD_TYPE method_type in
  let method_entry := SET_MASK method_entry NV_PFIFO_CACHE1_METHOD_SUBCHANNEL method_subchannel in
  status ← fifo_r NV_PFIFO_CACHE1_STATUS;
  fifo_w NV_PFIFO_CACHE1_STATUS (status &&& not32 NV_PFIFO_CACHE1_STATUS_LOW_MARK);;
  n ← pfifo_run_puller method_entry word word_ptr (Z.min method_count avail) avail;
  if n <? 0 then mret None
  else
    whenM (method_type =? NV_PFIFO_CACHE1_DMA_STATE_METHOD_TYPE_INC)
      (fifo_set NV_PFIFO_CACHE1_DMA_STATE NV_PFIFO_CACHE1_DMA_STATE_METHOD ((method + 4 * n) >>> 2));;
    fifo_set NV_PFIFO_CACHE1_DMA_STATE NV_PFIFO_CACHE1_DMA_STATE_METHOD_COUNT (method_count - Z.min method_count n);;
    dcount ← fifo_r NV_PFIFO_CACHE1_DMA_DCOUNT;
    fifo_w NV_PFIFO_CACHE1_DMA_DCOUNT (u32 (dcount + n));;
    mret (Some (u32 (get + (n - 1) * 4))).

(** The start of a methods command. *)
Definition pusher_methods (word type : Z) : M D unit :=
  fifo_set NV_PFIFO_CACHE1_DMA_STATE NV_PFIFO_CACHE1_DMA_STATE_METHOD ((word &&& 0x1fff) >>> 2);;
  fifo_set NV_PFIFO_CACHE1_DMA_STATE NV_PFIFO_CACHE1_DMA_STATE_SUBCHANNEL ((word >>> 13) &&& 7);;
  fifo_set NV_PFIFO_CACHE1_DMA_STATE NV_PFIFO_CACHE1_DMA_STATE_METHOD_COUNT ((word >>> 18) &&& 0x7ff);;
  fifo_set NV_PFIFO_CACHE1_DMA_STATE NV_PFIFO_CACHE1_DMA_STATE_METHOD_TYPE type;;
  fifo_w NV_PFIFO_CACHE1_DMA_DCOUNT 0.

(** The first word of a command. *)
Definition pusher_command (word get : Z) : M D (option Z) :=
  sub ← fifo_r NV_PFIFO_CACHE1_DMA_SUBROUTINE;
  let subroutine_state := GET_MASK sub NV_PFIFO_CACHE1_DMA_SUBROUTINE_STATE in
  fifo_w NV_PFIFO_CACHE1_DMA_RSVD_SHADOW word;;
  if (word &&& 0xe0000003) =? 0x20000000 then
    fifo_w NV_PFIFO_CACHE1_DMA_GET_JMP_SHADOW get;; mret (Some (word &&& 0x1fffffff))
  else if (word &&& 3) =? 1 then
    fifo_w NV_PFIFO_CACHE1_DMA_GET_JMP_SHADOW get;; mret (Some (word &&& 0xfffffffc))
  else if (word &&& 3) =? 2 then
    if truthy subroutine_state then
      fifo_set NV_PFIFO_CACHE1_DMA_STATE NV_PFIFO_CACHE1_DMA_STATE_ERROR NV_PFIFO_CACHE1_DMA_STATE_ERROR_CALL;;
      mret None
    else
      fifo_w NV_PFIFO_CACHE1_DMA_SUBROUTINE get;;
      fifo_set NV_PFIFO_CACHE1_DMA_SUBROUTINE NV_PFIFO_CACHE1_DMA_SUBROUTINE_STATE 1;;
      mret (Some (word &&& 0xfffffffc))
  else if word =? 0x00020000 then
    if negb (truthy subroutine_state) then
      fifo_set NV_PFIFO_CACHE1_DMA_STATE NV_PFIFO_CACHE1_DMA_STATE_ERROR NV_PFIFO_CACHE1_DMA_STATE_ERROR_RETURN;;
      mret (Some get)
    else
      fifo_set NV_PFIFO_CACHE1_DMA_SUBROUTINE NV_PFIFO_CACHE1_DMA_SUBROUTINE_STATE 0;;
      mret (Some (sub &&& 0xfffffffc))
  else if (word &&& 0xe0030003) =? 0 then
    pusher_methods word NV_PFIFO_CACHE1_DMA_STATE_METHOD_TYPE_INC;; mret (Some get)
  else if (word &&& 0xe0030003) =? 0x40000000 then
    pusher_methods word NV_PFIFO_CACHE1_DMA_STATE_METHOD_TYPE_NON_INC;; mret (Some get)
  else
    fifo_set NV_PFIFO_CACHE1_DMA_STATE NV_PFIFO_CACHE1_DMA_STATE_ERROR NV_PFIFO_CACHE1_DMA_STATE_ERROR_RESERVED_CMD;;
    assertM false;; mret (Some get).

(** One iteration: whether the loop goes on. *)
Definition pusher_step (dma dma_len : Z) : M D bool :=
  dma_get_v ← fifo_r NV_PFIFO_CACHE1_DMA_GET;
  dma_put_v ← fifo_r NV_PFIFO_CACHE1_DMA_PUT;
  if dma_get_v =? dma_put_v then mret false
  else
    assertM (dma_get_v <? dma_len);;
    let num := u32 (dma_put_v - dma_get_v) in
    assertM (num mod 4 =? 0);;
    let num_words_available := num / 4 in
    d ← gets id;
    let word_ptr := dma + dma_get_v in
    word ← ldl_le_p (vram d) word_ptr;
    let dma_get_v := u32 (dma_get_v + 4) in
    dma_state ← fifo_r NV_PFIFO_CACHE1_DMA_STATE;
    next ← (if truthy (GET_MASK dma_state NV_PFIFO_CACHE1_DMA_STATE_METHOD_COUNT) then
              pusher_data word word_ptr dma_get_v num_words_available
            else pusher_command word dma_get_v);
    match next with
    | None => mret false
    | Some get =>
        fifo_w NV_PFIFO_CACHE1_DMA_GET get;;
        dma_state ← fifo_r NV_PFIFO_CACHE1_DMA_STATE;
        mret (negb (truthy (GET_MASK dma_state NV_PFIFO_CACHE1_DMA_STATE_ERROR)))
    end.

Fixpoint pusher_loop (fuel : nat) (dma dma_len : Z) : M D unit :=
  match fuel with
  | O => raise OutOfFuel
  | S fuel =>
      stall ← pfifo_pusher_should_stall;
      if stall : bool then mret tt
      else
        go ← pusher_step dma dma_len;
        if go : bool then pusher_loop fuel dma dma_len else mret tt
  end.

Definition pfifo_run_pusher (fuel : nat) : M D unit :=
  push0 ← fifo_r NV_PFIFO_CACHE1_PUSH0;
  dma_push ← fifo_r NV_PFIFO_CACHE1_DMA_PUSH;
  if negb (truthy (GET_MASK push0 NV_PFIFO_CACHE1_PUSH0_ACCESS)) ||
     negb (truthy (GET_MASK dma_push NV_PFIFO_CACHE1_DMA_PUSH_ACCESS)) ||
     truthy (GET_MASK dma_push NV_PFIFO_CACHE1_DMA_PUSH_STATUS) then mret tt
  else
    push1 ← fifo_r NV_PFIFO_CACHE1_PUSH1;
    let channel_id := GET_MASK push1 NV_PFIFO_CACHE1_PUSH1_CHID in
    channel_modes ← fifo_r NV_PFIFO_MODE;
    assertM (truthy (channel_modes &&& (1 <<< channel_id)));;
    assertM (GET_MASK push1 NV_PFIFO_CACHE1_PUSH1_MODE =? NV_PFIFO_CACHE1_PUSH1_MODE_DMA);;
    dma_state ← fifo_r NV_PFIFO_CACHE1_DMA_STATE;
    assertM (GET_MASK dma_state NV_PFIFO_CACHE1_DMA_STATE_ERROR =? NV_PFIFO_CACHE1_DMA_STATE_ERROR_NONE);;
    inst ← fifo_r NV_PFIFO_CACHE1_DMA_INSTANCE;
    let dma_instance := GET_MASK inst NV_PFIFO_CACHE1_DMA_INSTANCE_ADDRESS <<< 4 in
    '(dma, dma_len) ← nv_dma_map dma_instance;
    pusher_loop fuel dma dma_len;;
    dma_state ← fifo_r NV_PFIFO_CACHE1_DMA_STATE;
    whenM (truthy (GET_MASK dma_state NV_PFIFO_CACHE1_DMA_STATE_ERROR))
      (assertM false;;
       fifo_set NV_PFIFO_CACHE1_DMA_PUSH NV_PFIFO_CACHE1_DMA_PUSH_STATUS 1).

(** One turn of the FIFO thread; what it does for the renderer before and after the
    pusher is a parameter. *)
Definition pfifo_thread_turn (process_pending process_pending_reports : M D unit) (fuel : nat) : M D unit :=
  modify (λ d, d <| fifo_kick := false |>);;
  process_pending;;
  halted ← gets halt;
  whenM (negb halted) (pfifo_run_pusher fuel);;
  process_pending_reports.
End pfifo.
