(* ===== verification/PfifoSpec.v ===== *)
(** * PfifoSpec: what a push buffer means

    The specification of the command FIFO.  A push buffer is commands in memory
    ([cmd], encoded by [encode]); [runs] reads off the words of methods it leads
    through; [exec] delivers these words to the drawing engine one by one, with the
    objects they name looked up.  [pusher_delivers] says that the pusher, with its
    register state, its batches of words and its puller, does just that. *)

From stdpp Require Import gmap.
From S2P Require Import Prelude.
From S2P Require Import Nv2aRegs.
From S2P Require Import Nv2a.
From S2P Require Import Pfifo.

(** A word for the engine: the parameter of a method of a subchannel, and where it is
    in VRAM. *)
Record call := { c_sub : Z; c_method : Z; c_param : Z; c_ptr : Z; c_inc : bool }.
#[global] Instance eta_call : EtaRecord call := λ c,
  {| c_sub := c_sub c; c_method := c_method c; c_param := c_param c; c_ptr := c_ptr c; c_inc := c_inc c |}.

(** The words of one command. *)
Definition calls_from (sub m ptr : Z) (inc : bool) (ws : list Z) : list call :=
  imap (λ i w, {| c_sub := sub; c_method := if inc then m + 4 * Z.of_nat i else m; c_param := w;
                  c_ptr := ptr + 4 * Z.of_nat i; c_inc := inc |}) ws.

(** Methods whose parameter is neither an object nor a binding. *)
Definition plain (m : Z) : Prop := 0x100 ≤ m ∧ ¬ 0x180 ≤ m < 0x200.

(** ** The engine *)

(** The words an engine takes one by one. *)
Class Accepts (V X : Type) := accepts : NV2AState V X → call → Prop.

Section engine.
Context {V X : Type} `{!PGraph V X} `{!Accepts V X}.
Abbreviation D := (NV2AState V X).
Implicit Types (d : D).

Definition with_regs d (rs : regfile) : D := d <| pfifo_regs := rs |>.

(** The engine does not make the FIFO wait. *)
Definition ready d : Prop :=
  fifo_access d = true ∧ waiting_for_nop (pgraph d) = false ∧ waiting_for_flip (pgraph d) = false ∧
  waiting_for_context_switch (pgraph d) = false.

(** One word, handled by itself, while the engine stays ready and leaves the objects
    and the push buffer, [dma_len] bytes at [dma], alone. *)
Definition same_mem (dma dma_len : Z) d d' : Prop :=
  slice dma dma_len (vram d') = slice dma dma_len (vram d) ∧ blen (vram d') = blen (vram d) ∧ ramin d' = ramin d.
Definition delivers (dma dma_len : Z) d (c : call) d' : Prop :=
  ready d ∧ accepts d c ∧
  pg_method (c_sub c) (c_method c) (c_param c) (c_ptr c) 1 1 (c_inc c) d = Ok (1, d') ∧
  ready d' ∧ same_mem dma dma_len d d'.
Inductive delivers_all (dma dma_len : Z) : D → list call → D → Prop :=
| delivers_nil d : delivers_all dma dma_len d [] d
| delivers_cons d c d1 cs d' :
    delivers dma dma_len d c d1 → delivers_all dma dma_len d1 cs d' → delivers_all dma dma_len d (c :: cs) d'.

(** The word at an offset of the push buffer. *)
Definition pb_word (dma : Z) d (g : Z) : Z := of_le (slice (dma + g) 4 (vram d)).
End engine.

(** What the FIFO relies on: the engine does not look at the registers of PFIFO or change
    them, and given several words of a command it handles some of them, at least one,
    as if they came one by one, without crossing into methods that name objects. *)
Class PGraphLaws (V X : Type) `{!PGraph V X} `{!Accepts V X} := {
  pg_fifo_indep : ∀ sub m p ptr n l inc (d : NV2AState V X) rs,
    pg_method sub m p ptr n l inc (with_regs d rs) =
    match pg_method sub m p ptr n l inc d with
    | Ok (k, d') => Ok (k, with_regs d' rs)
    | Fault e => Fault e
    end;
  accepts_fifo : ∀ (d : NV2AState V X) c rs, accepts d c → accepts (with_regs d rs) c;
  pg_batch : ∀ dma dma_len (d : NV2AState V X) sub m p w ptr rest look inc j d',
    let n := Z.of_nat (length (w :: rest)) in
    let cs := calls_from sub m ptr inc (p :: rest) in
    (∀ i w', (w :: rest) !! i = Some w' → of_le (slice (ptr + 4 * Z.of_nat i) 4 (vram d)) = w') →
    0 ≤ dma ≤ ptr → ptr + 4 * n ≤ dma + dma_len → ptr + 4 * n ≤ blen (vram d) → (plain m → p = w) →
    (1 ≤ j ≤ length cs)%nat →
    (∀ i c, (1 ≤ i < j)%nat → cs !! i = Some c → plain (c_method c)) →
    (∀ c, cs !! j = Some c → ¬ plain (c_method c)) →
    delivers_all dma dma_len d (take j cs) d' →
    ∃ k d1, (1 ≤ k ≤ j)%nat ∧
      pg_method sub m p ptr n look inc d = Ok (Z.of_nat k, d1) ∧
      delivers_all dma dma_len d (take k cs) d1
}.

(** ** Commands *)

Inductive cmd :=
  Methods (inc : bool) (sub m n : Z) | OldJump (a : Z) | Jump (a : Z) | Call (a : Z) | Return.

Definition encode (c : cmd) : Z :=
  match c with
  | Methods inc sub m n => (if inc then 0 else 2 ^ 30) + n * 2 ^ 18 + sub * 2 ^ 13 + m
  | OldJump a => 2 ^ 29 + a
  | Jump a => a + 1
  | Call a => a + 2
  | Return => 2 ^ 17
  end.

Definition cmd_ok (c : cmd) : Prop :=
  match c with
  | Methods inc sub m n =>
      0 ≤ sub < 8 ∧ 0 ≤ m < 2 ^ 13 ∧ m mod 4 = 0 ∧ 0 ≤ n < 2 ^ 11 ∧ (inc = true → m + 4 * (n - 1) < 2 ^ 13)
  | OldJump a => 0 ≤ a < 2 ^ 29 ∧ a mod 4 = 0
  | Jump a | Call a => 0 ≤ a < 2 ^ 32 ∧ a mod 4 = 0
  | Return => True
  end.

Section runs.
Context {V X : Type}.
Context (dma dma_len put : Z) (d0 : NV2AState V X).

(** A word of the buffer the pusher fetches. *)
Definition fetched (g w : Z) : Prop :=
  g ≠ put ∧ 0 ≤ g ∧ g mod 4 = 0 ∧ g + 4 ≤ dma_len ∧ dma + g + 4 ≤ blen (vram d0) ∧ pb_word dma d0 g = w.

(** From an offset, with the return address of the active call if there is one, through
    commands, to an offset: the words of methods on the way. *)
Inductive runs : Z → option Z → list call → Z → option Z → Prop :=
| runs_end g s : runs g s [] g s
| runs_methods g s inc sub m ws cs g' s' :
    cmd_ok (Methods inc sub m (Z.of_nat (length ws))) →
    fetched g (encode (Methods inc sub m (Z.of_nat (length ws)))) →
    (∀ i w, ws !! i = Some w → fetched (g + 4 + 4 * Z.of_nat i) w) →
    runs (g + 4 + 4 * Z.of_nat (length ws)) s cs g' s' →
    runs g s (calls_from sub m (dma + g + 4) inc ws ++ cs) g' s'
| runs_old_jump g s a cs g' s' :
    cmd_ok (OldJump a) → fetched g (encode (OldJump a)) → runs a s cs g' s' → runs g s cs g' s'
| runs_jump g s a cs g' s' :
    cmd_ok (Jump a) → fetched g (encode (Jump a)) → runs a s cs g' s' → runs g s cs g' s'
| runs_call g a cs g' s' :
    cmd_ok (Call a) → fetched g (encode (Call a)) → runs a (Some (g + 4)) cs g' s' → runs g None cs g' s'
| runs_return g r cs g' s' :
    fetched g (encode Return) → runs r None cs g' s' → runs g (Some r) cs g' s'.
End runs.

(** ** Delivery *)

Section exec.
Context {V X : Type} `{!PGraph V X} `{!Accepts V X}.
Context (dma dma_len : Z) (L : Z → option RAMHTEntry).
Abbreviation D := (NV2AState V X).

(** The engine runs a channel. *)
Definition on_channel (d : D) (ch : Z) : Prop :=
  truthy (reg (pg_regs (pgraph d)) NV_PGRAPH_CTX_CONTROL &&& NV_PGRAPH_CTX_CONTROL_CHID) = true ∧
  GET_MASK (reg (pg_regs (pgraph d)) NV_PGRAPH_CTX_USER) NV_PGRAPH_CTX_USER_CHID = ch.

(** The words one after the other.  A binding (method 0) needs an object of the graphics
    engine on the running channel; other methods need a bound subchannel; methods that
    name objects get their instance. *)
Definition object_method (m : Z) : bool := (0x180 <=? m) && (m <? 0x200).
Inductive exec : D → gset Z → list call → D → gset Z → Prop :=
| exec_nil d B : exec d B [] d B
| exec_bind d B c e d1 cs d' B' :
    c_method c = 0 → L (c_param c) = Some e → e_engine e = ENGINE_GRAPHICS → on_channel d (e_channel_id e) →
    delivers dma dma_len d (c <| c_param := e_instance e |>) d1 →
    exec d1 ({[c_sub c]} ∪ B) cs d' B' → exec d B (c :: cs) d' B'
| exec_object d B c e d1 cs d' B' :
    object_method (c_method c) = true → L (c_param c) = Some e → c_sub c ∈ B →
    delivers dma dma_len d (c <| c_param := e_instance e |>) d1 →
    exec d1 B cs d' B' → exec d B (c :: cs) d' B'
| exec_plain d B c d1 cs d' B' :
    plain (c_method c) → c_sub c ∈ B → delivers dma dma_len d c d1 →
    exec d1 B cs d' B' → exec d B (c :: cs) d' B'.
End exec.

(** ** Starting the pusher *)

Section start.
Context {V X : Type}.
Abbreviation D := (NV2AState V X).
Implicit Types (d : D).

(** The FIFO is on, in DMA mode, for a buffer of [dma_len] bytes at [dma] of VRAM, without
    an error and between commands. *)
Record started d (dma dma_len : Z) : Prop := {
  st_push0 : truthy (GET_MASK (reg (pfifo_regs d) NV_PFIFO_CACHE1_PUSH0) NV_PFIFO_CACHE1_PUSH0_ACCESS) = true;
  st_push : truthy (GET_MASK (reg (pfifo_regs d) NV_PFIFO_CACHE1_DMA_PUSH) NV_PFIFO_CACHE1_DMA_PUSH_ACCESS) = true;
  st_status : truthy (GET_MASK (reg (pfifo_regs d) NV_PFIFO_CACHE1_DMA_PUSH) NV_PFIFO_CACHE1_DMA_PUSH_STATUS) = false;
  st_channel : truthy (reg (pfifo_regs d) NV_PFIFO_MODE &&&
    (1 <<< GET_MASK (reg (pfifo_regs d) NV_PFIFO_CACHE1_PUSH1) NV_PFIFO_CACHE1_PUSH1_CHID)) = true;
  st_mode : GET_MASK (reg (pfifo_regs d) NV_PFIFO_CACHE1_PUSH1) NV_PFIFO_CACHE1_PUSH1_MODE
    = NV_PFIFO_CACHE1_PUSH1_MODE_DMA;
  st_map : nv_dma_map (GET_MASK (reg (pfifo_regs d) NV_PFIFO_CACHE1_DMA_INSTANCE)
    NV_PFIFO_CACHE1_DMA_INSTANCE_ADDRESS <<< 4) d = Ok ((dma, dma_len), d);
  st_range : 0 ≤ dma ∧ dma_len < 2 ^ 32;
  st_pull : truthy (GET_MASK (reg (pfifo_regs d) NV_PFIFO_CACHE1_PULL0) NV_PFIFO_CACHE1_PULL0_ACCESS) = true;
  st_idle : GET_MASK (reg (pfifo_regs d) NV_PFIFO_CACHE1_DMA_STATE) NV_PFIFO_CACHE1_DMA_STATE_METHOD_COUNT = 0;
  st_error : GET_MASK (reg (pfifo_regs d) NV_PFIFO_CACHE1_DMA_STATE) NV_PFIFO_CACHE1_DMA_STATE_ERROR = 0
}.

(** Subchannels with the graphics engine bound to them. *)
Definition bound (rs : regfile) (B : gset Z) : Prop :=
  ∀ sub, sub ∈ B → 0 ≤ sub < 8 ∧ GET_MASK (reg rs NV_PFIFO_CACHE1_ENGINE) (3 <<< (4 * sub)) = ENGINE_GRAPHICS.

(** The return address in the registers. *)
Definition returning (rs : regfile) (s : option Z) : Prop :=
  match s with
  | None => GET_MASK (reg rs NV_PFIFO_CACHE1_DMA_SUBROUTINE) NV_PFIFO_CACHE1_DMA_SUBROUTINE_STATE = 0
  | Some r => reg rs NV_PFIFO_CACHE1_DMA_SUBROUTINE = r + 1 ∧ is_u32 r ∧ r mod 4 = 0
  end.
End start.

(** The hash of a handle of [n] bits is complete after [n] rounds. *)
Lemma hash_fold_fuel bits n : 0 < bits → ∀ fuel handle hash,
  0 ≤ handle < 2 ^ Z.of_nat n → (n ≤ fuel)%nat → hash_fold fuel bits handle hash = hash_fold n bits handle hash.
Proof.
  intros Hb. induction n as [|n IH]; intros fuel handle hash Hh Hf.
  { replace handle with 0 by lia. by destruct fuel. }
  destruct fuel as [|fuel]; [lia|]. cbn. destruct (Z.eqb_spec handle 0); [done|]. apply IH; [|lia].
  rewrite Z.shiftr_div_pow2 by lia. split; [apply Z.div_pos; lia|].
  rewrite Nat2Z.inj_succ, Z.pow_succ_r in Hh by lia. apply Z.div_lt_upper_bound; [lia|].
  assert (2 ^ 1 ≤ 2 ^ bits) by (apply Z.pow_le_mono_r; lia). nia.
Qed.
