(* ===== verification/PfifoRuns.v ===== *)
(** * PfifoRuns: the pusher and the puller do what PfifoSpec says

    The states of the device are split into the engine's part and the registers of
    PFIFO ([with_regs]); [fifo_at] relates the registers to a place in the push buffer.
    The lemmas go from single fields over words and commands to whole runs. *)

From stdpp Require Import gmap.
From S2P Require Import Prelude.
From S2P Require Import Nv2aRegs.
From S2P Require Import Nv2a.
From S2P Require Import Pfifo.
From S2P Require Import PfifoSpec.

Create HintDb fifo.

(** ** Words *)

(** The bits the pusher tells commands apart by. *)
Lemma cmd_type w : w &&& 0xe0000003 = (w / 2 ^ 29 mod 8) * 2 ^ 29 + w mod 4.
Proof.
  change 0xe0000003 with ((Z.ones 3 <<< 29) ||| (Z.ones 2 <<< 0)).
  rewrite Z.land_lor_distr_r, !land_field by lia. rewrite Z.shiftr_0_r, Z.shiftl_0_r, Z.shiftr_div_pow2 by lia.
  apply lor_shl_add; [lia|]. change (2 ^ 2) with 4. pose proof (Z.mod_pos_bound w 4). lia.
Qed.
Lemma cmd_form w : w &&& 0xe0030003 = (w / 2 ^ 29 mod 8) * 2 ^ 29 + (w / 2 ^ 16 mod 4) * 2 ^ 16 + w mod 4.
Proof.
  change 0xe0030003 with ((Z.ones 3 <<< 29) ||| ((Z.ones 2 <<< 16) ||| (Z.ones 2 <<< 0))).
  rewrite !Z.land_lor_distr_r, !land_field by lia. rewrite Z.shiftr_0_r, Z.shiftl_0_r, !Z.shiftr_div_pow2 by lia.
  pose proof (Z.mod_pos_bound w 4 ltac:(lia)). pose proof (Z.mod_pos_bound (w / 2 ^ 16) 4 ltac:(lia)).
  change (2 ^ 2) with 4. rewrite (lor_shl_add 16 _ (w mod 4)) by lia. rewrite lor_shl_add by lia.
  change (2 ^ 3) with 8. lia.
Qed.
Lemma land_3 w : w &&& 3 = w mod 4.
Proof. change 3 with (Z.ones 2). by rewrite Z.land_ones by lia. Qed.
Lemma land_low w : is_u32 w → w &&& 0xfffffffc = w - w mod 4.
Proof.
  intros Hw. change 0xfffffffc with (Z.ones 30 <<< 2). rewrite land_field by lia.
  rewrite Z.shiftr_div_pow2, Z.shiftl_mul_pow2 by lia. unfold is_u32 in Hw. rewrite Z.mod_small by dlia.
  change (2 ^ 2) with 4. dlia.
Qed.

(** The fields of a methods command. *)
Lemma methods_fields inc sub m n :
  cmd_ok (Methods inc sub m n) →
  let w := encode (Methods inc sub m n) in
  w &&& 0xe0000003 = (if inc then 0 else 2 ^ 30) ∧ w mod 4 = 0 ∧ w ≠ 0x20000 ∧
  w &&& 0xe0030003 = (if inc then 0 else 2 ^ 30) ∧
  (w &&& 0x1fff) >>> 2 = m / 4 ∧ (w >>> 13) &&& 7 = sub ∧ (w >>> 18) &&& 0x7ff = n.
Proof.
  intros (Hsub & Hm & Hm4 & Hn & _) w.
  set (t := if inc then 0 else 2). assert (0 ≤ t ≤ 2) by (by destruct inc).
  assert (w = t * 2 ^ 29 + n * 2 ^ 18 + sub * 2 ^ 13 + m) as Hw by (unfold w, t; cbn; by destruct inc).
  assert (w / 2 ^ 29 = t) by dlia. assert (w mod 4 = 0) by dlia. assert (w / 2 ^ 16 mod 4 = 0) by dlia.
  replace (if inc then 0 else 2 ^ 30) with (t * 2 ^ 29) by (by destruct inc).
  change 7 with (Z.ones 3). change 0x7ff with (Z.ones 11). change 0x1fff with (Z.ones 13).
  rewrite cmd_type, cmd_form, !Z.land_ones, !Z.shiftr_div_pow2 by lia.
  change (2 ^ 2) with 4. split_and!; dlia.
Qed.

(** The fields of the DMA state and of a method entry. *)
Ltac field := first [ done | by split ].
Ltac get_set :=
  repeat first
    [ rewrite (GET_SET_same NV_PFIFO_CACHE1_DMA_STATE_METHOD_TYPE 0 1) by field
    | rewrite (GET_SET_same NV_PFIFO_CACHE1_DMA_STATE_METHOD 2 11) by field
    | rewrite (GET_SET_same NV_PFIFO_CACHE1_DMA_STATE_SUBCHANNEL 13 3) by field
    | rewrite (GET_SET_same NV_PFIFO_CACHE1_DMA_STATE_METHOD_COUNT 18 11) by field
    | rewrite GET_SET_other by field ].

Definition entry_of (sub m t : Z) : Z :=
  SET_MASK (SET_MASK (SET_MASK 0 NV_PFIFO_CACHE1_METHOD_ADDRESS (m >>> 2)) NV_PFIFO_CACHE1_METHOD_TYPE t)
    NV_PFIFO_CACHE1_METHOD_SUBCHANNEL sub.
Lemma entry_for_set sub m t :
  0 ≤ sub < 8 → 0 ≤ m < 2 ^ 13 → m mod 4 = 0 → 0 ≤ t < 2 →
  let me := entry_of sub m t in
  me &&& 0x1FFC = m ∧ GET_MASK me NV_PFIFO_CACHE1_METHOD_SUBCHANNEL = sub ∧
  GET_MASK me NV_PFIFO_CACHE1_METHOD_TYPE = t.
Proof.
  intros Hs Hm Hm4 Ht me. split_and!.
  - change 0x1ffc with (Z.ones 11 <<< 2). rewrite land_field by lia.
    rewrite <-(GET_MASK_field 0x1ffc 2 11) by done. unfold me, entry_of. get_set.
    rewrite Z.shiftr_div_pow2, Z.shiftl_mul_pow2 by lia. change (2 ^ 2) with 4. rewrite Z.mod_small by dlia. dlia.
  - unfold me, entry_of. get_set. by apply Z.mod_small.
  - unfold me, entry_of. get_set. by apply Z.mod_small.
Qed.

(** The register that holds the return address. *)
Lemma set_sub r : r mod 4 = 0 → is_u32 r → SET_MASK r 1 1 = r + 1.
Proof.
  intros Hr Hu. unfold SET_MASK. change (u32 (u32 1 <<< ctz32 1) &&& 1) with 1.
  assert (r &&& not32 1 = (r / 2) <<< 1) as ->.
  { change (not32 1) with (Z.ones 31 <<< 1). rewrite land_field, Z.shiftr_div_pow2 by lia.
    unfold is_u32 in Hu. rewrite Z.mod_small by dlia. done. }
  rewrite lor_shl_add by lia. dlia.
Qed.

Lemma calls_from_cons sub m ptr inc w ws :
  calls_from sub m ptr inc (w :: ws) =
  {| c_sub := sub; c_method := m; c_param := w; c_ptr := ptr; c_inc := inc |} ::
  calls_from sub (if inc then m + 4 else m) (ptr + 4) inc ws.
Proof.
  unfold calls_from. rewrite imap_cons. f_equal.
  - f_equal; [|lia]. destruct inc; lia.
  - apply imap_ext. intros i x _. cbn. f_equal; [|lia]. destruct inc; lia.
Qed.

Lemma calls_from_drop k sub m ptr (inc : bool) ws :
  (k ≤ length ws)%nat →
  drop k (calls_from sub m ptr inc ws) =
  calls_from sub (if inc then m + 4 * Z.of_nat k else m) (ptr + 4 * Z.of_nat k) inc (drop k ws).
Proof.
  revert m ptr ws. induction k as [|k IH]; intros m ptr ws Hk.
  - rewrite !drop_0. f_equal; [destruct inc; lia|lia].
  - destruct ws as [|w ws]; [cbn in Hk; lia|]. rewrite calls_from_cons. cbn [drop]. cbn in Hk.
    rewrite IH by lia. f_equal; [destruct inc; lia|lia].
Qed.

(** ** Registers *)

Lemma reg_insert rs a b v : reg (<[a := v]> rs) b = if a =? b then v else reg rs b.
Proof.
  unfold reg. destruct (Z.eqb_spec a b) as [-> | Hab]; [by rewrite lookup_insert_eq|].
  by rewrite lookup_insert_ne.
Qed.

(** The field of a subchannel in the ENGINE register. *)
Lemma engine_ctz sub : 0 ≤ sub < 8 → ctz32 (3 <<< (4 * sub)) = 4 * sub.
Proof.
  intros. assert (sub = 0 ∨ sub = 1 ∨ sub = 2 ∨ sub = 3 ∨ sub = 4 ∨ sub = 5 ∨ sub = 6 ∨ sub = 7) by lia.
  by destruct_or!; subst.
Qed.
Lemma engine_get_set sub v x : 0 ≤ sub < 8 →
  GET_MASK (SET_MASK v (3 <<< (4 * sub)) x) (3 <<< (4 * sub)) = x mod 4.
Proof.
  intros. apply (GET_SET_same _ (4 * sub) 2); try lia; [done|by apply engine_ctz].
Qed.
Lemma engine_get_other sub sub' v x : 0 ≤ sub < 8 → 0 ≤ sub' < 8 → sub ≠ sub' →
  GET_MASK (SET_MASK v (3 <<< (4 * sub)) x) (3 <<< (4 * sub')) = GET_MASK v (3 <<< (4 * sub')).
Proof.
  intros H H' Hn. apply GET_SET_other.
  - apply Z.bits_inj'. intros i Hi. rewrite Z.land_spec, !Z.shiftl_spec, Z.bits_0 by lia.
    change 3 with (Z.ones 2).
    destruct (decide (0 ≤ i - 4 * sub < 2)).
    + destruct (Z.lt_ge_cases (i - 4 * sub') 0).
      * by rewrite (Z.testbit_neg_r _ (i - 4 * sub')), andb_false_r by lia.
      * by rewrite (Z.ones_spec_high 2 (i - 4 * sub')), andb_false_r by lia.
    + destruct (Z.lt_ge_cases (i - 4 * sub) 0); [by rewrite Z.testbit_neg_r by lia|].
      by rewrite Z.ones_spec_high by lia.
  - rewrite Z.shiftl_mul_pow2 by lia. unfold is_u32. split; [lia|].
    assert (2 ^ (4 * sub') ≤ 2 ^ 28) by (apply Z.pow_le_mono_r; lia). lia.
Qed.

Section runs.
Context {V X : Type} `{!VGACommon V} `{!PGraph V X} `{!Accepts V X}.
Abbreviation D := (NV2AState V X).
Implicit Types (d : D) (rs : regfile).

Lemma with_regs_id d : with_regs d (pfifo_regs d) = d.
Proof. by destruct d. Qed.
Lemma with_regs_twice d rs rs' : with_regs (with_regs d rs) rs' = with_regs d rs'.
Proof. done. Qed.

Lemma run_fifo_r a d rs : fifo_r a (with_regs d rs) = Ok (reg rs a, with_regs d rs).
Proof. done. Qed.
Lemma run_fifo_w a v d rs : fifo_w a v (with_regs d rs) = Ok (tt, with_regs d (<[a := v]> rs)).
Proof. done. Qed.
Lemma run_fifo_set a mask v d rs :
  fifo_set a mask v (with_regs d rs) = Ok (tt, with_regs d (<[a := SET_MASK (reg rs a) mask v]> rs)).
Proof. done. Qed.

(** ** Objects *)

(** The table as a function of the state. *)
Definition lookup_at d (w : Z) : option RAMHTEntry :=
  match ramht_lookup w d with
  | Ok (e, _) => if e_valid e then Some e else None
  | Fault _ => None
  end.

(** Code that only looks at the table: from states with the same table, it returns
    the same and changes neither. *)
Definition same_table d1 d2 : Prop :=
  ramin d1 = ramin d2 ∧ reg (pfifo_regs d1) NV_PFIFO_RAMHT = reg (pfifo_regs d2) NV_PFIFO_RAMHT ∧
  reg (pfifo_regs d1) NV_PFIFO_CACHE1_PUSH1 = reg (pfifo_regs d2) NV_PFIFO_CACHE1_PUSH1.
Definition returns {A} (r : res A) d : res (A * D) :=
  match r with Ok a => Ok (a, d) | Fault e => Fault e end.
Definition looks {A} (m : M D A) : Prop :=
  ∀ d1 d2, same_table d1 d2 → ∃ r, m d1 = returns r d1 ∧ m d2 = returns r d2.

Lemma looks_ret {A} (a : A) : looks (mret a).
Proof. intros d1 d2 _. by exists (Ok a). Qed.
Lemma looks_gets {A} (f : D → A) : (∀ d1 d2, same_table d1 d2 → f d1 = f d2) → looks (gets f).
Proof. intros Hf d1 d2 H. exists (Ok (f d1)). unfold gets. by rewrite (Hf d1 d2 H). Qed.
Lemma looks_assert b : looks (assertM b).
Proof. intros d1 d2 _. exists (if b then Ok tt else Fault AssertFailed). by destruct b. Qed.
Lemma looks_inBounds b : looks (inBounds b).
Proof. intros d1 d2 _. exists (if b then Ok tt else Fault OutOfBounds). by destruct b. Qed.
Lemma looks_bind {A B} (m : M D A) (k : A → M D B) : looks m → (∀ a, looks (k a)) → looks (m ≫= k).
Proof.
  intros Hm Hk d1 d2 H. destruct (Hm d1 d2 H) as ([a|e] & E1 & E2); cbn in E1, E2.
  - destruct (Hk a d1 d2 H) as (r & E1' & E2'). exists r. by rewrite (run_bind _ _ _ _ _ E1), (run_bind _ _ _ _ _ E2).
  - exists (Fault e). by rewrite (run_bind_fault _ _ _ _ E1), (run_bind_fault _ _ _ _ E2).
Qed.
Lemma looks_lookup w : looks (ramht_lookup w).
Proof.
  unfold ramht_lookup, ramht_hash, ramht_size, fifo_r, ldl_le_p, rd. cbv zeta.
  repeat (first [ apply looks_ret | apply looks_assert | apply looks_inBounds
                | apply looks_bind; [|intros ?]
                | apply looks_gets; intros d1 d2 (? & ? & ?); done ]).
Qed.

Lemma run_lookup d0 d w e :
  same_table d0 d → lookup_at d0 w = Some e → ramht_lookup w d = Ok (e, d) ∧ e_valid e = true.
Proof.
  intros H. unfold lookup_at. destruct (looks_lookup w d0 d H) as ([e'|f] & -> & ->); cbn; [|done].
  destruct (e_valid e') eqn:E; [|done]. by intros [= ->].
Qed.

(** ** Delivery *)

Section delivery.
Context (dma dma_len : Z).

Lemma delivers_det d c d1 d2 : delivers dma dma_len d c d1 → delivers dma dma_len d c d2 → d1 = d2.
Proof. intros (_ & _ & E1 & _) (_ & _ & E2 & _). congruence. Qed.

Lemma same_mem_refl d : same_mem dma dma_len d d.
Proof. done. Qed.
Lemma same_mem_trans d1 d2 d3 :
  same_mem dma dma_len d1 d2 → same_mem dma dma_len d2 d3 → same_mem dma dma_len d1 d3.
Proof. intros (? & ? & ?) (? & ? & ?). split_and!; congruence. Qed.

Lemma delivers_mem d c d' : delivers dma dma_len d c d' → same_mem dma dma_len d d'.
Proof. by intros (_ & _ & _ & _ & ?). Qed.
Lemma delivers_ready d c d' : delivers dma dma_len d c d' → ready d'.
Proof. by intros (_ & _ & _ & ? & _). Qed.
#[local] Hint Resolve delivers_mem delivers_ready same_mem_trans : fifo.

Lemma exec_mem L d B cs d' B' : exec dma dma_len L d B cs d' B' → same_mem dma dma_len d d'.
Proof. induction 1; [done|eauto with fifo..]. Qed.
Lemma exec_ready L d B cs d' B' : ready d → exec dma dma_len L d B cs d' B' → ready d'.
Proof. intros Hr. induction 1; eauto with fifo. Qed.

Lemma not_plain_0 : ¬ plain 0.
Proof. unfold plain. lia. Qed.
Lemma not_plain_object m : object_method m = true → ¬ plain m.
Proof. unfold plain, object_method. lia. Qed.

Lemma delivers_all_mem d cs d' : delivers_all dma dma_len d cs d' → same_mem dma dma_len d d'.
Proof. induction 1; [done|eauto with fifo]. Qed.
Lemma delivers_all_ready d cs d' : ready d → delivers_all dma dma_len d cs d' → ready d'.
Proof. intros Hr. induction 1; eauto with fifo. Qed.

(** The longest plain prefix of what is executed is delivered word by word. *)
Lemma exec_plain_prefix L d B cs d' B' :
  exec dma dma_len L d B cs d' B' →
  ∃ j dj, (j ≤ length cs)%nat ∧ (∀ i c, (i < j)%nat → cs !! i = Some c → plain (c_method c)) ∧
    (∀ c, cs !! j = Some c → ¬ plain (c_method c)) ∧ delivers_all dma dma_len d (take j cs) dj.
Proof.
  induction 1 as [d B|d B c e d1 cs d' B' Hc|d B c e d1 cs d' B' Hc|d B c d1 cs d' B' Hc Hs Hd He IH].
  - exists 0%nat, d. split_and!; [done|lia|done|constructor].
  - exists 0%nat, d. split_and!; [lia|lia| |constructor]. intros ? [= <-]. rewrite Hc. apply not_plain_0.
  - exists 0%nat, d. split_and!; [lia|lia| |constructor]. intros ? [= <-]. by apply not_plain_object.
  - destruct IH as (j & dj & Hj & Hp & Hn & Hdj). exists (S j), dj. split_and!.
    + cbn. lia.
    + intros [|i] c' Hi; [by intros [= <-]|]. apply Hp. lia.
    + done.
    + by econstructor.
Qed.

(** A plain prefix that has been delivered leaves the rest to be executed. *)
Lemma exec_take_plain L k d B cs d' B' d1 :
  exec dma dma_len L d B cs d' B' → delivers_all dma dma_len d (take k cs) d1 →
  (∀ i c, (i < k)%nat → cs !! i = Some c → plain (c_method c)) →
  exec dma dma_len L d1 B (drop k cs) d' B'.
Proof.
  revert d cs. induction k as [|k IH]; intros d cs He Hd Hp.
  { inversion Hd; subst. by rewrite drop_0. }
  destruct He as [d B|d B c e d2 cs d' B' Hc|d B c e d2 cs d' B' Hc|d B c d2 cs d' B' Hc Hs Hd2 He].
  - inversion Hd; subst. constructor.
  - exfalso. apply not_plain_0. rewrite <-Hc. by apply (Hp 0%nat); [lia|].
  - exfalso. eapply not_plain_object; [done|]. by apply (Hp 0%nat); [lia|].
  - inversion Hd as [|? ? d3 ? ? Hd3 Hrest]; subst. rewrite (delivers_det _ _ _ _ Hd2 Hd3) in He.
    cbn [drop]. eapply IH; [done|done|]. intros i c' Hi Hc'. apply (Hp (S i)); [lia|done].
Qed.

Context `{!PGraphLaws V X}.

(** The engine given the words of a command, the first with the parameter the puller
    passes: it takes some and leaves the rest to be executed. *)
Lemma engine_batch L d sub m p w ptr (inc : bool) rest d1 B1 d' B' look :
  let n := Z.of_nat (length (w :: rest)) in
  let tail := calls_from sub (if inc then m + 4 else m) (ptr + 4) inc rest in
  (plain m → p = w) →
  (∀ i w', (w :: rest) !! i = Some w' → of_le (slice (ptr + 4 * Z.of_nat i) 4 (vram d)) = w') →
  0 ≤ dma ≤ ptr → ptr + 4 * n ≤ dma + dma_len → ptr + 4 * n ≤ blen (vram d) →
  delivers dma dma_len d {| c_sub := sub; c_method := m; c_param := p; c_ptr := ptr; c_inc := inc |} d1 →
  exec dma dma_len L d1 B1 tail d' B' →
  ∃ k d2, (k ≤ length rest)%nat ∧ pg_method sub m p ptr n look inc d = Ok (Z.of_nat (S k), d2) ∧
    ready d2 ∧ same_mem dma dma_len d d2 ∧ exec dma dma_len L d2 B1 (drop k tail) d' B'.
Proof.
  intros n tail Hp Hw H1 H2 H3 Hd He.
  destruct (exec_plain_prefix _ _ _ _ _ _ He) as (j & dj & Hj & Hpl & Hnp & Hdj).
  assert (length tail = length rest) as Hlt by (unfold tail, calls_from; by rewrite length_imap).
  destruct (pg_batch dma dma_len d sub m p w ptr rest look inc (S j) dj) as (k & d2 & Hk & E & Hdk); try done.
  - rewrite calls_from_cons. cbn [length]. unfold tail in Hj. lia.
  - rewrite calls_from_cons. intros [|i] c Hi; [lia|]. apply Hpl. lia.
  - rewrite calls_from_cons. apply Hnp.
  - rewrite calls_from_cons. by econstructor.
  - rewrite calls_from_cons in Hdk. destruct k as [|k]; [lia|]. exists k, d2.
    inversion Hdk as [|? ? d3 ? ? Hd3 Hrest]; subst. rewrite <-(delivers_det _ _ _ _ Hd Hd3) in Hrest.
    split_and!; [lia|done| | |].
    + eapply delivers_all_ready; [|done]. by eapply delivers_ready.
    + eapply same_mem_trans; [exact (delivers_mem _ _ _ Hd)|exact (delivers_all_mem _ _ _ Hrest)].
    + eapply exec_take_plain; [done|done|]. intros i c Hi. apply Hpl. lia.
Qed.
(** ** The puller *)

Context (d0 : D).

(** The registers the puller needs: the table, access, and the bound subchannels. *)
Record pull_ok d rs (B : gset Z) : Prop := {
  po_table : same_table d0 (with_regs d rs);
  po_access : truthy (GET_MASK (reg rs NV_PFIFO_CACHE1_PULL0) NV_PFIFO_CACHE1_PULL0_ACCESS) = true;
  po_bound : bound rs B
}.
(** The registers it changes. *)
Definition pulled rs rs' : Prop :=
  ∀ a, a ≠ NV_PFIFO_CACHE1_ENGINE → a ≠ NV_PFIFO_CACHE1_PULL1 → a ≠ NV_PFIFO_CACHE1_STATUS →
    reg rs' a = reg rs a.

Lemma pulled_trans rs1 rs2 rs3 : pulled rs1 rs2 → pulled rs2 rs3 → pulled rs1 rs3.
Proof. intros H1 H2 a ???. rewrite H2, H1; done. Qed.
Lemma pulled_insert rs a v :
  a = NV_PFIFO_CACHE1_ENGINE ∨ a = NV_PFIFO_CACHE1_PULL1 ∨ a = NV_PFIFO_CACHE1_STATUS → pulled rs (<[a := v]> rs).
Proof. intros Ha b ???. rewrite reg_insert. destruct (Z.eqb_spec a b); [|done]. naive_solver. Qed.

(** Changes that keep the bindings keep [pull_ok]. *)
Lemma pull_ok_pulled d d' rs rs' B :
  pull_ok d rs B → ramin d' = ramin d → pulled rs rs' →
  reg rs' NV_PFIFO_CACHE1_ENGINE = reg rs NV_PFIFO_CACHE1_ENGINE → pull_ok d' rs' B.
Proof.
  intros [(H1 & H2 & H3) Ha Hb] Hm Hp He. split.
  - split_and!; cbn; [by rewrite Hm|by rewrite Hp..].
  - by rewrite Hp.
  - unfold bound. by rewrite He.
Qed.
Lemma pull_ok_bind d rs B sub :
  pull_ok d rs B → 0 ≤ sub < 8 →
  pull_ok d (<[NV_PFIFO_CACHE1_ENGINE :=
    SET_MASK (reg rs NV_PFIFO_CACHE1_ENGINE) (3 <<< (4 * sub)) ENGINE_GRAPHICS]> rs) ({[sub]} ∪ B).
Proof.
  intros [(H1 & H2 & H3) Ha Hb] Hsub. split.
  - split_and!; cbn; [done|by rewrite reg_insert..].
  - by rewrite reg_insert.
  - intros sub' Hin. rewrite reg_insert, Z.eqb_refl. destruct (decide (sub' = sub)) as [-> | Hne].
    + split; [done|]. by apply engine_get_set.
    + assert (sub' ∈ B) as [? ?]%Hb by set_solver. split; [done|]. by rewrite engine_get_other.
Qed.

Lemma run_pg_reg d r : r mod 4 = 0 → 0 ≤ r < 0x2000 → pgraph_reg_r r d = Ok (reg (pg_regs (pgraph d)) r, d).
Proof.
  intros Hr Hb. unfold pgraph_reg_r, reg_r. rewrite (run_bind _ _ tt _ d) by (apply run_assert; lia).
  rewrite (run_bind _ _ d _ d) by done. by rewrite (run_bind _ _ tt _ d) by (apply run_inBounds; lia).
Qed.
Lemma run_context_switch d rs ch :
  on_channel d ch → pgraph_context_switch ch (with_regs d rs) = Ok (tt, with_regs d rs).
Proof.
  intros [Hc Hu]. unfold pgraph_context_switch, PG_GET_MASK.
  rewrite (run_bind _ _ _ _ _ (run_pg_reg (with_regs d rs) 0x144 eq_refl ltac:(lia))).
  rewrite (run_bind _ _ ch _ (with_regs d rs)).
  - cbv zeta. change (pg_regs (pgraph (with_regs d rs))) with (pg_regs (pgraph d)). by rewrite Hc, Z.eqb_refl.
  - rewrite (run_bind _ _ _ _ _ (run_pg_reg (with_regs d rs) 0x148 eq_refl ltac:(lia))).
    change (pg_regs (pgraph (with_regs d rs))) with (pg_regs (pgraph d)). by rewrite Hu.
Qed.
Lemma run_should_stall d rs : ready d → pfifo_puller_should_stall (with_regs d rs) = Ok (false, with_regs d rs).
Proof.
  intros (Ha & Hn & Hf & Hc). unfold pfifo_puller_should_stall, pfifo_stall_for_flip.
  rewrite (run_bind _ _ false _ (with_regs d rs)).
  - rewrite (run_bind _ _ (with_regs d rs) _ (with_regs d rs)) by done.
    change (pgraph (with_regs d rs)) with (pgraph d). change (fifo_access (with_regs d rs)) with (fifo_access d).
    by rewrite Hn, Hc, Ha.
  - rewrite (run_bind _ _ (with_regs d rs) _ (with_regs d rs)) by done.
    change (pgraph (with_regs d rs)) with (pgraph d). by rewrite Hf.
Qed.

Lemma run_pg_method sub m p ptr n l inc d d' k rs :
  pg_method sub m p ptr n l inc d = Ok (k, d') →
  pg_method sub m p ptr n l inc (with_regs d rs) = Ok (k, with_regs d' rs).
Proof. intros E. rewrite pg_fifo_indep, E. done. Qed.

(** Binding. *)
Lemma run_puller_bind d rs B e sub w ptr n look inc k d2 :
  ready d → pull_ok d rs B → 0 ≤ sub < 8 →
  lookup_at d0 w = Some e → e_engine e = ENGINE_GRAPHICS → on_channel d (e_channel_id e) →
  pg_method sub 0 (e_instance e) ptr n look inc d = Ok (k, d2) → ramin d2 = ramin d →
  ∃ rs', puller_bind sub w ptr n look inc (with_regs d rs) = Ok (k, with_regs d2 rs') ∧
    pulled rs rs' ∧ pull_ok d2 rs' ({[sub]} ∪ B).
Proof.
  intros (Ha & _ & _ & Hcs) Hok Hsub HL He Hch E Hm.
  destruct (run_lookup _ _ _ _ (po_table _ _ _ Hok) HL) as [El Ev].
  set (rs1 := <[NV_PFIFO_CACHE1_ENGINE := SET_MASK (reg rs NV_PFIFO_CACHE1_ENGINE) (3 <<< (4 * sub)) 1]> rs).
  set (rs2 := <[NV_PFIFO_CACHE1_PULL1 := SET_MASK (reg rs1 NV_PFIFO_CACHE1_PULL1) NV_PFIFO_CACHE1_PULL1_ENGINE 1]> rs1).
  exists rs2. split_and!.
  - unfold puller_bind. rewrite (run_bind _ _ _ _ _ El).
    do 3 (rewrite (run_bind _ _ tt _ (with_regs d rs)) by (apply run_assert; done || lia)).
    rewrite He. rewrite (run_bind _ _ tt _ (with_regs d rs1)) by done.
    rewrite (run_bind _ _ tt _ (with_regs d rs2)) by done.
    rewrite (run_bind _ _ true _ (with_regs d rs2)) by (by rewrite <-Ha).
    rewrite (run_bind _ _ tt _ (with_regs d rs2)) by (by apply run_context_switch).
    rewrite (run_bind _ _ (with_regs d rs2) _ (with_regs d rs2)) by done.
    change (pgraph (with_regs d rs2)) with (pgraph d). rewrite Hcs. by apply run_pg_method.
  - eapply pulled_trans; [by apply pulled_insert; left|apply pulled_insert; auto].
  - eapply pull_ok_pulled; [by apply pull_ok_bind|done|by apply pulled_insert; auto|].
    unfold rs2. by rewrite reg_insert.
Qed.
(** Methods. *)
Lemma run_puller_method d rs B sub m w p ptr n look inc k d2 :
  ready d → pull_ok d rs B → sub ∈ B →
  (if object_method m then e_instance <$> lookup_at d0 w else Some w) = Some p →
  pg_method sub m p ptr n look inc d = Ok (k, d2) → ramin d2 = ramin d →
  ∃ rs', puller_method sub m w ptr n look inc (with_regs d rs) = Ok (k, with_regs d2 rs') ∧
    pulled rs rs' ∧ pull_ok d2 rs' B.
Proof.
  intros (Ha & _ & _ & _) Hok HB Hp E Hm. destruct (po_bound _ _ _ Hok sub HB) as [Hsub He].
  set (rs1 := <[NV_PFIFO_CACHE1_PULL1 := SET_MASK (reg rs NV_PFIFO_CACHE1_PULL1) NV_PFIFO_CACHE1_PULL1_ENGINE 1]> rs).
  exists rs1. split_and!.
  - unfold puller_method. rewrite (run_bind _ _ p _ (with_regs d rs)).
    + rewrite (run_bind _ _ (reg rs NV_PFIFO_CACHE1_ENGINE) _ (with_regs d rs)) by done. cbv zeta. rewrite He.
      rewrite (run_bind _ _ tt _ (with_regs d rs)) by done.
      rewrite (run_bind _ _ tt _ (with_regs d rs1)) by done.
      rewrite (run_bind _ _ true _ (with_regs d rs1)) by (by rewrite <-Ha). by apply run_pg_method.
    + unfold object_method in Hp. destruct (_ && _); [|by injection Hp as ->].
      destruct (lookup_at d0 w) as [e|] eqn:HL; [|done]. injection Hp as <-.
      destruct (run_lookup _ _ _ _ (po_table _ _ _ Hok) HL) as [El Ev].
      rewrite (run_bind _ _ _ _ _ El). by rewrite (run_bind _ _ tt _ (with_regs d rs)) by (by apply run_assert).
  - apply pulled_insert. auto.
  - eapply pull_ok_pulled; [done|done|apply pulled_insert; auto|]. unfold rs1. by rewrite reg_insert.
Qed.

(** The puller with the words of a command. *)
Record entry_for (me sub m : Z) (inc : bool) : Prop := {
  ef_method : me &&& 0x1FFC = m;
  ef_sub : GET_MASK me NV_PFIFO_CACHE1_METHOD_SUBCHANNEL = sub;
  ef_inc : GET_MASK me NV_PFIFO_CACHE1_METHOD_TYPE = if inc then 0 else 1
}.

(** The body of the puller for a method. *)
Definition puller_body (sub m w ptr n look : Z) (inc : bool) : M D Z :=
  if m =? 0 then puller_bind sub w ptr n look inc
  else if 0x100 <=? m then puller_method sub m w ptr n look inc
  else assertM false;; mret (-1).

Lemma run_puller_body d rs B sub m (inc : bool) w ptr rest look d' B' :
  let n := Z.of_nat (length (w :: rest)) in
  let tail := calls_from sub (if inc then m + 4 else m) (ptr + 4) inc rest in
  0 ≤ sub < 8 → pull_ok d rs B →
  (∀ i w', (w :: rest) !! i = Some w' → of_le (slice (ptr + 4 * Z.of_nat i) 4 (vram d)) = w') →
  0 ≤ dma ≤ ptr → ptr + 4 * n ≤ dma + dma_len → ptr + 4 * n ≤ blen (vram d) →
  exec dma dma_len (lookup_at d0) d B (calls_from sub m ptr inc (w :: rest)) d' B' →
  ∃ k d2 rs' B2, (k ≤ length rest)%nat ∧ ready d ∧
    puller_body sub m w ptr n look inc (with_regs d rs) = Ok (Z.of_nat (S k), with_regs d2 rs') ∧
    ready d2 ∧ same_mem dma dma_len d d2 ∧ pulled rs rs' ∧ pull_ok d2 rs' B2 ∧
    exec dma dma_len (lookup_at d0) d2 B2 (drop k tail) d' B'.
Proof.
  intros n tail Hsub Hok Hw H1 H2 H3 He. rewrite calls_from_cons in He. fold tail in He. unfold puller_body.
  inversion He as [|? ? ? e d1 ? ? ? Hc HL Heng Hch Hd Hrest|? ? ? e d1 ? ? ? Hc HL HB Hd Hrest
                  |? ? ? d1 ? ? ? Hc HB Hd Hrest]; subst; cbn [c_sub c_method c_param] in *; unfold field_update in *; cbn [c_sub c_method c_param c_ptr c_inc] in *.
  - destruct (engine_batch (lookup_at d0) d sub m (e_instance e) w ptr inc rest d1 ({[sub]} ∪ B) d' B' look) as (k & d2 & Hk & E & Hr2 & Hm2 & He2);
      try done; [by intros Hp; rewrite Hc in Hp; apply not_plain_0 in Hp|].
    destruct (run_puller_bind d rs B e sub w ptr n look inc (Z.of_nat (S k)) d2) as (rs1 & Er & Hp & Hok2);
      try done; [apply Hd|by rewrite Hc in E|apply Hm2|].
    exists k, d2, rs1, ({[sub]} ∪ B). rewrite (proj2 (Z.eqb_eq m 0) Hc). by split_and!; [|apply Hd|..].
  - pose proof (not_plain_object _ Hc) as Hnp.
    destruct (engine_batch (lookup_at d0) d sub m (e_instance e) w ptr inc rest d1 B d' B' look) as (k & d2 & Hk & E & Hr2 & Hm2 & He2);
      try done.
    destruct (run_puller_method d rs B sub m w (e_instance e) ptr n look inc (Z.of_nat (S k)) d2)
      as (rs1 & Er & Hp & Hok2); try done; [apply Hd|by rewrite Hc, HL|apply Hm2|].
    exists k, d2, rs1, B. unfold object_method in Hc.
    rewrite (proj2 (Z.eqb_neq m 0)), (proj2 (Z.leb_le 0x100 m)) by lia. by split_and!; [|apply Hd|..].
  - destruct (engine_batch (lookup_at d0) d sub m w w ptr inc rest d1 B d' B' look) as (k & d2 & Hk & E & Hr2 & Hm2 & He2);
      try done.
    destruct (run_puller_method d rs B sub m w w ptr n look inc (Z.of_nat (S k)) d2)
      as (rs1 & Er & Hp & Hok2); try done; [apply Hd| |apply Hm2|].
    { unfold object_method. destruct Hc. by destruct (_ && _) eqn:?; [lia|]. }
    exists k, d2, rs1, B. destruct Hc.
    rewrite (proj2 (Z.eqb_neq m 0)), (proj2 (Z.leb_le 0x100 m)) by lia. by split_and!; [|apply Hd|..].
Qed.

Lemma run_puller d rs B me sub m (inc : bool) w ptr rest look d' B' :
  let n := Z.of_nat (length (w :: rest)) in
  let tail := calls_from sub (if inc then m + 4 else m) (ptr + 4) inc rest in
  entry_for me sub m inc → 0 ≤ sub < 8 → pull_ok d rs B →
  truthy (reg rs NV_PFIFO_CACHE1_STATUS &&& NV_PFIFO_CACHE1_STATUS_LOW_MARK) = false →
  (∀ i w', (w :: rest) !! i = Some w' → of_le (slice (ptr + 4 * Z.of_nat i) 4 (vram d)) = w') →
  0 ≤ dma ≤ ptr → ptr + 4 * n ≤ dma + dma_len → ptr + 4 * n ≤ blen (vram d) →
  exec dma dma_len (lookup_at d0) d B (calls_from sub m ptr inc (w :: rest)) d' B' →
  ∃ k d2 rs' B2, (k ≤ length rest)%nat ∧
    pfifo_run_puller me w ptr n look (with_regs d rs) = Ok (Z.of_nat (S k), with_regs d2 rs') ∧
    ready d2 ∧ same_mem dma dma_len d d2 ∧ pulled rs rs' ∧ pull_ok d2 rs' B2 ∧
    exec dma dma_len (lookup_at d0) d2 B2 (drop k tail) d' B'.
Proof.
  intros n tail [Hm Hs Hi] Hsub Hok Hst Hw H1 H2 H3 He.
  destruct (run_puller_body d rs B sub m inc w ptr rest look d' B')
    as (k & d2 & rs1 & B2 & Hk & Hr & E & Hr2 & Hm2 & Hp & Hok2 & He2); [done..|].
  exists k, d2, (<[NV_PFIFO_CACHE1_STATUS := reg rs1 NV_PFIFO_CACHE1_STATUS ||| NV_PFIFO_CACHE1_STATUS_LOW_MARK]> rs1), B2.
  split_and!; try done.
  - unfold pfifo_run_puller. rewrite (run_bind _ _ _ _ _ (run_should_stall d rs Hr)).
    rewrite (run_bind _ _ (reg rs NV_PFIFO_CACHE1_PULL0) _ (with_regs d rs)) by done.
    rewrite (run_bind _ _ (reg rs NV_PFIFO_CACHE1_STATUS) _ (with_regs d rs)) by done.
    rewrite (po_access _ _ _ Hok), Hst. cbn [negb orb]. cbv zeta. rewrite Hm, Hs, Hi.
    replace (negb (truthy (if inc then 0 else 1))) with inc by (by destruct inc).
    rewrite (run_bind _ _ _ _ _ E).
    rewrite (run_bind _ _ (reg rs1 NV_PFIFO_CACHE1_STATUS) _ (with_regs d2 rs1)) by done.
    rewrite (proj2 (Z.ltb_lt 0 (Z.of_nat (S k)))) by lia. done.
  - eapply pulled_trans; [done|apply pulled_insert; auto].
  - eapply pull_ok_pulled; [done|done|apply pulled_insert; auto|by rewrite reg_insert].
Qed.
(** ** The pusher *)

Context (put : Z) (Hput : is_u32 put ∧ put mod 4 = 0) (Hlen : 0 ≤ dma ∧ dma_len < 2 ^ 32).

(** The registers at an offset of the buffer, with a return address or without. *)
Record fifo_at rs (g : Z) (s : option Z) : Prop := {
  fa_get : reg rs NV_PFIFO_CACHE1_DMA_GET = g;
  fa_put : reg rs NV_PFIFO_CACHE1_DMA_PUT = put;
  fa_sub : returning rs s;
  fa_error : GET_MASK (reg rs NV_PFIFO_CACHE1_DMA_STATE) NV_PFIFO_CACHE1_DMA_STATE_ERROR = 0
}.

(** [n] words of a methods command are left. *)
Record in_methods rs (inc : bool) (sub m n : Z) : Prop := {
  im_type : GET_MASK (reg rs NV_PFIFO_CACHE1_DMA_STATE) NV_PFIFO_CACHE1_DMA_STATE_METHOD_TYPE = if inc then 0 else 1;
  im_sub : GET_MASK (reg rs NV_PFIFO_CACHE1_DMA_STATE) NV_PFIFO_CACHE1_DMA_STATE_SUBCHANNEL = sub;
  im_method : 0 < n → GET_MASK (reg rs NV_PFIFO_CACHE1_DMA_STATE) NV_PFIFO_CACHE1_DMA_STATE_METHOD = m / 4;
  im_count : GET_MASK (reg rs NV_PFIFO_CACHE1_DMA_STATE) NV_PFIFO_CACHE1_DMA_STATE_METHOD_COUNT = n
}.

Lemma fetch d rs g w :
  same_mem dma dma_len d0 d → fetched dma dma_len put d0 g w →
  ldl_le_p (vram d) (dma + g) (with_regs d rs) = Ok (w, with_regs d rs).
Proof.
  intros (Hs & Hl & _) (_ & Hg & _ & Hb & Hv & <-). unfold ldl_le_p, pb_word.
  rewrite (run_bind _ _ (slice (dma + g) 4 (vram d)) _ (with_regs d rs)) by (apply run_rd; lia).
  unfold mret, M_ret. do 3 f_equal. rewrite <-!(slice_slice dma dma_len) by lia. by rewrite Hs.
Qed.

(** All the words of a command that PUT is not inside of are available. *)
Lemma available g (n : nat) :
  0 ≤ g → g mod 4 = 0 → g + 4 * Z.of_nat n ≤ dma_len → (∀ i, (i < n)%nat → g + 4 * Z.of_nat i ≠ put) →
  u32 (put - g) mod 4 = 0 ∧ Z.of_nat n ≤ u32 (put - g) / 4.
Proof.
  intros Hg Hg4 Hb Hne. destruct Hput as [Hu Hp4]. unfold is_u32 in Hu. unfold u32.
  destruct (Z.lt_ge_cases put g) as [Hlt|Hge].
  - assert ((put - g) mod 2 ^ 32 = put - g + 2 ^ 32) as ->.
    { symmetry. apply (Z.mod_unique_pos _ _ (-1)); lia. }
    split; dlia.
  - rewrite (Z.mod_small (put - g)) by lia. split; [dlia|]. apply Z.le_ngt. intros Hlt.
    apply (Hne (Z.to_nat ((put - g) / 4))); [dlia|]. rewrite Z2Nat.id by dlia. dlia.
Qed.
Lemma pull_ok_regs d rs rs' B :
  pull_ok d rs B → reg rs' NV_PFIFO_RAMHT = reg rs NV_PFIFO_RAMHT →
  reg rs' NV_PFIFO_CACHE1_PUSH1 = reg rs NV_PFIFO_CACHE1_PUSH1 →
  reg rs' NV_PFIFO_CACHE1_PULL0 = reg rs NV_PFIFO_CACHE1_PULL0 →
  reg rs' NV_PFIFO_CACHE1_ENGINE = reg rs NV_PFIFO_CACHE1_ENGINE → pull_ok d rs' B.
Proof.
  intros [(H1 & H2 & H3) Ha Hb] E1 E2 E3 E4. split.
  - split_and!; cbn in *; congruence.
  - by rewrite E3.
  - unfold bound. by rewrite E4.
Qed.
Ltac regs := unfold returning in *; rewrite ?reg_insert; cbn [Z.eqb Pos.eqb].

(** The iteration up to the word, which is fetched. *)
Lemma run_pusher_step d rs g s w b :
  same_mem dma dma_len d0 d → fifo_at rs g s → fetched dma dma_len put d0 g w →
  (next ← (if truthy (GET_MASK (reg rs NV_PFIFO_CACHE1_DMA_STATE) NV_PFIFO_CACHE1_DMA_STATE_METHOD_COUNT) then
             pusher_data w (dma + g) (u32 (g + 4)) (u32 (put - g) / 4)
           else pusher_command w (u32 (g + 4)));
   match next with
   | None => mret false
   | Some get =>
       fifo_w NV_PFIFO_CACHE1_DMA_GET get;;
       dma_state ← fifo_r NV_PFIFO_CACHE1_DMA_STATE;
       mret (negb (truthy (GET_MASK dma_state NV_PFIFO_CACHE1_DMA_STATE_ERROR)))
   end) (with_regs d rs) = b →
  pusher_step dma dma_len (with_regs d rs) = b.
Proof.
  intros Hm [Hg Hp _ _] Hf. pose proof Hf as (Hne & H0 & H4 & Hb & Hv & _).
  destruct (available g 1) as [Hav _]; [done|done|lia| |].
  { intros i Hi. replace (g + 4 * Z.of_nat i) with g by lia. done. }
  intros <-. unfold pusher_step. rewrite (run_bind _ _ g _ (with_regs d rs)) by (rewrite run_fifo_r; by rewrite Hg).
  rewrite (run_bind _ _ put _ (with_regs d rs)) by (rewrite run_fifo_r; by rewrite Hp).
  rewrite (proj2 (Z.eqb_neq g put) Hne). rewrite (run_bind _ _ tt _ (with_regs d rs)) by (apply run_assert; lia).
  cbv zeta. rewrite (run_bind _ _ tt _ (with_regs d rs)) by (apply run_assert; lia).
  rewrite (run_bind _ _ (with_regs d rs) _ (with_regs d rs)) by done.
  change (vram (with_regs d rs)) with (vram d).
  rewrite (run_bind _ _ _ _ _ (fetch d rs g w Hm Hf)).
  by rewrite (run_bind _ _ (reg rs NV_PFIFO_CACHE1_DMA_STATE) _ (with_regs d rs)) by done.
Qed.
(** The words of a command are inside the buffer, and available. *)
Lemma words_inside g w rest :
  let n := Z.of_nat (length (w :: rest)) in
  (∀ i w', (w :: rest) !! i = Some w' → fetched dma dma_len put d0 (g + 4 * Z.of_nat i) w') →
  g + 4 * n ≤ dma_len ∧ dma + g + 4 * n ≤ blen (vram d0) ∧ n ≤ u32 (put - g) / 4.
Proof.
  intros n Hw. destruct (Hw 0%nat w eq_refl) as (_ & Hg0 & Hg4 & _). rewrite Z.add_0_r in Hg0, Hg4.
  assert (g + 4 * n ≤ dma_len ∧ dma + g + 4 * n ≤ blen (vram d0)) as [Hlast Hlastv].
  { destruct (lookup_lt_is_Some_2 (w :: rest) (length rest)) as [wl Hl]; [cbn; lia|].
    destruct (Hw _ _ Hl) as (_ & _ & _ & ? & ? & _). unfold n. cbn [length]. lia. }
  split_and!; [done..|]. apply available; [done|done|done|].
  intros i Hlt. destruct (lookup_lt_is_Some_2 (w :: rest) i) as [wi Hwi]; [done|]. apply (Hw _ _ Hwi).
Qed.

(** The data branch, given what the puller does. *)
Definition next_method (inc : bool) (m : Z) (k : nat) : Z := if inc then m + 4 * Z.of_nat (S k) else m.
Definition before_pull rs w : regfile :=
  let rs := <[NV_PFIFO_CACHE1_DMA_DATA_SHADOW := w]> rs in
  <[NV_PFIFO_CACHE1_STATUS := reg rs NV_PFIFO_CACHE1_STATUS &&& not32 NV_PFIFO_CACHE1_STATUS_LOW_MARK]> rs.

Lemma before_pull_mark rs w :
  truthy (reg (before_pull rs w) NV_PFIFO_CACHE1_STATUS &&& NV_PFIFO_CACHE1_STATUS_LOW_MARK) = false.
Proof.
  unfold before_pull. cbv zeta. rewrite reg_insert. cbn [Z.eqb Pos.eqb].
  rewrite <-Z.land_assoc. change (not32 0x10 &&& 0x10) with 0. by rewrite Z.land_0_r.
Qed.

Lemma run_pusher_data d rs inc sub m n w ptr get avail k d2 rs1 :
  in_methods rs inc sub m n → cmd_ok (Methods inc sub m n) → Z.of_nat (S k) ≤ n ≤ avail →
  pfifo_run_puller (entry_of sub m (if inc then 0 else 1)) w ptr n avail (with_regs d (before_pull rs w))
    = Ok (Z.of_nat (S k), with_regs d2 rs1) →
  pulled (before_pull rs w) rs1 →
  ∃ rs', pusher_data w ptr get avail (with_regs d rs) = Ok (Some (u32 (get + Z.of_nat k * 4)), with_regs d2 rs') ∧
    in_methods rs' inc sub (next_method inc m k) (n - Z.of_nat (S k)) ∧
    (∀ a, a ≠ NV_PFIFO_CACHE1_DMA_STATE → a ≠ NV_PFIFO_CACHE1_DMA_DCOUNT → reg rs' a = reg rs1 a) ∧
    GET_MASK (reg rs' NV_PFIFO_CACHE1_DMA_STATE) NV_PFIFO_CACHE1_DMA_STATE_ERROR =
    GET_MASK (reg rs NV_PFIFO_CACHE1_DMA_STATE) NV_PFIFO_CACHE1_DMA_STATE_ERROR.
Proof.
  intros [Ht Hs Hm Hc] (Hsub & Hmr & Hm4 & Hn & Hinc) Hk E Hp. specialize (Hm ltac:(lia)).
  assert (reg rs1 NV_PFIFO_CACHE1_DMA_STATE = reg rs NV_PFIFO_CACHE1_DMA_STATE) as Hst
    by (rewrite Hp by done; unfold before_pull; by regs).
  set (rs2 := if inc then <[NV_PFIFO_CACHE1_DMA_STATE :=
                SET_MASK (reg rs1 NV_PFIFO_CACHE1_DMA_STATE) NV_PFIFO_CACHE1_DMA_STATE_METHOD
                  ((m + 4 * Z.of_nat (S k)) >>> 2)]> rs1 else rs1).
  set (rs3 := <[NV_PFIFO_CACHE1_DMA_STATE :=
                SET_MASK (reg rs2 NV_PFIFO_CACHE1_DMA_STATE) NV_PFIFO_CACHE1_DMA_STATE_METHOD_COUNT
                  (n - Z.min n (Z.of_nat (S k)))]> rs2).
  exists (<[NV_PFIFO_CACHE1_DMA_DCOUNT := u32 (reg rs3 NV_PFIFO_CACHE1_DMA_DCOUNT + Z.of_nat (S k))]> rs3).
  split_and!.
  - unfold pusher_data.
    rewrite (run_bind _ _ (reg rs NV_PFIFO_CACHE1_DMA_STATE) _ (with_regs d rs)) by done. cbv zeta.
    rewrite Ht, Hs, Hm, Hc. replace ((m / 4) <<< 2) with m by (rewrite Z.shiftl_mul_pow2 by lia; change (2 ^ 2) with 4; dlia).
    rewrite (run_bind _ _ tt _ (with_regs d (<[NV_PFIFO_CACHE1_DMA_DATA_SHADOW := w]> rs))) by done.
    rewrite (run_bind _ _ tt _ (with_regs d (<[NV_PFIFO_CACHE1_DMA_DATA_SHADOW := w]> rs)))
      by (apply run_assert; rewrite land_3; lia).
    rewrite (run_bind _ _ (reg (<[NV_PFIFO_CACHE1_DMA_DATA_SHADOW := w]> rs) NV_PFIFO_CACHE1_STATUS) _
               (with_regs d (<[NV_PFIFO_CACHE1_DMA_DATA_SHADOW := w]> rs))) by done.
    rewrite (run_bind _ _ tt _ (with_regs d (before_pull rs w))) by done.
    replace (Z.min n avail) with n by lia.
    rewrite (run_bind _ _ _ _ _ E).
    rewrite (proj2 (Z.ltb_ge (Z.of_nat (S k)) 0)) by lia.
    rewrite (run_bind _ _ tt _ (with_regs d2 rs2)) by (unfold rs2; by destruct inc).
    rewrite (run_bind _ _ tt _ (with_regs d2 rs3)) by done.
    rewrite (run_bind _ _ (reg rs3 NV_PFIFO_CACHE1_DMA_DCOUNT) _ (with_regs d2 rs3)) by done.
    rewrite (run_bind _ _ tt _ _ (run_fifo_w _ _ d2 rs3)). unfold mret, M_ret. do 4 f_equal. lia.
  - split; rewrite reg_insert; cbn [Z.eqb Pos.eqb]; unfold rs3; rewrite reg_insert; cbn [Z.eqb Pos.eqb]; get_set;
      unfold rs2, next_method.
    + destruct inc; regs; get_set; by rewrite Hst.
    + destruct inc; regs; get_set; by rewrite Hst.
    + intros Hpos. destruct inc; regs; get_set; [|by rewrite Hst].
      rewrite Z.shiftr_div_pow2 by lia. change (2 ^ 2) with 4. apply Z.mod_small. specialize (Hinc eq_refl).
      split; [apply Z.div_pos; lia|]. apply Z.div_lt_upper_bound; lia.
    + rewrite Z.mod_small by lia. lia.
  - intros a Ha1 Ha2. rewrite reg_insert. destruct (Z.eqb_spec NV_PFIFO_CACHE1_DMA_DCOUNT a); [congruence|].
    unfold rs3. rewrite reg_insert. destruct (Z.eqb_spec NV_PFIFO_CACHE1_DMA_STATE a); [congruence|].
    unfold rs2. destruct inc; [|done]. rewrite reg_insert.
    by destruct (Z.eqb_spec NV_PFIFO_CACHE1_DMA_STATE a); [congruence|].
  - rewrite reg_insert. cbn [Z.eqb Pos.eqb]. unfold rs3. rewrite reg_insert. cbn [Z.eqb Pos.eqb]. get_set.
    unfold rs2. destruct inc; regs; get_set; by rewrite Hst.
Qed.
(** An iteration on a data word: the engine takes it and perhaps some after it. *)
Lemma run_data d rs g s B inc sub m w rest d' B' :
  let n := Z.of_nat (length (w :: rest)) in
  same_mem dma dma_len d0 d → fifo_at rs g s → in_methods rs inc sub m n → pull_ok d rs B →
  cmd_ok (Methods inc sub m n) →
  (∀ i w', (w :: rest) !! i = Some w' → fetched dma dma_len put d0 (g + 4 * Z.of_nat i) w') →
  exec dma dma_len (lookup_at d0) d B (calls_from sub m (dma + g) inc (w :: rest)) d' B' →
  ∃ k d2 rs' B2, (k ≤ length rest)%nat ∧
    pusher_step dma dma_len (with_regs d rs) = Ok (true, with_regs d2 rs') ∧
    ready d2 ∧ same_mem dma dma_len d0 d2 ∧ fifo_at rs' (g + 4 * Z.of_nat (S k)) s ∧
    in_methods rs' inc sub (next_method inc m k) (Z.of_nat (length (drop k rest))) ∧ pull_ok d2 rs' B2 ∧
    exec dma dma_len (lookup_at d0) d2 B2
      (calls_from sub (next_method inc m k) (dma + (g + 4 * Z.of_nat (S k))) inc (drop k rest)) d' B'.
Proof.
  intros n Hm Ha Hi Hok Hcmd Hw He. pose proof Hcmd as (Hsub & _ & _ & Hn & _).
  pose proof (Hw 0%nat w eq_refl) as Hf0. rewrite Z.add_0_r in Hf0.
  pose proof Hf0 as (_ & Hg0 & Hg4 & Hb0 & Hv0 & _).
  destruct (words_inside g w rest Hw) as (Hlast & Hlastv & Hav). pose proof Hm as (Hms & Hml & Hmr).
  assert (pull_ok d (before_pull rs w) B) as Hok1
    by (eapply pull_ok_regs; [done|unfold before_pull; by regs..]).
  destruct (run_puller d (before_pull rs w) B (entry_of sub m (if inc then 0 else 1)) sub m inc w (dma + g) rest
    (u32 (put - g) / 4) d' B') as (k & d2 & rs1 & B2 & Hk & E & Hr2 & Hm2 & Hp & Hok2 & He2).
  { destruct Hcmd as (? & ? & ? & _). destruct (entry_for_set sub m (if inc then 0 else 1)) as (? & ? & ?); try done.
    by destruct inc. }
  { done. } { done. } { apply before_pull_mark. }
  { intros i w' Hw'. destruct (Hw i w' Hw') as (_ & ? & _ & ? & ? & <-). unfold pb_word.
    rewrite <-!Z.add_assoc. rewrite <-!(slice_slice dma dma_len) by lia. by rewrite Hms. }
  { lia. } { lia. } { rewrite Hml. lia. } { done. }
  destruct (run_pusher_data d rs inc sub m n w (dma + g) (u32 (g + 4)) (u32 (put - g) / 4) k d2 rs1)
    as (rs' & E' & Hi' & Hr' & Herr); [done|done|cbn [length] in *; unfold n in *; lia|done|done|].
  assert (∀ a, a ≠ NV_PFIFO_CACHE1_DMA_STATE → a ≠ NV_PFIFO_CACHE1_DMA_DCOUNT → a ≠ NV_PFIFO_CACHE1_ENGINE →
    a ≠ NV_PFIFO_CACHE1_PULL1 → a ≠ NV_PFIFO_CACHE1_STATUS → a ≠ NV_PFIFO_CACHE1_DMA_DATA_SHADOW →
    reg rs' a = reg rs a) as Hsame.
  { intros a ??????. rewrite Hr', Hp by done. unfold before_pull. cbv zeta. rewrite !reg_insert.
    by rewrite !(proj2 (Z.eqb_neq _ a)) by done. }
  exists k, d2, (<[NV_PFIFO_CACHE1_DMA_GET := g + 4 * Z.of_nat (S k)]> rs'), B2.
  destruct Ha as [Hga Hpa Hsa Hea]. split_and!; [done| |done|by eapply same_mem_trans| | | |].
  - eapply run_pusher_step; [done|by split|done|]. rewrite (im_count _ _ _ _ _ Hi).
    replace (truthy n) with true by (unfold truthy, n; cbn [length]; by rewrite (proj2 (Z.eqb_neq _ 0)) by lia).
    rewrite (run_bind _ _ _ _ _ E'). unfold is_u32, u32 in *.
    replace (((g + 4) mod 2 ^ 32 + Z.of_nat k * 4) mod 2 ^ 32) with (g + 4 * Z.of_nat (S k))
      by (unfold n in *; cbn [length] in *; rewrite (Z.mod_small (g + 4)), Z.mod_small by lia; lia).
    rewrite (run_bind _ _ _ _ _ (run_fifo_w _ _ d2 rs')).
    rewrite (run_bind _ _ _ _ _ (run_fifo_r _ d2 _)). regs. by rewrite Herr, Hea.
  - split; regs; [done|by rewrite Hsame|by rewrite Hsame|by rewrite Herr].
  - destruct Hi' as [Ht Hs Hme Hc]. rewrite length_drop. unfold n in *. cbn [length] in *.
    split; regs; [done|done| |rewrite Hc; lia]. intros. apply Hme. lia.
  - eapply pull_ok_regs; [exact Hok2|..]; regs; by rewrite Hr'.
  - rewrite calls_from_drop in He2 by done. unfold next_method.
    replace (dma + (g + 4 * Z.of_nat (S k))) with (dma + g + 4 + 4 * Z.of_nat k) by lia.
    replace (if inc then m + 4 * Z.of_nat (S k) else m) with (if inc then (if inc then m + 4 else m) + 4 * Z.of_nat k else if inc then m + 4 else m)
      by (destruct inc; lia). done.
Qed.
(** ** Runs of the loop *)

(** [n] iterations lead from a state to another. *)
Definition reaches (n : nat) d d' : Prop :=
  ∀ fuel, pusher_loop (n + fuel) dma dma_len d = pusher_loop fuel dma dma_len d'.

Lemma reaches_refl d : reaches 0 d d.
Proof. done. Qed.
Lemma reaches_trans n1 n2 d1 d2 d3 : reaches n1 d1 d2 → reaches n2 d2 d3 → reaches (n1 + n2) d1 d3.
Proof. intros H1 H2 fuel. by rewrite <-Nat.add_assoc, H1, H2. Qed.
Lemma reaches_step d rs d' : ready d → pusher_step dma dma_len (with_regs d rs) = Ok (true, d') → reaches 1 (with_regs d rs) d'.
Proof.
  intros (Ha & Hn & _ & _) E fuel. cbn [Nat.add pusher_loop].
  rewrite (run_bind _ _ false _ (with_regs d rs)).
  - by rewrite (run_bind _ _ _ _ _ E).
  - unfold pfifo_pusher_should_stall, gets, pusher_should_stall. change (pgraph (with_regs d rs)) with (pgraph d).
    change (fifo_access (with_regs d rs)) with (fifo_access d). by rewrite Ha, Hn.
Qed.

(** The pusher between commands, having executed some. *)
Record between d rs (B : gset Z) (g : Z) (s : option Z) : Prop := {
  bt_ready : ready d;
  bt_mem : same_mem dma dma_len d0 d;
  bt_at : fifo_at rs g s;
  bt_idle : GET_MASK (reg rs NV_PFIFO_CACHE1_DMA_STATE) NV_PFIFO_CACHE1_DMA_STATE_METHOD_COUNT = 0;
  bt_pull : pull_ok d rs B
}.

(** All the words of a methods command. *)
Lemma run_words ws d rs g s B inc sub m d' B' :
  ready d → same_mem dma dma_len d0 d → fifo_at rs g s → in_methods rs inc sub m (Z.of_nat (length ws)) →
  pull_ok d rs B → cmd_ok (Methods inc sub m (Z.of_nat (length ws))) →
  (∀ i w, ws !! i = Some w → fetched dma dma_len put d0 (g + 4 * Z.of_nat i) w) →
  exec dma dma_len (lookup_at d0) d B (calls_from sub m (dma + g) inc ws) d' B' →
  ∃ n rs', (n ≤ length ws)%nat ∧ reaches n (with_regs d rs) (with_regs d' rs') ∧
    between d' rs' B' (g + 4 * Z.of_nat (length ws)) s.
Proof.
  remember (length ws) as l eqn:Hl. revert ws Hl d rs g B m.
  induction (lt_wf l) as [l _ IH]. intros [|w rest] -> d rs g B m Hr Hm Ha Hi Hok Hcmd Hw He.
  { inversion He; subst. exists 0%nat, rs. split_and!; [done|apply reaches_refl|].
    cbn [length]. rewrite Z.add_0_r. by split; [..|apply Hi|]. }
  destruct (run_data d rs g s B inc sub m w rest d' B') as (k & d2 & rs2 & B2 & Hk & E & Hr2 & Hm2 & Ha2 & Hi2 & Hok2 & He2);
    [done..|]. pose proof Hcmd as (Hsub & Hmr & Hm4 & Hn & Hinc). cbn [length] in *.
  pose proof (length_drop rest k) as Hld. destruct (drop k rest) as [|w2 rest2] eqn:Hdrop.
  { inversion He2; subst. exists 1%nat, rs2. cbn [length] in Hld. replace (S (length rest)) with (S k) by lia.
    split_and!; [lia|by apply reaches_step|]. by split; [..|apply Hi2|]. }
  assert (1 ≤ length rest - k)%nat as Hpos by (rewrite <-Hld; cbn; lia). rewrite <-Hdrop in *.
  destruct (IH (length (drop k rest)) ltac:(rewrite length_drop; lia) (drop k rest) eq_refl d2 rs2
    (g + 4 * Z.of_nat (S k)) B2 (next_method inc m k)) as (n & rs' & Hle & Hreach & Hb); try done.
  - rewrite length_drop. unfold next_method. split_and!; try lia.
    + destruct inc; lia.
    + destruct inc; [specialize (Hinc eq_refl)|]; lia.
    + destruct inc; [|done]. dlia.
    + intros ->. specialize (Hinc eq_refl). lia.
  - intros i w' Hw'. rewrite lookup_drop in Hw'. rewrite <-Z.add_assoc.
    replace (4 * Z.of_nat (S k) + 4 * Z.of_nat i) with (4 * Z.of_nat (S (k + i))) by lia. by apply Hw.
  - exists (1 + n)%nat, rs'. rewrite length_drop in *. split_and!; [lia| |].
    + eapply reaches_trans; [by apply reaches_step|done].
    + replace (g + 4 * Z.of_nat (S (length rest)))
        with (g + 4 * Z.of_nat (S k) + 4 * Z.of_nat (length rest - k)) by lia. done.
Qed.
(** ** Commands *)

(** An iteration on the first word of a command, given what its branch does. *)
Lemma run_command d rs B g s w g' s' rs1 :
  between d rs B g s → fetched dma dma_len put d0 g w →
  pusher_command w (g + 4) (with_regs d rs) = Ok (Some g', with_regs d rs1) →
  fifo_at (<[NV_PFIFO_CACHE1_DMA_GET := g']> rs1) g' s' →
  reaches 1 (with_regs d rs) (with_regs d (<[NV_PFIFO_CACHE1_DMA_GET := g']> rs1)).
Proof.
  intros [Hr Hm Ha Hi Hok] Hf E Ha'. apply reaches_step; [done|].
  eapply run_pusher_step; [done..|]. rewrite Hi. cbn [truthy Z.eqb negb].
  destruct Hf as (_ & ? & _ & ? & _). unfold u32. rewrite (Z.mod_small (g + 4)) by lia.
  rewrite (run_bind _ _ _ _ _ E). rewrite (run_bind _ _ _ _ _ (run_fifo_w _ _ d rs1)).
  rewrite (run_bind _ _ _ _ _ (run_fifo_r _ d _)). by rewrite (fa_error _ _ _ Ha').
Qed.

(** The registers a command changes do not concern the puller. *)
Lemma between_command d rs B g s rs' g' s' :
  between d rs B g s → fifo_at rs' g' s' →
  GET_MASK (reg rs' NV_PFIFO_CACHE1_DMA_STATE) NV_PFIFO_CACHE1_DMA_STATE_METHOD_COUNT = 0 →
  reg rs' NV_PFIFO_RAMHT = reg rs NV_PFIFO_RAMHT →
  reg rs' NV_PFIFO_CACHE1_PUSH1 = reg rs NV_PFIFO_CACHE1_PUSH1 →
  reg rs' NV_PFIFO_CACHE1_PULL0 = reg rs NV_PFIFO_CACHE1_PULL0 →
  reg rs' NV_PFIFO_CACHE1_ENGINE = reg rs NV_PFIFO_CACHE1_ENGINE → between d rs' B g' s'.
Proof. intros [? ? ? ? ?] Ha Hc ????. split; [done|done|done|done|by eapply pull_ok_regs]. Qed.

Lemma run_jump d rs B g s w a :
  between d rs B g s → fetched dma dma_len put d0 g w →
  (w = encode (OldJump a) ∧ cmd_ok (OldJump a) ∨ w = encode (Jump a) ∧ cmd_ok (Jump a)) →
  ∃ rs', reaches 1 (with_regs d rs) (with_regs d rs') ∧ between d rs' B a s.
Proof.
  intros Hb Hf Hw.
  set (rs1 := <[NV_PFIFO_CACHE1_DMA_GET_JMP_SHADOW := g + 4]> (<[NV_PFIFO_CACHE1_DMA_RSVD_SHADOW := w]> rs)).
  exists (<[NV_PFIFO_CACHE1_DMA_GET := a]> rs1). pose proof (bt_at _ _ _ _ _ Hb) as [Hg Hp Hs He].
  assert (fifo_at (<[NV_PFIFO_CACHE1_DMA_GET := a]> rs1) a s) as Ha by (split; unfold rs1; by regs).
  split; [|eapply between_command; [done|done|..]; unfold rs1; regs; try done; apply Hb].
  eapply run_command; [done|done| |done]. unfold pusher_command.
  rewrite (run_bind _ _ _ _ _ (run_fifo_r _ d rs)). cbv zeta. rewrite (run_bind _ _ _ _ _ (run_fifo_w _ _ d rs)).
  destruct Hw as [[-> [Hr H4]]|[-> [Hr H4]]]; cbn [encode]; rewrite cmd_type.
  - rewrite (proj2 (Z.eqb_eq _ 0x20000000)) by dlia.
    rewrite (run_bind _ _ _ _ _ (run_fifo_w _ _ d _)). unfold mret, M_ret. do 3 f_equal.
    change 0x1fffffff with (Z.ones 29). rewrite Z.land_ones by lia. dlia.
  - assert ((a + 1) mod 4 = 1) as H1 by dlia. rewrite land_3, H1.
    rewrite (proj2 (Z.eqb_neq _ 0x20000000)) by lia. cbn [Z.eqb Pos.eqb].
    rewrite (run_bind _ _ _ _ _ (run_fifo_w _ _ d _)). unfold mret, M_ret. do 3 f_equal.
    rewrite land_low by (unfold is_u32; dlia). lia.
Qed.

Lemma run_call d rs B g a :
  between d rs B g None → fetched dma dma_len put d0 g (encode (Call a)) → cmd_ok (Call a) →
  ∃ rs', reaches 1 (with_regs d rs) (with_regs d rs') ∧ between d rs' B a (Some (g + 4)).
Proof.
  intros Hb Hf [Hr H4]. pose proof Hf as (_ & Hg0 & Hg4 & Hgl & _).
  assert (is_u32 (g + 4) ∧ (g + 4) mod 4 = 0) as [Hu Hu4] by (unfold is_u32; split; [lia|dlia]).
  set (rs1 := <[NV_PFIFO_CACHE1_DMA_SUBROUTINE := g + 4 + 1]>
    (<[NV_PFIFO_CACHE1_DMA_SUBROUTINE := g + 4]> (<[NV_PFIFO_CACHE1_DMA_RSVD_SHADOW := a + 2]> rs))).
  exists (<[NV_PFIFO_CACHE1_DMA_GET := a]> rs1). pose proof (bt_at _ _ _ _ _ Hb) as [Hg Hp Hs He].
  assert (fifo_at (<[NV_PFIFO_CACHE1_DMA_GET := a]> rs1) a (Some (g + 4))) as Ha by (split; unfold rs1; by regs).
  split; [|eapply between_command; [done|done|..]; unfold rs1; regs; try done; apply Hb].
  eapply run_command; [done|done| |done]. unfold pusher_command. cbn [encode].
  rewrite (run_bind _ _ _ _ _ (run_fifo_r _ d rs)). cbv zeta. rewrite (run_bind _ _ _ _ _ (run_fifo_w _ _ d rs)).
  assert ((a + 2) mod 4 = 2) as H2 by dlia. rewrite cmd_type, land_3, H2.
  rewrite (proj2 (Z.eqb_neq _ 0x20000000)) by lia. cbn [Z.eqb Pos.eqb]. rewrite Hs. cbn [truthy Z.eqb negb].
  rewrite (run_bind _ _ _ _ _ (run_fifo_w _ _ d _)). rewrite (run_bind _ _ _ _ _ (run_fifo_set _ _ _ d _)). regs.
  rewrite set_sub by done. unfold mret, M_ret. do 3 f_equal. rewrite land_low by (unfold is_u32; dlia). lia.
Qed.

Lemma run_return d rs B g r :
  between d rs B g (Some r) → fetched dma dma_len put d0 g (encode Return) →
  ∃ rs', reaches 1 (with_regs d rs) (with_regs d rs') ∧ between d rs' B r None.
Proof.
  intros Hb Hf. pose proof (bt_at _ _ _ _ _ Hb) as [Hg Hp (Hs & Hu & H4) He].
  set (rs0 := <[NV_PFIFO_CACHE1_DMA_RSVD_SHADOW := 2 ^ 17]> rs).
  set (rs1 := <[NV_PFIFO_CACHE1_DMA_SUBROUTINE := SET_MASK (r + 1) NV_PFIFO_CACHE1_DMA_SUBROUTINE_STATE 0]> rs0).
  exists (<[NV_PFIFO_CACHE1_DMA_GET := r]> rs1).
  assert (fifo_at (<[NV_PFIFO_CACHE1_DMA_GET := r]> rs1) r None) as Ha.
  { split; unfold rs1, rs0; regs; try done. by rewrite (GET_SET_same 1 0 1) by done. }
  split; [|eapply between_command; [done|done|..]; unfold rs1, rs0; regs; try done; apply Hb].
  eapply run_command; [done|done| |done]. unfold pusher_command. cbn [encode].
  rewrite (run_bind _ _ _ _ _ (run_fifo_r _ d rs)). cbv zeta. rewrite (run_bind _ _ _ _ _ (run_fifo_w _ _ d rs)).
  fold rs0. rewrite Hs. assert (GET_MASK (r + 1) 1 = 1) as ->.
  { rewrite (GET_MASK_field 1 0 1) by done. rewrite Z.shiftr_0_r. dlia. }
  change ((2 ^ 17 &&& 0xe0000003) =? 0x20000000) with false. change ((2 ^ 17 &&& 3) =? 1) with false.
  change ((2 ^ 17 &&& 3) =? 2) with false. change (2 ^ 17 =? 0x00020000) with true.
  change (negb (truthy 1)) with false. cbv iota. rewrite (run_bind _ _ tt _ (with_regs d rs1)).
  - unfold mret, M_ret. do 3 f_equal. rewrite land_low by (unfold is_u32 in *; dlia). dlia.
  - rewrite run_fifo_set. unfold rs0 at 1. regs. by rewrite Hs.
Qed.

Lemma run_methods_start d rs B g s inc sub m n :
  between d rs B g s → fetched dma dma_len put d0 g (encode (Methods inc sub m n)) → cmd_ok (Methods inc sub m n) →
  ∃ rs', reaches 1 (with_regs d rs) (with_regs d rs') ∧
    fifo_at rs' (g + 4) s ∧ in_methods rs' inc sub m n ∧ pull_ok d rs' B.
Proof.
  intros Hb Hf Hok. destruct (methods_fields inc sub m n Hok) as (Ht & H4 & Hne & Hform & Hm & Hsub & Hn).
  set (w := encode (Methods inc sub m n)) in *. destruct Hok as (Hs8 & Hm13 & Hm4 & Hn11 & _).
  pose proof (bt_at _ _ _ _ _ Hb) as [Hg Hp Hs He].
  set (rs0 := <[NV_PFIFO_CACHE1_DMA_RSVD_SHADOW := w]> rs).
  set (st := SET_MASK (SET_MASK (SET_MASK (SET_MASK (reg rs NV_PFIFO_CACHE1_DMA_STATE)
     NV_PFIFO_CACHE1_DMA_STATE_METHOD (m / 4)) NV_PFIFO_CACHE1_DMA_STATE_SUBCHANNEL sub)
     NV_PFIFO_CACHE1_DMA_STATE_METHOD_COUNT n) NV_PFIFO_CACHE1_DMA_STATE_METHOD_TYPE (if inc then 0 else 1)).
  assert (∃ rs1, (∀ type, type = (if inc then 0 else 1) → pusher_methods w type (with_regs d rs0) = Ok (tt, with_regs d rs1)) ∧
    reg rs1 NV_PFIFO_CACHE1_DMA_STATE = st ∧
    ∀ a, a ≠ NV_PFIFO_CACHE1_DMA_STATE → a ≠ NV_PFIFO_CACHE1_DMA_DCOUNT → a ≠ NV_PFIFO_CACHE1_DMA_RSVD_SHADOW →
      reg rs1 a = reg rs a) as (rs1 & E & Hst & Hsame).
  { eexists. split; [|split].
    - intros type ->. unfold pusher_methods. rewrite Hm, Hsub, Hn.
      do 4 rewrite (run_bind _ _ _ _ _ (run_fifo_set _ _ _ d _)). by rewrite run_fifo_w.
    - unfold rs0. regs. done.
    - intros a ???. unfold rs0. rewrite !reg_insert. by rewrite !(proj2 (Z.eqb_neq _ a)) by done. }
  exists (<[NV_PFIFO_CACHE1_DMA_GET := g + 4]> rs1).
  assert (fifo_at (<[NV_PFIFO_CACHE1_DMA_GET := g + 4]> rs1) (g + 4) s) as Ha.
  { split; regs; [done|by rewrite Hsame|by rewrite Hsame|]. rewrite Hst. unfold st. by get_set. }
  split_and!; [|done| |].
  - eapply run_command; [done|done| |done]. unfold pusher_command.
    rewrite (run_bind _ _ _ _ _ (run_fifo_r _ d rs)). cbv zeta. rewrite (run_bind _ _ _ _ _ (run_fifo_w _ _ d rs)).
    fold rs0. rewrite Ht, land_3, H4, (proj2 (Z.eqb_neq w 0x20000)) by done. rewrite Hform.
    destruct inc; cbn [Z.eqb Pos.eqb].
    + by rewrite (run_bind _ _ _ _ _ (E 0 eq_refl)).
    + change (2 ^ 30 =? 0x20000000) with false. change (2 ^ 30 =? 0) with false.
      change (2 ^ 30 =? 0x40000000) with true. cbv iota. by rewrite (run_bind _ _ _ _ _ (E 1 eq_refl)).
  - split; regs; rewrite Hst; unfold st; get_set.
    + by destruct inc.
    + by apply Z.mod_small.
    + intros _. apply Z.mod_small. dlia.
    + by apply Z.mod_small.
  - eapply pull_ok_regs; [apply Hb|..]; regs; by rewrite Hsame.
Qed.
(** ** Whole runs *)

Lemma exec_app L d B cs1 cs2 d' B' :
  exec dma dma_len L d B (cs1 ++ cs2) d' B' →
  ∃ d1 B1, exec dma dma_len L d B cs1 d1 B1 ∧ exec dma dma_len L d1 B1 cs2 d' B'.
Proof.
  revert d B. induction cs1 as [|c cs1 IH]; intros d B He.
  { exists d, B. split; [constructor|done]. }
  inversion He; subst;
    match goal with H : exec _ _ _ _ _ (cs1 ++ cs2) _ _ |- _ => destruct (IH _ _ H) as (d2' & B2' & H1' & H2') end;
    exists d2', B2'; (split; [|done]).
  - by eapply exec_bind.
  - by eapply exec_object.
  - by eapply exec_plain.
Qed.

Lemma run_runs g s cs g' s' :
  runs dma dma_len put d0 g s cs g' s' → ∀ d rs B d' B',
  between d rs B g s → exec dma dma_len (lookup_at d0) d B cs d' B' →
  ∃ n rs', reaches n (with_regs d rs) (with_regs d' rs') ∧ between d' rs' B' g' s'.
Proof.
  induction 1 as [g s|g s inc sub m ws cs g' s' Hok Hf Hw Hr IH|g s a cs g' s' Hok Hf Hr IH|g s a cs g' s' Hok Hf Hr IH
                 |g a cs g' s' Hok Hf Hr IH|g r cs g' s' Hf Hr IH]; intros d rs B d' B' Hb He.
  - inversion He; subst. by exists 0%nat, rs.
  - apply exec_app in He as (d1 & B1 & He1 & He2).
    destruct (run_methods_start d rs B g s inc sub m _ Hb Hf Hok) as (rs1 & H1 & Ha & Hi & Hpo).
    destruct (run_words ws d rs1 (g + 4) s B inc sub m d1 B1) as (n & rs2 & _ & H2 & Hb2); try done; [apply Hb|apply Hb| |].
    { by rewrite Z.add_assoc. }
    destruct (IH _ _ _ _ _ Hb2 He2) as (n3 & rs3 & H3 & Hb3).
    exists (1 + (n + n3))%nat, rs3. split; [|done]. by eapply reaches_trans, reaches_trans.
  - destruct (run_jump d rs B g s _ a Hb Hf) as (rs1 & H1 & Hb1); [by left|].
    destruct (IH _ _ _ _ _ Hb1 He) as (n & rs2 & H2 & Hb2).
    exists (1 + n)%nat, rs2. split; [|done]. by eapply reaches_trans.
  - destruct (run_jump d rs B g s _ a Hb Hf) as (rs1 & H1 & Hb1); [by right|].
    destruct (IH _ _ _ _ _ Hb1 He) as (n & rs2 & H2 & Hb2).
    exists (1 + n)%nat, rs2. split; [|done]. by eapply reaches_trans.
  - destruct (run_call d rs B g a Hb Hf Hok) as (rs1 & H1 & Hb1).
    destruct (IH _ _ _ _ _ Hb1 He) as (n & rs2 & H2 & Hb2).
    exists (1 + n)%nat, rs2. split; [|done]. by eapply reaches_trans.
  - destruct (run_return d rs B g r Hb Hf) as (rs1 & H1 & Hb1).
    destruct (IH _ _ _ _ _ Hb1 He) as (n & rs2 & H2 & Hb2).
    exists (1 + n)%nat, rs2. split; [|done]. by eapply reaches_trans.
Qed.

(** At PUT the loop ends. *)
Lemma run_at_put d rs B s fuel :
  between d rs B put s → pusher_loop (S fuel) dma dma_len (with_regs d rs) = Ok (tt, with_regs d rs).
Proof.
  intros [(Ha & Hn & _ & _) _ [Hg Hp _ _] _ _]. cbn [pusher_loop].
  rewrite (run_bind _ _ false _ (with_regs d rs)).
  - rewrite (run_bind _ _ false _ (with_regs d rs)); [done|]. unfold pusher_step.
    rewrite (run_bind _ _ put _ (with_regs d rs)) by (rewrite run_fifo_r; by rewrite Hg).
    rewrite (run_bind _ _ put _ (with_regs d rs)) by (rewrite run_fifo_r; by rewrite Hp).
    by rewrite Z.eqb_refl.
  - unfold pfifo_pusher_should_stall, gets, pusher_should_stall. change (pgraph (with_regs d rs)) with (pgraph d).
    change (fifo_access (with_regs d rs)) with (fifo_access d). by rewrite Ha, Hn.
Qed.
End delivery.

(** C3. The command FIFO executes push buffers.  Let the FIFO be on, with a buffer in VRAM,
    and let a path through its commands (methods, jumps of both kinds, calls and returns)
    lead from DMA_GET to DMA_PUT.  If the words of methods on the path can be delivered to the
    drawing engine one by one, objects looked up and subchannels bound as the words
    say, leading to the state [d'], then the pusher returns, given fuel enough; it leaves the
    device in [d'] but for the registers of PFIFO; in these DMA_GET has reached DMA_PUT, no
    command is in progress, there is no error, and the return address and the bindings
    are those at the end of the path. *)
Theorem pusher_delivers `{!PGraphLaws V X} d dma dma_len put s cs s' B d' B' :
  put = reg (pfifo_regs d) NV_PFIFO_CACHE1_DMA_PUT → is_u32 put → put mod 4 = 0 →
  started d dma dma_len → ready d → bound (pfifo_regs d) B → returning (pfifo_regs d) s →
  runs dma dma_len put d (reg (pfifo_regs d) NV_PFIFO_CACHE1_DMA_GET) s cs put s' →
  exec dma dma_len (lookup_at d) d B cs d' B' →
  ∃ n rs', (∀ fuel, (n ≤ fuel)%nat → pfifo_run_pusher fuel d = Ok (tt, with_regs d' rs')) ∧
    reg rs' NV_PFIFO_CACHE1_DMA_GET = put ∧ reg rs' NV_PFIFO_CACHE1_DMA_PUT = put ∧
    GET_MASK (reg rs' NV_PFIFO_CACHE1_DMA_STATE) NV_PFIFO_CACHE1_DMA_STATE_METHOD_COUNT = 0 ∧
    GET_MASK (reg rs' NV_PFIFO_CACHE1_DMA_STATE) NV_PFIFO_CACHE1_DMA_STATE_ERROR = 0 ∧
    returning rs' s' ∧ bound rs' B'.
Proof.
  intros Hp Hu H4 [H1 H2 H3 Hch Hmo Hmap Hrg Hpl Hidle Herr] Hr HB Hs Hruns He.
  destruct (run_runs dma dma_len d put (conj Hu H4) Hrg _ _ _ _ _ Hruns d (pfifo_regs d) B d' B')
    as (n & rs' & Hreach & Hb); [|done|].
  { split; [done|done|by split| done|by split]. }
  exists (S n), rs'. pose proof Hb as [_ _ [Hg' Hp' Hs' He'] Hi' [_ _ Hbd']]. split_and!; try done.
  intros fuel Hf. unfold pfifo_run_pusher. rewrite <-(with_regs_id d) at 1.
  rewrite !(run_bind _ _ _ _ _ (run_fifo_r _ d (pfifo_regs d))). rewrite H1, H2, H3. cbn [negb orb].
  rewrite (run_bind _ _ _ _ _ (run_fifo_r _ d (pfifo_regs d))). cbv zeta.
  rewrite (run_bind _ _ _ _ _ (run_fifo_r _ d (pfifo_regs d))).
  rewrite (run_bind _ _ tt _ (with_regs d (pfifo_regs d))) by (by apply run_assert).
  rewrite (run_bind _ _ tt _ (with_regs d (pfifo_regs d))) by (apply run_assert; by rewrite Hmo).
  rewrite (run_bind _ _ _ _ _ (run_fifo_r _ d (pfifo_regs d))).
  rewrite (run_bind _ _ tt _ (with_regs d (pfifo_regs d))) by (apply run_assert; by rewrite Herr).
  rewrite (run_bind _ _ _ _ _ (run_fifo_r _ d (pfifo_regs d))).
  rewrite (run_bind _ _ (dma, dma_len) _ (with_regs d (pfifo_regs d))) by (by rewrite with_regs_id).
  rewrite (run_bind _ _ tt _ (with_regs d' rs')).
  - rewrite (run_bind _ _ _ _ _ (run_fifo_r _ d' rs')). by rewrite He'.
  - replace fuel with (n + S (fuel - S n))%nat by lia. rewrite Hreach. by eapply run_at_put.
Qed.
End runs.
