(* ===== verification/PgraphSpec.v ===== *)
(** * PgraphSpec: the drawing engine as the FIFO sees it

    [pgraph_method] meets what the FIFO relies on ([PGraphLaws]), given that the handlers
    of the 3D class do not look at the registers of PFIFO and leave alone those the
    context of a subchannel is switched with ([EngineLaws]).  The heart is [pg_batch]: the
    wrappers of the table handle the words of a command as if they came one by one. *)

From stdpp Require Import gmap.
From S2P Require Import Prelude.
From S2P Require Import Nv2aRegs.
From S2P Require Import Nv2a.
From S2P Require Import Pgraph.
From S2P Require Import Pfifo.
From S2P Require Import PfifoSpec.
From S2P Require Import PfifoRuns.

(** The entry's handler of one word. *)
Definition handler_of {V X} (e : kelvin_method V X) : MethodFunc V X :=
  match e with Single h | Inc h _ | NonInc h => h end.

(** Code that neither looks at the registers of PFIFO nor changes them. *)
Definition indep {V X A} (m : M (NV2AState V X) A) : Prop :=
  ∀ d rs, m (with_regs d rs) = match m d with
                               | Ok (a, d') => Ok (a, with_regs d' rs)
                               | Fault e => Fault e
                               end.

(** The registers of the context of a subchannel. *)
Definition ctx_reg (r : Z) : Prop := NV_PGRAPH_CTX_SWITCH1 ≤ r < NV_PGRAPH_CTX_CACHE5 + 32.

(** What the table promises.  The range of an entry of [Inc] has the same entry up to its
    end; entries that take several words are for plain methods. *)
Class EngineLaws (V X : Type) `{!Engine V X} := {
  blit_indep : indep (ops_image_blit (V := V) (X := X));
  handler_indep : ∀ i e sub m p, kelvin_methods (V := V) (X := X) i = Some e → indep (handler_of e sub m p);
  handler_ctx : ∀ i e sub m p (d d' : NV2AState V X), kelvin_methods i = Some e →
    handler_of e sub m p d = Ok (tt, d') →
    ∀ r, ctx_reg r → pg_regs (pgraph d') !! r = pg_regs (pgraph d) !! r;
  inc_range : ∀ i h end_, kelvin_methods (V := V) (X := X) i = Some (Inc h end_) →
    4 * i < end_ < 2 ^ 32 ∧ end_ mod 4 = 0 ∧
    ∀ i', i ≤ i' → 4 * i' < end_ → plain (4 * i') ∧ kelvin_methods i' = Some (Inc h end_);
  non_inc_plain : ∀ i h, kelvin_methods (V := V) (X := X) i = Some (NonInc h) → plain (4 * i)
}.

(** The words taken: all but DRAW_ARRAYS, which looks ahead at the commands that follow. *)
#[global] Instance pgraph_accepts V X : Accepts V X := λ _ c,
  0 ≤ c_sub c < 8 ∧ 0 ≤ c_method c < 2 ^ 13 ∧ c_method c mod 4 = 0 ∧ c_method c ≠ NV097_DRAW_ARRAYS.

Section spec.
Context {V X : Type} `{!VGACommon V} `{!Engine V X}.
Abbreviation D := (NV2AState V X).
Implicit Types (d : D) (rs : regfile).

#[global] Instance PGraph_method : PGraph V X := pgraph_method.

(** ** Independence of the registers of PFIFO *)

Lemma indep_ret {A} (a : A) : indep (V := V) (X := X) (mret a).
Proof. done. Qed.
Lemma indep_gets {A} (f : D → A) : (∀ d rs, f (with_regs d rs) = f d) → indep (gets f).
Proof. intros Hf d rs. unfold gets. by rewrite Hf. Qed.
Lemma indep_modify (f : D → D) : (∀ d rs, f (with_regs d rs) = with_regs (f d) rs) → indep (modify f).
Proof. intros Hf d rs. unfold modify. by rewrite Hf. Qed.
Lemma indep_assert b : indep (V := V) (X := X) (assertM b).
Proof. by destruct b. Qed.
Lemma indep_inBounds b : indep (V := V) (X := X) (inBounds b).
Proof. by destruct b. Qed.
Lemma indep_raise {A} e : indep (V := V) (X := X) (A := A) (raise e).
Proof. done. Qed.
Lemma indep_bind {A B} (m : M D A) (k : A → M D B) : indep m → (∀ a, indep (k a)) → indep (m ≫= k).
Proof.
  intros Hm Hk d rs. unfold mbind, M_bind. rewrite Hm. destruct (m d) as [[a d']|e]; [|done]. apply Hk.
Qed.
(** Code that gets the whole state is followed by code that does not use these registers
    of it. *)
Lemma indep_state {B} (k : D → M D B) :
  (∀ d d' rs, k (with_regs d rs) d' = k d d') → (∀ d, indep (k d)) → indep (gets id ≫= k).
Proof. intros Hf Hk d rs. unfold mbind, M_bind, gets. cbn. rewrite Hf. apply Hk. Qed.
Lemma indep_when b (m : M D unit) : indep m → indep (whenM b m).
Proof. by destruct b. Qed.
Lemma indep_if {A} (b : bool) (m1 m2 : M D A) : indep m1 → indep m2 → indep (if b then m1 else m2).
Proof. by destruct b. Qed.
Lemma indep_forM {Y} (l : list Y) (body : Y → M D unit) : (∀ y, indep (body y)) → indep (forM l body).
Proof. intros H. induction l as [|y l IH]; [done|]. by apply indep_bind. Qed.
End spec.

Create HintDb indep.
#[export] Hint Resolve indep_ret indep_assert indep_inBounds indep_raise : indep.

(** Goes through a program; leaves the calls it has no lemma for. *)
Ltac indep_steps := repeat
  lazymatch goal with
  | |- indep (gets id ≫= _) => apply indep_state; [done|intros ?]
  | |- indep (_ ≫= _) => apply indep_bind; [|intros ?]
  | |- indep (gets _) => apply indep_gets; done
  | |- indep (modify _) => apply indep_modify; done
  | |- indep (whenM _ _) => apply indep_when
  | |- indep (forM _ _) => apply indep_forM; intros ?
  | |- indep (if _ then _ else _) => apply indep_if
  | |- indep (let '(_, _) := ?p in _) => destruct p
  | |- indep (let _ := _ in _) => cbv zeta
  | |- indep _ => solve [auto with indep]
  end.

Section indep.
Context {V X : Type} `{!VGACommon V} `{!Engine V X} `{!EngineLaws V X}.
Abbreviation D := (NV2AState V X).

Lemma indep_ldl mem off : indep (V := V) (X := X) (ldl_le_p mem off).
Proof. unfold ldl_le_p, rd. indep_steps. Qed.
Lemma indep_reg_r r : indep (V := V) (X := X) (pgraph_reg_r r).
Proof. unfold pgraph_reg_r, reg_r. indep_steps. Qed.
Lemma indep_reg_w r v : indep (V := V) (X := X) (pgraph_reg_w r v).
Proof. unfold pgraph_reg_w, reg_r. indep_steps. Qed.
Hint Resolve indep_ldl indep_reg_r indep_reg_w : indep.
Lemma indep_get_mask r mask : indep (V := V) (X := X) (PG_GET_MASK r mask).
Proof. unfold PG_GET_MASK. indep_steps. Qed.
Lemma indep_word_at p i : indep (V := V) (X := X) (word_at p i).
Proof. unfold word_at. indep_steps. Qed.
Hint Resolve indep_get_mask indep_word_at blit_indep : indep.

Lemma indep_squash m p look : indep (V := V) (X := X) (squash m p look).
Proof. unfold squash, andM, lam, lap. indep_steps. Qed.
Hint Resolve indep_squash : indep.

Lemma indep_kelvin sub m p ptr n look inc : indep (V := V) (X := X) (method_kelvin sub m p ptr n look inc).
Proof.
  unfold method_kelvin, set_pg. destruct (kelvin_methods (m >>> 2)) as [e|] eqn:E; [|by indep_steps].
  pose proof (λ s m p, handler_indep _ e s m p E) as Hh.
  destruct e as [h|h end_|h]; cbn [handler_of] in Hh; unfold pgraph_method_inc, pgraph_method_non_inc;
    indep_steps.
Qed.
Hint Resolve indep_kelvin : indep.

Lemma indep_method sub m p ptr n look inc : indep (V := V) (X := X) (pgraph_method sub m p ptr n look inc).
Proof.
  unfold pgraph_method, method_set_object, method_ctx_switch, method_beta, method_pattern, method_surfaces_2d,
    method_image_blit, set_pg. cbv zeta. indep_steps.
Qed.
End indep.

(** ** Contexts *)

Section contexts.
Context {V X : Type} `{!VGACommon V} `{!Engine V X}.
Abbreviation D := (NV2AState V X).
Implicit Types (d : D).

Definition reg_of d (r : Z) : Z := reg (pg_regs (pgraph d)) r.

(** A write of a register, as a function. *)
Definition put_reg (r v : Z) d : D :=
  let d := if reg_of d r =? v then d
           else d <| pgraph ::= λ pg, pg <| regs_dirty ::= λ m, {[ r / 4 ]} ∪ m |> |> in
  d <| pgraph ::= λ pg, pg <| pg_regs ::= <[r := v]> |> |>.

Definition is_reg (r : Z) : Prop := r mod 4 = 0 ∧ 0 ≤ r < 0x2000.

Lemma run_put_reg r v d : is_reg r → pgraph_reg_w r v d = Ok (tt, put_reg r v d).
Proof.
  intros [Hr Hb]. unfold pgraph_reg_w, reg_r, put_reg, reg_of. rewrite (run_bind _ _ tt _ d) by (apply run_assert; lia).
  rewrite (run_bind _ _ d _ d) by done.
  rewrite (run_bind _ _ (reg (pg_regs (pgraph d)) r) _ d) by (by rewrite (run_bind _ _ tt _ d) by (apply run_inBounds; lia)).
  by destruct (_ =? v).
Qed.
Lemma put_reg_regs r v d : pg_regs (pgraph (put_reg r v d)) = <[r := v]> (pg_regs (pgraph d)).
Proof. unfold put_reg. by destruct (_ =? v). Qed.
Lemma put_reg_same r v d : pg_regs (pgraph d) !! r = Some v → put_reg r v d = d.
Proof.
  intros H. unfold put_reg, reg_of, reg. rewrite H. cbn [default]. rewrite Z.eqb_refl.
  assert ((pgraph d) <| pg_regs ::= <[r := v]> |> = pgraph d) as E.
  { destruct (pgraph d); cbn in *. unfold field_update; cbn. by rewrite insert_id. }
  destruct d; cbn in *. unfold field_update in *; cbn in *. by rewrite E.
Qed.
Lemma reg_of_put r v d r' : reg_of (put_reg r v d) r' = if r =? r' then v else reg_of d r'.
Proof. unfold reg_of. rewrite put_reg_regs. apply reg_insert. Qed.
Lemma put_reg_ready r v d : r ≠ NV_PGRAPH_FIFO → ready d → ready (put_reg r v d).
Proof.
  intros Hr (Ha & H). split.
  - unfold fifo_access in *. fold (reg_of (put_reg r v d) NV_PGRAPH_FIFO). rewrite reg_of_put.
    by rewrite (proj2 (Z.eqb_neq _ _) Hr).
  - unfold put_reg. by destruct (_ =? v).
Qed.
Lemma put_reg_mem r v d dma dma_len : same_mem dma dma_len d (put_reg r v d).
Proof. unfold put_reg. by destruct (_ =? v). Qed.

(** The context of a subchannel is switched in. *)
Definition ctx_pairs : list (Z * Z) :=
  [(NV_PGRAPH_CTX_SWITCH1, NV_PGRAPH_CTX_CACHE1); (NV_PGRAPH_CTX_SWITCH2, NV_PGRAPH_CTX_CACHE2);
   (NV_PGRAPH_CTX_SWITCH3, NV_PGRAPH_CTX_CACHE3); (NV_PGRAPH_CTX_SWITCH4, NV_PGRAPH_CTX_CACHE4);
   (NV_PGRAPH_CTX_SWITCH5, NV_PGRAPH_CTX_CACHE5)].
Definition switched sub d : Prop :=
  ∀ p, p ∈ ctx_pairs → pg_regs (pgraph d) !! p.1 = Some (reg_of d (p.2 + sub * 4)).
Definition ctx_switched sub d : D :=
  foldl (λ d p, put_reg p.1 (reg_of d (p.2 + sub * 4)) d) d ctx_pairs.

Lemma ctx_pairs_in p : p ∈ ctx_pairs → ∃ k, 0 ≤ k < 5 ∧ p = (NV_PGRAPH_CTX_SWITCH1 + 4 * k, NV_PGRAPH_CTX_CACHE1 + 32 * k).
Proof.
  intros Hp. unfold ctx_pairs in Hp.
  repeat (apply elem_of_cons in Hp as [-> | Hp]); [exists 0|exists 1|exists 2|exists 3|exists 4|]; try (split; [lia|done]).
  by apply not_elem_of_nil in Hp.
Qed.
Lemma run_ctx_switch sub d : 0 ≤ sub < 8 → method_ctx_switch sub d = Ok (tt, ctx_switched sub d).
Proof.
  intros Hs. unfold method_ctx_switch, ctx_switched. fold ctx_pairs.
  assert (∀ p, p ∈ ctx_pairs → is_reg p.1 ∧ is_reg (p.2 + sub * 4)) as Hr.
  { intros p (k & Hk & ->)%ctx_pairs_in. unfold is_reg. cbn [fst snd]. dlia. }
  revert d Hr. induction ctx_pairs as [|[dst src] l IH]; intros d Hr; [done|]. cbn [forM foldl].
  destruct (Hr (dst, src)) as [H1 [H2 H3]]; [by constructor|]. cbn [fst snd] in *.
  rewrite (run_bind _ _ tt _ (put_reg dst (reg_of d (src + sub * 4)) d)).
  - apply IH. intros p Hp. apply Hr. by constructor.
  - rewrite (run_bind _ _ _ _ _ (run_pg_reg d (src + sub * 4) H2 H3)). by apply run_put_reg.
Qed.
Lemma switched_same sub d : switched sub d → ctx_switched sub d = d.
Proof.
  unfold switched, ctx_switched. induction ctx_pairs as [|p l IH]; [done|]. intros H. cbn [foldl].
  rewrite put_reg_same by (apply H; by constructor). apply IH. intros q Hq. apply H. by constructor.
Qed.
Lemma ctx_switched_reg sub d r : 0 ≤ sub < 8 → ¬ NV_PGRAPH_CTX_SWITCH1 ≤ r < NV_PGRAPH_CTX_CACHE1 →
  reg_of (ctx_switched sub d) r = reg_of d r.
Proof. intros Hs Hr. unfold ctx_switched. cbn [ctx_pairs foldl fst snd]. rewrite !reg_of_put. by repeat (rewrite (proj2 (Z.eqb_neq _ r)) by lia). Qed.
Lemma switched_after sub d : 0 ≤ sub < 8 → switched sub (ctx_switched sub d).
Proof.
  intros Hs p (k & Hk & ->)%ctx_pairs_in. cbn [fst snd].
  rewrite ctx_switched_reg by lia. unfold ctx_switched. cbn [ctx_pairs foldl fst snd]. rewrite !put_reg_regs, !reg_of_put.
  repeat (rewrite (proj2 (Z.eqb_neq _ (_ + _))) by lia).
  assert (k = 0 ∨ k = 1 ∨ k = 2 ∨ k = 3 ∨ k = 4) as [-> | [-> | [-> | [-> | ->]]]] by lia; cbn [Z.add Z.mul Pos.add Pos.mul];
    repeat (rewrite lookup_insert_eq || rewrite lookup_insert_ne by lia); done.
Qed.
Lemma ctx_switched_ready sub d : ready d → ready (ctx_switched sub d).
Proof. intros H. unfold ctx_switched. cbn [ctx_pairs foldl fst snd]. by repeat apply put_reg_ready. Qed.
Lemma ctx_switched_mem sub d dma dma_len : same_mem dma dma_len d (ctx_switched sub d).
Proof.
  unfold ctx_switched. cbn [ctx_pairs foldl fst snd].
  repeat (eapply same_mem_trans; [|apply put_reg_mem]). apply same_mem_refl.
Qed.
End contexts.

(** ** Batches *)

Section batches.
Context {V X : Type} `{!VGACommon V} `{!Engine V X} `{!EngineLaws V X}.
Abbreviation D := (NV2AState V X).
Implicit Types (d : D).

Definition channel_valid d : Prop := truthy (GET_MASK (reg_of d NV_PGRAPH_CTX_CONTROL) NV_PGRAPH_CTX_CONTROL_CHID) = true.
Definition class_of d : Z := GET_MASK (reg_of d NV_PGRAPH_CTX_SWITCH1) NV_PGRAPH_CTX_SWITCH1_GRCLASS.

(** The part of [pgraph_method] after the switch of contexts. *)
Definition method_class (sub m p ptr n look : Z) (inc : bool) : M D Z :=
  graphics_class ← PG_GET_MASK NV_PGRAPH_CTX_SWITCH1 NV_PGRAPH_CTX_SWITCH1_GRCLASS;
  whenM (negb (sub =? 0)) (assertM (negb (graphics_class =? 0x97)));;
  if graphics_class =? NV_BETA then method_beta m p;; mret 1
  else if graphics_class =? NV_CONTEXT_PATTERN then method_pattern m p;; mret 1
  else if graphics_class =? NV_CONTEXT_SURFACES_2D then method_surfaces_2d m p;; mret 1
  else if graphics_class =? NV_IMAGE_BLIT then method_image_blit m p;; mret 1
  else if graphics_class =? NV_KELVIN_PRIMITIVE then method_kelvin sub m p ptr n look inc
  else mret 1.

Lemma method_split sub m p ptr n look inc d :
  pgraph_method sub m p ptr n look inc d =
  (v ← PG_GET_MASK NV_PGRAPH_CTX_CONTROL NV_PGRAPH_CTX_CONTROL_CHID;
   assertM (truthy v);; assertM (sub <? 8);;
   whenM (m =? NV_SET_OBJECT) (method_set_object sub p);;
   method_ctx_switch sub;; method_class sub m p ptr n look inc) d.
Proof. done. Qed.

(** Does the entry of a method take several words? *)
Definition batches (m : Z) (inc : bool) : bool :=
  match kelvin_methods (V := V) (X := X) (m >>> 2) with
  | Some (Inc _ _) => inc
  | Some (NonInc _) => negb inc
  | _ => false
  end.

Lemma run_squash m ptr look d : m ≠ NV097_DRAW_ARRAYS → squash m ptr look d = Ok (false, d).
Proof. intros Hm. unfold squash. rewrite (run_bind _ _ d _ d) by done. by rewrite (proj2 (Z.eqb_neq _ _) Hm). Qed.

(** A method that does not take several words ignores them. *)
Lemma method_one sub m p ptr n look inc d :
  batches m inc = false → m ≠ NV097_DRAW_ARRAYS →
  pgraph_method sub m p ptr n look inc d = pgraph_method sub m p ptr 1 1 inc d.
Proof.
  intros Hb Hm.
  assert (∀ d, method_kelvin sub m p ptr n look inc d = method_kelvin sub m p ptr 1 1 inc d) as Hk.
  { intros d2. unfold method_kelvin, batches in *. destruct (kelvin_methods (m >>> 2)) as [e|]; [|done].
    unfold mbind, M_bind. unfold pgraph_method_inc, pgraph_method_non_inc.
    destruct e as [h|h end_|h]; [|subst inc; cbn [negb]|destruct inc; [|done]];
      unfold mbind, M_bind; (destruct (h sub m p d2) as [[[] d3]|]; [|done]); cbn; by rewrite !run_squash. }
  rewrite !method_split. unfold mbind, M_bind. destruct (PG_GET_MASK _ _ d) as [[v d1]|]; [|done].
  destruct (assertM _ d1) as [[[] d2]|]; [|done]. destruct (assertM _ d2) as [[[] d3]|]; [|done].
  destruct (whenM _ _ d3) as [[[] d4]|]; [|done]. destruct (method_ctx_switch sub d4) as [[[] d5]|]; [|done].
  unfold method_class, mbind, M_bind. destruct (PG_GET_MASK _ _ d5) as [[c d6]|]; [|done].
  destruct (whenM _ _ d6) as [[[] d7]|]; [|done]. repeat (destruct (c =? _); [done || by rewrite Hk|]). done.
Qed.

Lemma run_get_mask r mask d : is_reg r → PG_GET_MASK r mask d = Ok (GET_MASK (reg_of d r) mask, d).
Proof. intros [H1 H2]. unfold PG_GET_MASK. by rewrite (run_bind _ _ _ _ _ (run_pg_reg d r H1 H2)). Qed.

(** A method other than SET_OBJECT. *)
Lemma run_method sub m p ptr n look inc d :
  0 ≤ sub < 8 → m ≠ NV_SET_OBJECT →
  pgraph_method sub m p ptr n look inc d =
  if truthy (GET_MASK (reg_of d NV_PGRAPH_CTX_CONTROL) NV_PGRAPH_CTX_CONTROL_CHID)
  then method_class sub m p ptr n look inc (ctx_switched sub d) else Fault AssertFailed.
Proof.
  intros Hs Hm. rewrite method_split. rewrite (run_bind _ _ _ _ _ (run_get_mask NV_PGRAPH_CTX_CONTROL _ d ltac:(done))).
  destruct (truthy _); [|done]. rewrite (run_bind _ _ tt _ d) by done.
  rewrite (run_bind _ _ tt _ d) by (apply run_assert; lia).
  rewrite (proj2 (Z.eqb_neq _ _) Hm). rewrite (run_bind _ _ tt _ d) by done.
  by rewrite (run_bind _ _ _ _ _ (run_ctx_switch sub d Hs)).
Qed.
Lemma method_again sub m p ptr n look inc d :
  0 ≤ sub < 8 → m ≠ NV_SET_OBJECT →
  pgraph_method sub m p ptr n look inc (ctx_switched sub d) = pgraph_method sub m p ptr n look inc d.
Proof.
  intros Hs Hm. rewrite !run_method by done. rewrite ctx_switched_reg by lia.
  by rewrite (switched_same sub (ctx_switched sub d)) by (by apply switched_after).
Qed.
Lemma class_other sub m p ptr n look inc d :
  class_of d ≠ NV_KELVIN_PRIMITIVE →
  method_class sub m p ptr n look inc d = method_class sub m p ptr 1 1 inc d.
Proof.
  intros Hc. unfold method_class.
  rewrite !(run_bind _ _ _ _ _ (run_get_mask NV_PGRAPH_CTX_SWITCH1 _ d ltac:(done))). fold (class_of d).
  by rewrite (proj2 (Z.eqb_neq _ _) Hc).
Qed.
Lemma class_kelvin sub m p ptr n look inc d :
  class_of d = NV_KELVIN_PRIMITIVE →
  method_class sub m p ptr n look inc d =
  if sub =? 0 then method_kelvin sub m p ptr n look inc d else Fault AssertFailed.
Proof.
  intros Hc. unfold method_class.
  rewrite (run_bind _ _ _ _ _ (run_get_mask NV_PGRAPH_CTX_SWITCH1 _ d ltac:(done))). fold (class_of d). rewrite Hc.
  by destruct (sub =? 0).
Qed.

(** The entry of a method takes a word of a command with a handler. *)
Definition takes (m : Z) (inc : bool) (h : MethodFunc V X) : Prop :=
  if inc then ∃ end_, kelvin_methods (m >>> 2) = Some (Inc h end_) ∧ m + 4 ≤ end_ < 2 ^ 32
  else kelvin_methods (m >>> 2) = Some (NonInc h).

Lemma run_word ptr i w d :
  0 ≤ ptr + 4 * i → ptr + 4 * i + 4 ≤ blen (vram d) → of_le (slice (ptr + 4 * i) 4 (vram d)) = w →
  word_at ptr i d = Ok (w, d).
Proof.
  intros H1 H2 <-. unfold word_at, ldl_le_p. rewrite (run_bind _ _ d _ d) by done.
  by rewrite (run_bind _ _ (slice (ptr + 4 * i) 4 (vram d)) _ d) by (apply run_rd; lia).
Qed.

Lemma kelvin_one sub m ptr (inc : bool) h w d :
  0 ≤ m → takes m inc h → m ≠ NV097_DRAW_ARRAYS → word_at ptr 0 d = Ok (w, d) →
  method_kelvin sub m w ptr 1 1 inc d = (h sub m w;; mret 1) d.
Proof.
  intros H0 Ht Hm Hw. unfold method_kelvin, takes in *. unfold mbind, M_bind.
  destruct inc; [destruct Ht as (end_ & -> & He)|rewrite Ht]; unfold pgraph_method_inc, pgraph_method_non_inc; cbn [negb].
  - replace (Z.min 1 (u32 (end_ - m) / 4)) with 1.
    + cbn [seqZ]. change (seqZ 0 1) with [0]. cbn [forM]. unfold mbind, M_bind. rewrite Hw, Z.add_0_r.
      destruct (h sub m w d) as [[[] d2]|]; [|done]. cbn. by rewrite run_squash.
    + unfold u32. rewrite Z.mod_small by lia. dlia.
  - change (seqZ 0 1) with [0]. cbn [forM]. unfold mbind, M_bind. rewrite Hw.
    destruct (h sub m w d) as [[[] d2]|]; [|done]. cbn. by rewrite run_squash.
Qed.

Lemma takes_entry m inc h : takes m inc h → ∃ e, kelvin_methods (m >>> 2) = Some e ∧ handler_of e = h.
Proof. unfold takes. destruct inc; [intros (end_ & -> & _)|intros ->]; eauto. Qed.

Lemma handler_switched sub m inc h p d d' :
  0 ≤ sub < 8 → takes m inc h → h sub m p d = Ok (tt, d') →
  switched sub d → class_of d = NV_KELVIN_PRIMITIVE → switched sub d' ∧ class_of d' = NV_KELVIN_PRIMITIVE.
Proof.
  intros Hs Ht E Hsw Hc. destruct (takes_entry _ _ _ Ht) as (e & He & <-).
  pose proof (handler_ctx _ _ _ _ _ _ _ He E) as Hk.
  assert (∀ r, ctx_reg r → reg_of d' r = reg_of d r) as Hreg by (intros r Hr; unfold reg_of, reg; by rewrite Hk).
  split; [|unfold class_of; rewrite Hreg by (unfold ctx_reg; lia); done].
  intros q Hq. assert (ctx_reg q.1 ∧ ctx_reg (q.2 + sub * 4)) as [? ?].
  { destruct (ctx_pairs_in _ Hq) as (k & ? & ->). unfold ctx_reg. cbn [fst snd]. lia. }
  rewrite Hk, Hreg by done. by apply Hsw.
Qed.
(** Words of a command, inside the push buffer. *)
Context (dma dma_len : Z).
Definition inside d (ptr : Z) (ws : list Z) : Prop :=
  (∀ i w, ws !! i = Some w → of_le (slice (ptr + 4 * Z.of_nat i) 4 (vram d)) = w) ∧
  0 ≤ dma ≤ ptr ∧ ptr + 4 * Z.of_nat (length ws) ≤ dma + dma_len ∧
  ptr + 4 * Z.of_nat (length ws) ≤ blen (vram d).

Lemma inside_mem d d' ptr ws : same_mem dma dma_len d d' → inside d ptr ws → inside d' ptr ws.
Proof.
  intros (Hs & Hl & _) (Hw & H1 & H2 & H3). split_and!; try lia.
  intros i w Hi. rewrite <-(Hw i w Hi). pose proof (lookup_lt_Some _ _ _ Hi).
  replace (ptr + 4 * Z.of_nat i) with (dma + (ptr - dma + 4 * Z.of_nat i)) by lia.
  rewrite <-!(slice_slice dma dma_len) by lia. by rewrite Hs.
Qed.
Lemma inside_tail d ptr w ws : inside d ptr (w :: ws) → inside d (ptr + 4) ws.
Proof.
  intros (Hw & H1 & H2 & H3). cbn [length] in *. split_and!; try lia. intros i w' Hi.
  rewrite <-(Hw (S i) w' Hi). do 2 f_equal. lia.
Qed.
Lemma inside_head d ptr w ws : inside d ptr (w :: ws) → word_at ptr 0 d = Ok (w, d).
Proof. intros (Hw & H1 & H2 & H3). cbn [length] in *. apply run_word; [lia|lia|]. by apply (Hw 0%nat). Qed.

(** One word that is delivered is handled. *)
Lemma delivers_one sub m w ptr inc h d d' :
  switched sub d → class_of d = NV_KELVIN_PRIMITIVE → takes m inc h → plain m → word_at ptr 0 d = Ok (w, d) →
  delivers dma dma_len d {| c_sub := sub; c_method := m; c_param := w; c_ptr := ptr; c_inc := inc |} d' →
  sub = 0 ∧ h sub m w d = Ok (tt, d') ∧ switched sub d' ∧ class_of d' = NV_KELVIN_PRIMITIVE.
Proof.
  intros Hsw Hc Ht [Hp _] Hw (_ & (Hs & Hm & _ & Hd) & E & _). cbn [c_sub c_method c_param c_ptr c_inc] in *.
  unfold pg_method, PGraph_method in E. rewrite run_method in E by (done || lia). destruct (truthy _); [|done].
  rewrite switched_same, class_kelvin in E by done. destruct (Z.eqb_spec sub 0) as [-> |]; [|done].
  rewrite (kelvin_one 0 m ptr inc h w d) in E by (done || lia). unfold mbind, M_bind in E.
  destruct (h 0 m w d) as [[[] d2]|] eqn:Eh; [|done]. injection E as ->. split_and!; [done..| |];
    by eapply handler_switched.
Qed.

(** The loop of the wrappers handles the words that are delivered one by one. *)
Definition mth (inc : bool) (m i : Z) : Z := if inc then m + 4 * i else m.
Lemma run_loop sub m ptr inc h ws i d d' :
  switched sub d → class_of d = NV_KELVIN_PRIMITIVE → inside d (ptr + 4 * i) ws →
  (∀ j, i ≤ j < i + Z.of_nat (length ws) → takes (mth inc m j) inc h ∧ plain (mth inc m j)) →
  delivers_all dma dma_len d (calls_from sub (mth inc m i) (ptr + 4 * i) inc ws) d' →
  forM (seqZ i (Z.of_nat (length ws))) (λ i, w ← word_at ptr i; h sub (mth inc m i) w) d = Ok (tt, d').
Proof.
  revert i d. induction ws as [|w ws IH]; intros i d Hsw Hc Hin Ht Hd; [by inversion Hd|].
  rewrite calls_from_cons in Hd. inversion Hd as [|? ? d1 ? ? H1 H2]; subst. cbn [length] in *.
  assert (word_at ptr i d = Ok (w, d)) as Hw.
  { pose proof (inside_head _ _ _ _ Hin) as Hh. unfold word_at in *. by rewrite Z.add_0_r in Hh. }
  destruct (Ht i ltac:(lia)) as [Hti Hpi].
  destruct (delivers_one _ _ _ _ _ _ _ _ Hsw Hc Hti Hpi (inside_head _ _ _ _ Hin) H1) as (_ & E & Hsw1 & Hc1).
  rewrite seqZ_cons by lia. cbn [forM]. rewrite (run_bind _ _ tt _ d1) by (by rewrite (run_bind _ _ _ _ _ Hw)).
  replace (Z.pred (Z.of_nat (S (length ws)))) with (Z.of_nat (length ws)) by lia. apply IH; [done|done| | |].
  - eapply inside_mem; [by eapply delivers_mem|]. apply inside_tail in Hin. by replace (ptr + 4 * Z.succ i) with (ptr + 4 * i + 4) by lia.
  - intros j Hj. apply Ht. lia.
  - replace (mth inc m (Z.succ i)) with (if inc then mth inc m i + 4 else mth inc m i) by (unfold mth; destruct inc; lia).
    by replace (ptr + 4 * Z.succ i) with (ptr + 4 * i + 4) by lia.
Qed.

(** How many words an entry takes. *)
Lemma index_of m : m mod 4 = 0 → 4 * (m >>> 2) = m.
Proof. intros Hm. rewrite Z.shiftr_div_pow2 by lia. change (2 ^ 2) with 4. dlia. Qed.
Lemma index_add m j : m mod 4 = 0 → (m + 4 * j) >>> 2 = (m >>> 2) + j.
Proof. intros Hm. rewrite !Z.shiftr_div_pow2 by lia. change (2 ^ 2) with 4. dlia. Qed.

Lemma batch_entry sub m p ptr (n : nat) look inc :
  batches m inc = true → m mod 4 = 0 → m ≠ NV097_DRAW_ARRAYS → (1 ≤ n)%nat →
  ∃ h (count : nat), (1 ≤ count ≤ n)%nat ∧
    (∀ j, 0 ≤ j < Z.of_nat count → takes (mth inc m j) inc h ∧ plain (mth inc m j)) ∧
    ∀ d d', forM (seqZ 0 (Z.of_nat count)) (λ i, w ← word_at ptr i; h sub (mth inc m i) w) d = Ok (tt, d') →
      method_kelvin sub m p ptr (Z.of_nat n) look inc d = Ok (Z.of_nat count, d').
Proof.
  intros Hb Hm Hd Hn. unfold batches in Hb. unfold takes, method_kelvin.
  destruct (kelvin_methods (m >>> 2)) as [e|] eqn:He; [|done]. destruct e as [h|h end_|h]; [done|subst inc|destruct inc; [done|]].
  - destruct (inc_range _ _ _ He) as ((Hlt & H32) & He4 & Hr). rewrite index_of in Hlt by done.
    exists h, (Z.to_nat (Z.min (Z.of_nat n) ((end_ - m) / 4))). cbn [mth].
    assert (0 ≤ m). { destruct (Hr (m >>> 2)) as [[? _] _]; [lia|by rewrite index_of|]. rewrite index_of in *; lia. }
    assert (1 ≤ (end_ - m) / 4) by dlia. split_and!; [lia|lia| |].
    + intros j Hj. destruct (Hr ((m >>> 2) + j)) as [Hp Hk]; [lia|rewrite Z.mul_add_distr_l, index_of by done; dlia|].
      rewrite Z.mul_add_distr_l, index_of in Hp by done. split; [|done]. exists end_. rewrite index_add by done.
      split; [done|]. dlia.
    + intros d d' E. rewrite Z2Nat.id in * by lia. unfold pgraph_method_inc. cbn [negb].
      replace (u32 (end_ - m)) with (end_ - m) by (unfold u32; rewrite Z.mod_small by lia; done).
      cbv zeta. rewrite (run_bind _ _ (Z.min (Z.of_nat n) ((end_ - m) / 4)) _ d') by (by rewrite (run_bind _ _ _ _ _ E)).
      rewrite (run_bind _ _ _ _ _ (run_squash m ptr look d' Hd)). done.
  - exists h, n. cbn [mth]. split_and!; [lia|lia| |].
    + intros j Hj. split; [done|]. rewrite <-(index_of m) by done. by eapply non_inc_plain.
    + intros d d' E. unfold pgraph_method_non_inc.
      rewrite (run_bind _ _ (Z.of_nat n) _ d') by (by rewrite (run_bind _ _ _ _ _ E)).
      rewrite (run_bind _ _ _ _ _ (run_squash m ptr look d' Hd)). done.
Qed.

Lemma calls_from_take k sub m ptr inc ws :
  take k (calls_from sub m ptr inc ws) = calls_from sub m ptr inc (take k ws).
Proof.
  revert m ptr ws. induction k as [|k IH]; intros m ptr [|w ws]; [done..|].
  cbn [take]. rewrite !calls_from_cons. cbn [take]. by rewrite IH.
Qed.
Lemma calls_from_lookup j sub m ptr inc ws c :
  calls_from sub m ptr inc ws !! j = Some c → c_method c = mth inc m (Z.of_nat j).
Proof. unfold calls_from. rewrite list_lookup_imap. intros (w & _ & ->)%fmap_Some. by destruct inc. Qed.
Lemma delivers_all_take k j d (cs : list call) d' :
  delivers_all dma dma_len d (take j cs) d' → (k ≤ j)%nat → ∃ d1, delivers_all dma dma_len d (take k cs) d1.
Proof.
  revert j d cs. induction k as [|k IH]; intros j d cs Hd Hk; [exists d; constructor|].
  destruct j as [|j]; [lia|]. destruct cs as [|c cs]; [exists d; constructor|].
  inversion Hd as [|? ? d1 ? ? H1 H2]; subst. destruct (IH j d1 cs H2 ltac:(lia)) as (d2 & H3).
  exists d2. by econstructor.
Qed.
Lemma delivers_switched c d d' :
  c_method c ≠ NV_SET_OBJECT → delivers dma dma_len d c d' → delivers dma dma_len (ctx_switched (c_sub c) d) c d'.
Proof.
  intros Hm (Hr & Ha & E & Hr' & Hs & Hl & Hri).
  destruct (ctx_switched_mem (c_sub c) d dma dma_len) as (Hs1 & Hl1 & Hri1). split_and!; [|done| |done|].
  - by apply ctx_switched_ready.
  - unfold pg_method, PGraph_method in *. by rewrite method_again by (done || apply Ha).
  - split_and!; congruence.
Qed.

(** The batch of a table entry, given that the words could be delivered. *)
Lemma kelvin_batch d sub m w ptr rest look inc j d' :
  batches m inc = true → inside d ptr (w :: rest) →
  (∀ c, calls_from sub m ptr inc (w :: rest) !! j = Some c → ¬ plain (c_method c)) →
  switched sub d → class_of d = NV_KELVIN_PRIMITIVE → (1 ≤ j)%nat →
  delivers_all dma dma_len d (take j (calls_from sub m ptr inc (w :: rest))) d' →
  ∃ k d1, (1 ≤ k ≤ j)%nat ∧
    method_class sub m w ptr (Z.of_nat (length (w :: rest))) look inc d = Ok (Z.of_nat k, d1) ∧
    delivers_all dma dma_len d (take k (calls_from sub m ptr inc (w :: rest))) d1.
Proof.
  intros Hb Hin Hnp Hsw Hc Hj Hd.
  assert (∃ d1, delivers dma dma_len d {| c_sub := sub; c_method := m; c_param := w; c_ptr := ptr; c_inc := inc |} d1) as (e & Hd1).
  { destruct j; [lia|]. rewrite calls_from_cons in Hd. inversion Hd; subst. eauto. }
  pose proof Hd1 as (_ & (Hs & Hm & Hm4 & Hnd) & _). cbn [c_sub c_method] in *.
  destruct (batch_entry sub m w ptr (length (w :: rest)) look inc) as (h & k & Hk & Ht & Hrun); [done..|cbn; lia|].
  assert (k ≤ j)%nat as Hkj.
  { apply Nat.le_ngt. intros Hlt. destruct (lookup_lt_is_Some_2 (calls_from sub m ptr inc (w :: rest)) j) as [c Hc'].
    { unfold calls_from. rewrite length_imap. lia. }
    apply (Hnp c Hc'). rewrite (calls_from_lookup _ _ _ _ _ _ _ Hc'). apply Ht. lia. }
  destruct (Ht 0 ltac:(lia)) as [Ht0 Hp0]. replace (mth inc m 0) with m in * by (unfold mth; destruct inc; lia).
  destruct (delivers_one _ _ _ _ _ _ _ _ Hsw Hc Ht0 Hp0 (inside_head _ _ _ _ Hin) Hd1) as (-> & _).
  destruct (delivers_all_take k j d _ d' Hd Hkj) as (d1 & Hdk). exists k, d1. split_and!; [lia|done| |done].
  rewrite class_kelvin by done. cbn [Z.eqb]. apply Hrun. rewrite calls_from_take in Hdk.
  assert (length (take k (w :: rest)) = k) as Hlen by (rewrite length_take; lia).
  rewrite <-Hlen at 1. apply run_loop; [done|done| | |].
  - destruct Hin as (Hw & H1 & H2 & H3). rewrite Z.mul_0_r, Z.add_0_r. split_and!; try lia.
    intros i w' Hi. apply Hw. apply lookup_take_Some in Hi. apply Hi.
  - rewrite Hlen. intros i Hi. apply Ht. lia.
  - replace (mth inc m 0) with m by (unfold mth; destruct inc; lia). by rewrite Z.mul_0_r, Z.add_0_r.
Qed.

Lemma pgraph_batch d sub m p w ptr rest look inc j d' :
  let cs := calls_from sub m ptr inc (p :: rest) in
  inside d ptr (w :: rest) → (plain m → p = w) → (1 ≤ j)%nat →
  (∀ c, cs !! j = Some c → ¬ plain (c_method c)) →
  delivers_all dma dma_len d (take j cs) d' →
  ∃ k d1, (1 ≤ k ≤ j)%nat ∧
    pgraph_method sub m p ptr (Z.of_nat (length (w :: rest))) look inc d = Ok (Z.of_nat k, d1) ∧
    delivers_all dma dma_len d (take k cs) d1.
Proof.
  intros cs Hin Hp Hj Hnp Hd.
  set (c := {| c_sub := sub; c_method := m; c_param := p; c_ptr := ptr; c_inc := inc |}).
  assert (cs = c :: calls_from sub (if inc then m + 4 else m) (ptr + 4) inc rest) as Hcs by apply calls_from_cons.
  assert (∃ d1, delivers dma dma_len d c d1) as (e & Hd1).
  { destruct j; [lia|]. rewrite Hcs in Hd. inversion Hd; subst. eauto. }
  assert (delivers_all dma dma_len d (take 1 cs) e) as Hone by (rewrite Hcs; econstructor; [done|constructor]).
  pose proof Hd1 as (_ & (Hs & Hm & Hm4 & Hnd) & E & _). cbn [c_sub c_method c_param c_ptr c_inc c] in *.
  unfold pg_method, PGraph_method in E.
  destruct (batches m inc) eqn:Hb.
  2: { exists 1%nat, e. split_and!; [lia..| |done]. by rewrite method_one. }
  assert (plain m) as Hpl.
  { destruct (batch_entry sub m w ptr 1 look inc) as (h & k & Hk & Ht & _); [done..|].
    destruct (Ht 0 ltac:(lia)) as [_ Hp0]. by replace (mth inc m 0) with m in Hp0 by (unfold mth; destruct inc; lia). }
  pose proof (Hp Hpl). subst p. assert (m ≠ NV_SET_OBJECT) by (destruct Hpl; lia).
  rewrite run_method in * by done. destruct (truthy _); [|done].
  destruct (Z.eq_dec (class_of (ctx_switched sub d)) NV_KELVIN_PRIMITIVE) as [Hc|Hc].
  2: { exists 1%nat, e. split_and!; [lia..| |done]. by rewrite class_other. }
  destruct j as [|j]; [lia|]. rewrite Hcs in Hd. inversion Hd as [|? ? e1 ? ? H1 H2]; subst.
  destruct (kelvin_batch (ctx_switched sub d) sub m w ptr rest look inc (S j) d') as (k & d1 & Hk & Ek & Hdk); try done.
  - eapply inside_mem; [apply ctx_switched_mem|done].
  - by apply switched_after.
  - rewrite calls_from_cons. econstructor; [by apply (delivers_switched c)|done].
  - exists k, d1. split_and!; [lia..|done|]. destruct k as [|k]; [lia|]. fold cs in Hdk. rewrite Hcs in *.
    inversion Hdk as [|? ? e2 ? ? H3 H4]; subst.
    rewrite (delivers_det _ _ _ _ _ _ H3 (delivers_switched c _ _ ltac:(done) Hd1)) in H4.
    econstructor; [exact Hd1|exact H4].
Qed.
End batches.

(** The engine meets what the FIFO relies on. *)
#[global] Instance pgraph_laws V X `{!VGACommon V} `{!Engine V X} `{!EngineLaws V X} : PGraphLaws V X.
Proof.
  split.
  - intros. apply indep_method.
  - done.
  - intros dma dma_len d sub m p w ptr rest look inc j d' n cs Hw H1 H2 H3 Hp Hj _ Hnp Hd.
    apply (pgraph_batch dma dma_len d sub m p w ptr rest look inc j d'); [done|done|lia|done|done].
Qed.
