(* ===== verification/Kelvin.v ===== *)
(** * Kelvin: the 3D class of the drawing engine, pgraph/pgraph.c and pgraph/vertex.c

    The state of PGRAPH the methods of NV_KELVIN_PRIMITIVE work on ([KelvinState], the
    [drawing] part of [PGRAPHState]), their handlers, in groups in the order of the source,
    and the table pgraph/methods.h.inc builds from them.  The renderer and the emulator of
    transform programs (a library outside of the repository) are the class [Renderer].

    Arrays that the code indexes with a length it keeps (vertices, elements, draws) are
    finite maps of default 0 with the size checked at each access; small arrays are lists. *)

From stdpp Require Import gmap.
From S2P Require Import Prelude.
From S2P Require Import Nv2aRegs.
From S2P Require Import KelvinRegs.
From S2P Require Import Float32.
From S2P Require Import Nv2a.
From S2P Require Import Pgraph.

(** ** State *)

Record Surface := {
  draw_dirty : bool; buffer_dirty : bool; write_enabled_cache : bool; pitch : Z; surface_offset : Z
}.
#[global] Instance eta_Surface : EtaRecord Surface := λ s,
  {| draw_dirty := draw_dirty s; buffer_dirty := buffer_dirty s; write_enabled_cache := write_enabled_cache s;
     pitch := pitch s; surface_offset := surface_offset s |}.

Record SurfaceShape := {
  z_format : Z; shape_color_format : Z; zeta_format : Z; log_width : Z; log_height : Z;
  clip_x : Z; clip_y : Z; clip_width : Z; clip_height : Z; anti_aliasing : Z
}.
#[global] Instance eta_SurfaceShape : EtaRecord SurfaceShape := λ s,
  {| z_format := z_format s; shape_color_format := shape_color_format s; zeta_format := zeta_format s;
     log_width := log_width s; log_height := log_height s; clip_x := clip_x s; clip_y := clip_y s;
     clip_width := clip_width s; clip_height := clip_height s; anti_aliasing := anti_aliasing s |}.

Record VertexAttribute := {
  dma_select : bool; attr_offset : Z;
  inline_value : list Z;                (* float[4] *)
  format : Z; attr_size : Z; attr_count : Z; stride : Z;
  inline_buffer : gmap Z (list Z);      (* float[4] of each vertex *)
  inline_buffer_populated : bool
}.
#[global] Instance eta_VertexAttribute : EtaRecord VertexAttribute := λ s,
  {| dma_select := dma_select s; attr_offset := attr_offset s; inline_value := inline_value s; format := format s;
     attr_size := attr_size s; attr_count := attr_count s; stride := stride s; inline_buffer := inline_buffer s;
     inline_buffer_populated := inline_buffer_populated s |}.

Record KelvinState (R : Type) := {
  frame_time : Z; kelvin_object_instance : Z;
  dma_color : Z; dma_zeta : Z; surface_color : Surface; surface_zeta : Surface;
  surface_type : Z; surface_shape : SurfaceShape;
  dma_a : Z; dma_b : Z; texture_dirty : list bool; texture_matrix_enable : list bool;
  dma_state : Z; dma_notifies : Z; dma_semaphore : Z; dma_report : Z;
  zpass_pixel_count_enable : bool; dma_vertex_a : Z; dma_vertex_b : Z;
  enable_vertex_program_write : bool; vertex_state_shader_v0 : list Z;
  program_data : list Z; program_data_dirty : bool; vsh_constants_dirty : list bool;
  ltctxa : list Z; ltctxa_dirty : list bool; ltctxb : list Z; ltctxb_dirty : list bool;
  ltc1 : list Z; ltc1_dirty : list bool; material_alpha : Z;
  light_infinite_half_vector : list Z; light_infinite_direction : list Z;
  light_local_position : list Z; light_local_attenuation : list Z;
  specular_params : list Z; specular_power : Z; specular_params_back : list Z; specular_power_back : Z;
  point_params : list Z; vertex_attributes : list VertexAttribute; compressed_attrs : Z;
  inline_array_length : Z; inline_array : gmap Z Z; inline_elements : gmap Z Z; inline_buffer_length : Z;
  draw_arrays_min_start : Z; draw_arrays_max_count : Z; draw_arrays_start : gmap Z Z; draw_arrays_count : gmap Z Z;
  renderer_state : R
}.
Arguments Build_KelvinState {R}.
Arguments frame_time {R} _. Arguments kelvin_object_instance {R} _. Arguments dma_color {R} _.
Arguments dma_zeta {R} _. Arguments surface_color {R} _. Arguments surface_zeta {R} _.
Arguments surface_type {R} _. Arguments surface_shape {R} _. Arguments dma_a {R} _.
Arguments dma_b {R} _. Arguments texture_dirty {R} _. Arguments texture_matrix_enable {R} _.
Arguments dma_state {R} _. Arguments dma_notifies {R} _. Arguments dma_semaphore {R} _.
Arguments dma_report {R} _. Arguments zpass_pixel_count_enable {R} _. Arguments dma_vertex_a {R} _.
Arguments dma_vertex_b {R} _. Arguments enable_vertex_program_write {R} _.
Arguments vertex_state_shader_v0 {R} _. Arguments program_data {R} _. Arguments program_data_dirty {R} _.
Arguments vsh_constants_dirty {R} _. Arguments ltctxa {R} _. Arguments ltctxa_dirty {R} _.
Arguments ltctxb {R} _. Arguments ltctxb_dirty {R} _. Arguments ltc1 {R} _. Arguments ltc1_dirty {R} _.
Arguments material_alpha {R} _. Arguments light_infinite_half_vector {R} _.
Arguments light_infinite_direction {R} _. Arguments light_local_position {R} _.
Arguments light_local_attenuation {R} _. Arguments specular_params {R} _. Arguments specular_power {R} _.
Arguments specular_params_back {R} _. Arguments specular_power_back {R} _. Arguments point_params {R} _.
Arguments vertex_attributes {R} _. Arguments compressed_attrs {R} _. Arguments inline_array_length {R} _.
Arguments inline_array {R} _. Arguments inline_elements {R} _. Arguments inline_buffer_length {R} _.
Arguments draw_arrays_min_start {R} _. Arguments draw_arrays_max_count {R} _.
Arguments draw_arrays_start {R} _. Arguments draw_arrays_count {R} _. Arguments renderer_state {R} _.
#[global] Instance eta_KelvinState R : EtaRecord (KelvinState R) := λ s,
  {| frame_time := frame_time s; kelvin_object_instance := kelvin_object_instance s;
     dma_color := dma_color s; dma_zeta := dma_zeta s; surface_color := surface_color s;
     surface_zeta := surface_zeta s; surface_type := surface_type s; surface_shape := surface_shape s;
     dma_a := dma_a s; dma_b := dma_b s; texture_dirty := texture_dirty s;
     texture_matrix_enable := texture_matrix_enable s; dma_state := dma_state s;
     dma_notifies := dma_notifies s; dma_semaphore := dma_semaphore s; dma_report := dma_report s;
     zpass_pixel_count_enable := zpass_pixel_count_enable s; dma_vertex_a := dma_vertex_a s;
     dma_vertex_b := dma_vertex_b s; enable_vertex_program_write := enable_vertex_program_write s;
     vertex_state_shader_v0 := vertex_state_shader_v0 s; program_data := program_data s;
     program_data_dirty := program_data_dirty s; vsh_constants_dirty := vsh_constants_dirty s;
     ltctxa := ltctxa s; ltctxa_dirty := ltctxa_dirty s; ltctxb := ltctxb s;
     ltctxb_dirty := ltctxb_dirty s; ltc1 := ltc1 s; ltc1_dirty := ltc1_dirty s;
     material_alpha := material_alpha s; light_infinite_half_vector := light_infinite_half_vector s;
     light_infinite_direction := light_infinite_direction s;
     light_local_position := light_local_position s; light_local_attenuation := light_local_attenuation s;
     specular_params := specular_params s; specular_power := specular_power s;
     specular_params_back := specular_params_back s; specular_power_back := specular_power_back s;
     point_params := point_params s; vertex_attributes := vertex_attributes s;
     compressed_attrs := compressed_attrs s; inline_array_length := inline_array_length s;
     inline_array := inline_array s; inline_elements := inline_elements s;
     inline_buffer_length := inline_buffer_length s; draw_arrays_min_start := draw_arrays_min_start s;
     draw_arrays_max_count := draw_arrays_max_count s; draw_arrays_start := draw_arrays_start s;
     draw_arrays_count := draw_arrays_count s; renderer_state := renderer_state s |}.

(** The renderer, and the run of a transform program: the words of the program from its
    start on, the input register and the constants with their dirty bits give the new
    constants and dirty bits, or nothing if the program does not parse. *)
Class Renderer (V R : Type) := {
  op_clear_report_value : M (NV2AState V (KelvinState R)) unit;
  op_clear_surface : Z → M (NV2AState V (KelvinState R)) unit;
  op_draw_begin : M (NV2AState V (KelvinState R)) unit;
  op_draw_end : M (NV2AState V (KelvinState R)) unit;
  op_flip_stall : M (NV2AState V (KelvinState R)) unit;
  op_flush_draw : M (NV2AState V (KelvinState R)) unit;
  op_get_report : Z → M (NV2AState V (KelvinState R)) unit;
  op_image_blit : M (NV2AState V (KelvinState R)) unit;
  op_process_pending_reports : M (NV2AState V (KelvinState R)) unit;
  op_surface_update : bool → bool → bool → M (NV2AState V (KelvinState R)) unit;
  nv2a_vsh : list Z → list Z → list Z → list bool → option (list Z * list bool)
}.

(** ** Maps of values *)

(** A switch over values. *)
Fixpoint look (l : list (Z * Z)) (v : Z) : option Z :=
  match l with
  | [] => None
  | (k, a) :: l => if v =? k then Some a else look l v
  end.

Section maps.
Context {D : Type}.

(** A switch whose default is an assertion that fails. *)
Definition switch (l : list (Z * Z)) (v : Z) : M D Z :=
  match look l v with Some a => mret a | None => raise AssertFailed end.

Definition kelvin_map_stencil_op (parameter : Z) : M D Z :=
  switch [(NV097_SET_STENCIL_OP_V_KEEP, NV_PGRAPH_CONTROL_2_STENCIL_OP_V_KEEP);
          (NV097_SET_STENCIL_OP_V_ZERO, NV_PGRAPH_CONTROL_2_STENCIL_OP_V_ZERO);
          (NV097_SET_STENCIL_OP_V_REPLACE, NV_PGRAPH_CONTROL_2_STENCIL_OP_V_REPLACE);
          (NV097_SET_STENCIL_OP_V_INCRSAT, NV_PGRAPH_CONTROL_2_STENCIL_OP_V_INCRSAT);
          (NV097_SET_STENCIL_OP_V_DECRSAT, NV_PGRAPH_CONTROL_2_STENCIL_OP_V_DECRSAT);
          (NV097_SET_STENCIL_OP_V_INVERT, NV_PGRAPH_CONTROL_2_STENCIL_OP_V_INVERT);
          (NV097_SET_STENCIL_OP_V_INCR, NV_PGRAPH_CONTROL_2_STENCIL_OP_V_INCR);
          (NV097_SET_STENCIL_OP_V_DECR, NV_PGRAPH_CONTROL_2_STENCIL_OP_V_DECR)]
    parameter.

Definition kelvin_map_polygon_mode (parameter : Z) : M D Z :=
  switch [(NV097_SET_FRONT_POLYGON_MODE_V_POINT, NV_PGRAPH_SETUPRASTER_FRONTFACEMODE_POINT);
          (NV097_SET_FRONT_POLYGON_MODE_V_LINE, NV_PGRAPH_SETUPRASTER_FRONTFACEMODE_LINE);
          (NV097_SET_FRONT_POLYGON_MODE_V_FILL, NV_PGRAPH_SETUPRASTER_FRONTFACEMODE_FILL)]
    parameter.

Definition kelvin_map_texgen (parameter channel : Z) : M D Z :=
  assertM (channel <? 4);;
  if parameter =? NV097_SET_TEXGEN_S_DISABLE then mret NV_PGRAPH_CSV1_A_T0_S_DISABLE
  else if parameter =? NV097_SET_TEXGEN_S_EYE_LINEAR then mret NV_PGRAPH_CSV1_A_T0_S_EYE_LINEAR
  else if parameter =? NV097_SET_TEXGEN_S_OBJECT_LINEAR then mret NV_PGRAPH_CSV1_A_T0_S_OBJECT_LINEAR
  else if parameter =? NV097_SET_TEXGEN_S_SPHERE_MAP then
    assertM (channel <? 2);; mret NV_PGRAPH_CSV1_A_T0_S_SPHERE_MAP
  else if parameter =? NV097_SET_TEXGEN_S_REFLECTION_MAP then
    assertM (channel <? 3);; mret NV_PGRAPH_CSV1_A_T0_S_REFLECTION_MAP
  else if parameter =? NV097_SET_TEXGEN_S_NORMAL_MAP then
    assertM (channel <? 3);; mret NV_PGRAPH_CSV1_A_T0_S_NORMAL_MAP
  else raise AssertFailed.
End maps.

(** ** The specular power *)

(** An approximation of the exponent a list of six parameters encodes. *)
Definition CurveCoefficients : Type := Z * Z * Z.

Definition reconstruct_quadratic (c0 : Z) (coefficients : CurveCoefficients) : Z :=
  let '(a, b, c) := coefficients in
  f32_add (f32_add a (f32_mul b c0)) (f32_mul (f32_mul c c0) c0).

Definition reconstruct_saturation_growth_rate (c0 : Z) (coefficients : CurveCoefficients) : Z :=
  let '(a, b, c) := coefficients in
  f32_div (f32_mul a c0) (f32_add b (f32_mul c c0)).

(** The step points, the function and the coefficients of each interval. *)
Definition curves : list (Z * (Z → CurveCoefficients → Z) * CurveCoefficients) :=
  [(dec (-22553957999) 12, reconstruct_quadratic,
    (dec 1000108475163 12, dec (-9838607076280) 12, dec 54829089549713 12));
   (dec (-421539008617) 12, reconstruct_quadratic,
    (dec 1199164441703 12, dec (-3292603784852) 12, dec 7799987995214 12));
   (dec (-678715527058) 12, reconstruct_quadratic,
    (dec 8653441252033 12, dec 29189473787191 12, dec 43586027561823 12));
   (dec (-838916420937) 12, reconstruct_saturation_growth_rate,
    (dec (-531307758450301) 12, dec 117398468683934 12, dec 113155490738338 12));
   (dec (-961754500866) 12, reconstruct_saturation_growth_rate,
    (dec (-4662713151292) 12, dec 1221108944572 12, dec 1217360986939 12));
   (dec (-990773200989) 12, reconstruct_saturation_growth_rate,
    (dec (-124435242105211) 12, dec 35401219563514 12, dec 35408114377045 12));
   (dec (-994858562946) 12, reconstruct_quadratic,
    (dec 10672560259502287954 12, dec 21565843555823743343 12, dec 10894794336297152564 12));
   (dec (-996561050415) 12, reconstruct_quadratic,
    (dec (-51973801463933646679) 12, dec (-104199997554352939129) 12, dec (-52225454356278456748) 12));
   (dec (-999547004700) 12, reconstruct_quadratic,
    (dec 972270324080004124 12, dec 2025882096547174733 12, dec 1054898052467488218 12))].

Definition reconstruct_power (c : Z) : Z :=
  match find (λ '(step, _, _), f32_gt c step) curves with
  | Some (_, f, coefficients) => f c coefficients
  | None => f32_0
  end.

Definition reconstruct_specular_power (params : list Z) : Z :=
  let at_ i := nth i params 0 in
  if f32_gt (at_ 1%nat) f32_0 && f32_lt (at_ 2%nat) f32_1 then
    f32_sub (at_ 2%nat) (f32_mul (at_ 0%nat) f32_2)
  else
    let c0 := at_ 0%nat in
    let c3 := at_ 3%nat in
    if f32_gt c0 f32_0 || f32_gt c3 f32_0 then decf 1 4
    else
      let reconstructed_power := reconstruct_power c0 in
      let reconstructed_half_power := reconstruct_power c3 in
      if f32_eq reconstructed_power f32_0
         || (f32_gt reconstructed_half_power reconstructed_power && f32_lt c0 (decf (-1) 1))
      then f32_mul reconstructed_half_power f32_2
      else reconstructed_power.

(** The size of the arrays of draws. *)
Abbreviation DRAW_ARRAYS_MAX := 1250%Z (only parsing).

(** ** Access to the state *)

Section kelvin.
Context {V R : Type} `{!VGACommon V} `{!Renderer V R}.
Abbreviation K := (KelvinState R).
Abbreviation D := (NV2AState V (KelvinState R)).

Definition kstate : M D K := gets (λ d, drawing (pgraph d)).
Definition set_k (f : K → K) : M D unit := set_pg (λ pg, pg <| drawing ::= f |>).

(** An assignment to element [i] of an array of [n] elements, and to [row][col] of a matrix. *)
Definition poke (n i : Z) (f : nat → K → K) : M D unit :=
  inBounds ((0 <=? i) && (i <? n));; set_k (f (Z.to_nat i)).
Definition poke2 (rows cols row col : Z) (f : nat → nat → K → K) : M D unit :=
  inBounds ((0 <=? row) && (row <? rows) && (0 <=? col) && (col <? cols));;
  set_k (f (Z.to_nat (row * cols + col)) (Z.to_nat row)).

(** [vsh_constants[row][col]], read and written. *)
Definition vsh_constant (row col : Z) : M D Z :=
  inBounds ((0 <=? row) && (row <? NV2A_VERTEXSHADER_CONSTANTS) && (0 <=? col) && (col <? 4));;
  gets (λ d, nth (Z.to_nat (row * 4 + col)) (vsh_constants (pgraph d)) 0).
Definition put_vsh_constant (row col parameter : Z) : M D unit :=
  inBounds ((0 <=? row) && (row <? NV2A_VERTEXSHADER_CONSTANTS) && (0 <=? col) && (col <? 4));;
  set_pg (λ pg, pg <| vsh_constants ::= <[Z.to_nat (row * 4 + col) := parameter]> |>).
(** [vsh_constants[row][col] = parameter], marked dirty. *)
Definition set_vsh_constant (row col parameter : Z) : M D unit :=
  inBounds ((0 <=? row) && (row <? NV2A_VERTEXSHADER_CONSTANTS) && (0 <=? col) && (col <? 4));;
  set_pg (λ pg, pg <| vsh_constants ::= <[Z.to_nat (row * 4 + col) := parameter]> |>);;
  set_k (λ k, k <| vsh_constants_dirty ::= <[Z.to_nat row := true]> |>).
Definition set_ltctxa (row col parameter : Z) : M D unit :=
  poke2 NV2A_LTCTXA_COUNT 4 row col (λ i j k,
    k <| ltctxa ::= <[i := parameter]> |> <| ltctxa_dirty ::= <[j := true]> |>).
Definition set_ltctxb (row col parameter : Z) : M D unit :=
  poke2 NV2A_LTCTXB_COUNT 4 row col (λ i j k,
    k <| ltctxb ::= <[i := parameter]> |> <| ltctxb_dirty ::= <[j := true]> |>).

Definition pgraph_color_write_enabled : M D bool :=
  v ← pgraph_reg_r NV_PGRAPH_CONTROL_0;
  mret (truthy (v &&& (NV_PGRAPH_CONTROL_0_ALPHA_WRITE_ENABLE ||| NV_PGRAPH_CONTROL_0_RED_WRITE_ENABLE |||
                       NV_PGRAPH_CONTROL_0_GREEN_WRITE_ENABLE ||| NV_PGRAPH_CONTROL_0_BLUE_WRITE_ENABLE))).
Definition pgraph_zeta_write_enabled : M D bool :=
  v ← pgraph_reg_r NV_PGRAPH_CONTROL_0;
  mret (truthy (v &&& (NV_PGRAPH_CONTROL_0_ZWRITEENABLE ||| NV_PGRAPH_CONTROL_0_STENCIL_WRITE_ENABLE))).

(** ** Vertices, pgraph/vertex.c *)

Definition attribute (attr : Z) : M D VertexAttribute :=
  k ← kstate;
  match vertex_attributes k !! Z.to_nat attr with
  | Some a => inBounds (0 <=? attr);; mret a
  | None => raise OutOfBounds
  end.
Definition set_attribute (attr : Z) (f : VertexAttribute → VertexAttribute) : M D unit :=
  poke NV2A_VERTEXSHADER_ATTRIBUTES attr (λ i k, k <| vertex_attributes ::= alter f i |>).

(** [attribute->inline_value[i] = v]. *)
Definition set_inline_value (attr i v : Z) : M D unit :=
  inBounds ((0 <=? i) && (i <? 4));;
  set_attribute attr (λ a, a <| inline_value ::= <[Z.to_nat i := v]> |>).

(** Copies the value of an attribute to vertex [i] of its buffer. *)
Definition copy_inline_value (attr i : Z) : M D unit :=
  inBounds ((0 <=? i) && (i <? NV2A_MAX_BATCH_LENGTH));;
  set_attribute attr (λ a, a <| inline_buffer ::= <[i := inline_value a]> |>).

Definition pgraph_allocate_inline_buffer_vertices (attr : Z) : M D unit :=
  a ← attribute attr;
  k ← kstate;
  if inline_buffer_populated a || (inline_buffer_length k =? 0) then mret tt
  else
    set_attribute attr (λ a, a <| inline_buffer_populated := true |>);;
    forM (seqZ 0 (inline_buffer_length k)) (copy_inline_value attr).

Definition pgraph_finish_inline_buffer_vertex : M D unit :=
  k ← kstate;
  assertM (inline_buffer_length k <? NV2A_MAX_BATCH_LENGTH);;
  forM (seqZ 0 NV2A_VERTEXSHADER_ATTRIBUTES) (λ i,
    a ← attribute i;
    whenM (inline_buffer_populated a) (copy_inline_value i (inline_buffer_length k)));;
  set_k (λ k, k <| inline_buffer_length ::= λ n, n + 1 |>).

Definition pgraph_reset_draw_arrays : M D unit :=
  set_pg (λ pg, pg <| draw_arrays_length := 0 |>);;
  set_k (λ k, k <| draw_arrays_min_start := u32 (-1) |> <| draw_arrays_max_count := 0 |>);;
  set_pg (λ pg, pg <| draw_arrays_prevent_connect := false |>).

Definition pgraph_reset_inline_buffers : M D unit :=
  set_pg (λ pg, pg <| inline_elements_length := 0 |>);;
  set_k (λ k, k <| inline_array_length := 0 |> <| inline_buffer_length := 0 |>);;
  pgraph_reset_draw_arrays.

(** ** Elements and draws *)

(** [pg->inline_elements[pg->inline_elements_length++] = v]. *)
Definition push_element (v : Z) : M D unit :=
  d ← gets id;
  let n := inline_elements_length (pgraph d) in
  set_pg (λ pg, pg <| inline_elements_length := u32 (n + 1) |>);;
  poke NV2A_MAX_BATCH_LENGTH n (λ _ k, k <| inline_elements ::= <[n := v]> |>).

Definition draw_start (k : K) (i : Z) : Z := default 0 (draw_arrays_start k !! i).
Definition draw_count (k : K) (i : Z) : Z := default 0 (draw_arrays_count k !! i).

Definition pgraph_expand_draw_arrays : M D unit :=
  d ← gets id;
  let last := u32 (draw_arrays_length (pgraph d) - 1) in
  inBounds (last <? DRAW_ARRAYS_MAX);;
  let start := u32 (draw_start (drawing (pgraph d)) last) in
  let count := u32 (draw_count (drawing (pgraph d)) last) in
  whenM (1 <? draw_arrays_length (pgraph d)) (op_flush_draw;; pgraph_reset_inline_buffers);;
  d ← gets id;
  assertM (u32 (inline_elements_length (pgraph d) + count) <? NV2A_MAX_BATCH_LENGTH);;
  forM (seqZ 0 count) (λ i, push_element (u32 (start + i)));;
  pgraph_reset_draw_arrays.

(** Before an element: draws collected so far become elements. *)
Definition expand_pending : M D unit :=
  d ← gets id;
  whenM (truthy (draw_arrays_length (pgraph d))) pgraph_expand_draw_arrays.
End kelvin.
