(* ===== verification/KelvinMethods.v ===== *)
(** * KelvinMethods: the handlers of the 3D class, pgraph/pgraph.c

    One handler per method of pgraph/methods.h.inc, in groups that follow the source, and
    the table of the class.  A method [SET_X] of the source is the constructor of the same name;
    a handler gets the subchannel, the address of the method and its parameter. *)

From stdpp Require Import gmap.
From S2P Require Import Prelude.
From S2P Require Import Nv2aRegs.
From S2P Require Import KelvinRegs.
From S2P Require Import Float32.
From S2P Require Import Nv2a.
From S2P Require Import Pgraph.
From S2P Require Import Kelvin.

(** Objects, synchronization and DMA contexts. *)
Inductive control_name :=
  SET_OBJECT | NO_OPERATION | WAIT_FOR_IDLE | SET_FLIP_READ | SET_FLIP_WRITE | SET_FLIP_MODULO |
  FLIP_INCREMENT_WRITE | FLIP_STALL | SET_CONTEXT_DMA_NOTIFIES | SET_CONTEXT_DMA_A | SET_CONTEXT_DMA_B |
  SET_CONTEXT_DMA_STATE | SET_CONTEXT_DMA_COLOR | SET_CONTEXT_DMA_ZETA | SET_CONTEXT_DMA_VERTEX_A |
  SET_CONTEXT_DMA_VERTEX_B | SET_CONTEXT_DMA_SEMAPHORE | SET_CONTEXT_DMA_REPORT.

(** Surfaces. *)
Inductive surface_name :=
  SET_SURFACE_CLIP_HORIZONTAL | SET_SURFACE_CLIP_VERTICAL | SET_SURFACE_FORMAT | SET_SURFACE_PITCH |
  SET_SURFACE_COLOR_OFFSET | SET_SURFACE_ZETA_OFFSET.

(** Combiners, fog, window clipping, material sources. *)
Inductive shading_name :=
  SET_COMBINER_ALPHA_ICW | SET_COMBINER_SPECULAR_FOG_CW0 | SET_COMBINER_SPECULAR_FOG_CW1 | SET_TEXTURE_ADDRESS |
  SET_CONTROL0 | SET_LIGHT_CONTROL | SET_COLOR_MATERIAL | SET_FOG_MODE | SET_FOG_GEN_MODE | SET_FOG_ENABLE |
  SET_FOG_COLOR | SET_WINDOW_CLIP_TYPE | SET_WINDOW_CLIP_HORIZONTAL | SET_WINDOW_CLIP_VERTICAL.

(** Enables, tests and blending. *)
Inductive test_name :=
  SET_ALPHA_TEST_ENABLE | SET_BLEND_ENABLE | SET_CULL_FACE_ENABLE | SET_DEPTH_TEST_ENABLE | SET_DITHER_ENABLE |
  SET_LIGHTING_ENABLE | SET_POINT_PARAMS_ENABLE | SET_POINT_SMOOTH_ENABLE | SET_LINE_SMOOTH_ENABLE |
  SET_POLY_SMOOTH_ENABLE | SET_SKIN_MODE | SET_STENCIL_TEST_ENABLE | SET_POLY_OFFSET_POINT_ENABLE |
  SET_POLY_OFFSET_LINE_ENABLE | SET_POLY_OFFSET_FILL_ENABLE | SET_ALPHA_FUNC | SET_ALPHA_REF |
  SET_BLEND_FUNC_SFACTOR | SET_BLEND_FUNC_DFACTOR | SET_BLEND_COLOR | SET_BLEND_EQUATION | SET_DEPTH_FUNC |
  SET_COLOR_MASK | SET_DEPTH_MASK | SET_STENCIL_MASK | SET_STENCIL_FUNC | SET_STENCIL_FUNC_REF |
  SET_STENCIL_FUNC_MASK | SET_STENCIL_OP_FAIL | SET_STENCIL_OP_ZFAIL | SET_STENCIL_OP_ZPASS.

(** Rasterization and materials. *)
Inductive raster_name :=
  SET_SHADE_MODE | SET_PROVOKING_VERTEX | SET_POLYGON_OFFSET_SCALE_FACTOR | SET_POLYGON_OFFSET_BIAS |
  SET_FRONT_POLYGON_MODE | SET_BACK_POLYGON_MODE | SET_CLIP_MIN | SET_CLIP_MAX | SET_CULL_FACE | SET_FRONT_FACE |
  SET_NORMALIZATION_ENABLE | SET_MATERIAL_EMISSION | SET_MATERIAL_ALPHA | SET_SPECULAR_ENABLE | SET_LIGHT_ENABLE_MASK.

(** Texture coordinates, matrices, parameters of the transform engine. *)
Inductive transform_name :=
  SET_TEXGEN_S | SET_TEXGEN_T | SET_TEXGEN_R | SET_TEXGEN_Q | SET_TEXTURE_MATRIX_ENABLE | SET_POINT_SIZE |
  SET_PROJECTION_MATRIX | SET_MODEL_VIEW_MATRIX | SET_INVERSE_MODEL_VIEW_MATRIX | SET_COMPOSITE_MATRIX |
  SET_TEXTURE_MATRIX | SET_FOG_PARAMS | SET_TEXGEN_PLANE_S | SET_TEXGEN_VIEW_MODEL | SET_FOG_PLANE |
  SET_SPECULAR_PARAMS | SET_SCENE_AMBIENT_COLOR | SET_VIEWPORT_OFFSET | SET_POINT_PARAMS | SET_EYE_POSITION |
  SET_COMBINER_FACTOR0 | SET_COMBINER_FACTOR1 | SET_COMBINER_ALPHA_OCW | SET_COMBINER_COLOR_ICW |
  SET_COLOR_KEY_COLOR | SET_VIEWPORT_SCALE | SET_TRANSFORM_PROGRAM | SET_TRANSFORM_CONSTANT |
  SET_BACK_LIGHT_AMBIENT_COLOR | SET_LIGHT_AMBIENT_COLOR | SET_EYE_DIRECTION.

(** Vertices in immediate mode and the format of vertex arrays. *)
Inductive vertex_name :=
  SET_VERTEX3F | SET_VERTEX4F | SET_NORMAL3F | SET_NORMAL3S | SET_DIFFUSE_COLOR4F | SET_DIFFUSE_COLOR3F |
  SET_DIFFUSE_COLOR4UB | SET_SPECULAR_COLOR4F | SET_SPECULAR_COLOR3F | SET_SPECULAR_COLOR4UB |
  SET_TEXCOORD_2F (t : Z) | SET_TEXCOORD_4F (t : Z) | SET_TEXCOORD_2S (t : Z) | SET_TEXCOORD_4S (t : Z) |
  SET_FOG_COORD | SET_WEIGHT1F | SET_WEIGHT2F | SET_WEIGHT3F | SET_WEIGHT4F |
  SET_VERTEX_DATA_ARRAY_FORMAT | SET_VERTEX_DATA_ARRAY_OFFSET |
  SET_VERTEX_DATA2F_M | SET_VERTEX_DATA4F_M | SET_VERTEX_DATA2S | SET_VERTEX_DATA4UB | SET_VERTEX_DATA4S_M.

(** Drawing and reports. *)
Inductive draw_name :=
  SET_LOGIC_OP_ENABLE | SET_LOGIC_OP | CLEAR_REPORT_VALUE | SET_ZPASS_PIXEL_COUNT_ENABLE | GET_REPORT |
  SET_BEGIN_END | ARRAY_ELEMENT16 | ARRAY_ELEMENT32 | DRAW_ARRAYS | INLINE_ARRAY.

(** Textures. *)
Inductive texture_name :=
  SET_TEXTURE_OFFSET | SET_TEXTURE_FORMAT | SET_TEXTURE_CONTROL0 | SET_TEXTURE_CONTROL1 | SET_TEXTURE_FILTER |
  SET_TEXTURE_IMAGE_RECT | SET_TEXTURE_PALETTE | SET_TEXTURE_BORDER_COLOR | SET_TEXTURE_SET_BUMP_ENV_MAT |
  SET_TEXTURE_SET_BUMP_ENV_SCALE | SET_TEXTURE_SET_BUMP_ENV_OFFSET.

(** The back end, shader stages and transform programs. *)
Inductive backend_name :=
  SET_EYE_VECTOR | SET_SEMAPHORE_OFFSET | BACK_END_WRITE_SEMAPHORE_RELEASE | SET_ZMIN_MAX_CONTROL |
  SET_ANTI_ALIASING_CONTROL | SET_ZSTENCIL_CLEAR_VALUE | SET_COLOR_CLEAR_VALUE | CLEAR_SURFACE |
  SET_CLEAR_RECT_HORIZONTAL | SET_CLEAR_RECT_VERTICAL | SET_SPECULAR_FOG_FACTOR | SET_SPECULAR_PARAMS_BACK |
  SET_SHADER_CLIP_PLANE_MODE | SET_COMBINER_COLOR_OCW | SET_COMBINER_CONTROL | SET_SHADOW_ZSLOPE_THRESHOLD |
  SET_SHADOW_DEPTH_FUNC | SET_SHADER_STAGE_PROGRAM | SET_DOT_RGBMAPPING | SET_SHADER_OTHER_STAGE_INPUT |
  SET_TRANSFORM_DATA | LAUNCH_TRANSFORM_PROGRAM | SET_TRANSFORM_EXECUTION_MODE |
  SET_TRANSFORM_PROGRAM_CXT_WRITE_EN | SET_TRANSFORM_PROGRAM_LOAD | SET_TRANSFORM_PROGRAM_START |
  SET_TRANSFORM_CONSTANT_LOAD.

Inductive kelvin_name :=
  Control (n : control_name) | Surfaces (n : surface_name) | Shading (n : shading_name) | Tests (n : test_name) |
  Raster (n : raster_name) | Transform (n : transform_name) | Vertices (n : vertex_name) | Draws (n : draw_name) |
  Textures (n : texture_name) | BackEnd (n : backend_name).

Section methods.
Context {V R : Type} `{!VGACommon V} `{!Renderer V R}.
Abbreviation K := (KelvinState R).
Abbreviation D := (NV2AState V (KelvinState R)).

(** A condition stored in a field. *)
Definition flag (b : bool) : Z := if b then 1 else 0.
(** The surface methods let straggling draws in first. *)
Definition update_surfaces : M D unit := op_surface_update false true true.

Definition control_method (n : control_name) (subchannel method parameter : Z) : M D unit :=
  match n with
  | SET_OBJECT => set_k (λ k, k <| kelvin_object_instance := parameter |>)
  | NO_OPERATION =>
      if parameter =? 0 then mret tt
      else
        channel_id ← PG_GET_MASK NV_PGRAPH_CTX_USER NV_PGRAPH_CTX_USER_CHID;
        d ← gets id;
        assertM (negb (truthy (pg_pending (pgraph d) &&& NV_PGRAPH_INTR_ERROR)));;
        PG_SET_MASK NV_PGRAPH_TRAPPED_ADDR NV_PGRAPH_TRAPPED_ADDR_CHID channel_id;;
        PG_SET_MASK NV_PGRAPH_TRAPPED_ADDR NV_PGRAPH_TRAPPED_ADDR_SUBCH subchannel;;
        PG_SET_MASK NV_PGRAPH_TRAPPED_ADDR NV_PGRAPH_TRAPPED_ADDR_MTHD method;;
        pgraph_reg_w NV_PGRAPH_TRAPPED_DATA_LOW parameter;;
        pgraph_reg_w NV_PGRAPH_NSOURCE NV_PGRAPH_NSOURCE_NOTIFICATION;;
        set_pg (λ pg, pg <| pg_pending ::= λ p, p ||| NV_PGRAPH_INTR_ERROR |> <| waiting_for_nop := true |>);;
        nv2a_update_irq
  | WAIT_FOR_IDLE => update_surfaces
  | SET_FLIP_READ => PG_SET_MASK NV_PGRAPH_SURFACE NV_PGRAPH_SURFACE_READ_3D parameter
  | SET_FLIP_WRITE => PG_SET_MASK NV_PGRAPH_SURFACE NV_PGRAPH_SURFACE_WRITE_3D parameter
  | SET_FLIP_MODULO => PG_SET_MASK NV_PGRAPH_SURFACE NV_PGRAPH_SURFACE_MODULO_3D parameter
  | FLIP_INCREMENT_WRITE =>
      w ← PG_GET_MASK NV_PGRAPH_SURFACE NV_PGRAPH_SURFACE_WRITE_3D;
      m ← PG_GET_MASK NV_PGRAPH_SURFACE NV_PGRAPH_SURFACE_MODULO_3D;
      (if m =? 0 then raise DivByZero else mret tt);;
      PG_SET_MASK NV_PGRAPH_SURFACE NV_PGRAPH_SURFACE_WRITE_3D ((w + 1) mod m);;
      set_k (λ k, k <| frame_time ::= λ t, s32 (t + 1) |>)
  | FLIP_STALL =>
      update_surfaces;; op_flip_stall;;
      set_pg (λ pg, pg <| waiting_for_flip := true |>)
  | SET_CONTEXT_DMA_NOTIFIES => set_k (λ k, k <| dma_notifies := parameter |>)
  | SET_CONTEXT_DMA_A => set_k (λ k, k <| dma_a := parameter |>)
  | SET_CONTEXT_DMA_B => set_k (λ k, k <| dma_b := parameter |>)
  | SET_CONTEXT_DMA_STATE => set_k (λ k, k <| dma_state := parameter |>)
  | SET_CONTEXT_DMA_COLOR =>
      update_surfaces;;
      set_k (λ k, k <| dma_color := parameter |> <| surface_color ::= λ s, s <| buffer_dirty := true |> |>)
  | SET_CONTEXT_DMA_ZETA =>
      set_k (λ k, k <| dma_zeta := parameter |> <| surface_zeta ::= λ s, s <| buffer_dirty := true |> |>)
  | SET_CONTEXT_DMA_VERTEX_A => set_k (λ k, k <| dma_vertex_a := parameter |>)
  | SET_CONTEXT_DMA_VERTEX_B => set_k (λ k, k <| dma_vertex_b := parameter |>)
  | SET_CONTEXT_DMA_SEMAPHORE => set_k (λ k, k <| dma_semaphore := parameter |>)
  | SET_CONTEXT_DMA_REPORT => op_process_pending_reports;; set_k (λ k, k <| dma_report := parameter |>)
  end.

(** A surface gets a pitch or an offset; its buffer is dirty if that is a change. *)
Definition new_pitch (p : Z) (s : Surface) : Surface :=
  s <| buffer_dirty ::= λ b, b || negb (pitch s =? p) |> <| pitch := p |>.
Definition new_offset (o : Z) (s : Surface) : Surface :=
  s <| buffer_dirty ::= λ b, b || negb (surface_offset s =? o) |> <| surface_offset := o |>.

Definition surface_method (n : surface_name) (method parameter : Z) : M D unit :=
  let shape (f : SurfaceShape → SurfaceShape) := set_k (λ k, k <| surface_shape ::= f |>) in
  let field := GET_MASK parameter in
  update_surfaces;;
  match n with
  | SET_SURFACE_CLIP_HORIZONTAL =>
      shape (λ s, s <| clip_x := field NV097_SET_SURFACE_CLIP_HORIZONTAL_X |>
                    <| clip_width := field NV097_SET_SURFACE_CLIP_HORIZONTAL_WIDTH |>)
  | SET_SURFACE_CLIP_VERTICAL =>
      shape (λ s, s <| clip_y := field NV097_SET_SURFACE_CLIP_VERTICAL_Y |>
                    <| clip_height := field NV097_SET_SURFACE_CLIP_VERTICAL_HEIGHT |>)
  | SET_SURFACE_FORMAT =>
      shape (λ s, s <| shape_color_format := field NV097_SET_SURFACE_FORMAT_COLOR |>
                    <| zeta_format := field NV097_SET_SURFACE_FORMAT_ZETA |>
                    <| anti_aliasing := field NV097_SET_SURFACE_FORMAT_ANTI_ALIASING |>
                    <| log_width := field NV097_SET_SURFACE_FORMAT_WIDTH |>
                    <| log_height := field NV097_SET_SURFACE_FORMAT_HEIGHT |>);;
      k ← kstate;
      whenM (negb (field NV097_SET_SURFACE_FORMAT_TYPE =? surface_type k))
        (set_k (λ k, k <| surface_type := field NV097_SET_SURFACE_FORMAT_TYPE |>
                       <| surface_color ::= λ s, s <| buffer_dirty := true |> |>
                       <| surface_zeta ::= λ s, s <| buffer_dirty := true |> |>))
  | SET_SURFACE_PITCH =>
      set_k (λ k, k <| surface_color ::= new_pitch (field NV097_SET_SURFACE_PITCH_COLOR) |>
                    <| surface_zeta ::= new_pitch (field NV097_SET_SURFACE_PITCH_ZETA) |>)
  | SET_SURFACE_COLOR_OFFSET => set_k (λ k, k <| surface_color ::= new_offset parameter |>)
  | SET_SURFACE_ZETA_OFFSET => set_k (λ k, k <| surface_zeta ::= new_offset parameter |>)
  end.

(** The slot of a method in its range. *)
Definition slot_of (method base size : Z) : Z := u32 (method - base) / size.

Definition shading_method (n : shading_name) (method parameter : Z) : M D unit :=
  match n with
  | SET_COMBINER_ALPHA_ICW =>
      pgraph_reg_w (NV_PGRAPH_COMBINEALPHAI0 + slot_of method NV097_SET_COMBINER_ALPHA_ICW 4 * 4) parameter
  | SET_COMBINER_SPECULAR_FOG_CW0 => pgraph_reg_w NV_PGRAPH_COMBINESPECFOG0 parameter
  | SET_COMBINER_SPECULAR_FOG_CW1 => pgraph_reg_w NV_PGRAPH_COMBINESPECFOG1 parameter
  | SET_TEXTURE_ADDRESS =>
      pgraph_reg_w (NV_PGRAPH_TEXADDRESS0 + slot_of method NV097_SET_TEXTURE_ADDRESS 64 * 4) parameter
  | SET_CONTROL0 =>
      update_surfaces;;
      PG_SET_MASK NV_PGRAPH_CONTROL_0 NV_PGRAPH_CONTROL_0_STENCIL_WRITE_ENABLE
        (flag (truthy (parameter &&& NV097_SET_CONTROL0_STENCIL_WRITE_ENABLE)));;
      PG_SET_MASK NV_PGRAPH_SETUPRASTER NV_PGRAPH_SETUPRASTER_Z_FORMAT
        (GET_MASK parameter NV097_SET_CONTROL0_Z_FORMAT);;
      PG_SET_MASK NV_PGRAPH_CONTROL_0 NV_PGRAPH_CONTROL_0_Z_PERSPECTIVE_ENABLE
        (flag (truthy (parameter &&& NV097_SET_CONTROL0_Z_PERSPECTIVE_ENABLE)))
  | SET_LIGHT_CONTROL =>
      PG_SET_MASK NV_PGRAPH_CSV0_C NV_PGRAPH_CSV0_C_SEPARATE_SPECULAR
        (flag (truthy (parameter &&& NV097_SET_LIGHT_CONTROL_SEPARATE_SPECULAR)));;
      PG_SET_MASK NV_PGRAPH_CSV0_C NV_PGRAPH_CSV0_C_LOCALEYE
        (flag (truthy (parameter &&& NV097_SET_LIGHT_CONTROL_LOCALEYE)));;
      PG_SET_MASK NV_PGRAPH_CSV0_C NV_PGRAPH_CSV0_C_ALPHA_FROM_MATERIAL_SPECULAR
        (flag (truthy (parameter &&& NV097_SET_LIGHT_CONTROL_ALPHA_FROM_MATERIAL_SPECULAR)))
  | SET_COLOR_MATERIAL =>
      PG_SET_MASK NV_PGRAPH_CSV0_C NV_PGRAPH_CSV0_C_EMISSION ((parameter >>> 0) &&& 3);;
      PG_SET_MASK NV_PGRAPH_CSV0_C NV_PGRAPH_CSV0_C_AMBIENT ((parameter >>> 2) &&& 3);;
      PG_SET_MASK NV_PGRAPH_CSV0_C NV_PGRAPH_CSV0_C_DIFFUSE ((parameter >>> 4) &&& 3);;
      PG_SET_MASK NV_PGRAPH_CSV0_C NV_PGRAPH_CSV0_C_SPECULAR ((parameter >>> 6) &&& 3)
  | SET_FOG_MODE =>
      mode ← switch [(NV097_SET_FOG_MODE_V_LINEAR, NV_PGRAPH_CONTROL_3_FOG_MODE_LINEAR);
                     (NV097_SET_FOG_MODE_V_EXP, NV_PGRAPH_CONTROL_3_FOG_MODE_EXP);
                     (NV097_SET_FOG_MODE_V_EXP2, NV_PGRAPH_CONTROL_3_FOG_MODE_EXP2);
                     (NV097_SET_FOG_MODE_V_EXP_ABS, NV_PGRAPH_CONTROL_3_FOG_MODE_EXP_ABS);
                     (NV097_SET_FOG_MODE_V_EXP2_ABS, NV_PGRAPH_CONTROL_3_FOG_MODE_EXP2_ABS);
                     (NV097_SET_FOG_MODE_V_LINEAR_ABS, NV_PGRAPH_CONTROL_3_FOG_MODE_LINEAR_ABS)]
               parameter;
      PG_SET_MASK NV_PGRAPH_CONTROL_3 NV_PGRAPH_CONTROL_3_FOG_MODE mode
  | SET_FOG_GEN_MODE =>
      mode ← switch [(NV097_SET_FOG_GEN_MODE_V_SPEC_ALPHA, NV_PGRAPH_CSV0_D_FOGGENMODE_SPEC_ALPHA);
                     (NV097_SET_FOG_GEN_MODE_V_RADIAL, NV_PGRAPH_CSV0_D_FOGGENMODE_RADIAL);
                     (NV097_SET_FOG_GEN_MODE_V_PLANAR, NV_PGRAPH_CSV0_D_FOGGENMODE_PLANAR);
                     (NV097_SET_FOG_GEN_MODE_V_ABS_PLANAR, NV_PGRAPH_CSV0_D_FOGGENMODE_ABS_PLANAR);
                     (NV097_SET_FOG_GEN_MODE_V_FOG_X, NV_PGRAPH_CSV0_D_FOGGENMODE_FOG_X)]
               parameter;
      PG_SET_MASK NV_PGRAPH_CSV0_D NV_PGRAPH_CSV0_D_FOGGENMODE mode
  | SET_FOG_ENABLE => PG_SET_MASK NV_PGRAPH_CONTROL_3 NV_PGRAPH_CONTROL_3_FOGENABLE parameter
  | SET_FOG_COLOR =>
      PG_SET_MASK NV_PGRAPH_FOGCOLOR NV_PGRAPH_FOGCOLOR_RED (u8 (GET_MASK parameter NV097_SET_FOG_COLOR_RED));;
      PG_SET_MASK NV_PGRAPH_FOGCOLOR NV_PGRAPH_FOGCOLOR_GREEN (u8 (GET_MASK parameter NV097_SET_FOG_COLOR_GREEN));;
      PG_SET_MASK NV_PGRAPH_FOGCOLOR NV_PGRAPH_FOGCOLOR_BLUE (u8 (GET_MASK parameter NV097_SET_FOG_COLOR_BLUE));;
      PG_SET_MASK NV_PGRAPH_FOGCOLOR NV_PGRAPH_FOGCOLOR_ALPHA (u8 (GET_MASK parameter NV097_SET_FOG_COLOR_ALPHA))
  | SET_WINDOW_CLIP_TYPE => PG_SET_MASK NV_PGRAPH_SETUPRASTER NV_PGRAPH_SETUPRASTER_WINDOWCLIPTYPE parameter
  | SET_WINDOW_CLIP_HORIZONTAL =>
      let slot := slot_of method NV097_SET_WINDOW_CLIP_HORIZONTAL 4 in
      forM (seqZ slot (8 - slot)) (λ slot, pgraph_reg_w (NV_PGRAPH_WINDOWCLIPX0 + slot * 4) parameter)
  | SET_WINDOW_CLIP_VERTICAL =>
      let slot := slot_of method NV097_SET_WINDOW_CLIP_VERTICAL 4 in
      forM (seqZ slot (8 - slot)) (λ slot, pgraph_reg_w (NV_PGRAPH_WINDOWCLIPY0 + slot * 4) parameter)
  end.

(** The factors and equations of blending; other values change nothing. *)
Definition blend_sfactors : list (Z * Z) :=
  [(NV097_SET_BLEND_FUNC_SFACTOR_V_ZERO, NV_PGRAPH_BLEND_SFACTOR_ZERO);
   (NV097_SET_BLEND_FUNC_SFACTOR_V_ONE, NV_PGRAPH_BLEND_SFACTOR_ONE);
   (NV097_SET_BLEND_FUNC_SFACTOR_V_SRC_COLOR, NV_PGRAPH_BLEND_SFACTOR_SRC_COLOR);
   (NV097_SET_BLEND_FUNC_SFACTOR_V_ONE_MINUS_SRC_COLOR, NV_PGRAPH_BLEND_SFACTOR_ONE_MINUS_SRC_COLOR);
   (NV097_SET_BLEND_FUNC_SFACTOR_V_SRC_ALPHA, NV_PGRAPH_BLEND_SFACTOR_SRC_ALPHA);
   (NV097_SET_BLEND_FUNC_SFACTOR_V_ONE_MINUS_SRC_ALPHA, NV_PGRAPH_BLEND_SFACTOR_ONE_MINUS_SRC_ALPHA);
   (NV097_SET_BLEND_FUNC_SFACTOR_V_DST_ALPHA, NV_PGRAPH_BLEND_SFACTOR_DST_ALPHA);
   (NV097_SET_BLEND_FUNC_SFACTOR_V_ONE_MINUS_DST_ALPHA, NV_PGRAPH_BLEND_SFACTOR_ONE_MINUS_DST_ALPHA);
   (NV097_SET_BLEND_FUNC_SFACTOR_V_DST_COLOR, NV_PGRAPH_BLEND_SFACTOR_DST_COLOR);
   (NV097_SET_BLEND_FUNC_SFACTOR_V_ONE_MINUS_DST_COLOR, NV_PGRAPH_BLEND_SFACTOR_ONE_MINUS_DST_COLOR);
   (NV097_SET_BLEND_FUNC_SFACTOR_V_SRC_ALPHA_SATURATE, NV_PGRAPH_BLEND_SFACTOR_SRC_ALPHA_SATURATE);
   (NV097_SET_BLEND_FUNC_SFACTOR_V_CONSTANT_COLOR, NV_PGRAPH_BLEND_SFACTOR_CONSTANT_COLOR);
   (NV097_SET_BLEND_FUNC_SFACTOR_V_ONE_MINUS_CONSTANT_COLOR, NV_PGRAPH_BLEND_SFACTOR_ONE_MINUS_CONSTANT_COLOR);
   (NV097_SET_BLEND_FUNC_SFACTOR_V_CONSTANT_ALPHA, NV_PGRAPH_BLEND_SFACTOR_CONSTANT_ALPHA);
   (NV097_SET_BLEND_FUNC_SFACTOR_V_ONE_MINUS_CONSTANT_ALPHA, NV_PGRAPH_BLEND_SFACTOR_ONE_MINUS_CONSTANT_ALPHA)].
Definition blend_dfactors : list (Z * Z) :=
  [(NV097_SET_BLEND_FUNC_DFACTOR_V_ZERO, NV_PGRAPH_BLEND_DFACTOR_ZERO);
   (NV097_SET_BLEND_FUNC_DFACTOR_V_ONE, NV_PGRAPH_BLEND_DFACTOR_ONE);
   (NV097_SET_BLEND_FUNC_DFACTOR_V_SRC_COLOR, NV_PGRAPH_BLEND_DFACTOR_SRC_COLOR);
   (NV097_SET_BLEND_FUNC_DFACTOR_V_ONE_MINUS_SRC_COLOR, NV_PGRAPH_BLEND_DFACTOR_ONE_MINUS_SRC_COLOR);
   (NV097_SET_BLEND_FUNC_DFACTOR_V_SRC_ALPHA, NV_PGRAPH_BLEND_DFACTOR_SRC_ALPHA);
   (NV097_SET_BLEND_FUNC_DFACTOR_V_ONE_MINUS_SRC_ALPHA, NV_PGRAPH_BLEND_DFACTOR_ONE_MINUS_SRC_ALPHA);
   (NV097_SET_BLEND_FUNC_DFACTOR_V_DST_ALPHA, NV_PGRAPH_BLEND_DFACTOR_DST_ALPHA);
   (NV097_SET_BLEND_FUNC_DFACTOR_V_ONE_MINUS_DST_ALPHA, NV_PGRAPH_BLEND_DFACTOR_ONE_MINUS_DST_ALPHA);
   (NV097_SET_BLEND_FUNC_DFACTOR_V_DST_COLOR, NV_PGRAPH_BLEND_DFACTOR_DST_COLOR);
   (NV097_SET_BLEND_FUNC_DFACTOR_V_ONE_MINUS_DST_COLOR, NV_PGRAPH_BLEND_DFACTOR_ONE_MINUS_DST_COLOR);
   (NV097_SET_BLEND_FUNC_DFACTOR_V_SRC_ALPHA_SATURATE, NV_PGRAPH_BLEND_DFACTOR_SRC_ALPHA_SATURATE);
   (NV097_SET_BLEND_FUNC_DFACTOR_V_CONSTANT_COLOR, NV_PGRAPH_BLEND_DFACTOR_CONSTANT_COLOR);
   (NV097_SET_BLEND_FUNC_DFACTOR_V_ONE_MINUS_CONSTANT_COLOR, NV_PGRAPH_BLEND_DFACTOR_ONE_MINUS_CONSTANT_COLOR);
   (NV097_SET_BLEND_FUNC_DFACTOR_V_CONSTANT_ALPHA, NV_PGRAPH_BLEND_DFACTOR_CONSTANT_ALPHA);
   (NV097_SET_BLEND_FUNC_DFACTOR_V_ONE_MINUS_CONSTANT_ALPHA, NV_PGRAPH_BLEND_DFACTOR_ONE_MINUS_CONSTANT_ALPHA)].
Definition blend_equations : list (Z * Z) :=
  [(NV097_SET_BLEND_EQUATION_V_FUNC_SUBTRACT, 0); (NV097_SET_BLEND_EQUATION_V_FUNC_REVERSE_SUBTRACT, 1);
   (NV097_SET_BLEND_EQUATION_V_FUNC_ADD, 2); (NV097_SET_BLEND_EQUATION_V_MIN, 3);
   (NV097_SET_BLEND_EQUATION_V_MAX, 4); (NV097_SET_BLEND_EQUATION_V_FUNC_REVERSE_SUBTRACT_SIGNED, 5);
   (NV097_SET_BLEND_EQUATION_V_FUNC_ADD_SIGNED, 6)].

Definition test_method (n : test_name) (parameter : Z) : M D unit :=
  match n with
  | SET_ALPHA_TEST_ENABLE => PG_SET_MASK NV_PGRAPH_CONTROL_0 NV_PGRAPH_CONTROL_0_ALPHATESTENABLE parameter
  | SET_BLEND_ENABLE => PG_SET_MASK NV_PGRAPH_BLEND NV_PGRAPH_BLEND_EN parameter
  | SET_CULL_FACE_ENABLE => PG_SET_MASK NV_PGRAPH_SETUPRASTER NV_PGRAPH_SETUPRASTER_CULLENABLE parameter
  | SET_DEPTH_TEST_ENABLE => PG_SET_MASK NV_PGRAPH_CONTROL_0 NV_PGRAPH_CONTROL_0_ZENABLE parameter
  | SET_DITHER_ENABLE => PG_SET_MASK NV_PGRAPH_CONTROL_0 NV_PGRAPH_CONTROL_0_DITHERENABLE parameter
  | SET_LIGHTING_ENABLE => PG_SET_MASK NV_PGRAPH_CSV0_C NV_PGRAPH_CSV0_C_LIGHTING parameter
  | SET_POINT_PARAMS_ENABLE =>
      PG_SET_MASK NV_PGRAPH_CSV0_D NV_PGRAPH_CSV0_D_POINTPARAMSENABLE parameter;;
      PG_SET_MASK NV_PGRAPH_CONTROL_3 NV_PGRAPH_CONTROL_3_POINTPARAMSENABLE parameter
  | SET_POINT_SMOOTH_ENABLE => PG_SET_MASK NV_PGRAPH_SETUPRASTER NV_PGRAPH_SETUPRASTER_POINTSMOOTHENABLE parameter
  | SET_LINE_SMOOTH_ENABLE => PG_SET_MASK NV_PGRAPH_SETUPRASTER NV_PGRAPH_SETUPRASTER_LINESMOOTHENABLE parameter
  | SET_POLY_SMOOTH_ENABLE => PG_SET_MASK NV_PGRAPH_SETUPRASTER NV_PGRAPH_SETUPRASTER_POLYSMOOTHENABLE parameter
  | SET_SKIN_MODE => PG_SET_MASK NV_PGRAPH_CSV0_D NV_PGRAPH_CSV0_D_SKIN parameter
  | SET_STENCIL_TEST_ENABLE => PG_SET_MASK NV_PGRAPH_CONTROL_1 NV_PGRAPH_CONTROL_1_STENCIL_TEST_ENABLE parameter
  | SET_POLY_OFFSET_POINT_ENABLE => PG_SET_MASK NV_PGRAPH_SETUPRASTER NV_PGRAPH_SETUPRASTER_POFFSETPOINTENABLE parameter
  | SET_POLY_OFFSET_LINE_ENABLE => PG_SET_MASK NV_PGRAPH_SETUPRASTER NV_PGRAPH_SETUPRASTER_POFFSETLINEENABLE parameter
  | SET_POLY_OFFSET_FILL_ENABLE => PG_SET_MASK NV_PGRAPH_SETUPRASTER NV_PGRAPH_SETUPRASTER_POFFSETFILLENABLE parameter
  | SET_ALPHA_FUNC => PG_SET_MASK NV_PGRAPH_CONTROL_0 NV_PGRAPH_CONTROL_0_ALPHAFUNC (parameter &&& 0xF)
  | SET_ALPHA_REF => PG_SET_MASK NV_PGRAPH_CONTROL_0 NV_PGRAPH_CONTROL_0_ALPHAREF parameter
  | SET_BLEND_FUNC_SFACTOR =>
      match look blend_sfactors parameter with
      | Some factor => PG_SET_MASK NV_PGRAPH_BLEND NV_PGRAPH_BLEND_SFACTOR factor
      | None => mret tt
      end
  | SET_BLEND_FUNC_DFACTOR =>
      match look blend_dfactors parameter with
      | Some factor => PG_SET_MASK NV_PGRAPH_BLEND NV_PGRAPH_BLEND_DFACTOR factor
      | None => mret tt
      end
  | SET_BLEND_COLOR => pgraph_reg_w NV_PGRAPH_BLENDCOLOR parameter
  | SET_BLEND_EQUATION =>
      match look blend_equations parameter with
      | Some equation => PG_SET_MASK NV_PGRAPH_BLEND NV_PGRAPH_BLEND_EQN equation
      | None => mret tt
      end
  | SET_DEPTH_FUNC =>
      whenM ((0x200 <=? parameter) && (parameter <=? 0x207))
        (PG_SET_MASK NV_PGRAPH_CONTROL_0 NV_PGRAPH_CONTROL_0_ZFUNC (parameter &&& 0xF))
  | SET_COLOR_MASK =>
      enabled ← pgraph_color_write_enabled;
      set_k (λ k, k <| surface_color ::= λ s, s <| write_enabled_cache ::= λ b, b || enabled |> |>);;
      PG_SET_MASK NV_PGRAPH_CONTROL_0 NV_PGRAPH_CONTROL_0_ALPHA_WRITE_ENABLE
        (flag (truthy (parameter &&& NV097_SET_COLOR_MASK_ALPHA_WRITE_ENABLE)));;
      PG_SET_MASK NV_PGRAPH_CONTROL_0 NV_PGRAPH_CONTROL_0_RED_WRITE_ENABLE
        (flag (truthy (parameter &&& NV097_SET_COLOR_MASK_RED_WRITE_ENABLE)));;
      PG_SET_MASK NV_PGRAPH_CONTROL_0 NV_PGRAPH_CONTROL_0_GREEN_WRITE_ENABLE
        (flag (truthy (parameter &&& NV097_SET_COLOR_MASK_GREEN_WRITE_ENABLE)));;
      PG_SET_MASK NV_PGRAPH_CONTROL_0 NV_PGRAPH_CONTROL_0_BLUE_WRITE_ENABLE
        (flag (truthy (parameter &&& NV097_SET_COLOR_MASK_BLUE_WRITE_ENABLE)))
  | SET_DEPTH_MASK =>
      enabled ← pgraph_zeta_write_enabled;
      set_k (λ k, k <| surface_zeta ::= λ s, s <| write_enabled_cache ::= λ b, b || enabled |> |>);;
      PG_SET_MASK NV_PGRAPH_CONTROL_0 NV_PGRAPH_CONTROL_0_ZWRITEENABLE parameter
  | SET_STENCIL_MASK => PG_SET_MASK NV_PGRAPH_CONTROL_1 NV_PGRAPH_CONTROL_1_STENCIL_MASK_WRITE parameter
  | SET_STENCIL_FUNC => PG_SET_MASK NV_PGRAPH_CONTROL_1 NV_PGRAPH_CONTROL_1_STENCIL_FUNC (parameter &&& 0xF)
  | SET_STENCIL_FUNC_REF => PG_SET_MASK NV_PGRAPH_CONTROL_1 NV_PGRAPH_CONTROL_1_STENCIL_REF parameter
  | SET_STENCIL_FUNC_MASK => PG_SET_MASK NV_PGRAPH_CONTROL_1 NV_PGRAPH_CONTROL_1_STENCIL_MASK_READ parameter
  | SET_STENCIL_OP_FAIL =>
      op ← kelvin_map_stencil_op parameter; PG_SET_MASK NV_PGRAPH_CONTROL_2 NV_PGRAPH_CONTROL_2_STENCIL_OP_FAIL op
  | SET_STENCIL_OP_ZFAIL =>
      op ← kelvin_map_stencil_op parameter; PG_SET_MASK NV_PGRAPH_CONTROL_2 NV_PGRAPH_CONTROL_2_STENCIL_OP_ZFAIL op
  | SET_STENCIL_OP_ZPASS =>
      op ← kelvin_map_stencil_op parameter; PG_SET_MASK NV_PGRAPH_CONTROL_2 NV_PGRAPH_CONTROL_2_STENCIL_OP_ZPASS op
  end.

Definition raster_method (n : raster_name) (method parameter : Z) : M D unit :=
  match n with
  | SET_SHADE_MODE =>
      if parameter =? NV097_SET_SHADE_MODE_V_FLAT then
        PG_SET_MASK NV_PGRAPH_CONTROL_3 NV_PGRAPH_CONTROL_3_SHADEMODE NV_PGRAPH_CONTROL_3_SHADEMODE_FLAT
      else if parameter =? NV097_SET_SHADE_MODE_V_SMOOTH then
        PG_SET_MASK NV_PGRAPH_CONTROL_3 NV_PGRAPH_CONTROL_3_SHADEMODE NV_PGRAPH_CONTROL_3_SHADEMODE_SMOOTH
      else mret tt
  | SET_PROVOKING_VERTEX =>
      assertM ((parameter &&& not32 1) =? 0);;
      PG_SET_MASK NV_PGRAPH_CONTROL_3 NV_PGRAPH_CONTROL_3_PROVOKING_VERTEX parameter
  | SET_POLYGON_OFFSET_SCALE_FACTOR => pgraph_reg_w NV_PGRAPH_ZOFFSETFACTOR parameter
  | SET_POLYGON_OFFSET_BIAS => pgraph_reg_w NV_PGRAPH_ZOFFSETBIAS parameter
  | SET_FRONT_POLYGON_MODE =>
      mode ← kelvin_map_polygon_mode parameter;
      PG_SET_MASK NV_PGRAPH_SETUPRASTER NV_PGRAPH_SETUPRASTER_FRONTFACEMODE mode
  | SET_BACK_POLYGON_MODE =>
      mode ← kelvin_map_polygon_mode parameter;
      PG_SET_MASK NV_PGRAPH_SETUPRASTER NV_PGRAPH_SETUPRASTER_BACKFACEMODE mode
  | SET_CLIP_MIN => pgraph_reg_w NV_PGRAPH_ZCLIPMIN parameter
  | SET_CLIP_MAX => pgraph_reg_w NV_PGRAPH_ZCLIPMAX parameter
  | SET_CULL_FACE =>
      face ← switch [(NV097_SET_CULL_FACE_V_FRONT, NV_PGRAPH_SETUPRASTER_CULLCTRL_FRONT);
                     (NV097_SET_CULL_FACE_V_BACK, NV_PGRAPH_SETUPRASTER_CULLCTRL_BACK);
                     (NV097_SET_CULL_FACE_V_FRONT_AND_BACK, NV_PGRAPH_SETUPRASTER_CULLCTRL_FRONT_AND_BACK)]
               parameter;
      PG_SET_MASK NV_PGRAPH_SETUPRASTER NV_PGRAPH_SETUPRASTER_CULLCTRL face
  | SET_FRONT_FACE =>
      match look [(NV097_SET_FRONT_FACE_V_CW, 0); (NV097_SET_FRONT_FACE_V_CCW, 1)] parameter with
      | Some ccw => PG_SET_MASK NV_PGRAPH_SETUPRASTER NV_PGRAPH_SETUPRASTER_FRONTFACE ccw
      | None => mret tt
      end
  | SET_NORMALIZATION_ENABLE => PG_SET_MASK NV_PGRAPH_CSV0_C NV_PGRAPH_CSV0_C_NORMALIZATION_ENABLE parameter
  | SET_MATERIAL_EMISSION =>
      set_ltctxa NV_IGRAPH_XF_LTCTXA_CM_COL (slot_of method NV097_SET_MATERIAL_EMISSION 4) parameter
  | SET_MATERIAL_ALPHA => set_k (λ k, k <| material_alpha := parameter |>)
  | SET_SPECULAR_ENABLE => PG_SET_MASK NV_PGRAPH_CSV0_C NV_PGRAPH_CSV0_C_SPECULAR_ENABLE parameter
  | SET_LIGHT_ENABLE_MASK => PG_SET_MASK NV_PGRAPH_CSV0_D NV_PGRAPH_CSV0_D_LIGHTS parameter
  end.

(** Generation of the texture coordinate of a channel. *)
Definition set_texgen (slot parameter channel mask0 mask1 : Z) : M D unit :=
  texgen ← kelvin_map_texgen parameter channel;
  PG_SET_MASK (if slot <? 2 then NV_PGRAPH_CSV1_A else NV_PGRAPH_CSV1_B)
    (if truthy (slot mod 2) then mask1 else mask0) texgen.

(** An element of one of several 4 by 4 matrices of the constants, eight rows apart. *)
Definition set_matrix (row0 slot parameter : Z) : M D unit :=
  set_vsh_constant (row0 + slot / 16 * 8 + slot mod 16 / 4) (slot mod 16 mod 4) parameter.

(** The properties of a light: [part] is the address of the property for light 0. *)
Definition back_light (light part parameter : Z) : M D unit :=
  let within base len := (base <=? part) && (part <=? base + len) in
  assertM (light <? 8);;
  if within NV097_SET_BACK_LIGHT_AMBIENT_COLOR 8 then
    set_ltctxb (NV_IGRAPH_XF_LTCTXB_L0_BAMB + light * 6) ((part - NV097_SET_BACK_LIGHT_AMBIENT_COLOR) / 4) parameter
  else if within NV097_SET_BACK_LIGHT_DIFFUSE_COLOR 8 then
    set_ltctxb (NV_IGRAPH_XF_LTCTXB_L0_BDIF + light * 6) ((part - NV097_SET_BACK_LIGHT_DIFFUSE_COLOR) / 4) parameter
  else if within NV097_SET_BACK_LIGHT_SPECULAR_COLOR 8 then
    set_ltctxb (NV_IGRAPH_XF_LTCTXB_L0_BSPC + light * 6) ((part - NV097_SET_BACK_LIGHT_SPECULAR_COLOR) / 4) parameter
  else raise AssertFailed.

Definition light (light part parameter : Z) : M D unit :=
  let within base len := (base <=? part) && (part <=? base + len) in
  let word base := (part - base) / 4 in
  assertM (light <? 8);;
  if within NV097_SET_LIGHT_AMBIENT_COLOR 8 then
    set_ltctxb (NV_IGRAPH_XF_LTCTXB_L0_AMB + light * 6) (word NV097_SET_LIGHT_AMBIENT_COLOR) parameter
  else if within NV097_SET_LIGHT_DIFFUSE_COLOR 8 then
    set_ltctxb (NV_IGRAPH_XF_LTCTXB_L0_DIF + light * 6) (word NV097_SET_LIGHT_DIFFUSE_COLOR) parameter
  else if within NV097_SET_LIGHT_SPECULAR_COLOR 8 then
    set_ltctxb (NV_IGRAPH_XF_LTCTXB_L0_SPC + light * 6) (word NV097_SET_LIGHT_SPECULAR_COLOR) parameter
  else if part =? NV097_SET_LIGHT_LOCAL_RANGE then
    poke2 NV2A_LTC1_COUNT 4 (NV_IGRAPH_XF_LTC1_r0 + light) 0 (λ i j k,
      k <| ltc1 ::= <[i := parameter]> |> <| ltc1_dirty ::= <[j := true]> |>)
  else if within NV097_SET_LIGHT_INFINITE_HALF_VECTOR 8 then
    poke2 NV2A_MAX_LIGHTS 3 light (word NV097_SET_LIGHT_INFINITE_HALF_VECTOR) (λ i _ k,
      k <| light_infinite_half_vector ::= <[i := parameter]> |>)
  else if within NV097_SET_LIGHT_INFINITE_DIRECTION 8 then
    poke2 NV2A_MAX_LIGHTS 3 light (word NV097_SET_LIGHT_INFINITE_DIRECTION) (λ i _ k,
      k <| light_infinite_direction ::= <[i := parameter]> |>)
  else if within NV097_SET_LIGHT_SPOT_FALLOFF 8 then
    set_ltctxa (NV_IGRAPH_XF_LTCTXA_L0_K + light * 2) (word NV097_SET_LIGHT_SPOT_FALLOFF) parameter
  else if within NV097_SET_LIGHT_SPOT_DIRECTION 12 then
    set_ltctxa (NV_IGRAPH_XF_LTCTXA_L0_SPT + light * 2) (word NV097_SET_LIGHT_SPOT_DIRECTION) parameter
  else if within NV097_SET_LIGHT_LOCAL_POSITION 8 then
    poke2 NV2A_MAX_LIGHTS 3 light (word NV097_SET_LIGHT_LOCAL_POSITION) (λ i _ k,
      k <| light_local_position ::= <[i := parameter]> |>)
  else if within NV097_SET_LIGHT_LOCAL_ATTENUATION 8 then
    poke2 NV2A_MAX_LIGHTS 3 light (word NV097_SET_LIGHT_LOCAL_ATTENUATION) (λ i _ k,
      k <| light_local_attenuation ::= <[i := parameter]> |>)
  else raise AssertFailed.

Definition transform_method (n : transform_name) (method parameter : Z) : M D unit :=
  match n with
  | SET_TEXGEN_S =>
      set_texgen (slot_of method NV097_SET_TEXGEN_S 16) parameter 0 NV_PGRAPH_CSV1_A_T0_S NV_PGRAPH_CSV1_A_T1_S
  | SET_TEXGEN_T =>
      set_texgen (slot_of method NV097_SET_TEXGEN_T 16) parameter 1 NV_PGRAPH_CSV1_A_T0_T NV_PGRAPH_CSV1_A_T1_T
  | SET_TEXGEN_R =>
      set_texgen (slot_of method NV097_SET_TEXGEN_R 16) parameter 2 NV_PGRAPH_CSV1_A_T0_R NV_PGRAPH_CSV1_A_T1_R
  | SET_TEXGEN_Q =>
      set_texgen (slot_of method NV097_SET_TEXGEN_Q 16) parameter 3 NV_PGRAPH_CSV1_A_T0_Q NV_PGRAPH_CSV1_A_T1_Q
  | SET_TEXTURE_MATRIX_ENABLE =>
      poke NV2A_MAX_TEXTURES (slot_of method NV097_SET_TEXTURE_MATRIX_ENABLE 4) (λ i k,
        k <| texture_matrix_enable ::= <[i := truthy parameter]> |>)
  | SET_POINT_SIZE =>
      if NV097_SET_POINT_SIZE_V_MAX <? parameter then mret tt else pgraph_reg_w NV_PGRAPH_POINTSIZE parameter
  | SET_PROJECTION_MATRIX =>
      let slot := slot_of method NV097_SET_PROJECTION_MATRIX 4 in
      set_vsh_constant (NV_IGRAPH_XF_XFCTX_PMAT0 + slot / 4) (slot mod 4) parameter
  | SET_MODEL_VIEW_MATRIX =>
      set_matrix NV_IGRAPH_XF_XFCTX_MMAT0 (slot_of method NV097_SET_MODEL_VIEW_MATRIX 4) parameter
  | SET_INVERSE_MODEL_VIEW_MATRIX =>
      set_matrix NV_IGRAPH_XF_XFCTX_IMMAT0 (slot_of method NV097_SET_INVERSE_MODEL_VIEW_MATRIX 4) parameter
  | SET_COMPOSITE_MATRIX =>
      let slot := slot_of method NV097_SET_COMPOSITE_MATRIX 4 in
      set_vsh_constant (NV_IGRAPH_XF_XFCTX_CMAT0 + slot / 4) (slot mod 4) parameter
  | SET_TEXTURE_MATRIX =>
      set_matrix NV_IGRAPH_XF_XFCTX_T0MAT (slot_of method NV097_SET_TEXTURE_MATRIX 4) parameter
  | SET_FOG_PARAMS =>
      let slot := slot_of method NV097_SET_FOG_PARAMS 4 in
      whenM (slot <? 2) (pgraph_reg_w (NV_PGRAPH_FOGPARAM0 + slot * 4) parameter);;
      set_ltctxa NV_IGRAPH_XF_LTCTXA_FOG_K slot parameter
  | SET_TEXGEN_PLANE_S =>
      set_matrix NV_IGRAPH_XF_XFCTX_TG0MAT (slot_of method NV097_SET_TEXGEN_PLANE_S 4) parameter
  | SET_TEXGEN_VIEW_MODEL => PG_SET_MASK NV_PGRAPH_CSV0_D NV_PGRAPH_CSV0_D_TEXGEN_REF parameter
  | SET_FOG_PLANE => set_vsh_constant NV_IGRAPH_XF_XFCTX_FOG (slot_of method NV097_SET_FOG_PLANE 4) parameter
  | SET_SPECULAR_PARAMS =>
      let slot := slot_of method NV097_SET_SPECULAR_PARAMS 4 in
      poke 6 slot (λ i k, k <| specular_params ::= <[i := parameter]> |>);;
      whenM (slot =? 5)
        (set_k (λ k, k <| specular_power := reconstruct_specular_power (specular_params k) |>))
  | SET_SCENE_AMBIENT_COLOR =>
      set_ltctxa NV_IGRAPH_XF_LTCTXA_FR_AMB (slot_of method NV097_SET_SCENE_AMBIENT_COLOR 4) parameter
  | SET_VIEWPORT_OFFSET =>
      set_vsh_constant NV_IGRAPH_XF_XFCTX_VPOFF (slot_of method NV097_SET_VIEWPORT_OFFSET 4) parameter
  | SET_POINT_PARAMS =>
      poke 8 (slot_of method NV097_SET_POINT_PARAMS 4) (λ i k, k <| point_params ::= <[i := parameter]> |>)
  | SET_EYE_POSITION =>
      set_vsh_constant NV_IGRAPH_XF_XFCTX_EYEP (slot_of method NV097_SET_EYE_POSITION 4) parameter
  | SET_COMBINER_FACTOR0 =>
      pgraph_reg_w (NV_PGRAPH_COMBINEFACTOR0 + slot_of method NV097_SET_COMBINER_FACTOR0 4 * 4) parameter
  | SET_COMBINER_FACTOR1 =>
      pgraph_reg_w (NV_PGRAPH_COMBINEFACTOR1 + slot_of method NV097_SET_COMBINER_FACTOR1 4 * 4) parameter
  | SET_COMBINER_ALPHA_OCW =>
      pgraph_reg_w (NV_PGRAPH_COMBINEALPHAO0 + slot_of method NV097_SET_COMBINER_ALPHA_OCW 4 * 4) parameter
  | SET_COMBINER_COLOR_ICW =>
      pgraph_reg_w (NV_PGRAPH_COMBINECOLORI0 + slot_of method NV097_SET_COMBINER_COLOR_ICW 4 * 4) parameter
  | SET_COLOR_KEY_COLOR =>
      pgraph_reg_w (NV_PGRAPH_COLORKEYCOLOR0 + slot_of method NV097_SET_COLOR_KEY_COLOR 4 * 4) parameter
  | SET_VIEWPORT_SCALE =>
      set_vsh_constant NV_IGRAPH_XF_XFCTX_VPSCL (slot_of method NV097_SET_VIEWPORT_SCALE 4) parameter
  | SET_TRANSFORM_PROGRAM =>
      let slot := slot_of method NV097_SET_TRANSFORM_PROGRAM 4 in
      program_load ← PG_GET_MASK NV_PGRAPH_CHEOPS_OFFSET NV_PGRAPH_CHEOPS_OFFSET_PROG_LD_PTR;
      assertM (program_load <? NV2A_MAX_TRANSFORM_PROGRAM_LENGTH);;
      poke2 NV2A_MAX_TRANSFORM_PROGRAM_LENGTH 4 program_load (slot mod 4) (λ i _ k,
        k <| program_data ::= <[i := parameter]> |> <| program_data_dirty := true |>);;
      whenM (slot mod 4 =? 3)
        (PG_SET_MASK NV_PGRAPH_CHEOPS_OFFSET NV_PGRAPH_CHEOPS_OFFSET_PROG_LD_PTR (program_load + 1))
  | SET_TRANSFORM_CONSTANT =>
      let slot := slot_of method NV097_SET_TRANSFORM_CONSTANT 4 in
      const_load ← PG_GET_MASK NV_PGRAPH_CHEOPS_OFFSET NV_PGRAPH_CHEOPS_OFFSET_CONST_LD_PTR;
      assertM (const_load <? NV2A_VERTEXSHADER_CONSTANTS);;
      old ← vsh_constant const_load (slot mod 4);
      poke NV2A_VERTEXSHADER_CONSTANTS const_load (λ i k,
        k <| vsh_constants_dirty ::= alter (λ b, b || negb (parameter =? old)) i |>);;
      put_vsh_constant const_load (slot mod 4) parameter;;
      whenM (slot mod 4 =? 3)
        (PG_SET_MASK NV_PGRAPH_CHEOPS_OFFSET NV_PGRAPH_CHEOPS_OFFSET_CONST_LD_PTR (const_load + 1))
  | SET_BACK_LIGHT_AMBIENT_COLOR =>
      let slot := slot_of method NV097_SET_BACK_LIGHT_AMBIENT_COLOR 4 in
      back_light (slot / 16) (NV097_SET_BACK_LIGHT_AMBIENT_COLOR + slot mod 16 * 4) parameter
  | SET_LIGHT_AMBIENT_COLOR =>
      let slot := slot_of method NV097_SET_LIGHT_AMBIENT_COLOR 4 in
      light (slot / 32) (NV097_SET_LIGHT_AMBIENT_COLOR + slot mod 32 * 4) parameter
  | SET_EYE_DIRECTION =>
      set_ltctxa NV_IGRAPH_XF_LTCTXA_EYED (slot_of method NV097_SET_EYE_DIRECTION 4) parameter
  end.

(** New values of components of an attribute of the vertex being built. *)
Definition vertex_values (attr : Z) (values : list (Z * Z)) : M D unit :=
  pgraph_allocate_inline_buffer_vertices attr;;
  forM values (λ '(i, v), set_inline_value attr i v).

(** The 16-bit halves and the bytes of a parameter as numbers. *)
Definition low_short (parameter : Z) : Z := f32_of_Z (s16 (parameter &&& 0xFFFF)).
Definition high_short (parameter : Z) : Z := f32_of_Z (s16 (parameter >>> 16)).
Definition byte_of (parameter i : Z) : Z := (parameter >>> (8 * i)) &&& 0xFF.
(** [MAX(-1.0f, val / 32767.0f)]. *)
Definition normalized (val : Z) : Z := f32_max f32_m1 (f32_div val (f32_of_Z 32767)).

Definition color4ub (parameter : Z) : list (Z * Z) :=
  (λ i, (i, f32_div (f32_of_Z (byte_of parameter i)) (f32_of_Z 255))) <$> [0; 1; 2; 3].

(** The address of a method of texture coordinates [t], of those for coordinates 0 to 3. *)
Definition of_texcoord (t : Z) (bases : list Z) : Z := nth (Z.to_nat t) bases 0.

Definition set_array_format (slot parameter : Z) : M D unit :=
  let fmt := GET_MASK parameter NV097_SET_VERTEX_DATA_ARRAY_FORMAT_TYPE in
  let count := GET_MASK parameter NV097_SET_VERTEX_DATA_ARRAY_FORMAT_SIZE in
  set_attribute slot (λ a, a <| format := fmt |> <| attr_count := count |>
    <| stride := GET_MASK parameter NV097_SET_VERTEX_DATA_ARRAY_FORMAT_STRIDE |>);;
  size ← switch [(NV097_SET_VERTEX_DATA_ARRAY_FORMAT_TYPE_UB_D3D, 1);
                 (NV097_SET_VERTEX_DATA_ARRAY_FORMAT_TYPE_UB_OGL, 1);
                 (NV097_SET_VERTEX_DATA_ARRAY_FORMAT_TYPE_S1, 2);
                 (NV097_SET_VERTEX_DATA_ARRAY_FORMAT_TYPE_F, 4);
                 (NV097_SET_VERTEX_DATA_ARRAY_FORMAT_TYPE_S32K, 2);
                 (NV097_SET_VERTEX_DATA_ARRAY_FORMAT_TYPE_CMP, 4)] fmt;
  set_attribute slot (λ a, a <| attr_size := size |>);;
  whenM (fmt =? NV097_SET_VERTEX_DATA_ARRAY_FORMAT_TYPE_UB_D3D) (assertM (count =? 4));;
  whenM (fmt =? NV097_SET_VERTEX_DATA_ARRAY_FORMAT_TYPE_CMP) (assertM (count =? 1));;
  if fmt =? NV097_SET_VERTEX_DATA_ARRAY_FORMAT_TYPE_CMP then
    set_k (λ k, k <| compressed_attrs ::= λ c, u16 (c ||| (1 <<< slot)) |>)
  else set_k (λ k, k <| compressed_attrs ::= λ c, u16 (c &&& Z.lnot (1 <<< slot)) |>).

(** What a method of immediate mode says of the vertex being built: new values of
    components of an attribute, and whether the vertex is complete then. *)
Definition says_values : Type := Z * list (Z * Z) * bool.

Definition texcoord_2f (t method parameter : Z) : says_values :=
  let base := of_texcoord t [NV097_SET_TEXCOORD0_2F; NV097_SET_TEXCOORD1_2F;
                             NV097_SET_TEXCOORD2_2F; NV097_SET_TEXCOORD3_2F] in
  (NV2A_VERTEX_ATTR_TEXTURE0 + t, [(slot_of method base 4, parameter); (2, f32_0); (3, f32_1)], false).
Definition texcoord_4f (t method parameter : Z) : says_values :=
  let base := of_texcoord t [NV097_SET_TEXCOORD0_4F; NV097_SET_TEXCOORD1_4F;
                             NV097_SET_TEXCOORD2_4F; NV097_SET_TEXCOORD3_4F] in
  (NV2A_VERTEX_ATTR_TEXTURE0 + t, [(slot_of method base 4, parameter)], false).
Definition texcoord_2s (t parameter : Z) : says_values :=
  (NV2A_VERTEX_ATTR_TEXTURE0 + t,
   [(0, low_short parameter); (1, high_short parameter); (2, f32_0); (3, f32_1)], false).
Definition texcoord_4s (t method parameter : Z) : says_values :=
  let base := of_texcoord t [NV097_SET_TEXCOORD0_4S; NV097_SET_TEXCOORD1_4S;
                             NV097_SET_TEXCOORD2_4S; NV097_SET_TEXCOORD3_4S] in
  let part := slot_of method base 4 mod 2 in
  (NV2A_VERTEX_ATTR_TEXTURE0 + t,
   [(part * 2 + 0, low_short parameter); (part * 2 + 1, high_short parameter)], false).

Definition vertex_data2f_m (method parameter : Z) : says_values :=
  let slot := slot_of method NV097_SET_VERTEX_DATA2F_M 4 in
  (slot / 2, [(slot mod 2, parameter); (2, f32_0); (3, f32_1)], (slot / 2 =? 0) && (slot mod 2 =? 1)).
Definition vertex_data4f_m (method parameter : Z) : says_values :=
  let slot := slot_of method NV097_SET_VERTEX_DATA4F_M 4 in
  (slot / 4, [(slot mod 4, parameter)], (slot / 4 =? 0) && (slot mod 4 =? 3)).
Definition vertex_data2s (method parameter : Z) : says_values :=
  let slot := slot_of method NV097_SET_VERTEX_DATA2S 4 in
  (slot, [(0, low_short parameter); (1, high_short parameter); (2, f32_0); (3, f32_1)], slot =? 0).
Definition vertex_data4ub (method parameter : Z) : says_values :=
  let slot := slot_of method NV097_SET_VERTEX_DATA4UB 4 in
  (slot, (λ i, (i, f64_div (byte_of parameter i) 255)) <$> [0; 1; 2; 3], slot =? 0).
Definition vertex_data4s_m (method parameter : Z) : says_values :=
  let slot := slot_of method NV097_SET_VERTEX_DATA4S_M 4 in
  (slot / 2, [(slot mod 2 * 2 + 0, low_short parameter); (slot mod 2 * 2 + 1, high_short parameter)],
   (slot / 2 =? 0) && (slot mod 2 =? 1)).

Definition immediate (n : vertex_name) (method parameter : Z) : option says_values :=
  match n with
  | SET_VERTEX3F =>
      let slot := slot_of method NV097_SET_VERTEX3F 4 in
      Some (NV2A_VERTEX_ATTR_POSITION, [(slot, parameter); (3, f32_1)], (slot =? 2))
  | SET_VERTEX4F =>
      let slot := slot_of method NV097_SET_VERTEX4F 4 in
      Some (NV2A_VERTEX_ATTR_POSITION, [(slot, parameter)], (slot =? 3))
  | SET_NORMAL3F =>
      Some (NV2A_VERTEX_ATTR_NORMAL, [(slot_of method NV097_SET_NORMAL3F 4, parameter)], false)
  | SET_NORMAL3S =>
      let part := slot_of method NV097_SET_NORMAL3S 4 mod 2 in
      Some (NV2A_VERTEX_ATTR_NORMAL,
            [(part * 2 + 0, normalized (low_short parameter)); (part * 2 + 1, normalized (high_short parameter))], false)
  | SET_DIFFUSE_COLOR4F =>
      Some (NV2A_VERTEX_ATTR_DIFFUSE, [(slot_of method NV097_SET_DIFFUSE_COLOR4F 4, parameter)], false)
  | SET_DIFFUSE_COLOR3F =>
      Some (NV2A_VERTEX_ATTR_DIFFUSE, [(slot_of method NV097_SET_DIFFUSE_COLOR3F 4, parameter); (3, f32_1)], false)
  | SET_DIFFUSE_COLOR4UB => Some (NV2A_VERTEX_ATTR_DIFFUSE, color4ub parameter, false)
  | SET_SPECULAR_COLOR4F =>
      Some (NV2A_VERTEX_ATTR_SPECULAR, [(slot_of method NV097_SET_SPECULAR_COLOR4F 4, parameter)], false)
  | SET_SPECULAR_COLOR3F =>
      Some (NV2A_VERTEX_ATTR_SPECULAR, [(slot_of method NV097_SET_SPECULAR_COLOR3F 4, parameter); (3, f32_1)], false)
  | SET_SPECULAR_COLOR4UB => Some (NV2A_VERTEX_ATTR_SPECULAR, color4ub parameter, false)
  | SET_TEXCOORD_2F t => Some (texcoord_2f t method parameter)
  | SET_TEXCOORD_4F t => Some (texcoord_4f t method parameter)
  | SET_TEXCOORD_2S t => Some (texcoord_2s t parameter)
  | SET_TEXCOORD_4S t => Some (texcoord_4s t method parameter)
  | SET_FOG_COORD => Some (NV2A_VERTEX_ATTR_FOG, (λ i, (i, parameter)) <$> [0; 1; 2; 3], false)
  | SET_WEIGHT1F =>
      Some (NV2A_VERTEX_ATTR_WEIGHT, [(0, parameter); (1, f32_0); (2, f32_0); (3, f32_1)], false)
  | SET_WEIGHT2F =>
      Some (NV2A_VERTEX_ATTR_WEIGHT, [(slot_of method NV097_SET_WEIGHT2F 4, parameter); (2, f32_0); (3, f32_1)], false)
  | SET_WEIGHT3F =>
      Some (NV2A_VERTEX_ATTR_WEIGHT, [(slot_of method NV097_SET_WEIGHT3F 4, parameter); (3, f32_1)], false)
  | SET_WEIGHT4F => Some (NV2A_VERTEX_ATTR_WEIGHT, [(slot_of method NV097_SET_WEIGHT4F 4, parameter)], false)
  | SET_VERTEX_DATA2F_M => Some (vertex_data2f_m method parameter)
  | SET_VERTEX_DATA4F_M => Some (vertex_data4f_m method parameter)
  | SET_VERTEX_DATA2S => Some (vertex_data2s method parameter)
  | SET_VERTEX_DATA4UB => Some (vertex_data4ub method parameter)
  | SET_VERTEX_DATA4S_M => Some (vertex_data4s_m method parameter)
  | SET_VERTEX_DATA_ARRAY_FORMAT | SET_VERTEX_DATA_ARRAY_OFFSET => None
  end.

Definition submit (attr : Z) (values : list (Z * Z)) (complete : bool) : M D unit :=
  vertex_values attr values;; whenM complete pgraph_finish_inline_buffer_vertex.

Definition array_method (n : vertex_name) (method parameter : Z) : M D unit :=
  match n with
  | SET_VERTEX_DATA_ARRAY_FORMAT =>
      set_array_format (slot_of method NV097_SET_VERTEX_DATA_ARRAY_FORMAT 4) parameter
  | SET_VERTEX_DATA_ARRAY_OFFSET =>
      set_attribute (slot_of method NV097_SET_VERTEX_DATA_ARRAY_OFFSET 4) (λ a,
        a <| dma_select := truthy (parameter &&& 0x80000000) |> <| attr_offset := parameter &&& 0x7fffffff |>)
  | _ => mret tt
  end.

Definition vertex_method (n : vertex_name) (method parameter : Z) : M D unit :=
  match immediate n method parameter with
  | Some (attr, values, complete) => submit attr values complete
  | None => array_method n method parameter
  end.

(** A new draw of vertices [start] to [start + count - 1]: connected to the last if it
    continues it, else one more. *)
Definition add_draw (start count : Z) : M D unit :=
  set_k (λ k, k <| draw_arrays_min_start ::= λ m, Z.min m start |>
                <| draw_arrays_max_count ::= λ m, Z.max m (start + count) |>);;
  d ← gets id;
  let n := draw_arrays_length (pgraph d) in
  let k := drawing (pgraph d) in
  assertM (n <? DRAW_ARRAYS_MAX);;
  if negb (draw_arrays_prevent_connect (pgraph d)) && (0 <? n) &&
     (start =? u32 (u32 (draw_start k (n - 1)) + draw_count k (n - 1))) then
    set_k (λ k, k <| draw_arrays_count ::= <[n - 1 := s32 (draw_count k (n - 1) + count)]> |>)
  else
    set_k (λ k, k <| draw_arrays_start ::= <[n := start]> |> <| draw_arrays_count ::= <[n := count]> |>);;
    set_pg (λ pg, pg <| draw_arrays_length := n + 1 |> <| draw_arrays_prevent_connect := false |>).

Definition array_element16 (parameter : Z) : M D unit :=
  expand_pending;;
  d ← gets id;
  assertM (inline_elements_length (pgraph d) <? NV2A_MAX_BATCH_LENGTH);;
  push_element (parameter &&& 0xFFFF);; push_element (parameter >>> 16).
Definition array_element32 (parameter : Z) : M D unit :=
  expand_pending;;
  d ← gets id;
  assertM (inline_elements_length (pgraph d) <? NV2A_MAX_BATCH_LENGTH);;
  push_element parameter.
Definition draw_arrays (parameter : Z) : M D unit :=
  let start := GET_MASK parameter NV097_DRAW_ARRAYS_START_INDEX in
  let count := GET_MASK parameter NV097_DRAW_ARRAYS_COUNT + 1 in
  d ← gets id;
  if truthy (inline_elements_length (pgraph d)) then
    assertM (u32 (inline_elements_length (pgraph d) + count) <? NV2A_MAX_BATCH_LENGTH);;
    assertM (negb (draw_arrays_prevent_connect (pgraph d)));;
    forM (seqZ 0 count) (λ i, push_element (u32 (start + i)))
  else add_draw start count.
Definition inline_array_word (parameter : Z) : M D unit :=
  k ← kstate;
  assertM (inline_array_length k <? NV2A_MAX_BATCH_LENGTH);;
  set_k (λ k, k <| inline_array ::= <[inline_array_length k := parameter]> |>
                <| inline_array_length ::= λ n, n + 1 |>).

Definition draw_method (n : draw_name) (parameter : Z) : M D unit :=
  match n with
  | SET_LOGIC_OP_ENABLE => PG_SET_MASK NV_PGRAPH_BLEND NV_PGRAPH_BLEND_LOGICOP_ENABLE parameter
  | SET_LOGIC_OP => PG_SET_MASK NV_PGRAPH_BLEND NV_PGRAPH_BLEND_LOGICOP (parameter &&& 0xF)
  | CLEAR_REPORT_VALUE => op_clear_report_value
  | SET_ZPASS_PIXEL_COUNT_ENABLE => set_k (λ k, k <| zpass_pixel_count_enable := truthy parameter |>)
  | GET_REPORT =>
      assertM (u8 (GET_MASK parameter NV097_GET_REPORT_TYPE) =? NV097_GET_REPORT_TYPE_ZPASS_PIXEL_CNT);;
      op_get_report parameter
  | SET_BEGIN_END =>
      d ← gets id;
      let invalid := primitive_mode (pgraph d) =? PRIM_TYPE_INVALID in
      if parameter =? NV097_SET_BEGIN_END_OP_END then
        if invalid then pgraph_reset_inline_buffers
        else
          op_draw_end;; pgraph_reset_inline_buffers;;
          set_pg (λ pg, pg <| primitive_mode := PRIM_TYPE_INVALID |>)
      else if negb invalid then mret tt
      else
        assertM (parameter <=? NV097_SET_BEGIN_END_OP_POLYGON);;
        set_pg (λ pg, pg <| primitive_mode := parameter |>);;
        pgraph_reset_inline_buffers;; op_draw_begin
  | ARRAY_ELEMENT16 => array_element16 parameter
  | ARRAY_ELEMENT32 => array_element32 parameter
  | DRAW_ARRAYS => draw_arrays parameter
  | INLINE_ARRAY => inline_array_word parameter
  end.

(** A register of a texture stage, whose texture is dirty then. *)
Definition texture_touched (slot : Z) : M D unit :=
  poke NV2A_MAX_TEXTURES slot (λ i k, k <| texture_dirty ::= <[i := true]> |>).
Definition set_texture_reg (reg slot parameter : Z) : M D unit :=
  pgraph_reg_w (reg + slot * 4) parameter;; texture_touched slot.

Definition texture_method (n : texture_name) (method parameter : Z) : M D unit :=
  let field := GET_MASK parameter in
  match n with
  | SET_TEXTURE_OFFSET => set_texture_reg NV_PGRAPH_TEXOFFSET0 (slot_of method NV097_SET_TEXTURE_OFFSET 64) parameter
  | SET_TEXTURE_FORMAT =>
      let slot := slot_of method NV097_SET_TEXTURE_FORMAT 64 in
      let reg := NV_PGRAPH_TEXFMT0 + slot * 4 in
      PG_SET_MASK reg NV_PGRAPH_TEXFMT0_CONTEXT_DMA (flag (field NV097_SET_TEXTURE_FORMAT_CONTEXT_DMA =? 2));;
      PG_SET_MASK reg NV_PGRAPH_TEXFMT0_CUBEMAPENABLE (flag (truthy (field NV097_SET_TEXTURE_FORMAT_CUBEMAP_ENABLE)));;
      PG_SET_MASK reg NV_PGRAPH_TEXFMT0_BORDER_SOURCE (field NV097_SET_TEXTURE_FORMAT_BORDER_SOURCE);;
      PG_SET_MASK reg NV_PGRAPH_TEXFMT0_DIMENSIONALITY (field NV097_SET_TEXTURE_FORMAT_DIMENSIONALITY);;
      PG_SET_MASK reg NV_PGRAPH_TEXFMT0_COLOR (field NV097_SET_TEXTURE_FORMAT_COLOR);;
      PG_SET_MASK reg NV_PGRAPH_TEXFMT0_MIPMAP_LEVELS (field NV097_SET_TEXTURE_FORMAT_MIPMAP_LEVELS);;
      PG_SET_MASK reg NV_PGRAPH_TEXFMT0_BASE_SIZE_U (field NV097_SET_TEXTURE_FORMAT_BASE_SIZE_U);;
      PG_SET_MASK reg NV_PGRAPH_TEXFMT0_BASE_SIZE_V (field NV097_SET_TEXTURE_FORMAT_BASE_SIZE_V);;
      PG_SET_MASK reg NV_PGRAPH_TEXFMT0_BASE_SIZE_P (field NV097_SET_TEXTURE_FORMAT_BASE_SIZE_P);;
      texture_touched slot
  | SET_TEXTURE_CONTROL0 => set_texture_reg NV_PGRAPH_TEXCTL0_0 (slot_of method NV097_SET_TEXTURE_CONTROL0 64) parameter
  | SET_TEXTURE_CONTROL1 => set_texture_reg NV_PGRAPH_TEXCTL1_0 (slot_of method NV097_SET_TEXTURE_CONTROL1 64) parameter
  | SET_TEXTURE_FILTER => set_texture_reg NV_PGRAPH_TEXFILTER0 (slot_of method NV097_SET_TEXTURE_FILTER 64) parameter
  | SET_TEXTURE_IMAGE_RECT =>
      set_texture_reg NV_PGRAPH_TEXIMAGERECT0 (slot_of method NV097_SET_TEXTURE_IMAGE_RECT 64) parameter
  | SET_TEXTURE_PALETTE =>
      let slot := slot_of method NV097_SET_TEXTURE_PALETTE 64 in
      let reg := NV_PGRAPH_TEXPALETTE0 + slot * 4 in
      PG_SET_MASK reg NV_PGRAPH_TEXPALETTE0_CONTEXT_DMA (flag (field NV097_SET_TEXTURE_PALETTE_CONTEXT_DMA =? 1));;
      PG_SET_MASK reg NV_PGRAPH_TEXPALETTE0_LENGTH (field NV097_SET_TEXTURE_PALETTE_LENGTH);;
      PG_SET_MASK reg NV_PGRAPH_TEXPALETTE0_OFFSET (field NV097_SET_TEXTURE_PALETTE_OFFSET);;
      texture_touched slot
  | SET_TEXTURE_BORDER_COLOR =>
      pgraph_reg_w (NV_PGRAPH_BORDERCOLOR0 + slot_of method NV097_SET_TEXTURE_BORDER_COLOR 64 * 4) parameter
  | SET_TEXTURE_SET_BUMP_ENV_MAT =>
      let slot := slot_of method NV097_SET_TEXTURE_SET_BUMP_ENV_MAT 4 in
      if slot <? 16 then mret tt
      else
        let swizzle := [NV_PGRAPH_BUMPMAT00; NV_PGRAPH_BUMPMAT01; NV_PGRAPH_BUMPMAT11; NV_PGRAPH_BUMPMAT10] in
        pgraph_reg_w (nth (Z.to_nat ((slot - 16) mod 4)) swizzle 0 + (slot - 16) / 4) parameter
  | SET_TEXTURE_SET_BUMP_ENV_SCALE =>
      let slot := slot_of method NV097_SET_TEXTURE_SET_BUMP_ENV_SCALE 64 in
      if slot =? 0 then mret tt else pgraph_reg_w (NV_PGRAPH_BUMPSCALE1 + (slot - 1) * 4) parameter
  | SET_TEXTURE_SET_BUMP_ENV_OFFSET =>
      let slot := slot_of method NV097_SET_TEXTURE_SET_BUMP_ENV_OFFSET 64 in
      if slot =? 0 then mret tt else pgraph_reg_w (NV_PGRAPH_BUMPOFFSET1 + (slot - 1) * 4) parameter
  end.

(** The 4-byte store of a semaphore, at an offset below the limit of its context. *)
Definition release_semaphore (parameter : Z) : M D unit :=
  update_surfaces;;
  semaphore_offset ← pgraph_reg_r NV_PGRAPH_SEMAPHOREOFFSET;
  k ← kstate;
  '(address, len) ← nv_dma_map (dma_semaphore k);
  assertM (semaphore_offset <? len);;
  d ← gets id;
  vram' ← wr (vram d) (address + semaphore_offset) (le_bytes 4 parameter);
  modify (λ d, d <| vram := vram' |>).

Definition launch_transform_program (parameter : Z) : M D unit :=
  let program_start := u32 parameter in
  assertM (program_start <? NV2A_MAX_TRANSFORM_PROGRAM_LENGTH);;
  inBounds ((0 <=? program_start) && (program_start <? NV2A_MAX_TRANSFORM_PROGRAM_LENGTH));;
  d ← gets id;
  let k := drawing (pgraph d) in
  match nv2a_vsh (drop (Z.to_nat (program_start * 4)) (program_data k)) (vertex_state_shader_v0 k)
          (vsh_constants (pgraph d)) (vsh_constants_dirty k) with
  | None => raise AssertFailed
  | Some (constants, dirty) =>
      set_pg (λ pg, pg <| vsh_constants := constants |>);;
      set_k (λ k, k <| vsh_constants_dirty := dirty |>)
  end.

Definition backend_method (n : backend_name) (method parameter : Z) : M D unit :=
  match n with
  | SET_EYE_VECTOR => pgraph_reg_w (NV_PGRAPH_EYEVEC0 + slot_of method NV097_SET_EYE_VECTOR 4 * 4) parameter
  | SET_SEMAPHORE_OFFSET => pgraph_reg_w NV_PGRAPH_SEMAPHOREOFFSET parameter
  | BACK_END_WRITE_SEMAPHORE_RELEASE => release_semaphore parameter
  | SET_ZMIN_MAX_CONTROL =>
      clamp ← switch [(NV097_SET_ZMIN_MAX_CONTROL_ZCLAMP_EN_CULL, NV_PGRAPH_ZCOMPRESSOCCLUDE_ZCLAMP_EN_CULL);
                      (NV097_SET_ZMIN_MAX_CONTROL_ZCLAMP_EN_CLAMP, NV_PGRAPH_ZCOMPRESSOCCLUDE_ZCLAMP_EN_CLAMP)]
                (GET_MASK parameter NV097_SET_ZMIN_MAX_CONTROL_ZCLAMP_EN);
      PG_SET_MASK NV_PGRAPH_ZCOMPRESSOCCLUDE NV_PGRAPH_ZCOMPRESSOCCLUDE_ZCLAMP_EN clamp
  | SET_ANTI_ALIASING_CONTROL =>
      PG_SET_MASK NV_PGRAPH_ANTIALIASING NV_PGRAPH_ANTIALIASING_ENABLE
        (GET_MASK parameter NV097_SET_ANTI_ALIASING_CONTROL_ENABLE)
  | SET_ZSTENCIL_CLEAR_VALUE => pgraph_reg_w NV_PGRAPH_ZSTENCILCLEARVALUE parameter
  | SET_COLOR_CLEAR_VALUE => pgraph_reg_w NV_PGRAPH_COLORCLEARVALUE parameter
  | CLEAR_SURFACE => op_clear_surface parameter
  | SET_CLEAR_RECT_HORIZONTAL => pgraph_reg_w NV_PGRAPH_CLEARRECTX parameter
  | SET_CLEAR_RECT_VERTICAL => pgraph_reg_w NV_PGRAPH_CLEARRECTY parameter
  | SET_SPECULAR_FOG_FACTOR =>
      pgraph_reg_w (NV_PGRAPH_SPECFOGFACTOR0 + slot_of method NV097_SET_SPECULAR_FOG_FACTOR 4 * 4) parameter
  | SET_SPECULAR_PARAMS_BACK =>
      let slot := slot_of method NV097_SET_SPECULAR_PARAMS_BACK 4 in
      poke 6 slot (λ i k, k <| specular_params_back ::= <[i := parameter]> |>);;
      whenM (slot =? 5)
        (set_k (λ k, k <| specular_power_back := reconstruct_specular_power (specular_params_back k) |>))
  | SET_SHADER_CLIP_PLANE_MODE => pgraph_reg_w NV_PGRAPH_SHADERCLIPMODE parameter
  | SET_COMBINER_COLOR_OCW =>
      pgraph_reg_w (NV_PGRAPH_COMBINECOLORO0 + slot_of method NV097_SET_COMBINER_COLOR_OCW 4 * 4) parameter
  | SET_COMBINER_CONTROL => pgraph_reg_w NV_PGRAPH_COMBINECTL parameter
  | SET_SHADOW_ZSLOPE_THRESHOLD =>
      pgraph_reg_w NV_PGRAPH_SHADOWZSLOPETHRESHOLD parameter;; assertM (parameter =? 0x7F800000)
  | SET_SHADOW_DEPTH_FUNC => PG_SET_MASK NV_PGRAPH_SHADOWCTL NV_PGRAPH_SHADOWCTL_SHADOW_ZFUNC parameter
  | SET_SHADER_STAGE_PROGRAM => pgraph_reg_w NV_PGRAPH_SHADERPROG parameter
  | SET_DOT_RGBMAPPING => PG_SET_MASK NV_PGRAPH_SHADERCTL 0xFFF (GET_MASK parameter 0xFFF)
  | SET_SHADER_OTHER_STAGE_INPUT => PG_SET_MASK NV_PGRAPH_SHADERCTL 0xFFFF000 (GET_MASK parameter 0xFFFF000)
  | SET_TRANSFORM_DATA =>
      poke 4 (slot_of method NV097_SET_TRANSFORM_DATA 4) (λ i k, k <| vertex_state_shader_v0 ::= <[i := parameter]> |>)
  | LAUNCH_TRANSFORM_PROGRAM => launch_transform_program parameter
  | SET_TRANSFORM_EXECUTION_MODE =>
      PG_SET_MASK NV_PGRAPH_CSV0_D NV_PGRAPH_CSV0_D_MODE
        (GET_MASK parameter NV097_SET_TRANSFORM_EXECUTION_MODE_MODE);;
      PG_SET_MASK NV_PGRAPH_CSV0_D NV_PGRAPH_CSV0_D_RANGE_MODE
        (GET_MASK parameter NV097_SET_TRANSFORM_EXECUTION_MODE_RANGE_MODE)
  | SET_TRANSFORM_PROGRAM_CXT_WRITE_EN => set_k (λ k, k <| enable_vertex_program_write := truthy parameter |>)
  | SET_TRANSFORM_PROGRAM_LOAD =>
      assertM (parameter <? NV2A_MAX_TRANSFORM_PROGRAM_LENGTH);;
      PG_SET_MASK NV_PGRAPH_CHEOPS_OFFSET NV_PGRAPH_CHEOPS_OFFSET_PROG_LD_PTR parameter
  | SET_TRANSFORM_PROGRAM_START =>
      assertM (parameter <? NV2A_MAX_TRANSFORM_PROGRAM_LENGTH);;
      PG_SET_MASK NV_PGRAPH_CSV0_C NV_PGRAPH_CSV0_C_CHEOPS_PROGRAM_START parameter
  | SET_TRANSFORM_CONSTANT_LOAD =>
      assertM (parameter <? NV2A_VERTEXSHADER_CONSTANTS);;
      PG_SET_MASK NV_PGRAPH_CHEOPS_OFFSET NV_PGRAPH_CHEOPS_OFFSET_CONST_LD_PTR parameter
  end.

Definition kelvin_handler (n : kelvin_name) (subchannel method parameter : Z) : M D unit :=
  match n with
  | Control n => control_method n subchannel method parameter
  | Surfaces n => surface_method n method parameter
  | Shading n => shading_method n method parameter
  | Tests n => test_method n parameter
  | Raster n => raster_method n method parameter
  | Transform n => transform_method n method parameter
  | Vertices n => vertex_method n method parameter
  | Draws n => draw_method n parameter
  | Textures n => texture_method n method parameter
  | BackEnd n => backend_method n method parameter
  end.
End methods.

(** Unfolds a method of draws to its handler. *)
Ltac unfold_draw :=
  cbv beta iota delta [draw_method array_element16 array_element32 draw_arrays inline_array_word].
