(* ===== verification/KelvinTable.v ===== *)
(** * KelvinTable: the table of the 3D class and the null renderer

    [kelvin_table] is pgraph/methods.h.inc, line by line, with the way the handler of the
    method takes words (from its definition in pgraph/pgraph.c); [kelvin_lookup] is the array
    [pgraph_kelvin_methods] that the macros make of it.  With the handlers it is the
    [Engine] of the command FIFO.  The null renderer, pgraph/null/renderer.c, is an instance of
    [Renderer] for any emulator of transform programs. *)

From stdpp Require Import gmap.
From S2P Require Import Prelude.
From S2P Require Import Nv2aRegs.
From S2P Require Import KelvinRegs.
From S2P Require Import Nv2a.
From S2P Require Import Pgraph.
From S2P Require Import Kelvin.
From S2P Require Import KelvinMethods.

(** The macros of a line: DEF_METHOD, DEF_METHOD_RANGE, DEF_METHOD_CASE_4[_OFFSET]. *)
Inductive span := One | Range (n : Z) | Case4 (offset stride : Z).
(** The macros of the definition of a handler: DEF_METHOD, DEF_METHOD_INC, DEF_METHOD_NON_INC. *)
Inductive takes_words := Plain | Incr | NonIncr.

Definition kelvin_row : Type := kelvin_name * Z * span * takes_words.

Definition kelvin_table : list kelvin_row :=
  [
   (Control SET_OBJECT, NV097_SET_OBJECT, One, Plain);
   (Control NO_OPERATION, NV097_NO_OPERATION, One, Plain);
   (Control WAIT_FOR_IDLE, NV097_WAIT_FOR_IDLE, One, Plain);
   (Control SET_FLIP_READ, NV097_SET_FLIP_READ, One, Plain);
   (Control SET_FLIP_WRITE, NV097_SET_FLIP_WRITE, One, Plain);
   (Control SET_FLIP_MODULO, NV097_SET_FLIP_MODULO, One, Plain);
   (Control FLIP_INCREMENT_WRITE, NV097_FLIP_INCREMENT_WRITE, One, Plain);
   (Control FLIP_STALL, NV097_FLIP_STALL, One, Plain);
   (Control SET_CONTEXT_DMA_NOTIFIES, NV097_SET_CONTEXT_DMA_NOTIFIES, One, Plain);
   (Control SET_CONTEXT_DMA_A, NV097_SET_CONTEXT_DMA_A, One, Plain);
   (Control SET_CONTEXT_DMA_B, NV097_SET_CONTEXT_DMA_B, One, Plain);
   (Control SET_CONTEXT_DMA_STATE, NV097_SET_CONTEXT_DMA_STATE, One, Plain);
   (Control SET_CONTEXT_DMA_COLOR, NV097_SET_CONTEXT_DMA_COLOR, One, Plain);
   (Control SET_CONTEXT_DMA_ZETA, NV097_SET_CONTEXT_DMA_ZETA, One, Plain);
   (Control SET_CONTEXT_DMA_VERTEX_A, NV097_SET_CONTEXT_DMA_VERTEX_A, One, Plain);
   (Control SET_CONTEXT_DMA_VERTEX_B, NV097_SET_CONTEXT_DMA_VERTEX_B, One, Plain);
   (Control SET_CONTEXT_DMA_SEMAPHORE, NV097_SET_CONTEXT_DMA_SEMAPHORE, One, Plain);
   (Control SET_CONTEXT_DMA_REPORT, NV097_SET_CONTEXT_DMA_REPORT, One, Plain);
   (Surfaces SET_SURFACE_CLIP_HORIZONTAL, NV097_SET_SURFACE_CLIP_HORIZONTAL, One, Plain);
   (Surfaces SET_SURFACE_CLIP_VERTICAL, NV097_SET_SURFACE_CLIP_VERTICAL, One, Plain);
   (Surfaces SET_SURFACE_FORMAT, NV097_SET_SURFACE_FORMAT, One, Plain);
   (Surfaces SET_SURFACE_PITCH, NV097_SET_SURFACE_PITCH, One, Plain);
   (Surfaces SET_SURFACE_COLOR_OFFSET, NV097_SET_SURFACE_COLOR_OFFSET, One, Plain);
   (Surfaces SET_SURFACE_ZETA_OFFSET, NV097_SET_SURFACE_ZETA_OFFSET, One, Plain);
   (Shading SET_COMBINER_ALPHA_ICW, NV097_SET_COMBINER_ALPHA_ICW, Range 8, Incr);
   (Shading SET_COMBINER_SPECULAR_FOG_CW0, NV097_SET_COMBINER_SPECULAR_FOG_CW0, One, Plain);
   (Shading SET_COMBINER_SPECULAR_FOG_CW1, NV097_SET_COMBINER_SPECULAR_FOG_CW1, One, Plain);
   (Shading SET_TEXTURE_ADDRESS, NV097_SET_TEXTURE_ADDRESS, Case4 0 64, Plain);
   (Shading SET_CONTROL0, NV097_SET_CONTROL0, One, Plain);
   (Shading SET_LIGHT_CONTROL, NV097_SET_LIGHT_CONTROL, One, Plain);
   (Shading SET_COLOR_MATERIAL, NV097_SET_COLOR_MATERIAL, One, Plain);
   (Shading SET_FOG_MODE, NV097_SET_FOG_MODE, One, Plain);
   (Shading SET_FOG_GEN_MODE, NV097_SET_FOG_GEN_MODE, One, Plain);
   (Shading SET_FOG_ENABLE, NV097_SET_FOG_ENABLE, One, Plain);
   (Shading SET_FOG_COLOR, NV097_SET_FOG_COLOR, One, Plain);
   (Shading SET_WINDOW_CLIP_TYPE, NV097_SET_WINDOW_CLIP_TYPE, One, Plain);
   (Shading SET_WINDOW_CLIP_HORIZONTAL, NV097_SET_WINDOW_CLIP_HORIZONTAL, Range 8, Incr);
   (Shading SET_WINDOW_CLIP_VERTICAL, NV097_SET_WINDOW_CLIP_VERTICAL, Range 8, Incr);
   (Tests SET_ALPHA_TEST_ENABLE, NV097_SET_ALPHA_TEST_ENABLE, One, Plain);
   (Tests SET_BLEND_ENABLE, NV097_SET_BLEND_ENABLE, One, Plain);
   (Tests SET_CULL_FACE_ENABLE, NV097_SET_CULL_FACE_ENABLE, One, Plain);
   (Tests SET_DEPTH_TEST_ENABLE, NV097_SET_DEPTH_TEST_ENABLE, One, Plain);
   (Tests SET_DITHER_ENABLE, NV097_SET_DITHER_ENABLE, One, Plain);
   (Tests SET_LIGHTING_ENABLE, NV097_SET_LIGHTING_ENABLE, One, Plain);
   (Tests SET_POINT_PARAMS_ENABLE, NV097_SET_POINT_PARAMS_ENABLE, One, Plain);
   (Tests SET_POINT_SMOOTH_ENABLE, NV097_SET_POINT_SMOOTH_ENABLE, One, Plain);
   (Tests SET_LINE_SMOOTH_ENABLE, NV097_SET_LINE_SMOOTH_ENABLE, One, Plain);
   (Tests SET_POLY_SMOOTH_ENABLE, NV097_SET_POLY_SMOOTH_ENABLE, One, Plain);
   (Tests SET_SKIN_MODE, NV097_SET_SKIN_MODE, One, Plain);
   (Tests SET_STENCIL_TEST_ENABLE, NV097_SET_STENCIL_TEST_ENABLE, One, Plain);
   (Tests SET_POLY_OFFSET_POINT_ENABLE, NV097_SET_POLY_OFFSET_POINT_ENABLE, One, Plain);
   (Tests SET_POLY_OFFSET_LINE_ENABLE, NV097_SET_POLY_OFFSET_LINE_ENABLE, One, Plain);
   (Tests SET_POLY_OFFSET_FILL_ENABLE, NV097_SET_POLY_OFFSET_FILL_ENABLE, One, Plain);
   (Tests SET_ALPHA_FUNC, NV097_SET_ALPHA_FUNC, One, Plain);
   (Tests SET_ALPHA_REF, NV097_SET_ALPHA_REF, One, Plain);
   (Tests SET_BLEND_FUNC_SFACTOR, NV097_SET_BLEND_FUNC_SFACTOR, One, Plain);
   (Tests SET_BLEND_FUNC_DFACTOR, NV097_SET_BLEND_FUNC_DFACTOR, One, Plain);
   (Tests SET_BLEND_COLOR, NV097_SET_BLEND_COLOR, One, Plain);
   (Tests SET_BLEND_EQUATION, NV097_SET_BLEND_EQUATION, One, Plain);
   (Tests SET_DEPTH_FUNC, NV097_SET_DEPTH_FUNC, One, Plain);
   (Tests SET_COLOR_MASK, NV097_SET_COLOR_MASK, One, Plain);
   (Tests SET_DEPTH_MASK, NV097_SET_DEPTH_MASK, One, Plain);
   (Tests SET_STENCIL_MASK, NV097_SET_STENCIL_MASK, One, Plain);
   (Tests SET_STENCIL_FUNC, NV097_SET_STENCIL_FUNC, One, Plain);
   (Tests SET_STENCIL_FUNC_REF, NV097_SET_STENCIL_FUNC_REF, One, Plain);
   (Tests SET_STENCIL_FUNC_MASK, NV097_SET_STENCIL_FUNC_MASK, One, Plain);
   (Tests SET_STENCIL_OP_FAIL, NV097_SET_STENCIL_OP_FAIL, One, Plain);
   (Tests SET_STENCIL_OP_ZFAIL, NV097_SET_STENCIL_OP_ZFAIL, One, Plain);
   (Tests SET_STENCIL_OP_ZPASS, NV097_SET_STENCIL_OP_ZPASS, One, Plain);
   (Raster SET_SHADE_MODE, NV097_SET_SHADE_MODE, One, Plain);
   (Raster SET_PROVOKING_VERTEX, NV097_SET_PROVOKING_VERTEX, One, Plain);
   (Raster SET_POLYGON_OFFSET_SCALE_FACTOR, NV097_SET_POLYGON_OFFSET_SCALE_FACTOR, One, Plain);
   (Raster SET_POLYGON_OFFSET_BIAS, NV097_SET_POLYGON_OFFSET_BIAS, One, Plain);
   (Raster SET_FRONT_POLYGON_MODE, NV097_SET_FRONT_POLYGON_MODE, One, Plain);
   (Raster SET_BACK_POLYGON_MODE, NV097_SET_BACK_POLYGON_MODE, One, Plain);
   (Raster SET_CLIP_MIN, NV097_SET_CLIP_MIN, One, Plain);
   (Raster SET_CLIP_MAX, NV097_SET_CLIP_MAX, One, Plain);
   (Raster SET_CULL_FACE, NV097_SET_CULL_FACE, One, Plain);
   (Raster SET_FRONT_FACE, NV097_SET_FRONT_FACE, One, Plain);
   (Raster SET_NORMALIZATION_ENABLE, NV097_SET_NORMALIZATION_ENABLE, One, Plain);
   (Raster SET_MATERIAL_EMISSION, NV097_SET_MATERIAL_EMISSION, Range 3, Incr);
   (Raster SET_MATERIAL_ALPHA, NV097_SET_MATERIAL_ALPHA, One, Plain);
   (Raster SET_SPECULAR_ENABLE, NV097_SET_SPECULAR_ENABLE, One, Plain);
   (Raster SET_LIGHT_ENABLE_MASK, NV097_SET_LIGHT_ENABLE_MASK, One, Plain);
   (Transform SET_TEXGEN_S, NV097_SET_TEXGEN_S, Case4 0 16, Plain);
   (Transform SET_TEXGEN_T, NV097_SET_TEXGEN_T, Case4 0 16, Plain);
   (Transform SET_TEXGEN_R, NV097_SET_TEXGEN_R, Case4 0 16, Plain);
   (Transform SET_TEXGEN_Q, NV097_SET_TEXGEN_Q, Case4 0 16, Plain);
   (Transform SET_TEXTURE_MATRIX_ENABLE, NV097_SET_TEXTURE_MATRIX_ENABLE, Case4 0 4, Incr);
   (Transform SET_POINT_SIZE, NV097_SET_POINT_SIZE, One, Plain);
   (Transform SET_PROJECTION_MATRIX, NV097_SET_PROJECTION_MATRIX, Range 16, Incr);
   (Transform SET_MODEL_VIEW_MATRIX, NV097_SET_MODEL_VIEW_MATRIX, Range 64, Incr);
   (Transform SET_INVERSE_MODEL_VIEW_MATRIX, NV097_SET_INVERSE_MODEL_VIEW_MATRIX, Range 64, Incr);
   (Transform SET_COMPOSITE_MATRIX, NV097_SET_COMPOSITE_MATRIX, Range 16, Incr);
   (Transform SET_TEXTURE_MATRIX, NV097_SET_TEXTURE_MATRIX, Range 64, Incr);
   (Transform SET_FOG_PARAMS, NV097_SET_FOG_PARAMS, Range 3, Incr);
   (Transform SET_TEXGEN_PLANE_S, NV097_SET_TEXGEN_PLANE_S, Range 64, Incr);
   (Transform SET_TEXGEN_VIEW_MODEL, NV097_SET_TEXGEN_VIEW_MODEL, One, Plain);
   (Transform SET_FOG_PLANE, NV097_SET_FOG_PLANE, Range 4, Incr);
   (Transform SET_SPECULAR_PARAMS, NV097_SET_SPECULAR_PARAMS, Range 6, Incr);
   (Transform SET_SCENE_AMBIENT_COLOR, NV097_SET_SCENE_AMBIENT_COLOR, Range 3, Incr);
   (Transform SET_VIEWPORT_OFFSET, NV097_SET_VIEWPORT_OFFSET, Range 4, Incr);
   (Transform SET_POINT_PARAMS, NV097_SET_POINT_PARAMS, Range 8, Incr);
   (Transform SET_EYE_POSITION, NV097_SET_EYE_POSITION, Range 4, Incr);
   (Transform SET_COMBINER_FACTOR0, NV097_SET_COMBINER_FACTOR0, Range 8, Incr);
   (Transform SET_COMBINER_FACTOR1, NV097_SET_COMBINER_FACTOR1, Range 8, Incr);
   (Transform SET_COMBINER_ALPHA_OCW, NV097_SET_COMBINER_ALPHA_OCW, Range 8, Incr);
   (Transform SET_COMBINER_COLOR_ICW, NV097_SET_COMBINER_COLOR_ICW, Range 8, Incr);
   (Transform SET_COLOR_KEY_COLOR, NV097_SET_COLOR_KEY_COLOR, Range 4, Incr);
   (Transform SET_VIEWPORT_SCALE, NV097_SET_VIEWPORT_SCALE, Range 4, Incr);
   (Transform SET_TRANSFORM_PROGRAM, NV097_SET_TRANSFORM_PROGRAM, Range 32, Incr);
   (Transform SET_TRANSFORM_CONSTANT, NV097_SET_TRANSFORM_CONSTANT, Range 32, Incr);
   (Vertices SET_VERTEX3F, NV097_SET_VERTEX3F, Range 3, Incr);
   (Transform SET_BACK_LIGHT_AMBIENT_COLOR, NV097_SET_BACK_LIGHT_AMBIENT_COLOR, Range 128, Incr);
   (Transform SET_LIGHT_AMBIENT_COLOR, NV097_SET_LIGHT_AMBIENT_COLOR, Range 256, Incr);
   (Vertices SET_VERTEX4F, NV097_SET_VERTEX4F, Range 4, Incr);
   (Vertices SET_NORMAL3F, NV097_SET_NORMAL3F, Range 3, Incr);
   (Vertices SET_NORMAL3S, NV097_SET_NORMAL3S, Range 3, Incr);
   (Vertices SET_DIFFUSE_COLOR4F, NV097_SET_DIFFUSE_COLOR4F, Range 4, Incr);
   (Vertices SET_DIFFUSE_COLOR3F, NV097_SET_DIFFUSE_COLOR3F, Range 3, Incr);
   (Vertices SET_DIFFUSE_COLOR4UB, NV097_SET_DIFFUSE_COLOR4UB, Range 1, Incr);
   (Vertices SET_SPECULAR_COLOR4F, NV097_SET_SPECULAR_COLOR4F, Range 4, Incr);
   (Vertices SET_SPECULAR_COLOR3F, NV097_SET_SPECULAR_COLOR3F, Range 3, Incr);
   (Vertices SET_SPECULAR_COLOR4UB, NV097_SET_SPECULAR_COLOR4UB, Range 1, Incr);
   (Vertices (SET_TEXCOORD_2F 0), NV097_SET_TEXCOORD0_2F, Range 2, Incr);
   (Vertices (SET_TEXCOORD_4F 0), NV097_SET_TEXCOORD0_4F, Range 4, Incr);
   (Vertices (SET_TEXCOORD_2S 0), NV097_SET_TEXCOORD0_2S, Range 1, Incr);
   (Vertices (SET_TEXCOORD_4S 0), NV097_SET_TEXCOORD0_4S, Range 2, Incr);
   (Vertices (SET_TEXCOORD_2F 1), NV097_SET_TEXCOORD1_2F, Range 2, Incr);
   (Vertices (SET_TEXCOORD_4F 1), NV097_SET_TEXCOORD1_4F, Range 4, Incr);
   (Vertices (SET_TEXCOORD_2S 1), NV097_SET_TEXCOORD1_2S, Range 1, Incr);
   (Vertices (SET_TEXCOORD_4S 1), NV097_SET_TEXCOORD1_4S, Range 2, Incr);
   (Vertices (SET_TEXCOORD_2F 2), NV097_SET_TEXCOORD2_2F, Range 2, Incr);
   (Vertices (SET_TEXCOORD_4F 2), NV097_SET_TEXCOORD2_4F, Range 4, Incr);
   (Vertices (SET_TEXCOORD_2S 2), NV097_SET_TEXCOORD2_2S, Range 1, Incr);
   (Vertices (SET_TEXCOORD_4S 2), NV097_SET_TEXCOORD2_4S, Range 2, Incr);
   (Vertices (SET_TEXCOORD_2F 3), NV097_SET_TEXCOORD3_2F, Range 2, Incr);
   (Vertices (SET_TEXCOORD_4F 3), NV097_SET_TEXCOORD3_4F, Range 4, Incr);
   (Vertices (SET_TEXCOORD_2S 3), NV097_SET_TEXCOORD3_2S, Range 1, Incr);
   (Vertices (SET_TEXCOORD_4S 3), NV097_SET_TEXCOORD3_4S, Range 2, Incr);
   (Vertices SET_FOG_COORD, NV097_SET_FOG_COORD, One, Plain);
   (Vertices SET_WEIGHT1F, NV097_SET_WEIGHT1F, One, Plain);
   (Vertices SET_WEIGHT2F, NV097_SET_WEIGHT2F, Range 2, Incr);
   (Vertices SET_WEIGHT3F, NV097_SET_WEIGHT3F, Range 3, Incr);
   (Vertices SET_WEIGHT4F, NV097_SET_WEIGHT4F, Range 4, Incr);
   (Vertices SET_VERTEX_DATA_ARRAY_FORMAT, NV097_SET_VERTEX_DATA_ARRAY_FORMAT, Range 16, Incr);
   (Vertices SET_VERTEX_DATA_ARRAY_OFFSET, NV097_SET_VERTEX_DATA_ARRAY_OFFSET, Range 16, Incr);
   (Draws SET_LOGIC_OP_ENABLE, NV097_SET_LOGIC_OP_ENABLE, One, Plain);
   (Draws SET_LOGIC_OP, NV097_SET_LOGIC_OP, One, Plain);
   (Draws CLEAR_REPORT_VALUE, NV097_CLEAR_REPORT_VALUE, One, Plain);
   (Draws SET_ZPASS_PIXEL_COUNT_ENABLE, NV097_SET_ZPASS_PIXEL_COUNT_ENABLE, One, Plain);
   (Draws GET_REPORT, NV097_GET_REPORT, One, Plain);
   (Transform SET_EYE_DIRECTION, NV097_SET_EYE_DIRECTION, Range 3, Incr);
   (Draws SET_BEGIN_END, NV097_SET_BEGIN_END, One, Plain);
   (Textures SET_TEXTURE_OFFSET, NV097_SET_TEXTURE_OFFSET, Case4 0 64, Plain);
   (Textures SET_TEXTURE_FORMAT, NV097_SET_TEXTURE_FORMAT, Case4 0 64, Plain);
   (Textures SET_TEXTURE_CONTROL0, NV097_SET_TEXTURE_CONTROL0, Case4 0 64, Plain);
   (Textures SET_TEXTURE_CONTROL1, NV097_SET_TEXTURE_CONTROL1, Case4 0 64, Plain);
   (Textures SET_TEXTURE_FILTER, NV097_SET_TEXTURE_FILTER, Case4 0 64, Plain);
   (Textures SET_TEXTURE_IMAGE_RECT, NV097_SET_TEXTURE_IMAGE_RECT, Case4 0 64, Plain);
   (Textures SET_TEXTURE_PALETTE, NV097_SET_TEXTURE_PALETTE, Case4 0 64, Plain);
   (Textures SET_TEXTURE_BORDER_COLOR, NV097_SET_TEXTURE_BORDER_COLOR, Case4 0 64, Plain);
   (Textures SET_TEXTURE_SET_BUMP_ENV_MAT, NV097_SET_TEXTURE_SET_BUMP_ENV_MAT, Case4 0 64, Plain);
   (Textures SET_TEXTURE_SET_BUMP_ENV_MAT, NV097_SET_TEXTURE_SET_BUMP_ENV_MAT, Case4 4 64, Plain);
   (Textures SET_TEXTURE_SET_BUMP_ENV_MAT, NV097_SET_TEXTURE_SET_BUMP_ENV_MAT, Case4 8 64, Plain);
   (Textures SET_TEXTURE_SET_BUMP_ENV_MAT, NV097_SET_TEXTURE_SET_BUMP_ENV_MAT, Case4 12 64, Plain);
   (Textures SET_TEXTURE_SET_BUMP_ENV_SCALE, NV097_SET_TEXTURE_SET_BUMP_ENV_SCALE, Case4 0 64, Plain);
   (Textures SET_TEXTURE_SET_BUMP_ENV_OFFSET, NV097_SET_TEXTURE_SET_BUMP_ENV_OFFSET, Case4 0 64, Plain);
   (Draws ARRAY_ELEMENT16, NV097_ARRAY_ELEMENT16, One, NonIncr);
   (Draws ARRAY_ELEMENT32, NV097_ARRAY_ELEMENT32, One, NonIncr);
   (Draws DRAW_ARRAYS, NV097_DRAW_ARRAYS, One, Plain);
   (Draws INLINE_ARRAY, NV097_INLINE_ARRAY, One, NonIncr);
   (BackEnd SET_EYE_VECTOR, NV097_SET_EYE_VECTOR, Range 3, Incr);
   (Vertices SET_VERTEX_DATA2F_M, NV097_SET_VERTEX_DATA2F_M, Range 32, Incr);
   (Vertices SET_VERTEX_DATA4F_M, NV097_SET_VERTEX_DATA4F_M, Range 64, Incr);
   (Vertices SET_VERTEX_DATA2S, NV097_SET_VERTEX_DATA2S, Range 16, Incr);
   (Vertices SET_VERTEX_DATA4UB, NV097_SET_VERTEX_DATA4UB, Range 16, Incr);
   (Vertices SET_VERTEX_DATA4S_M, NV097_SET_VERTEX_DATA4S_M, Range 32, Incr);
   (BackEnd SET_SEMAPHORE_OFFSET, NV097_SET_SEMAPHORE_OFFSET, One, Plain);
   (BackEnd BACK_END_WRITE_SEMAPHORE_RELEASE, NV097_BACK_END_WRITE_SEMAPHORE_RELEASE, One, Plain);
   (BackEnd SET_ZMIN_MAX_CONTROL, NV097_SET_ZMIN_MAX_CONTROL, One, Plain);
   (BackEnd SET_ANTI_ALIASING_CONTROL, NV097_SET_ANTI_ALIASING_CONTROL, One, Plain);
   (BackEnd SET_ZSTENCIL_CLEAR_VALUE, NV097_SET_ZSTENCIL_CLEAR_VALUE, One, Plain);
   (BackEnd SET_COLOR_CLEAR_VALUE, NV097_SET_COLOR_CLEAR_VALUE, One, Plain);
   (BackEnd CLEAR_SURFACE, NV097_CLEAR_SURFACE, One, Plain);
   (BackEnd SET_CLEAR_RECT_HORIZONTAL, NV097_SET_CLEAR_RECT_HORIZONTAL, One, Plain);
   (BackEnd SET_CLEAR_RECT_VERTICAL, NV097_SET_CLEAR_RECT_VERTICAL, One, Plain);
   (BackEnd SET_SPECULAR_FOG_FACTOR, NV097_SET_SPECULAR_FOG_FACTOR, Range 2, Incr);
   (BackEnd SET_SPECULAR_PARAMS_BACK, NV097_SET_SPECULAR_PARAMS_BACK, Range 6, Incr);
   (BackEnd SET_SHADER_CLIP_PLANE_MODE, NV097_SET_SHADER_CLIP_PLANE_MODE, One, Plain);
   (BackEnd SET_COMBINER_COLOR_OCW, NV097_SET_COMBINER_COLOR_OCW, Range 8, Incr);
   (BackEnd SET_COMBINER_CONTROL, NV097_SET_COMBINER_CONTROL, One, Plain);
   (BackEnd SET_SHADOW_ZSLOPE_THRESHOLD, NV097_SET_SHADOW_ZSLOPE_THRESHOLD, One, Plain);
   (BackEnd SET_SHADOW_DEPTH_FUNC, NV097_SET_SHADOW_DEPTH_FUNC, One, Plain);
   (BackEnd SET_SHADER_STAGE_PROGRAM, NV097_SET_SHADER_STAGE_PROGRAM, One, Plain);
   (BackEnd SET_DOT_RGBMAPPING, NV097_SET_DOT_RGBMAPPING, One, Plain);
   (BackEnd SET_SHADER_OTHER_STAGE_INPUT, NV097_SET_SHADER_OTHER_STAGE_INPUT, One, Plain);
   (BackEnd SET_TRANSFORM_DATA, NV097_SET_TRANSFORM_DATA, Range 4, Incr);
   (BackEnd LAUNCH_TRANSFORM_PROGRAM, NV097_LAUNCH_TRANSFORM_PROGRAM, One, Plain);
   (BackEnd SET_TRANSFORM_EXECUTION_MODE, NV097_SET_TRANSFORM_EXECUTION_MODE, One, Plain);
   (BackEnd SET_TRANSFORM_PROGRAM_CXT_WRITE_EN, NV097_SET_TRANSFORM_PROGRAM_CXT_WRITE_EN, One, Plain);
   (BackEnd SET_TRANSFORM_PROGRAM_LOAD, NV097_SET_TRANSFORM_PROGRAM_LOAD, One, Plain);
   (BackEnd SET_TRANSFORM_PROGRAM_START, NV097_SET_TRANSFORM_PROGRAM_START, One, Plain);
   (BackEnd SET_TRANSFORM_CONSTANT_LOAD, NV097_SET_TRANSFORM_CONSTANT_LOAD, One, Plain)].

(** The indices of the array a line fills. *)
Definition covers (row : kelvin_row) (i : Z) : bool :=
  let '(_, base, sp, _) := row in
  match sp with
  | One => i =? base >>> 2
  | Range n => (base >>> 2 <=? i) && (i <=? (base + 4 * n - 1) >>> 2)
  | Case4 offset stride =>
      (i =? (base + offset) >>> 2) || (i =? (base + offset + stride) >>> 2) ||
      (i =? (base + offset + stride * 2) >>> 2) || (i =? (base + offset + stride * 3) >>> 2)
  end.

(** The end of the range of a method. *)
Definition range_end (base : Z) (sp : span) : Z :=
  match sp with One => base + 4 | Range n => base + 4 * n | Case4 _ stride => base + 4 * stride end.

(** In an array initialized by index the last initializer of an element counts. *)
Fixpoint last_cover (rows : list kelvin_row) (i : Z) (found : option kelvin_row) : option kelvin_row :=
  match rows with
  | [] => found
  | row :: rows => last_cover rows i (if covers row i then Some row else found)
  end.
Definition kelvin_lookup (i : Z) : option kelvin_row := last_cover kelvin_table i None.

Section engine.
Context {V R : Type} `{!VGACommon V} `{!Renderer V R}.

Definition kelvin_entry (row : kelvin_row) : kelvin_method V (KelvinState R) :=
  let '(n, base, sp, t) := row in
  match t with
  | Plain => Single (kelvin_handler n)
  | Incr => Inc (kelvin_handler n) (range_end base sp)
  | NonIncr => NonInc (kelvin_handler n)
  end.

#[global] Instance kelvin_engine : Engine V (KelvinState R) :=
  {| ops_image_blit := op_image_blit; kelvin_methods := λ i, kelvin_entry <$> kelvin_lookup i |}.
End engine.

(** ** The null renderer *)

Section null.
Context {V R : Type} `{!VGACommon V}.
Abbreviation D := (NV2AState V (KelvinState R)).

(** A store of bytes in VRAM. *)
Definition store (address : Z) (bs : list Z) : M D unit :=
  d ← gets id;
  vram' ← wr (vram d) address bs;
  modify (λ d, d <| vram := vram' |>).

Definition pgraph_write_zpass_pixel_cnt_report (parameter result : Z) : M D unit :=
  d ← gets id;
  '(address, report_dma_len) ← nv_dma_map (dma_report (drawing (pgraph d)));
  let offset := GET_MASK parameter NV097_GET_REPORT_OFFSET in
  assertM (offset <? report_dma_len);;
  store (address + offset) (le_bytes 8 0x0011223344556677);;
  store (address + offset + 8) (le_bytes 4 result);;
  store (address + offset + 12) (le_bytes 4 0).

Definition null_renderer (vsh : list Z → list Z → list Z → list bool → option (list Z * list bool)) : Renderer V R :=
  {| op_clear_report_value := mret tt; op_clear_surface := λ _, mret tt;
     op_draw_begin := mret tt; op_draw_end := mret tt; op_flip_stall := mret tt; op_flush_draw := mret tt;
     op_get_report := λ parameter, pgraph_write_zpass_pixel_cnt_report parameter 0;
     op_image_blit := mret tt; op_process_pending_reports := mret tt;
     op_surface_update := λ _ _ _, mret tt; nv2a_vsh := vsh |}.
End null.
