(* ===== verification/KelvinSpec.v ===== *)
(** * KelvinSpec: the 3D class keeps the promises of the command FIFO

    For a renderer that leaves alone the registers of PFIFO and the registers of the context
    ([RendererLaws]; the null renderer does), the table of the 3D class satisfies
    [EngineLaws], so [pusher_delivers] is about the methods of the source. *)

From stdpp Require Import gmap.
From S2P Require Import Prelude.
From S2P Require Import Nv2aRegs.
From S2P Require Import KelvinRegs.
From S2P Require Import Nv2a.
From S2P Require Import Pgraph.
From S2P Require Import Pfifo.
From S2P Require Import PfifoSpec.
From S2P Require Import PfifoRuns.
From S2P Require Import PgraphSpec.
From S2P Require Import Kelvin.
From S2P Require Import KelvinMethods.
From S2P Require Import KelvinTable.

#[global] Instance control_name_eq : EqDecision control_name.
Proof. solve_decision. Defined.
#[global] Instance surface_name_eq : EqDecision surface_name.
Proof. solve_decision. Defined.
#[global] Instance shading_name_eq : EqDecision shading_name.
Proof. solve_decision. Defined.
#[global] Instance test_name_eq : EqDecision test_name.
Proof. solve_decision. Defined.
#[global] Instance raster_name_eq : EqDecision raster_name.
Proof. solve_decision. Defined.
#[global] Instance transform_name_eq : EqDecision transform_name.
Proof. solve_decision. Defined.
#[global] Instance vertex_name_eq : EqDecision vertex_name.
Proof. solve_decision. Defined.
#[global] Instance draw_name_eq : EqDecision draw_name.
Proof. solve_decision. Defined.
#[global] Instance texture_name_eq : EqDecision texture_name.
Proof. solve_decision. Defined.
#[global] Instance backend_name_eq : EqDecision backend_name.
Proof. solve_decision. Defined.
#[global] Instance kelvin_name_eq : EqDecision kelvin_name.
Proof. solve_decision. Defined.
#[global] Instance span_eq : EqDecision span.
Proof. solve_decision. Defined.
#[global] Instance takes_words_eq : EqDecision takes_words.
Proof. solve_decision. Defined.

(** The contents of the registers of the context of a subchannel. *)
Definition ctx_is {V X} (f : Z → option Z) (d : NV2AState V X) : Prop :=
  ∀ r, ctx_reg r → pg_regs (pgraph d) !! r = f r.

(** Code that neither uses the registers of PFIFO nor changes those of the context. *)
Definition leaves_alone {V X A} (m : M (NV2AState V X) A) : Prop :=
  indep m ∧ ∀ f, preserves (ctx_is f) m.

(** What the renderer promises. *)
Class RendererLaws (V R : Type) `{!Renderer V R} := {
  alone_clear_report_value : leaves_alone (op_clear_report_value (V := V) (R := R));
  alone_clear_surface : ∀ p, leaves_alone (op_clear_surface (V := V) (R := R) p);
  alone_draw_begin : leaves_alone (op_draw_begin (V := V) (R := R));
  alone_draw_end : leaves_alone (op_draw_end (V := V) (R := R));
  alone_flip_stall : leaves_alone (op_flip_stall (V := V) (R := R));
  alone_flush_draw : leaves_alone (op_flush_draw (V := V) (R := R));
  alone_get_report : ∀ p, leaves_alone (op_get_report (V := V) (R := R) p);
  alone_image_blit : leaves_alone (op_image_blit (V := V) (R := R));
  alone_process_pending_reports : leaves_alone (op_process_pending_reports (V := V) (R := R));
  alone_surface_update : ∀ u c z, leaves_alone (op_surface_update (V := V) (R := R) u c z)
}.

(** ** Steps *)

Section alone.
Context {V X : Type} `{!VGACommon V}.
Abbreviation D := (NV2AState V X).

Lemma alone_ret {A} (a : A) : leaves_alone (V := V) (X := X) (mret a).
Proof. split; [done|]. intros f. apply preserves_ret. Qed.
Lemma alone_raise {A} e : leaves_alone (V := V) (X := X) (A := A) (raise e).
Proof. split; [done|]. intros f. apply preserves_raise. Qed.
Lemma alone_assert b : leaves_alone (V := V) (X := X) (assertM b).
Proof. split; [apply indep_assert|]. intros f. apply preserves_assert. Qed.
Lemma alone_inBounds b : leaves_alone (V := V) (X := X) (inBounds b).
Proof. split; [apply indep_inBounds|]. intros f. apply preserves_inBounds. Qed.
Lemma alone_bind {A B} (m : M D A) (k : A → M D B) :
  leaves_alone m → (∀ a, leaves_alone (k a)) → leaves_alone (m ≫= k).
Proof.
  intros [Hm Hm'] Hk. split; [apply indep_bind; [done|]; intros a; apply Hk|].
  intros f. apply preserves_bind; [done|]. intros a. apply Hk.
Qed.
Lemma alone_state {B} (k : D → M D B) :
  (∀ d d' rs, k (with_regs d rs) d' = k d d') → (∀ d, leaves_alone (k d)) → leaves_alone (gets id ≫= k).
Proof.
  intros Hf Hk. split; [apply indep_state; [done|]; intros d; apply Hk|].
  intros f. apply preserves_bind; [apply preserves_gets|]. intros a. apply Hk.
Qed.
Lemma alone_gets {A} (g : D → A) : (∀ d rs, g (with_regs d rs) = g d) → leaves_alone (gets g).
Proof. split; [by apply indep_gets|]. intros f. apply preserves_gets. Qed.
Lemma alone_modify (g : D → D) :
  (∀ d rs, g (with_regs d rs) = with_regs (g d) rs) → (∀ d, pg_regs (pgraph (g d)) = pg_regs (pgraph d)) →
  leaves_alone (modify g).
Proof.
  intros H1 H2. split; [by apply indep_modify|]. intros f. apply preserves_modify. intros d Hd r Hr.
  rewrite H2. by apply Hd.
Qed.
Lemma alone_when b (m : M D unit) : leaves_alone m → leaves_alone (whenM b m).
Proof. destruct b; [done|]. intros _. apply alone_ret. Qed.
Lemma alone_if {A} (b : bool) (m1 m2 : M D A) : leaves_alone m1 → leaves_alone m2 → leaves_alone (if b then m1 else m2).
Proof. by destruct b. Qed.
Lemma alone_forM {Y} (l : list Y) (body : Y → M D unit) : (∀ y, leaves_alone (body y)) → leaves_alone (forM l body).
Proof.
  intros H. split; [apply indep_forM|intros f; apply preserves_forM]; intros y; apply H.
Qed.
Lemma alone_forM_in {Y} (l : list Y) (body : Y → M D unit) :
  (∀ y, y ∈ l → leaves_alone (body y)) → leaves_alone (forM l body).
Proof.
  induction l as [|y l IH]; [intros; apply alone_ret|]. intros H. apply alone_bind; [apply H; left|].
  intros _. apply IH. intros y' Hy. apply H. by right.
Qed.
End alone.

Create HintDb alone.
#[export] Hint Resolve alone_ret alone_raise alone_assert alone_inBounds : alone.

(** Goes through a program; leaves the calls it has no lemma for. *)
Ltac alone_steps := repeat
  lazymatch goal with
  | |- leaves_alone (gets id ≫= _) => apply alone_state; [done|intros ?]
  | |- leaves_alone (_ ≫= _) => apply alone_bind; [|intros ?]
  | |- leaves_alone (gets _) => apply alone_gets; done
  | |- leaves_alone (modify _) => apply alone_modify; done
  | |- leaves_alone (whenM _ _) => apply alone_when
  | |- leaves_alone (forM _ _) => apply alone_forM; intros ?
  | |- leaves_alone (if _ then _ else _) => apply alone_if
  | |- leaves_alone (let '(_, _) := ?p in _) => destruct p
  | |- leaves_alone (let _ := _ in _) => cbv zeta
  | |- leaves_alone (match ?x with _ => _ end) => destruct x
  | |- leaves_alone _ => solve [auto with alone]
  end.

(** ** Registers and memory *)

Section leaves.
Context {V X : Type} `{!VGACommon V}.

(** A register that is not one of the context. *)
Definition outside (r : Z) : Prop := r < NV_PGRAPH_CTX_SWITCH1 ∨ NV_PGRAPH_CTX_CACHE5 + 32 ≤ r.

Lemma alone_reg_r r : leaves_alone (V := V) (X := X) (pgraph_reg_r r).
Proof. unfold pgraph_reg_r, reg_r. alone_steps. Qed.
Lemma alone_reg_w r v : outside r → leaves_alone (V := V) (X := X) (pgraph_reg_w r v).
Proof.
  intros Hr. split; [apply indep_reg_w|]. intros f. unfold pgraph_reg_w, reg_r. frame.
  - apply preserves_modify. intros d Hd. exact Hd.
  - apply preserves_modify. intros d Hd r' Hr'. cbn. rewrite lookup_insert_ne; [by apply Hd|].
    unfold outside, ctx_reg in *. lia.
Qed.
Hint Resolve alone_reg_r alone_reg_w : alone.
Lemma alone_get_mask r mask : leaves_alone (V := V) (X := X) (PG_GET_MASK r mask).
Proof. unfold PG_GET_MASK. alone_steps. Qed.
Lemma alone_set_mask r mask v : outside r → leaves_alone (V := V) (X := X) (PG_SET_MASK r mask v).
Proof. intros. unfold PG_SET_MASK. alone_steps. Qed.
Lemma alone_set_pg (g : PGRAPHState X → PGRAPHState X) :
  (∀ pg, pg_regs (g pg) = pg_regs pg) → leaves_alone (V := V) (set_pg g).
Proof. intros Hg. unfold set_pg. apply alone_modify; [done|]. intros d. apply Hg. Qed.
Lemma alone_update_irq : leaves_alone (V := V) (X := X) nv2a_update_irq.
Proof. unfold nv2a_update_irq. alone_steps. Qed.
Lemma alone_ldl mem off : leaves_alone (V := V) (X := X) (ldl_le_p mem off).
Proof. unfold ldl_le_p, rd. alone_steps. Qed.
Hint Resolve alone_ldl : alone.
Lemma alone_dma_map a : leaves_alone (V := V) (X := X) (nv_dma_map a).
Proof. unfold nv_dma_map, nv_dma_load. alone_steps. Qed.
Lemma alone_wr buf off bs : leaves_alone (V := V) (X := X) (wr buf off bs).
Proof. unfold wr. alone_steps. Qed.
Lemma alone_switch l v : leaves_alone (V := V) (X := X) (switch l v).
Proof. unfold switch. alone_steps. Qed.
Lemma alone_texgen p c : leaves_alone (V := V) (X := X) (kelvin_map_texgen p c).
Proof. unfold kelvin_map_texgen. alone_steps. Qed.
End leaves.

Lemma slot_of_nonneg method base size : 0 < size → 0 ≤ slot_of method base size.
Proof. intros. apply Z.div_pos; [apply Z.mod_pos_bound|]; lia. Qed.

(** Registers of methods are outside of the context. *)
Ltac outside := unfold outside; first [lia |
  repeat match goal with
  | |- context [slot_of ?m ?b ?s] =>
      lazymatch goal with H : 0 ≤ slot_of m b s |- _ => fail | _ => idtac end;
      assert (0 ≤ slot_of m b s) by (apply slot_of_nonneg; lia)
  end; lia].
#[export] Hint Extern 1 (outside _) => outside : alone.
#[export] Hint Extern 1 (leaves_alone (set_pg _)) => (apply alone_set_pg; done) : alone.
#[export] Hint Resolve alone_reg_r alone_reg_w alone_get_mask alone_set_mask alone_update_irq alone_dma_map alone_wr
  alone_switch alone_texgen alone_ldl : alone.
#[export] Hint Resolve alone_clear_report_value alone_clear_surface alone_draw_begin alone_draw_end alone_flip_stall
  alone_flush_draw alone_get_report alone_image_blit alone_process_pending_reports alone_surface_update : alone.

(** ** Handlers *)

Section handlers.
Context {V R : Type} `{!VGACommon V} `{!Renderer V R} `{!RendererLaws V R}.
Abbreviation K := (KelvinState R).
Abbreviation D := (NV2AState V (KelvinState R)).
Local Abbreviation alone := (leaves_alone (V := V) (X := KelvinState R)).

Lemma alone_kstate : alone kstate.
Proof. unfold kstate. alone_steps. Qed.
Lemma alone_set_k f : alone (set_k f).
Proof. unfold set_k. alone_steps. Qed.
Hint Resolve alone_kstate alone_set_k : alone.
Lemma alone_poke n i f : alone (poke n i f).
Proof. unfold poke. alone_steps. Qed.
Lemma alone_poke2 rows cols row col f : alone (poke2 rows cols row col f).
Proof. unfold poke2. alone_steps. Qed.
Hint Resolve alone_poke alone_poke2 : alone.
Lemma alone_vsh_constant row col p : alone (set_vsh_constant row col p).
Proof. unfold set_vsh_constant. alone_steps. Qed.
Lemma alone_ltctxa row col p : alone (set_ltctxa row col p).
Proof. unfold set_ltctxa. alone_steps. Qed.
Lemma alone_ltctxb row col p : alone (set_ltctxb row col p).
Proof. unfold set_ltctxb. alone_steps. Qed.
Lemma alone_color_write : alone pgraph_color_write_enabled.
Proof. unfold pgraph_color_write_enabled. alone_steps. Qed.
Lemma alone_zeta_write : alone pgraph_zeta_write_enabled.
Proof. unfold pgraph_zeta_write_enabled. alone_steps. Qed.
Lemma alone_attribute a : alone (attribute a).
Proof. unfold attribute. alone_steps. Qed.
Lemma alone_set_attribute a f : alone (set_attribute a f).
Proof. unfold set_attribute. alone_steps. Qed.
Hint Resolve alone_vsh_constant alone_ltctxa alone_ltctxb alone_color_write alone_zeta_write alone_attribute
  alone_set_attribute : alone.
Lemma alone_set_inline_value a i v : alone (set_inline_value a i v).
Proof. unfold set_inline_value. alone_steps. Qed.
Lemma alone_copy_inline_value a i : alone (copy_inline_value a i).
Proof. unfold copy_inline_value. alone_steps. Qed.
Hint Resolve alone_set_inline_value alone_copy_inline_value : alone.
Lemma alone_allocate a : alone (pgraph_allocate_inline_buffer_vertices a).
Proof. unfold pgraph_allocate_inline_buffer_vertices. alone_steps. Qed.
Lemma alone_finish : alone pgraph_finish_inline_buffer_vertex.
Proof. unfold pgraph_finish_inline_buffer_vertex. alone_steps. Qed.
Lemma alone_reset_draw_arrays : alone pgraph_reset_draw_arrays.
Proof. unfold pgraph_reset_draw_arrays. alone_steps. Qed.
Hint Resolve alone_allocate alone_finish alone_reset_draw_arrays : alone.
Lemma alone_reset_inline : alone pgraph_reset_inline_buffers.
Proof. unfold pgraph_reset_inline_buffers. alone_steps. Qed.
Lemma alone_push v : alone (push_element v).
Proof. unfold push_element. alone_steps. Qed.
Hint Resolve alone_reset_inline alone_push : alone.
Lemma alone_expand : alone expand_pending.
Proof. unfold expand_pending, pgraph_expand_draw_arrays. alone_steps. Qed.
Lemma alone_values a l : alone (vertex_values a l).
Proof. unfold vertex_values. alone_steps. Qed.
Lemma alone_update_surfaces : alone update_surfaces.
Proof. unfold update_surfaces. alone_steps. Qed.
Hint Resolve alone_expand alone_values alone_update_surfaces : alone.

Lemma alone_control n sub m p : alone (control_method n sub m p).
Proof. destruct n; cbn [control_method]; alone_steps. Qed.
Lemma alone_surface n m p : alone (surface_method n m p).
Proof. unfold surface_method. destruct n; alone_steps. Qed.
Lemma alone_test n p : alone (test_method n p).
Proof. destruct n; cbn [test_method]; unfold kelvin_map_stencil_op; alone_steps. Qed.
Lemma alone_raster n m p : alone (raster_method n m p).
Proof. destruct n; cbn [raster_method]; unfold kelvin_map_polygon_mode; alone_steps. Qed.
Lemma alone_draw n p : alone (draw_method n p).
Proof. destruct n; unfold_draw; unfold add_draw; alone_steps. Qed.
Lemma alone_vertex n m p : alone (vertex_method n m p).
Proof. unfold vertex_method, submit. destruct (immediate n m p) as [[[a l] c]|]; [alone_steps|].
  destruct n; cbn [array_method]; unfold set_array_format; alone_steps. Qed.
Lemma alone_shading n m p : alone (shading_method n m p).
Proof.
  destruct n; cbn [shading_method]; try (by alone_steps).
  all: cbv zeta; apply alone_forM_in; intros slot [Hs _]%elem_of_seqZ; apply alone_reg_w.
  - pose proof (slot_of_nonneg m NV097_SET_WINDOW_CLIP_HORIZONTAL 4). outside.
  - pose proof (slot_of_nonneg m NV097_SET_WINDOW_CLIP_VERTICAL 4). outside.
Qed.
Lemma alone_lights l part p : alone (light l part p) ∧ alone (back_light l part p).
Proof. split; unfold light, back_light; alone_steps. Qed.
Lemma alone_transform n m p : alone (transform_method n m p).
Proof.
  destruct n; cbn [transform_method]; unfold set_texgen, set_matrix, vsh_constant, put_vsh_constant; cbv zeta; try apply alone_lights;
    repeat case_match; alone_steps.
Qed.
Lemma alone_texture n m p : alone (texture_method n m p).
Proof.
  destruct n; cbn [texture_method]; unfold set_texture_reg, texture_touched; cbv zeta; try (by alone_steps).
  case_match eqn:E; [apply alone_ret|]. apply alone_reg_w. apply Z.ltb_ge in E.
  set (s := slot_of _ _ _) in *.
  pose proof (Z.mod_pos_bound (s - 16) 4 ltac:(lia)). pose proof (Z.div_pos (s - 16) 4 ltac:(lia) ltac:(lia)).
  assert (Z.to_nat ((s - 16) mod 4) < 4)%nat as Hn by lia. revert Hn.
  generalize (Z.to_nat ((s - 16) mod 4)). intros [|[|[|[|?]]]] ?; cbn [nth]; outside.
Qed.
Lemma alone_backend n m p : alone (backend_method n m p).
Proof. destruct n; cbn [backend_method]; unfold release_semaphore, launch_transform_program; alone_steps. Qed.

Lemma alone_handler n sub m p : alone (kelvin_handler n sub m p).
Proof.
  destruct n; cbn [kelvin_handler]; auto using alone_control, alone_surface, alone_shading, alone_test, alone_raster,
    alone_transform, alone_vertex, alone_draw, alone_texture, alone_backend.
Qed.

(** ** The table *)

Lemma kelvin_entry_handler row : handler_of (kelvin_entry (V := V) (R := R) row) = kelvin_handler row.1.1.1.
Proof. by destruct row as [[[n b] sp] []]. Qed.

End handlers.

Lemma last_cover_in rows i found row :
  last_cover rows i found = Some row → (row ∈ rows ∧ covers row i) ∨ found = Some row.
Proof.
  revert found. induction rows as [|r rows IH]; intros found H; [by right|]. cbn in H.
  destruct (IH _ H) as [[? ?]|Hf]; [left; split; [by right|done]|].
  destruct (covers r i) eqn:E; [|by right]. simplify_eq. left. split; [left|by rewrite E].
Qed.
Lemma kelvin_lookup_in i row : kelvin_lookup i = Some row → row ∈ kelvin_table ∧ covers row i.
Proof. intros H. by destruct (last_cover_in _ _ _ _ H) as [?|?]. Qed.

(** The first and the last index of a line. *)
Definition row_first (row : kelvin_row) : Z :=
  let '(_, base, sp, _) := row in
  match sp with One | Range _ => base >>> 2 | Case4 offset _ => (base + offset) >>> 2 end.
Definition row_last (row : kelvin_row) : Z :=
  let '(_, base, sp, _) := row in
  match sp with
  | One => base >>> 2
  | Range n => (base + 4 * n - 1) >>> 2
  | Case4 offset stride => (base + offset + stride * 3) >>> 2
  end.
Definition row_fits (row : kelvin_row) : bool :=
  (0 <=? row_first row) && (row_last row <? 0x800) &&
  match row.1.2 with Case4 _ stride => 0 <=? stride | _ => true end.

Lemma table_fits : Forall row_fits kelvin_table.
Proof. apply forallb_True. vm_compute. done. Qed.
Lemma covers_bounds row i : row_fits row → covers row i → row_first row ≤ i ≤ row_last row.
Proof.
  destruct row as [[[n base] sp] t]. destruct sp as [|k|offset stride]; unfold row_fits; cbn;
    intros Hf%Is_true_true Hc%Is_true_true.
  - lia.
  - lia.
  - assert (0 ≤ stride) as Hs by lia. rewrite !Z.shiftr_div_pow2 in * by lia. change (2 ^ 2) with 4 in *.
    pose proof (Z.div_le_mono (base + offset) (base + offset + stride) 4).
    pose proof (Z.div_le_mono (base + offset + stride) (base + offset + stride * 2) 4).
    pose proof (Z.div_le_mono (base + offset + stride * 2) (base + offset + stride * 3) 4). lia.
Qed.
Lemma kelvin_lookup_bounds i row : kelvin_lookup i = Some row → 0 ≤ i < 0x800.
Proof.
  intros [Hin Hc]%kelvin_lookup_in. pose proof (proj1 (Forall_forall _ _) table_fits _ Hin) as Hf.
  pose proof (covers_bounds _ _ Hf Hc). apply Is_true_true in Hf. unfold row_fits in Hf. lia.
Qed.

#[global] Instance plain_dec m : Decision (plain m) := _.

(** The entry at an index takes words one by one, or is of plain methods and, if it has a
    range, goes on at the next index up to the end of the range. *)
Definition index_ok (i : Z) : bool :=
  match kelvin_lookup i with
  | None | Some (_, _, _, Plain) => true
  | Some (_, _, _, NonIncr) => bool_decide (plain (4 * i))
  | Some ((_, base, sp, Incr) as row) =>
      let end_ := range_end base sp in
      bool_decide (plain (4 * i)) && (4 * i <? end_) && (end_ <? 2 ^ 32) && (end_ mod 4 =? 0) &&
      ((4 * (i + 1) =? end_) || bool_decide (kelvin_lookup (i + 1) = Some row))
  end.

Lemma table_ok : forallb index_ok (seqZ 0 0x800) = true.
Proof. vm_compute. done. Qed.
Lemma index_is_ok i row : kelvin_lookup i = Some row → index_ok i = true.
Proof.
  intros H. pose proof (kelvin_lookup_bounds _ _ H). pose proof table_ok as Ht. rewrite forallb_forall in Ht.
  apply Ht. apply list_elem_of_In, elem_of_seqZ. lia.
Qed.
Lemma plain_row i n base sp t : kelvin_lookup i = Some (n, base, sp, t) → t ≠ Plain → plain (4 * i).
Proof.
  intros H Ht. pose proof (index_is_ok _ _ H) as Ho. unfold index_ok in Ho. rewrite H in Ho.
  destruct t; [done| |by apply bool_decide_eq_true in Ho].
  rewrite !andb_true_iff in Ho. destruct Ho as [[[[Ho _] _] _] _]. by apply bool_decide_eq_true in Ho.
Qed.
Lemma incr_row i n base sp :
  kelvin_lookup i = Some (n, base, sp, Incr) →
  4 * i < range_end base sp < 2 ^ 32 ∧ range_end base sp mod 4 = 0 ∧
  (4 * (i + 1) < range_end base sp → kelvin_lookup (i + 1) = Some (n, base, sp, Incr)).
Proof.
  intros H. pose proof (index_is_ok _ _ H) as Ho. unfold index_ok in Ho. rewrite H in Ho.
  rewrite !andb_true_iff, orb_true_iff in Ho. destruct Ho as [[[[_ H1] H2] H3] H4].
  split_and!; [lia|lia|lia|]. intros Hlt. destruct H4 as [H4|H4]; [lia|by apply bool_decide_eq_true in H4].
Qed.
Lemma incr_range i n base sp : kelvin_lookup i = Some (n, base, sp, Incr) →
  ∀ i', i ≤ i' → 4 * i' < range_end base sp → kelvin_lookup i' = Some (n, base, sp, Incr).
Proof.
  intros H i' Hle. replace i' with (i + Z.of_nat (Z.to_nat (i' - i))) by lia.
  induction (Z.to_nat (i' - i)) as [|k IH]; intros Hlt; [by rewrite Z.add_0_r|].
  replace (i + Z.of_nat (S k)) with (i + Z.of_nat k + 1) in * by lia.
  apply incr_row; [|lia]. apply IH. lia.
Qed.

(** The methods of the 3D class are what the command FIFO expects of the engine. *)
#[global] Instance kelvin_laws V R `{!VGACommon V} `{!Renderer V R} `{!RendererLaws V R} :
  EngineLaws V (KelvinState R).
Proof.
  split.
  - apply alone_image_blit.
  - intros i e sub m p ([[[n b] sp] t] & _ & ->)%fmap_Some. rewrite kelvin_entry_handler. apply alone_handler.
  - intros i e sub m p d d' ([[[n b] sp] t] & _ & ->)%fmap_Some Hr r Hc. rewrite kelvin_entry_handler in Hr.
    destruct (alone_handler n sub m p) as [_ Hk].
    exact (preserves_run _ _ _ _ _ (Hk (λ r, pg_regs (pgraph d) !! r)) (λ r _, eq_refl) Hr r Hc).
  - intros i h end_ ([[[n b] sp] t] & Hl & He)%fmap_Some. destruct t; simplify_eq/=.
    destruct (incr_row _ _ _ _ Hl) as (? & ? & _). split_and!; [lia|lia|done|].
    intros i' Hi Hlt. pose proof (incr_range _ _ _ _ Hl i' Hi Hlt) as Hl'.
    split; [by eapply plain_row|]. by rewrite Hl'.
  - intros i h ([[[n b] sp] t] & Hl & He)%fmap_Some. destruct t; simplify_eq/=. by eapply plain_row.
Qed.

#[global] Instance null_laws V R `{!VGACommon V} vsh : RendererLaws V R (Renderer0 := null_renderer vsh).
Proof.
  split; cbn; intros; try apply alone_ret. unfold pgraph_write_zpass_pixel_cnt_report, store. alone_steps.
Qed.
