(* ===== verification/KelvinVertex.v ===== *)
(** * KelvinVertex: immediate mode

    A vertex of immediate mode has sixteen attributes.  The code stores an attribute vertex by
    vertex only from the first change of it within a primitive on; before that all vertices
    have its current value.  [rendered] is what the renderers draw from these buffers
    (gl/draw.c, vk/draw.c); [eager] is the reference that stores every attribute of every vertex.
    They agree on all sequences of methods of the table. *)

From stdpp Require Import gmap.
From S2P Require Import Prelude.
From S2P Require Import KelvinRegs.
From S2P Require Import Float32.
From S2P Require Import Nv2a.
From S2P Require Import Pgraph.
From S2P Require Import Kelvin.
From S2P Require Import KelvinMethods.
From S2P Require Import KelvinTable.
From S2P Require Import KelvinSpec.

(** The value of an attribute in vertex [i], of vertices of the buffers. *)
Definition attr_at (i : Z) (a : VertexAttribute) : list Z :=
  if inline_buffer_populated a then default [] (inline_buffer a !! i) else inline_value a.

Definition rendered {R} (k : KelvinState R) : list (list (list Z)) :=
  (λ i, attr_at i <$> vertex_attributes k) <$> seqZ 0 (inline_buffer_length k).
Definition current {R} (k : KelvinState R) : list (list Z) := inline_value <$> vertex_attributes k.

(** The reference: the vertex being built and the vertices so far. *)
Definition submission : Type := Z * list (Z * Z) * bool.
Definition components (values : list (Z * Z)) (v : list Z) : list Z :=
  foldl (λ v '(i, x), <[Z.to_nat i := x]> v) v values.
Definition eager (st : list (list Z) * list (list (list Z))) (s : submission) :=
  let '(attr, values, complete) := s in
  let vertex := alter (components values) (Z.to_nat attr) st.1 in
  (vertex, if complete : bool then st.2 ++ [vertex] else st.2).

(** Methods of immediate mode, as the table has them. *)
Definition immediate_call : Type := vertex_name * Z * Z.
Definition says (c : immediate_call) (s : submission) : Prop :=
  let '(n, method, parameter) := c in
  (∃ base sp t, kelvin_lookup (method >>> 2) = Some (Vertices n, base, sp, t)) ∧ method mod 4 = 0 ∧
  immediate n method parameter = Some s.

Definition fits (s : submission) : Prop :=
  0 ≤ s.1.1 < NV2A_VERTEXSHADER_ATTRIBUTES ∧ Forall (λ iv, 0 ≤ iv.1 < 4) s.1.2.

(** ** Submissions of the table fit *)

Definition shape (n : vertex_name) (method parameter : Z) : option (Z * list Z) :=
  (λ s, (s.1.1, s.1.2.*1)) <$> immediate n method parameter.
Lemma shape_parameter n method parameter : shape n method parameter = shape n method 0.
Proof. by destruct n. Qed.

Definition shape_fits (i : Z) : bool :=
  match kelvin_lookup i with
  | Some (Vertices n, _, _, _) =>
      match shape n (4 * i) 0 with
      | Some (attr, ixs) => (0 <=? attr) && (attr <? NV2A_VERTEXSHADER_ATTRIBUTES) && forallb (λ i, (0 <=? i) && (i <? 4)) ixs
      | None => true
      end
  | _ => true
  end.
Lemma shapes_fit : forallb shape_fits (seqZ 0 0x800) = true.
Proof. vm_compute. done. Qed.

Lemma says_fits c s : says c s → fits s.
Proof.
  destruct c as [[n m] p]. intros ((base & sp & t & Hl) & H4 & Hi).
  pose proof (kelvin_lookup_bounds _ _ Hl) as Hb. pose proof shapes_fit as Hs. rewrite forallb_forall in Hs.
  assert (4 * (m >>> 2) = m) as Hm.
  { rewrite Z.shiftr_div_pow2 by lia. change (2 ^ 2) with 4. pose proof (Z.div_mod m 4). lia. }
  specialize (Hs (m >>> 2)). unfold shape_fits in Hs. rewrite Hl, Hm in Hs.
  assert (shape n m 0 = Some (s.1.1, s.1.2.*1)) as Hsh by (rewrite <-(shape_parameter n m p); unfold shape; by rewrite Hi).
  rewrite Hsh in Hs. assert (m >>> 2 ∈ seqZ 0 0x800) as Hin by (apply elem_of_seqZ; lia).
  apply list_elem_of_In in Hin. specialize (Hs Hin). rewrite !andb_true_iff, forallb_forall in Hs.
  destruct Hs as [[? ?] Hf]. split; [lia|]. apply Forall_forall. intros iv Hiv.
  specialize (Hf iv.1). rewrite andb_true_iff in Hf. enough (In iv.1 s.1.2.*1) by (specialize (Hf H1); lia).
  apply list_elem_of_In. by apply list_elem_of_fmap_2.
Qed.

(** ** The attributes *)

Definition fill (v : list Z) (b : gmap Z (list Z)) (ixs : list Z) : gmap Z (list Z) := foldl (λ b i, <[i := v]> b) b ixs.
Lemma fill_lookup v b ixs i : fill v b ixs !! i = if bool_decide (i ∈ ixs) then Some v else b !! i.
Proof.
  unfold fill. induction ixs as [|j ixs IH] using rev_ind; [done|]. rewrite foldl_app. cbn.
  destruct (decide (i = j)) as [->|Hn].
  - rewrite lookup_insert_eq, bool_decide_eq_true_2; [done|]. apply elem_of_app. right. left.
  - rewrite lookup_insert_ne by done. rewrite IH.
    rewrite (bool_decide_ext (i ∈ ixs ++ [j]) (i ∈ ixs)); [done|].
    rewrite elem_of_app, list_elem_of_singleton. naive_solver.
Qed.

Definition allocate (len : Z) (a : VertexAttribute) : VertexAttribute :=
  if inline_buffer_populated a || (len =? 0) then a
  else a <| inline_buffer_populated := true |> <| inline_buffer := fill (inline_value a) (inline_buffer a) (seqZ 0 len) |>.
Definition store_vertex (len : Z) (a : VertexAttribute) : VertexAttribute :=
  if inline_buffer_populated a then a <| inline_buffer ::= <[len := inline_value a]> |> else a.

Lemma allocate_value len a : inline_value (allocate len a) = inline_value a.
Proof. unfold allocate. by case_match. Qed.
Lemma allocate_at len a i : 0 ≤ i < len → attr_at i (allocate len a) = attr_at i a.
Proof.
  intros Hi. unfold allocate, attr_at. destruct (inline_buffer_populated a) eqn:E; cbn; [by rewrite E|].
  destruct (Z.eqb_spec len 0); [lia|]. cbn. rewrite fill_lookup, bool_decide_eq_true_2; [done|].
  apply elem_of_seqZ. lia.
Qed.
Lemma allocate_populated len a : 0 < len → inline_buffer_populated (allocate len a) = true.
Proof. intros. unfold allocate. destruct (inline_buffer_populated a) eqn:E; cbn; [done|]. by destruct (Z.eqb_spec len 0); [lia|]. Qed.
Lemma store_old len a i : i ≠ len → attr_at i (store_vertex len a) = attr_at i a.
Proof.
  intros. unfold store_vertex, attr_at. destruct (inline_buffer_populated a) eqn:E; cbn; rewrite E; [|done].
  by rewrite lookup_insert_ne.
Qed.
Lemma store_new len a : attr_at len (store_vertex len a) = inline_value a.
Proof.
  unfold store_vertex, attr_at. destruct (inline_buffer_populated a) eqn:E; cbn; rewrite E; [|done].
  by rewrite lookup_insert_eq.
Qed.
Lemma store_value len a : inline_value (store_vertex len a) = inline_value a.
Proof. unfold store_vertex. by case_match. Qed.

(** ** Runs *)

Section runs.
Context {V R : Type} `{!VGACommon V} `{!Renderer V R}.
Abbreviation K := (KelvinState R).
Abbreviation D := (NV2AState V (KelvinState R)).
Implicit Types (d : D).

Definition upd (f : K → K) (d : D) : D := d <| pgraph ::= λ pg, pg <| drawing ::= f |> |>.
(** New attributes. *)
Definition with_attrs (f : list VertexAttribute → list VertexAttribute) (d : D) : D :=
  upd (λ k, k <| vertex_attributes ::= f |>) d.
Definition attrs (d : D) : list VertexAttribute := vertex_attributes (drawing (pgraph d)).
Definition vertices (d : D) : Z := inline_buffer_length (drawing (pgraph d)).

Lemma with_attrs_with_attrs f g d : with_attrs f (with_attrs g d) = with_attrs (λ l, f (g l)) d.
Proof. done. Qed.
Lemma with_attrs_ext f g d : f (attrs d) = g (attrs d) → with_attrs f d = with_attrs g d.
Proof.
  intros H. change (with_attrs f d) with (upd (λ k, k <| vertex_attributes := f (attrs d) |>) d). by rewrite H.
Qed.
Lemma with_attrs_same f d : f (attrs d) = attrs d → with_attrs f d = d.
Proof.
  intros H. rewrite (with_attrs_ext f (λ l, l)) by done. destruct d. unfold with_attrs, upd. cbn. f_equal.
  destruct pgraph. cbn. f_equal. by destruct drawing.
Qed.

Lemma run_set_attribute a f d : 0 ≤ a < NV2A_VERTEXSHADER_ATTRIBUTES →
  set_attribute a f d = Ok (tt, with_attrs (alter f (Z.to_nat a)) d).
Proof.
  intros. unfold set_attribute, poke. rewrite (run_bind _ _ tt _ d); [done|]. apply run_inBounds. lia.
Qed.

Lemma run_set_inline_value a i v d : 0 ≤ a < NV2A_VERTEXSHADER_ATTRIBUTES → 0 ≤ i < 4 →
  set_inline_value a i v d =
  Ok (tt, with_attrs (alter (λ x, x <| inline_value ::= <[Z.to_nat i := v]> |>) (Z.to_nat a)) d).
Proof.
  intros. unfold set_inline_value. rewrite (run_bind _ _ tt _ d); [by apply run_set_attribute|].
  apply run_inBounds. lia.
Qed.
Lemma run_copy a i d : 0 ≤ a < NV2A_VERTEXSHADER_ATTRIBUTES → 0 ≤ i < NV2A_MAX_BATCH_LENGTH →
  copy_inline_value a i d =
  Ok (tt, with_attrs (alter (λ x, x <| inline_buffer ::= <[i := inline_value x]> |>) (Z.to_nat a)) d).
Proof.
  intros. unfold copy_inline_value. rewrite (run_bind _ _ tt _ d); [by apply run_set_attribute|].
  apply run_inBounds. lia.
Qed.
Lemma run_attribute a d x : 0 ≤ a → attrs d !! Z.to_nat a = Some x → attribute a d = Ok (x, d).
Proof.
  intros Ha Hx. unfold attribute, kstate. rewrite (run_bind _ _ (drawing (pgraph d)) _ d) by done.
  unfold attrs in Hx. rewrite Hx. rewrite (run_bind _ _ tt _ d); [done|]. apply run_inBounds. lia.
Qed.

Lemma run_copies a ixs d : 0 ≤ a < NV2A_VERTEXSHADER_ATTRIBUTES → (∀ i, i ∈ ixs → 0 ≤ i < NV2A_MAX_BATCH_LENGTH) →
  forM ixs (copy_inline_value a) d =
  Ok (tt, with_attrs (alter (λ x, x <| inline_buffer := fill (inline_value x) (inline_buffer x) ixs |>) (Z.to_nat a)) d).
Proof.
  intros Ha. revert d. induction ixs as [|i ixs IH]; intros d Hi.
  - rewrite with_attrs_same; [done|]. apply list_alter_none. by intros [].
  - cbn [forM]. rewrite (run_bind _ _ _ _ _ (run_copy a i d Ha (Hi i ltac:(left)))).
    rewrite IH by (intros; apply Hi; by right). f_equal. f_equal. rewrite with_attrs_with_attrs.
    apply with_attrs_ext. by rewrite list_alter_twice.
Qed.

Lemma run_allocate a d : 0 ≤ a < NV2A_VERTEXSHADER_ATTRIBUTES → length (attrs d) = 16%nat →
  0 ≤ vertices d ≤ NV2A_MAX_BATCH_LENGTH →
  pgraph_allocate_inline_buffer_vertices a d = Ok (tt, with_attrs (alter (allocate (vertices d)) (Z.to_nat a)) d).
Proof.
  intros Ha Hl Hv. destruct (lookup_lt_is_Some_2 (attrs d) (Z.to_nat a)) as [x Hx]; [lia|].
  unfold pgraph_allocate_inline_buffer_vertices. rewrite (run_bind _ _ x _ d) by (apply run_attribute; [lia|done]).
  unfold kstate. rewrite (run_bind _ _ (drawing (pgraph d)) _ d) by done. fold (vertices d).
  destruct (inline_buffer_populated x || (vertices d =? 0)) eqn:E.
  - rewrite with_attrs_same; [done|]. apply list_alter_none. intros x' ?. simplify_eq. unfold allocate. by rewrite E.
  - rewrite (run_bind _ _ _ _ _ (run_set_attribute a _ d Ha)).
    rewrite run_copies; [|done|intros i [? ?]%elem_of_seqZ; lia]. f_equal. f_equal.
    rewrite with_attrs_with_attrs. apply with_attrs_ext. rewrite list_alter_twice.
    apply list_alter_same. intros x' ?. simplify_eq. unfold allocate. by rewrite E.
Qed.

Lemma run_components a l d : 0 ≤ a < NV2A_VERTEXSHADER_ATTRIBUTES → Forall (λ iv, 0 ≤ iv.1 < 4) l →
  forM l (λ '(i, v), set_inline_value a i v) d =
  Ok (tt, with_attrs (alter (λ x, x <| inline_value ::= components l |>) (Z.to_nat a)) d).
Proof.
  intros Ha Hl. revert d. induction Hl as [|[i v] l Hi Hl IH]; intros d.
  - rewrite with_attrs_same; [done|]. apply list_alter_none. by intros [].
  - cbn [forM]. rewrite (run_bind _ _ _ _ _ (run_set_inline_value a i v d Ha Hi)). rewrite IH.
    f_equal. f_equal. rewrite with_attrs_with_attrs. apply with_attrs_ext. by rewrite list_alter_twice.
Qed.

(** An attribute with new values. *)
Definition change_attr (len : Z) (l : list (Z * Z)) (x : VertexAttribute) : VertexAttribute :=
  (allocate len x) <| inline_value ::= components l |>.
Lemma run_values a l d : 0 ≤ a < NV2A_VERTEXSHADER_ATTRIBUTES → Forall (λ iv, 0 ≤ iv.1 < 4) l →
  length (attrs d) = 16%nat → 0 ≤ vertices d ≤ NV2A_MAX_BATCH_LENGTH →
  vertex_values a l d = Ok (tt, with_attrs (alter (change_attr (vertices d) l) (Z.to_nat a)) d).
Proof.
  intros Ha Hl H16 Hv. unfold vertex_values. rewrite (run_bind _ _ _ _ _ (run_allocate a d Ha H16 Hv)).
  rewrite run_components by done. f_equal. f_equal. rewrite with_attrs_with_attrs. apply with_attrs_ext.
  by rewrite list_alter_twice.
Qed.

Definition store_all (len : Z) (ixs : list Z) (l : list VertexAttribute) : list VertexAttribute :=
  foldl (λ l i, alter (store_vertex len) (Z.to_nat i) l) l ixs.
Lemma store_all_16 len l : length l = 16%nat → store_all len (seqZ 0 16) l = store_vertex len <$> l.
Proof. intros H. do 16 (destruct l as [|? l]; [done|]). by destruct l. Qed.

Lemma run_stores len ixs d : 0 ≤ len < NV2A_MAX_BATCH_LENGTH → length (attrs d) = 16%nat →
  (∀ i, i ∈ ixs → 0 ≤ i < NV2A_VERTEXSHADER_ATTRIBUTES) →
  forM ixs (λ i, a ← attribute i; whenM (inline_buffer_populated a) (copy_inline_value i len)) d =
  Ok (tt, with_attrs (store_all len ixs) d).
Proof.
  intros Hlen. revert d. induction ixs as [|i ixs IH]; intros d H16 Hi; [by rewrite with_attrs_same|].
  assert (0 ≤ i < NV2A_VERTEXSHADER_ATTRIBUTES) as Hb by (apply Hi; left).
  destruct (lookup_lt_is_Some_2 (attrs d) (Z.to_nat i)) as [x Hx]; [lia|]. cbn [forM].
  rewrite (run_bind _ _ tt _ (with_attrs (alter (store_vertex len) (Z.to_nat i)) d)).
  - rewrite IH; [done| |intros; apply Hi; by right]. cbn. by rewrite length_alter.
  - rewrite (run_bind _ _ x _ d) by (apply run_attribute; [lia|done]).
    destruct (inline_buffer_populated x) eqn:E; cbn [whenM].
    + rewrite run_copy by done. f_equal. f_equal. apply with_attrs_ext. apply list_alter_same. intros x' ?. simplify_eq.
      unfold store_vertex. by rewrite E.
    + rewrite with_attrs_same; [done|]. apply list_alter_none. intros x' ?. simplify_eq. unfold store_vertex. by rewrite E.
Qed.

Definition finished (d : D) : D :=
  upd (λ k, k <| inline_buffer_length ::= λ n, n + 1 |>) (with_attrs (fmap (store_vertex (vertices d))) d).
Lemma run_finish_vertex d : length (attrs d) = 16%nat → 0 ≤ vertices d < NV2A_MAX_BATCH_LENGTH →
  pgraph_finish_inline_buffer_vertex d = Ok (tt, finished d).
Proof.
  intros H16 Hv. unfold pgraph_finish_inline_buffer_vertex, kstate.
  rewrite (run_bind _ _ (drawing (pgraph d)) _ d) by done. fold (vertices d).
  rewrite (run_bind _ _ tt _ d) by (apply run_assert; lia).
  rewrite (run_bind _ _ tt _ (with_attrs (fmap (store_vertex (vertices d))) d)); [done|].
  rewrite run_stores; [|lia|done|intros i [? ?]%elem_of_seqZ; lia].
  f_equal. f_equal. apply with_attrs_ext. by apply store_all_16.
Qed.

(** ** Agreement with the reference *)

Lemma changed_current a l d : current (drawing (pgraph (with_attrs (alter (change_attr (vertices d) l) (Z.to_nat a)) d))) =
  alter (components l) (Z.to_nat a) (current (drawing (pgraph d))).
Proof.
  unfold current. cbn. fold (attrs d). apply list_eq. intros j. rewrite list_lookup_fmap.
  destruct (decide (j = Z.to_nat a)) as [->|].
  - rewrite !list_lookup_alter_eq, list_lookup_fmap. destruct (attrs d !! Z.to_nat a) as [x|]; [|done]. cbn.
    by rewrite allocate_value.
  - by rewrite !list_lookup_alter_ne, list_lookup_fmap.
Qed.
Lemma changed_rendered a l d : rendered (drawing (pgraph (with_attrs (alter (change_attr (vertices d) l) (Z.to_nat a)) d))) =
  rendered (drawing (pgraph d)).
Proof.
  unfold rendered. cbn. fold (attrs d). fold (vertices d). apply list_fmap_ext. intros j i [-> Hj]%lookup_seqZ.
  apply list_eq. intros n. rewrite !list_lookup_fmap.
  destruct (decide (n = Z.to_nat a)) as [->|]; [|by rewrite list_lookup_alter_ne].
  rewrite list_lookup_alter_eq. destruct (attrs d !! Z.to_nat a) as [x|]; [|done]. cbn. f_equal.
  rewrite <-(allocate_at (vertices d) x) by lia. unfold change_attr, attr_at. cbn.
  by rewrite allocate_populated by lia.
Qed.
Lemma finished_current d : current (drawing (pgraph (finished d))) = current (drawing (pgraph d)).
Proof.
  unfold current. cbn. rewrite <-list_fmap_compose. apply list_fmap_ext. intros j x _. apply store_value.
Qed.
Lemma finished_rendered d : 0 ≤ vertices d →
  rendered (drawing (pgraph (finished d))) = rendered (drawing (pgraph d)) ++ [current (drawing (pgraph d))].
Proof.
  intros Hv. unfold rendered, current. cbn. fold (attrs d). fold (vertices d).
  replace (vertices d + 1) with (Z.of_nat (S (Z.to_nat (vertices d)))) by lia. rewrite seqZ_S, fmap_app.
  rewrite Z2Nat.id by done. f_equal.
  - apply list_fmap_ext. intros j i [-> Hj]%lookup_seqZ. rewrite <-list_fmap_compose. apply list_fmap_ext.
    intros n x _. apply store_old. lia.
  - cbn. f_equal. rewrite <-list_fmap_compose. apply list_fmap_ext. intros n x _. apply store_new.
Qed.

Definition stream (d : D) := (current (drawing (pgraph d)), rendered (drawing (pgraph d))).
(** The number of complete vertices. *)
Definition completes (ss : list submission) : Z := Z.of_nat (length (filter (λ s, s.2 = true) ss)).

Lemma completes_one a l c : completes [(a, l, c)] = if c then 1 else 0.
Proof. by destruct c. Qed.

Lemma run_submit (s : submission) d : fits s → length (attrs d) = 16%nat → 0 ≤ vertices d →
  vertices d + completes [s] ≤ NV2A_MAX_BATCH_LENGTH →
  ∃ d', submit s.1.1 s.1.2 s.2 d = Ok (tt, d') ∧ stream d' = eager (stream d) s ∧
    length (attrs d') = 16%nat ∧ vertices d' = vertices d + completes [s].
Proof.
  destruct s as [[a l] c]. intros [Ha Hl] H16 Hv Hm. cbn in Ha, Hl. rewrite completes_one in *. unfold submit. cbn [fst snd].
  set (d1 := with_attrs (alter (change_attr (vertices d) l) (Z.to_nat a)) d).
  assert (stream d1 = (alter (components l) (Z.to_nat a) (current (drawing (pgraph d))), rendered (drawing (pgraph d)))) as Hs1.
  { unfold stream, d1. by rewrite changed_current, changed_rendered. }
  assert (length (attrs d1) = 16%nat) as H161 by (cbn; by rewrite length_alter).
  rewrite (run_bind _ _ tt _ d1) by (apply run_values; try done; destruct c; lia).
  destruct c; cbn [whenM].
  - exists (finished d1). rewrite run_finish_vertex; [|done|change (vertices d1) with (vertices d); lia].
    split_and!; [done| |cbn; by rewrite length_fmap|done].
    unfold stream in *. rewrite finished_current, finished_rendered by done. simplify_eq/=. congruence.
  - exists d1. split_and!; [done|done|done|]. change (vertices d1) with (vertices d). lia.
Qed.
End runs.

(** C11. Immediate mode: let any sequence of its methods, as the table of the 3D class has them,
    come in a state of at most NV2A_MAX_BATCH_LENGTH vertices with those it completes.  The
    handlers return, and the vertices the renderers find in the buffers that the code fills
    on demand, and the vertex being built, are those of the reference which stores every
    attribute of every vertex when it is complete. *)
Theorem inline_vertices {V R} `{!VGACommon V} `{!Renderer V R} (d : NV2AState V (KelvinState R)) cs ss :
  Forall2 says cs ss → length (attrs d) = 16%nat → 0 ≤ vertices d →
  vertices d + completes ss ≤ NV2A_MAX_BATCH_LENGTH →
  ∃ d', forM cs (λ '(n, method, parameter), vertex_method n method parameter) d = Ok (tt, d') ∧
    stream d' = foldl eager (stream d) ss.
Proof.
  intros Hcs. revert d. induction Hcs as [|[[n m] p] s cs ss Hc Hcs IH]; intros d H16 Hv Hm; [by exists d|].
  assert (completes (s :: ss) = completes [s] + completes ss) as Hadd.
  { unfold completes. by rewrite <-Nat2Z.inj_add, <-length_app, <-filter_app. }
  assert (0 ≤ completes ss ∧ 0 ≤ completes [s]) as [? ?] by (unfold completes; lia).
  destruct (run_submit s d) as (d1 & Hr & Hs & H161 & Hv1); [by eapply says_fits|done|done|lia|].
  destruct (IH d1) as (d' & Hr' & Hs'); [done|lia|lia|].
  exists d'. split; [|by rewrite Hs', Hs]. cbn [forM]. rewrite (run_bind _ _ tt _ d1); [done|].
  destruct Hc as (_ & _ & Hi). unfold vertex_method. rewrite Hi. by destruct s as [[a l] c].
Qed.
