(* ===== verification/KelvinDraw.v ===== *)
(** * KelvinDraw: draws by index

    The vertices of a primitive come as ranges (DRAW_ARRAYS), which are kept as
    ranges and connected where they touch, and as indices (ARRAY_ELEMENT16/32), which turn the ranges
    into indices.  [indices] is the list of vertices the code stands at; a method adds to it the
    vertices it names. *)

From stdpp Require Import gmap.
From S2P Require Import Prelude.
From S2P Require Import Nv2aRegs.
From S2P Require Import KelvinRegs.
From S2P Require Import Nv2a.
From S2P Require Import Pgraph.
From S2P Require Import Kelvin.
From S2P Require Import KelvinMethods.
From S2P Require Import KelvinTable.
From S2P Require Import KelvinVertex.

(** The end of the ranges: the start has 24 bits, the count 8, less one. *)
Abbreviation RANGE_MAX := (2 ^ 24 + 2 ^ 8)%Z (only parsing).

Section draw.
Context {V R : Type} `{!VGACommon V} `{!Renderer V R}.
Abbreviation K := (KelvinState R).
Abbreviation D := (NV2AState V (KelvinState R)).
Implicit Types (d : D) (k : K).

Definition elements (n : Z) (k : K) : list Z := (λ i, default 0 (inline_elements k !! i)) <$> seqZ 0 n.
Definition range (k : K) (i : Z) : list Z := seqZ (draw_start k i) (draw_count k i).
Definition ranges (n : Z) (k : K) : list Z := concat (range k <$> seqZ 0 n).
Definition indices (d : D) : list Z :=
  elements (inline_elements_length (pgraph d)) (drawing (pgraph d)) ++
  ranges (draw_arrays_length (pgraph d)) (drawing (pgraph d)).

(** The vertices a method names. *)
Definition names (n : draw_name) (parameter : Z) : list Z :=
  match n with
  | DRAW_ARRAYS =>
      seqZ (GET_MASK parameter NV097_DRAW_ARRAYS_START_INDEX) (GET_MASK parameter NV097_DRAW_ARRAYS_COUNT + 1)
  | ARRAY_ELEMENT16 => [parameter mod 2 ^ 16; parameter / 2 ^ 16]
  | ARRAY_ELEMENT32 => [parameter]
  | _ => []
  end.

(** Elements and ranges are not mixed, and the ranges are of the width of the method. *)
Definition draws_ok (d : D) : Prop :=
  let pg := pgraph d in
  0 ≤ inline_elements_length pg ≤ NV2A_MAX_BATCH_LENGTH ∧ 0 ≤ draw_arrays_length pg ≤ DRAW_ARRAYS_MAX ∧
  (inline_elements_length pg ≠ 0 → draw_arrays_length pg = 0) ∧
  (draw_arrays_length pg = 0 → draw_arrays_prevent_connect pg = false) ∧
  ∀ i, 0 ≤ i < draw_arrays_length pg →
    0 ≤ draw_start (drawing pg) i ∧ 0 < draw_count (drawing pg) i ∧
    draw_start (drawing pg) i + draw_count (drawing pg) i ≤ RANGE_MAX.

(** ** Lists of indices *)

Lemma seqZ_snoc n : 0 ≤ n → seqZ 0 (n + 1) = seqZ 0 n ++ [n].
Proof. intros. replace (n + 1) with (Z.of_nat (S (Z.to_nat n))) by lia. rewrite seqZ_S. by rewrite Z2Nat.id. Qed.
Lemma seqZ_cat s a b : 0 ≤ a → 0 ≤ b → seqZ s (a + b) = seqZ s a ++ seqZ (s + a) b.
Proof. intros. by rewrite seqZ_app. Qed.
Lemma elements_push n v k : 0 ≤ n → elements (n + 1) (k <| inline_elements ::= <[n := v]> |>) = elements n k ++ [v].
Proof.
  intros. unfold elements. rewrite seqZ_snoc, fmap_app by done. f_equal.
  - apply list_fmap_ext. intros j i [-> ?]%lookup_seqZ. cbn. by rewrite lookup_insert_ne by lia.
  - cbn. by rewrite lookup_insert_eq.
Qed.
Lemma ranges_snoc n k : 0 ≤ n → ranges (n + 1) k = ranges n k ++ range k n.
Proof. intros. unfold ranges. rewrite seqZ_snoc, fmap_app, concat_app by done. cbn. by rewrite app_nil_r. Qed.
Lemma ranges_ext n k k' :
  (∀ i, 0 ≤ i < n → draw_start k i = draw_start k' i ∧ draw_count k i = draw_count k' i) → ranges n k = ranges n k'.
Proof.
  intros H. unfold ranges. f_equal. apply list_fmap_ext. intros j i [-> ?]%lookup_seqZ. unfold range.
  by destruct (H (0 + Z.of_nat j)) as [-> ->]; [lia|].
Qed.

(** ** Elements *)

Definition pushed (v : Z) (d : D) : D :=
  let n := inline_elements_length (pgraph d) in
  d <| pgraph ::= λ pg, pg <| inline_elements_length := n + 1 |>
                           <| drawing ::= λ k, k <| inline_elements ::= <[n := v]> |> |> |>.
Definition pushes (vs : list Z) (d : D) : D := foldl (λ d v, pushed v d) d vs.

Lemma run_push_element v d : 0 ≤ inline_elements_length (pgraph d) < NV2A_MAX_BATCH_LENGTH →
  push_element v d = Ok (tt, pushed v d).
Proof.
  intros Hn. unfold push_element. rewrite (run_bind _ _ d _ d) by done. cbv zeta.
  assert (u32 (inline_elements_length (pgraph d) + 1) = inline_elements_length (pgraph d) + 1) as ->
    by (unfold u32; apply Z.mod_small; lia).
  set (d1 := d <| pgraph ::= λ pg, pg <| inline_elements_length := inline_elements_length (pgraph d) + 1 |> |>).
  rewrite (run_bind _ _ tt _ d1) by done. unfold poke. rewrite (run_bind _ _ tt _ d1); [done|]. apply run_inBounds. lia.
Qed.
Lemma run_pushes vs d : 0 ≤ inline_elements_length (pgraph d) →
  inline_elements_length (pgraph d) + Z.of_nat (length vs) ≤ NV2A_MAX_BATCH_LENGTH →
  forM vs push_element d = Ok (tt, pushes vs d).
Proof.
  revert d. induction vs as [|v vs IH]; intros d H0 Hn; [done|]. cbn [length] in Hn. cbn [forM].
  rewrite (run_bind _ _ tt _ (pushed v d)) by (apply run_push_element; lia). rewrite IH; [done|cbn; lia|cbn; lia].
Qed.

(** What elements change. *)
Lemma pushes_spec vs d : 0 ≤ inline_elements_length (pgraph d) →
  let n := inline_elements_length (pgraph d) in
  let pg' := pgraph (pushes vs d) in
  inline_elements_length pg' = n + Z.of_nat (length vs) ∧
  elements (n + Z.of_nat (length vs)) (drawing pg') = elements n (drawing (pgraph d)) ++ vs ∧
  draw_arrays_length pg' = draw_arrays_length (pgraph d) ∧
  draw_arrays_prevent_connect pg' = draw_arrays_prevent_connect (pgraph d) ∧
  draw_arrays_start (drawing pg') = draw_arrays_start (drawing (pgraph d)) ∧
  draw_arrays_count (drawing pg') = draw_arrays_count (drawing (pgraph d)).
Proof.
  revert d. induction vs as [|v vs IH]; intros d H0; cbn zeta.
  { cbn [length]. rewrite Z.add_0_r, app_nil_r. by split_and!. }
  change (pushes (v :: vs) d) with (pushes vs (pushed v d)).
  destruct (IH (pushed v d)) as (H1 & H2 & H3 & H4 & H5 & H6); [cbn; lia|].
  change (inline_elements_length (pgraph (pushed v d))) with (inline_elements_length (pgraph d) + 1) in H1, H2.
  replace (inline_elements_length (pgraph d) + Z.of_nat (length (v :: vs)))
    with (inline_elements_length (pgraph d) + 1 + Z.of_nat (length vs)) by (cbn [length]; lia).
  split_and!; [done| |done|done|done|done]. rewrite H2.
  change (drawing (pgraph (pushed v d))) with
    ((drawing (pgraph d)) <| inline_elements ::= <[inline_elements_length (pgraph d) := v]> |>).
  rewrite elements_push by done. by rewrite <-app_assoc.
Qed.

Lemma range_elements start count d : 0 ≤ start → start + count ≤ 2 ^ 32 →
  forM (seqZ 0 count) (λ i, push_element (u32 (start + i))) d = forM (seqZ start count) push_element d.
Proof.
  intros. rewrite (forM_fmap _ (λ i, u32 (start + i)) push_element). f_equal.
  trans (Z.add start <$> seqZ 0 count); [|by rewrite fmap_add_seqZ, Z.add_0_r].
  apply list_fmap_ext. intros j i [-> ?]%lookup_seqZ. unfold u32. by rewrite Z.mod_small by lia.
Qed.

Lemma indices_elements d : draw_arrays_length (pgraph d) = 0 →
  indices d = elements (inline_elements_length (pgraph d)) (drawing (pgraph d)).
Proof. intros H. unfold indices. rewrite H. apply app_nil_r. Qed.
Lemma indices_ranges d : inline_elements_length (pgraph d) = 0 →
  indices d = ranges (draw_arrays_length (pgraph d)) (drawing (pgraph d)).
Proof. intros H. unfold indices. by rewrite H. Qed.
Lemma indices_length d : draws_ok d → draw_arrays_length (pgraph d) = 0 →
  Z.of_nat (length (indices d)) = inline_elements_length (pgraph d).
Proof. intros (? & _) ?. rewrite indices_elements by done. unfold elements. rewrite length_fmap, length_seqZ. lia. Qed.

Lemma run_elements vs d : draws_ok d → draw_arrays_length (pgraph d) = 0 →
  Z.of_nat (length (indices d ++ vs)) ≤ NV2A_MAX_BATCH_LENGTH →
  ∃ d', forM vs push_element d = Ok (tt, d') ∧ draws_ok d' ∧ draw_arrays_length (pgraph d') = 0 ∧
    indices d' = indices d ++ vs.
Proof.
  intros Hok Hdl Hlen. rewrite length_app, Nat2Z.inj_add, (indices_length d) in Hlen by done.
  destruct Hok as (H0 & H1 & H2 & H3 & H4).
  destruct (pushes_spec vs d) as (E1 & E2 & E3 & E4 & E5 & E6); [lia|].
  exists (pushes vs d). split_and!; [apply run_pushes; lia| |congruence|].
  - split_and!; rewrite ?E1, ?E3, ?E4; first [lia | by auto | intros; lia].
  - rewrite !indices_elements by congruence. by rewrite E1, E2.
Qed.

(** ** Ranges become elements *)

Definition no_draws (d : D) : D :=
  d <| pgraph ::= λ pg, pg <| draw_arrays_length := 0 |> <| draw_arrays_prevent_connect := false |>
         <| drawing ::= λ k, k <| draw_arrays_min_start := u32 (-1) |> <| draw_arrays_max_count := 0 |> |> |>.
Lemma run_reset_draws d : pgraph_reset_draw_arrays d = Ok (tt, no_draws d).
Proof. done. Qed.

Lemma run_expand_pending d : draws_ok d → draw_arrays_length (pgraph d) ≤ 1 →
  Z.of_nat (length (indices d)) < NV2A_MAX_BATCH_LENGTH →
  ∃ d', expand_pending d = Ok (tt, d') ∧ draws_ok d' ∧ draw_arrays_length (pgraph d') = 0 ∧ indices d' = indices d.
Proof.
  intros Hok H1 Hlen. unfold expand_pending. rewrite (run_bind _ _ d _ d) by done. unfold truthy.
  destruct (Z.eqb_spec (draw_arrays_length (pgraph d)) 0) as [E|E]; [by exists d|]. cbn [negb whenM].
  pose proof Hok as (H0 & Hdl & Hel & _ & Hr). assert (draw_arrays_length (pgraph d) = 1) as E1 by lia.
  assert (inline_elements_length (pgraph d) = 0) as E0 by lia.
  destruct (Hr 0) as (Hs & Hc & Hb); [lia|].
  assert (indices d = range (drawing (pgraph d)) 0) as Hi.
  { rewrite indices_ranges, E1 by done. exact (ranges_snoc 0 _ ltac:(lia)). }
  rewrite Hi in *. unfold range in *. rewrite length_seqZ in Hlen.
  set (st := draw_start (drawing (pgraph d)) 0) in *. set (ct := draw_count (drawing (pgraph d)) 0) in *.
  unfold pgraph_expand_draw_arrays. rewrite (run_bind _ _ d _ d) by done. rewrite E1. change (u32 (1 - 1)) with 0.
  rewrite (run_bind _ _ tt _ d) by (by apply run_inBounds). cbv zeta. fold st ct.
  assert (u32 st = st ∧ u32 ct = ct) as [-> ->] by (unfold u32; rewrite !Z.mod_small; lia).
  rewrite (run_bind _ _ tt _ d) by done. rewrite (run_bind _ _ d _ d) by done. rewrite E0.
  rewrite (run_bind _ _ tt _ d) by (apply run_assert; unfold u32; rewrite Z.mod_small; lia).
  destruct (pushes_spec (seqZ st ct) d) as (F1 & F2 & _); [lia|]. rewrite length_seqZ in F1, F2.
  rewrite (run_bind _ _ tt _ (pushes (seqZ st ct) d)).
  2: { rewrite range_elements by lia. apply run_pushes; rewrite ?length_seqZ; lia. }
  rewrite run_reset_draws. eexists. split; [done|].
  rewrite E0 in F1, F2. split_and!; [|done|].
  - split_and!; cbn; rewrite ?F1; first [done | lia | intros; lia].
  - rewrite indices_elements by done. cbn. rewrite F1.
    change (elements (0 + Z.of_nat (Z.to_nat ct)) (drawing (pgraph (pushes (seqZ st ct) d))) = seqZ st ct). by rewrite F2.
Qed.

(** ** More ranges *)

Definition connect (n c : Z) (k : K) : K := k <| draw_arrays_count ::= <[n - 1 := c]> |>.
Definition append (n s c : Z) (k : K) : K :=
  k <| draw_arrays_start ::= <[n := s]> |> <| draw_arrays_count ::= <[n := c]> |>.

Lemma connect_count n c k i : draw_count (connect n c k) i = if i =? n - 1 then c else draw_count k i.
Proof.
  unfold draw_count. cbn. destruct (Z.eqb_spec i (n - 1)) as [->|]; [by rewrite lookup_insert_eq|].
  by rewrite lookup_insert_ne.
Qed.
Lemma append_start n s c k i : draw_start (append n s c k) i = if i =? n then s else draw_start k i.
Proof.
  unfold draw_start. cbn. destruct (Z.eqb_spec i n) as [->|]; [by rewrite lookup_insert_eq|]. by rewrite lookup_insert_ne.
Qed.
Lemma append_count n s c k i : draw_count (append n s c k) i = if i =? n then c else draw_count k i.
Proof.
  unfold draw_count. cbn. destruct (Z.eqb_spec i n) as [->|]; [by rewrite lookup_insert_eq|]. by rewrite lookup_insert_ne.
Qed.

Lemma ranges_connect n c k : 0 < n → 0 ≤ draw_count k (n - 1) → 0 ≤ c →
  ranges n (connect n (draw_count k (n - 1) + c) k) = ranges n k ++ seqZ (draw_start k (n - 1) + draw_count k (n - 1)) c.
Proof.
  intros. set (c' := draw_count k (n - 1) + c).
  assert (∀ k', ranges n k' = ranges (n - 1) k' ++ range k' (n - 1)) as Hn.
  { intros k'. rewrite <-(ranges_snoc (n - 1)) by lia. f_equal. lia. }
  rewrite !Hn, <-app_assoc. f_equal.
  - apply ranges_ext. intros i ?. rewrite connect_count. by destruct (Z.eqb_spec i (n - 1)); [lia|].
  - unfold range. rewrite connect_count, Z.eqb_refl. unfold c'. by rewrite seqZ_cat.
Qed.
Lemma ranges_append n s c k : 0 ≤ n → ranges (n + 1) (append n s c k) = ranges n k ++ seqZ s c.
Proof.
  intros. rewrite ranges_snoc by done. f_equal.
  - apply ranges_ext. intros i ?. rewrite append_start, append_count. by destruct (Z.eqb_spec i n); [lia|].
  - unfold range. by rewrite append_start, append_count, Z.eqb_refl.
Qed.

(** Whether a range continues the last one. *)
Definition continues (start : Z) (d : D) : bool :=
  let n := draw_arrays_length (pgraph d) in
  negb (draw_arrays_prevent_connect (pgraph d)) && (0 <? n) &&
  (start =? u32 (u32 (draw_start (drawing (pgraph d)) (n - 1)) + draw_count (drawing (pgraph d)) (n - 1))).
Definition bounds (start count : Z) : K → K := λ k,
  k <| draw_arrays_min_start ::= λ m, Z.min m start |> <| draw_arrays_max_count ::= λ m, Z.max m (start + count) |>.
Definition added (start count : Z) (d : D) : D :=
  let n := draw_arrays_length (pgraph d) in
  if continues start d then
    upd (λ k, connect n (s32 (draw_count (drawing (pgraph d)) (n - 1) + count)) (bounds start count k)) d
  else
    d <| pgraph ::= λ pg, pg <| drawing ::= λ k, append n start count (bounds start count k) |>
           <| draw_arrays_length := n + 1 |> <| draw_arrays_prevent_connect := false |> |>.
Lemma run_added start count d : draw_arrays_length (pgraph d) < DRAW_ARRAYS_MAX →
  add_draw start count d = Ok (tt, added start count d).
Proof.
  intros. unfold add_draw. rewrite (run_bind _ _ tt _ (upd (bounds start count) d)) by done.
  rewrite (run_bind _ _ (upd (bounds start count) d) _ (upd (bounds start count) d)) by done. cbv zeta.
  rewrite (run_bind _ _ tt _ (upd (bounds start count) d)) by (apply run_assert; cbn; lia).
  change (draw_start (drawing (pgraph (upd (bounds start count) d)))) with (draw_start (drawing (pgraph d))).
  change (draw_count (drawing (pgraph (upd (bounds start count) d)))) with (draw_count (drawing (pgraph d))).
  unfold added. change (negb (draw_arrays_prevent_connect (pgraph (upd (bounds start count) d))) && _ && _)
    with (continues start d). by destruct (continues start d).
Qed.

Lemma run_add_draw start count d : draws_ok d → inline_elements_length (pgraph d) = 0 →
  draw_arrays_length (pgraph d) < DRAW_ARRAYS_MAX → 0 ≤ start < 2 ^ 24 → 0 < count ≤ 2 ^ 8 →
  ∃ d', add_draw start count d = Ok (tt, d') ∧ draws_ok d' ∧ indices d' = indices d ++ seqZ start count.
Proof.
  intros (H0 & Hdl & Hel & Hp & Hr) E0 Hlt Hs Hc. exists (added start count d).
  split; [by apply run_added|]. rewrite (indices_ranges d) by done. unfold added. destruct (continues start d) eqn:E.
  - unfold continues in E. rewrite !andb_true_iff in E. destruct E as [[_ E1] E2].
    set (n := draw_arrays_length (pgraph d)) in *. set (k := drawing (pgraph d)) in *.
    destruct (Hr (n - 1)) as (? & ? & ?); [lia|].
    assert (start = draw_start k (n - 1) + draw_count k (n - 1)) as ->.
    { apply Z.eqb_eq in E2. rewrite E2. unfold u32. rewrite (Z.mod_small (draw_start k (n - 1))) by lia.
      apply Z.mod_small. lia. }
    assert (s32 (draw_count k (n - 1) + count) = draw_count k (n - 1) + count) as -> by (unfold s32; rewrite Z.mod_small; lia).
    split.
    + split; [exact H0|]. split; [exact Hdl|]. split; [exact Hel|]. split; [exact Hp|]. intros i Hi.
      change (0 ≤ i < n) in Hi. change (drawing _) with (connect n (draw_count k (n - 1) + count)
        (bounds (draw_start k (n - 1) + draw_count k (n - 1)) count k)).
      change (draw_start _ i) with (draw_start k i). rewrite connect_count.
      change (draw_count (bounds _ _ k) i) with (draw_count k i). destruct (Hr i Hi) as (? & ? & ?).
      destruct (Z.eqb_spec i (n - 1)) as [->|]; lia.
    + rewrite indices_ranges by done. cbn. fold n k.
      exact (ranges_connect n count (bounds (draw_start k (n - 1) + draw_count k (n - 1)) count k)
        ltac:(lia) ltac:(unfold bounds, draw_count in *; cbn in *; lia) ltac:(lia)).
  - split.
    + split; [exact H0|]. split; [cbn; lia|]. split; [cbn; lia|]. split; [done|]. intros i Hi. cbn in Hi |- *.
      rewrite append_start, append_count.
      destruct (Z.eqb_spec i (draw_arrays_length (pgraph d))); [lia|]. apply Hr. lia.
    + rewrite indices_ranges by done.
      exact (ranges_append (draw_arrays_length (pgraph d)) start count (bounds start count (drawing (pgraph d))) ltac:(lia)).
Qed.

(** ** The methods *)

Lemma draw_fields p :
  0 ≤ GET_MASK p NV097_DRAW_ARRAYS_START_INDEX < 2 ^ 24 ∧ 0 ≤ GET_MASK p NV097_DRAW_ARRAYS_COUNT < 2 ^ 8.
Proof. split; [by apply (GET_MASK_range _ 0 24)|by apply (GET_MASK_range _ 24 8)]. Qed.

Definition by_index (n : draw_name) : Prop := n = ARRAY_ELEMENT16 ∨ n = ARRAY_ELEMENT32.

Lemma run_array_elements n p d vs : by_index n → names n p = vs → draws_ok d → draw_arrays_length (pgraph d) ≤ 1 →
  Z.of_nat (length (indices d ++ vs)) ≤ NV2A_MAX_BATCH_LENGTH →
  ∃ d', draw_method n p d = Ok (tt, d') ∧ draws_ok d' ∧ indices d' = indices d ++ vs.
Proof.
  intros Hn <- Hok H1 Hlen.
  assert (Z.of_nat (length (indices d)) < NV2A_MAX_BATCH_LENGTH) as Hlt.
  { rewrite length_app in Hlen. destruct Hn as [->| ->]; cbn in Hlen; lia. }
  destruct (run_expand_pending d Hok H1 Hlt) as (d1 & Hr1 & Hok1 & Hd1 & Hi1).
  destruct (run_elements (names n p) d1 Hok1 Hd1) as (d2 & Hr2 & Hok2 & _ & Hi2); [by rewrite Hi1|].
  exists d2. split_and!; [|done|by rewrite Hi2, Hi1].
  pose proof (indices_length d1 Hok1 Hd1) as Hl1. rewrite Hi1 in Hl1.
  destruct Hn as [->| ->]; unfold_draw; rewrite (run_bind _ _ _ _ _ Hr1), (run_bind _ _ d1 _ d1) by done;
    rewrite (run_bind _ _ tt _ d1) by (apply run_assert; lia); rewrite <-Hr2; cbn [names forM].
  - rewrite <-(Z.shiftr_div_pow2 p 16), <-(Z.land_ones p 16) by lia. change (Z.ones 16) with 0xFFFF.
    unfold mbind, M_bind. destruct (push_element _ d1) as [[[] d3]|e]; [|done]. by destruct (push_element _ d3) as [[[] ?]|?].
  - unfold mbind, M_bind. by destruct (push_element _ d1) as [[[] ?]|?].
Qed.
End draw.

(** C20. Draws by index: DRAW_ARRAYS, ARRAY_ELEMENT16 and ARRAY_ELEMENT32 add the vertices they name,
    in order, to the list of vertices the code stands at, whatever mix of connected ranges, separate
    ranges and elements it keeps that list as.  They return as long as there is room, and
    before a first element no more than one range is pending. *)
Theorem draws_add_indices {V R} `{!VGACommon V} `{!Renderer V R} n p (d : NV2AState V (KelvinState R)) :
  n = DRAW_ARRAYS ∨ by_index n → draws_ok d →
  Z.of_nat (length (indices d ++ names n p)) < NV2A_MAX_BATCH_LENGTH →
  (n = DRAW_ARRAYS → draw_arrays_length (pgraph d) < DRAW_ARRAYS_MAX) →
  (by_index n → draw_arrays_length (pgraph d) ≤ 1) →
  ∃ d', draw_method n p d = Ok (tt, d') ∧ draws_ok d' ∧ indices d' = indices d ++ names n p.
Proof.
  intros Hn Hok Hlen Hroom Hone. destruct Hn as [->|Hn]; [|eapply run_array_elements; eauto; lia].
  destruct (draw_fields p) as [Hs Hc]. cbn [draw_method names]; unfold draw_arrays. cbv zeta.
  set (start := GET_MASK p NV097_DRAW_ARRAYS_START_INDEX) in *. set (count := GET_MASK p NV097_DRAW_ARRAYS_COUNT + 1) in *.
  rewrite (run_bind _ _ d _ d) by done. unfold truthy.
  destruct (Z.eqb_spec (inline_elements_length (pgraph d)) 0) as [E|E]; cbn [negb].
  { apply run_add_draw; [done|done|by apply Hroom|done|lia]. }
  pose proof Hok as (Hel & _ & Hd & Hpc & _). specialize (Hd E).
  cbn [names] in Hlen. fold start count in Hlen.
  destruct (run_elements (seqZ start count) d Hok Hd) as (d' & Hr & Hok' & _ & Hi); [lia|].
  exists d'. split_and!; [|done|done].
  rewrite length_app, length_seqZ, Nat2Z.inj_add, (indices_length d Hok Hd) in Hlen.
  rewrite (run_bind _ _ tt _ d) by (apply run_assert; unfold u32; rewrite Z.mod_small; lia).
  rewrite (run_bind _ _ tt _ d) by (apply run_assert; by rewrite Hpc).
  by rewrite range_elements by lia.
Qed.

(** ARRAY_ELEMENT16 checks for room for one element and stores two: the last of the buffer is
    followed by a store past its end. *)
Lemma array_element16_overruns {V R} `{!VGACommon V} `{!Renderer V R} p (d : NV2AState V (KelvinState R)) :
  inline_elements_length (pgraph d) = NV2A_MAX_BATCH_LENGTH - 1 → draw_arrays_length (pgraph d) = 0 →
  draw_method ARRAY_ELEMENT16 p d = Fault OutOfBounds.
Proof.
  intros He Hd. unfold_draw. unfold expand_pending.
  rewrite (run_bind _ _ tt _ d) by (rewrite (run_bind _ _ d _ d) by done; by rewrite Hd).
  rewrite (run_bind _ _ d _ d) by done. rewrite He.
  rewrite (run_bind _ _ tt _ d) by done.
  rewrite (run_bind _ _ tt _ (pushed (p &&& 0xFFFF) d)) by (apply run_push_element; lia).
  unfold push_element. rewrite (run_bind _ _ (pushed (p &&& 0xFFFF) d) _ (pushed (p &&& 0xFFFF) d)) by done.
  cbn. by rewrite He.
Qed.
