(* ===== verification/KelvinSafe.v ===== *)
(** * KelvinSafe: the 3D class is memory safe

    [kelvin_ok] is the type of the state: arrays of their sizes and lengths within them.  For
    a renderer that keeps it ([RendererSafe]; the null renderer does), every method of the table
    keeps it, or stops in one of the ways of [may_stop]: an assertion fails; the modulus of
    FLIP_INCREMENT_WRITE is 0; or a store of ARRAY_ELEMENT16, of a semaphore or of a report is out
    of bounds. *)

From stdpp Require Import gmap.
From S2P Require Import Prelude.
From S2P Require Import Nv2aRegs.
From S2P Require Import KelvinRegs.
From S2P Require Import Nv2a.
From S2P Require Import Pgraph.
From S2P Require Import Kelvin.
From S2P Require Import KelvinMethods.
From S2P Require Import KelvinTable.
From S2P Require Import KelvinSpec.
From S2P Require Import KelvinVertex.
From S2P Require Import KelvinDraw.

(** The arrays of fixed size. *)
Record arrays_ok {R} (k : KelvinState R) (constants : list Z) : Prop := {
  a_textures : length (texture_dirty k) = 4%nat;
  a_matrices : length (texture_matrix_enable k) = 4%nat;
  a_v0 : length (vertex_state_shader_v0 k) = 4%nat;
  a_program : length (program_data k) = 544%nat;
  a_constants : length constants = 768%nat;
  a_constants_dirty : length (vsh_constants_dirty k) = 192%nat;
  a_ltctxa : length (ltctxa k) = 104%nat;
  a_ltctxa_dirty : length (ltctxa_dirty k) = 26%nat;
  a_ltctxb : length (ltctxb k) = 208%nat;
  a_ltctxb_dirty : length (ltctxb_dirty k) = 52%nat;
  a_ltc1 : length (ltc1 k) = 80%nat;
  a_ltc1_dirty : length (ltc1_dirty k) = 20%nat;
  a_half_vector : length (light_infinite_half_vector k) = 24%nat;
  a_direction : length (light_infinite_direction k) = 24%nat;
  a_position : length (light_local_position k) = 24%nat;
  a_attenuation : length (light_local_attenuation k) = 24%nat;
  a_specular : length (specular_params k) = 6%nat;
  a_specular_back : length (specular_params_back k) = 6%nat;
  a_point : length (point_params k) = 8%nat;
  a_attributes : length (vertex_attributes k) = 16%nat
}.

Definition kelvin_ok {V R} (d : NV2AState V (KelvinState R)) : Prop :=
  arrays_ok (drawing (pgraph d)) (vsh_constants (pgraph d)) ∧ draws_ok d ∧ 0 ≤ vertices d ≤ NV2A_MAX_BATCH_LENGTH ∧
  0 ≤ inline_array_length (drawing (pgraph d)) ≤ NV2A_MAX_BATCH_LENGTH.

(** How a method may stop. *)
Definition stores_unchecked (n : kelvin_name) : Prop :=
  n = Draws ARRAY_ELEMENT16 ∨ n = Draws GET_REPORT ∨ n = BackEnd BACK_END_WRITE_SEMAPHORE_RELEASE.
Definition may_stop (n : kelvin_name) (f : fault) : Prop :=
  f = AssertFailed ∨ (f = DivByZero ∧ n = Control FLIP_INCREMENT_WRITE) ∨ (f = OutOfBounds ∧ stores_unchecked n).

(** Code that keeps the type of the state, or stops as [E] allows; its value satisfies [P]. *)
Definition typed {V R A} (E : fault → Prop) (P : A → Prop) (m : M (NV2AState V (KelvinState R)) A) : Prop :=
  ∀ d, kelvin_ok d → wpE m (λ a d', P a ∧ kelvin_ok d') E d.
Abbreviation keeps_type E m := (typed E (λ _, True) m).

(** What the renderer promises.  A transform program runs on the arrays in place. *)
Class RendererSafe (V R : Type) `{!Renderer V R} := {
  safe_clear_report_value : keeps_type (λ f, f = AssertFailed) (op_clear_report_value (V := V) (R := R));
  safe_clear_surface : ∀ p, keeps_type (λ f, f = AssertFailed) (op_clear_surface (V := V) (R := R) p);
  safe_draw_begin : keeps_type (λ f, f = AssertFailed) (op_draw_begin (V := V) (R := R));
  safe_draw_end : keeps_type (λ f, f = AssertFailed) (op_draw_end (V := V) (R := R));
  safe_flip_stall : keeps_type (λ f, f = AssertFailed) (op_flip_stall (V := V) (R := R));
  safe_flush_draw : keeps_type (λ f, f = AssertFailed) (op_flush_draw (V := V) (R := R));
  safe_get_report : ∀ p, keeps_type (λ f, f = AssertFailed ∨ f = OutOfBounds) (op_get_report (V := V) (R := R) p);
  safe_process_pending_reports : keeps_type (λ f, f = AssertFailed) (op_process_pending_reports (V := V) (R := R));
  safe_surface_update : ∀ u c z, keeps_type (λ f, f = AssertFailed) (op_surface_update (V := V) (R := R) u c z);
  vsh_in_place : ∀ program v0 constants dirty constants' dirty',
    nv2a_vsh (V := V) (R := R) program v0 constants dirty = Some (constants', dirty') →
    length constants' = length constants ∧ length dirty' = length dirty
}.

(** ** Steps *)

Section typed.
Context {V R : Type} `{!VGACommon V}.
Abbreviation D := (NV2AState V (KelvinState R)).
Implicit Types (E : fault → Prop) (d : D).

Lemma typed_ret {A} E (P : A → Prop) (a : A) : P a → typed (V := V) (R := R) E P (mret a).
Proof. intros HP d Hd. by apply wpE_ret. Qed.
Lemma typed_bind {A B} E (Q : A → Prop) (P : B → Prop) (m : M D A) (k : A → M D B) :
  typed E Q m → (∀ a, Q a → typed E P (k a)) → typed E P (m ≫= k).
Proof.
  intros Hm Hk d Hd. apply wpE_bind. eapply wpE_mono; [by apply Hm|]. intros a d' [Ha Hd']. by apply Hk.
Qed.
Lemma typed_state {B} E (P : B → Prop) (k : D → M D B) :
  (∀ d, kelvin_ok d → wpE (k d) (λ b d', P b ∧ kelvin_ok d') E d) → typed E P (gets id ≫= k).
Proof. intros Hk d Hd. apply wpE_bind, wpE_gets. by apply Hk. Qed.
Lemma typed_modify E (f : D → D) : (∀ d, kelvin_ok d → kelvin_ok (f d)) → keeps_type E (modify f).
Proof. intros Hf d Hd. apply wpE_modify. auto. Qed.
Lemma typed_gets {A} E (f : D → A) : keeps_type E (gets f).
Proof. intros d Hd. by apply wpE_gets. Qed.
Lemma typed_raise {A} E (P : A → Prop) e : E e → typed (V := V) (R := R) E P (raise e).
Proof. intros HE d Hd. by apply wpE_raise. Qed.
Lemma typed_assert E b : E AssertFailed → typed (V := V) (R := R) E (λ _, b = true) (assertM b).
Proof. intros HE d Hd. by apply wpE_assert. Qed.
Lemma typed_inBounds E b : b = true → typed (V := V) (R := R) E (λ _, True) (inBounds b).
Proof. intros -> d Hd. done. Qed.
Lemma typed_when E b (m : M D unit) : (b = true → keeps_type E m) → keeps_type E (whenM b m).
Proof. destruct b; [auto|]. intros _. by apply typed_ret. Qed.
Lemma typed_if {A} E (P : A → Prop) (b : bool) (m1 m2 : M D A) :
  (b = true → typed E P m1) → (b = false → typed E P m2) → typed E P (if b then m1 else m2).
Proof. destruct b; auto. Qed.
Lemma typed_forM {Y} E (l : list Y) (body : Y → M D unit) :
  (∀ y, y ∈ l → keeps_type E (body y)) → keeps_type E (forM l body).
Proof.
  induction l as [|y l IH]; intros H; [by apply typed_ret|].
  apply (typed_bind _ (λ _, True)); [apply H; left|]. intros _ _. apply IH. intros; apply H. by right.
Qed.
Lemma typed_weaken {A} (E E' : fault → Prop) (P : A → Prop) (m : M D A) :
  typed E P m → (∀ f, E f → E' f) → typed E' P m.
Proof. intros Hm HE d Hd. eapply wpE_mono_E; [by apply Hm|done]. Qed.
Lemma typed_drop {A} E (P : A → Prop) (m : M D A) : typed E P m → typed E (λ _, True) m.
Proof. intros Hm d Hd. eapply wpE_mono; [by apply Hm|]. by intros a d' [_ ?]. Qed.
End typed.

(** Goes through a program whose steps have hints. *)
Create HintDb typed.
#[export] Hint Resolve typed_gets : typed.
#[export] Hint Extern 1 (typed _ _ (mret _)) => (apply typed_ret; done) : typed.

Ltac typed_steps := repeat
  lazymatch goal with
  | |- typed _ _ (mret _) => apply typed_ret; done
  | |- typed _ _ (assertM _ ≫= _) => eapply typed_bind; [apply typed_assert; by left|intros [] ?]
  | |- typed _ _ (assertM _) => eapply typed_drop; apply typed_assert; by left
  | |- typed _ _ (_ ≫= _) => eapply typed_bind; [|intros ? ?]
  | |- typed _ _ (whenM _ _) => apply typed_when; intros ?
  | |- typed _ _ (if _ then _ else _) => apply typed_if; intros ?
  | |- typed _ _ (let _ := _ in _) => cbv zeta
  | |- typed _ _ (match ?x with _ => _ end) => destruct x eqn:?
  | |- typed _ _ (raise AssertFailed) => apply typed_raise; by left
  | |- typed _ _ _ => solve [eauto 3 with typed]
  end.

(** ** Registers and arrays *)

Section arrays.
Context {V R : Type} `{!VGACommon V}.
Abbreviation D := (NV2AState V (KelvinState R)).
Variable n : kelvin_name.
Local Abbreviation keeps m := (typed (V := V) (R := R) (may_stop n) (λ _, True) m).

Lemma typed_reg_r r : 0 ≤ r < 0x2000 → keeps (pgraph_reg_r r).
Proof.
  intros Hr d Hd. unfold pgraph_reg_r, reg_r. apply wpE_bind, wpE_assert; [intros _|by left].
  apply wpE_bind, wpE_gets, wpE_bind, wpE_inBounds; [intros _; by apply wpE_ret|lia].
Qed.
Lemma typed_reg_w r v : 0 ≤ r < 0x2000 → keeps (pgraph_reg_w r v).
Proof.
  intros Hr d Hd. unfold pgraph_reg_w, reg_r. apply wpE_bind, wpE_assert; [intros _|by left].
  apply wpE_bind, wpE_gets, wpE_bind, wpE_bind, wpE_inBounds; [intros _|lia]. apply wpE_ret, wpE_bind, wpE_when.
  - intros _. by apply wpE_modify, wpE_modify.
  - intros _. by apply wpE_modify.
Qed.
Lemma typed_get_mask r mask : 0 ≤ r < 0x2000 → keeps (PG_GET_MASK r mask).
Proof. intros. unfold PG_GET_MASK. eapply typed_bind; [by apply typed_reg_r|]. intros. by apply typed_ret. Qed.
Lemma typed_set_mask r mask v : 0 ≤ r < 0x2000 → keeps (PG_SET_MASK r mask v).
Proof. intros. unfold PG_SET_MASK. eapply typed_bind; [by apply typed_reg_r|]. intros. by apply typed_reg_w. Qed.

(** A change of the 3D state that keeps the sizes of the arrays and leaves alone what is
    counted. *)
Definition harmless (f : KelvinState R → KelvinState R) : Prop := ∀ k c, arrays_ok k c →
  arrays_ok (f k) c ∧ draw_arrays_start (f k) = draw_arrays_start k ∧ draw_arrays_count (f k) = draw_arrays_count k ∧
  inline_buffer_length (f k) = inline_buffer_length k ∧ inline_array_length (f k) = inline_array_length k.

Lemma harmless_ok f (d : D) : harmless f → kelvin_ok d → kelvin_ok (upd f d).
Proof.
  intros Hf (Ha & Hd & Hv & Hi). destruct (Hf _ _ Ha) as (Ha' & E1 & E2 & E3 & E4).
  split; [exact Ha'|]. split; [|unfold vertices; cbn; rewrite E3, E4; by split].
  destruct Hd as (H0 & H1 & H2 & H3 & H4). do 4 (split; [assumption|]).
  intros i Hi'. unfold draw_start, draw_count. cbn. rewrite E1, E2. by apply H4.
Qed.
Lemma typed_set_k f : harmless f → keeps (set_k f).
Proof. intros Hf d Hd. split; [done|]. by apply harmless_ok. Qed.
Lemma typed_poke len i f : 0 ≤ i < len → (∀ j, harmless (f j)) → keeps (poke len i f).
Proof.
  intros Hi Hf. unfold poke. eapply typed_bind; [apply typed_inBounds; lia|]. intros _ _. by apply typed_set_k.
Qed.
Lemma typed_poke2 rows cols row col f : 0 ≤ row < rows → 0 ≤ col < cols → (∀ i j, harmless (f i j)) →
  keeps (poke2 rows cols row col f).
Proof.
  intros Hr Hc Hf. unfold poke2. eapply typed_bind; [apply typed_inBounds; lia|]. intros _ _. by apply typed_set_k.
Qed.
End arrays.

Ltac harmless :=
  intros; intros ? ? []; (split; [split; cbn; rewrite ?length_insert, ?length_alter; assumption|by split_and!]).

Section arrays2.
Context {V R : Type} `{!VGACommon V}.
Abbreviation D := (NV2AState V (KelvinState R)).
Variable n : kelvin_name.
Local Abbreviation keeps m := (typed (V := V) (R := R) (may_stop n) (λ _, True) m).

Lemma constants_ok (d : D) f : length (f (vsh_constants (pgraph d))) = length (vsh_constants (pgraph d)) →
  kelvin_ok d → kelvin_ok (d <| pgraph ::= λ pg, pg <| vsh_constants ::= f |> |>).
Proof. intros Hf ([] & Hr). split; [|exact Hr]. split; cbn; try assumption. by rewrite Hf. Qed.
Lemma typed_vsh_constant row col p : 0 ≤ row < NV2A_VERTEXSHADER_CONSTANTS → 0 ≤ col < 4 → keeps (set_vsh_constant row col p).
Proof.
  intros Hr Hc. unfold set_vsh_constant. eapply typed_bind; [apply typed_inBounds; lia|]. intros _ _.
  eapply typed_bind; [apply typed_modify; intros d Hd; apply constants_ok; [apply length_insert|done]|].
  intros _ _. apply typed_set_k. harmless.
Qed.
Lemma typed_ltctxa row col p : 0 ≤ row < NV2A_LTCTXA_COUNT → 0 ≤ col < 4 → keeps (set_ltctxa row col p).
Proof. intros. apply typed_poke2; [done|done|]. harmless. Qed.
Lemma typed_ltctxb row col p : 0 ≤ row < NV2A_LTCTXB_COUNT → 0 ≤ col < 4 → keeps (set_ltctxb row col p).
Proof. intros. apply typed_poke2; [done|done|]. harmless. Qed.
Lemma typed_set_attribute a f : 0 ≤ a < NV2A_VERTEXSHADER_ATTRIBUTES → keeps (set_attribute a f).
Proof. intros. apply typed_poke; [done|]. harmless. Qed.
Lemma typed_set_pg f : (∀ d : D, kelvin_ok d → kelvin_ok (d <| pgraph ::= f |>)) → keeps (set_pg f).
Proof. intros. by apply typed_modify. Qed.
Lemma typed_switch l v : keeps (switch l v).
Proof. unfold switch. destruct (look l v); [by apply typed_ret|apply typed_raise; by left]. Qed.
Lemma typed_texgen p c : keeps (kelvin_map_texgen p c).
Proof. unfold kelvin_map_texgen. typed_steps. Qed.
Lemma typed_update_irq : keeps nv2a_update_irq.
Proof. unfold nv2a_update_irq. repeat (eapply typed_bind; [by apply typed_modify|intros _ _]). by apply typed_modify. Qed.
End arrays2.

(** ** Vertices and draws *)

Section drawing.
Context {V R : Type} `{!VGACommon V} `{!Renderer V R} `{!RendererSafe V R}.
Abbreviation D := (NV2AState V (KelvinState R)).
Variable n : kelvin_name.
Local Abbreviation keeps m := (typed (V := V) (R := R) (may_stop n) (λ _, True) m).
Implicit Types (d : D).

Lemma typed_op {A} (m : M D A) : keeps_type (λ f, f = AssertFailed) m → keeps m.
Proof. intros Hm. eapply typed_weaken; [exact Hm|]. intros f ->. by left. Qed.

Lemma attrs_ok d f : (∀ l, length l = 16%nat → length (f l) = 16%nat) → kelvin_ok d → kelvin_ok (with_attrs f d).
Proof.
  intros Hf Hd. apply (harmless_ok (λ k, k <| vertex_attributes ::= f |>)); [|done].
  intros k c []. split; [split; cbn; try assumption; by apply Hf|by split_and!].
Qed.
Lemma typed_finish : keeps pgraph_finish_inline_buffer_vertex.
Proof.
  intros d Hd. pose proof Hd as (Ha & Hdr & Hv & Hi). destruct (Z.lt_ge_cases (vertices d) NV2A_MAX_BATCH_LENGTH) as [Hlt|Hge].
  - unfold wpE. rewrite run_finish_vertex by (apply Ha || lia). split; [done|].
    destruct (attrs_ok d (fmap (store_vertex (vertices d)))) as (Ha' & Hd' & Hv' & Hi'); [|done|].
    { intros l Hl. by rewrite length_fmap. }
    split; [by destruct Ha'; split|]. split; [exact Hd'|]. split; [|exact Hi']. unfold finished, vertices in *. cbn in *. lia.
  - unfold pgraph_finish_inline_buffer_vertex, kstate. apply wpE_bind, wpE_gets, wpE_bind, wpE_assert; [|by left].
    unfold vertices in Hge. lia.
Qed.
Lemma typed_submit (s : submission) : fits s → keeps (submit s.1.1 s.1.2 s.2).
Proof.
  intros [Hf Hl]. unfold submit. eapply (typed_bind _ (λ _, True)).
  - intros d Hd. pose proof Hd as (Ha & _ & Hv & _). unfold wpE. rewrite run_values by (apply Ha || done).
    split; [done|]. apply attrs_ok; [|done]. intros l Hl'. by rewrite length_alter.
  - intros _ _. apply typed_when. intros _. apply typed_finish.
Qed.
Lemma typed_array_format slot p : 0 ≤ slot < NV2A_VERTEXSHADER_ATTRIBUTES → keeps (set_array_format slot p).
Proof.
  intros. unfold set_array_format. cbv zeta. eapply typed_bind; [by apply typed_set_attribute|intros _ _].
  eapply typed_bind; [apply typed_switch|intros size _]. eapply typed_bind; [by apply typed_set_attribute|intros _ _].
  eapply typed_bind; [apply typed_when; intros _; eapply typed_drop, typed_assert; by left|intros _ _].
  eapply typed_bind; [apply typed_when; intros _; eapply typed_drop, typed_assert; by left|intros _ _].
  apply typed_if; intros _; apply typed_set_k; harmless.
Qed.

(** The state after a reset and after elements. *)
Lemma no_draws_ok d : arrays_ok (drawing (pgraph d)) (vsh_constants (pgraph d)) →
  0 ≤ inline_elements_length (pgraph d) ≤ NV2A_MAX_BATCH_LENGTH → 0 ≤ vertices d ≤ NV2A_MAX_BATCH_LENGTH →
  0 ≤ inline_array_length (drawing (pgraph d)) ≤ NV2A_MAX_BATCH_LENGTH → kelvin_ok (no_draws d).
Proof.
  intros [] Hel Hv Hi. split; [by split|]. split; [|by split]. split; [exact Hel|]. split; [cbn; lia|].
  split; [done|]. split; [done|]. intros i Hi'. cbn in Hi'. lia.
Qed.
Definition cleared d : D :=
  upd (λ k, k <| inline_array_length := 0 |> <| inline_buffer_length := 0 |>)
    (d <| pgraph ::= λ pg, pg <| inline_elements_length := 0 |> |>).
Lemma run_reset_inline d : pgraph_reset_inline_buffers d = Ok (tt, no_draws (cleared d)).
Proof.
  unfold pgraph_reset_inline_buffers.
  rewrite (run_bind _ _ tt _ (d <| pgraph ::= λ pg, pg <| inline_elements_length := 0 |> |>)) by reflexivity.
  rewrite (run_bind _ _ tt _ (cleared d)) by reflexivity. apply run_reset_draws.
Qed.
Lemma cleared_ok d : kelvin_ok d → kelvin_ok (no_draws (cleared d)).
Proof. intros ([] & _). apply no_draws_ok; [by split|by cbn..]. Qed.
Lemma typed_reset_inline : keeps pgraph_reset_inline_buffers.
Proof. intros d Hd. unfold wpE. rewrite run_reset_inline. split; [done|]. by apply cleared_ok. Qed.
Lemma pushes_rest vs d : arrays_ok (drawing (pgraph d)) (vsh_constants (pgraph d)) →
  arrays_ok (drawing (pgraph (pushes vs d))) (vsh_constants (pgraph (pushes vs d))) ∧
  vertices (pushes vs d) = vertices d ∧
  inline_array_length (drawing (pgraph (pushes vs d))) = inline_array_length (drawing (pgraph d)).
Proof.
  revert d. induction vs as [|v vs IH]; intros d Ha; [done|]. change (pushes (v :: vs) d) with (pushes vs (pushed v d)).
  destruct (IH (pushed v d)) as (? & -> & ->); [by destruct Ha; split|done].
Qed.
Lemma pushes_ok vs d : kelvin_ok d → draw_arrays_length (pgraph d) = 0 →
  inline_elements_length (pgraph d) + Z.of_nat (length vs) ≤ NV2A_MAX_BATCH_LENGTH →
  kelvin_ok (pushes vs d) ∧ draw_arrays_length (pgraph (pushes vs d)) = 0.
Proof.
  intros (Ha & Hdr & Hv & Hi) Hdl Hlen. destruct (pushes_rest vs d Ha) as (Ha' & Ev & Ei).
  pose proof (indices_length d Hdr Hdl) as Hil.
  destruct (run_elements vs d Hdr Hdl) as (d' & Hr & Hdr' & Hdl' & _); [rewrite length_app; lia|].
  destruct Hdr as (H0 & _). rewrite run_pushes in Hr by lia. simplify_eq. split; [|done].
  split; [done|]. split; [done|]. rewrite Ev, Ei. by split.
Qed.

(** The last range becomes elements of a state without any. *)
Lemma expand_last st ct d : kelvin_ok d → inline_elements_length (pgraph d) = 0 →
  0 ≤ st → 0 < ct → st + ct ≤ RANGE_MAX →
  wpE (d ← gets id;
       assertM (u32 (inline_elements_length (pgraph d) + ct) <? NV2A_MAX_BATCH_LENGTH);;
       forM (seqZ 0 ct) (λ i, push_element (u32 (st + i)));;
       pgraph_reset_draw_arrays)
    (λ _ d', kelvin_ok d' ∧ draw_arrays_length (pgraph d') = 0) (may_stop n) d.
Proof.
  intros (Ha & Hdr & Hv & Hi) E0 Hs Hc Hb. apply wpE_bind, wpE_gets, wpE_bind, wpE_assert; [|by left].
  cbn [id]. rewrite E0, Z.add_0_l. intros Hlt. unfold u32 in Hlt. rewrite Z.mod_small in Hlt by lia.
  apply wpE_bind. unfold wpE at 1. rewrite range_elements by lia.
  rewrite run_pushes by (rewrite ?length_seqZ; lia). unfold wpE. rewrite run_reset_draws. split; [|done].
  destruct (pushes_rest (seqZ st ct) d Ha) as (Ha' & Ev & Ei).
  destruct (pushes_spec (seqZ st ct) d) as (E1 & _); [lia|]. rewrite length_seqZ in E1.
  apply no_draws_ok; [done|rewrite E1; lia|by rewrite Ev|by rewrite Ei].
Qed.
Lemma expand_ok d : kelvin_ok d →
  wpE expand_pending (λ _ d', kelvin_ok d' ∧ draw_arrays_length (pgraph d') = 0) (may_stop n) d.
Proof.
  intros Hd. pose proof Hd as (_ & (_ & Hdl & Hel & _ & Hr) & _). unfold expand_pending.
  apply wpE_bind, wpE_gets, wpE_when; unfold truthy; intros Hz; cbn [id] in Hz; [|split; [done|lia]].
  unfold pgraph_expand_draw_arrays. apply wpE_bind, wpE_gets. cbn [id].
  set (dl := draw_arrays_length (pgraph d)) in *.
  assert (u32 (dl - 1) = dl - 1) as -> by (unfold u32; rewrite Z.mod_small; lia).
  destruct (Hr (dl - 1)) as (Hs & Hc & Hb); [lia|]. apply wpE_bind, wpE_inBounds; [intros _|lia]. cbv zeta.
  set (st := draw_start (drawing (pgraph d)) (dl - 1)) in *. set (ct := draw_count (drawing (pgraph d)) (dl - 1)) in *.
  assert (u32 st = st ∧ u32 ct = ct) as [-> ->] by (unfold u32; rewrite !Z.mod_small; lia).
  apply wpE_bind, wpE_when; intros H1; [|apply expand_last; try done; lia].
  apply wpE_bind. eapply wpE_mono; [by apply (typed_op op_flush_draw), Hd; apply safe_flush_draw|].
  intros _ d1 [_ Hd1]. unfold wpE at 1. rewrite run_reset_inline. apply expand_last; [by apply cleared_ok|done..].
Qed.

(** One element. *)
Lemma push_ok v d : kelvin_ok d → draw_arrays_length (pgraph d) = 0 → inline_elements_length (pgraph d) < NV2A_MAX_BATCH_LENGTH →
  push_element v d = Ok (tt, pushed v d) ∧ kelvin_ok (pushed v d) ∧ draw_arrays_length (pgraph (pushed v d)) = 0.
Proof.
  intros Hd Hdl Hlt. pose proof Hd as (_ & (H0 & _) & _). split; [apply run_push_element; lia|].
  apply (pushes_ok [v] d Hd Hdl). cbn [length]. lia.
Qed.
End drawing.

Section methods.
Context {V R : Type} `{!VGACommon V} `{!Renderer V R} `{!RendererSafe V R}.
Abbreviation D := (NV2AState V (KelvinState R)).
Implicit Types (d : D).
Local Abbreviation keeps n m := (typed (V := V) (R := R) (may_stop n) (λ _, True) m).

Lemma typed_element16 p : keeps (Draws ARRAY_ELEMENT16) (draw_method ARRAY_ELEMENT16 p).
Proof.
  intros d Hd. unfold_draw. apply wpE_bind. eapply wpE_mono; [by apply expand_ok|]. intros _ d1 [Hd1 Hl1].
  apply wpE_bind, wpE_gets, wpE_bind, wpE_assert; [|by left]. cbn [id]. intros Hlt.
  destruct (push_ok (p &&& 0xFFFF) d1) as (Hr & Hd2 & Hl2); [done|done|lia|].
  apply wpE_bind. unfold wpE at 1. rewrite Hr. set (d2 := pushed _ d1) in *.
  destruct (Z.lt_ge_cases (inline_elements_length (pgraph d2)) NV2A_MAX_BATCH_LENGTH) as [H|H].
  - destruct (push_ok (p >>> 16) d2) as (Hr' & Hd3 & _); [done|done|done|]. unfold wpE. by rewrite Hr'.
  - unfold push_element. apply wpE_bind, wpE_gets. cbn [id]. apply wpE_bind, wpE_modify.
    unfold poke. apply wpE_bind, wpE_inBounds; [lia|]. intros _. right. right. split; [done|by left].
Qed.
Lemma typed_element32 p : keeps (Draws ARRAY_ELEMENT32) (draw_method ARRAY_ELEMENT32 p).
Proof.
  intros d Hd. unfold_draw. apply wpE_bind. eapply wpE_mono; [by apply expand_ok|]. intros _ d1 [Hd1 Hl1].
  apply wpE_bind, wpE_gets, wpE_bind, wpE_assert; [|by left]. cbn [id]. intros Hlt.
  destruct (push_ok p d1) as (Hr & Hd2 & _); [done|done|lia|]. unfold wpE. by rewrite Hr.
Qed.
Lemma added_ok start count d : kelvin_ok d → inline_elements_length (pgraph d) = 0 →
  draw_arrays_length (pgraph d) < DRAW_ARRAYS_MAX → 0 ≤ start < 2 ^ 24 → 0 < count ≤ 2 ^ 8 → kelvin_ok (added start count d).
Proof.
  intros (Ha & Hdr & Hv & Hi) E0 Hlt Hs Hc. destruct (run_add_draw start count d Hdr E0 Hlt Hs Hc) as (d' & Hr & Hdr' & _).
  rewrite run_added in Hr by done. simplify_eq. split; [|split; [done|]].
  - unfold added. destruct (continues start d); by destruct Ha; split.
  - unfold added. by destruct (continues start d).
Qed.
Lemma typed_draw_arrays p : keeps (Draws DRAW_ARRAYS) (draw_method DRAW_ARRAYS p).
Proof.
  intros d Hd. pose proof Hd as (_ & (H0 & Hdl & Hel & _) & _). destruct (draw_fields p) as [Hs Hc].
  unfold_draw. cbv zeta. set (start := GET_MASK p _) in *. set (count := GET_MASK p _ + 1) in *.
  apply wpE_bind, wpE_gets. cbn [id]. unfold truthy. apply wpE_if; intros Hz.
  - apply wpE_bind, wpE_assert; [|by left]. intros Hlt. unfold u32 in Hlt. rewrite Z.mod_small in Hlt by lia.
    apply wpE_bind, wpE_assert; [intros _|by left].
    unfold wpE. rewrite range_elements by lia. rewrite run_pushes by (rewrite ?length_seqZ; lia).
    split; [done|]. apply pushes_ok; [done|lia|rewrite length_seqZ; lia].
  - destruct (Z.lt_ge_cases (draw_arrays_length (pgraph d)) DRAW_ARRAYS_MAX) as [Hlt|Hge].
    + unfold wpE. rewrite run_added by done. split; [done|]. apply added_ok; [done|lia|done|done|lia].
    + unfold add_draw. apply wpE_bind, wpE_modify, wpE_bind, wpE_gets. cbv zeta.
      apply wpE_bind, wpE_assert; [cbn; lia|by left].
Qed.
Lemma typed_inline_array p : keeps (Draws INLINE_ARRAY) (draw_method INLINE_ARRAY p).
Proof.
  intros d ([] & Hdr & Hv & Hi). unfold_draw. unfold kstate. apply wpE_bind, wpE_gets, wpE_bind, wpE_assert; [|by left].
  intros Hlt. apply wpE_modify. split; [done|]. split; [by split|]. split; [exact Hdr|]. split; [exact Hv|]. cbn in *. lia.
Qed.
Lemma typed_mode f n : (∀ pg : PGRAPHState (KelvinState R), drawing (f pg) = drawing pg ∧ vsh_constants (f pg) = vsh_constants pg ∧
    inline_elements_length (f pg) = inline_elements_length pg ∧ draw_arrays_length (f pg) = draw_arrays_length pg ∧
    draw_arrays_prevent_connect (f pg) = draw_arrays_prevent_connect pg) → keeps n (set_pg f).
Proof.
  intros Hf. apply typed_modify. intros d Hd. destruct (Hf (pgraph d)) as (E1 & E2 & E3 & E4 & E5).
  destruct Hd as (Ha & Hdr & Hv & Hi). unfold kelvin_ok, draws_ok, vertices in *. cbn. by rewrite E1, E2, E3, E4, E5.
Qed.
Lemma typed_begin_end p : keeps (Draws SET_BEGIN_END) (draw_method SET_BEGIN_END p).
Proof.
  unfold_draw. apply typed_state. intros d Hd. cbv zeta. revert d Hd.
  assert (∀ b1 b2 : bool, keeps (Draws SET_BEGIN_END)
    (if b1 then if b2 then pgraph_reset_inline_buffers
       else op_draw_end;; pgraph_reset_inline_buffers;; set_pg (λ pg, pg <| primitive_mode := PRIM_TYPE_INVALID |>)
     else if negb b2 then mret tt
     else assertM (p <=? NV097_SET_BEGIN_END_OP_POLYGON);; set_pg (λ pg, pg <| primitive_mode := p |>);;
       pgraph_reset_inline_buffers;; op_draw_begin)) as Hall.
  { intros [] []; cbn [negb].
    - apply typed_reset_inline.
    - eapply typed_bind; [apply typed_op, safe_draw_end|intros _ _].
      eapply typed_bind; [apply typed_reset_inline|intros _ _]. by apply typed_mode.
    - eapply typed_bind; [apply typed_assert; by left|intros _ _]. eapply typed_bind; [by apply typed_mode|intros _ _].
      eapply typed_bind; [apply typed_reset_inline|intros _ _]. apply typed_op, safe_draw_begin.
    - by apply typed_ret. }
  intros d Hd. by apply Hall.
Qed.
Lemma typed_draw dn p : keeps (Draws dn) (draw_method dn p).
Proof.
  destruct dn.
  - by apply typed_set_mask.
  - by apply typed_set_mask.
  - apply typed_op, safe_clear_report_value.
  - apply typed_set_k. harmless.
  - eapply typed_bind; [apply typed_assert; by left|intros _ _]. eapply typed_weaken; [apply safe_get_report|].
    intros f [->| ->]; [by left|]. right. right. split; [done|]. right. by left.
  - apply typed_begin_end.
  - apply typed_element16.
  - apply typed_element32.
  - apply typed_draw_arrays.
  - apply typed_inline_array.
Qed.
End methods.

(** ** Slots *)

Lemma slot_of_range i base size lo hi : lo ≤ i ≤ hi → base ≤ 4 * lo → 0 ≤ base → 4 * hi < 2 ^ 32 → 0 < size →
  0 ≤ slot_of (4 * i) base size ≤ (4 * hi - base) / size.
Proof.
  intros. unfold slot_of, u32. rewrite Z.mod_small by lia.
  split; [apply Z.div_pos; lia|apply Z.div_le_mono; lia].
Qed.

(** The slots of a method in its range, and arithmetic with them. *)
Ltac slot_facts := repeat
  match goal with
  | Hi : ?lo ≤ ?i ≤ ?hi |- context [slot_of (4 * ?i) ?base ?size] =>
      lazymatch goal with H : 0 ≤ slot_of (4 * i) base size ≤ _ |- _ => fail | _ => idtac end;
      let H := fresh "Hslot" in
      assert (0 ≤ slot_of (4 * i) base size ≤ (4 * hi - base) / size) as H by (apply (slot_of_range _ _ _ lo hi); lia);
      let b := eval vm_compute in ((4 * hi - base) / size) in
      change ((4 * hi - base) / size) with b in H;
      generalize dependent (slot_of (4 * i) base size); intros
  end.
Ltac slot_lia := slot_facts; dlia.

#[export] Hint Extern 1 (typed _ _ (pgraph_reg_w _ _)) => (apply typed_reg_w; slot_lia) : typed.
#[export] Hint Extern 1 (typed _ _ (pgraph_reg_r _)) => (apply typed_reg_r; lia) : typed.
#[export] Hint Extern 1 (typed _ _ (PG_GET_MASK _ _)) => (apply typed_get_mask; lia) : typed.
#[export] Hint Extern 1 (typed _ _ (PG_SET_MASK _ _ _)) => (apply typed_set_mask; slot_lia) : typed.
#[export] Hint Extern 1 (typed _ _ (set_k _)) => (apply typed_set_k; harmless) : typed.
#[export] Hint Extern 1 (typed _ _ (poke _ _ _)) => (apply typed_poke; [slot_lia|harmless]) : typed.
#[export] Hint Extern 1 (typed _ _ (set_vsh_constant _ _ _)) => (apply typed_vsh_constant; slot_lia) : typed.
#[export] Hint Extern 1 (typed _ _ (set_ltctxa _ _ _)) => (apply typed_ltctxa; slot_lia) : typed.
#[export] Hint Extern 1 (typed _ _ (set_ltctxb _ _ _)) => (apply typed_ltctxb; slot_lia) : typed.
#[export] Hint Extern 1 (typed _ _ (set_pg _)) => (apply typed_mode; done) : typed.
#[export] Hint Extern 1 (typed _ _ update_surfaces) => (apply typed_op, safe_surface_update) : typed.
#[export] Hint Extern 1 (typed _ _ op_flip_stall) => (apply typed_op, safe_flip_stall) : typed.
#[export] Hint Extern 1 (typed _ _ (op_clear_surface _)) => (apply typed_op, safe_clear_surface) : typed.
#[export] Hint Extern 1 (typed _ _ op_process_pending_reports) => (apply typed_op, safe_process_pending_reports) : typed.
#[export] Hint Resolve typed_switch typed_texgen typed_update_irq : typed.

Section special.
Context {V R : Type} `{!VGACommon V} `{!Renderer V R} `{!RendererSafe V R}.
Abbreviation D := (NV2AState V (KelvinState R)).
Implicit Types (d : D).
Local Abbreviation keeps n m := (typed (V := V) (R := R) (may_stop n) (λ _, True) m).

Lemma typed_vertex n i base sp t p : kelvin_lookup i = Some (Vertices n, base, sp, t) → immediate n (4 * i) p ≠ None →
  keeps (Vertices n) (vertex_method n (4 * i) p).
Proof.
  intros Hl Hi. unfold vertex_method. destruct (immediate n (4 * i) p) as [[[a l] c]|] eqn:E; [|done].
  apply (typed_submit _ (a, l, c)). apply (says_fits (n, 4 * i, p)). split_and!; [|by rewrite Z.mul_comm, Z.mod_mul|done].
  exists base, sp, t. rewrite Z.shiftr_div_pow2 by lia. change (2 ^ 2) with 4. by rewrite Z.mul_comm, Z.div_mul.
Qed.

Lemma get_mask_range n r mask s w : mask = Z.ones w <<< s → ctz32 mask = s → 0 ≤ s → 0 ≤ w → 0 ≤ r < 0x2000 →
  typed (V := V) (R := R) (may_stop n) (λ v, 0 ≤ v < 2 ^ w) (PG_GET_MASK r mask).
Proof.
  intros Hm Hc Hs Hw Hr. unfold PG_GET_MASK. eapply typed_bind; [by apply typed_reg_r|]. intros v _.
  apply typed_ret. by apply (GET_MASK_range mask s w).
Qed.
Lemma typed_transform_program i p n : keeps n (transform_method SET_TRANSFORM_PROGRAM (4 * i) p).
Proof.
  cbn [transform_method]. cbv zeta. set (slot := slot_of _ _ _).
  eapply typed_bind; [apply (get_mask_range _ _ _ 0 8); done|]. intros load Hload.
  eapply typed_bind; [apply typed_assert; by left|]. intros [] Hlt. cbn beta in Hload, Hlt.
  eapply typed_bind; [apply typed_poke2; [lia|apply Z.mod_pos_bound; lia|harmless]|]. intros _ _.
  apply typed_when. intros _. by apply typed_set_mask.
Qed.
Lemma typed_read_constant row col n : 0 ≤ row < NV2A_VERTEXSHADER_CONSTANTS → 0 ≤ col < 4 →
  typed (V := V) (R := R) (may_stop n) (λ _, True) (vsh_constant row col).
Proof. intros. eapply typed_bind; [apply typed_inBounds; lia|]. intros _ _ d Hd. by apply wpE_gets. Qed.
Lemma typed_put_vsh_constant row col v n : 0 ≤ row < NV2A_VERTEXSHADER_CONSTANTS → 0 ≤ col < 4 →
  keeps n (put_vsh_constant row col v).
Proof.
  intros. eapply typed_bind; [apply typed_inBounds; lia|]. intros _ _.
  apply typed_modify. intros d Hd. apply constants_ok; [apply length_insert|done].
Qed.
Lemma typed_transform_constant i p n : keeps n (transform_method SET_TRANSFORM_CONSTANT (4 * i) p).
Proof.
  cbn [transform_method]. cbv zeta. set (slot := slot_of _ _ _). pose proof (Z.mod_pos_bound slot 4).
  eapply typed_bind; [apply (get_mask_range _ _ _ 8 8); done|]. intros load Hload.
  eapply typed_bind; [apply typed_assert; by left|]. intros [] Hlt. cbn beta in Hload, Hlt.
  eapply typed_bind; [apply typed_read_constant; lia|]. intros old _.
  eapply typed_bind; [apply typed_poke; [lia|harmless]|intros _ _].
  eapply typed_bind; [apply typed_put_vsh_constant; lia|intros _ _].
  apply typed_when. intros _. by apply typed_set_mask.
Qed.
Lemma typed_launch p n : keeps n (launch_transform_program p).
Proof.
  unfold launch_transform_program. cbv zeta. pose proof (u32_range p) as Hp. unfold is_u32 in Hp.
  eapply typed_bind; [apply typed_assert; by left|intros [] Hlt]. cbn beta in Hlt.
  eapply typed_bind; [apply typed_inBounds; lia|intros _ _].
  intros d Hd. apply wpE_bind, wpE_gets. cbn [id]. cbv zeta. destruct (nv2a_vsh _ _ _ _) as [[c' b']|] eqn:E; [|by left].
  destruct (vsh_in_place _ _ _ _ _ _ E) as [Hc Hb]. apply wpE_bind, wpE_modify, wpE_modify. split; [done|].
  destruct Hd as ([] & Hr). split; [|exact Hr]. split; cbn; try assumption; congruence.
Qed.
Lemma wpE_dma_map (P : fault → Prop) a (Q : Z * Z → D → Prop) d : P AssertFailed → P OutOfBounds → (∀ r, Q r d) →
  wpE (nv_dma_map a) Q P d.
Proof.
  intros HA HB HQ. unfold nv_dma_map, nv_dma_load, ldl_le_p, rd.
  repeat lazymatch goal with
  | |- wpE (_ ≫= _) _ _ _ => apply wpE_bind
  | |- wpE (gets _) _ _ _ => apply wpE_gets
  | |- wpE (assertM _) _ _ _ => apply wpE_assert; intros ?; [|exact HA]
  | |- wpE (inBounds _) _ _ _ => apply wpE_inBounds; intros ?; [|exact HB]
  | |- wpE (mret _) _ _ _ => apply wpE_ret
  end. apply HQ.
Qed.
(** A store in VRAM is in it, or out of bounds. *)
Lemma store_typed (P : fault → Prop) off bs d : P OutOfBounds → kelvin_ok d →
  wpE (store off bs) (λ _ d', True ∧ kelvin_ok d') P d.
Proof.
  intros HB Hd. unfold store, wr. apply wpE_bind, wpE_gets, wpE_bind, wpE_bind, wpE_inBounds; [|done].
  intros _. apply wpE_ret, wpE_modify. split; [done|]. exact Hd.
Qed.
Lemma typed_semaphore p : keeps (BackEnd BACK_END_WRITE_SEMAPHORE_RELEASE) (release_semaphore p).
Proof.
  assert (may_stop (BackEnd BACK_END_WRITE_SEMAPHORE_RELEASE) OutOfBounds) as HB
    by (right; right; split; [done|]; right; by right).
  unfold release_semaphore. eapply typed_bind; [apply typed_op, safe_surface_update|intros _ _].
  eapply typed_bind; [by apply typed_reg_r|intros off _]. intros d Hd. unfold kstate.
  apply wpE_bind, wpE_gets, wpE_bind, wpE_dma_map; [by left|done|]. intros [address len].
  apply wpE_bind, wpE_assert; [intros _|by left]. by apply (store_typed _ _ (le_bytes 4 p)).
Qed.
End special.

(** ** Groups of methods *)

Section groups.
Context {V R : Type} `{!VGACommon V} `{!Renderer V R} `{!RendererSafe V R}.
Abbreviation D := (NV2AState V (KelvinState R)).
Local Abbreviation keeps n m := (typed (V := V) (R := R) (may_stop n) (λ _, True) m).

Lemma typed_color_write n : keeps n pgraph_color_write_enabled.
Proof. unfold pgraph_color_write_enabled. typed_steps. Qed.
Lemma typed_zeta_write n : keeps n pgraph_zeta_write_enabled.
Proof. unfold pgraph_zeta_write_enabled. typed_steps. Qed.
Hint Resolve typed_color_write typed_zeta_write : typed.
Lemma typed_test n p : keeps (Tests n) (test_method n p).
Proof. destruct n; cbn [test_method]; unfold kelvin_map_stencil_op; typed_steps. Qed.

Lemma typed_nop sub m p n : keeps n (control_method NO_OPERATION sub m p).
Proof.
  cbn [control_method]. apply typed_if; intros _; [by apply typed_ret|].
  eapply typed_bind; [by apply typed_get_mask|intros channel _]. apply typed_state. intros d Hd.
  apply wpE_bind, wpE_assert; [intros _|by left]. revert d Hd.
  match goal with |- ∀ d, _ → wpE ?m _ _ d => change (keeps n m) end. typed_steps.
Qed.
Lemma typed_flip_increment sub m p : keeps (Control FLIP_INCREMENT_WRITE) (control_method FLIP_INCREMENT_WRITE sub m p).
Proof.
  cbn [control_method]. do 2 (eapply typed_bind; [by apply typed_get_mask|intros ? _]).
  eapply (typed_bind _ (λ _, True)).
  { apply typed_if; intros _; [|by apply typed_ret]. apply typed_raise. right. by left. }
  intros _ _. typed_steps.
Qed.
Lemma typed_control n sub m p : keeps (Control n) (control_method n sub m p).
Proof.
  destruct n;
    lazymatch goal with
    | |- context [control_method NO_OPERATION] => apply typed_nop
    | |- context [control_method FLIP_INCREMENT_WRITE] => apply typed_flip_increment
    | |- _ => cbn [control_method]; typed_steps
    end.
Qed.
Lemma typed_surface n m p : keeps (Surfaces n) (surface_method n m p).
Proof. unfold surface_method, kstate. destruct n; typed_steps. Qed.

(** Lights: a light below 8 and a property of it, or an assertion fails. *)
Lemma typed_back_light l part p n : 0 ≤ l → keeps n (back_light l part p).
Proof.
  intros Hl. unfold back_light. cbv zeta. eapply typed_bind; [apply typed_assert; by left|intros [] H8]. cbn beta in H8.
  typed_steps; apply typed_ltctxb; dlia.
Qed.
Lemma typed_light l part p n : 0 ≤ l → keeps n (light l part p).
Proof.
  intros Hl. unfold light. cbv zeta. eapply typed_bind; [apply typed_assert; by left|intros [] H8]. cbn beta in H8.
  typed_steps; first [apply typed_ltctxb; dlia | apply typed_ltctxa; dlia | apply typed_poke2; [dlia|dlia|harmless]].
Qed.
Lemma immediate_some n m p : n ≠ SET_VERTEX_DATA_ARRAY_FORMAT → n ≠ SET_VERTEX_DATA_ARRAY_OFFSET → immediate n m p ≠ None.
Proof. by destruct n. Qed.
Lemma typed_set_texgen slot p channel mask0 mask1 n : keeps n (set_texgen slot p channel mask0 mask1).
Proof.
  unfold set_texgen. eapply typed_bind; [apply typed_texgen|intros texgen _]. apply typed_set_mask. by case_match.
Qed.
Lemma typed_bump i p n : 4 * i < NV097_SET_TEXTURE_SET_BUMP_ENV_MAT + 256 → NV097_SET_TEXTURE_SET_BUMP_ENV_MAT ≤ 4 * i →
  keeps n (texture_method SET_TEXTURE_SET_BUMP_ENV_MAT (4 * i) p).
Proof.
  intros H1 H2. cbn [texture_method]. cbv zeta.
  assert (0 ≤ slot_of (4 * i) NV097_SET_TEXTURE_SET_BUMP_ENV_MAT 4 < 64) as Hs.
  { unfold slot_of, u32. rewrite Z.mod_small by lia. dlia. }
  set (s := slot_of _ _ _) in *. apply typed_if; intros Hlt; [by apply typed_ret|]. apply typed_reg_w.
  assert (Z.to_nat ((s - 16) mod 4) < 4)%nat as Hn by dlia. revert Hn.
  generalize (Z.to_nat ((s - 16) mod 4)). intros [|[|[|[|?]]]] ?; cbn [nth]; dlia.
Qed.
End groups.
#[export] Hint Resolve typed_set_texgen : typed.

(** ** The table *)

Section table.
Context {V R : Type} `{!VGACommon V} `{!Renderer V R} `{!RendererSafe V R}.

(** A line of the table is safe at all of its indices. *)
Definition row_safe (row : kelvin_row) : Prop := ∀ i sub p,
  kelvin_lookup i = Some row → row_first row ≤ i ≤ row_last row →
  typed (V := V) (R := R) (may_stop row.1.1.1) (λ _, True) (kelvin_handler row.1.1.1 sub (4 * i) p).

Ltac row_bounds Hi :=
  match type of Hi with
  | ?lo ≤ _ ≤ ?hi =>
      let a := eval vm_compute in lo in let b := eval vm_compute in hi in
      change lo with a in Hi; change hi with b in Hi
  end.
(** Lines whose handlers do not depend on the slot have lemmas; the others are run. *)
Ltac row_case :=
  let Hi := fresh "Hi" in let Hl := fresh "Hl" in
  intros i sub p Hl Hi; row_bounds Hi; cbn [fst snd kelvin_handler];
  lazymatch goal with
  | |- typed _ _ (control_method _ _ _ _) => apply typed_control
  | |- typed _ _ (surface_method _ _ _) => apply typed_surface
  | |- typed _ _ (test_method _ _) => apply typed_test
  | |- typed _ _ (draw_method _ _) => apply typed_draw
  | |- typed _ _ (vertex_method SET_VERTEX_DATA_ARRAY_FORMAT _ _) => apply typed_array_format; slot_lia
  | |- typed _ _ (vertex_method SET_VERTEX_DATA_ARRAY_OFFSET _ _) => apply typed_set_attribute; slot_lia
  | |- typed _ _ (vertex_method _ _ _) => eapply typed_vertex; [exact Hl|by apply immediate_some]
  | |- typed _ _ (transform_method SET_TRANSFORM_PROGRAM _ _) => apply typed_transform_program
  | |- typed _ _ (transform_method SET_TRANSFORM_CONSTANT _ _) => apply typed_transform_constant
  | |- typed _ _ (transform_method SET_BACK_LIGHT_AMBIENT_COLOR _ _) =>
      apply typed_back_light; apply Z.div_pos; [by apply slot_of_nonneg|done]
  | |- typed _ _ (transform_method SET_LIGHT_AMBIENT_COLOR _ _) =>
      apply typed_light; apply Z.div_pos; [by apply slot_of_nonneg|done]
  | |- typed _ _ (backend_method BACK_END_WRITE_SEMAPHORE_RELEASE _ _) => apply typed_semaphore
  | |- typed _ _ (backend_method LAUNCH_TRANSFORM_PROGRAM _ _) => apply typed_launch
  | |- typed _ _ (shading_method SET_WINDOW_CLIP_HORIZONTAL ?m _) =>
      pose proof (slot_of_nonneg m NV097_SET_WINDOW_CLIP_HORIZONTAL 4); cbn [shading_method]; cbv zeta;
      apply typed_forM; intros ? [? ?]%elem_of_seqZ; apply typed_reg_w; lia
  | |- typed _ _ (shading_method SET_WINDOW_CLIP_VERTICAL ?m _) =>
      pose proof (slot_of_nonneg m NV097_SET_WINDOW_CLIP_VERTICAL 4); cbn [shading_method]; cbv zeta;
      apply typed_forM; intros ? [? ?]%elem_of_seqZ; apply typed_reg_w; lia
  | |- typed _ _ (shading_method _ _ _) => cbn [shading_method]; typed_steps
  | |- typed _ _ (raster_method _ _ _) => cbn [raster_method]; unfold kelvin_map_polygon_mode; typed_steps
  | |- typed _ _ (transform_method _ _ _) => cbn [transform_method]; unfold set_matrix; cbv zeta; typed_steps
  | |- typed _ _ (texture_method SET_TEXTURE_SET_BUMP_ENV_MAT _ _) => apply typed_bump; lia
  | |- typed _ _ (texture_method _ _ _) =>
      cbn [texture_method]; unfold set_texture_reg, texture_touched; cbv zeta; typed_steps
  | |- typed _ _ (backend_method _ _ _) => cbn [backend_method]; typed_steps
  end.

Lemma table_safe : Forall row_safe kelvin_table.
Proof.
  unfold kelvin_table.
  do 100 (apply Forall_cons; split; [row_case|]).
  do 100 (apply Forall_cons; split; [row_case|]).
  do 4 (apply Forall_cons; split; [row_case|]).
  by apply Forall_nil.
Qed.
End table.

(** C9. The 3D class is memory safe: at every index of its table, for any parameter, the
    handler of a renderer that keeps the type of the state keeps it too (arrays of their sizes, vertices,
    elements and draws within them), or stops in a way [may_stop] lists: a failed
    assertion; a division by zero in FLIP_INCREMENT_WRITE; an access out of bounds in
    ARRAY_ELEMENT16, in a semaphore or in a report. *)
Theorem kelvin_safe {V R} `{!VGACommon V} `{!Renderer V R} `{!RendererSafe V R}
    (d : NV2AState V (KelvinState R)) i n base sp t sub p :
  kelvin_ok d → kelvin_lookup i = Some (n, base, sp, t) →
  wpE (kelvin_handler n sub (4 * i) p) (λ _ d', kelvin_ok d') (may_stop n) d.
Proof.
  intros Hd Hl. destruct (kelvin_lookup_in _ _ Hl) as [Hin Hc].
  pose proof (proj1 (Forall_forall _ _) table_safe _ Hin i sub p Hl) as Hs.
  pose proof (proj1 (Forall_forall _ _) table_fits _ Hin) as Hf.
  eapply wpE_mono; [apply Hs; [by apply covers_bounds|done]|]. by intros _ d' [_ ?].
Qed.

(** The null renderer. *)
Lemma null_safe V R `{!VGACommon V} vsh :
  (∀ program v0 constants dirty constants' dirty', vsh program v0 constants dirty = Some (constants', dirty') →
     length constants' = length constants ∧ length dirty' = length dirty) →
  RendererSafe V R (Renderer0 := null_renderer vsh).
Proof.
  intros Hv. split; cbn; intros; try by apply typed_ret.
  - intros d Hd. unfold pgraph_write_zpass_pixel_cnt_report. apply wpE_bind, wpE_gets. cbn [id].
    apply wpE_bind, wpE_dma_map; [by left|by right|]. intros [address len]. cbv zeta.
    apply wpE_bind, wpE_assert; [intros _|by left].
    do 2 (apply wpE_bind; eapply wpE_mono; [apply store_typed; [by right|eassumption]|]; intros _ ? [_ ?]).
    apply store_typed; [by right|done].
  - by eapply Hv.
Qed.
