(* ===== verification/KelvinExample.v ===== *)
(** * KelvinExample: primitives from end to end

    A device with the null renderer, as it is created; a primitive in immediate mode and one
    by index on it, to which the theorems of [KelvinVertex], [KelvinDraw] and [KelvinSafe] apply; and a renderer
    that notes what it is asked to draw, with which a range is drawn twice. *)

From stdpp Require Import gmap.
From S2P Require Import Prelude.
From S2P Require Import Nv2aRegs.
From S2P Require Import KelvinRegs.
From S2P Require Import Float32.
From S2P Require Import Nv2a.
From S2P Require Import Nv2aSpec.
From S2P Require Import Pgraph.
From S2P Require Import Kelvin.
From S2P Require Import KelvinMethods.
From S2P Require Import KelvinTable.
From S2P Require Import KelvinVertex.
From S2P Require Import KelvinDraw.
From S2P Require Import KelvinSafe.

(** The state of the 3D class as [pgraph_init] leaves it. *)
Definition attribute_zero : VertexAttribute :=
  {| dma_select := false; attr_offset := 0; inline_value := replicate 4 0; format := 0; attr_size := 0; attr_count := 0;
     stride := 0; inline_buffer := ∅; inline_buffer_populated := false |}.
Definition surface_zero : Surface :=
  {| draw_dirty := false; buffer_dirty := false; write_enabled_cache := false; pitch := 0; surface_offset := 0 |}.
Definition kelvin_zero {R} (r : R) : KelvinState R :=
  {| frame_time := 0; kelvin_object_instance := 0; dma_color := 0; dma_zeta := 0; surface_color := surface_zero;
     surface_zeta := surface_zero; surface_type := 0; surface_shape := Build_SurfaceShape 0 0 0 0 0 0 0 0 0 0;
     dma_a := 0; dma_b := 0; texture_dirty := replicate 4 false; texture_matrix_enable := replicate 4 false;
     dma_state := 0; dma_notifies := 0; dma_semaphore := 0; dma_report := 0; zpass_pixel_count_enable := false;
     dma_vertex_a := 0; dma_vertex_b := 0; enable_vertex_program_write := false;
     vertex_state_shader_v0 := replicate 4 0; program_data := replicate 544 0; program_data_dirty := false;
     vsh_constants_dirty := replicate 192 false; ltctxa := replicate 104 0; ltctxa_dirty := replicate 26 false;
     ltctxb := replicate 208 0; ltctxb_dirty := replicate 52 false; ltc1 := replicate 80 0; ltc1_dirty := replicate 20 false;
     material_alpha := 0; light_infinite_half_vector := replicate 24 0; light_infinite_direction := replicate 24 0;
     light_local_position := replicate 24 0; light_local_attenuation := replicate 24 0;
     specular_params := replicate 6 0; specular_power := 0; specular_params_back := replicate 6 0; specular_power_back := 0;
     point_params := replicate 8 0; vertex_attributes := replicate 16 attribute_zero; compressed_attrs := 0;
     inline_array_length := 0; inline_array := ∅; inline_elements := ∅; inline_buffer_length := 0;
     draw_arrays_min_start := 0; draw_arrays_max_count := 0; draw_arrays_start := ∅; draw_arrays_count := ∅;
     renderer_state := r |}.

(** The null renderer, with an emulator of transform programs that takes none. *)
#[global] Instance Renderer_null R : Renderer () R := null_renderer (λ _ _ _ _, None).
Definition created : NV2AState () (KelvinState ()) := nv2a_created (kelvin_zero tt) [].

#[global] Instance Renderer_null_safe R : RendererSafe () R.
Proof. refine (null_safe () R _ _). intros ?????? H. discriminate H. Qed.

Lemma created_ok : kelvin_ok created.
Proof. split; [by split|]. split; [|done]. do 4 (split; [done|]). intros i Hi. cbn in Hi. lia. Qed.

(** Memory safety at the last method of the transform constants. *)
Lemma kelvin_safe_witness :
  kelvin_lookup 0x2ff = Some (Transform SET_TRANSFORM_CONSTANT, NV097_SET_TRANSFORM_CONSTANT, Range 32, Incr) ∧
  wpE (kelvin_handler (Transform SET_TRANSFORM_CONSTANT) 0 (4 * 0x2ff) 7) (λ _ d', kelvin_ok d')
    (may_stop (Transform SET_TRANSFORM_CONSTANT)) created.
Proof.
  assert (kelvin_lookup 0x2ff = Some (Transform SET_TRANSFORM_CONSTANT, NV097_SET_TRANSFORM_CONSTANT, Range 32, Incr)) as Hl
    by (vm_compute; reflexivity).
  split; [exact Hl|]. exact (kelvin_safe created 0x2ff _ _ _ _ 0 7 created_ok Hl).
Defined.

(** ** Immediate mode *)

(** Two points, the color of which changes between them. *)
Definition two_points : list immediate_call :=
  [(SET_VERTEX_DATA2S, NV097_SET_VERTEX_DATA2S, 0x00020001);
   (SET_DIFFUSE_COLOR3F, NV097_SET_DIFFUSE_COLOR3F, f32_2);
   (SET_VERTEX_DATA2S, NV097_SET_VERTEX_DATA2S, 0x00040003)].
Definition two_submissions : list submission :=
  [(0, [(0, f32_of_Z 1); (1, f32_of_Z 2); (2, 0); (3, f32_1)], true);
   (3, [(0, f32_2); (3, f32_1)], false);
   (0, [(0, f32_of_Z 3); (1, f32_of_Z 4); (2, 0); (3, f32_1)], true)].

Lemma inline_vertices_witness :
  ∃ d', forM two_points (λ '(n, method, parameter), vertex_method n method parameter) created = Ok (tt, d') ∧
    stream d' = foldl eager (stream created) two_submissions.
Proof.
  apply inline_vertices; [|done|done|by vm_compute].
  repeat constructor; try (eexists _, _, _; vm_compute; reflexivity); vm_compute; reflexivity.
Defined.

(** ** Draws by index *)

(** A range that continues the last one. *)
Lemma draws_add_indices_witness :
  let d := added 10 3 created in
  ∃ d', draw_method DRAW_ARRAYS 0x0100000d d = Ok (tt, d') ∧ draws_ok d' ∧ indices d' = [10; 11; 12; 13; 14].
Proof.
  intros d. apply (draws_add_indices DRAW_ARRAYS 0x0100000d d).
  - by left.
  - split; [by vm_compute|]. split; [by vm_compute|]. split; [done|]. split; [done|].
    intros i Hi. change (0 ≤ i < 1) in Hi. replace i with 0 by lia. by vm_compute.
  - by vm_compute.
  - by vm_compute.
  - intros _. by vm_compute.
Defined.

(** ** Ranges drawn twice *)

(** A renderer that notes the vertices it is to draw. *)
#[local] Instance Renderer_log : Renderer () (list (list Z)) :=
  let note : M (NV2AState () (KelvinState (list (list Z)))) unit :=
    d ← gets id; set_k (λ k, k <| renderer_state ::= λ l, l ++ [indices d] |>) in
  {| op_clear_report_value := mret tt; op_clear_surface := λ _, mret tt; op_draw_begin := mret tt; op_draw_end := note;
     op_flip_stall := mret tt; op_flush_draw := note; op_get_report := λ _, mret tt; op_image_blit := mret tt;
     op_process_pending_reports := mret tt; op_surface_update := λ _ _ _, mret tt; nv2a_vsh := λ _ _ _ _, None |}.

(** The ranges 0..2 and 10..12 and the index 20: the flush before the index draws both
    ranges, and the second is drawn again with the index. *)
Lemma range_drawn_twice :
  let log (m : M (NV2AState () (KelvinState (list (list Z)))) unit) :=
    match m (nv2a_created (kelvin_zero []) []) with Ok (_, d') => Some (renderer_state (drawing (pgraph d'))) | _ => None end in
  log (draw_method SET_BEGIN_END 5;; draw_method DRAW_ARRAYS 0x02000000;; draw_method DRAW_ARRAYS 0x0200000a;;
       draw_method ARRAY_ELEMENT32 20;; draw_method SET_BEGIN_END 0) =
  Some [[0; 1; 2; 10; 11; 12]; [10; 11; 12; 20]].
Proof. vm_compute. reflexivity. Qed.

(** ** Methods that stop *)

(** The write pointer of the flip chain is taken modulo a field that is zero until it is set. *)
Lemma flip_before_modulo m p : control_method FLIP_INCREMENT_WRITE 0 m p created = Fault DivByZero.
Proof. reflexivity. Qed.

(** A semaphore is checked against the limit of its DMA object, not against the end of the
    memory: the object here starts two bytes before the end. *)
Lemma semaphore_past_memory p :
  release_semaphore p (created <| vram := [0; 0] |> <| ramin := concat (le_bytes 4 <$> [0; 0xFFFF; 0]) |>) =
  Fault OutOfBounds.
Proof. reflexivity. Qed.
