(* ===== verification/NvExample.v ===== *)
(** * NvExample: a push buffer from end to end

    A device with a small memory, the 3D class and the null renderer, and a push buffer that
    binds a 3D object, calls a subroutine that begins a primitive, and sends its vertex
    data.  [pusher_delivers] applies to it. *)

From stdpp Require Import gmap.
From S2P Require Import Prelude.
From S2P Require Import Nv2aRegs.
From S2P Require Import Nv2a.
From S2P Require Import Nv2aSpec.
From S2P Require Import Pgraph.
From S2P Require Import Pfifo.
From S2P Require Import PfifoSpec.
From S2P Require Import PfifoRuns.
From S2P Require Import PgraphSpec.
From S2P Require Import KelvinRegs.
From S2P Require Import Kelvin.
From S2P Require Import KelvinMethods.
From S2P Require Import KelvinTable.
From S2P Require Import KelvinSpec.
From S2P Require Import KelvinExample.

Definition words (ws : list Z) : list Z := concat (le_bytes 4 <$> ws).

(** The instance memory: the hash table at 0 with the handle 1 in it, the DMA object of the
    push buffer at 0x20, an object of the class NV_KELVIN_PRIMITIVE at 0x40. *)
Definition example_ramin : list Z :=
  words [0; 0; 1; 0x80010004; 0; 0; 0; 0;  0; 64; 0; 0; 0; 0; 0; 0;  NV_KELVIN_PRIMITIVE; 0; 0; 0].
Definition example_vram : list Z :=
  words [encode (Methods true 0 0 1); 1; encode (Call 32);
         encode (Methods false 0 NV097_INLINE_ARRAY 2); 0x80000001; 0x12345678; 0; 0;
         encode (Methods true 0 NV097_SET_BEGIN_END 1); 5; encode Return; 0; 0; 0; 0; 0].
Definition example : NV2AState () (KelvinState ()) :=
  (nv2a_created (kelvin_zero tt) example_vram)
    <| ramin := example_ramin |>
    <| pfifo_regs := {[ NV_PFIFO_MODE := 1; NV_PFIFO_CACHE1_PUSH0 := 1; NV_PFIFO_CACHE1_PUSH1 := 0x100;
                        NV_PFIFO_CACHE1_DMA_PUSH := 1; NV_PFIFO_CACHE1_PULL0 := 1;
                        NV_PFIFO_CACHE1_DMA_INSTANCE := 2; NV_PFIFO_CACHE1_DMA_PUT := 24 ]} |>
    <| pgraph ::= λ pg, pg <| pg_regs := {[ NV_PGRAPH_FIFO := 1; NV_PGRAPH_CTX_CONTROL := 0x10000 ]} |> |>.

(** The words in the order of execution. *)
Definition example_calls : list call :=
  calls_from 0 0 4 true [1] ++ calls_from 0 NV097_SET_BEGIN_END 36 true [5] ++
  calls_from 0 NV097_INLINE_ARRAY 16 false [0x80000001; 0x12345678].

Definition after (c : call) (d : NV2AState () (KelvinState ())) : NV2AState () (KelvinState ()) :=
  match pgraph_method (c_sub c) (c_method c) (c_param c) (c_ptr c) 1 1 (c_inc c) d with
  | Ok (_, d') => d'
  | Fault _ => d
  end.
Definition example_binds : call := {| c_sub := 0; c_method := 0; c_param := 0x40; c_ptr := 4; c_inc := true |}.
Definition example_end : NV2AState () (KelvinState ()) :=
  foldl (λ d c, after c d) (after example_binds example) (tail example_calls).

Lemma example_runs : runs 0 64 24 example 0 None example_calls 24 None.
Proof.
  assert (∀ g w, g ≠ 24 ∧ 0 ≤ g ∧ g mod 4 = 0 ∧ g + 4 ≤ 64 → pb_word 0 example g = w → fetched 0 64 24 example g w) as Hf.
  { intros g w (? & ? & ? & ?) Hw. split_and!; done. }
  unfold example_calls. eapply (runs_methods 0 64 24 example 0 None true 0 0 [1]); [by split_and!|by apply Hf| |].
  { intros [|[|?]] ? [= <-]. by apply Hf. }
  eapply (runs_call 0 64 24 example 8 32); [by split_and!|by apply Hf|].
  eapply (runs_methods 0 64 24 example 32 _ true 0 NV097_SET_BEGIN_END [5]); [by split_and!|by apply Hf| |].
  { intros [|[|?]] ? [= <-]. by apply Hf. }
  eapply (runs_return 0 64 24 example 40); [by apply Hf|].
  rewrite <-(app_nil_r (calls_from _ _ _ _ [_; _])).
  eapply (runs_methods 0 64 24 example 12 _ false 0 NV097_INLINE_ARRAY [0x80000001; 0x12345678]); [by split_and!|by apply Hf| |].
  { intros [|[|[|?]]] ? [= <-]; by apply Hf. }
  constructor.
Qed.

(** The words are delivered one by one. *)
Lemma example_delivers c d :
  accepts d c → pg_method (c_sub c) (c_method c) (c_param c) (c_ptr c) 1 1 (c_inc c) d = Ok (1, after c d) →
  ready d → ready (after c d) → same_mem 0 64 d (after c d) → delivers 0 64 d c (after c d).
Proof. intros. by split_and!. Qed.

Ltac ready := unfold ready; split_and!; vm_compute; reflexivity.
Ltac deliver c := apply (example_delivers c);
  [split_and!; (done || lia)|vm_compute; reflexivity|ready|ready|split_and!; vm_compute; reflexivity].

Lemma example_exec : exec 0 64 (lookup_at example) example ∅ example_calls example_end {[0]}.
Proof.
  unfold example_calls. cbn [calls_from imap app Z.of_nat].
  eapply exec_bind; [done|vm_compute; reflexivity|done|split; vm_compute; reflexivity| |].
  { deliver example_binds. }
  replace ({[0]} ∪ ∅ : gset Z) with ({[0]} : gset Z) by set_solver.
  eapply exec_plain; [unfold plain; cbn; lia|set_solver|by deliver uconstr:(_)|].
  eapply exec_plain; [unfold plain; cbn; lia|set_solver|by deliver uconstr:(_)|].
  eapply exec_plain; [unfold plain; cbn; lia|set_solver|by deliver uconstr:(_)|].
  apply exec_nil.
Qed.

Lemma example_started : started example 0 64.
Proof. split; try (vm_compute; reflexivity). done. Qed.

(** The pusher runs it: in the end the object is bound and the primitive has the data sent. *)
Lemma pusher_delivers_witness :
  ∃ n rs', (∀ fuel, (n ≤ fuel)%nat → pfifo_run_pusher fuel example = Ok (tt, with_regs example_end rs')) ∧
    reg rs' NV_PFIFO_CACHE1_DMA_GET = 24 ∧ reg rs' NV_PFIFO_CACHE1_DMA_PUT = 24 ∧
    GET_MASK (reg rs' NV_PFIFO_CACHE1_DMA_STATE) NV_PFIFO_CACHE1_DMA_STATE_METHOD_COUNT = 0 ∧
    GET_MASK (reg rs' NV_PFIFO_CACHE1_DMA_STATE) NV_PFIFO_CACHE1_DMA_STATE_ERROR = 0 ∧
    returning rs' None ∧ bound rs' {[0]}.
Proof.
  apply (pusher_delivers (PGraphLaws0 := pgraph_laws () (KelvinState ())) example 0 64 24 None example_calls None ∅ example_end {[0]});
    [done|done|done|exact example_started|ready|set_solver|done|exact example_runs|exact example_exec].
Defined.

(** The data of the primitive, in order. *)
Lemma example_result :
  let k := drawing (pgraph example_end) in
  primitive_mode (pgraph example_end) = 5 ∧ inline_array_length k = 2 ∧
  inline_array k = {[ 0 := 0x80000001; 1 := 0x12345678 ]}.
Proof. vm_compute. done. Qed.

(** The hash of a handle has more bits than the smallest table has entries, so a handle of
    the guest can fail the assertion that it falls in the table. *)
Lemma ramht_outside : ramht_lookup 0x200 example = Fault AssertFailed.
Proof. vm_compute. reflexivity. Qed.
