(* ===== verification/DspArith.v ===== *)
(** * DspArith: the 56-bit arithmetic of the audio DSPs, hw/xbox/mcpx/apu/dsp/dsp_cpu.c

    An accumulator is three words: bits 55 to 48, 47 to 24 and 23 to 0.  The code adds,
    subtracts, shifts, multiplies and rounds them word by word and returns the flags of
    the status register.  The theorems say what that is on the numbers the words stand
    for, unsigned ([val]) and signed ([sval]).

    The shift to the right is a shift of the unsigned number, so that halving a negative
    accumulator gives a positive one ([asr56_drops_sign]). *)

From S2P Require Import Prelude.

(** Bits of the status register. *)
Abbreviation DSP_SR_C := 0x00 (only parsing).
Abbreviation DSP_SR_V := 0x01 (only parsing).
Abbreviation DSP_SR_Z := 0x02 (only parsing).
Abbreviation DSP_SR_N := 0x03 (only parsing).
Abbreviation DSP_SR_U := 0x04 (only parsing).
Abbreviation DSP_SR_E := 0x05 (only parsing).
Abbreviation DSP_SR_L := 0x06 (only parsing).
Abbreviation DSP_SR_I0 := 0x08 (only parsing).
Abbreviation DSP_SR_I1 := 0x09 (only parsing).
Abbreviation DSP_SR_S0 := 0x0a (only parsing).
Abbreviation DSP_SR_S1 := 0x0b (only parsing).
Abbreviation DSP_SR_T := 0x0d (only parsing).
Abbreviation DSP_SR_LF := 0x0f (only parsing).

Abbreviation BITMASK x := ((1 <<< x) - 1)%Z (only parsing).
Abbreviation SIGN_PLUS := 0 (only parsing).
Abbreviation SIGN_MINUS := 1 (only parsing).

(** [uint32_t dest[3]]. *)
Definition accu : Type := Z * Z * Z.

(** ** The operations *)

Definition dsp_add56 (source dest : accu) : accu * Z :=
  let '(s0, s1, s2) := source in
  let '(d0, d1, d2) := dest in
  let flg_s := (s0 >>> 7) &&& 1 in
  let flg_d := (d0 >>> 7) &&& 1 in
  let d2 := u32 (d2 + s2) in
  let d1 := u32 (d1 + u32 (s1 + ((d2 >>> 24) &&& 1))) in
  let d0 := u32 (d0 + u32 (s0 + ((d1 >>> 24) &&& 1))) in
  let carry := (d0 >>> 8) &&& 1 in
  let d2 := d2 &&& BITMASK 24 in
  let d1 := d1 &&& BITMASK 24 in
  let d0 := d0 &&& BITMASK 8 in
  let flg_r := (d0 >>> 7) &&& 1 in
  let overflow := (flg_s ^^^ flg_r) &&& (flg_d ^^^ flg_r) in
  ((d0, d1, d2), (overflow <<< DSP_SR_L) ||| (overflow <<< DSP_SR_V) ||| (carry <<< DSP_SR_C)).

Definition dsp_sub56 (source dest : accu) : accu * Z :=
  let '(s0, s1, s2) := source in
  let '(d0, d1, d2) := dest in
  let dest_save := u16 d0 in
  let d2 := u32 (d2 - s2) in
  let d1 := u32 (d1 - u32 (s1 + ((d2 >>> 24) &&& 1))) in
  let d0 := u32 (d0 - u32 (s0 + ((d1 >>> 24) &&& 1))) in
  let carry := (d0 >>> 8) &&& 1 in
  let d2 := d2 &&& BITMASK 24 in
  let d1 := d1 &&& BITMASK 24 in
  let d0 := d0 &&& BITMASK 8 in
  let flg_s := (s0 >>> 7) &&& 1 in
  let flg_d := (dest_save >>> 7) &&& 1 in
  let flg_r := (d0 >>> 7) &&& 1 in
  let overflow := (flg_s ^^^ flg_d) &&& (flg_r ^^^ flg_d) in
  ((d0, d1, d2), (overflow <<< DSP_SR_L) ||| (overflow <<< DSP_SR_V) ||| (carry <<< DSP_SR_C)).

Definition dsp_abs56 (dest : accu) : accu * Z :=
  if truthy (dest.1.1 &&& (1 <<< 7)) then dsp_sub56 dest (0, 0, 0) else (dest, 0).

(** The words as one [uint64_t], and back. *)
Definition dest_v (dest : accu) : Z :=
  let '(d0, d1, d2) := dest in d2 ||| u64 (d1 <<< 24) ||| u64 (d0 <<< 48).
Definition dest_words (v : Z) : accu :=
  ((v >>> 48) &&& BITMASK 8, (v >>> 24) &&& BITMASK 24, v &&& BITMASK 24).

Definition dsp_asl56 (dest : accu) (n : Z) : accu * Z :=
  let v := dest_v dest in
  let carry := (v >>> (56 - n)) &&& 1 in
  let s := u64 (v <<< n) in
  let overflow := Z.b2z (truthy (v >>> (56 - n))) in
  let flg_v := Z.b2z (negb ((v >>> 55) &&& 1 =? (s >>> 55) &&& 1)) in
  (dest_words s, (overflow <<< DSP_SR_L) ||| (flg_v <<< DSP_SR_V) ||| (carry <<< DSP_SR_C)).

Definition dsp_asr56 (dest : accu) (n : Z) : accu * Z :=
  let v := dest_v dest in
  let carry := (v >>> (n - 1)) &&& 1 in
  (dest_words (v >>> n), carry <<< DSP_SR_C).

(** The product of the magnitudes, from four products of 12 bits. *)
Definition mul_words (source1 source2 : Z) : accu :=
  let part0 := (source1 &&& BITMASK 12) * (source2 &&& BITMASK 12) in
  let part1 := ((source1 >>> 12) &&& BITMASK 12) * (source2 &&& BITMASK 12) in
  let part2 := (source1 &&& BITMASK 12) * ((source2 >>> 12) &&& BITMASK 12) in
  let part3 := ((source1 >>> 12) &&& BITMASK 12) * ((source2 >>> 12) &&& BITMASK 12) in
  let d2 := u32 (part0 + ((part1 &&& BITMASK 12) <<< 12) + ((part2 &&& BITMASK 12) <<< 12)) in
  let d1 := u32 (((part1 >>> 12) &&& BITMASK 12) + ((part2 >>> 12) &&& BITMASK 12) + part3) in
  let value := (d2 >>> 24) &&& BITMASK 8 in
  let '(d1, d2) := if truthy value then (u32 (d1 + value), d2 &&& BITMASK 24) else (d1, d2) in
  let value := (d1 >>> 24) &&& BITMASK 8 in
  if truthy value then (value, d1 &&& BITMASK 24, d2) else (0, d1, d2).

(** A factor: its magnitude, and the sign with its own. *)
Definition magnitude (source signe : Z) : Z * Z :=
  if truthy (source &&& (1 <<< 23)) then (u32 ((1 <<< 24) - source), signe ^^^ 1) else (source, signe).

Definition dsp_mul56 (source1 source2 signe : Z) : accu :=
  let '(source1, signe) := magnitude source1 signe in
  let '(source2, signe) := magnitude source2 signe in
  let '(dest, _) := dsp_asl56 (mul_words source1 source2) 1 in
  if truthy signe then (dsp_sub56 dest (0, 0, 0)).1 else dest.

(** [sr] is the status register, which has the scaling mode. *)
Definition dsp_rnd56 (sr : Z) (dest : accu) : accu :=
  if truthy (sr &&& (1 <<< DSP_SR_S0)) then
    let '(d0, d1, d2) := (dsp_add56 (0, 1, 0) dest).1 in
    let d1 := if (d2 =? 0) && (d1 &&& 1 =? 0) then d1 &&& (0xffffff - 3) else d1 in
    (d0, d1 &&& 0xfffffe, 0)
  else if truthy (sr &&& (1 <<< DSP_SR_S1)) then
    let '(d0, d1, d2) := (dsp_add56 (0, 0, 1 <<< 22) dest).1 in
    let d2 := if d2 &&& 0x7fffff =? 0 then 0 else d2 in
    (d0, d1, d2 &&& 0x800000)
  else
    let '(d0, d1, d2) := (dsp_add56 (0, 0, 1 <<< 23) dest).1 in
    let d1 := if d2 =? 0 then d1 &&& 0xfffffe else d1 in
    (d0, d1, 0).

Definition dsp_signextend (bits v : Z) : Z :=
  u32 (s32 (v <<< (32 - bits)) >>> (32 - bits)).

(** ** The numbers of the words *)

Definition acc_ok (a : accu) : Prop :=
  let '(a0, a1, a2) := a in 0 ≤ a0 < 2 ^ 8 ∧ 0 ≤ a1 < 2 ^ 24 ∧ 0 ≤ a2 < 2 ^ 24.
Definition val (a : accu) : Z := let '(a0, a1, a2) := a in a0 * 2 ^ 48 + a1 * 2 ^ 24 + a2.

(** A number of [w] bits read as a signed one. *)
Definition signed (w v : Z) : Z := if v <? 2 ^ (w - 1) then v else v - 2 ^ w.
Definition sval (a : accu) : Z := signed 56 (val a).
Definition s24 (v : Z) : Z := signed 24 v.

(** The flags L, V and C. *)
Definition flags (l v c : bool) : Z := Z.b2z l * 2 ^ 6 + Z.b2z v * 2 + Z.b2z c.
(** Whether a number is outside of the signed numbers of 56 bits. *)
Definition overflows (z : Z) : bool := (z <? - 2 ^ 55) || (2 ^ 55 <=? z).

(** The multiple of [2 ^ k] nearest to [v], the even one of two that are as near. *)
Definition round_even (k v : Z) : Z :=
  let q := v / 2 ^ k in
  let r := v mod 2 ^ k in
  (if r <? 2 ^ (k - 1) then q else if 2 ^ (k - 1) <? r then q + 1 else q + q mod 2) * 2 ^ k.

(** ** Words *)

Lemma land_mask v k : 0 ≤ k → v &&& BITMASK k = v mod 2 ^ k.
Proof.
  intros. rewrite Z.shiftl_1_l. replace (2 ^ k - 1) with (Z.ones k) by (rewrite Z.ones_equiv; lia).
  by rewrite Z.land_ones.
Qed.
Lemma bit_b2z v k : 0 ≤ k → (v >>> k) &&& 1 = Z.b2z (Z.testbit v k).
Proof. intros. change 1 with (Z.ones 1) at 1. by rewrite Z.land_ones, Z.shiftr_div_pow2, <-Z.testbit_spec' by lia. Qed.
Lemma bit_top v k : 0 ≤ k → 0 ≤ v < 2 ^ (k + 1) → Z.testbit v k = (2 ^ k <=? v).
Proof.
  intros Hk Hv. rewrite Z.pow_add_r in Hv by lia. pose proof (Z.pow_pos_nonneg 2 k).
  apply Z.b2z_inj. rewrite Z.testbit_spec' by lia. destruct (Z.leb_spec (2 ^ k) v).
  - rewrite <-(Z.div_unique v (2 ^ k) 1 (v - 2 ^ k)); [done|lia..].
  - by rewrite Z.div_small by lia.
Qed.

Lemma truthy_mask_bit v k : 0 ≤ k → truthy (v &&& (1 <<< k)) = Z.testbit v k.
Proof.
  intros Hk. unfold truthy. rewrite Z.shiftl_1_l. destruct (Z.testbit v k) eqn:E.
  - rewrite (proj2 (Z.eqb_neq _ _)); [done|]. intros H. pose proof (Z.bits_0 k) as H0. rewrite <-H in H0.
    by rewrite Z.land_spec, E, Z.pow2_bits_true in H0 by lia.
  - rewrite (proj2 (Z.eqb_eq _ 0)); [done|]. apply Z.bits_inj'. intros i Hi. rewrite Z.land_spec, Z.bits_0.
    destruct (decide (i = k)) as [->|]; [by rewrite E|]. by rewrite Z.pow2_bits_false, andb_false_r by lia.
Qed.
Lemma b2z_range b : 0 ≤ Z.b2z b ≤ 1.
Proof. destruct b; cbn; lia. Qed.

(** The digits of a sum and of a difference, as they come out of the 32-bit words. *)
Lemma add_digit w a b c : w = 8 ∨ w = 24 → 0 ≤ a < 2 ^ w → 0 ≤ b < 2 ^ w → 0 ≤ c ≤ 1 →
  let r := u32 (a + u32 (b + c)) in
  (r >>> w) &&& 1 = Z.b2z (2 ^ w <=? a + b + c) ∧ r &&& BITMASK w = (a + b + c) mod 2 ^ w ∧
  a + b + c = Z.b2z (2 ^ w <=? a + b + c) * 2 ^ w + (a + b + c) mod 2 ^ w.
Proof.
  intros Hw Ha Hb Hc r. assert (r = a + b + c) as ->.
  { unfold r, u32. destruct Hw as [-> | ->]; rewrite (Z.mod_small (b + c)) by lia; rewrite Z.mod_small; lia. }
  rewrite land_mask, bit_b2z, bit_top; [|destruct Hw as [-> | ->]; cbn in *; lia..].
  split_and!; [done|done|].
  destruct (Z.leb_spec (2 ^ w) (a + b + c)); destruct Hw as [-> | ->]; cbn [Z.b2z]; dlia.
Qed.
Lemma sub_digit w a b c : w = 8 ∨ w = 24 → 0 ≤ a < 2 ^ w → 0 ≤ b < 2 ^ w → 0 ≤ c ≤ 1 →
  let r := u32 (a - u32 (b + c)) in
  (r >>> w) &&& 1 = Z.b2z (a <? b + c) ∧ r &&& BITMASK w = (a - b - c) mod 2 ^ w ∧
  a - b - c = (a - b - c) mod 2 ^ w - Z.b2z (a <? b + c) * 2 ^ w.
Proof.
  intros Hw Ha Hb Hc r. assert (r = (a - b - c) mod 2 ^ 32) as ->.
  { unfold r, u32. rewrite (Z.mod_small (b + c)) by (destruct Hw as [-> | ->]; lia). f_equal. lia. }
  rewrite land_mask, bit_b2z, Z.testbit_spec' by (destruct Hw as [-> | ->]; lia).
  destruct Hw as [-> | ->]; destruct (Z.ltb_spec a (b + c)); cbn [Z.b2z]; split_and!; dlia.
Qed.

(** Flags from bits. *)
Lemma flags_word o l c :
  (Z.b2z o <<< DSP_SR_L) ||| (Z.b2z l <<< DSP_SR_V) ||| (Z.b2z c <<< DSP_SR_C) = flags o l c.
Proof. by destruct o, l, c. Qed.
Lemma overflow_bits a b c :
  (Z.b2z a ^^^ Z.b2z b) &&& (Z.b2z c ^^^ Z.b2z b) = Z.b2z (xorb a b && xorb c b).
Proof. by destruct a, b, c. Qed.

Lemma flags_eq o c o' c' : o = o' → c = c' → flags o o c = flags o' o' c'.
Proof. by intros -> ->. Qed.

(** The sign of an accumulator. *)
Lemma val_range a : acc_ok a → 0 ≤ val a < 2 ^ 56.
Proof. destruct a as [[a0 a1] a2]. intros (? & ? & ?). unfold val. lia. Qed.
Lemma sval_bit a0 a1 a2 : acc_ok (a0, a1, a2) →
  Z.testbit a0 7 = (2 ^ 55 <=? val (a0, a1, a2)) ∧
  sval (a0, a1, a2) = val (a0, a1, a2) - Z.b2z (2 ^ 55 <=? val (a0, a1, a2)) * 2 ^ 56.
Proof.
  intros Ha. pose proof Ha as (? & ? & ?). pose proof (val_range _ Ha). rewrite bit_top by (cbn in *; lia). split.
  - unfold val. destruct (Z.leb_spec (2 ^ 7) a0), (Z.leb_spec (2 ^ 55) (a0 * 2 ^ 48 + a1 * 2 ^ 24 + a2)); lia.
  - unfold sval, signed. change (56 - 1) with 55.
    destruct (Z.ltb_spec (val (a0, a1, a2)) (2 ^ 55)), (Z.leb_spec (2 ^ 55) (val (a0, a1, a2))); cbn [Z.b2z]; lia.
Qed.
Lemma mod_unique56 z c v : 0 ≤ v < 2 ^ 56 → z = c * 2 ^ 56 + v → z mod 2 ^ 56 = v.
Proof. intros Hv ->. by rewrite Z.add_comm, Z.mod_add, Z.mod_small by lia. Qed.

(** ** Addition and subtraction *)

Lemma dsp_add56_spec s d : acc_ok s → acc_ok d →
  let '(r, sr) := dsp_add56 s d in
  acc_ok r ∧ val r = (val s + val d) mod 2 ^ 56 ∧
  sr = flags (overflows (sval s + sval d)) (overflows (sval s + sval d)) (2 ^ 56 <=? val s + val d).
Proof.
  destruct s as [[s0 s1] s2], d as [[d0 d1] d2]. intros Hs Hd.
  pose proof Hs as (Hs0 & Hs1 & Hs2). pose proof Hd as (Hd0 & Hd1 & Hd2). unfold dsp_add56. cbv zeta.
  replace (u32 (d2 + s2)) with (u32 (d2 + u32 (s2 + 0))) by (unfold u32; by rewrite Z.add_0_r, (Z.mod_small s2) by lia).
  destruct (add_digit 24 d2 s2 0) as (C2 & R2 & E2); [lia..|]. rewrite C2, R2. clear C2 R2.
  set (c2 := Z.b2z (2 ^ 24 <=? d2 + s2 + 0)) in *. pose proof (b2z_range (2 ^ 24 <=? d2 + s2 + 0)) as B2. fold c2 in B2.
  destruct (add_digit 24 d1 s1 c2) as (C1 & R1 & E1); [lia..|]. rewrite C1, R1. clear C1 R1.
  set (c1 := Z.b2z (2 ^ 24 <=? d1 + s1 + c2)) in *. pose proof (b2z_range (2 ^ 24 <=? d1 + s1 + c2)) as B1. fold c1 in B1.
  destruct (add_digit 8 d0 s0 c1) as (C0 & R0 & E0); [lia..|]. rewrite C0, R0. clear C0 R0.
  set (r0 := (d0 + s0 + c1) mod 2 ^ 8) in *. set (r1 := (d1 + s1 + c2) mod 2 ^ 24) in *. set (r2 := (d2 + s2 + 0) mod 2 ^ 24) in *.
  assert (acc_ok (r0, r1, r2)) as Hr by (split_and!; apply Z.mod_pos_bound; lia).
  assert (val (s0, s1, s2) + val (d0, d1, d2) = Z.b2z (2 ^ 8 <=? d0 + s0 + c1) * 2 ^ 56 + val (r0, r1, r2)) as E by (unfold val; lia).
  pose proof (val_range _ Hr). pose proof (val_range _ Hs). pose proof (val_range _ Hd).
  split; [done|]. split; [symmetry; by eapply mod_unique56|].
  rewrite !bit_b2z, overflow_bits, flags_word by lia.
  destruct (sval_bit _ _ _ Hs) as [-> ->], (sval_bit _ _ _ Hd) as [-> ->], (sval_bit _ _ _ Hr) as [-> _].
  set (c0 := 2 ^ 8 <=? d0 + s0 + c1) in *. clearbody c0.
  set (vs := val (s0, s1, s2)) in *. set (vd := val (d0, d1, d2)) in *. set (vr := val (r0, r1, r2)) in *. clearbody vs vd vr.
  apply flags_eq; [|destruct c0; cbn [Z.b2z] in E; lia]. unfold overflows.
  destruct (Z.leb_spec (2 ^ 55) vs), (Z.leb_spec (2 ^ 55) vd), (Z.leb_spec (2 ^ 55) vr), c0; cbn [Z.b2z xorb andb] in *; lia.
Qed.

Lemma dsp_sub56_spec s d : acc_ok s → acc_ok d →
  let '(r, sr) := dsp_sub56 s d in
  acc_ok r ∧ val r = (val d - val s) mod 2 ^ 56 ∧
  sr = flags (overflows (sval d - sval s)) (overflows (sval d - sval s)) (val d <? val s).
Proof.
  destruct s as [[s0 s1] s2], d as [[d0 d1] d2]. intros Hs Hd.
  pose proof Hs as (Hs0 & Hs1 & Hs2). pose proof Hd as (Hd0 & Hd1 & Hd2). unfold dsp_sub56. cbv zeta.
  replace (u32 (d2 - s2)) with (u32 (d2 - u32 (s2 + 0))) by (unfold u32; by rewrite Z.add_0_r, (Z.mod_small s2) by lia).
  destruct (sub_digit 24 d2 s2 0) as (C2 & R2 & E2); [lia..|]. rewrite C2, R2. clear C2 R2.
  set (c2 := Z.b2z (d2 <? s2 + 0)) in *. pose proof (b2z_range (d2 <? s2 + 0)) as B2. fold c2 in B2.
  destruct (sub_digit 24 d1 s1 c2) as (C1 & R1 & E1); [lia..|]. rewrite C1, R1. clear C1 R1.
  set (c1 := Z.b2z (d1 <? s1 + c2)) in *. pose proof (b2z_range (d1 <? s1 + c2)) as B1. fold c1 in B1.
  destruct (sub_digit 8 d0 s0 c1) as (C0 & R0 & E0); [lia..|]. rewrite C0, R0. clear C0 R0.
  set (r0 := (d0 - s0 - c1) mod 2 ^ 8) in *. set (r1 := (d1 - s1 - c2) mod 2 ^ 24) in *. set (r2 := (d2 - s2 - 0) mod 2 ^ 24) in *.
  assert (acc_ok (r0, r1, r2)) as Hr by (split_and!; apply Z.mod_pos_bound; lia).
  assert (val (d0, d1, d2) - val (s0, s1, s2) = - Z.b2z (d0 <? s0 + c1) * 2 ^ 56 + val (r0, r1, r2)) as E by (unfold val; lia).
  pose proof (val_range _ Hr). pose proof (val_range _ Hs). pose proof (val_range _ Hd).
  split; [done|]. split; [symmetry; by eapply mod_unique56|].
  replace (u16 d0) with d0 by (unfold u16; rewrite Z.mod_small; lia).
  rewrite !bit_b2z, overflow_bits, flags_word by lia.
  destruct (sval_bit _ _ _ Hs) as [-> ->], (sval_bit _ _ _ Hd) as [-> ->], (sval_bit _ _ _ Hr) as [-> _].
  set (c0 := d0 <? s0 + c1) in *. clearbody c0.
  set (vs := val (s0, s1, s2)) in *. set (vd := val (d0, d1, d2)) in *. set (vr := val (r0, r1, r2)) in *. clearbody vs vd vr.
  apply flags_eq; [|destruct c0; cbn [Z.b2z] in E; lia]. unfold overflows.
  destruct (Z.leb_spec (2 ^ 55) vs), (Z.leb_spec (2 ^ 55) vd), (Z.leb_spec (2 ^ 55) vr), c0; cbn [Z.b2z xorb andb] in *; lia.
Qed.

(** ** Shifts *)

Lemma dest_v_val a : acc_ok a → dest_v a = val a.
Proof.
  destruct a as [[a0 a1] a2]. intros (? & ? & ?). unfold dest_v, val, u64.
  rewrite !Z.mod_small by (rewrite Z.shiftl_mul_pow2; lia).
  rewrite (Z.lor_comm a2), lor_shl_add by lia. rewrite Z.lor_comm, (lor_shl_add 48) by lia. lia.
Qed.
Lemma dest_words_ok v : acc_ok (dest_words v).
Proof. unfold dest_words. rewrite !land_mask by lia. split_and!; apply Z.mod_pos_bound; lia. Qed.
Lemma val_dest_words v : val (dest_words v) = v mod 2 ^ 56.
Proof. unfold dest_words, val. rewrite !land_mask, !Z.shiftr_div_pow2 by lia. dlia. Qed.

Lemma dsp_asl56_spec d n : acc_ok d → 0 < n < 56 →
  let '(r, sr) := dsp_asl56 d n in
  acc_ok r ∧ val r = (val d * 2 ^ n) mod 2 ^ 56 ∧
  sr = flags (2 ^ (56 - n) <=? val d) (xorb (2 ^ 55 <=? val d) (2 ^ 55 <=? val r)) (Z.testbit (val d) (56 - n)).
Proof.
  intros Hd Hn. unfold dsp_asl56. cbv zeta. rewrite dest_v_val by done. pose proof (val_range _ Hd) as Hv.
  assert (val (dest_words (u64 (val d <<< n))) = (val d * 2 ^ n) mod 2 ^ 56) as Hr.
  { rewrite val_dest_words. unfold u64. rewrite Z.shiftl_mul_pow2 by lia. dlia. }
  split; [apply dest_words_ok|]. split; [done|]. rewrite !bit_b2z, flags_word by lia. f_equal.
  - unfold truthy. rewrite Z.shiftr_div_pow2 by lia. pose proof (Z.pow_pos_nonneg 2 (56 - n)).
    destruct (Z.leb_spec (2 ^ (56 - n)) (val d)).
    + rewrite (proj2 (Z.eqb_neq _ 0)); [done|]. pose proof (Z.div_le_mono (2 ^ (56 - n)) (val d) (2 ^ (56 - n))).
      rewrite Z.div_same in *; lia.
    + by rewrite Z.div_small by lia.
  - rewrite bit_top by (cbn; lia). rewrite <-(Z.mod_pow2_bits_low _ 56 55), <-val_dest_words by lia.
    rewrite bit_top; [|lia|apply val_range, dest_words_ok].
    by destruct (2 ^ 55 <=? val d), (2 ^ 55 <=? val _).
Qed.

Lemma dsp_asr56_spec d n : acc_ok d → 0 < n → 
  let '(r, sr) := dsp_asr56 d n in
  acc_ok r ∧ val r = val d / 2 ^ n ∧ sr = Z.b2z (Z.testbit (val d) (n - 1)).
Proof.
  intros Hd Hn. unfold dsp_asr56. cbv zeta. rewrite dest_v_val by done. pose proof (val_range _ Hd) as Hv.
  split; [apply dest_words_ok|]. rewrite bit_b2z, Z.shiftl_0_r by lia. split; [|done].
  rewrite val_dest_words, Z.shiftr_div_pow2 by lia. pose proof (Z.pow_pos_nonneg 2 n). apply Z.mod_small.
  split; [apply Z.div_pos; lia|]. apply Z.le_lt_trans with (val d); [|lia].
  apply Z.div_le_upper_bound; [lia|]. nia.
Qed.

(** A shift to the right loses the sign: of a negative accumulator it is not the half. *)
Lemma asr56_drops_sign d n : acc_ok d → 0 < n → 0 ≤ sval (dsp_asr56 d n).1.
Proof.
  intros Hd Hn. pose proof (dsp_asr56_spec d n Hd Hn) as H. destruct (dsp_asr56 d n) as [r sr].
  destruct H as (Hr & Hv & _). cbn [fst]. pose proof (val_range _ Hd). pose proof (val_range _ Hr).
  assert (val r < 2 ^ 55).
  { rewrite Hv. apply Z.div_lt_upper_bound; [by apply Z.pow_pos_nonneg; lia|].
    assert (2 ^ 1 ≤ 2 ^ n) by (apply Z.pow_le_mono_r; lia). lia. }
  unfold sval, signed. change (56 - 1) with 55. destruct (Z.ltb_spec (val r) (2 ^ 55)); lia.
Qed.

(** ** Absolute value and negation *)

Lemma val_zero : acc_ok (0, 0, 0) ∧ val (0, 0, 0) = 0 ∧ sval (0, 0, 0) = 0.
Proof. repeat split; done. Qed.
Lemma sval_mod a z : acc_ok a → val a = z mod 2 ^ 56 → - 2 ^ 55 ≤ z < 2 ^ 55 → sval a = z.
Proof.
  intros Ha Hv Hz. unfold sval, signed. change (56 - 1) with 55. rewrite Hv.
  destruct (Z.ltb_spec (z mod 2 ^ 56) (2 ^ 55)); dlia.
Qed.
Lemma val_sval a : acc_ok a → val a = sval a mod 2 ^ 56.
Proof.
  intros Ha. pose proof (val_range _ Ha). unfold sval, signed. change (56 - 1) with 55.
  destruct (Z.ltb_spec (val a) (2 ^ 55)); dlia.
Qed.

Lemma dsp_abs56_spec d : acc_ok d → acc_ok (dsp_abs56 d).1 ∧
  val (dsp_abs56 d).1 = Z.abs (sval d) mod 2 ^ 56.
Proof.
  destruct d as [[d0 d1] d2]. intros Hd. unfold dsp_abs56. cbn [fst]. destruct (sval_bit _ _ _ Hd) as [Hb Hs].
  rewrite truthy_mask_bit by lia.
  rewrite Hb. pose proof (val_range _ Hd). destruct (Z.leb_spec (2 ^ 55) (val (d0, d1, d2))); cbn [Z.b2z] in Hs.
  - pose proof (dsp_sub56_spec (d0, d1, d2) (0, 0, 0) Hd (proj1 val_zero)) as Hsub.
    destruct (dsp_sub56 _ _) as [r sr]. destruct Hsub as (? & Hr & _). split; [done|]. cbn [fst]. rewrite Hr.
    change (val (0, 0, 0)) with 0. rewrite Hs, Z.abs_neq by lia. dlia.
  - split; [done|]. cbn [fst]. rewrite Hs, Z.abs_eq by lia. rewrite Z.mod_small; lia.
Qed.

(** ** Multiplication *)

Lemma mul_words_spec a b : 0 ≤ a ≤ 2 ^ 23 → 0 ≤ b ≤ 2 ^ 23 → acc_ok (mul_words a b) ∧ val (mul_words a b) = a * b.
Proof.
  intros Ha Hb. unfold mul_words. cbv zeta.
  rewrite !land_mask, !Z.shiftr_div_pow2 by lia. rewrite !(Z.shiftl_mul_pow2 (_ mod _) 12) by lia.
  set (al := a mod 2 ^ 12). set (ah := (a / 2 ^ 12) mod 2 ^ 12). set (bl := b mod 2 ^ 12). set (bh := (b / 2 ^ 12) mod 2 ^ 12).
  assert (0 ≤ al < 2 ^ 12 ∧ 0 ≤ ah ≤ 2 ^ 11 ∧ 0 ≤ bl < 2 ^ 12 ∧ 0 ≤ bh ≤ 2 ^ 11) as (Hal & Hah & Hbl & Hbh)
    by (unfold al, ah, bl, bh; split_and!; dlia).
  assert (a * b = ah * bh * 2 ^ 24 + (ah * bl + al * bh) * 2 ^ 12 + al * bl) as Hab.
  { assert (a = ah * 2 ^ 12 + al) as Ea by (unfold al, ah; dlia).
    assert (b = bh * 2 ^ 12 + bl) as Eb by (unfold bl, bh; dlia). rewrite Ea, Eb. ring. }
  clearbody al ah bl bh. clear Ha Hb.
  assert (0 ≤ al * bl ≤ (2 ^ 12 - 1) * (2 ^ 12 - 1)) by nia. assert (0 ≤ ah * bl ≤ 2 ^ 11 * (2 ^ 12 - 1)) by nia.
  assert (0 ≤ al * bh ≤ (2 ^ 12 - 1) * 2 ^ 11) by nia. assert (0 ≤ ah * bh ≤ 2 ^ 22) by nia.
  set (p0 := al * bl) in *. set (p1 := ah * bl) in *. set (p2 := al * bh) in *. set (p3 := ah * bh) in *.
  rewrite Hab. clearbody p0 p1 p2 p3.
  set (d2 := u32 _). assert (d2 = p0 + p1 mod 2 ^ 12 * 2 ^ 12 + p2 mod 2 ^ 12 * 2 ^ 12) as E2
    by (subst d2; apply Z.mod_small; dlia).
  set (d1 := u32 ((_ / _) mod _ + _ + _)). assert (d1 = p1 / 2 ^ 12 + p2 / 2 ^ 12 + p3) as E1.
  { subst d1. rewrite !(Z.mod_small (_ / _)) by dlia. apply Z.mod_small. dlia. }
  clearbody d1 d2. unfold truthy. destruct (Z.eqb_spec ((d2 / 2 ^ 24) mod 2 ^ 8) 0) as [C|C]; cbn [negb].
  - rewrite !land_mask, !Z.shiftr_div_pow2 by lia.
    destruct (Z.eqb_spec ((d1 / 2 ^ 24) mod 2 ^ 8) 0) as [C'|C']; cbn [negb]; unfold acc_ok, val; split_and!; dlia.
  - set (d1' := u32 _). assert (d1' = d1 + d2 / 2 ^ 24) as E1' by (subst d1'; rewrite (Z.mod_small (d2 / _)) by dlia; apply Z.mod_small; dlia).
    clearbody d1'. rewrite !land_mask, !Z.shiftr_div_pow2 by lia. destruct (Z.eqb_spec ((d1' / 2 ^ 24) mod 2 ^ 8) 0) as [C'|C']; cbn [negb]; unfold acc_ok, val; split_and!; dlia.
Qed.

Lemma magnitude_spec s sg : 0 ≤ s < 2 ^ 24 → (sg = 0 ∨ sg = 1) →
  magnitude s sg = (Z.abs (s24 s), if s24 s <? 0 then 1 - sg else sg) ∧ Z.abs (s24 s) ≤ 2 ^ 23.
Proof.
  intros Hs Hsg. unfold magnitude, s24, signed. change (24 - 1) with 23.
  rewrite truthy_mask_bit, bit_top by (cbn; lia).
  destruct (Z.leb_spec (2 ^ 23) s), (Z.ltb_spec s (2 ^ 23)); try lia.
  - rewrite (proj2 (Z.ltb_lt _ 0)) by lia. split; [|lia]. f_equal.
    + unfold u32. change (1 <<< 24) with (2 ^ 24). rewrite Z.mod_small; lia.
    + by destruct Hsg as [-> | ->].
  - rewrite (proj2 (Z.ltb_ge _ 0)) by lia. split; [|lia]. f_equal. lia.
Qed.

(** The product of two signed fractions of 24 bits has 47 bits and a zero below them. *)
Lemma dsp_mul56_spec s1 s2 sg : 0 ≤ s1 < 2 ^ 24 → 0 ≤ s2 < 2 ^ 24 → (sg = 0 ∨ sg = 1) →
  acc_ok (dsp_mul56 s1 s2 sg) ∧
  sval (dsp_mul56 s1 s2 sg) = (1 - 2 * sg) * (2 * s24 s1 * s24 s2).
Proof.
  intros H1 H2 Hsg. unfold dsp_mul56. destruct (magnitude_spec s1 sg H1 Hsg) as [-> M1].
  set (sg1 := if s24 s1 <? 0 then 1 - sg else sg).
  assert (sg1 = 0 ∨ sg1 = 1) as Hsg1 by (subst sg1; destruct (s24 s1 <? 0); lia).
  destruct (magnitude_spec s2 sg1 H2 Hsg1) as [-> M2]. set (sg2 := if s24 s2 <? 0 then 1 - sg1 else sg1).
  destruct (mul_words_spec (Z.abs (s24 s1)) (Z.abs (s24 s2))) as [Hw Hv]; [lia..|].
  pose proof (dsp_asl56_spec _ 1 Hw ltac:(lia)) as Hs. destruct (dsp_asl56 _ 1) as [d sr]. destruct Hs as (Hd & Hdv & _).
  assert (0 ≤ Z.abs (s24 s1) * Z.abs (s24 s2) ≤ 2 ^ 46) by nia.
  rewrite Hv, Z.mod_small in Hdv by lia. pose proof (val_range _ Hd).
  assert (sval d = 2 * (Z.abs (s24 s1) * Z.abs (s24 s2))) as Hsv by (apply sval_mod; [done|rewrite Z.mod_small; lia|lia]).
  assert ((1 - 2 * sg) * (2 * s24 s1 * s24 s2) = (1 - 2 * sg2) * (2 * (Z.abs (s24 s1) * Z.abs (s24 s2)))) as ->.
  { subst sg2 sg1. destruct (Z.ltb_spec (s24 s1) 0), (Z.ltb_spec (s24 s2) 0);
      rewrite ?(Z.abs_neq (s24 s1)), ?(Z.abs_eq (s24 s1)), ?(Z.abs_neq (s24 s2)), ?(Z.abs_eq (s24 s2)) by lia; ring. }
  assert (sg2 = 0 ∨ sg2 = 1) as [-> | ->] by (subst sg2; destruct (s24 s2 <? 0); lia); cbn [truthy Z.eqb negb].
  - split; [done|]. lia.
  - pose proof (dsp_sub56_spec d (0, 0, 0) Hd (proj1 val_zero)) as Hn. destruct (dsp_sub56 d _) as [r sr'].
    destruct Hn as (Hr & Hrv & _). cbn [fst]. split; [done|]. apply sval_mod; [done| |lia].
    rewrite Hrv. change (val (0, 0, 0)) with 0. rewrite (val_sval d), Hsv by done. dlia.
Qed.

(** ** Rounding *)

(** The bits below which an accumulator is rounded, by the scaling mode. *)
Definition rnd_bits (sr : Z) : Z :=
  if Z.testbit sr DSP_SR_S0 then 25 else if Z.testbit sr DSP_SR_S1 then 23 else 24.

Lemma round_add k v : 0 < k → 0 ≤ v →
  round_even k v = let w := v + 2 ^ (k - 1) in
    (if w mod 2 ^ k =? 0 then w / 2 ^ k - (w / 2 ^ k) mod 2 else w / 2 ^ k) * 2 ^ k.
Proof.
  intros Hk Hv. unfold round_even. cbv zeta. f_equal.
  assert (2 ^ k = 2 * 2 ^ (k - 1)) as E by (rewrite <-Z.pow_succ_r by lia; f_equal; lia).
  pose proof (Z.pow_pos_nonneg 2 (k - 1)). set (h := 2 ^ (k - 1)) in *. rewrite E. clearbody h.
  pose proof (Z.div_mod v (2 * h)). pose proof (Z.mod_pos_bound v (2 * h)).
  set (q := v / (2 * h)) in *. set (r := v mod (2 * h)) in *. clearbody q r.
  destruct (Z.ltb_spec r h), (Z.ltb_spec h r); try lia.
  - rewrite <-(Z.div_unique (v + h) (2 * h) q (r + h)) by lia. rewrite <-(Z.mod_unique (v + h) (2 * h) q (r + h)) by lia.
    rewrite (proj2 (Z.eqb_neq _ 0)); lia.
  - rewrite <-(Z.div_unique (v + h) (2 * h) (q + 1) (r - h)) by lia. rewrite <-(Z.mod_unique (v + h) (2 * h) (q + 1) (r - h)) by lia.
    rewrite (proj2 (Z.eqb_neq _ 0)); lia.
  - rewrite <-(Z.div_unique (v + h) (2 * h) (q + 1) 0) by lia. rewrite <-(Z.mod_unique (v + h) (2 * h) (q + 1) 0) by lia.
    cbn [Z.eqb]. dlia.
Qed.

Lemma land_upper v s k : 0 ≤ s → 0 ≤ k → 0 ≤ v < 2 ^ (k + s) → v &&& (Z.ones k <<< s) = v - v mod 2 ^ s.
Proof.
  intros Hs Hk Hv. rewrite land_field, Z.shiftr_div_pow2, Z.shiftl_mul_pow2 by lia. pose proof (Z.pow_pos_nonneg 2 s).
  rewrite Z.mod_small; [pose proof (Z.div_mod v (2 ^ s)); lia|]. rewrite Z.pow_add_r in Hv by lia.
  split; [apply Z.div_pos; lia|]. apply Z.div_lt_upper_bound; lia.
Qed.

Lemma dsp_rnd56_spec sr d : acc_ok d →
  acc_ok (dsp_rnd56 sr d) ∧ val (dsp_rnd56 sr d) = round_even (rnd_bits sr) (val d) mod 2 ^ 56.
Proof.
  intros Hd. pose proof (val_range _ Hd) as Hv. unfold dsp_rnd56, rnd_bits. rewrite !truthy_mask_bit by lia.
  assert (∀ c, acc_ok c → acc_ok (dsp_add56 c d).1 ∧ val (dsp_add56 c d).1 = (val d + val c) mod 2 ^ 56) as Ha.
  { intros c Hc. pose proof (dsp_add56_spec c d Hc Hd) as H. destruct (dsp_add56 c d). rewrite Z.add_comm.
    by destruct H as (? & ? & _). }
  destruct (Z.testbit sr DSP_SR_S0); [|destruct (Z.testbit sr DSP_SR_S1)]; rewrite round_add by lia; cbv zeta.
  - destruct (Ha (0, 1, 0)) as [Hr Hw]; [done|]. change (val (0, 1, 0)) with (2 ^ 24) in Hw. change (25 - 1) with 24.
    set (w := val d + 2 ^ 24) in *. assert (0 ≤ w < 2 ^ 57) as Hw' by (unfold w; lia). clearbody w.
    destruct (dsp_add56 (0, 1, 0) d).1 as [[r0 r1] r2]. destruct Hr as (H0 & H1 & H2). unfold val in Hw.
    assert (r1 &&& 1 = r1 mod 2) as -> by (change 1 with (Z.ones 1); by rewrite Z.land_ones by lia).
    change (0xffffff - 3) with (Z.ones 22 <<< 2). change 0xfffffe with (Z.ones 23 <<< 1).
    destruct ((r2 =? 0) && (r1 mod 2 =? 0)) eqn:E.
    + rewrite (land_upper r1 2) by (cbn; lia). rewrite land_upper by (cbn; dlia).
      rewrite (proj2 (Z.eqb_eq (w mod _) 0)) by dlia. unfold acc_ok, val. split_and!; dlia.
    + rewrite land_upper by (cbn; lia). rewrite (proj2 (Z.eqb_neq (w mod _) 0)) by dlia. unfold acc_ok, val. split_and!; dlia.
  - destruct (Ha (0, 0, 1 <<< 22)) as [Hr Hw]; [done|]. change (val (0, 0, 1 <<< 22)) with (2 ^ 22) in Hw. change (23 - 1) with 22.
    set (w := val d + 2 ^ 22) in *. assert (0 ≤ w < 2 ^ 57) as Hw' by (unfold w; lia). clearbody w.
    destruct (dsp_add56 (0, 0, 1 <<< 22) d).1 as [[r0 r1] r2]. destruct Hr as (H0 & H1 & H2). unfold val in Hw.
    change 0x7fffff with (Z.ones 23). change 0x800000 with (Z.ones 1 <<< 23). rewrite Z.land_ones by lia.
    destruct (Z.eqb_spec (r2 mod 2 ^ 23) 0) as [E|E].
    + rewrite land_upper by (cbn; lia). rewrite (proj2 (Z.eqb_eq (w mod _) 0)) by dlia. unfold acc_ok, val. split_and!; dlia.
    + rewrite land_upper by (cbn; lia). rewrite (proj2 (Z.eqb_neq (w mod _) 0)) by dlia. unfold acc_ok, val. split_and!; dlia.
  - destruct (Ha (0, 0, 1 <<< 23)) as [Hr Hw]; [done|]. change (val (0, 0, 1 <<< 23)) with (2 ^ 23) in Hw. change (24 - 1) with 23.
    set (w := val d + 2 ^ 23) in *. assert (0 ≤ w < 2 ^ 57) as Hw' by (unfold w; lia). clearbody w.
    destruct (dsp_add56 (0, 0, 1 <<< 23) d).1 as [[r0 r1] r2]. destruct Hr as (H0 & H1 & H2). unfold val in Hw.
    change 0xfffffe with (Z.ones 23 <<< 1). destruct (Z.eqb_spec r2 0) as [E|E].
    + rewrite land_upper by (cbn; lia). rewrite (proj2 (Z.eqb_eq (w mod _) 0)) by dlia. unfold acc_ok, val. split_and!; dlia.
    + rewrite (proj2 (Z.eqb_neq (w mod _) 0)) by dlia. unfold acc_ok, val. split_and!; dlia.
Qed.
