(* ===== verification/DspCore.v ===== *)
(** * DspCore: the processor of the audio DSPs, hw/xbox/mcpx/apu/dsp

    The audio unit has two DSP56300 processors.  This file has the state of one, its
    memories, registers, hardware stack, interrupts, the updates of its address registers
    and its condition codes (dsp_cpu.c and the start of dsp_emu.c.inc).

    Memory reaches the peripherals of the chip by two function pointers of the core; they
    are the class [Peripherals], of which Dsp has the instance. *)

From stdpp Require Import base numbers list option.
From S2P Require Import Prelude.
From S2P Require Import DspArith.

Abbreviation DSP_SP_SE := 0x04 (only parsing).
Abbreviation DSP_SP_UF := 0x05 (only parsing).
Abbreviation DSP_REG_X0 := 0x04 (only parsing).
Abbreviation DSP_REG_X1 := 0x05 (only parsing).
Abbreviation DSP_REG_Y0 := 0x06 (only parsing).
Abbreviation DSP_REG_Y1 := 0x07 (only parsing).
Abbreviation DSP_REG_A0 := 0x08 (only parsing).
Abbreviation DSP_REG_B0 := 0x09 (only parsing).
Abbreviation DSP_REG_A2 := 0x0a (only parsing).
Abbreviation DSP_REG_B2 := 0x0b (only parsing).
Abbreviation DSP_REG_A1 := 0x0c (only parsing).
Abbreviation DSP_REG_B1 := 0x0d (only parsing).
Abbreviation DSP_REG_A := 0x0e (only parsing).
Abbreviation DSP_REG_B := 0x0f (only parsing).
Abbreviation DSP_REG_R0 := 0x10 (only parsing).
Abbreviation DSP_REG_N0 := 0x18 (only parsing).
Abbreviation DSP_REG_M0 := 0x20 (only parsing).
Abbreviation DSP_REG_SR := 0x39 (only parsing).
Abbreviation DSP_REG_OMR := 0x3a (only parsing).
Abbreviation DSP_REG_SP := 0x3b (only parsing).
Abbreviation DSP_REG_SSH := 0x3c (only parsing).
Abbreviation DSP_REG_SSL := 0x3d (only parsing).
Abbreviation DSP_REG_LA := 0x3e (only parsing).
Abbreviation DSP_REG_LC := 0x3f (only parsing).
Abbreviation DSP_REG_NULL := 0x00 (only parsing).
Abbreviation DSP_REG_LCSAVE := 0x30 (only parsing).
Abbreviation DSP_REG_MAX := 0x40 (only parsing).
Abbreviation DSP_SPACE_X := 0x00 (only parsing).
Abbreviation DSP_SPACE_Y := 0x01 (only parsing).
Abbreviation DSP_SPACE_P := 0x02 (only parsing).
Abbreviation DSP_XRAM_SIZE := 4096 (only parsing).
Abbreviation DSP_YRAM_SIZE := 2048 (only parsing).
Abbreviation DSP_PRAM_SIZE := 4096 (only parsing).
Abbreviation DSP_MIXBUFFER_BASE := 0x001400 (only parsing).
Abbreviation DSP_MIXBUFFER_SIZE := 1024 (only parsing).
Abbreviation DSP_PERIPH_BASE := 0xFFFF80 (only parsing).
Abbreviation DSP_INTERRUPT_NONE := 0x0 (only parsing).
Abbreviation DSP_INTERRUPT_DISABLED := 0x1 (only parsing).
Abbreviation DSP_INTERRUPT_LONG := 0x2 (only parsing).
Abbreviation DSP_INTER_ILLEGAL := 0x1 (only parsing).
Abbreviation DSP_INTER_STACK_ERROR := 0x2 (only parsing).
Abbreviation DSP_INTER_TRACE := 0x3 (only parsing).

(** ** State *)

(** [dsp_core_t], without the disassembler.  [pram_opcache] has indices into the table of
    opcodes.  The array [periph], which is only cleared, is left out. *)
Record dsp_core_t := {
  is_idle : bool; cycle_count : Z; instr_cycle : Z; pc : Z; registers : list Z;
  stack_ssh : list Z; stack_ssl : list Z; xram : list Z; yram : list Z; pram : list Z;
  pram_opcache : list (option nat); mixbuffer : list Z; loop_rep : Z; pc_on_rep : Z;
  interrupt_state : Z; interrupt_instr_fetch : Z; interrupt_save_pc : Z; interrupt_counter : Z;
  interrupt_ipl_to_raise : Z; interrupt_pipeline_count : Z; interrupt_ipl : list Z;
  interrupt_is_pending : list Z; num_inst : Z; cur_inst_len : Z; cur_inst : Z; exception_debugging : bool
}.
#[global] Instance eta_dsp_core_t : EtaRecord dsp_core_t := λ s,
  {| is_idle := is_idle s; cycle_count := cycle_count s; instr_cycle := instr_cycle s; pc := pc s;
     registers := registers s; stack_ssh := stack_ssh s; stack_ssl := stack_ssl s; xram := xram s;
     yram := yram s; pram := pram s; pram_opcache := pram_opcache s; mixbuffer := mixbuffer s;
     loop_rep := loop_rep s; pc_on_rep := pc_on_rep s; interrupt_state := interrupt_state s;
     interrupt_instr_fetch := interrupt_instr_fetch s; interrupt_save_pc := interrupt_save_pc s;
     interrupt_counter := interrupt_counter s; interrupt_ipl_to_raise := interrupt_ipl_to_raise s;
     interrupt_pipeline_count := interrupt_pipeline_count s; interrupt_ipl := interrupt_ipl s;
     interrupt_is_pending := interrupt_is_pending s; num_inst := num_inst s;
     cur_inst_len := cur_inst_len s; cur_inst := cur_inst s; exception_debugging := exception_debugging s |}.

(** The registers of the DMA engine, dsp_dma.h. *)
Record DSPDMAState := {
  configuration : Z; control : Z; start_block : Z; next_block : Z; dma_error : bool; eol : bool
}.
#[global] Instance eta_DSPDMAState : EtaRecord DSPDMAState := λ s,
  {| configuration := configuration s; control := control s; start_block := start_block s;
     next_block := next_block s; dma_error := dma_error s; eol := eol s |}.

(** [DSPState] of dsp_state.h; [rw_opaque] is what the functions that move data out of the
    chip work on.  [opcache] is the static array of [lookup_opcode]: words with the index of
    their opcode. *)
Record DSPState (W : Type) := {
  core : dsp_core_t; dma : DSPDMAState; save_cycles : Z; interrupts : Z; rw_opaque : W;
  opcache : list (Z * option nat)
}.
Arguments core {W} _.
Arguments dma {W} _.
Arguments save_cycles {W} _.
Arguments interrupts {W} _.
Arguments rw_opaque {W} _.
Arguments opcache {W} _.
#[global] Instance eta_DSPState W : EtaRecord (DSPState W) := λ s,
  {| core := core s; dma := dma s; save_cycles := save_cycles s; interrupts := interrupts s;
     rw_opaque := rw_opaque s; opcache := opcache s |}.

(** [core->read_peripheral] and [core->write_peripheral]. *)
Class Peripherals (W : Type) := {
  read_peripheral_fn : Z → M (DSPState W) Z;
  write_peripheral_fn : Z → Z → M (DSPState W) unit
}.

Definition registers_mask : list Z :=
  [0; 0; 0; 0; 24; 24; 24; 24; 24; 24; 8; 8; 24; 24; 24; 24;
   16; 16; 16; 16; 16; 16; 16; 16; 16; 16; 16; 16; 16; 16; 16; 16;
   16; 16; 16; 16; 16; 16; 16; 16; 0; 0; 0; 0; 0; 0; 0; 0;
   0; 0; 0; 0; 0; 0; 0; 0; 0; 16; 8; 6; 16; 16; 16; 16].

Section core.
Context {W : Type}.
Abbreviation D := (DSPState W).

Definition set_core (f : dsp_core_t → dsp_core_t) : M D unit := modify (λ d, d <| core ::= f |>).

(** Elements of the arrays of the core. *)
Definition elem (f : dsp_core_t → list Z) (i : Z) : M D Z :=
  l ← gets (λ d, f (core d));
  match l !! Z.to_nat i with
  | Some v => inBounds (0 <=? i);; mret v
  | None => raise OutOfBounds
  end.
Definition rreg (n : Z) : M D Z := elem registers n.
Definition wreg (n v : Z) : M D unit :=
  inBounds ((0 <=? n) && (n <? DSP_REG_MAX));;
  set_core (λ c, c <| registers ::= <[Z.to_nat n := v]> |>).
Definition add_cycles (n : Z) : M D unit := set_core (λ c, c <| instr_cycle ::= λ k, u16 (k + n) |>).
Definition set_inst_len (n : Z) : M D unit := set_core (λ c, c <| cur_inst_len := n |>).

(** [registers[DSP_REG_SR] &= BITMASK(16) - bits] and [registers[DSP_REG_SR] |= bits]. *)
Definition clear_sr (bits : Z) : M D unit := sr ← rreg DSP_REG_SR; wreg DSP_REG_SR (sr &&& (BITMASK 16 - bits)).
Definition set_sr (bits : Z) : M D unit := sr ← rreg DSP_REG_SR; wreg DSP_REG_SR (sr ||| bits).

(** ** Interrupts posted *)

Definition dsp56k_add_interrupt (inter : Z) : M D unit :=
  ipl ← elem interrupt_ipl inter;
  if ipl =? -1 then mret tt
  else
    pending ← elem interrupt_is_pending inter;
    whenM (pending =? 0) (set_core (λ c,
      c <| interrupt_is_pending ::= <[Z.to_nat inter := 1]> |> <| interrupt_counter ::= λ n, u16 (n + 1) |>)).

Definition debug_stop : M D unit := c ← gets core; whenM (exception_debugging c) (assertM false).

(** ** The hardware stack *)

Definition set_stack (i pc_ sr : Z) (both : bool) : M D unit :=
  inBounds ((0 <=? i) && (i <? 16));;
  set_core (λ c, c <| stack_ssh ::= <[Z.to_nat i := pc_]> |>);;
  whenM both (set_core (λ c, c <| stack_ssl ::= <[Z.to_nat i := sr]> |>)).
(** The registers SSH and SSL show the top of the stack. *)
Definition show_top (stack : Z) : M D unit :=
  ssh ← elem stack_ssh stack; wreg DSP_REG_SSH ssh;;
  ssl ← elem stack_ssl stack; wreg DSP_REG_SSL ssl.

Definition dsp_stack_push (curpc cursr : Z) (sshOnly : bool) : M D unit :=
  sp ← rreg DSP_REG_SP;
  let stack_error := sp &&& (1 <<< DSP_SP_SE) in
  let underflow := sp &&& (1 <<< DSP_SP_UF) in
  let stack := (sp &&& BITMASK 4) + 1 in
  whenM ((stack_error =? 0) && truthy (stack &&& (1 <<< DSP_SP_SE)))
    (dsp56k_add_interrupt DSP_INTER_STACK_ERROR;; debug_stop);;
  wreg DSP_REG_SP ((underflow ||| stack_error ||| stack) &&& BITMASK 6);;
  let stack := stack &&& BITMASK 4 in
  (if truthy stack then set_stack stack (curpc &&& BITMASK 16) (cursr &&& BITMASK 16) (negb sshOnly)
   else set_stack 0 0 0 true);;
  show_top stack.

(** The values popped are returned. *)
Definition dsp_stack_pop : M D (Z * Z) :=
  sp ← rreg DSP_REG_SP;
  let stack_error := sp &&& (1 <<< DSP_SP_SE) in
  let underflow := sp &&& (1 <<< DSP_SP_UF) in
  let stack := u32 ((sp &&& BITMASK 4) - 1) in
  whenM ((stack_error =? 0) && truthy (stack &&& (1 <<< DSP_SP_SE)))
    (dsp56k_add_interrupt DSP_INTER_STACK_ERROR;; debug_stop);;
  wreg DSP_REG_SP ((underflow ||| stack_error ||| stack) &&& BITMASK 6);;
  let stack := stack &&& BITMASK 4 in
  newpc ← rreg DSP_REG_SSH;
  newsr ← rreg DSP_REG_SSL;
  show_top stack;;
  mret (newpc, newsr).

Definition dsp_compute_ssh_ssl : M D unit :=
  sp ← rreg DSP_REG_SP; show_top (sp &&& BITMASK 4).

(** ** Writes to registers *)

(** An accumulator from a word of 24 bits; [acc] is 0 for A and 1 for B. *)
Definition sign_word (value : Z) : Z := if truthy (value &&& (1 <<< 23)) then 0xff else 0.
Definition load_accu (acc value : Z) : M D unit :=
  wreg (DSP_REG_A0 + acc) 0;; wreg (DSP_REG_A1 + acc) value;; wreg (DSP_REG_A2 + acc) (sign_word value).
(** [registers[numreg] = value & BITMASK(registers_mask[numreg])]. *)
Definition store_masked (numreg value : Z) : M D unit :=
  match registers_mask !! Z.to_nat numreg with
  | Some bits => wreg numreg (value &&& BITMASK bits)
  | None => raise OutOfBounds
  end.

Definition dsp_write_reg (numreg value : Z) : M D unit :=
  if numreg =? DSP_REG_A then load_accu 0 value
  else if numreg =? DSP_REG_B then load_accu 1 value
  else if numreg =? DSP_REG_OMR then wreg DSP_REG_OMR (value &&& 0xc7)
  else if numreg =? DSP_REG_SR then wreg DSP_REG_SR (value &&& 0xaf7f)
  else if numreg =? DSP_REG_SP then
    sp ← rreg DSP_REG_SP;
    (if (sp &&& (3 <<< DSP_SP_SE) =? 0) && truthy (value &&& (3 <<< DSP_SP_SE)) then
       dsp56k_add_interrupt DSP_INTER_STACK_ERROR;;
       wreg DSP_REG_SP (value &&& (3 <<< DSP_SP_SE));;
       debug_stop
     else wreg DSP_REG_SP (value &&& BITMASK 6));;
    dsp_compute_ssh_ssl
  else if numreg =? DSP_REG_SSH then dsp_stack_push value 0 true
  else if numreg =? DSP_REG_SSL then
    sp ← rreg DSP_REG_SP;
    let top := sp &&& BITMASK 4 in
    let value := if top =? 0 then 0 else value in
    inBounds ((0 <=? top) && (top <? 16));;
    set_core (λ c, c <| stack_ssl ::= <[Z.to_nat top := value &&& BITMASK 16]> |>);;
    wreg DSP_REG_SSL (value &&& BITMASK 16)
  else store_masked numreg value.
End core.

(** ** Memory *)

Section memory.
Context {W : Type}.
Abbreviation D := (DSPState W).

(** [(v & 0xFF000000) == 0]. *)
Definition is24 (v : Z) : bool := v &&& 0xFF000000 =? 0.
Definition in_mixbuffer (base address : Z) : bool := (base <=? address) && (address <? base + DSP_MIXBUFFER_SIZE).

Definition read_memory_p (address : Z) : M D Z :=
  assertM (is24 address);;
  assertM (address <? DSP_PRAM_SIZE);;
  r ← elem pram address;
  assertM (is24 r);;
  mret r.

Definition dsp56k_read_memory `{!Peripherals W} (space address : Z) : M D Z :=
  assertM (is24 address);;
  if space =? DSP_SPACE_X then
    if DSP_PERIPH_BASE <=? address then read_peripheral_fn address
    else if in_mixbuffer DSP_MIXBUFFER_BASE address then elem mixbuffer (address - DSP_MIXBUFFER_BASE)
    else if in_mixbuffer 0xc00 address then elem mixbuffer (address - 0xc00)
    else if address <? DSP_XRAM_SIZE then elem xram address
    else mret 0x00FFFFFF
  else if space =? DSP_SPACE_Y then assertM (address <? DSP_YRAM_SIZE);; elem yram address
  else if space =? DSP_SPACE_P then read_memory_p address
  else raise AssertFailed.

(** An element of one of the memories gets a value. *)
Definition set_mixbuffer (i v : Z) : M D unit :=
  inBounds ((0 <=? i) && (i <? DSP_MIXBUFFER_SIZE));; set_core (λ c, c <| mixbuffer ::= <[Z.to_nat i := v]> |>).

Definition write_memory_raw `{!Peripherals W} (space address value : Z) : M D unit :=
  assertM (is24 value);;
  assertM (is24 address);;
  if space =? DSP_SPACE_X then
    if DSP_PERIPH_BASE <=? address then write_peripheral_fn address value
    else if in_mixbuffer DSP_MIXBUFFER_BASE address then set_mixbuffer (address - DSP_MIXBUFFER_BASE) value
    else if in_mixbuffer 0xc00 address then set_mixbuffer (address - 0xc00) value
    else
      assertM (address <? DSP_XRAM_SIZE);;
      inBounds ((0 <=? address) && (address <? DSP_XRAM_SIZE));; set_core (λ c, c <| xram ::= <[Z.to_nat address := value]> |>)
  else if space =? DSP_SPACE_Y then
    assertM (address <? DSP_YRAM_SIZE);;
    inBounds ((0 <=? address) && (address <? DSP_YRAM_SIZE));; set_core (λ c, c <| yram ::= <[Z.to_nat address := value]> |>)
  else if space =? DSP_SPACE_P then
    assertM (address <? DSP_PRAM_SIZE);;
    inBounds ((0 <=? address) && (address <? DSP_PRAM_SIZE));;
    set_core (λ c, c <| pram ::= <[Z.to_nat address := value]> |>
                     <| pram_opcache ::= <[Z.to_nat address := None]> |>)
  else raise AssertFailed.

(** The variant of this that the disassembler records is not compiled in. *)
Definition dsp56k_write_memory `{!Peripherals W} (space address value : Z) : M D unit :=
  write_memory_raw space address value.
End memory.

(** ** Address registers *)

(** Bits of a number in reverse order, on top of the bits above them. *)
Definition reverse_bits (revbits r_reg : Z) : Z :=
  foldl (λ value i, if truthy (r_reg &&& (1 <<< i)) then value ||| (1 <<< (revbits - i - 1)) else value)
    (r_reg &&& (BITMASK 16 - BITMASK revbits)) (seqZ 0 revbits).

(** The number of bits to reverse: up to the lowest bit of [n] that is set. *)
Definition reversed_bits (n : Z) : Z :=
  match List.find (λ i, truthy (n &&& (1 <<< i))) (seqZ 0 16) with Some i => i + 1 | None => 17 end.

Definition bitreverse (n r_reg : Z) : Z :=
  let revbits := reversed_bits n in
  let value := (reverse_bits revbits r_reg + 1) &&& BITMASK revbits in
  reverse_bits revbits ((r_reg &&& (BITMASK 16 - BITMASK revbits)) ||| value).

(** The power of two that holds a buffer of [modulo] words, and the mask of its start. *)
Fixpoint bufsize_loop (fuel : nat) (modulo bufsize bufmask : Z) : Z * Z :=
  match fuel with
  | O => (bufsize, bufmask)
  | S fuel =>
      if bufsize <? modulo then bufsize_loop fuel modulo (u16 (bufsize <<< 1)) (u16 (bufmask <<< 1))
      else (bufsize, bufmask)
  end.

(** The two loops that bring a modifier into the range of the buffer. *)
Fixpoint lower_modifier (fuel : nat) (bufsize r_reg modifier : Z) : Z * Z :=
  match fuel with
  | O => (r_reg, modifier)
  | S fuel =>
      if bufsize <? modifier then lower_modifier fuel bufsize (s16 (r_reg + bufsize)) (s16 (modifier - bufsize))
      else (r_reg, modifier)
  end.
Fixpoint raise_modifier (fuel : nat) (bufsize r_reg modifier : Z) : Z * Z :=
  match fuel with
  | O => (r_reg, modifier)
  | S fuel =>
      if modifier <? - bufsize then raise_modifier fuel bufsize (s16 (r_reg - bufsize)) (s16 (modifier + bufsize))
      else (r_reg, modifier)
  end.

(** The new value of an address register [r] with the modifier register [m]. *)
Definition modulo_step (m r modifier : Z) : Z :=
  let modulo := u16 (m + 1) in
  let '(bufsize, bufmask) := bufsize_loop 16 modulo 1 (BITMASK 16) in
  let lobound := u16 (r &&& bufmask) in
  let hibound := u16 (lobound + modulo - 1) in
  let r_reg := s16 r in
  let orig_modifier := modifier in
  let '(r_reg, modifier) :=
    if modulo <? orig_modifier then
      let '(r_reg, modifier) := lower_modifier (Z.to_nat modifier) bufsize r_reg modifier in
      raise_modifier (Z.to_nat (- modifier)) bufsize r_reg modifier
    else (r_reg, modifier) in
  let r_reg := s16 (r_reg + modifier) in
  let r_reg :=
    if orig_modifier =? modulo then r_reg
    else if hibound <? r_reg then s16 (r_reg - modulo)
    else if r_reg <? lobound then s16 (r_reg + modulo)
    else r_reg in
  u16 r_reg.

Section address.
Context {W : Type}.
Abbreviation D := (DSPState W).

Definition emu_update_rn_bitreverse (numreg : Z) : M D unit :=
  n ← rreg (DSP_REG_N0 + numreg);
  r_reg ← rreg (DSP_REG_R0 + numreg);
  wreg (DSP_REG_R0 + numreg) (bitreverse n r_reg).

Definition emu_update_rn_modulo (numreg modifier : Z) : M D unit :=
  m ← rreg (DSP_REG_M0 + numreg);
  r ← rreg (DSP_REG_R0 + numreg);
  wreg (DSP_REG_R0 + numreg) (modulo_step m r modifier).

(** [modifier] is converted to [int16_t] at the call. *)
Definition emu_update_rn (numreg modifier : Z) : M D unit :=
  let modifier := s16 modifier in
  m ← rreg (DSP_REG_M0 + numreg);
  let m_reg := u16 m in
  if m_reg =? 65535 then
    r ← rreg (DSP_REG_R0 + numreg);
    wreg (DSP_REG_R0 + numreg) (u16 (s16 (s16 r + modifier)))
  else if m_reg =? 0 then emu_update_rn_bitreverse numreg
  else if m_reg <=? 32767 then emu_update_rn_modulo numreg modifier
  else mret tt.

(** The effective address, and whether it is an immediate value instead. *)
Definition emu_calc_ea (ea_mode : Z) : M D (Z * bool) :=
  let value := (ea_mode >>> 3) &&& BITMASK 3 in
  let numreg := ea_mode &&& BITMASK 3 in
  let before (modifier : Z) :=
    a ← rreg (DSP_REG_R0 + numreg); emu_update_rn numreg modifier;; mret (a, false) in
  if value =? 0 then n ← rreg (DSP_REG_N0 + numreg); before (- n)
  else if value =? 1 then n ← rreg (DSP_REG_N0 + numreg); before n
  else if value =? 2 then before (-1)
  else if value =? 3 then before 1
  else if value =? 4 then a ← rreg (DSP_REG_R0 + numreg); mret (a, false)
  else if value =? 5 then
    add_cycles 2;;
    curreg ← rreg (DSP_REG_R0 + numreg);
    n ← rreg (DSP_REG_N0 + numreg);
    emu_update_rn numreg n;;
    a ← rreg (DSP_REG_R0 + numreg);
    wreg (DSP_REG_R0 + numreg) curreg;;
    mret (a, false)
  else if value =? 6 then
    add_cycles 2;;
    c ← gets core;
    a ← read_memory_p (u32 (pc c + 1));
    set_core (λ c, c <| cur_inst_len ::= λ n, u32 (n + 1) |>);;
    mret (a, negb (numreg =? 0))
  else
    add_cycles 2;;
    emu_update_rn numreg (-1);;
    a ← rreg (DSP_REG_R0 + numreg);
    mret (a, false).

(** ** Condition codes *)

Definition emu_calc_cc (cc_code : Z) : M D bool :=
  sr ← rreg DSP_REG_SR;
  let bit b := Z.testbit sr b in
  let c := bit DSP_SR_C in let v := bit DSP_SR_V in let z := bit DSP_SR_Z in let n := bit DSP_SR_N in
  let u := bit DSP_SR_U in let e := bit DSP_SR_E in let l := bit DSP_SR_L in
  mret (match cc_code with
        | 0 => negb c
        | 1 => negb (xorb n v)
        | 2 => negb z
        | 3 => negb n
        | 4 => negb (z || (negb u && negb e))
        | 5 => negb e
        | 6 => negb l
        | 7 => negb (z || xorb n v)
        | 8 => c
        | 9 => xorb n v
        | 10 => z
        | 11 => n
        | 12 => z || (negb u && negb e)
        | 13 => e
        | 14 => l
        | 15 => z || xorb n v
        | _ => false
        end).

(** The bits E and U of an accumulator; none in the scaling mode that does not exist. *)
Definition ccr_e_u (scaling reg0 reg1 : Z) : option (bool * bool) :=
  match scaling with
  | 0 =>
      let value_e := u32 (u32 (reg0 <<< 1) + (reg1 >>> 23)) in
      Some (negb (value_e =? 0) && negb (value_e =? BITMASK 9),
            (reg1 &&& 0xc00000 =? 0) || (reg1 &&& 0xc00000 =? 0xc00000))
  | 1 =>
      let value_u := u32 (u32 (reg0 <<< 1) + (reg1 >>> 23)) &&& 3 in
      Some (negb (reg0 =? 0) && negb (reg0 =? BITMASK 8), (value_u =? 0) || (value_u =? 3))
  | 2 =>
      let value_e := u32 (u32 (reg0 <<< 2) + (reg1 >>> 22)) in
      Some (negb (value_e =? 0) && negb (value_e =? BITMASK 10),
            (reg1 &&& 0x600000 =? 0) || (reg1 &&& 0x600000 =? 0x600000))
  | _ => None
  end.

Definition emu_ccr_update_e_u_n_z (a : accu) : M D unit :=
  let '(reg0, reg1, reg2) := a in
  clear_sr ((1 <<< DSP_SR_E) ||| (1 <<< DSP_SR_U) ||| (1 <<< DSP_SR_N) ||| (1 <<< DSP_SR_Z));;
  sr ← rreg DSP_REG_SR;
  match ccr_e_u ((sr >>> DSP_SR_S0) &&& BITMASK 2) reg0 reg1 with
  | None => mret tt
  | Some (e, u) =>
      whenM e (set_sr (1 <<< DSP_SR_E));;
      whenM u (set_sr (1 <<< DSP_SR_U));;
      whenM ((reg1 =? 0) && (reg2 =? 0) && (reg0 =? 0)) (set_sr (1 <<< DSP_SR_Z));;
      set_sr ((reg0 >>> 4) &&& 0x8)
  end.

Definition emu_undefined : M D unit :=
  set_inst_len 0;; add_cycles 100;; debug_stop.
End address.
