(* ===== verification/DspAlu.v ===== *)
(** * DspAlu: the arithmetic instructions of the audio DSPs, dsp_emu.c.inc

    The source has a function for each choice of operands; here a family of them is one
    definition, of which the table [opcodes_alu] names the instances.  The functions of a
    family are the same up to the names of registers, but for MACR of X1 and Y0 to B, whose
    rounding is of a variable that is set afterwards. *)

From stdpp Require Import base numbers list option.
From S2P Require Import Prelude.
From S2P Require Import DspArith.
From S2P Require Import DspCore.

(** A source of 56 bits: an accumulator (0 for A, 1 for B), a pair of registers (0 for X, 1 for
    Y) or one register, the number of which is given. *)
Inductive alu_source := Acc (s : Z) | Pair (s : Z) | Word (r : Z).

Section alu.
Context {W : Type}.
Abbreviation D := (DSPState W).

Definition read_accu (d : Z) : M D accu :=
  a2 ← rreg (DSP_REG_A2 + d); a1 ← rreg (DSP_REG_A1 + d); a0 ← rreg (DSP_REG_A0 + d); mret (a2, a1, a0).
Definition write_accu (d : Z) (a : accu) : M D unit :=
  let '(a2, a1, a0) := a in
  wreg (DSP_REG_A2 + d) a2;; wreg (DSP_REG_A1 + d) a1;; wreg (DSP_REG_A0 + d) a0.
Definition read_source (s : alu_source) : M D accu :=
  match s with
  | Acc s => read_accu s
  | Pair s => v1 ← rreg (DSP_REG_X1 + 2 * s); v0 ← rreg (DSP_REG_X0 + 2 * s); mret (sign_word v1, v1, v0)
  | Word r => v ← rreg r; mret (sign_word v, v, 0)
  end.

(** The result of a sum or a difference, with its flags; of a comparison only the flags. *)
Definition flags_v_c (newsr : Z) : M D unit :=
  clear_sr ((1 <<< DSP_SR_V) ||| (1 <<< DSP_SR_C));; set_sr newsr.
Definition compared (r : accu) (newsr : Z) : M D unit :=
  emu_ccr_update_e_u_n_z r;; flags_v_c newsr.
Definition result (d : Z) (r : accu) (newsr : Z) : M D unit :=
  write_accu d r;; compared r newsr.

(** ** Sums and differences *)

Definition emu_add (s : alu_source) (d : Z) : M D unit :=
  dest ← read_accu d; source ← read_source s;
  let '(r, newsr) := dsp_add56 source dest in result d r newsr.
Definition emu_sub (s : alu_source) (d : Z) : M D unit :=
  dest ← read_accu d; source ← read_source s;
  let '(r, newsr) := dsp_sub56 source dest in result d r newsr.

Definition emu_adc (s : alu_source) (d : Z) : M D unit :=
  sr ← rreg DSP_REG_SR;
  dest ← read_accu d; source ← read_source s;
  let '(r, newsr) := dsp_add56 source dest in
  let '(r, newsr) :=
    if truthy ((sr >>> DSP_SR_C) &&& 1) then let '(r, more) := dsp_add56 (0, 0, 1) r in (r, newsr ||| more)
    else (r, newsr) in
  result d r newsr.
Definition emu_sbc (s : alu_source) (d : Z) : M D unit :=
  sr ← rreg DSP_REG_SR;
  dest ← read_accu d; source ← read_source s;
  let '(r, newsr) := dsp_sub56 source dest in
  let '(r, newsr) :=
    if truthy ((sr >>> DSP_SR_C) &&& 1) then let '(r, more) := dsp_sub56 (0, 0, 1) r in (r, newsr ||| more)
    else (r, newsr) in
  result d r newsr.

(** Of the accumulator shifted by one bit and the other accumulator. *)
Definition emu_addl (d : Z) : M D unit :=
  dest ← read_accu d; source ← read_accu (1 - d);
  let '(dest, newsr) := dsp_asl56 dest 1 in
  let '(r, more) := dsp_add56 source dest in result d r (newsr ||| more).
Definition emu_addr (d : Z) : M D unit :=
  dest ← read_accu d; source ← read_accu (1 - d);
  let '(dest, newsr) := dsp_asr56 dest 1 in
  let '(r, more) := dsp_add56 source dest in result d r (newsr ||| more).
Definition emu_subl (d : Z) : M D unit :=
  dest ← read_accu d; source ← read_accu (1 - d);
  let '(dest, newsr) := dsp_asl56 dest 1 in
  let '(r, more) := dsp_sub56 source dest in result d r (newsr ||| more).
Definition emu_subr (d : Z) : M D unit :=
  dest ← read_accu d; source ← read_accu (1 - d);
  let '(dest, newsr) := dsp_asr56 dest 1 in
  let '(r, more) := dsp_sub56 source dest in result d r (newsr ||| more).

Definition emu_cmp (s : alu_source) (d : Z) : M D unit :=
  dest ← read_accu d; source ← read_source s;
  let '(r, newsr) := dsp_sub56 source dest in compared r newsr.
Definition emu_cmpm (s : alu_source) (d : Z) : M D unit :=
  dest ← read_accu d; source ← read_source s;
  let '(r, newsr) := dsp_sub56 (dsp_abs56 source).1 (dsp_abs56 dest).1 in compared r newsr.

(** ** One accumulator *)

(** The least number has no negative. *)
Definition is_least (a : accu) : bool := let '(a0, a1, a2) := a in (a2 =? 0) && (a1 =? 0) && (a0 =? 0x80).
Definition negated (d : Z) (least : bool) (r : accu) : M D unit :=
  write_accu d r;;
  clear_sr (1 <<< DSP_SR_V);;
  set_sr ((Z.b2z least <<< DSP_SR_L) ||| (Z.b2z least <<< DSP_SR_V));;
  emu_ccr_update_e_u_n_z r.

Definition emu_abs (d : Z) : M D unit :=
  dest ← read_accu d; negated d (is_least dest) (dsp_abs56 dest).1.
Definition emu_neg (d : Z) : M D unit :=
  source ← read_accu d; negated d (is_least source) (dsp_sub56 source (0, 0, 0)).1.

Definition shifted (d : Z) (r : accu) (newsr : Z) : M D unit :=
  write_accu d r;;
  clear_sr ((1 <<< DSP_SR_C) ||| (1 <<< DSP_SR_V));; set_sr newsr;;
  emu_ccr_update_e_u_n_z r.
Definition emu_asl (d : Z) : M D unit :=
  dest ← read_accu d; let '(r, newsr) := dsp_asl56 dest 1 in shifted d r newsr.
Definition emu_asr (d : Z) : M D unit :=
  dest ← read_accu d; let '(r, newsr) := dsp_asr56 dest 1 in shifted d r newsr.

Definition emu_clr (d : Z) : M D unit :=
  write_accu d (0, 0, 0);;
  clear_sr ((1 <<< DSP_SR_E) ||| (1 <<< DSP_SR_N) ||| (1 <<< DSP_SR_V));;
  set_sr ((1 <<< DSP_SR_U) ||| (1 <<< DSP_SR_Z)).
Definition emu_rnd (d : Z) : M D unit :=
  dest ← read_accu d; sr ← rreg DSP_REG_SR;
  let r := dsp_rnd56 sr dest in write_accu d r;; emu_ccr_update_e_u_n_z r.
Definition emu_tst (d : Z) : M D unit :=
  a ← read_accu d; emu_ccr_update_e_u_n_z a;; clear_sr (1 <<< DSP_SR_V).
Definition emu_tfr (s : alu_source) (d : Z) : M D unit := a ← read_source s; write_accu d a.

(** ** The middle word of an accumulator *)

Definition flag_n_z (v : Z) : M D unit :=
  set_sr (((v >>> 23) &&& 1) <<< DSP_SR_N);; set_sr (Z.b2z (v =? 0) <<< DSP_SR_Z).
Definition logical (d v : Z) : M D unit :=
  wreg (DSP_REG_A1 + d) v;;
  clear_sr ((1 <<< DSP_SR_N) ||| (1 <<< DSP_SR_Z) ||| (1 <<< DSP_SR_V));; flag_n_z v.

Definition emu_and (r d : Z) : M D unit :=
  v ← rreg (DSP_REG_A1 + d); w ← rreg r; logical d (v &&& w).
Definition emu_or (r d : Z) : M D unit :=
  v ← rreg (DSP_REG_A1 + d); w ← rreg r; logical d ((v ||| w) &&& BITMASK 24).
Definition emu_eor (r d : Z) : M D unit :=
  v ← rreg (DSP_REG_A1 + d); w ← rreg r; logical d ((v ^^^ w) &&& BITMASK 24).
Definition emu_not (d : Z) : M D unit :=
  v ← rreg (DSP_REG_A1 + d); logical d (not32 v &&& BITMASK 24).

Definition rotated (d v newcarry : Z) : M D unit :=
  wreg (DSP_REG_A1 + d) v;;
  clear_sr ((1 <<< DSP_SR_C) ||| (1 <<< DSP_SR_N) ||| (1 <<< DSP_SR_Z) ||| (1 <<< DSP_SR_V));;
  set_sr newcarry.
Definition emu_lsl (d : Z) : M D unit :=
  v ← rreg (DSP_REG_A1 + d);
  let r := (v <<< 1) &&& BITMASK 24 in
  rotated d r ((v >>> 23) &&& 1);; flag_n_z r.
Definition emu_lsr (d : Z) : M D unit :=
  v ← rreg (DSP_REG_A1 + d);
  let r := v >>> 1 in
  rotated d r (v &&& 1);; set_sr (Z.b2z (r =? 0) <<< DSP_SR_Z).
Definition emu_rol (d : Z) : M D unit :=
  v ← rreg (DSP_REG_A1 + d);
  let newcarry := (v >>> 23) &&& 1 in
  let r := ((v <<< 1) ||| newcarry) &&& BITMASK 24 in
  rotated d r newcarry;; flag_n_z r.
Definition emu_ror (d : Z) : M D unit :=
  v ← rreg (DSP_REG_A1 + d);
  let newcarry := v &&& 1 in
  let r := (v >>> 1) ||| (newcarry <<< 23) in
  rotated d r newcarry;;
  set_sr (newcarry <<< DSP_SR_N);; set_sr (Z.b2z (r =? 0) <<< DSP_SR_Z).

(** ** Products *)

Definition product (signe r1 r2 : Z) : M D accu :=
  v1 ← rreg r1; v2 ← rreg r2; mret (dsp_mul56 v1 v2 signe).
Definition accumulated (d : Z) (r : accu) (newsr : Z) : M D unit :=
  write_accu d r;; emu_ccr_update_e_u_n_z r;;
  clear_sr (1 <<< DSP_SR_V);; set_sr (newsr &&& 0xfe).
Definition multiplied (d : Z) (r : accu) : M D unit :=
  write_accu d r;; emu_ccr_update_e_u_n_z r;; clear_sr (1 <<< DSP_SR_V).

Definition emu_mac (signe r1 r2 d : Z) : M D unit :=
  source ← product signe r1 r2; dest ← read_accu d;
  let '(r, newsr) := dsp_add56 source dest in accumulated d r newsr.
Definition emu_macr (signe r1 r2 d : Z) : M D unit :=
  source ← product signe r1 r2; dest ← read_accu d;
  let '(r, newsr) := dsp_add56 source dest in
  sr ← rreg DSP_REG_SR;
  let unrounded := (signe =? SIGN_PLUS) && (r1 =? DSP_REG_X1) && (r2 =? DSP_REG_Y0) && (d =? 1) in
  accumulated d (if unrounded then r else dsp_rnd56 sr r) newsr.
Definition emu_mpy (signe r1 r2 d : Z) : M D unit :=
  source ← product signe r1 r2; multiplied d source.
Definition emu_mpyr (signe r1 r2 d : Z) : M D unit :=
  source ← product signe r1 r2; sr ← rreg DSP_REG_SR; multiplied d (dsp_rnd56 sr source).

(** ** Others *)

Definition emu_max : M D unit :=
  dest ← read_accu 0; source ← read_accu 1;
  let '(r0, r1, r2) := (dsp_sub56 source dest).1 in
  let pass := truthy (r0 &&& (1 <<< 7)) || ((r0 =? 0) && (r1 =? 0) && (r2 =? 0)) in
  whenM pass
    (a2 ← rreg DSP_REG_A2; wreg DSP_REG_B0 a2;;
     a1 ← rreg DSP_REG_A1; wreg DSP_REG_B1 a1;;
     a0 ← rreg DSP_REG_A0; wreg DSP_REG_B2 a0);;
  clear_sr (1 <<< DSP_SR_C);;
  set_sr (Z.b2z pass <<< DSP_SR_C).
Definition emu_move : M D unit := mret tt.

(** ** The table *)

Abbreviation A := 0 (only parsing).
Abbreviation B := 1 (only parsing).
Abbreviation X := 0 (only parsing).
Abbreviation Y := 1 (only parsing).
Abbreviation X0 := DSP_REG_X0 (only parsing).
Abbreviation X1 := DSP_REG_X1 (only parsing).
Abbreviation Y0 := DSP_REG_Y0 (only parsing).
Abbreviation Y1 := DSP_REG_Y1 (only parsing).
Abbreviation P := SIGN_PLUS (only parsing).
Abbreviation N := SIGN_MINUS (only parsing).

Definition opcodes_alu : list (M D unit) :=
  [emu_move; emu_tfr (Acc B) A; emu_addr A; emu_tst A;
   emu_undefined; emu_cmp (Acc B) A; emu_subr A; emu_cmpm (Acc B) A;
   emu_undefined; emu_tfr (Acc A) B; emu_addr B; emu_tst B;
   emu_undefined; emu_cmp (Acc A) B; emu_subr B; emu_cmpm (Acc A) B;
   emu_add (Acc B) A; emu_rnd A; emu_addl A; emu_clr A;
   emu_sub (Acc B) A; emu_undefined; emu_subl A; emu_not A;
   emu_add (Acc A) B; emu_rnd B; emu_addl B; emu_clr B;
   emu_sub (Acc A) B; emu_max; emu_subl B; emu_not B;
   emu_add (Pair X) A; emu_adc (Pair X) A; emu_asr A; emu_lsr A;
   emu_sub (Pair X) A; emu_sbc (Pair X) A; emu_abs A; emu_ror A;
   emu_add (Pair X) B; emu_adc (Pair X) B; emu_asr B; emu_lsr B;
   emu_sub (Pair X) B; emu_sbc (Pair X) B; emu_abs B; emu_ror B;
   emu_add (Pair Y) A; emu_adc (Pair Y) A; emu_asl A; emu_lsl A;
   emu_sub (Pair Y) A; emu_sbc (Pair Y) A; emu_neg A; emu_rol A;
   emu_add (Pair Y) B; emu_adc (Pair Y) B; emu_asl B; emu_lsl B;
   emu_sub (Pair Y) B; emu_sbc (Pair Y) B; emu_neg B; emu_rol B;
   emu_add (Word X0) A; emu_tfr (Word X0) A; emu_or X0 A; emu_eor X0 A;
   emu_sub (Word X0) A; emu_cmp (Word X0) A; emu_and X0 A; emu_cmpm (Word X0) A;
   emu_add (Word X0) B; emu_tfr (Word X0) B; emu_or X0 B; emu_eor X0 B;
   emu_sub (Word X0) B; emu_cmp (Word X0) B; emu_and X0 B; emu_cmpm (Word X0) B;
   emu_add (Word Y0) A; emu_tfr (Word Y0) A; emu_or Y0 A; emu_eor Y0 A;
   emu_sub (Word Y0) A; emu_cmp (Word Y0) A; emu_and Y0 A; emu_cmpm (Word Y0) A;
   emu_add (Word Y0) B; emu_tfr (Word Y0) B; emu_or Y0 B; emu_eor Y0 B;
   emu_sub (Word Y0) B; emu_cmp (Word Y0) B; emu_and Y0 B; emu_cmpm (Word Y0) B;
   emu_add (Word X1) A; emu_tfr (Word X1) A; emu_or X1 A; emu_eor X1 A;
   emu_sub (Word X1) A; emu_cmp (Word X1) A; emu_and X1 A; emu_cmpm (Word X1) A;
   emu_add (Word X1) B; emu_tfr (Word X1) B; emu_or X1 B; emu_eor X1 B;
   emu_sub (Word X1) B; emu_cmp (Word X1) B; emu_and X1 B; emu_cmpm (Word X1) B;
   emu_add (Word Y1) A; emu_tfr (Word Y1) A; emu_or Y1 A; emu_eor Y1 A;
   emu_sub (Word Y1) A; emu_cmp (Word Y1) A; emu_and Y1 A; emu_cmpm (Word Y1) A;
   emu_add (Word Y1) B; emu_tfr (Word Y1) B; emu_or Y1 B; emu_eor Y1 B;
   emu_sub (Word Y1) B; emu_cmp (Word Y1) B; emu_and Y1 B; emu_cmpm (Word Y1) B;
   emu_mpy P X0 X0 A; emu_mpyr P X0 X0 A; emu_mac P X0 X0 A; emu_macr P X0 X0 A;
   emu_mpy N X0 X0 A; emu_mpyr N X0 X0 A; emu_mac N X0 X0 A; emu_macr N X0 X0 A;
   emu_mpy P X0 X0 B; emu_mpyr P X0 X0 B; emu_mac P X0 X0 B; emu_macr P X0 X0 B;
   emu_mpy N X0 X0 B; emu_mpyr N X0 X0 B; emu_mac N X0 X0 B; emu_macr N X0 X0 B;
   emu_mpy P Y0 Y0 A; emu_mpyr P Y0 Y0 A; emu_mac P Y0 Y0 A; emu_macr P Y0 Y0 A;
   emu_mpy N Y0 Y0 A; emu_mpyr N Y0 Y0 A; emu_mac N Y0 Y0 A; emu_macr N Y0 Y0 A;
   emu_mpy P Y0 Y0 B; emu_mpyr P Y0 Y0 B; emu_mac P Y0 Y0 B; emu_macr P Y0 Y0 B;
   emu_mpy N Y0 Y0 B; emu_mpyr N Y0 Y0 B; emu_mac N Y0 Y0 B; emu_macr N Y0 Y0 B;
   emu_mpy P X1 X0 A; emu_mpyr P X1 X0 A; emu_mac P X1 X0 A; emu_macr P X1 X0 A;
   emu_mpy N X1 X0 A; emu_mpyr N X1 X0 A; emu_mac N X1 X0 A; emu_macr N X1 X0 A;
   emu_mpy P X1 X0 B; emu_mpyr P X1 X0 B; emu_mac P X1 X0 B; emu_macr P X1 X0 B;
   emu_mpy N X1 X0 B; emu_mpyr N X1 X0 B; emu_mac N X1 X0 B; emu_macr N X1 X0 B;
   emu_mpy P Y1 Y0 A; emu_mpyr P Y1 Y0 A; emu_mac P Y1 Y0 A; emu_macr P Y1 Y0 A;
   emu_mpy N Y1 Y0 A; emu_mpyr N Y1 Y0 A; emu_mac N Y1 Y0 A; emu_macr N Y1 Y0 A;
   emu_mpy P Y1 Y0 B; emu_mpyr P Y1 Y0 B; emu_mac P Y1 Y0 B; emu_macr P Y1 Y0 B;
   emu_mpy N Y1 Y0 B; emu_mpyr N Y1 Y0 B; emu_mac N Y1 Y0 B; emu_macr N Y1 Y0 B;
   emu_mpy P X0 Y1 A; emu_mpyr P X0 Y1 A; emu_mac P X0 Y1 A; emu_macr P X0 Y1 A;
   emu_mpy N X0 Y1 A; emu_mpyr N X0 Y1 A; emu_mac N X0 Y1 A; emu_macr N X0 Y1 A;
   emu_mpy P X0 Y1 B; emu_mpyr P X0 Y1 B; emu_mac P X0 Y1 B; emu_macr P X0 Y1 B;
   emu_mpy N X0 Y1 B; emu_mpyr N X0 Y1 B; emu_mac N X0 Y1 B; emu_macr N X0 Y1 B;
   emu_mpy P Y0 X0 A; emu_mpyr P Y0 X0 A; emu_mac P Y0 X0 A; emu_macr P Y0 X0 A;
   emu_mpy N Y0 X0 A; emu_mpyr N Y0 X0 A; emu_mac N Y0 X0 A; emu_macr N Y0 X0 A;
   emu_mpy P Y0 X0 B; emu_mpyr P Y0 X0 B; emu_mac P Y0 X0 B; emu_macr P Y0 X0 B;
   emu_mpy N Y0 X0 B; emu_mpyr N Y0 X0 B; emu_mac N Y0 X0 B; emu_macr N Y0 X0 B;
   emu_mpy P X1 Y0 A; emu_mpyr P X1 Y0 A; emu_mac P X1 Y0 A; emu_macr P X1 Y0 A;
   emu_mpy N X1 Y0 A; emu_mpyr N X1 Y0 A; emu_mac N X1 Y0 A; emu_macr N X1 Y0 A;
   emu_mpy P X1 Y0 B; emu_mpyr P X1 Y0 B; emu_mac P X1 Y0 B; emu_macr P X1 Y0 B;
   emu_mpy N X1 Y0 B; emu_mpyr N X1 Y0 B; emu_mac N X1 Y0 B; emu_macr N X1 Y0 B;
   emu_mpy P Y1 X1 A; emu_mpyr P Y1 X1 A; emu_mac P Y1 X1 A; emu_macr P Y1 X1 A;
   emu_mpy N Y1 X1 A; emu_mpyr N Y1 X1 A; emu_mac N Y1 X1 A; emu_macr N Y1 X1 A;
   emu_mpy P Y1 X1 B; emu_mpyr P Y1 X1 B; emu_mac P Y1 X1 B; emu_macr P Y1 X1 B;
   emu_mpy N Y1 X1 B; emu_mpyr N Y1 X1 B; emu_mac N Y1 X1 B; emu_macr N Y1 X1 B
  ].

(** [opcodes_alu[dsp->cur_inst & BITMASK(8)](dsp)]. *)
Definition run_alu : M D unit :=
  c ← gets core;
  match opcodes_alu !! Z.to_nat (cur_inst c &&& BITMASK 8) with
  | Some f => f
  | None => raise OutOfBounds
  end.
End alu.
