(* ===== verification/DspMove.v ===== *)
(** * DspMove: the parallel moves of the audio DSPs, dsp_emu.c.inc

    Most instructions of the DSP are an arithmetic operation and up to two moves.  The
    sources of the moves are read before the operation and their destinations are written
    after it. *)

From stdpp Require Import base numbers list option.
From S2P Require Import Prelude.
From S2P Require Import DspArith.
From S2P Require Import DspCore.
From S2P Require Import DspAlu.

(** An accumulator limited to 24 bits in a mode of scaling, and whether it was limited. *)
Definition limit24 (scaling a2 a1 a0 : Z) : Z * bool :=
  let value := u32 (u32 (a2 <<< 24) + a1) in
  let value :=
    match scaling with
    | 1 => value >>> 1
    | 2 => u32 (value <<< 1) ||| ((a0 >>> 23) &&& 1)
    | _ => value
    end in
  let value := value &&& BITMASK 24 in
  if (a2 =? 0) && (value <=? 0x007fffff) then (value, false)
  else if (a2 =? 0xff) && (0x00800000 <=? value) then (value, false)
  else if truthy (a2 &&& (1 <<< 7)) then (0x00800000, true)
  else (0x007fffff, true).

Section moves.
Context {W : Type} `{!Peripherals W}.
Abbreviation D := (DSPState W).

(** [(dsp->cur_inst >> shift) & BITMASK(bits)]. *)
Definition inst_field (shift bits : Z) : M D Z := c ← gets core; mret ((cur_inst c >>> shift) &&& BITMASK bits).
Definition inst_bit (b : Z) : M D bool := c ← gets core; mret (truthy (cur_inst c &&& (1 <<< b))).

Definition emu_pm_read_accu24 (numreg : Z) : M D (Z * bool) :=
  sr ← rreg DSP_REG_SR;
  a ← read_accu (numreg &&& 1);
  let '(a2, a1, a0) := a in
  let '(value, limited) := limit24 ((sr >>> DSP_SR_S0) &&& BITMASK 2) a2 a1 a0 in
  whenM limited (set_sr (1 <<< DSP_SR_L));;
  mret (value, limited).

(** The source of a move, an accumulator limited to 24 bits or another register. *)
Definition is_accu (numreg : Z) : bool := (numreg =? DSP_REG_A) || (numreg =? DSP_REG_B).
Definition read_reg24 (numreg : Z) : M D Z :=
  if is_accu numreg then r ← emu_pm_read_accu24 numreg; mret r.1 else rreg numreg.
(** Its destination; of the two last forms the first does not mask the value. *)
Definition write_reg24 (numreg value : Z) (other : Z → Z → M D unit) : M D unit :=
  if numreg =? DSP_REG_A then load_accu 0 value
  else if numreg =? DSP_REG_B then load_accu 1 value
  else other numreg value.

Definition emu_pm_0 : M D unit :=
  memspace ← inst_field 15 1;
  numreg ← inst_field 16 1;
  ea ← inst_field 8 6;
  addr ← emu_calc_ea ea;
  save_accu ← emu_pm_read_accu24 numreg;
  save_xy0 ← rreg (DSP_REG_X0 + (memspace <<< 1));
  run_alu;;
  dsp56k_write_memory memspace addr.1 save_accu.1;;
  load_accu numreg save_xy0.

(** The register of a field of two bits: one of a pair, A or B. *)
Definition pair_or_accu (pair field : Z) : Z :=
  match field with 0 => pair | 1 => pair + 1 | 2 => DSP_REG_A | _ => DSP_REG_B end.

Definition emu_pm_1 : M D unit :=
  value ← inst_field 8 6;
  ea ← emu_calc_ea value;
  let '(xy_addr, retour) := ea in
  memspace ← inst_field 14 1;
  let y := truthy memspace in
  numreg1 ← (if y then f ← inst_field 16 2; mret (pair_or_accu DSP_REG_Y0 f)
             else f ← inst_field 18 2; mret (pair_or_accu DSP_REG_X0 f));
  write ← inst_bit 15;
  save_1 ← (if (write : bool) then
              if (retour : bool) then mret xy_addr else dsp56k_read_memory memspace xy_addr
            else read_reg24 numreg1);
  s2 ← (if y then inst_field 19 1 else inst_field 17 1);
  save_2 ← emu_pm_read_accu24 (DSP_REG_A + s2);
  run_alu;;
  (if (write : bool) then
     write_reg24 numreg1 save_1 (λ _ _, mret tt);;
     wreg numreg1 save_1
   else dsp56k_write_memory memspace xy_addr save_1);;
  numreg2 ← (if y then f ← inst_field 18 1; mret (DSP_REG_X0 + f)
             else f ← inst_field 16 1; mret (DSP_REG_Y0 + f));
  wreg numreg2 save_2.1.

Definition emu_pm_2_2 : M D unit :=
  srcreg ← inst_field 13 5;
  dstreg ← inst_field 8 5;
  save_reg ← read_reg24 srcreg;
  run_alu;;
  write_reg24 dstreg save_reg store_masked.

Definition emu_pm_3 : M D unit :=
  run_alu;;
  dstreg ← inst_field 16 5;
  srcvalue ← inst_field 8 8;
  let srcvalue :=
    if (DSP_REG_X0 <=? dstreg) && (dstreg <=? DSP_REG_Y1) || is_accu dstreg then srcvalue <<< 16
    else srcvalue in
  write_reg24 dstreg srcvalue store_masked.

Definition emu_pm_2 : M D unit :=
  c ← gets core;
  if cur_inst c &&& 0xffff00 =? 0x200000 then run_alu
  else if cur_inst c &&& 0xffe000 =? 0x204000 then
    ea ← inst_field 8 5; emu_calc_ea ea;; run_alu
  else if cur_inst c &&& 0xfc0000 =? 0x200000 then emu_pm_2_2
  else emu_pm_3.

(** What is moved to the two memories for an operand of 48 bits, and what is moved from them. *)
Definition read_long (numreg : Z) : M D (Z * Z) :=
  let whole (acc : Z) :=
    r ← emu_pm_read_accu24 acc;
    if (r.2 : bool) then mret (r.1, if truthy (r.1 &&& (1 <<< 23)) then 0 else 0xffffff)
    else a0 ← rreg (DSP_REG_A0 + (acc &&& 1)); mret (r.1, a0) in
  let both (r1 r0 : Z) := lx ← rreg r1; ly ← rreg r0; mret (lx, ly) in
  match numreg with
  | 0 => both DSP_REG_A1 DSP_REG_A0
  | 1 => both DSP_REG_B1 DSP_REG_B0
  | 2 => both DSP_REG_X1 DSP_REG_X0
  | 3 => both DSP_REG_Y1 DSP_REG_Y0
  | 4 => whole DSP_REG_A
  | 5 => whole DSP_REG_B
  | 6 => lx ← emu_pm_read_accu24 DSP_REG_A; ly ← emu_pm_read_accu24 DSP_REG_B; mret (lx.1, ly.1)
  | _ => lx ← emu_pm_read_accu24 DSP_REG_B; ly ← emu_pm_read_accu24 DSP_REG_A; mret (lx.1, ly.1)
  end.
Definition write_long (numreg lx ly : Z) : M D unit :=
  match numreg with
  | 0 => wreg DSP_REG_A1 lx;; wreg DSP_REG_A0 ly
  | 1 => wreg DSP_REG_B1 lx;; wreg DSP_REG_B0 ly
  | 2 => wreg DSP_REG_X1 lx;; wreg DSP_REG_X0 ly
  | 3 => wreg DSP_REG_Y1 lx;; wreg DSP_REG_Y0 ly
  | 4 => wreg DSP_REG_A0 ly;; wreg DSP_REG_A1 lx;; wreg DSP_REG_A2 (sign_word lx)
  | 5 => wreg DSP_REG_B0 ly;; wreg DSP_REG_B1 lx;; wreg DSP_REG_B2 (sign_word lx)
  | 6 => load_accu 0 lx;; load_accu 1 ly
  | _ => load_accu 1 lx;; load_accu 0 ly
  end.

(** An address of six bits, or the effective address of a mode. *)
Definition aa_or_ea : M D (Z * bool) :=
  value ← inst_field 8 6;
  ea ← inst_bit 14;
  if (ea : bool) then emu_calc_ea value else mret (value, false).

Definition emu_pm_4x : M D unit :=
  ea ← aa_or_ea;
  let l_addr := ea.1 in
  low ← inst_field 16 2;
  c ← gets core;
  let numreg := low ||| ((cur_inst c >>> 17) &&& (1 <<< 2)) in
  write ← inst_bit 15;
  save ← (if (write : bool) then
            lx ← dsp56k_read_memory DSP_SPACE_X l_addr;
            ly ← dsp56k_read_memory DSP_SPACE_Y l_addr;
            mret (lx, ly)
          else read_long numreg);
  run_alu;;
  if (write : bool) then write_long numreg save.1 save.2
  else
    dsp56k_write_memory DSP_SPACE_X l_addr save.1;;
    dsp56k_write_memory DSP_SPACE_Y l_addr save.2.

Definition emu_pm_5 : M D unit :=
  ea ← aa_or_ea;
  let '(xy_addr, retour) := ea in
  memspace ← inst_field 19 1;
  low ← inst_field 16 3;
  c ← gets core;
  let numreg := low ||| ((cur_inst c >>> 17) &&& (BITMASK 2 <<< 3)) in
  write ← inst_bit 15;
  value ← (if (write : bool) then
             if (retour : bool) then mret xy_addr else dsp56k_read_memory memspace xy_addr
           else read_reg24 numreg);
  run_alu;;
  if (write : bool) then write_reg24 numreg value store_masked
  else dsp56k_write_memory memspace xy_addr value.

Definition emu_pm_4 : M D unit :=
  c ← gets core;
  if cur_inst c &&& 0xf40000 =? 0x400000 then emu_pm_4x else emu_pm_5.

(** The two modes of addresses of a move to or from both memories. *)
Definition pm_8_modes (inst : Z) : Z * Z :=
  let plain (ea : Z) := if ea >>> 3 =? 0 then ea ||| (1 <<< 5) else ea in
  let ea1 := plain ((inst >>> 8) &&& BITMASK 5) in
  let ea2 := ((inst >>> 13) &&& BITMASK 2) ||| ((inst >>> 17) &&& (BITMASK 2 <<< 3)) in
  let ea2 := if ea1 &&& (1 <<< 2) =? 0 then ea2 ||| (1 <<< 2) else ea2 in
  (ea1, plain ea2).

Definition emu_pm_8 : M D unit :=
  c ← gets core;
  let '(ea1, ea2) := pm_8_modes (cur_inst c) in
  x_addr ← emu_calc_ea ea1;
  y_addr ← emu_calc_ea ea2;
  f1 ← inst_field 18 2;
  f2 ← inst_field 16 2;
  let numreg1 := pair_or_accu DSP_REG_X0 f1 in
  let numreg2 := pair_or_accu DSP_REG_Y0 f2 in
  write1 ← inst_bit 15;
  save_reg1 ← (if (write1 : bool) then dsp56k_read_memory DSP_SPACE_X x_addr.1 else read_reg24 numreg1);
  write2 ← inst_bit 22;
  save_reg2 ← (if (write2 : bool) then dsp56k_read_memory DSP_SPACE_Y y_addr.1 else read_reg24 numreg2);
  run_alu;;
  (if (write1 : bool) then write_reg24 numreg1 save_reg1 wreg
   else dsp56k_write_memory DSP_SPACE_X x_addr.1 save_reg1);;
  if (write2 : bool) then write_reg24 numreg2 save_reg2 wreg
  else dsp56k_write_memory DSP_SPACE_Y y_addr.1 save_reg2.

Definition opcodes_parmove : list (M D unit) :=
  [emu_pm_0; emu_pm_1; emu_pm_2; emu_pm_3; emu_pm_4; emu_pm_5; emu_pm_5; emu_pm_5;
   emu_pm_8; emu_pm_8; emu_pm_8; emu_pm_8; emu_pm_8; emu_pm_8; emu_pm_8; emu_pm_8].
End moves.
