(* ===== verification/DspInsn.v ===== *)
(** * DspInsn: the instructions without a parallel move, dsp_emu.c.inc

    Where the source has a function for each kind of operand, there is one definition here,
    with the kind as an argument. *)

From stdpp Require Import base numbers list option.
From S2P Require Import Prelude.
From S2P Require Import DspArith.
From S2P Require Import DspCore.
From S2P Require Import DspAlu.
From S2P Require Import DspMove.

(** The suffixes of the functions: a short address, the effective address of a mode, the
    upper half of the peripherals, a register. *)
Inductive operand := Aa | Ea | Pp | Reg.
Inductive location := Memory (space address : Z) | Register (numreg : Z).

Definition registers_tcc : list (Z * Z) :=
  [(DSP_REG_B, DSP_REG_A); (DSP_REG_A, DSP_REG_B); (DSP_REG_NULL, DSP_REG_NULL); (DSP_REG_NULL, DSP_REG_NULL);
   (DSP_REG_NULL, DSP_REG_NULL); (DSP_REG_NULL, DSP_REG_NULL); (DSP_REG_NULL, DSP_REG_NULL);
   (DSP_REG_NULL, DSP_REG_NULL);
   (DSP_REG_X0, DSP_REG_A); (DSP_REG_X0, DSP_REG_B); (DSP_REG_Y0, DSP_REG_A); (DSP_REG_Y0, DSP_REG_B);
   (DSP_REG_X1, DSP_REG_A); (DSP_REG_X1, DSP_REG_B); (DSP_REG_Y1, DSP_REG_A); (DSP_REG_Y1, DSP_REG_B)].

Section insns.
Context {W : Type} `{!Peripherals W}.
Abbreviation D := (DSPState W).

(** ** Operands *)

(** The word after the instruction. *)
Definition next_word : M D Z := c ← gets core; read_memory_p (u32 (pc c + 1)).
Definition longer : M D unit := set_core (λ c, c <| cur_inst_len ::= λ n, u32 (n + 1) |>).
(** An operand of six bits, or of the word after the instruction. *)
Definition imm_or_long (long : bool) : M D Z :=
  if long then xxxx ← next_word; longer;; mret xxxx else inst_field 8 6.

Definition locate (o : operand) : M D location :=
  memspace ← inst_field 6 1;
  value ← inst_field 8 6;
  match o with
  | Aa => mret (Memory memspace value)
  | Ea => ea ← emu_calc_ea value; mret (Memory memspace ea.1)
  | Pp => mret (Memory memspace (0xffffc0 + value))
  | Reg => mret (Register value)
  end.
Definition read_location (l : location) : M D Z :=
  match l with Memory space address => dsp56k_read_memory space address | Register numreg => read_reg24 numreg end.
Definition write_location (l : location) (value : Z) : M D unit :=
  match l with
  | Memory space address => dsp56k_write_memory space address value
  | Register numreg => dsp_write_reg numreg value
  end.
Definition read_operand (o : operand) : M D Z := l ← locate o; read_location l.

(** The registers X0, Y0, X1 and Y1 by their number in an instruction. *)
Definition xy_register (field : Z) : Z :=
  match field with 0 => DSP_REG_X0 | 1 => DSP_REG_Y0 | 2 => DSP_REG_X1 | _ => DSP_REG_Y1 end.

(** ** Jumps *)

Definition jump (newpc : Z) : M D unit := set_core (λ c, c <| pc := newpc |> <| cur_inst_len := 0 |>).
Definition branch (offset : Z) : M D unit :=
  set_core (λ c, c <| pc ::= λ p, u32 (p + offset) &&& BITMASK 24 |> <| cur_inst_len := 0 |>).
(** The address after the instruction and the status register go to the stack. *)
Definition push_next : M D unit :=
  c ← gets core; sr ← rreg DSP_REG_SR; dsp_stack_push (u32 (pc c + cur_inst_len c)) sr false.
(** A call; the one that starts a long interrupt has its return address on the stack. *)
Definition push_call : M D unit :=
  c ← gets core;
  if negb (interrupt_state c =? DSP_INTERRUPT_LONG) then push_next
  else set_core (λ c, c <| interrupt_state := DSP_INTERRUPT_DISABLED |>).
(** The offset of nine bits of a short branch. *)
Definition short_offset : M D Z :=
  c ← gets core;
  mret (dsp_signextend 9 ((cur_inst c &&& BITMASK 5) + ((cur_inst c &&& (BITMASK 4 <<< 6)) >>> 1))).
Definition branch_offset (long : bool) : M D Z :=
  if long then imm_or_long true else short_offset.

Definition emu_bcc (long : bool) : M D unit :=
  xxxx ← branch_offset long;
  cc_code ← (if long then inst_field 0 4 else inst_field 12 4);
  taken ← emu_calc_cc cc_code;
  whenM taken (branch xxxx).
Definition emu_bra (long : bool) : M D unit := xxxx ← branch_offset long; branch xxxx.
Definition emu_bsr (long : bool) : M D unit :=
  xxxx ← branch_offset long; push_call;; branch xxxx;; add_cycles (if long then 4 else 2).

(** The target of a jump, of twelve bits or an effective address, and its condition. *)
Definition jump_target (ea : bool) : M D Z :=
  if ea then mode ← inst_field 8 6; a ← emu_calc_ea mode; mret a.1 else inst_field 0 12.
Definition jump_condition (ea : bool) : M D bool :=
  cc_code ← (if ea then inst_field 0 4 else inst_field 12 4); emu_calc_cc cc_code.

Definition emu_jcc (ea : bool) : M D unit :=
  newpc ← jump_target ea; taken ← jump_condition ea; whenM taken (jump newpc);; add_cycles 2.
Definition emu_jscc (ea : bool) : M D unit :=
  newpc ← jump_target ea; taken ← jump_condition ea; whenM taken (push_next;; jump newpc);; add_cycles 2.
Definition emu_jmp (ea : bool) : M D unit := newpc ← jump_target ea; jump newpc;; add_cycles 2.
Definition emu_jsr (ea : bool) : M D unit := newpc ← jump_target ea; push_call;; jump newpc;; add_cycles 2.

(** ** Bits *)

Definition numbit : M D Z := inst_field 0 5.
(** The bit of the operand goes to the carry; [f] has the new value of the operand. *)
Definition bit_insn (f : Z → Z → option Z) (o : operand) : M D unit :=
  n ← numbit;
  l ← locate o;
  value ← read_location l;
  match f value n with Some value => write_location l value | None => mret tt end;;
  clear_sr (1 <<< DSP_SR_C);;
  set_sr (((value >>> n) &&& 1) <<< DSP_SR_C);;
  add_cycles 2.

Definition emu_bchg : operand → M D unit :=
  bit_insn (λ value n, Some (u32 (if truthy ((value >>> n) &&& 1) then value - (1 <<< n) else value + (1 <<< n)))).
Definition emu_bclr : operand → M D unit := bit_insn (λ value n, Some (value &&& (0xffffffff - (1 <<< n)))).
Definition emu_bset : operand → M D unit := bit_insn (λ value n, Some (value ||| (1 <<< n))).
Definition emu_btst : operand → M D unit := bit_insn (λ _ _, None).

(** [set] is the value of the bit for which the branch is taken. *)
Definition branch_on_bit (set : bool) (o : operand) : M D unit :=
  xxxx ← imm_or_long true;
  n ← numbit;
  value ← read_operand o;
  add_cycles 4;;
  whenM (eqb (truthy (value &&& (1 <<< n))) set) (branch xxxx).
Definition emu_brclr : operand → M D unit := branch_on_bit false.
Definition emu_brset : operand → M D unit := branch_on_bit true.

(** [target_first]: whether the address is read before the operand. *)
Definition jump_on_bit (set call target_first : bool) (o : operand) : M D unit :=
  n ← numbit;
  both ← (if target_first then newaddr ← next_word; value ← read_operand o; mret (newaddr, value)
          else value ← read_operand o; newaddr ← next_word; mret (newaddr, value));
  let '(newaddr, value) := both in
  add_cycles 4;;
  if eqb (truthy (value &&& (1 <<< n))) set then
    whenM call (c ← gets core; sr ← rreg DSP_REG_SR; dsp_stack_push (u32 (pc c + 2)) sr false);;
    jump newaddr
  else longer.
Definition is_reg (o : operand) : bool := match o with Reg => true | _ => false end.
Definition is_ea (o : operand) : bool := match o with Ea => true | _ => false end.
Definition emu_jclr (o : operand) : M D unit := jump_on_bit false false (is_reg o || is_ea o) o.
Definition emu_jsclr (o : operand) : M D unit := jump_on_bit false true (is_reg o) o.
Definition emu_jset (o : operand) : M D unit := jump_on_bit true false (is_reg o) o.
Definition emu_jsset (o : operand) : M D unit := jump_on_bit true true (is_reg o) o.

(** ** Arithmetic *)

(** The bit of an instruction that tells the accumulator is 3. *)
Definition with_word (long : bool) (f : accu → Z → M D unit) : M D unit :=
  x ← imm_or_long long; d ← inst_field 3 1; f (sign_word x, x, 0) d.

Definition emu_add_x (long : bool) : M D unit :=
  with_word long (λ source d, dest ← read_accu d; let '(r, newsr) := dsp_add56 source dest in result d r newsr).
Definition emu_sub_x (long : bool) : M D unit :=
  with_word long (λ source d, dest ← read_accu d; let '(r, newsr) := dsp_sub56 source dest in result d r newsr).
Definition emu_and_x (long : bool) : M D unit :=
  x ← imm_or_long long; d ← inst_field 3 1; v ← rreg (DSP_REG_A1 + d); logical d (v &&& x).
Definition emu_or_long : M D unit :=
  x ← imm_or_long true; d ← inst_field 3 1; v ← rreg (DSP_REG_A1 + d); logical d (v ||| x).
(** The word is not extended by its sign. *)
Definition emu_cmp_x (long : bool) : M D unit :=
  x ← imm_or_long long; d ← inst_field 3 1;
  dest ← read_accu d; let '(r, newsr) := dsp_sub56 (0, x, 0) dest in compared r newsr.

Definition emu_cmpu : M D unit :=
  ggg ← inst_field 1 3;
  d ← inst_field 0 1;
  let srcreg :=
    match ggg with
    | 0 => if truthy d then DSP_REG_A else DSP_REG_B
    | 4 => DSP_REG_X0
    | 5 => DSP_REG_Y0
    | 6 => DSP_REG_X1
    | 7 => DSP_REG_Y1
    | _ => DSP_REG_NULL
    end in
  dest ← read_accu d;
  value ← read_reg24 srcreg;
  let '(r, newsr) := dsp_sub56 (sign_word value, value, 0) dest in
  clear_sr ((1 <<< DSP_SR_V) ||| (1 <<< DSP_SR_C) ||| (1 <<< DSP_SR_Z) ||| (1 <<< DSP_SR_N));;
  set_sr (newsr &&& (1 <<< DSP_SR_C));;
  let '(r0, r1, r2) := r in
  whenM ((r0 =? 0) && (r2 =? 0) && (r1 =? 0)) (set_sr (1 <<< DSP_SR_Z));;
  set_sr ((r0 >>> 4) &&& 0x8).

Definition emu_dec : M D unit :=
  d ← inst_field 0 1; dest ← read_accu d;
  let '(r, newsr) := dsp_sub56 (0, 0, 1) dest in result d r newsr.
Definition emu_inc : M D unit :=
  d ← inst_field 0 1; dest ← read_accu d;
  let '(r, newsr) := dsp_add56 (0, 0, 1) dest in result d r newsr.

(** One step of a division. *)
Definition div_step (source : Z) (dest : accu) : accu * Z :=
  let '(d0, _, _) := dest in
  let '(shifted, newsr) := dsp_asl56 dest 1 in
  let word := (sign_word source, source, 0) in
  let differ := truthy (((d0 >>> 7) &&& 1) ^^^ ((source >>> 23) &&& 1)) in
  ((if differ then dsp_add56 word shifted else dsp_sub56 word shifted).1, newsr).
Definition emu_div : M D unit :=
  f ← inst_field 4 2;
  source ← rreg (xy_register f);
  d ← inst_field 3 1;
  dest ← read_accu d;
  sr ← rreg DSP_REG_SR;
  let '((r0, r1, r2), newsr) := div_step source dest in
  write_accu d (r0, r1, r2 ||| ((sr >>> DSP_SR_C) &&& 1));;
  clear_sr ((1 <<< DSP_SR_C) ||| (1 <<< DSP_SR_V));;
  set_sr ((1 - ((r0 >>> 7) &&& 1)) <<< DSP_SR_C);;
  set_sr (newsr &&& (1 <<< DSP_SR_L));;
  set_sr (newsr &&& (1 <<< DSP_SR_V)).

(** From one accumulator to another.  A shift to the left by more than 56 bits, and one to the
    right by none, shift by a negative number on the way, which is not defined. *)
Definition shift_imm (f : accu → Z → accu * Z) (defined : Z → bool) : M D unit :=
  s ← inst_field 7 1; d ← inst_field 0 1; ii ← inst_field 1 6;
  dest ← read_accu s;
  (if defined ii then mret tt else raise BadShift);;
  let '(r, newsr) := f dest ii in shifted d r newsr.
Definition emu_asl_imm : M D unit := shift_imm dsp_asl56 (λ ii, 0 <=? 56 - ii).
Definition emu_asr_imm : M D unit := shift_imm dsp_asr56 (λ ii, 0 <=? ii - 1).
Definition emu_lsl_imm : M D unit :=
  d ← inst_field 0 1; ii ← inst_field 1 5; Nat.iter (Z.to_nat ii) (λ m, m;; emu_lsl d) (mret tt).

Definition emu_mpyi : M D unit :=
  xxxx ← imm_or_long true;
  k ← inst_field 2 1; d ← inst_field 3 1; qq ← inst_field 4 2;
  v ← rreg (xy_register qq);
  multiplied d (dsp_mul56 xxxx v (if truthy k then SIGN_MINUS else SIGN_PLUS)).

Definition emu_norm : M D unit :=
  cursr ← rreg DSP_REG_SR;
  let e := Z.testbit cursr DSP_SR_E in
  let euz := negb e && Z.testbit cursr DSP_SR_U && negb (Z.testbit cursr DSP_SR_Z) in
  numreg ← inst_field 3 1;
  dest ← read_accu numreg;
  f ← inst_field 8 3;
  let r := DSP_REG_R0 + f in
  both ← (if euz then
            v ← rreg r; wreg r (u32 (v - 1) &&& BITMASK 16);; mret (dsp_asl56 dest 1)
          else if e then
            v ← rreg r; wreg r (u32 (v + 1) &&& BITMASK 16);; mret (dsp_asr56 dest 1)
          else mret (dest, 0));
  let '(res, newsr) := both in result numreg res newsr.

(** ** The status and mode registers *)

Definition emu_andi : M D unit :=
  value ← inst_field 8 8;
  regnum ← inst_field 0 2;
  match regnum with
  | 0 => sr ← rreg DSP_REG_SR; wreg DSP_REG_SR (sr &&& ((value <<< 8) ||| BITMASK 8))
  | 1 => sr ← rreg DSP_REG_SR; wreg DSP_REG_SR (sr &&& ((BITMASK 8 <<< 8) ||| value))
  | 2 => omr ← rreg DSP_REG_OMR; wreg DSP_REG_OMR (omr &&& value)
  | _ => mret tt
  end.
Definition emu_ori : M D unit :=
  value ← inst_field 8 8;
  regnum ← inst_field 0 2;
  match regnum with
  | 0 => set_sr (value <<< 8)
  | 1 => set_sr value
  | 2 => omr ← rreg DSP_REG_OMR; wreg DSP_REG_OMR (omr ||| value)
  | _ => mret tt
  end.

(** ** Loops *)

(** The count of a loop of twelve bits. *)
Definition loop_count : M D Z := lo ← inst_field 8 8; hi ← inst_field 0 4; mret (lo + (hi <<< 8)).
Definition push_loop : M D unit :=
  la ← rreg DSP_REG_LA; lc ← rreg DSP_REG_LC; dsp_stack_push la lc false.
Definition enter_loop : M D unit := push_next;; set_sr (1 <<< DSP_SR_LF).
Definition last_address : M D unit :=
  push_loop;; a ← next_word; wreg DSP_REG_LA (a &&& BITMASK 16);; longer.

Definition emu_do_mem (o : operand) : M D unit :=
  last_address;; enter_loop;;
  n ← read_operand o; wreg DSP_REG_LC (n &&& BITMASK 16);; add_cycles 4.
Definition emu_do_imm : M D unit :=
  last_address;; enter_loop;; n ← loop_count; wreg DSP_REG_LC n;; add_cycles 4.
Definition emu_do_reg : M D unit :=
  last_address;;
  n ← read_operand Reg; wreg DSP_REG_LC (n &&& BITMASK 16);;
  enter_loop;; add_cycles 4.
(** With the last address relative to the instruction. *)
Definition emu_dor (reg : bool) : M D unit :=
  xxxx ← imm_or_long true;
  push_loop;;
  c ← gets core;
  wreg DSP_REG_LA (u32 (pc c + xxxx) &&& BITMASK 16);;
  enter_loop;;
  n ← (if reg then v ← read_operand Reg; mret (v &&& BITMASK 16) else loop_count);
  wreg DSP_REG_LC n;; add_cycles 4.

(** The end of a loop, by the instruction or by its count. *)
Definition emu_enddo : M D unit :=
  saved ← dsp_stack_pop;
  sr ← rreg DSP_REG_SR;
  wreg DSP_REG_SR ((sr &&& 0x7f) ||| (saved.2 &&& (1 <<< DSP_SR_LF)));;
  outer ← dsp_stack_pop;
  wreg DSP_REG_LA outer.1;; wreg DSP_REG_LC outer.2.

Definition start_rep : M D unit :=
  lc ← rreg DSP_REG_LC; wreg DSP_REG_LCSAVE lc;;
  set_core (λ c, c <| pc_on_rep := 1 |> <| loop_rep := 1 |>).
Definition emu_rep (o : operand) : M D unit :=
  start_rep;;
  n ← read_operand o;
  wreg DSP_REG_LC (if is_reg o then n &&& BITMASK 16 else n);; add_cycles 2.
Definition emu_rep_imm : M D unit := start_rep;; n ← loop_count; wreg DSP_REG_LC n;; add_cycles 2.

(** ** Returns and others *)

Definition emu_illegal : M D unit := dsp56k_add_interrupt DSP_INTER_ILLEGAL;; debug_stop.
Definition emu_rti : M D unit :=
  r ← dsp_stack_pop; set_core (λ c, c <| pc := r.1 |>);; wreg DSP_REG_SR r.2;; set_inst_len 0;; add_cycles 2.
Definition emu_rts : M D unit := r ← dsp_stack_pop; jump r.1;; add_cycles 2.
Definition emu_reset : M D unit := add_cycles 2.
(** The bodies of NOP, STOP and WAIT. *)
Definition emu_nop : M D unit := mret tt.

(** An address register gets the address of a mode, not the content. *)
Definition store_address (v : Z) : M D unit :=
  dstreg ← inst_field 0 3;
  n ← inst_bit 3;
  wreg ((if (n : bool) then DSP_REG_N0 else DSP_REG_R0) + dstreg) v;; add_cycles 2.
Definition emu_lua : M D unit :=
  f ← inst_field 8 3;
  let srcreg := DSP_REG_R0 + f in
  srcsave ← rreg srcreg;
  mode ← inst_field 8 5;
  emu_calc_ea mode;;
  srcnew ← rreg srcreg;
  wreg srcreg srcsave;;
  store_address srcnew.
Definition emu_lua_rel : M D unit :=
  lo ← inst_field 4 4; hi ← inst_field 11 3;
  addrreg ← inst_field 8 3;
  r ← rreg (DSP_REG_R0 + addrreg);
  store_address (u32 (r + dsp_signextend 7 (lo + (hi <<< 4))) &&& BITMASK 24).

(** Transfer on a condition.  The source of the three forms is chosen by the table; where it is
    no accumulator and no register of a pair, register 0 is read. *)
Definition emu_tcc : M D unit :=
  cc_code ← inst_field 12 4;
  taken ← emu_calc_cc cc_code;
  whenM taken
    (f ← inst_field 3 4;
     match registers_tcc !! Z.to_nat f with
     | None => raise OutOfBounds
     | Some (regsrc1, regdest1) =>
         v ← read_source (if regsrc1 =? DSP_REG_A then Acc 0 else if regsrc1 =? DSP_REG_B then Acc 1 else Word regsrc1);
         write_accu (if regdest1 =? DSP_REG_A then 0 else 1) v
     end;;
     second ← inst_bit 16;
     whenM second
       (s ← inst_field 8 3; d ← inst_field 0 3; v ← rreg (DSP_REG_R0 + s); wreg (DSP_REG_R0 + d) v)).

(** ** Moves *)

(** [value & BITMASK(registers_mask[numreg])] to a register. *)
Definition write_control (numreg value : Z) : M D unit :=
  match registers_mask !! Z.to_nat numreg with
  | Some bits => dsp_write_reg numreg (value &&& BITMASK bits)
  | None => raise OutOfBounds
  end.
(** A register as it is; SSH takes an element from the stack. *)
Definition pop_or_reg (numreg : Z) : M D Z :=
  if numreg =? DSP_REG_SSH then r ← dsp_stack_pop; mret r.1 else rreg numreg.
Definition pop_or_reg24 (numreg : Z) : M D Z :=
  if numreg =? DSP_REG_SSH then r ← dsp_stack_pop; mret r.1 else read_reg24 numreg.

Definition emu_movec_reg : M D unit :=
  numreg2 ← inst_field 8 6;
  numreg1 ← inst_field 0 6;
  write ← inst_bit 15;
  if (write : bool) then value ← read_reg24 numreg2; write_control numreg1 value
  else
    value ← pop_or_reg numreg1;
    if is_accu numreg2 then load_accu (numreg2 - DSP_REG_A) (value &&& BITMASK 24)
    else store_masked numreg2 value.
Definition emu_movec_imm : M D unit :=
  numreg ← inst_field 0 6; value ← inst_field 8 8; write_control numreg value.
(** To or from memory at a short address or the address of a mode, which may be immediate. *)
Definition emu_movec_mem (ea : bool) : M D unit :=
  numreg ← inst_field 0 6;
  field ← inst_field 8 6;
  memspace ← inst_field 6 1;
  write ← inst_bit 15;
  a ← (if ea then emu_calc_ea field else mret (field, false));
  let '(addr, retour) := a in
  if (write : bool) then
    value ← (if (retour : bool) then mret addr else dsp56k_read_memory memspace addr);
    write_control numreg value
  else value ← pop_or_reg numreg; dsp56k_write_memory memspace addr value.

Definition emu_movem (ea : bool) : M D unit :=
  numreg ← inst_field 0 6;
  field ← inst_field 8 6;
  addr ← (if ea then a ← emu_calc_ea field; mret a.1 else mret field);
  write ← inst_bit 15;
  (if (write : bool) then value ← read_memory_p addr; write_control numreg value
   else value ← pop_or_reg24 numreg; dsp56k_write_memory DSP_SPACE_P addr value);;
  add_cycles 4.

Definition emu_movep_0 : M D unit :=
  pp ← inst_field 0 6;
  let addr := 0xffffc0 + pp in
  memspace ← inst_field 16 1;
  numreg ← inst_field 8 6;
  write ← inst_bit 15;
  (if (write : bool) then value ← pop_or_reg24 numreg; dsp56k_write_memory memspace addr value
   else value ← dsp56k_read_memory memspace addr; write_control numreg value);;
  add_cycles 2.
Definition emu_movep_1 : M D unit :=
  pp ← inst_field 0 6;
  let xyaddr := 0xffffc0 + pp in
  mode ← inst_field 8 6;
  paddr ← emu_calc_ea mode;
  memspace ← inst_field 16 1;
  write ← inst_bit 15;
  (if (write : bool) then value ← read_memory_p paddr.1; dsp56k_write_memory memspace xyaddr value
   else value ← dsp56k_read_memory memspace xyaddr; dsp56k_write_memory DSP_SPACE_P paddr.1 value);;
  add_cycles 4.
(** Between a peripheral and the address of a mode. *)
Definition move_peripheral (perspace peraddr : Z) : M D unit :=
  ea_mode ← inst_field 8 6;
  easpace ← inst_field 6 1;
  a ← emu_calc_ea ea_mode;
  let '(addr, retour) := a in
  write ← inst_bit 15;
  (if (write : bool) then
     value ← (if (retour : bool) then mret addr else dsp56k_read_memory easpace addr);
     dsp56k_write_memory perspace peraddr value
   else value ← dsp56k_read_memory perspace peraddr; dsp56k_write_memory easpace addr value);;
  add_cycles 2.
Definition emu_movep_23 : M D unit :=
  pp ← inst_field 0 6; perspace ← inst_field 16 1; move_peripheral perspace (0xffffc0 + pp).
Definition emu_movep_x_qq : M D unit :=
  qq ← inst_field 0 6; move_peripheral DSP_SPACE_X (0xffff80 + qq).

(** Between a register and memory at an offset from an address register. *)
Definition move_offset (space offset : Z) (write : bool) (numreg : Z) : M D unit :=
  f ← inst_field 8 3;
  r ← rreg (DSP_REG_R0 + f);
  let addr := u32 (r + offset) &&& BITMASK 24 in
  if write then value ← dsp56k_read_memory space addr; dsp_write_reg numreg value
  else value ← read_reg24 numreg; dsp56k_write_memory space addr value.
Definition emu_move_x_long : M D unit :=
  xxxx ← imm_or_long true;
  write ← inst_bit 6;
  numreg ← inst_field 0 6;
  move_offset DSP_SPACE_X xxxx write numreg.
Definition emu_move_xy_imm (space : Z) : M D unit :=
  hi ← inst_field 11 6; lo ← inst_field 6 1;
  write ← inst_bit 4;
  numreg ← inst_field 0 4;
  move_offset space (dsp_signextend 7 ((hi <<< 1) + lo)) write numreg.
End insns.
