(* ===== verification/DspExec.v ===== *)
(** * DspExec: decoding, one instruction and interrupts of the audio DSPs, dsp_cpu.c *)

From stdpp Require Import base numbers list option.
From Stdlib Require Import String Ascii.
From S2P Require Import Prelude.
From S2P Require Import DspArith.
From S2P Require Import DspCore.
From S2P Require Import DspAlu.
From S2P Require Import DspMove.
From S2P Require Import DspInsn.

(** ** The table of opcodes *)

(** [emu_func_t], for any peripherals. *)
Definition emu_func_t : Type := ∀ (W : Type) (P : Peripherals W), M (DSPState W) unit.

(** An entry: the template, the function that executes the instruction, and whether
    [match_MMMRRR] is asked.  The name and the disassembler are left out. *)
Record OpcodeEntry := op { template : string; emu_func : option emu_func_t; match_func : bool }.

Definition match_MMMRRR (word : Z) : bool :=
  let RRR := (word >>> 8) &&& BITMASK 3 in
  let MMM := (word >>> 11) &&& BITMASK 3 in
  if MMM =? 6 then (RRR =? 0) || (RRR =? 4) else true.

Abbreviation func f := (Some (λ (W : Type) (P : Peripherals W), f)) (only parsing).

Definition nonparallel_opcodes : list OpcodeEntry :=
  [op "0000000101iiiiii1000d000" (func (emu_add_x false)) false;
   op "00000001010000001100d000" (func (emu_add_x true)) false;
   op "0000000101iiiiii1000d110" (func (emu_and_x false)) false;
   op "00000001010000001100d110" (func (emu_and_x true)) false;
   op "00000000iiiiiiii101110EE" (func emu_andi) false;
   op "0000110000011101SiiiiiiD" (func emu_asl_imm) false;
   op "0000110000011110010SsssD" None false;
   op "0000110000011100SiiiiiiD" (func emu_asr_imm) false;
   op "0000110000011110011SsssD" None false;
   op "00001101000100000100CCCC" (func (emu_bcc true)) false;
   op "00000101CCCC01aaaa0aaaaa" (func (emu_bcc false)) false;
   op "0000110100011RRR0100CCCC" None false;
   op "0000101101MMMRRR0S00bbbb" (func (emu_bchg Ea)) true;
   op "0000101100aaaaaa0S00bbbb" (func (emu_bchg Aa)) false;
   op "0000101110pppppp0S00bbbb" (func (emu_bchg Pp)) false;
   op "0000000101qqqqqq0S0bbbbb" None false;
   op "0000101111DDDDDD010bbbbb" (func (emu_bchg Reg)) false;
   op "0000101001MMMRRR0S00bbbb" (func (emu_bclr Ea)) true;
   op "0000101000aaaaaa0S00bbbb" (func (emu_bclr Aa)) false;
   op "0000101010pppppp0S00bbbb" (func (emu_bclr Pp)) false;
   op "0000000100qqqqqq0S00bbbb" None false;
   op "0000101011DDDDDD010bbbbb" (func (emu_bclr Reg)) false;
   op "000011010001000011000000" (func (emu_bra true)) false;
   op "00000101000011aaaa0aaaaa" (func (emu_bra false)) false;
   op "0000110100011RRR11000000" None false;
   op "0000110010MMMRRR0S0bbbbb" None true;
   op "0000110010aaaaaa1S0bbbbb" None false;
   op "0000110011pppppp0S0bbbbb" (func (emu_brclr Pp)) false;
   op "0000010010qqqqqq0S0bbbbb" None false;
   op "0000110011DDDDDD100bbbbb" (func (emu_brclr Reg)) false;
   op "00000000000000100001CCCC" None false;
   op "0000110010MMMRRR0S1bbbbb" None true;
   op "0000110010aaaaaa1S1bbbbb" None false;
   op "0000110011pppppp0S1bbbbb" (func (emu_brset Pp)) false;
   op "0000010010qqqqqq0S1bbbbb" None false;
   op "0000110011DDDDDD101bbbbb" (func (emu_brset Reg)) false;
   op "00001101000100000000CCCC" None false;
   op "00000101CCCC00aaaa0aaaaa" None false;
   op "0000110100011RRR0000CCCC" None false;
   op "0000110110MMMRRR0S0bbbbb" None true;
   op "0000110110aaaaaa1S0bbbbb" None false;
   op "0000010010qqqqqq1S0bbbbb" None false;
   op "0000110111pppppp0S0bbbbb" None false;
   op "0000110111DDDDDD100bbbbb" None false;
   op "0000101001MMMRRR0S1bbbbb" (func (emu_bset Ea)) true;
   op "0000101000aaaaaa0S1bbbbb" (func (emu_bset Aa)) false;
   op "0000101010pppppp0S1bbbbb" (func (emu_bset Pp)) false;
   op "0000000100qqqqqq0S1bbbbb" None false;
   op "0000101011DDDDDD011bbbbb" (func (emu_bset Reg)) false;
   op "000011010001000010000000" (func (emu_bsr true)) false;
   op "00000101000010aaaa0aaaaa" (func (emu_bsr false)) false;
   op "0000110100011RRR10000000" None false;
   op "0000110110MMMRRR0S1bbbbb" None true;
   op "0000110110aaaaaa1S1bbbbb" None false;
   op "0000110111pppppp0S1bbbbb" None false;
   op "0000010010qqqqqq1S1bbbbb" None false;
   op "0000110111DDDDDD101bbbbb" None false;
   op "0000101101MMMRRR0S10bbbb" (func (emu_btst Ea)) true;
   op "0000101100aaaaaa0S10bbbb" (func (emu_btst Aa)) false;
   op "0000101110pppppp0S10bbbb" (func (emu_btst Pp)) false;
   op "0000000101qqqqqq0S10bbbb" None false;
   op "0000101111DDDDDD0110bbbb" (func (emu_btst Reg)) false;
   op "0000110000011110000000SD" None false;
   op "0000000101iiiiii1000d101" (func (emu_cmp_x false)) false;
   op "00000001010000001100d101" (func (emu_cmp_x true)) false;
   op "00001100000111111111gggd" (func emu_cmpu) false;
   op "000000000000001000000000" None false;
   op "00000000000000110000CCCC" None false;
   op "00000000000000000000101d" (func emu_dec) false;
   op "000000011000000001JJd000" (func emu_div) false;
   op "000000010010010s1sdkQQQQ" None false;
   op "0000011001MMMRRR0S000000" (func (emu_do_mem Ea)) true;
   op "0000011000aaaaaa0S000000" (func (emu_do_mem Aa)) false;
   op "00000110iiiiiiii1000hhhh" (func emu_do_imm) false;
   op "0000011011DDDDDD00000000" (func emu_do_reg) false;
   op "000000000000001000000011" None false;
   op "0000011001MMMRRR0S010000" None true;
   op "0000011000aaaaaa0S010000" None false;
   op "00000110iiiiiiii1001hhhh" (func (emu_dor false)) false;
   op "0000011011DDDDDD00010000" (func (emu_dor true)) false;
   op "000000000000001000000010" None false;
   op "000000000000000010001100" (func emu_enddo) false;
   op "0000000101iiiiii1000d011" None false;
   op "00000001010000001100d011" None false;
   op "0000110000011010000sSSSD" None false;
   op "0000110000011000000s000D" None false;
   op "0000110000011010100sSSSD" None false;
   op "0000110000011000100s000D" None false;
   op "000000000000000000000101" (func emu_illegal) false;
   op "00000000000000000000100d" (func emu_inc) false;
   op "00001100000110110qqqSSSD" None false;
   op "00001100000110010qqq000D" None false;
   op "00001110CCCCaaaaaaaaaaaa" (func (emu_jcc false)) false;
   op "0000101011MMMRRR1010CCCC" (func (emu_jcc true)) true;
   op "0000101001MMMRRR1S00bbbb" (func (emu_jclr Ea)) true;
   op "0000101000aaaaaa1S00bbbb" (func (emu_jclr Aa)) false;
   op "0000101010pppppp1S00bbbb" (func (emu_jclr Pp)) false;
   op "0000000110qqqqqq1S00bbbb" None false;
   op "0000101011DDDDDD0000bbbb" (func (emu_jclr Reg)) false;
   op "0000101011MMMRRR10000000" (func (emu_jmp true)) true;
   op "000011000000aaaaaaaaaaaa" (func (emu_jmp false)) false;
   op "00001111CCCCaaaaaaaaaaaa" (func (emu_jscc false)) false;
   op "0000101111MMMRRR1010CCCC" (func (emu_jscc true)) true;
   op "0000101101MMMRRR1S00bbbb" (func (emu_jsclr Ea)) true;
   op "0000101100MMMRRR1S00bbbb" (func (emu_jsclr Aa)) true;
   op "0000101110pppppp1S0bbbbb" (func (emu_jsclr Pp)) false;
   op "0000000111qqqqqq1S0bbbbb" None false;
   op "0000101111DDDDDD000bbbbb" (func (emu_jsclr Reg)) false;
   op "0000101001MMMRRR1S10bbbb" (func (emu_jset Ea)) true;
   op "0000101000MMMRRR1S10bbbb" (func (emu_jset Aa)) true;
   op "0000101010pppppp1S10bbbb" (func (emu_jset Pp)) false;
   op "0000000110qqqqqq1S10bbbb" None false;
   op "0000101011DDDDDD0010bbbb" (func (emu_jset Reg)) false;
   op "0000101111MMMRRR10000000" (func (emu_jsr true)) true;
   op "000011010000aaaaaaaaaaaa" (func (emu_jsr false)) false;
   op "0000101101MMMRRR1S10bbbb" (func (emu_jsset Ea)) true;
   op "0000101100aaaaaa1S10bbbb" (func (emu_jsset Aa)) false;
   op "0000101110pppppp1S1bbbbb" (func (emu_jsset Pp)) false;
   op "0000000111qqqqqq1S1bbbbb" None false;
   op "0000101111DDDDDD001bbbbb" (func (emu_jsset Reg)) false;
   op "0000010011000RRR000ddddd" None false;
   op "0000010001000000010ddddd" None false;
   op "000011000001111010iiiiiD" (func emu_lsl_imm) false;
   op "00001100000111100001sssD" None false;
   op "000011000001111011iiiiiD" None false;
   op "00001100000111100011sssD" None false;
   op "00000100010MMRRR000ddddd" (func emu_lua) false;
   op "0000010000aaaRRRaaaadddd" (func emu_lua_rel) false;
   op "00000001000sssss11QQdk10" None false;
   op "000000010100000111qqdk10" None false;
   op "00000001001001101sdkQQQQ" None false;
   op "00000001000sssss11QQdk11" None false;
   op "000000010100000111qqdk11" None false;
   op "00001100000110111000sssD" None false;
   op "0000101001110RRR1WDDDDDD" (func emu_move_x_long) false;
   op "0000101101110RRR1WDDDDDD" None false;
   op "0000001aaaaaaRRR1a0WDDDD" (func (emu_move_xy_imm DSP_SPACE_X)) false;
   op "0000001aaaaaaRRR1a1WDDDD" (func (emu_move_xy_imm DSP_SPACE_Y)) false;
   op "00000101W1MMMRRR0s1ddddd" (func (emu_movec_mem true)) true;
   op "00000101W0aaaaaa0s1ddddd" (func (emu_movec_mem false)) true;
   op "00000100W1eeeeee101ddddd" (func emu_movec_reg) false;
   op "00000101iiiiiiii101ddddd" (func emu_movec_imm) false;
   op "00000111W1MMMRRR10dddddd" (func (emu_movem true)) true;
   op "00000111W0aaaaaa00dddddd" (func (emu_movem false)) true;
   op "0000100sW1MMMRRR1Spppppp" (func emu_movep_23) true;
   op "00000111W1MMMRRR0Sqqqqqq" (func emu_movep_x_qq) true;
   op "00000111W0MMMRRR1Sqqqqqq" None true;
   op "0000100sW1MMMRRR01pppppp" (func emu_movep_1) true;
   op "000000001WMMMRRR0sqqqqqq" None true;
   op "0000100sW1dddddd00pppppp" (func emu_movep_0) false;
   op "00000100W1dddddd1q0qqqqq" None false;
   op "00000100W1dddddd0q1qqqqq" None false;
   op "00000001000sssss11QQdk00" None false;
   op "00000001001001111sdkQQQQ" None false;
   op "000000010100000111qqdk00" (func emu_mpyi) false;
   op "00000001000sssss11QQdk01" None false;
   op "000000010100000111qqdk01" None false;
   op "000000000000000000000000" (func emu_nop) false;
   op "0000000111011RRR0001d101" (func emu_norm) false;
   op "00001100000111100010sssD" None false;
   op "0000000101iiiiii1000d010" None false;
   op "00000001010000001100d010" (func emu_or_long) false;
   op "00000000iiiiiiii111110EE" (func emu_ori) false;
   op "000000000000000000000011" None false;
   op "000000000000000000000001" None false;
   op "000000000000000000000010" None false;
   op "0000101111MMMRRR10000001" None true;
   op "000000000000000000001111" None false;
   op "0000101011MMMRRR10000001" None true;
   op "000000000000000000001110" None false;
   op "0000011001MMMRRR0S100000" (func (emu_rep Ea)) true;
   op "0000011000aaaaaa0S100000" (func (emu_rep Aa)) false;
   op "00000110iiiiiiii1010hhhh" (func emu_rep_imm) false;
   op "0000011011dddddd00100000" (func (emu_rep Reg)) false;
   op "000000000000000010000100" (func emu_reset) false;
   op "000000000000000000000100" (func emu_rti) false;
   op "000000000000000000001100" (func emu_rts) false;
   op "000000000000000010000111" (func emu_nop) false;
   op "0000000101iiiiii1000d100" (func (emu_sub_x false)) false;
   op "00000001010000001100d100" (func (emu_sub_x true)) false;
   op "00000010CCCC00000JJJd000" (func emu_tcc) false;
   op "00000011CCCC0ttt0JJJdTTT" (func emu_tcc) false;
   op "00000010CCCC1ttt00000TTT" (func emu_tcc) false;
   op "000000000000000000000110" None false;
   op "00000000000000000001CCCC" None false;
   op "0000101S11MMMRRR110i0000" None true;
   op "000000000000000010000110" (func emu_nop) false].

(** The mask and the bits of a template, of which the character first read is at bit [j]. *)
Fixpoint template_bits (t : string) (j : nat) : Z * Z :=
  match t with
  | EmptyString => (0, 0)
  | String c t =>
      let '(mask, bits) := template_bits t (pred j) in
      if Ascii.eqb c "0" then (mask ||| (1 <<< Z.of_nat j), bits)
      else if Ascii.eqb c "1" then (mask ||| (1 <<< Z.of_nat j), bits ||| (1 <<< Z.of_nat j))
      else (mask, bits)
  end.
Definition nonparallel_matches : list (Z * Z) := map (λ e, template_bits (template e) 23) nonparallel_opcodes.

(** The index of the first entry that an instruction matches. *)
Definition entry_matches (word : Z) (e : OpcodeEntry * (Z * Z)) : bool :=
  let '(e, (mask, bits)) := e in
  (word &&& mask =? bits) && (negb (match_func e) || match_MMMRRR word).
Fixpoint find_index {A} (f : A → bool) (l : list A) (i : nat) : option nat :=
  match l with
  | [] => None
  | x :: l => if f x then Some i else find_index f l (S i)
  end.
Definition lookup_opcode_slow (word : Z) : option nat :=
  find_index (entry_matches word) (zip nonparallel_opcodes nonparallel_matches) 0.

Arguments lookup_opcode_slow : simpl never.

(** The entry of the cache for an instruction: the exclusive or of its bytes. *)
Definition opcache_tag (word : Z) : Z :=
  ((word >>> 24) &&& 0xff) ^^^ ((word >>> 16) &&& 0xff) ^^^ ((word >>> 8) &&& 0xff) ^^^ (word &&& 0xff).

(** The vectors of the interrupts. *)
Definition dsp_interrupt : list Z := [0x00; 0x3e; 0x02; 0x04; 0x06; 0xff; 0x20; 0x22; 0x0e; 0x0c; 0x12; 0x10].

Section exec.
Context {W : Type} `{P : !Peripherals W}.
Abbreviation D := (DSPState W).

(** ** Reset *)

Definition dsp56k_reset_cpu : M D unit := set_core (λ c,
  c <| stack_ssh := replicate 16 0 |> <| stack_ssl := replicate 16 0 |>
    <| registers := replicate 32 0 ++ replicate 8 0xffff ++ replicate 18 0 ++ [0x02] ++ replicate 5 0 |>
    <| pc := 0 |>
    <| interrupt_is_pending := replicate 12 0 |> <| interrupt_state := DSP_INTERRUPT_NONE |>
    <| interrupt_instr_fetch := u16 (-1) |> <| interrupt_save_pc := u16 (-1) |>
    <| interrupt_counter := 0 |> <| interrupt_pipeline_count := 0 |>
    <| interrupt_ipl := replicate 5 3 ++ replicate 7 (-1) |>
    <| loop_rep := 0 |> <| num_inst := 0 |> <| exception_debugging := true |>).

(** ** Decoding *)

Definition lookup_opcode (word : Z) : M D nat :=
  let tag := Z.to_nat (opcache_tag word) in
  let fill : M D nat :=
    match lookup_opcode_slow word with
    | None => raise AssertFailed
    | Some k => modify (λ d, d <| opcache ::= <[tag := (word, Some k)]> |>);; mret k
    end in
  cache ← gets opcache;
  match cache !! tag with
  | None => raise OutOfBounds
  | Some (key, Some k) => if negb (key =? word) then fill else mret k
  | Some (_, None) => fill
  end.

(** The entry of the instruction at the program counter, which is kept beside the memory. *)
Definition fetch_opcode : M D nat :=
  c ← gets core;
  match pram_opcache c !! Z.to_nat (pc c) with
  | None => raise OutOfBounds
  | Some (Some k) => mret k
  | Some None =>
      k ← lookup_opcode (cur_inst c);
      set_core (λ c, c <| pram_opcache ::= <[Z.to_nat (pc c) := Some k]> |>);;
      mret k
  end.
Definition run_opcode (k : nat) : M D unit :=
  match nonparallel_opcodes !! k with
  | Some e => match emu_func e with Some f => f W P | None => emu_undefined end
  | None => raise OutOfBounds
  end.

(** ** After an instruction *)

(** [--registers[DSP_REG_LC]; registers[DSP_REG_LC] &= BITMASK(16)]. *)
Definition count_down : M D Z :=
  lc ← rreg DSP_REG_LC; let lc := u32 (lc - 1) &&& BITMASK 16 in wreg DSP_REG_LC lc;; mret lc.

Definition update_rep : M D unit :=
  c ← gets core;
  if pc_on_rep c =? 0 then
    lc ← count_down;
    if 0 <? lc then set_inst_len 0
    else set_core (λ c, c <| loop_rep := 0 |>);; save ← rreg DSP_REG_LCSAVE; wreg DSP_REG_LC save
  else
    lc ← rreg DSP_REG_LC;
    whenM (lc =? 0) (wreg DSP_REG_LC 0x010000);;
    set_core (λ c, c <| pc_on_rep := 0 |>).

Definition dsp_postexecute_update_pc : M D unit :=
  c ← gets core;
  whenM (truthy (loop_rep c)) update_rep;;
  set_core (λ c, c <| pc := u32 (pc c + cur_inst_len c) |>);;
  sr ← rreg DSP_REG_SR;
  whenM (truthy (sr &&& (1 <<< DSP_SR_LF)))
    (c ← gets core;
     la ← rreg DSP_REG_LA;
     whenM (pc c =? u32 (la + 1))
       (lc ← count_down;
        if lc =? 0 then emu_enddo
        else ssh ← rreg DSP_REG_SSH; set_core (λ c, c <| pc := ssh |>))).

(** An instruction of an interrupt that is a call makes it a long one. *)
Definition prefetch_long (instr : Z) : M D unit :=
  whenM ((instr &&& 0xfff000 =? 0x0d0000) || (instr &&& 0xffc0ff =? 0x0bc080))
    (set_core (λ c, c <| interrupt_state := DSP_INTERRUPT_LONG |>);;
     c ← gets core;
     sr ← rreg DSP_REG_SR;
     dsp_stack_push (interrupt_save_pc c) sr false;;
     clear_sr ((1 <<< DSP_SR_LF) ||| (1 <<< DSP_SR_T) ||| (1 <<< DSP_SR_S1) ||| (1 <<< DSP_SR_S0)
               ||| (1 <<< DSP_SR_I0) ||| (1 <<< DSP_SR_I1));;
     set_sr (interrupt_ipl_to_raise c <<< DSP_SR_I0)).
Definition pipeline_step : M D unit :=
  set_core (λ c, c <| interrupt_pipeline_count ::= λ n, u16 (n - 1) |>).

(** The steps of an interrupt that was raised; returns whether the function goes on. *)
Definition interrupt_pipeline : M D bool :=
  c ← gets core;
  match interrupt_pipeline_count c with
  | 5 => pipeline_step;; mret false
  | 4 =>
      set_core (λ c, c <| interrupt_save_pc := u16 (pc c) |> <| pc := interrupt_instr_fetch c |>);;
      instr ← read_memory_p (interrupt_instr_fetch c);
      prefetch_long instr;; pipeline_step;; mret false
  | 3 =>
      whenM (pc c =? interrupt_instr_fetch c + 1) (instr ← read_memory_p (pc c); prefetch_long instr);;
      pipeline_step;; mret false
  | 2 =>
      whenM (pc c =? interrupt_instr_fetch c + 2) (set_core (λ c, c <| pc := interrupt_save_pc c |>));;
      pipeline_step;; mret false
  | 1 => pipeline_step;; mret false
  | 0 =>
      set_core (λ c, c <| interrupt_save_pc := u16 (-1) |> <| interrupt_instr_fetch := u16 (-1) |>
                       <| interrupt_state := DSP_INTERRUPT_NONE |>);;
      mret true
  | _ => mret true
  end.

(** The pending interrupt to raise, from the one with number [i] on; [best] has the one found so
    far and its level. *)
Fixpoint arbitrate (ipl_sr : Z) (pending : list (Z * Z)) (i : nat) (best : option nat * Z) : option nat :=
  match pending with
  | [] => best.1
  | (is_pending, ipl) :: pending =>
      if is_pending =? 1 then
        if ipl =? 3 then Some i
        else if (ipl <? ipl_sr) || (ipl <=? best.2) then arbitrate ipl_sr pending (S i) best
        else arbitrate ipl_sr pending (S i) (Some i, ipl)
      else arbitrate ipl_sr pending (S i) best
  end.

Definition raise_interrupt (index : nat) : M D unit :=
  set_core (λ c, c <| interrupt_is_pending ::= <[index := 0]> |> <| interrupt_counter ::= λ n, u16 (n - 1) |>);;
  ipl ← elem interrupt_ipl (Z.of_nat index);
  match dsp_interrupt !! index with
  | None => raise OutOfBounds
  | Some vector =>
      set_core (λ c, c <| interrupt_instr_fetch := vector |> <| interrupt_pipeline_count := 5 |>
                       <| interrupt_state := DSP_INTERRUPT_DISABLED |>
                       <| interrupt_ipl_to_raise := u16 (Z.min (ipl + 1) 3) |>);;
      assertM (negb (vector =? 0xe) && negb (vector =? 0x12) && negb (vector =? 0xff))
  end.

Definition dsp_postexecute_interrupts : M D unit :=
  c ← gets core;
  if truthy (loop_rep c) then mret tt
  else
    go ← (if interrupt_state c =? DSP_INTERRUPT_DISABLED then interrupt_pipeline else mret true);
    whenM go
      (sr ← rreg DSP_REG_SR;
       whenM (truthy (sr &&& (1 <<< DSP_SR_T))) (dsp56k_add_interrupt DSP_INTER_TRACE);;
       c ← gets core;
       if interrupt_counter c =? 0 then mret tt
       else
         match arbitrate ((sr >>> DSP_SR_I0) &&& BITMASK 2)
                 (zip (interrupt_is_pending c) (interrupt_ipl c)) 0 (None, -1) with
         | None => mret tt
         | Some index => raise_interrupt index
         end).

(** ** One instruction *)

Definition dsp56k_execute_instruction : M D unit :=
  c ← gets core;
  word ← read_memory_p (pc c);
  set_core (λ c, c <| cur_inst := word |> <| cur_inst_len := 1 |> <| instr_cycle := 2 |>);;
  (if word <? 0x100000 then k ← fetch_opcode; run_opcode k
   else
     match opcodes_parmove !! Z.to_nat ((word >>> 20) &&& BITMASK 4) with
     | Some f => f
     | None => raise OutOfBounds
     end);;
  dsp_postexecute_update_pc;;
  dsp_postexecute_interrupts;;
  set_core (λ c, c <| num_inst := u32 (num_inst c + instr_cycle c) |>).
End exec.
