(* ===== verification/DspSafe.v ===== *)
(** * DspSafe: every instruction of the audio DSPs keeps the state well formed

    [dsp_ok] says that the arrays have their sizes, that the values are of their widths and
    that what the two caches of opcodes have is what the table of opcodes says.  Every
    instruction keeps it, and goes wrong in no way but by an assertion of the code; the
    accesses to the arrays are all inside of them. *)

From stdpp Require Import base numbers list option.
From S2P Require Import Prelude.
From S2P Require Import DspArith.
From S2P Require Import DspCore.
From S2P Require Import DspAlu.
From S2P Require Import DspMove.
From S2P Require Import DspInsn.
From S2P Require Import DspExec.

(** ** The invariant *)

Definition is_word (v : Z) : Prop := 0 ≤ v < 2 ^ 24.
(** A word that was written is of 24 bits; before that the memories of the encode processor, and
    of both for instructions, have the value 0xCACACACA. *)
Definition is_mem (v : Z) : Prop := 0 ≤ v ≤ 0xCACACACA.

(** An entry of a cache has what the table says. *)
Definition caches (word : Z) (entry : option nat) : Prop :=
  match entry with Some k => lookup_opcode_slow word = Some k | None => True end.

Record core_ok (c : dsp_core_t) : Prop := {
  ok_registers : blen (registers c) = 64 ∧ Forall is_u32 (registers c);
  ok_ssh : blen (stack_ssh c) = 16 ∧ Forall is_u32 (stack_ssh c);
  ok_ssl : blen (stack_ssl c) = 16 ∧ Forall is_u32 (stack_ssl c);
  ok_xram : blen (xram c) = 4096 ∧ Forall is_mem (xram c);
  ok_yram : blen (yram c) = 2048 ∧ Forall is_mem (yram c);
  ok_mixbuffer : blen (mixbuffer c) = 1024 ∧ Forall is_mem (mixbuffer c);
  ok_pram : blen (pram c) = 4096 ∧ Forall is_mem (pram c);
  ok_pram_opcache : Forall2 caches (pram c) (pram_opcache c);
  ok_pc : is_u32 (pc c);
  ok_cur_inst : is_word (cur_inst c);
  ok_cur_inst_len : is_u32 (cur_inst_len c);
  ok_fetch : is_u16 (interrupt_instr_fetch c);
  ok_save_pc : is_u16 (interrupt_save_pc c);
  ok_to_raise : 0 ≤ interrupt_ipl_to_raise c ≤ 3;
  ok_ipl : interrupt_ipl c = replicate 5 3 ++ replicate 7 (-1);
  ok_pending : ∃ p, length p = 5%nat ∧ interrupt_is_pending c = p ++ replicate 7 0
}.

Record dma_ok (s : DSPDMAState) : Prop := {
  ok_configuration : is_u32 (configuration s);
  ok_control : is_u32 (control s);
  ok_start_block : is_u32 (start_block s);
  ok_next_block : is_u32 (next_block s)
}.

(** [Wok] is the invariant of what is behind the DMA engine. *)
Record dsp_ok {W} (Wok : W → Prop) (d : DSPState W) : Prop := {
  ok_core : core_ok (core d);
  ok_dma : dma_ok (dma d);
  ok_interrupts : is_u32 (interrupts d);
  ok_opaque : Wok (rw_opaque d);
  ok_opcache : Z.of_nat (length (opcache d)) = 256 ∧ Forall (λ e, caches e.1 e.2) (opcache d)
}.

(** ** Values of the right width *)

Class HasOk (A : Type) := ok : A → Prop.
#[export] Instance ok_Z : HasOk Z := is_u32.
#[export] Instance ok_unit : HasOk unit := λ _, True.
#[export] Instance ok_bool : HasOk bool := λ _, True.
#[export] Instance ok_core_t : HasOk dsp_core_t := core_ok.
#[export] Instance ok_prod {A B} `{!HasOk A, !HasOk B} : HasOk (A * B) := λ p, ok p.1 ∧ ok p.2.
#[export] Instance ok_location : HasOk location := λ l,
  match l with Memory space address => 0 ≤ space < 2 ∧ is_u32 address | Register n => 0 ≤ n < 64 end.

Lemma shl_bound n k a : 0 ≤ k → k ≤ n → 0 ≤ a < 2 ^ (n - k) → 0 ≤ a <<< k < 2 ^ n.
Proof.
  intros Hk Hn [H1 H2]. rewrite Z.shiftl_mul_pow2 by done.
  assert (2 ^ n = 2 ^ (n - k) * 2 ^ k) as -> by (rewrite <- Z.pow_add_r; [f_equal; lia | lia | lia]).
  assert (0 < 2 ^ k) by (apply Z.pow_pos_nonneg; lia). nia.
Qed.
Lemma shr_bound n k a : 0 ≤ k → 0 ≤ a < 2 ^ n → 0 ≤ a >>> k < 2 ^ n.
Proof.
  intros Hk [H1 H2]. rewrite Z.shiftr_div_pow2 by done.
  assert (0 < 2 ^ k) by (apply Z.pow_pos_nonneg; lia).
  split; [by apply Z.div_pos|]. apply Z.div_lt_upper_bound; [done|]. nia.
Qed.
Lemma shl1_bound n k : 0 ≤ k < n → 0 ≤ 1 <<< k < 2 ^ n.
Proof.
  intros. rewrite Z.shiftl_1_l. split; [apply Z.pow_nonneg; lia|]. apply Z.pow_lt_mono_r; lia.
Qed.
Lemma mask_bound n k : 0 ≤ k ≤ n → 0 ≤ BITMASK k < 2 ^ n.
Proof.
  intros. rewrite Z.shiftl_1_l. assert (0 < 2 ^ k) by (apply Z.pow_pos_nonneg; lia).
  assert (2 ^ k ≤ 2 ^ n) by (apply Z.pow_le_mono_r; lia). lia.
Qed.
Lemma bound_weaken n m a : 0 ≤ a < 2 ^ m → m ≤ n → 0 ≤ a < 2 ^ n.
Proof. intros. assert (2 ^ m ≤ 2 ^ n) by (apply Z.pow_le_mono_r; lia). lia. Qed.
Lemma b2z_bound n b : 0 < n → 0 ≤ Z.b2z b < 2 ^ n.
Proof. intros. pose proof (shl1_bound n 0). rewrite Z.shiftl_0_r in *. destruct b; cbn; lia. Qed.
Lemma mod_bound n m a : 0 ≤ m ≤ n → 0 ≤ a mod 2 ^ m < 2 ^ n.
Proof.
  intros. apply (bound_weaken n m); [|lia]. apply Z.mod_pos_bound, Z.pow_pos_nonneg; lia.
Qed.

(** [bnd]: a goal [0 ≤ e < 2 ^ n] by the form of [e]. *)
Ltac closed e := match e with context [?x] => is_var x; fail 1 | _ => idtac end.
Ltac bnd_const :=
  lazymatch goal with |- 0 ≤ ?e < _ => closed e end;
  solve [vm_compute; split; [intros ?; discriminate | reflexivity]].
Ltac bnd :=
  lazymatch goal with
  | |- is_u32 _ => unfold is_u32; bnd
  | |- is_word _ => unfold is_word; bnd
  | |- is_u16 _ => unfold is_u16; bnd
  | |- 0 ≤ (if ?b then _ else _) < _ => destruct b; bnd
  | |- 0 ≤ (match ?x with _ => _ end) < _ => destruct x; bnd
  | |- 0 ≤ u32 ?x < _ => apply mod_bound; lia
  | |- 0 ≤ u16 ?x < _ => apply mod_bound; lia
  | |- 0 ≤ not32 ?x < _ => apply mod_bound; lia
  | |- 0 ≤ BITMASK ?k < _ => first [bnd_const | apply mask_bound; lia]
  | |- 0 ≤ _ + _ < _ => unfold is_u32, is_u16, is_word in *; first [lia | rewrite !Z.shiftl_mul_pow2 by lia; lia]
  | |- 0 ≤ 1 - ?a < _ => assert (0 ≤ a < 2 ^ 1) by bnd; lia
  | |- 0 ≤ _ &&& _ < _ =>
      first [ apply land_bound_r; [lia|]; solve [bnd] | apply land_bound; [lia|]; solve [bnd] ]
  | |- 0 ≤ _ ||| _ < _ => apply lor_bound; [lia | bnd | bnd]
  | |- 0 ≤ _ ^^^ _ < _ => apply lxor_bound; [lia | bnd | bnd]
  | |- 0 ≤ 1 <<< _ < _ => first [bnd_const | apply shl1_bound; lia]
  | |- 0 ≤ _ <<< _ < 2 ^ ?n => apply shl_bound; [lia | lia | cbn [Z.sub Z.add Z.opp Z.pos_sub Pos.pred_double]; bnd]
  | |- 0 ≤ _ >>> _ < _ => apply shr_bound; [lia | bnd]
  | |- 0 ≤ Z.b2z _ < _ => apply b2z_bound; lia
  | |- 0 ≤ sign_word _ < _ => unfold sign_word; bnd
  | |- 0 ≤ ?e < _ => first [assumption | bnd_const | (unfold is_u32, is_u16, is_word in *; lia)]
  end.

Create HintDb dsp.

(** A range up to a power of two that is written out. *)
Ltac rng :=
  first [lia | bnd_const | (rewrite Z.shiftl_mul_pow2 by lia; lia)
    | match goal with |- context [if ?b then _ else _] => destruct b; lia end | lazymatch goal with
               | |- 0 ≤ ?e < 2 => change (0 ≤ e < 2 ^ 1)
               | |- 0 ≤ ?e < 8 => change (0 ≤ e < 2 ^ 3)
               | |- 0 ≤ ?e < 64 => change (0 ≤ e < 2 ^ 6)
               | |- _ => idtac
               end; bnd].

(** ** The operations on 56 bits *)

Lemma dest_words_okv v : ok (dest_words v).
Proof. unfold dest_words. split; [split|]; cbn; unfold ok, ok_Z; bnd. Qed.
Lemma add56_ok s d : ok (dsp_add56 s d).
Proof.
  destruct s as [[s0 s1] s2], d as [[d0 d1] d2]. cbv beta iota delta [dsp_add56].
  split; [split; [split|]|]; cbn [fst snd]; unfold ok, ok_Z; bnd.
Qed.
Lemma sub56_ok s d : ok (dsp_sub56 s d).
Proof.
  destruct s as [[s0 s1] s2], d as [[d0 d1] d2]. cbv beta iota delta [dsp_sub56].
  split; [split; [split|]|]; cbn [fst snd]; unfold ok, ok_Z; bnd.
Qed.
Lemma abs56_ok d : ok d → ok (dsp_abs56 d).
Proof. intros. unfold dsp_abs56. destruct (truthy _); [apply sub56_ok|]. by split. Qed.
Lemma asl56_ok d n : ok (dsp_asl56 d n).
Proof. split; [apply dest_words_okv|]. cbn. unfold ok, ok_Z. bnd. Qed.
Lemma asr56_ok d n : ok (dsp_asr56 d n).
Proof. split; [apply dest_words_okv|]. cbn. unfold ok, ok_Z. bnd. Qed.
Lemma mul56_ok x y s : ok (dsp_mul56 x y s).
Proof.
  unfold dsp_mul56. destruct (magnitude x s) as [x' s']. destruct (magnitude y s') as [y' s''].
  pose proof (asl56_ok (mul_words x' y') 1) as [H _]. destruct (dsp_asl56 _ _) as [d f].
  destruct (truthy s''); [apply (sub56_ok d) | exact H].
Qed.
Lemma rnd56_ok sr d : ok (dsp_rnd56 sr d).
Proof.
  unfold dsp_rnd56.
  destruct (truthy _); [|destruct (truthy _)];
    (pose proof add56_ok as H;
     match goal with |- context [dsp_add56 ?s d] => specialize (H s d); destruct (dsp_add56 s d) as [[[d0 d1] d2] f] end;
     destruct H as [[[H0 H1] H2] _]; cbn in H0, H1, H2; split; [split|]; cbn [fst snd]; unfold ok, ok_Z in *; bnd).
Qed.
Lemma limit24_ok s a2 a1 a0 : ok (limit24 s a2 a1 a0).
Proof.
  unfold limit24. cbv zeta. repeat destruct (_ && _); [| |destruct (truthy _)]; (split; [|done]); cbn [fst];
    unfold ok, ok_Z; bnd.
Qed.
#[export] Hint Resolve add56_ok sub56_ok abs56_ok asl56_ok asr56_ok mul56_ok rnd56_ok limit24_ok : dsp.

(** ** Safety *)

Section safe.
Context {W : Type} (Wok : W → Prop) (E : fault → Prop).
Abbreviation D := (DSPState W).

(** The faults that [E] allows, and only they, may be raised. *)
Definition safeQ {A} (Q : A → Prop) (m : M D A) : Prop :=
  ∀ d, dsp_ok Wok d → wpE m (λ a d', dsp_ok Wok d' ∧ Q a) E d.
Definition safe {A} `{!HasOk A} (m : M D A) : Prop := safeQ ok m.

Lemma safeQ_ret {A} (Q : A → Prop) a : Q a → safeQ Q (mret a).
Proof. intros H d Hd. by apply wpE_ret. Qed.
Lemma safeQ_bind {A B} (Q : A → Prop) (R : B → Prop) (m : M D A) (k : A → M D B) :
  safeQ Q m → (∀ a, Q a → safeQ R (k a)) → safeQ R (m ≫= k).
Proof.
  intros Hm Hk d Hd. apply wpE_bind. eapply wpE_mono; [by apply Hm|]. intros a d' [Hd' Ha]. by apply Hk.
Qed.
(** The code before a bind, opened up. *)
Lemma safeQ_bind_if {A B} (Q : B → Prop) (b : bool) m1 m2 (k : A → M D B) :
  (b = true → safeQ Q (m1 ≫= k)) → (b = false → safeQ Q (m2 ≫= k)) → safeQ Q ((if b then m1 else m2) ≫= k).
Proof. destruct b; auto. Qed.
Lemma safeQ_bind_bind {A B C} (Q : C → Prop) (m : M D A) (f : A → M D B) (k : B → M D C) :
  safeQ Q (m ≫= λ a, f a ≫= k) → safeQ Q ((m ≫= f) ≫= k).
Proof.
  intros H d Hd. specialize (H d Hd). unfold wpE, mbind, M_bind in *. by destruct (m d) as [[]|].
Qed.
Lemma safeQ_bind_ret {A B} (Q : B → Prop) (a : A) (k : A → M D B) : safeQ Q (k a) → safeQ Q (mret a ≫= k).
Proof. done. Qed.
Lemma safeQ_mono {A} (Q R : A → Prop) (m : M D A) : safeQ Q m → (∀ a, Q a → R a) → safeQ R m.
Proof. intros H HQ d Hd. eapply wpE_mono; [by apply H|]. intros a d' []; auto. Qed.
Lemma safeQ_gets_core : safeQ core_ok (gets core).
Proof. intros d Hd. apply wpE_gets. split; [done|]. apply Hd. Qed.
Lemma safeQ_raise {A} (Q : A → Prop) e : E e → safeQ Q (raise e).
Proof. intros H d Hd. by apply wpE_raise. Qed.
Lemma safeQ_assert (Q : () → Prop) b : E AssertFailed → (b = true → Q tt) → safeQ Q (assertM b).
Proof. intros H HQ d Hd. apply wpE_assert; auto. Qed.
Lemma safeQ_bind_assert {A} (Q : A → Prop) b (k : () → M D A) :
  E AssertFailed → (b = true → safeQ Q (k tt)) → safeQ Q (assertM b ≫= k).
Proof. intros H Hk d Hd. apply wpE_bind, wpE_assert; [|done]. intros Hb. by apply Hk. Qed.
Lemma safeQ_inBounds (Q : () → Prop) b : b = true → Q tt → safeQ Q (inBounds b).
Proof. intros -> H d Hd. by apply wpE_inBounds. Qed.
Lemma safeQ_when (Q : () → Prop) b m : Q tt → (b = true → safeQ Q m) → safeQ Q (whenM b m).
Proof. intros H Hm. destruct b; [by apply Hm | by apply safeQ_ret]. Qed.
Lemma safeQ_if {A} (Q : A → Prop) (b : bool) m1 m2 :
  (b = true → safeQ Q m1) → (b = false → safeQ Q m2) → safeQ Q (if b then m1 else m2).
Proof. destruct b; auto. Qed.
Lemma safeQ_iter (Q : () → Prop) n (m : M D ()) : Q tt → safeQ Q m → safeQ Q (Nat.iter n (λ k, k;; m) (mret tt)).
Proof.
  intros HQ Hm. induction n as [|n IH]; [by apply safeQ_ret|]. cbn. eapply safeQ_bind; [apply IH|]. by intros.
Qed.

Lemma safeQ_set_core (Q : () → Prop) f : Q tt → (∀ c, core_ok c → core_ok (f c)) → safeQ Q (set_core f).
Proof. intros HQ H d [Hc ????]. apply wpE_modify. split; [|done]. constructor; cbn; auto. Qed.

Lemma safeQ_elem (Q : Z → Prop) f i n :
  (∀ c, core_ok c → blen (f c) = n ∧ Forall Q (f c)) → 0 ≤ i < n → safeQ Q (elem f i).
Proof.
  intros Hf Hi d Hd. unfold elem. apply wpE_bind, wpE_gets.
  destruct (Hf _ (ok_core _ _ Hd)) as [Hl HF].
  destruct (lookup_lt_is_Some_2 (f (core d)) (Z.to_nat i)) as [v Hv]; [unfold blen in Hl; lia|]. rewrite Hv.
  apply wpE_bind, wpE_inBounds; [intros _|lia].
  apply wpE_ret. split; [done|]. by eapply Forall_lookup_1 in HF.
Qed.

End safe.

(** Hypotheses on values, by their types. *)
Ltac ok_hyp H :=
  lazymatch type of H with
  | @ok ?A _ ?x =>
      let A' := eval hnf in A in
      lazymatch A' with
      | Z => change (is_u32 x) in H
      | (_ * _)%type =>
          let y := fresh "x" in let z := fresh "x" in let Hy := fresh "H" in let Hz := fresh "H" in
          first [ (destruct x as [y z]; destruct H as [Hy Hz]; cbn [fst snd] in Hy, Hz; ok_hyp Hy; ok_hyp Hz)
                | destruct H as [Hy Hz]; cbn [fst snd] in Hy, Hz; ok_hyp Hy; ok_hyp Hz ]
      | dsp_core_t => change (core_ok x) in H
      | _ => clear H
      end
  | _ => idtac
  end.
(** Goals on values. *)
Ltac ok_goal :=
  cbn [fst snd];
  lazymatch goal with
  | |- @ok ?A _ ?x =>
      let A' := eval hnf in A in
      lazymatch A' with
      | Z => change (is_u32 x); bnd
      | unit => exact I
      | bool => exact I
      | (_ * _)%type =>
          first [ assumption | solve [auto with dsp]
                | lazymatch x with
                  | (if ?b then _ else _) => destruct b; ok_goal
                  | fst ?y => let H := fresh "H" in assert (ok y) as [H _] by ok_goal; exact H
                  | dsp_abs56 _ => apply abs56_ok; ok_goal
                  | (match ?y with (_, _) => _ end) =>
                      let H := fresh "H" in
                      assert (ok y) as H by ok_goal;
                      destruct y; destruct H as [? H]; ok_hyp H; ok_goal
                  | (_, _) => split; ok_goal
                  end ]
      | location => split; cbn; (lia || bnd)
      end
  | |- is_u32 _ => bnd
  | |- True => exact I
  | |- core_ok _ => assumption
  | |- 0 ≤ _ < _ => rng
  end.

Create HintDb dspsafe.
Ltac safe_leaf :=
  lazymatch goal with
  | |- safeQ ?Wok ?E ok ?m => change (safe Wok E m)
  end;
  solve [auto with dspsafe].

Section primitives.
Context {W : Type} (Wok : W → Prop) (E : fault → Prop) (HE : E AssertFailed).
Abbreviation safeQ := (safeQ Wok E).
Abbreviation safe := (safe Wok E).

Lemma safe_rreg n : 0 ≤ n < 64 → safe (rreg n).
Proof. intros. apply (safeQ_elem _ _ _ _ _ 64); [|lia]. intros c Hc. apply Hc. Qed.
Lemma safe_set_core f : (∀ c, core_ok c → core_ok (f c)) → safe (set_core f).
Proof. intros. by apply safeQ_set_core. Qed.

Lemma core_ok_registers f c : (blen (registers c) = 64 → Forall is_u32 (registers c) →
  blen (f (registers c)) = 64 ∧ Forall is_u32 (f (registers c))) → core_ok c → core_ok (c <| registers ::= f |>).
Proof. intros Hf [[H1 H2] ?]. constructor; cbn; auto. Qed.
Lemma safe_wreg n v : 0 ≤ n < 64 → is_u32 v → safe (wreg n v).
Proof.
  intros Hn Hv. apply (safeQ_bind _ _ ok); [apply safeQ_inBounds; [lia|done]|]. intros _ _.
  apply safe_set_core. intros c Hc. apply core_ok_registers; [|done]. intros.
  unfold blen. rewrite length_insert. split; [done|]. by apply Forall_insert.
Qed.

Lemma safe_add_cycles n : safe (add_cycles n).
Proof. apply safe_set_core. intros c []. constructor; cbn; auto. Qed.
Lemma safe_set_inst_len n : is_u32 n → safe (set_inst_len n).
Proof. intros. apply safe_set_core. intros c []. constructor; cbn; auto. Qed.
Lemma safe_gets_core : safe (gets core).
Proof. apply safeQ_gets_core. Qed.
Lemma safe_clear_sr bits : safe (clear_sr bits).
Proof.
  apply (safeQ_bind _ _ ok); [by apply safe_rreg|]. intros sr H. apply safe_wreg; [done|].
  change (is_u32 sr) in H. bnd.
Qed.
Lemma safe_set_sr bits : is_u32 bits → safe (set_sr bits).
Proof.
  intros. apply (safeQ_bind _ _ ok); [by apply safe_rreg|]. intros sr Hs. apply safe_wreg; [done|].
  change (is_u32 sr) in Hs. bnd.
Qed.
Lemma safe_inst_field s k : 0 ≤ k → safeQ (λ f, 0 ≤ f < 2 ^ k) (inst_field s k).
Proof.
  intros. eapply safeQ_bind; [apply safeQ_gets_core|]. intros c Hc. apply safeQ_ret.
  apply land_bound_r; [done|]. by apply mask_bound.
Qed.
Lemma safe_inst_bit b : safe (inst_bit b).
Proof. eapply safeQ_bind; [apply safeQ_gets_core|]. intros c Hc. by apply safeQ_ret. Qed.

Lemma core_ok_stack f g c :
  (∀ l, blen l = 16 → Forall is_u32 l → blen (f l) = 16 ∧ Forall is_u32 (f l)) →
  (∀ l, blen l = 16 → Forall is_u32 l → blen (g l) = 16 ∧ Forall is_u32 (g l)) →
  core_ok c → core_ok (c <| stack_ssh ::= f |> <| stack_ssl ::= g |>).
Proof. intros Hf Hg [? [] [] ?]. constructor; cbn; auto. Qed.
End primitives.
#[export] Hint Resolve safe_rreg safe_wreg safe_add_cycles safe_set_inst_len safe_gets_core safe_clear_sr
  safe_set_sr safe_inst_bit : dspsafe.
#[export] Hint Extern 1 (is_u32 _) => bnd : dspsafe.
#[export] Hint Extern 1 (0 ≤ _ < _) => rng : dspsafe.

(** Walk down an instruction; the leaves are hints. *)
Ltac safe_let :=
  lazymatch goal with
  | |- safeQ _ _ _ (match ?x with (_, _) => _ end) =>
      let H := fresh "H" in
      let a := fresh "x" in let b := fresh "x" in let Ha := fresh "H" in let Hb := fresh "H" in
      first
        [ assert (ok x) as H by ok_goal;
          destruct x as [a b]; destruct H as [Ha Hb]; cbn [fst snd] in Ha, Hb; ok_hyp Ha; ok_hyp Hb
        | destruct x ]
  end.
Ltac safe_step :=
  lazymatch goal with
  | |- safe _ _ _ => unfold safe
  | |- safeQ _ _ _ (let _ := _ in _) => cbv zeta
  | |- safeQ _ _ _ (mret _) => apply safeQ_ret; ok_goal
  | |- safeQ _ _ _ (raise AssertFailed) => apply safeQ_raise; assumption
  | |- safeQ _ _ _ (assertM _) => apply safeQ_assert; [assumption | intros ?; exact I]
  | |- safeQ _ _ _ (assertM _ ≫= _) => apply safeQ_bind_assert; [assumption | intros ?]
  | |- safeQ _ _ _ ((if _ then _ else _) ≫= _) => apply safeQ_bind_if; intros ?
  | |- safeQ _ _ _ ((_ ≫= _) ≫= _) => apply safeQ_bind_bind
  | |- safeQ _ _ _ (mret _ ≫= _) => apply safeQ_bind_ret
  | |- safeQ _ _ _ (gets core ≫= _) =>
      eapply safeQ_bind; [apply safeQ_gets_core |]; let c := fresh "c" in let Hc := fresh "Hc" in intros c Hc
  | |- safeQ _ _ _ (inst_field _ _ ≫= _) =>
      eapply safeQ_bind; [apply safe_inst_field; lia |]; let f := fresh "f" in let Hf := fresh "Hf" in intros f Hf;
      cbv beta in Hf
  | |- safeQ _ _ _ (_ ≫= _) =>
      apply (safeQ_bind _ _ ok); [| let x := fresh "x" in let H := fresh "H" in intros x H; ok_hyp H]
  | |- safeQ _ _ _ (whenM _ _) => apply safeQ_when; [exact I | intros ?]
  | |- safeQ _ _ _ (if _ then _ else _) => apply safeQ_if; intros ?
  | |- safeQ _ _ _ (match ?x with (_, _) => _ end) => safe_let
  | |- safeQ _ _ _ (match ?x with _ => _ end) => let H := fresh "Heq" in destruct x eqn:H
  | |- safeQ _ _ ok _ => safe_leaf
  end.
Ltac safe_run := repeat safe_step.

(** ** The core *)

Lemma insert_ok (P : Z → Prop) i v l n :
  P v → blen l = n → Forall P l → blen (<[i := v]> l) = n ∧ Forall P (<[i := v]> l).
Proof. intros. unfold blen. rewrite length_insert. split; [done|]. by apply Forall_insert. Qed.
Lemma is24_word v : is_u32 v → is24 v = true → is_word v.
Proof.
  unfold is_u32, is24, is_word. intros Hv H. apply Z.eqb_eq in H.
  change 0xFF000000 with (Z.ones 8 <<< 24) in H. rewrite land_field in H by done.
  rewrite Z.shiftl_mul_pow2, Z.shiftr_div_pow2 in H by done.
  assert (v / 2 ^ 24 mod 2 ^ 8 = v / 2 ^ 24) as E by (apply Z.mod_small; dlia). dlia.
Qed.
Lemma reverse_bits_bound revbits r : 0 ≤ revbits ≤ 17 → is_u32 r → is_u32 (reverse_bits revbits r).
Proof.
  intros Hb Hr. unfold reverse_bits.
  assert (is_u32 (r &&& (BITMASK 16 - BITMASK revbits))) as Hi by bnd. revert Hi.
  generalize (r &&& (BITMASK 16 - BITMASK revbits)) as a.
  assert (Forall (λ i, 0 ≤ i < revbits) (seqZ 0 revbits)) as HF.
  { apply Forall_forall. intros i Hi. apply elem_of_seqZ in Hi. lia. }
  induction HF as [|i l Hl HF IH]; intros a Ha; [done|]. cbn. apply IH. bnd.
Qed.
Lemma reversed_bits_range n : 0 ≤ reversed_bits n ≤ 17.
Proof.
  unfold reversed_bits. destruct (List.find _ _) as [i|] eqn:E; [|lia].
  apply List.find_some in E as [Hi _]. apply list_elem_of_In, elem_of_seqZ in Hi. lia.
Qed.
Lemma bitreverse_ok n r : is_u32 r → is_u32 (bitreverse n r).
Proof.
  intros. unfold bitreverse. pose proof (reversed_bits_range n). apply reverse_bits_bound; [done|].
  apply lor_bound; [lia | bnd | apply land_bound_r; [lia|]; apply mask_bound; lia].
Qed.

(** What the instructions need of the peripherals. *)
Definition safe_peripherals {W} (Wok : W → Prop) (E : fault → Prop) `{!Peripherals W} : Prop :=
  (∀ a, is_u32 a → safe Wok E (read_peripheral_fn a)) ∧
  (∀ a v, is_u32 a → is_word v → safe Wok E (write_peripheral_fn a v)).

Section core_safe.
Context {W : Type} (Wok : W → Prop) (E : fault → Prop) (HE : E AssertFailed).
Abbreviation safeQ := (safeQ Wok E).
Abbreviation safe := (safe Wok E).

Lemma safe_add_interrupt i : 0 ≤ i < 5 → safe (dsp56k_add_interrupt i).
Proof.
  intros Hi. unfold dsp56k_add_interrupt.
  eapply (safeQ_bind _ _ (λ _, True)).
  { apply (safeQ_elem _ _ _ _ _ 12); [|lia]. intros c Hc. rewrite (ok_ipl _ Hc). split; [done|]. by apply Forall_true. }
  intros ipl _. apply safeQ_if; intros _; [by apply safeQ_ret|].
  eapply (safeQ_bind _ _ (λ _, True)).
  { apply (safeQ_elem _ _ _ _ _ 12); [|lia]. intros c Hc. destruct (ok_pending _ Hc) as (p & Hp & ->).
    split; [unfold blen; rewrite length_app, Hp; done|]. by apply Forall_true. }
  intros pend _. apply safeQ_when; [done|]. intros _. apply safe_set_core. intros c [].
  constructor; cbn; auto. destruct ok_pending0 as (p & Hp & Hc). exists (<[Z.to_nat i := 1]> p).
  rewrite length_insert. split; [done|]. rewrite Hc. apply insert_app_l. lia.
Qed.
Lemma safe_debug_stop : safe debug_stop.
Proof. unfold debug_stop. safe_run. Qed.

Lemma safe_level i : 0 ≤ i < 2 ^ 4 → safe (inBounds ((0 <=? i) && (i <? 16))).
Proof. intros. apply safeQ_inBounds; [lia | done]. Qed.
Lemma safe_set_stack i a b both : 0 ≤ i < 2 ^ 4 → is_u32 a → is_u32 b → safe (set_stack i a b both).
Proof.
  intros Hi Ha Hb. apply (safeQ_bind _ _ ok); [by apply safe_level|intros _ _].
  apply (safeQ_bind _ _ ok); [|intros _ _; apply safeQ_when; [done|intros _]];
    apply safe_set_core; intros c []; (constructor; cbn; auto); apply insert_ok; tauto.
Qed.
Lemma safe_stack_elem f i : (f = stack_ssh ∨ f = stack_ssl) → 0 ≤ i < 2 ^ 4 → safe (elem f i).
Proof. intros [->| ->] Hi; apply (safeQ_elem _ _ _ _ _ 16); [|lia| |lia]; intros c Hc; apply Hc. Qed.
Hint Resolve safe_add_interrupt safe_debug_stop safe_level safe_set_stack safe_stack_elem : dspsafe.
Lemma safe_show_top i : 0 ≤ i < 2 ^ 4 → safe (show_top i).
Proof. intros. unfold show_top. safe_run. Qed.
Hint Resolve safe_show_top : dspsafe.
Lemma safe_stack_push a b o : safe (dsp_stack_push a b o).
Proof. unfold dsp_stack_push. safe_run. Qed.
Lemma safe_stack_pop : safe dsp_stack_pop.
Proof. unfold dsp_stack_pop. safe_run. Qed.
Lemma safe_compute_ssh_ssl : safe dsp_compute_ssh_ssl.
Proof. unfold dsp_compute_ssh_ssl. safe_run. Qed.
Lemma safe_load_accu acc v : 0 ≤ acc < 2 → is_u32 v → safe (load_accu acc v).
Proof. intros. unfold load_accu. safe_run. Qed.
Hint Resolve safe_stack_push safe_stack_pop safe_compute_ssh_ssl safe_load_accu : dspsafe.
Lemma mask_lookup n : 0 ≤ n < 64 → ∃ bits, registers_mask !! Z.to_nat n = Some bits ∧ 0 ≤ bits ≤ 24.
Proof.
  intros. destruct (lookup_lt_is_Some_2 registers_mask (Z.to_nat n)) as [b Hb]; [cbn; lia|].
  exists b. split; [done|].
  assert (Forall (λ b, 0 ≤ b ≤ 24) registers_mask) as HF by (repeat constructor; lia).
  by eapply Forall_lookup_1 in HF.
Qed.
Lemma safe_store_masked n v : 0 ≤ n < 64 → safe (store_masked n v).
Proof.
  intros. unfold store_masked. destruct (mask_lookup n) as (b & -> & Hb); [done|]. safe_run.
Qed.
Hint Resolve safe_store_masked : dspsafe.
Lemma safe_set_ssl i v : is_u32 v → safe (set_core (λ c, c <| stack_ssl ::= <[i := v]> |>)).
Proof. intros. apply safe_set_core; intros c []; (constructor; cbn; auto); apply insert_ok; tauto. Qed.
Hint Resolve safe_set_ssl : dspsafe.
Lemma safe_write_reg n v : 0 ≤ n < 64 → is_u32 v → safe (dsp_write_reg n v).
Proof. intros. unfold dsp_write_reg. safe_run. Qed.
Hint Resolve safe_write_reg : dspsafe.

(** *** Memory *)

Lemma safe_read_memory_p a : is_u32 a → safe (read_memory_p a).
Proof.
  intros. unfold read_memory_p. do 3 safe_step. eapply (safeQ_bind _ _ is_mem).
  - apply (safeQ_elem _ _ _ _ _ 4096); [|unfold is_u32 in *; lia]. intros c Hc. apply Hc.
  - intros r Hr. unfold is_mem in Hr. safe_run.
Qed.
Hint Resolve safe_read_memory_p : dspsafe.

Context `{P : !Peripherals W} (HP : safe_peripherals Wok E).

(** Below the peripherals. *)
Lemma safe_read_ram space a :
  0 ≤ space ≤ 2 → 0 ≤ a < DSP_PERIPH_BASE → safeQ is_mem (dsp56k_read_memory space a).
Proof.
  intros Hs Ha. unfold dsp56k_read_memory, read_memory_p, in_mixbuffer.
  assert (∀ f i n, (∀ c, core_ok c → blen (f c) = n ∧ Forall is_mem (f c)) → 0 ≤ i < n → safeQ is_mem (elem f i))
    as Helem by (intros; by eapply safeQ_elem).
  apply safeQ_bind_assert; [done|intros _].
  destruct (Z.eqb_spec space 0); [|destruct (Z.eqb_spec space 1); [|destruct (Z.eqb_spec space 2); [|lia]]].
  - destruct (Z.leb_spec 0xFFFF80 a); [lia|].
    apply safeQ_if; intros H1; [|apply safeQ_if; intros H2; [|apply safeQ_if; intros H3]].
    + apply andb_prop in H1 as [??]. apply (Helem _ _ 1024); [intros c Hc; apply Hc | lia].
    + apply andb_prop in H2 as [??]. apply (Helem _ _ 1024); [intros c Hc; apply Hc | lia].
    + apply (Helem _ _ 4096); [intros c Hc; apply Hc | lia].
    + apply safeQ_ret. unfold is_mem. lia.
  - apply safeQ_bind_assert; [done|intros Hb%Z.ltb_lt]. apply (Helem _ _ 2048); [intros c Hc; apply Hc | lia].
  - apply safeQ_bind_assert; [done|intros _]. apply safeQ_bind_assert; [done|intros Hb%Z.ltb_lt].
    eapply safeQ_bind; [apply (Helem _ _ 4096); [intros c Hc; apply Hc | lia]|]. intros r Hr.
    apply safeQ_bind_assert; [done|intros _]. by apply safeQ_ret.
Qed.
Lemma is_mem_u32 v : is_mem v → is_u32 v.
Proof. unfold is_mem, is_u32. lia. Qed.
Lemma is_word_mem v : is_word v → is_mem v.
Proof. unfold is_mem, is_word. lia. Qed.
Lemma safe_read_memory space a : 0 ≤ space ≤ 2 → is_u32 a → safe (dsp56k_read_memory space a).
Proof.
  intros Hs Ha. destruct (decide (a < DSP_PERIPH_BASE)).
  - eapply safeQ_mono; [apply safe_read_ram; [done | unfold is_u32 in Ha; lia]|]. apply is_mem_u32.
  - unfold dsp56k_read_memory. apply safeQ_bind_assert; [done|intros Hw%is24_word; [|done]].
    destruct (space =? 0); [destruct (Z.leb_spec 0xFFFF80 a); [by apply HP | lia]|].
    destruct (Z.leb_spec 2048 a); [|lia]. unfold read_memory_p.
    destruct (space =? 1); [|destruct (space =? 2)]; [| |by apply safeQ_raise].
    + apply safeQ_bind_assert; [done|]. intros Hb%Z.ltb_lt. lia.
    + apply safeQ_bind_assert; [done|intros _]. apply safeQ_bind_assert; [done|intros Hb%Z.ltb_lt]. lia.
Qed.
Lemma core_ok_pram i v c :
  is_mem v → core_ok c → core_ok (c <| pram ::= <[i := v]> |> <| pram_opcache ::= <[i := None]> |>).
Proof.
  intros Hv []. constructor; cbn; auto; [apply insert_ok; tauto|]. by apply Forall2_insert.
Qed.
Lemma safe_write_any space a v :
  0 ≤ space ≤ 2 → is_u32 a → is_u32 v → (DSP_PERIPH_BASE ≤ a → is_word v → safe (write_peripheral_fn a v)) →
  safe (dsp56k_write_memory space a v).
Proof.
  intros Hs Ha Hv HW. unfold dsp56k_write_memory, write_memory_raw, set_mixbuffer, in_mixbuffer.
  apply safeQ_bind_assert; [done|]. intros Hw%is24_word; [|done]. safe_run.
  all: repeat match goal with H : (_ && _) = true |- _ => apply andb_prop in H as [? ?] end.
  all: try (by apply HW; [lia|]).
  all: try (apply safeQ_inBounds; [unfold is_u32 in *; lia | done]).
  all: apply is_word_mem in Hw; apply safe_set_core; intros c Hc; try (by apply core_ok_pram).
  all: destruct Hc; constructor; cbn; auto; apply insert_ok; tauto.
Qed.
Lemma safe_write_memory space a v : 0 ≤ space ≤ 2 → is_u32 a → is_u32 v → safe (dsp56k_write_memory space a v).
Proof. intros. apply safe_write_any; [done..|]. intros. by apply HP. Qed.
Lemma safe_write_ram space a v :
  0 ≤ space ≤ 2 → 0 ≤ a < DSP_PERIPH_BASE → is_u32 v → safe (dsp56k_write_memory space a v).
Proof. intros. apply safe_write_any; [done | unfold is_u32; lia | done |]. lia. Qed.

(** *** Addresses and conditions *)

Lemma modulo_step_ok m r n : is_u32 (modulo_step m r n).
Proof.
  unfold modulo_step. destruct (bufsize_loop _ _ _ _) as [b k].
  match goal with |- is_u32 (let '(_, _) := ?x in _) => destruct x end. bnd.
Qed.
Lemma safe_update_rn n k : 0 ≤ n < 8 → safe (emu_update_rn n k).
Proof.
  intros. unfold emu_update_rn, emu_update_rn_bitreverse, emu_update_rn_modulo. safe_run.
  - apply safe_wreg; [lia|]. by apply bitreverse_ok.
  - apply safe_wreg; [lia|]. apply modulo_step_ok.
Qed.
Hint Resolve safe_update_rn : dspsafe.
Lemma safe_longer : safe longer.
Proof. apply safe_set_core. intros c []. constructor; cbn; auto. bnd. Qed.
Lemma safe_calc_ea m : safe (emu_calc_ea m).
Proof.
  unfold emu_calc_ea.
  assert (0 ≤ m &&& BITMASK 3 < 2 ^ 3) as H by bnd. revert H. generalize (m &&& BITMASK 3) as n.
  intros n H. safe_run. apply safe_longer.
Qed.
Lemma safe_calc_cc k : safe (emu_calc_cc k).
Proof. unfold emu_calc_cc. do 2 safe_step; [safe_run|]. by apply safeQ_ret. Qed.
Lemma safe_ccr a : ok a → safe (emu_ccr_update_e_u_n_z a).
Proof. intros. unfold emu_ccr_update_e_u_n_z. safe_run. Qed.
Lemma safe_undefined : safe emu_undefined.
Proof. unfold emu_undefined. safe_run. Qed.
End core_safe.
#[export] Hint Resolve safe_add_interrupt safe_debug_stop safe_set_stack safe_stack_elem safe_show_top
  safe_stack_push safe_stack_pop safe_compute_ssh_ssl safe_load_accu safe_store_masked safe_write_reg
  safe_read_memory_p safe_read_memory safe_write_memory safe_update_rn safe_longer safe_calc_ea
  safe_calc_cc safe_ccr safe_undefined : dspsafe.
#[export] Hint Extern 1 (0 ≤ _ ≤ _) => lia : dspsafe.
#[export] Hint Extern 1 (ok _) => ok_goal : dspsafe.
