(* ===== verification/DspSafeInsn.v ===== *)
(** * DspSafeInsn: the instructions of the audio DSPs are safe

    Every arithmetic operation, parallel move and other instruction, and the step that
    executes one, keeps [dsp_ok]. *)

From stdpp Require Import base numbers list option.
From S2P Require Import Prelude.
From S2P Require Import DspArith.
From S2P Require Import DspCore.
From S2P Require Import DspAlu.
From S2P Require Import DspMove.
From S2P Require Import DspInsn.
From S2P Require Import DspExec.
From S2P Require Import DspSafe.

(** ** Arithmetic *)

Section alu_safe.
Context {W : Type} (Wok : W → Prop) (E : fault → Prop) (HE : E AssertFailed).
Abbreviation safeQ := (safeQ Wok E).
Abbreviation safe := (safe Wok E).

Definition source_ok (s : alu_source) : Prop :=
  match s with Acc s => 0 ≤ s < 2 | Pair s => 0 ≤ s < 2 | Word r => 0 ≤ r < 64 end.

Lemma safe_read_accu d : 0 ≤ d < 2 → safe (read_accu d).
Proof. intros. unfold read_accu. safe_run. Qed.
Lemma safe_write_accu d a : 0 ≤ d < 2 → ok a → safe (write_accu d a).
Proof. intros. unfold write_accu. safe_run. Qed.
Hint Resolve safe_read_accu safe_write_accu : dspsafe.
Lemma safe_read_source s : source_ok s → safe (read_source s).
Proof. intros. unfold read_source. destruct s; cbn in *; safe_run. Qed.
Lemma safe_compared r n : ok r → is_u32 n → safe (compared r n).
Proof. intros. unfold compared, flags_v_c. safe_run. Qed.
Hint Resolve safe_read_source safe_compared : dspsafe.
Lemma safe_result d r n : 0 ≤ d < 2 → ok r → is_u32 n → safe (result d r n).
Proof. intros. unfold result. safe_run. Qed.
Lemma safe_negated d b r : 0 ≤ d < 2 → ok r → safe (negated d b r).
Proof. intros. unfold negated. safe_run. Qed.
Lemma safe_shifted d r n : 0 ≤ d < 2 → ok r → is_u32 n → safe (shifted d r n).
Proof. intros. unfold shifted. safe_run. Qed.
Lemma safe_flag_n_z v : is_u32 v → safe (flag_n_z v).
Proof. intros. unfold flag_n_z. safe_run. Qed.
Hint Resolve safe_flag_n_z : dspsafe.
Lemma safe_logical d v : 0 ≤ d < 2 → is_u32 v → safe (logical d v).
Proof. intros. unfold logical. safe_run. Qed.
Lemma safe_rotated d v n : 0 ≤ d < 2 → is_u32 v → is_u32 n → safe (rotated d v n).
Proof. intros. unfold rotated. safe_run. Qed.
Lemma safe_product s x y : 0 ≤ x < 64 → 0 ≤ y < 64 → safe (product s x y).
Proof. intros. unfold product. safe_run. Qed.
Lemma safe_accumulated d r n : 0 ≤ d < 2 → ok r → is_u32 n → safe (accumulated d r n).
Proof. intros. unfold accumulated. safe_run. Qed.
Lemma safe_multiplied d r : 0 ≤ d < 2 → ok r → safe (multiplied d r).
Proof. intros. unfold multiplied. safe_run. Qed.
Hint Resolve safe_result safe_negated safe_shifted safe_logical safe_rotated safe_product safe_accumulated
  safe_multiplied : dspsafe.

Lemma safe_add s d : source_ok s → 0 ≤ d < 2 → safe (emu_add s d).
Proof. intros. unfold emu_add. safe_run. Qed.
Lemma safe_sub s d : source_ok s → 0 ≤ d < 2 → safe (emu_sub s d).
Proof. intros. unfold emu_sub. safe_run. Qed.
Lemma safe_adc s d : source_ok s → 0 ≤ d < 2 → safe (emu_adc s d).
Proof. intros. unfold emu_adc. safe_run. Qed.
Lemma safe_sbc s d : source_ok s → 0 ≤ d < 2 → safe (emu_sbc s d).
Proof. intros. unfold emu_sbc. safe_run. Qed.
Lemma safe_addl d : 0 ≤ d < 2 → safe (emu_addl d).
Proof. intros. unfold emu_addl. safe_run. Qed.
Lemma safe_addr d : 0 ≤ d < 2 → safe (emu_addr d).
Proof. intros. unfold emu_addr. safe_run. Qed.
Lemma safe_subl d : 0 ≤ d < 2 → safe (emu_subl d).
Proof. intros. unfold emu_subl. safe_run. Qed.
Lemma safe_subr d : 0 ≤ d < 2 → safe (emu_subr d).
Proof. intros. unfold emu_subr. safe_run. Qed.
Lemma safe_cmp s d : source_ok s → 0 ≤ d < 2 → safe (emu_cmp s d).
Proof. intros. unfold emu_cmp. safe_run. Qed.
Lemma safe_cmpm s d : source_ok s → 0 ≤ d < 2 → safe (emu_cmpm s d).
Proof. intros. unfold emu_cmpm. safe_run. Qed.
Lemma safe_abs d : 0 ≤ d < 2 → safe (emu_abs d).
Proof. intros. unfold emu_abs. safe_run. Qed.
Lemma safe_neg d : 0 ≤ d < 2 → safe (emu_neg d).
Proof. intros. unfold emu_neg. safe_run. Qed.
Lemma safe_asl d : 0 ≤ d < 2 → safe (emu_asl d).
Proof. intros. unfold emu_asl. safe_run. Qed.
Lemma safe_asr d : 0 ≤ d < 2 → safe (emu_asr d).
Proof. intros. unfold emu_asr. safe_run. Qed.
Lemma safe_clr d : 0 ≤ d < 2 → safe (emu_clr d).
Proof. intros. unfold emu_clr. safe_run. Qed.
Lemma safe_rnd d : 0 ≤ d < 2 → safe (emu_rnd d).
Proof. intros. unfold emu_rnd. safe_run. Qed.
Lemma safe_tst d : 0 ≤ d < 2 → safe (emu_tst d).
Proof. intros. unfold emu_tst. safe_run. Qed.
Lemma safe_tfr s d : source_ok s → 0 ≤ d < 2 → safe (emu_tfr s d).
Proof. intros. unfold emu_tfr. safe_run. Qed.
Lemma safe_and r d : 0 ≤ r < 64 → 0 ≤ d < 2 → safe (emu_and r d).
Proof. intros. unfold emu_and. safe_run. Qed.
Lemma safe_or r d : 0 ≤ r < 64 → 0 ≤ d < 2 → safe (emu_or r d).
Proof. intros. unfold emu_or. safe_run. Qed.
Lemma safe_eor r d : 0 ≤ r < 64 → 0 ≤ d < 2 → safe (emu_eor r d).
Proof. intros. unfold emu_eor. safe_run. Qed.
Lemma safe_not d : 0 ≤ d < 2 → safe (emu_not d).
Proof. intros. unfold emu_not. safe_run. Qed.
Lemma safe_lsl d : 0 ≤ d < 2 → safe (emu_lsl d).
Proof. intros. unfold emu_lsl. safe_run. Qed.
Lemma safe_lsr d : 0 ≤ d < 2 → safe (emu_lsr d).
Proof. intros. unfold emu_lsr. safe_run. Qed.
Lemma safe_rol d : 0 ≤ d < 2 → safe (emu_rol d).
Proof. intros. unfold emu_rol. safe_run. Qed.
Lemma safe_ror d : 0 ≤ d < 2 → safe (emu_ror d).
Proof. intros. unfold emu_ror. safe_run. Qed.
Lemma safe_mac s x y d : 0 ≤ x < 64 → 0 ≤ y < 64 → 0 ≤ d < 2 → safe (emu_mac s x y d).
Proof. intros. unfold emu_mac. safe_run. Qed.
Lemma safe_macr s x y d : 0 ≤ x < 64 → 0 ≤ y < 64 → 0 ≤ d < 2 → safe (emu_macr s x y d).
Proof. intros. unfold emu_macr. safe_run. Qed.
Lemma safe_mpy s x y d : 0 ≤ x < 64 → 0 ≤ y < 64 → 0 ≤ d < 2 → safe (emu_mpy s x y d).
Proof. intros. unfold emu_mpy. safe_run. Qed.
Lemma safe_mpyr s x y d : 0 ≤ x < 64 → 0 ≤ y < 64 → 0 ≤ d < 2 → safe (emu_mpyr s x y d).
Proof. intros. unfold emu_mpyr. safe_run. Qed.
Lemma safe_max : safe emu_max.
Proof. unfold emu_max. safe_run. Qed.
Lemma safe_move : safe emu_move.
Proof. unfold emu_move. safe_run. Qed.
End alu_safe.
#[export] Hint Resolve safe_read_accu safe_write_accu safe_read_source safe_compared safe_result safe_negated
  safe_shifted safe_flag_n_z safe_logical safe_rotated safe_product safe_accumulated safe_multiplied : dspsafe.
#[export] Hint Resolve safe_add safe_sub safe_adc safe_sbc safe_addl safe_addr safe_subl safe_subr safe_cmp
  safe_cmpm safe_abs safe_neg safe_asl safe_asr safe_clr safe_rnd safe_tst safe_tfr safe_and safe_or safe_eor
  safe_not safe_lsl safe_lsr safe_rol safe_ror safe_mac safe_macr safe_mpy safe_mpyr safe_max safe_move : dspsafe.
#[export] Hint Extern 1 (source_ok _) => split; lia : dspsafe.

Section move_safe.
Context {W : Type} (Wok : W → Prop) (E : fault → Prop) (HE : E AssertFailed).
Context `{P : !Peripherals W} (HP : safe_peripherals Wok E).
Abbreviation safeQ := (safeQ Wok E).
Abbreviation safe := (safe Wok E).

Lemma safe_opcodes_alu : Forall safe opcodes_alu.
Proof. unfold opcodes_alu. repeat (apply Forall_cons; split; [solve [auto with dspsafe]|]). constructor. Qed.
Lemma safe_run_alu : safe run_alu.
Proof.
  unfold run_alu. safe_step. safe_step.
  assert (0 ≤ cur_inst c &&& BITMASK 8 < 2 ^ 8) as Hb by bnd.
  destruct (lookup_lt_is_Some_2 (opcodes_alu (W:=W)) (Z.to_nat (cur_inst c &&& BITMASK 8))) as [f Hf].
  { change (length opcodes_alu) with 256%nat. lia. }
  rewrite Hf. eapply Forall_lookup_1 in Hf; [exact Hf|]. apply safe_opcodes_alu.
Qed.
Hint Resolve safe_run_alu : dspsafe.
Lemma safe_pm_read_accu24 n : safe (emu_pm_read_accu24 n).
Proof. unfold emu_pm_read_accu24. safe_run. Qed.
Hint Resolve safe_pm_read_accu24 : dspsafe.
Lemma safe_read_reg24 n : 0 ≤ n < 64 → safe (read_reg24 n).
Proof. intros. unfold read_reg24. safe_run. Qed.
Lemma safe_write_reg24 n v f : is_u32 v → safe (f n v) → safe (write_reg24 n v f).
Proof. intros. unfold write_reg24. safe_run. Qed.
Hint Resolve safe_read_reg24 : dspsafe.
Hint Extern 1 (DspSafe.safe _ _ (write_reg24 _ _ _)) => apply safe_write_reg24; [bnd | try (by apply safeQ_ret); auto with dspsafe] : dspsafe.
Lemma pair_or_accu_range p f : 0 ≤ p < 62 → 0 ≤ pair_or_accu p f < 64.
Proof. intros. unfold pair_or_accu. repeat case_match; lia. Qed.
Hint Extern 1 (0 ≤ pair_or_accu _ _ < 64) => apply pair_or_accu_range; lia : dspsafe.
Lemma safe_pm_0 : safe emu_pm_0.
Proof. unfold emu_pm_0. safe_run. Qed.
Lemma safe_pm_1 : safe emu_pm_1.
Proof. unfold emu_pm_1. safe_run. Qed.
Lemma safe_pm_2_2 : safe emu_pm_2_2.
Proof. intros. unfold emu_pm_2_2. safe_run. Qed.
Lemma safe_pm_3 : safe emu_pm_3.
Proof. intros. unfold emu_pm_3. safe_run. Qed.
Hint Resolve safe_pm_2_2 safe_pm_3 : dspsafe.
Lemma safe_pm_2 : safe emu_pm_2.
Proof. intros. unfold emu_pm_2. safe_run. Qed.
Lemma safe_read_long n : safe (read_long n).
Proof. intros. unfold read_long. safe_run. Qed.
Lemma safe_write_long n x y : is_u32 x → is_u32 y → safe (write_long n x y).
Proof. intros. unfold write_long. safe_run. Qed.
Lemma safe_aa_or_ea : safe aa_or_ea.
Proof. intros. unfold aa_or_ea. safe_run. Qed.
Hint Resolve safe_read_long safe_write_long safe_aa_or_ea : dspsafe.
Lemma safe_pm_4x : safe emu_pm_4x.
Proof. intros. unfold emu_pm_4x. safe_run. Qed.
Lemma safe_pm_5 : safe emu_pm_5.
Proof. intros. unfold emu_pm_5. safe_run. Qed.
Hint Resolve safe_pm_4x safe_pm_5 : dspsafe.
Lemma safe_pm_4 : safe emu_pm_4.
Proof. intros. unfold emu_pm_4. safe_run. Qed.
Lemma safe_pm_8 : safe emu_pm_8.
Proof. intros. unfold emu_pm_8. safe_run. Qed.
Lemma safe_opcodes_parmove : Forall safe opcodes_parmove.
Proof.
  unfold opcodes_parmove.
  repeat (apply Forall_cons; split; [auto using safe_pm_0, safe_pm_1, safe_pm_2, safe_pm_3, safe_pm_4, safe_pm_5, safe_pm_8|]).
  constructor.
Qed.
End move_safe.
#[export] Hint Resolve safe_run_alu safe_pm_read_accu24 safe_read_reg24 : dspsafe.

(** ** Other instructions *)

Section insn_safe.
Context {W : Type} (Wok : W → Prop) (E : fault → Prop) (HE : E AssertFailed).
Context `{P : !Peripherals W} (HP : safe_peripherals Wok E).
Abbreviation safeQ := (safeQ Wok E).
Abbreviation safe := (safe Wok E).

Lemma safe_next_word : safe next_word.
Proof. unfold next_word. safe_run. Qed.
Hint Resolve safe_next_word : dspsafe.
Lemma safe_imm_or_long l : safe (imm_or_long l).
Proof.
  unfold imm_or_long. safe_run. eapply safeQ_mono; [by apply safe_inst_field|]. intros a Ha. ok_goal.
Qed.
Lemma safe_locate o : safe (locate o).
Proof. unfold locate. safe_run. Qed.
Lemma safe_read_location l : ok l → safe (read_location l).
Proof. intros. unfold read_location. destruct l; [destruct H|change (0 ≤ numreg < 64) in H]; safe_run. Qed.
Lemma safe_write_location l v : ok l → is_u32 v → safe (write_location l v).
Proof. intros H Hv. unfold write_location. destruct l; [destruct H|change (0 ≤ numreg < 64) in H]; safe_run. Qed.
Hint Resolve safe_imm_or_long safe_locate safe_read_location safe_write_location : dspsafe.
Hint Extern 1 (ok (Memory _ _)) => ok_goal : dspsafe.
Lemma safe_read_operand o : safe (read_operand o).
Proof.
  unfold read_operand. apply (safeQ_bind _ _ ok); [apply safe_locate|]. intros l Hl. by apply safe_read_location.
Qed.
Lemma xy_register_range f : 0 ≤ xy_register f < 64.
Proof. unfold xy_register. repeat case_match; lia. Qed.
Hint Resolve safe_read_operand xy_register_range : dspsafe.

Lemma safe_jump a : is_u32 a → safe (jump a).
Proof. intros. apply safe_set_core. intros c []. constructor; cbn; auto. bnd. Qed.
Lemma safe_branch a : safe (branch a).
Proof. intros. apply safe_set_core. intros c []. constructor; cbn; auto; bnd. Qed.
Lemma safe_push_next : safe push_next.
Proof. unfold push_next. safe_run. Qed.
Hint Resolve safe_jump safe_branch safe_push_next : dspsafe.
Lemma safe_push_call : safe push_call.
Proof. unfold push_call. safe_run. apply safe_set_core. intros c' []. constructor; cbn; auto. Qed.
Lemma safe_short_offset : safe short_offset.
Proof. unfold short_offset, dsp_signextend. safe_run. Qed.
Hint Resolve safe_push_call safe_short_offset : dspsafe.
Lemma safe_branch_offset l : safe (branch_offset l).
Proof. intros. unfold branch_offset. safe_run. Qed.
Hint Resolve safe_branch_offset : dspsafe.
Lemma safe_bcc l : safe (emu_bcc l).
Proof. intros. unfold emu_bcc. safe_run. Qed.
Lemma safe_bra l : safe (emu_bra l).
Proof. intros. unfold emu_bra. safe_run. Qed.
Lemma safe_bsr l : safe (emu_bsr l).
Proof. intros. unfold emu_bsr. safe_run. Qed.
Lemma safe_jump_target ea : safe (jump_target ea).
Proof.
  unfold jump_target. safe_run. eapply safeQ_mono; [by apply safe_inst_field|]. intros a Ha. ok_goal.
Qed.
Lemma safe_jump_condition ea : safe (jump_condition ea).
Proof. intros. unfold jump_condition. safe_run. Qed.
Hint Resolve safe_jump_target safe_jump_condition : dspsafe.
Lemma safe_jcc ea : safe (emu_jcc ea).
Proof. intros. unfold emu_jcc. safe_run. Qed.
Lemma safe_jscc ea : safe (emu_jscc ea).
Proof. intros. unfold emu_jscc. safe_run. Qed.
Lemma safe_jmp ea : safe (emu_jmp ea).
Proof. intros. unfold emu_jmp. safe_run. Qed.
Lemma safe_jsr ea : safe (emu_jsr ea).
Proof. intros. unfold emu_jsr. safe_run. Qed.

Lemma safe_bit_insn f o :
  (∀ v n, is_u32 v → 0 ≤ n < 32 → match f v n with Some w => is_u32 w | None => True end) → safe (bit_insn f o).
Proof.
  intros Hf. unfold bit_insn, numbit. safe_step. safe_step. rename f0 into n.
  eapply safeQ_bind; [apply safe_locate|]. intros l Hl.
  apply (safeQ_bind _ _ ok); [by apply safe_read_location|]. intros v Hv. change (is_u32 v) in Hv.
  specialize (Hf v n Hv ltac:(lia)). destruct (f v n); safe_run.
Qed.
Lemma safe_bchg o : safe (emu_bchg o).
Proof. apply safe_bit_insn. intros. bnd. Qed.
Lemma safe_bclr o : safe (emu_bclr o).
Proof. apply safe_bit_insn. intros. bnd. Qed.
Lemma safe_bset o : safe (emu_bset o).
Proof. apply safe_bit_insn. intros. bnd. Qed.
Lemma safe_btst o : safe (emu_btst o).
Proof. by apply safe_bit_insn. Qed.
Lemma safe_branch_on_bit b o : safe (branch_on_bit b o).
Proof. unfold branch_on_bit, numbit. safe_run. Qed.
Lemma safe_jump_on_bit b c t o : safe (jump_on_bit b c t o).
Proof. unfold jump_on_bit, numbit. safe_run. Qed.
Lemma safe_brclr o : safe (emu_brclr o).
Proof. apply safe_branch_on_bit. Qed.
Lemma safe_brset o : safe (emu_brset o).
Proof. apply safe_branch_on_bit. Qed.
Lemma safe_jclr o : safe (emu_jclr o).
Proof. apply safe_jump_on_bit. Qed.
Lemma safe_jsclr o : safe (emu_jsclr o).
Proof. apply safe_jump_on_bit. Qed.
Lemma safe_jset o : safe (emu_jset o).
Proof. apply safe_jump_on_bit. Qed.
Lemma safe_jsset o : safe (emu_jsset o).
Proof. apply safe_jump_on_bit. Qed.

Lemma safe_add_x l : safe (emu_add_x l).
Proof. intros. unfold emu_add_x, with_word. safe_run. Qed.
Lemma safe_sub_x l : safe (emu_sub_x l).
Proof. intros. unfold emu_sub_x, with_word. safe_run. Qed.
Lemma safe_and_x l : safe (emu_and_x l).
Proof. intros. unfold emu_and_x. safe_run. Qed.
Lemma safe_cmp_x l : safe (emu_cmp_x l).
Proof. intros. unfold emu_cmp_x. safe_run. Qed.
Lemma safe_or_long : safe emu_or_long.
Proof. intros. unfold emu_or_long. safe_run. Qed.
Lemma safe_cmpu : safe emu_cmpu.
Proof. intros. unfold emu_cmpu. safe_run. Qed.
Lemma safe_dec : safe emu_dec.
Proof. intros. unfold emu_dec. safe_run. Qed.
Lemma safe_inc : safe emu_inc.
Proof. intros. unfold emu_inc. safe_run. Qed.
Lemma div_step_ok s d : ok (div_step s d).
Proof.
  destruct d as [[d0 d1] d2]. unfold div_step. pose proof (asl56_ok (d0, d1, d2) 1) as H.
  destruct (dsp_asl56 _ _). split; [|apply H]. cbn [fst snd].
  destruct (truthy _); [apply (add56_ok _ a) | apply (sub56_ok _ a)].
Qed.
Hint Resolve div_step_ok : dsp.
Lemma safe_div : safe emu_div.
Proof. intros. unfold emu_div. safe_run. Qed.
Lemma safe_lsl_imm : safe emu_lsl_imm.
Proof. unfold emu_lsl_imm. do 3 safe_step. apply safeQ_iter; [done|]. safe_run. Qed.
Lemma safe_mpyi : safe emu_mpyi.
Proof. intros. unfold emu_mpyi. safe_run. Qed.
Lemma safe_norm : safe emu_norm.
Proof. intros. unfold emu_norm. safe_run. Qed.
Lemma safe_andi : safe emu_andi.
Proof. intros. unfold emu_andi. safe_run. Qed.
Lemma safe_ori : safe emu_ori.
Proof. intros. unfold emu_ori. safe_run. Qed.
Lemma safe_loop_count : safe loop_count.
Proof. intros. unfold loop_count. safe_run. Qed.
Lemma safe_push_loop : safe push_loop.
Proof. intros. unfold push_loop. safe_run. Qed.
Lemma safe_enter_loop : safe enter_loop.
Proof. intros. unfold enter_loop. safe_run. Qed.
Hint Resolve safe_loop_count safe_push_loop safe_enter_loop : dspsafe.
Lemma safe_last_address : safe last_address.
Proof. intros. unfold last_address. safe_run. Qed.
Hint Resolve safe_last_address : dspsafe.
Lemma safe_do_mem o : safe (emu_do_mem o).
Proof. intros. unfold emu_do_mem. safe_run. Qed.
Lemma safe_do_imm : safe emu_do_imm.
Proof. intros. unfold emu_do_imm. safe_run. Qed.
Lemma safe_do_reg : safe emu_do_reg.
Proof. intros. unfold emu_do_reg. safe_run. Qed.
Lemma safe_dor b : safe (emu_dor b).
Proof. intros. unfold emu_dor. safe_run. Qed.
Lemma safe_enddo : safe emu_enddo.
Proof. intros. unfold emu_enddo. safe_run. Qed.
Lemma safe_start_rep : safe start_rep.
Proof. unfold start_rep. safe_run. apply safe_set_core. intros c []. constructor; cbn; auto. Qed.
Hint Resolve safe_start_rep : dspsafe.
Lemma safe_rep o : safe (emu_rep o).
Proof. intros. unfold emu_rep. safe_run. Qed.
Lemma safe_rep_imm : safe emu_rep_imm.
Proof. intros. unfold emu_rep_imm. safe_run. Qed.
Lemma safe_illegal : safe emu_illegal.
Proof. intros. unfold emu_illegal. safe_run. Qed.
Lemma safe_set_pc a : is_u32 a → safe (set_core (λ c, c <| pc := a |>)).
Proof. intros. apply safe_set_core. intros c []. constructor; cbn; auto. Qed.
Hint Resolve safe_set_pc : dspsafe.
Lemma safe_rti : safe emu_rti.
Proof. intros. unfold emu_rti. safe_run. Qed.
Lemma safe_rts : safe emu_rts.
Proof. intros. unfold emu_rts. safe_run. Qed.
Lemma safe_reset : safe emu_reset.
Proof. intros. unfold emu_reset. safe_run. Qed.
Lemma safe_nop : safe emu_nop.
Proof. intros. unfold emu_nop. safe_run. Qed.
Lemma safe_store_address v : is_u32 v → safe (store_address v).
Proof. intros. unfold store_address. safe_run. Qed.
Hint Resolve safe_store_address : dspsafe.
Lemma safe_lua : safe emu_lua.
Proof. intros. unfold emu_lua. safe_run. Qed.
Lemma safe_lua_rel : safe emu_lua_rel.
Proof. intros. unfold emu_lua_rel. safe_run. Qed.
Lemma registers_tcc_ok f : 0 ≤ f < 2 ^ 4 → ∃ s d, registers_tcc !! Z.to_nat f = Some (s, d) ∧ 0 ≤ s < 64.
Proof.
  intros. destruct (lookup_lt_is_Some_2 registers_tcc (Z.to_nat f)) as [[s d] Hs]; [cbn; lia|].
  exists s, d. split; [done|].
  assert (Forall (λ p, 0 ≤ p.1 < 64) registers_tcc) as HF by (repeat constructor; cbn; lia).
  by eapply Forall_lookup_1 in HF; [|exact Hs].
Qed.
Lemma safe_tcc : safe emu_tcc.
Proof.
  unfold emu_tcc. do 2 safe_step. safe_step; [apply safe_calc_cc|]. do 2 safe_step.
  destruct (registers_tcc_ok f0) as (s & d & -> & Hs); [done|].
  apply (safeQ_bind _ _ ok); [|intros _ _; safe_run].
  apply (safeQ_bind _ _ ok); [apply safe_read_source; repeat case_match; cbn; lia|].
  intros a Ha. apply safe_write_accu; [case_match; lia | done].
Qed.
Lemma safe_write_control n v : 0 ≤ n < 64 → is_u32 v → safe (write_control n v).
Proof. intros. unfold write_control. destruct (mask_lookup n) as (b & -> & Hb); [done|]. safe_run. Qed.
Lemma safe_pop_or_reg n : 0 ≤ n < 64 → safe (pop_or_reg n).
Proof. intros. unfold pop_or_reg. safe_run. Qed.
Lemma safe_pop_or_reg24 n : 0 ≤ n < 64 → safe (pop_or_reg24 n).
Proof. intros. unfold pop_or_reg24. safe_run. Qed.
Hint Resolve safe_write_control safe_pop_or_reg safe_pop_or_reg24 : dspsafe.
Lemma safe_movec_reg : safe emu_movec_reg.
Proof.
  unfold emu_movec_reg. safe_run. apply safe_load_accu; [|bnd].
  match goal with H : is_accu _ = true |- _ => unfold is_accu in H; apply orb_prop in H; lia end.
Qed.
Lemma safe_movec_imm : safe emu_movec_imm.
Proof. intros. unfold emu_movec_imm. safe_run. Qed.
Lemma safe_movec_mem ea : safe (emu_movec_mem ea).
Proof. intros. unfold emu_movec_mem. safe_run. Qed.
Lemma safe_movem ea : safe (emu_movem ea).
Proof. intros. unfold emu_movem. safe_run. Qed.
Lemma safe_movep_0 : safe emu_movep_0.
Proof. intros. unfold emu_movep_0. safe_run. Qed.
Lemma safe_movep_1 : safe emu_movep_1.
Proof. intros. unfold emu_movep_1. safe_run. Qed.
Lemma safe_move_peripheral s a : 0 ≤ s ≤ 2 → is_u32 a → safe (move_peripheral s a).
Proof. intros. unfold move_peripheral. safe_run. Qed.
Hint Resolve safe_move_peripheral : dspsafe.
Lemma safe_movep_23 : safe emu_movep_23.
Proof. intros. unfold emu_movep_23. safe_run. Qed.
Lemma safe_movep_x_qq : safe emu_movep_x_qq.
Proof. intros. unfold emu_movep_x_qq. safe_run. Qed.
Lemma safe_move_offset s a w n : 0 ≤ s ≤ 2 → 0 ≤ n < 64 → safe (move_offset s a w n).
Proof. intros. unfold move_offset. safe_run. Qed.
Hint Resolve safe_move_offset : dspsafe.
Lemma safe_move_x_long : safe emu_move_x_long.
Proof. intros. unfold emu_move_x_long. safe_run. Qed.
Lemma safe_move_xy_imm s : 0 ≤ s ≤ 2 → safe (emu_move_xy_imm s).
Proof. intros. unfold emu_move_xy_imm. safe_run. Qed.
End insn_safe.
#[export] Hint Resolve safe_bcc safe_bra safe_bsr safe_jcc safe_jscc safe_jmp safe_jsr safe_bchg safe_bclr safe_bset
  safe_btst safe_brclr safe_brset safe_jclr safe_jsclr safe_jset safe_jsset safe_add_x safe_sub_x safe_and_x safe_cmp_x safe_or_long safe_cmpu
  safe_dec safe_inc safe_div safe_lsl_imm safe_mpyi safe_norm safe_andi safe_ori safe_do_mem safe_do_imm safe_do_reg
  safe_dor safe_enddo safe_rep safe_rep_imm safe_illegal safe_rti safe_rts safe_reset safe_nop safe_lua safe_lua_rel
  safe_tcc safe_movec_reg safe_movec_imm safe_movec_mem safe_movem safe_movep_0 safe_movep_1 safe_movep_23
  safe_movep_x_qq safe_move_x_long safe_move_xy_imm safe_set_pc : dspsafe.
