(* ===== verification/DspSafeExec.v ===== *)
(** * DspSafeExec: decoding and the step of the audio DSPs

    The two caches of opcodes do not change what an instruction is, and one step keeps the
    state well formed. *)

From stdpp Require Import base numbers list option.
From Stdlib Require Import String.
From S2P Require Import Prelude.
From S2P Require Import DspArith.
From S2P Require Import DspCore.
From S2P Require Import DspAlu.
From S2P Require Import DspMove.
From S2P Require Import DspInsn.
From S2P Require Import DspExec.
From S2P Require Import DspSafe.
From S2P Require Import DspSafeInsn.

(** The two instructions of which the count of bits may not be defined. *)
Definition undefined_shift (word : Z) : bool :=
  let ii := (word >>> 1) &&& BITMASK 6 in
  (word &&& 0xffff00 =? 0x0c1d00) && (56 <? ii) || (word &&& 0xffff00 =? 0x0c1c00) && (ii =? 0).

(** The parts of the state that decoding leaves alone. *)
Definition no_caches {W} (d : DSPState W) : DSPState W :=
  d <| opcache := [] |> <| core ::= λ c, c <| pram_opcache := [] |> |>.

(** ** The table *)

Lemma find_index_Some {A} (f : A → bool) l i k :
  find_index f l i = Some k → ∃ j x, k = (i + j)%nat ∧ l !! j = Some x ∧ f x = true.
Proof.
  revert i. induction l as [|x l IH]; intros i; [done|]. cbn. destruct (f x) eqn:Hf.
  - intros [= <-]. exists 0%nat, x. split; [lia|done].
  - intros (j & y & -> & Hj & Hy)%IH. exists (S j), y. split; [lia|done].
Qed.
Lemma lookup_opcode_slow_entry w k :
  lookup_opcode_slow w = Some k →
  ∃ e, nonparallel_opcodes !! k = Some e ∧ entry_matches w (e, template_bits (template e) 23) = true.
Proof.
  intros (j & [e p] & -> & Hj & He)%find_index_Some. cbn [Nat.add].
  apply lookup_zip_Some in Hj as [H1 H2]. exists e. split; [done|].
  unfold nonparallel_matches in H2. rewrite list_lookup_fmap, H1 in H2. by injection H2 as <-.
Qed.
Lemma opcache_tag_range w : 0 ≤ opcache_tag w < 2 ^ 8.
Proof. unfold opcache_tag. bnd. Qed.

Lemma Forall2_insert_right {A B} (P : A → B → Prop) l k i y :
  Forall2 P l k → (∀ x, l !! i = Some x → P x y) → Forall2 P l (<[i := y]> k).
Proof.
  intros H Hy. destruct (l !! i) as [x|] eqn:Hx.
  - rewrite <- (list_insert_id l i x Hx). apply Forall2_insert; auto.
  - rewrite list_insert_ge; [done|]. rewrite <- (Forall2_length _ _ _ H). by apply lookup_ge_None.
Qed.

(** ** Decoding *)

Section decode.
Context {W : Type} (Wok : W → Prop).
Implicit Types d : DSPState W.

(** Without the caches. *)
Definition decodes d (m : M (DSPState W) nat) : Prop :=
  match lookup_opcode_slow (cur_inst (core d)) with
  | Some k => ∃ d', m d = Ok (k, d') ∧ no_caches d' = no_caches d ∧ dsp_ok Wok d'
  | None => m d = Fault AssertFailed
  end.

Lemma lookup_opcode_decodes d : dsp_ok Wok d → decodes d (lookup_opcode (cur_inst (core d))).
Proof.
  intros Hd. unfold decodes, lookup_opcode. set (w := cur_inst (core d)).
  set (tag := Z.to_nat (opcache_tag w)). destruct (ok_opcache _ _ Hd) as [Hl HF].
  pose proof (opcache_tag_range w) as Ht.
  destruct (lookup_lt_is_Some_2 (opcache d) tag) as [[key entry] He]; [unfold tag; lia|].
  rewrite (run_bind _ _ (opcache d) _ d) by done. rewrite He.
  pose proof (Forall_lookup_1 _ _ _ _ HF He) as Hc. cbn [fst snd] in Hc.
  assert (match lookup_opcode_slow w with
          | Some k => ∃ d', (modify (λ d, d <| opcache ::= <[tag := (w, Some k)]> |>);; mret k) d = Ok (k, d')
                            ∧ no_caches d' = no_caches d ∧ dsp_ok Wok d'
          | None => True end) as Hfill.
  { destruct (lookup_opcode_slow w) as [k|] eqn:Hk; [|done]. eexists. split_and!; [done|done|].
    destruct Hd. constructor; cbn; auto. rewrite length_insert. split; [done|]. by apply Forall_insert. }
  destruct entry as [k|]; [destruct (Z.eqb_spec key w) as [->|]|]; cbn [negb].
  - cbn in Hc. rewrite Hc. by exists d.
  - by destruct (lookup_opcode_slow w).
  - by destruct (lookup_opcode_slow w).
Qed.

Lemma no_caches_core d d' : no_caches d' = no_caches d →
  pc (core d') = pc (core d) ∧ cur_inst (core d') = cur_inst (core d) ∧ pram (core d') = pram (core d).
Proof. destruct d as [[]], d' as [[]]. unfold no_caches. cbn. by intros [= -> ]. Qed.

Lemma fetch_opcode_decodes d :
  dsp_ok Wok d → pram (core d) !! Z.to_nat (pc (core d)) = Some (cur_inst (core d)) → decodes d fetch_opcode.
Proof.
  intros Hd Hw. unfold fetch_opcode.
  pose proof (ok_pram_opcache _ (ok_core _ _ Hd)) as HF.
  destruct (Forall2_lookup_l _ _ _ _ _ HF Hw) as (entry & He & Hc).
  pose proof (lookup_opcode_decodes d Hd) as HL. unfold decodes in *.
  destruct entry as [k|]; cbn in Hc.
  - rewrite Hc. exists d. split; [|done]. by rewrite (run_bind _ _ (core d) _ d), He by done.
  - destruct (lookup_opcode_slow (cur_inst (core d))) as [k|] eqn:Hk.
    + destruct HL as (d' & Hrun & Hno & Hd'). destruct (no_caches_core _ _ Hno) as (Hpc & Hci & Hpram).
      eexists. split_and!.
      * rewrite (run_bind _ _ (core d) _ d), He by done. rewrite (run_bind _ _ _ _ _ Hrun). done.
      * rewrite <- Hno. done.
      * destruct Hd' as [[] ????]. constructor; cbn; auto. constructor; cbn; auto.
        apply Forall2_insert_right; [done|]. intros w Hw'. rewrite Hpram, Hpc, Hw in Hw'. by injection Hw' as <-.
    + by rewrite (run_bind _ _ (core d) _ d), He, (run_bind_fault _ _ _ _ HL) by done.
Qed.
End decode.

(** ** The instruction of an entry *)

Section step.
Context {W : Type} (Wok : W → Prop) (E : fault → Prop) (HE : E AssertFailed).
Context `{P : !Peripherals W} (HP : safe_peripherals Wok E).
Abbreviation safeQ := (safeQ Wok E).
Abbreviation safe := (safe Wok E).
Implicit Types d : DSPState W.

Abbreviation step_ok m d := (wpE m (λ _ d', dsp_ok Wok d') E d).

Lemma safe_step_ok (m : M (DSPState W) ()) d : safe m → dsp_ok Wok d → step_ok m d.
Proof. intros Hm Hd. eapply wpE_mono; [by apply Hm|]. by intros ?? []. Qed.

Lemma shift_imm_ok f defined d :
  (∀ a n, ok (f a n)) → dsp_ok Wok d →
  (defined ((cur_inst (core d) >>> 1) &&& BITMASK 6) = false → E BadShift) → step_ok (shift_imm f defined) d.
Proof.
  intros Hf Hd Hdef.
  set (ii := (cur_inst (core d) >>> 1) &&& BITMASK 6) in *.
  assert (safe (s ← inst_field 7 1; d' ← inst_field 0 1; dest ← read_accu s;
    (if defined ii then mret tt else raise BadShift);; let '(r, newsr) := f dest ii in shifted d' r newsr)) as H.
  { do 3 safe_step. apply (safeQ_bind _ _ ok); [by apply safe_read_accu|]. intros a Ha.
    apply (safeQ_bind _ _ ok); [intros ? ?; apply wpE_if; intros Hb; [by apply wpE_ret | by apply wpE_raise, Hdef]|]. intros _ _.
    specialize (Hf a ii). destruct (f a ii) as [r n]. destruct Hf as [Hr Hn]. by apply safe_shifted. }
  by apply (safe_step_ok _ d) in H.
Qed.

Definition entry_ok (e : OpcodeEntry) : Prop :=
  match emu_func e with
  | Some f => ∀ d, dsp_ok Wok d → entry_matches (cur_inst (core d)) (e, template_bits (template e) 23) = true →
              (undefined_shift (cur_inst (core d)) = true → E BadShift) → step_ok (f W P) d
  | None => True
  end.
Lemma entry_ok_safe t f b : safe (f W P) → entry_ok (op t (Some f) b).
Proof. intros H d Hd _ _. by apply safe_step_ok. Qed.
Lemma entry_ok_asl : entry_ok (op "0000110000011101SiiiiiiD"%string (func emu_asl_imm) false).
Proof.
  intros d Hd Hm Hu. apply shift_imm_ok; [apply asl56_ok|done|]. intros Hdef. apply Hu.
  unfold entry_matches in Hm. apply andb_prop in Hm as [Hm _].
  change ((cur_inst (core d) &&& 0xffff00 =? 0x0c1d00) = true) in Hm.
  unfold undefined_shift. rewrite Hm. apply orb_true_iff. left. cbn [andb]. lia.
Qed.
Lemma entry_ok_asr : entry_ok (op "0000110000011100SiiiiiiD"%string (func emu_asr_imm) false).
Proof.
  intros d Hd Hm Hu. apply shift_imm_ok; [apply asr56_ok|done|]. intros Hdef. apply Hu.
  unfold entry_matches in Hm. apply andb_prop in Hm as [Hm _].
  change ((cur_inst (core d) &&& 0xffff00 =? 0x0c1c00) = true) in Hm.
  assert (0 ≤ (cur_inst (core d) >>> 1) &&& BITMASK 6 < 2 ^ 6) by bnd.
  unfold undefined_shift. rewrite Hm. apply orb_true_iff. right. cbn [andb]. lia.
Qed.
Lemma entries_ok : Forall entry_ok nonparallel_opcodes.
Proof.
  unfold nonparallel_opcodes.
  repeat (apply Forall_cons; split;
    [lazymatch goal with
     | |- entry_ok (op _ None _) => exact I
     | |- entry_ok (op _ (func emu_asl_imm) _) => exact entry_ok_asl
     | |- entry_ok (op _ (func emu_asr_imm) _) => exact entry_ok_asr
     | |- _ => apply entry_ok_safe; cbv beta; solve [auto with dspsafe]
     end|]).
  constructor.
Qed.

(** ** After the instruction *)

Lemma safe_count_down : safe count_down.
Proof. unfold count_down. safe_run. Qed.
Hint Resolve safe_count_down : dspsafe.
Lemma safe_set_misc f :
  (∀ c, f c = c <| loop_rep := 0 |> ∨ f c = c <| pc_on_rep := 0 |>) → safe (set_core f).
Proof. intros Hf. apply safe_set_core. intros c []. destruct (Hf c) as [-> | ->]; constructor; cbn; auto. Qed.
Lemma safe_update_rep : safe update_rep.
Proof. unfold update_rep. safe_run; apply safe_set_misc; auto. Qed.
Hint Resolve safe_update_rep : dspsafe.
Lemma safe_update_pc : safe dsp_postexecute_update_pc.
Proof. unfold dsp_postexecute_update_pc. safe_run. apply safe_set_core. intros c' []. constructor; cbn; auto. bnd. Qed.

Lemma safe_prefetch_long w : safe (prefetch_long w).
Proof.
  unfold prefetch_long. safe_run.
  - apply safe_set_core. intros c []. constructor; cbn; auto.
  - pose proof (ok_to_raise _ Hc). apply safe_set_sr. bnd.
Qed.
Lemma safe_pipeline_step : safe pipeline_step.
Proof. apply safe_set_core. intros c []. constructor; cbn; auto. Qed.
Hint Resolve safe_prefetch_long safe_pipeline_step : dspsafe.
Lemma safe_interrupt_pipeline : safe interrupt_pipeline.
Proof.
  unfold interrupt_pipeline. safe_run.
  all: try (apply safe_read_memory_p; [done|]; destruct Hc; unfold is_u16, is_u32 in *; lia).
  all: apply safe_set_core; intros c' []; constructor; cbn; auto; unfold is_u16, is_u32 in *; (lia || bnd).
Qed.
Hint Resolve safe_interrupt_pipeline : dspsafe.

(** Only the first five interrupts are used. *)
Lemma arbitrate_pending s l i best k :
  arbitrate s l i best = Some k → best.1 = Some k ∨ ∃ j ipl, k = (i + j)%nat ∧ l !! j = Some (1, ipl).
Proof.
  revert i best. induction l as [|[p ipl] l IH]; intros i best; cbn; [auto|].
  assert (∀ b, arbitrate s l (S i) b = Some k → b = best ∨ b = (Some i, ipl) ∧ p = 1 →
    best.1 = Some k ∨ ∃ j x, k = (i + j)%nat ∧ ((p, ipl) :: l) !! j = Some (1, x)) as Hnext.
  { intros b [Hb|(j & x & -> & Hj)]%IH [->|[-> ->]]; auto.
    - injection Hb as <-. right. exists 0%nat, ipl. split; [lia|done].
    - right. exists (S j), x. split; [lia|done].
    - right. exists (S j), x. split; [lia|done]. }
  destruct (Z.eqb_spec p 1) as [->|]; [|eauto].
  destruct (ipl =? 3); [|destruct (_ || _); eauto].
  intros [= <-]. right. exists 0%nat, ipl. split; [lia|done].
Qed.
Lemma arbitrate_used c s k : core_ok c →
  arbitrate s (zip (interrupt_is_pending c) (interrupt_ipl c)) 0 (None, -1) = Some k → (k < 5)%nat.
Proof.
  intros Hc [?|(j & ipl & -> & Hj)]%arbitrate_pending; [done|]. cbn.
  apply lookup_zip_Some in Hj as [Hj _]. destruct (ok_pending _ Hc) as (p & Hp & Heq). rewrite Heq in Hj.
  destruct (decide (j < 5)%nat); [done|]. rewrite lookup_app_r in Hj by lia.
  apply lookup_replicate in Hj. lia.
Qed.
Lemma safe_raise_interrupt k : (k < 5)%nat → safe (raise_interrupt k).
Proof.
  intros Hk. unfold raise_interrupt.
  apply (safeQ_bind _ _ ok).
  { apply safe_set_core. intros c []. constructor; cbn; auto. destruct ok_pending as (p & Hp & ->).
    exists (<[k := 0]> p). rewrite length_insert. split; [done|]. apply insert_app_l. lia. }
  intros _ _. apply (safeQ_bind _ _ (λ v, -1 ≤ v ≤ 3)).
  { apply (safeQ_elem _ _ _ _ _ 12); [|lia]. intros c Hc. rewrite (ok_ipl _ Hc). split; [done|].
    apply Forall_app; split; apply Forall_replicate; lia. }
  intros ipl Hipl.
  destruct (dsp_interrupt !! k) as [v|] eqn:Hv.
  2: { do 5 (destruct k as [|k]; [done|]). lia. }
  assert (is_u16 v) as Hv16 by (do 5 (destruct k as [|k]; [by injection Hv as <-|]); lia).
  apply (safeQ_bind _ _ ok).
  { apply safe_set_core. intros c []. constructor; cbn; auto. unfold u16. dlia. }
  intros _ _. apply safeQ_assert; [done|]. done.
Qed.
Lemma safe_interrupts : safe dsp_postexecute_interrupts.
Proof.
  unfold dsp_postexecute_interrupts. safe_run; by eapply safe_raise_interrupt, arbitrate_used.
Qed.

(** ** The step *)

Lemma read_memory_p_run a d :
  dsp_ok Wok d → is_u32 a →
  read_memory_p a d = Fault AssertFailed ∨
  ∃ w, read_memory_p a d = Ok (w, d) ∧ pram (core d) !! Z.to_nat a = Some w ∧ is_word w.
Proof.
  intros Hd Ha. unfold read_memory_p. destruct (is24 a); [|by left]. rewrite (run_bind _ _ tt _ d) by done.
  destruct (Z.ltb_spec a 4096); [|by left]. rewrite (run_bind _ _ tt _ d) by done.
  destruct (ok_pram _ (ok_core _ _ Hd)) as [Hl HF].
  destruct (lookup_lt_is_Some_2 (pram (core d)) (Z.to_nat a)) as [w Hw]; [unfold is_u32, blen in *; lia|].
  assert (elem pram a d = Ok (w, d)) as Hrun.
  { unfold elem. rewrite (run_bind _ _ (pram (core d)) _ d) by done. rewrite Hw.
    rewrite (run_bind _ _ tt _ d); [done|]. apply run_inBounds. unfold is_u32 in Ha. lia. }
  rewrite (run_bind _ _ _ _ _ Hrun). destruct (is24 w) eqn:H24; [|by left].
  right. exists w. split; [done|]. split; [done|].
  by apply is24_word; [apply is_mem_u32, (Forall_lookup_1 _ _ _ _ HF Hw)|].
Qed.

Lemma run_opcode_ok k d :
  dsp_ok Wok d → lookup_opcode_slow (cur_inst (core d)) = Some k →
  (undefined_shift (cur_inst (core d)) = true → E BadShift) → step_ok (run_opcode k) d.
Proof.
  intros Hd (e & He & Hm)%lookup_opcode_slow_entry Hu. unfold run_opcode. rewrite He.
  pose proof (Forall_lookup_1 _ _ _ _ entries_ok He) as H. unfold entry_ok in H.
  destruct (emu_func e); [by apply H|]. apply safe_step_ok; [by apply safe_undefined | done].
Qed.
Lemma safe_finish :
  safe (dsp_postexecute_update_pc;; dsp_postexecute_interrupts;;
        set_core (λ c, c <| num_inst := u32 (num_inst c + instr_cycle c) |>)).
Proof.
  apply (safeQ_bind _ _ ok); [apply safe_update_pc|]. intros _ _.
  apply (safeQ_bind _ _ ok); [apply safe_interrupts|]. intros _ _.
  apply safe_set_core. intros c []. constructor; cbn; auto.
Qed.

Lemma execute_ok d :
  dsp_ok Wok d →
  (∀ w, pram (core d) !! Z.to_nat (pc (core d)) = Some w → undefined_shift w = true → E BadShift) →
  step_ok dsp56k_execute_instruction d.
Proof.
  intros Hd Hu. unfold dsp56k_execute_instruction. apply wpE_bind, wpE_gets. apply wpE_bind.
  destruct (read_memory_p_run (pc (core d)) d) as [Hf|(w & Hr & Hw & Hword)];
    [done|apply Hd| |]; unfold wpE at 1; [by rewrite Hf|rewrite Hr]. specialize (Hu _ Hw).
  apply wpE_bind, wpE_modify.
  set (d1 := d <| core ::= _ |>).
  assert (dsp_ok Wok d1) as Hd1 by (destruct Hd as [[] ????]; constructor; cbn; auto; constructor; cbn; auto; bnd).
  apply wpE_bind. eapply (wpE_mono _ (λ _ d', dsp_ok Wok d')); [|intros _ d' Hd'; by apply (safe_step_ok _ _ safe_finish)].
  apply wpE_if; intros _.
  - pose proof (fetch_opcode_decodes Wok d1 Hd1 Hw) as HF. unfold decodes in HF. apply wpE_bind. unfold wpE at 1.
    destruct (lookup_opcode_slow (cur_inst (core d1))) as [k|] eqn:Hk; [|by rewrite HF].
    destruct HF as (d2 & -> & Hno & Hd2). destruct (no_caches_core _ _ Hno) as (_ & Hci & _).
    apply run_opcode_ok; rewrite ?Hci; done.
  - assert (0 ≤ (w >>> 20) &&& BITMASK 4 < 2 ^ 4) as Hb by bnd.
    destruct (lookup_lt_is_Some_2 (opcodes_parmove (W:=W)) (Z.to_nat ((w >>> 20) &&& BITMASK 4))) as [f Hf];
      [change (length opcodes_parmove) with 16%nat; lia|].
    rewrite Hf. apply safe_step_ok; [|done].
    by apply (Forall_lookup_1 _ _ _ _ (safe_opcodes_parmove Wok E HE HP) Hf).
Qed.
End step.

(** C15. The two caches of opcodes are transparent: the row of the table for the instruction that is
    executed is the one that the search of the table finds, or the search, and with it the fetch,
    fails its assertion; only the caches change. *)
Theorem opcode_caches_transparent {W} (Wok : W → Prop) (d : DSPState W) :
  dsp_ok Wok d → pram (core d) !! Z.to_nat (pc (core d)) = Some (cur_inst (core d)) →
  match lookup_opcode_slow (cur_inst (core d)) with
  | Some k => ∃ d', fetch_opcode d = Ok (k, d') ∧ no_caches d' = no_caches d ∧ dsp_ok Wok d'
  | None => fetch_opcode d = Fault AssertFailed
  end.
Proof. apply fetch_opcode_decodes. Qed.
