(* ===== verification/Dsp.v ===== *)
(** * Dsp: one audio DSP with its DMA engine and peripherals, dsp.c and dsp_dma.c

    The DMA engine moves blocks between the memories of the DSP and what is outside of the
    chip.  A write to its control register runs it at once, inside of the instruction that
    writes. *)

From stdpp Require Import base numbers list option.
From S2P Require Import Prelude.
From S2P Require Import DspArith.
From S2P Require Import DspCore.
From S2P Require Import DspExec.

Abbreviation DMA_CONTROL_ACTION := 0x7 (only parsing).
Abbreviation DMA_CONTROL_FROZEN := (1 <<< 3) (only parsing).
Abbreviation DMA_CONTROL_RUNNING := (1 <<< 4) (only parsing).
Abbreviation DMA_CONTROL_STOPPED := (1 <<< 5) (only parsing).
Abbreviation NODE_POINTER_VAL := 0x3fff (only parsing).
Abbreviation NODE_POINTER_EOL := (1 <<< 14) (only parsing).
Abbreviation NODE_CONTROL_DIRECTION := (1 <<< 1) (only parsing).
Abbreviation INTERRUPT_START_FRAME := (1 <<< 1) (only parsing).
Abbreviation INTERRUPT_DMA_EOL := (1 <<< 7) (only parsing).

(** [scratch_rw] and [fifo_rw], by their direction; a FIFO is only written. *)
Class DmaPort (W : Type) := {
  scratch_read : Z → Z → M W (list Z);
  scratch_write : list Z → Z → M W unit;
  fifo_write : list Z → Z → M W unit
}.

(** What is outside of the chip, as a part of the state. *)
Definition outside {W A} (m : M W A) : M (DSPState W) A := λ d,
  match m (rw_opaque d) with
  | Ok (a, w) => Ok (a, d <| rw_opaque := w |>)
  | Fault e => Fault e
  end.

Section dma.
Context {W : Type} `{!DmaPort W, HPer : !Peripherals W}.
Abbreviation D := (DSPState W).

Definition set_dma (f : DSPDMAState → DSPDMAState) : M D unit := modify (λ d, d <| dma ::= f |>).

(** ** Transfers to and from the outside *)

(** The loop over the parts of a circular buffer.  [buf] is the buffer of the transfer; the
    result is that buffer and the next offset. *)
Fixpoint circular_loop (fuel : nat) (scratch_base scratch_offset scratch_size transfer_size buf_offset : Z)
    (buf : list Z) (direction : bool) : M D (list Z * Z) :=
  if 0 <? transfer_size then
    match fuel with
    | O => raise OutOfFuel
    | S fuel =>
        let bytes_until_wrap := scratch_size - scratch_offset in
        let chunk_size := Z.min transfer_size bytes_until_wrap in
        let scratch_addr := u32 (scratch_base + scratch_offset) in
        buf ← (if direction then
                 bs ← rd buf buf_offset chunk_size; outside (scratch_write bs scratch_addr);; mret buf
               else bs ← outside (scratch_read scratch_addr chunk_size); wr buf buf_offset bs);
        let scratch_offset := u32 (scratch_offset + chunk_size) in
        let scratch_offset := if scratch_size <=? scratch_offset then 0 else scratch_offset in
        circular_loop fuel scratch_base scratch_offset scratch_size (transfer_size - chunk_size)
          (buf_offset + chunk_size) buf direction
    end
  else mret (buf, scratch_offset).

Definition scratch_circular_copy (scratch_base scratch_offset scratch_size transfer_size : Z) (buf : list Z)
    (direction : bool) : M D (list Z * Z) :=
  let scratch_offset := if scratch_size <=? scratch_offset then 0 else scratch_offset in
  circular_loop (Z.to_nat transfer_size) scratch_base scratch_offset scratch_size transfer_size 0 buf direction.

(** ** A block *)

(** The memory that an address of the engine is in; [count] words must be in it. *)
Definition dma_space (addr count : Z) : M D (Z * Z) :=
  if addr <? 0x1800 then assertM (u32 (addr + count) <? 0x1800);; mret (DSP_SPACE_X, addr)
  else if (0x1800 <=? addr) && (addr <? 0x2000) then
    assertM (u32 (addr + count) <? 0x2000);; mret (DSP_SPACE_Y, addr - 0x1800)
  else if (0x2800 <=? addr) && (addr <? 0x3800) then
    assertM (u32 (addr + count) <? 0x3800);; mret (DSP_SPACE_P, addr - 0x2800)
  else raise AssertFailed.

(** A word of memory as an item of two or four bytes, and back. *)
Definition item_bytes (item_size v : Z) : list Z :=
  if item_size =? 2 then le_bytes 2 (v >>> 8) else le_bytes 4 v.
Definition item_word (item_size item_mask : Z) (bs : list Z) : Z :=
  if item_size =? 2 then of_le bs <<< 8 else of_le bs &&& item_mask.

(** The offset in the buffer and the address of each item to send. *)
Definition plain_items (item_size mem_address count : Z) : list (Z * Z) :=
  map (λ i, (i * item_size, mem_address + i)) (seqZ 0 count).
Definition interleaved_items (item_size mem_address block_count channel_count : Z) : list (Z * Z) :=
  flat_map (λ i, map (λ ch, (i * item_size * channel_count + ch * item_size, mem_address + ch * block_count + i))
                   (seqZ 0 channel_count)) (seqZ 0 block_count).

Fixpoint gather (item_size mem_space : Z) (items : list (Z * Z)) (buf : list Z) : M D (list Z) :=
  match items with
  | [] => mret buf
  | (off, addr) :: items =>
      v ← dsp56k_read_memory mem_space addr;
      buf ← wr buf off (item_bytes item_size v);
      gather item_size mem_space items buf
  end.
Definition scatter (item_size item_mask mem_space mem_address count : Z) (buf : list Z) : M D unit :=
  forM (seqZ 0 count) (λ i,
    bs ← rd buf (i * item_size) item_size;
    dsp56k_write_memory mem_space (mem_address + i) (item_word item_size item_mask bs)).

(** The buffer of the transfer goes out, or comes in; the result has the offset that is written
    back. *)
Definition send (buf_id scratch_base scratch_offset scratch_size transfer_size : Z) (buf : list Z) : M D Z :=
  if buf_id <=? 0x3 then
    bs ← rd buf 0 transfer_size; outside (fifo_write bs buf_id);; mret scratch_offset
  else if buf_id =? 0xE then
    r ← scratch_circular_copy scratch_base scratch_offset scratch_size transfer_size buf true; mret r.2
  else if buf_id =? 0xF then
    bs ← rd buf 0 transfer_size;
    outside (scratch_write bs (u32 (scratch_base + scratch_offset)));; mret scratch_offset
  else raise AssertFailed.
Definition receive (buf_id scratch_base scratch_offset scratch_size transfer_size : Z) (buf : list Z) :
    M D (list Z * Z) :=
  if buf_id =? 0xE then scratch_circular_copy scratch_base scratch_offset scratch_size transfer_size buf false
  else if buf_id =? 0xF then
    bs ← outside (scratch_read (u32 (scratch_base + scratch_offset)) transfer_size);
    buf ← wr buf 0 bs; mret (buf, scratch_offset)
  else raise AssertFailed.

Definition item_format (format : Z) : option (Z * Z) :=
  match format with 1 => Some (2, 0x0000ffff) | 2 => Some (4, 0x00ffffff) | 6 => Some (4, 0x00ffffff) | _ => None end.

(** The words of a node. *)
Record node := {
  n_next : Z; n_control : Z; n_count : Z; n_dsp_offset : Z; n_scratch_offset : Z; n_scratch_base : Z;
  n_scratch_size : Z
}.
Definition read_node (space addr : Z) : M D node :=
  next ← dsp56k_read_memory space addr;
  control ← dsp56k_read_memory space (addr + 1);
  count ← dsp56k_read_memory space (addr + 2);
  dsp_offset ← dsp56k_read_memory space (addr + 3);
  scratch_offset ← dsp56k_read_memory space (addr + 4);
  scratch_base ← dsp56k_read_memory space (addr + 5);
  size ← dsp56k_read_memory space (addr + 6);
  mret {| n_next := next; n_control := control; n_count := count; n_dsp_offset := dsp_offset;
          n_scratch_offset := scratch_offset; n_scratch_base := scratch_base; n_scratch_size := u32 (size + 1) |}.

(** The transfer of a node; the result is the offset that is written back.  The buffer, which the
    code keeps and enlarges, has room for [count] items. *)
Definition dma_transfer (n : node) : M D Z :=
  let dsp_interleave := truthy ((n_control n >>> 0) &&& 1) in
  let direction := truthy (n_control n &&& NODE_CONTROL_DIRECTION) in
  let buf_id := (n_control n >>> 5) &&& 0xf in
  assertM ((n_control n >>> 2) &&& 0x3 =? 0);;
  assertM (negb (truthy ((n_control n >>> 13) &&& 1)));;
  let count := n_count n in
  let channel_count := (count &&& 0xF) + 1 in
  let block_count := count >>> 4 in
  match item_format ((n_control n >>> 10) &&& 0x7) with
  | None => raise AssertFailed
  | Some (item_size, item_mask) =>
      m ← dma_space (n_dsp_offset n) count;
      let '(mem_space, mem_address) := m in
      let buf := replicate (Z.to_nat (count * item_size)) 0 in
      if direction then
        let '(items, transfer_size) :=
          if dsp_interleave then
            (interleaved_items item_size mem_address block_count channel_count, block_count * item_size * channel_count)
          else (plain_items item_size mem_address count, count * item_size) in
        buf ← gather item_size mem_space items buf;
        send buf_id (n_scratch_base n) (n_scratch_offset n) (n_scratch_size n) transfer_size buf
      else
        assertM (negb dsp_interleave);;
        r ← receive buf_id (n_scratch_base n) (n_scratch_offset n) (n_scratch_size n) (count * item_size) buf;
        scatter item_size item_mask mem_space mem_address count r.1;;
        mret r.2
  end.

Definition dma_block : M D unit :=
  d ← gets dma;
  b ← dma_space (next_block d &&& NODE_POINTER_VAL) 6;
  let '(block_space, block_addr) := b in
  n ← read_node block_space block_addr;
  set_dma (λ s, s <| next_block := n_next n |>);;
  whenM (truthy (n_next n &&& NODE_POINTER_EOL)) (set_dma (λ s, s <| eol := true |>));;
  scratch_offset ← dma_transfer n;
  whenM (truthy ((n_control n >>> 4) &&& 1))
    (dsp56k_write_memory block_space (block_addr + 4) scratch_offset).

(** ** The engine *)

Fixpoint dma_loop (fuel : nat) : M D unit :=
  d ← gets dma;
  if truthy (next_block d &&& NODE_POINTER_EOL) then mret tt
  else match fuel with
       | O => raise OutOfFuel
       | S fuel => dma_block;; dma_loop fuel
       end.

Definition dsp_dma_run (fuel : nat) : M D unit :=
  d ← gets dma;
  if negb (truthy (control d &&& DMA_CONTROL_RUNNING)) || truthy (control d &&& DMA_CONTROL_FROZEN) then mret tt
  else dma_loop fuel.

(** A write to the control register. *)
Definition dsp_dma_control (fuel : nat) (v : Z) : M D unit :=
  match v &&& DMA_CONTROL_ACTION with
  | 1 => set_dma (λ s, s <| control ::= λ c, (c ||| DMA_CONTROL_RUNNING) &&& not32 DMA_CONTROL_STOPPED |>)
  | 2 => set_dma (λ s, s <| control ::= λ c, (c ||| DMA_CONTROL_STOPPED) &&& not32 DMA_CONTROL_RUNNING |>)
  | 3 => set_dma (λ s, s <| control ::= λ c, c ||| DMA_CONTROL_FROZEN |>)
  | 4 => set_dma (λ s, s <| control ::= λ c, c &&& not32 DMA_CONTROL_FROZEN |>)
  | _ => raise AssertFailed
  end;;
  dsp_dma_run fuel.
End dma.

(** ** The peripherals *)

Section peripherals.
Context {W : Type} `{!DmaPort W}.
Abbreviation D := (DSPState W).

Definition read_peripheral (address : Z) : M D Z :=
  d ← gets id;
  mret (match address with
        | 0xFFFFB3 => 0
        | 0xFFFFC5 => if eol (dma d) then interrupts d ||| INTERRUPT_DMA_EOL else interrupts d
        | 0xFFFFD4 => next_block (dma d)
        | 0xFFFFD5 => start_block (dma d)
        | 0xFFFFD6 => control (dma d)
        | 0xFFFFD7 => configuration (dma d)
        | _ => 0xababa
        end).

(** The engine does not reach the peripherals: the addresses of its blocks are below them. *)
Definition no_peripherals : Peripherals W :=
  {| read_peripheral_fn := λ _, raise OutOfBounds; write_peripheral_fn := λ _ _, raise OutOfBounds |}.

Definition write_peripheral (fuel : nat) (address value : Z) : M D unit :=
  match address with
  | 0xFFFFC4 => whenM (truthy (value &&& 1)) (set_core (λ c, c <| is_idle := true |>))
  | 0xFFFFC5 =>
      modify (λ d, d <| interrupts ::= λ i, i &&& not32 value |>);;
      whenM (truthy (value &&& INTERRUPT_DMA_EOL)) (set_dma (λ s, s <| eol := false |>))
  | 0xFFFFD4 => set_dma (λ s, s <| next_block := value |>)
  | 0xFFFFD5 => set_dma (λ s, s <| start_block := value |>)
  | 0xFFFFD6 => dsp_dma_control (HPer := no_peripherals) fuel value
  | 0xFFFFD7 => set_dma (λ s, s <| configuration := value |>)
  | _ => mret tt
  end.

(** [fuel] is the number of blocks that one run of the engine may have. *)
Definition dsp_peripherals (fuel : nat) : Peripherals W :=
  {| read_peripheral_fn := read_peripheral; write_peripheral_fn := write_peripheral fuel |}.
End peripherals.

(** ** The DSP *)

Section dsp.
Context {W : Type} `{!DmaPort W}.
Abbreviation D := (DSPState W).
Variable dma_fuel : nat.

Definition dsp_step : M D unit := @dsp56k_execute_instruction W (dsp_peripherals dma_fuel).

(** The loop of [dsp_run], with the count of the instructions since the engine was started. *)
Fixpoint dsp_run_loop (fuel : nat) (dma_timer : Z) : M D unit :=
  d ← gets id;
  if 0 <? save_cycles d then
    match fuel with
    | O => raise OutOfFuel
    | S fuel =>
        dsp_step;;
        modify (λ d, d <| save_cycles := s32 (save_cycles d - instr_cycle (core d)) |>
                       <| core ::= λ c, c <| cycle_count ::= λ n, u32 (n + 1) |> |>);;
        d ← gets id;
        let dma_timer := if truthy (control (dma d) &&& DMA_CONTROL_RUNNING) then dma_timer + 1 else dma_timer in
        let stop := 2 <? dma_timer in
        whenM stop
          (set_dma (λ s, s <| control ::= λ c, (c &&& not32 DMA_CONTROL_RUNNING) ||| DMA_CONTROL_STOPPED |>));;
        if is_idle (core d) then mret tt else dsp_run_loop fuel (if stop then 0 else dma_timer)
    end
  else mret tt.
Definition dsp_run (cycles : Z) : M D unit :=
  modify (λ d, d <| save_cycles ::= λ n, s32 (n + cycles) |>);;
  d ← gets id;
  dsp_run_loop (Z.to_nat (save_cycles d)) 0.

Definition dsp_reset : M D unit := dsp56k_reset_cpu;; modify (λ d, d <| save_cycles := 0 |>).

(** Words of four bytes from a buffer of bytes. *)
Fixpoint words_of (n : nat) (bs : list Z) : list Z :=
  match n with O => [] | S n => of_le (take 4 bs) :: words_of n (drop 4 bs) end.
Definition dsp_bootstrap : M D unit :=
  bs ← outside (scratch_read 0 (0x800 * 4));
  set_core (λ c, c <| pram ::= λ l, map (λ v, v &&& 0x00ffffff) (words_of (Z.to_nat 0x800) bs) ++ drop (Z.to_nat 0x800) l |>
                   <| pram_opcache := replicate (Z.to_nat 4096) None |>).
Definition dsp_start_frame : M D unit := modify (λ d, d <| interrupts ::= λ i, i ||| INTERRUPT_START_FRAME |>).

(** [space] is one of the characters X, Y and P. *)
Definition space_id (space : Z) : option Z :=
  match space with 0x58 => Some DSP_SPACE_X | 0x59 => Some DSP_SPACE_Y | 0x50 => Some DSP_SPACE_P | _ => None end.
Definition dsp_read_memory (space address : Z) : M D Z :=
  match space_id space with
  | Some s => @dsp56k_read_memory W (dsp_peripherals dma_fuel) s address
  | None => raise AssertFailed
  end.
Definition dsp_write_memory (space address value : Z) : M D unit :=
  match space_id space with
  | Some s => @dsp56k_write_memory W (dsp_peripherals dma_fuel) s address value
  | None => raise AssertFailed
  end.
End dsp.
