(* ===== verification/DspDma.v ===== *)
(** * DspDma: the DMA engine of the audio DSPs is safe *)

From stdpp Require Import base numbers list option.
From S2P Require Import Prelude.
From S2P Require Import DspArith.
From S2P Require Import DspCore.
From S2P Require Import DspExec.
From S2P Require Import DspSafe.
From S2P Require Import DspSafeInsn.
From S2P Require Import DspSafeExec.
From S2P Require Import Dsp.

(** ** What the engine needs of the outside *)

Record port_ok {W} (Wok : W → Prop) (E : fault → Prop) `{!DmaPort W} : Prop := {
  port_read : ∀ a n w, 0 ≤ n → Wok w → wpE (scratch_read a n) (λ bs w', Wok w' ∧ blen bs = n ∧ bytes bs) E w;
  port_write : ∀ bs a w, bytes bs → Wok w → wpE (scratch_write bs a) (λ _ w', Wok w') E w;
  port_fifo : ∀ bs i w, 0 ≤ i → bytes bs → Wok w → wpE (fifo_write bs i) (λ _ w', Wok w') E w
}.

Section safe.
Context {W : Type} (Wok : W → Prop) (E : fault → Prop) (HE : E AssertFailed) (HF : E OutOfFuel).
Context `{!DmaPort W} (HW : port_ok Wok E).
Abbreviation safeQ := (safeQ Wok E).
Abbreviation safe := (safe Wok E).

Lemma safeQ_outside {A} (Q : A → Prop) (m : M W A) :
  (∀ w, Wok w → wpE m (λ a w', Wok w' ∧ Q a) E w) → safeQ Q (outside m).
Proof.
  intros Hm d Hd. specialize (Hm _ (ok_opaque _ _ Hd)). unfold outside, wpE in *.
  destruct (m (rw_opaque d)) as [[a w]|e]; [|done]. destruct Hm. split; [|done].
  destruct Hd. constructor; cbn; auto.
Qed.
Lemma safeQ_rd (Q : list Z → Prop) buf off len :
  0 ≤ off → 0 ≤ len → off + len ≤ blen buf → Q (slice off len buf) → safeQ Q (rd buf off len).
Proof. intros ??? HQ d Hd. unfold wpE. rewrite run_rd by done. done. Qed.
Lemma safeQ_wr (Q : list Z → Prop) buf off bs :
  0 ≤ off → off + blen bs ≤ blen buf → Q (put off bs buf) → safeQ Q (wr buf off bs).
Proof. intros ?? HQ d Hd. unfold wpE. rewrite run_wr by done. done. Qed.

(** A buffer of [n] bytes. *)
Definition buffer (n : Z) (buf : list Z) : Prop := blen buf = n ∧ bytes buf.

Lemma safe_circular_loop fuel base off size len pos buf n dir :
  0 ≤ len ≤ Z.of_nat fuel → 0 ≤ pos → pos + len ≤ n → 0 ≤ off < size → size ≤ 2 ^ 32 → buffer n buf →
  safeQ (λ r, buffer n r.1 ∧ is_u32 r.2) (circular_loop fuel base off size len pos buf dir).
Proof.
  revert off len pos buf.
  induction fuel as [|fuel IH]; intros off len pos buf Hlen Hpos Hn Hoff Hsize Hb; cbn [circular_loop];
    destruct (Z.ltb_spec 0 len); try lia;
    try (apply safeQ_ret; split; [done | unfold is_u32; cbn; lia]).
  set (chunk := Z.min len (size - off)). cbv zeta. assert (0 < chunk ≤ len) by (unfold chunk; lia).
  apply (safeQ_bind _ _ (buffer n)).
  - destruct Hb as [Hl Hbytes]. destruct dir.
    + eapply safeQ_bind; [apply (safeQ_rd (bytes)); [lia | lia | lia | by apply bytes_slice]|]. intros bs Hbs.
      eapply safeQ_bind; [apply (safeQ_outside (λ _, True)); intros w Hw; eapply wpE_mono; [by apply (port_write _ _ HW)|auto]|].
      intros _ _. by apply safeQ_ret.
    + eapply safeQ_bind; [apply safeQ_outside; intros w Hw; apply (port_read _ _ HW); [lia|done]|]. intros bs [Hlb Hbs].
      apply safeQ_wr; [lia | lia |]. split; [by rewrite blen_put | by apply bytes_put].
  - intros buf' Hb'. assert (u32 (off + chunk) = off + chunk ∨ size = 2 ^ 32 ∧ off + chunk = 2 ^ 32) as Hu.
    { unfold chunk in *. destruct (decide (off + Z.min len (size - off) < 2 ^ 32)).
      - left. apply u32_id. unfold is_u32. lia.
      - right. lia. }
    assert (0 ≤ (if size <=? u32 (off + chunk) then 0 else u32 (off + chunk)) < size) as Hoff'.
    { destruct Hu as [-> | [-> ->]]; [|vm_compute; done]. destruct (Z.leb_spec size (off + chunk)); lia. }
    apply IH; [lia | lia | lia | exact Hoff' | done | done].
Qed.
Lemma safe_circular_copy base off size len buf dir :
  0 ≤ len ≤ blen buf → 0 ≤ off → 0 < size ≤ 2 ^ 32 → bytes buf →
  safeQ (λ r, buffer (blen buf) r.1 ∧ is_u32 r.2) (scratch_circular_copy base off size len buf dir).
Proof.
  intros. apply safe_circular_loop; [lia | lia | lia | destruct (Z.leb_spec size off); lia | lia | done].
Qed.

Context `{P : !Peripherals W}.

Lemma safe_dma_space addr count :
  is_u32 addr → is_mem count →
  safeQ (λ r, 0 ≤ r.1 ≤ 2 ∧ 0 ≤ r.2 ∧ r.2 + count < 0x1800) (dma_space addr count).
Proof.
  unfold is_u32, is_mem, dma_space. intros.
  assert (∀ n, u32 (addr + count) < n → addr < 0x3800 → addr + count < n) as Hu.
  { intros n Hn Ha. rewrite u32_id in Hn; [done|]. unfold is_u32. lia. }
  repeat (apply safeQ_if; intros ?); try (by apply safeQ_raise);
    (apply safeQ_bind_assert; [done|]; intros Hb%Z.ltb_lt%Hu; [|lia]; apply safeQ_ret; cbn; lia).
Qed.

Lemma blen_item_bytes s v : s = 2 ∨ s = 4 → blen (item_bytes s v) = s.
Proof. intros [-> | ->]; done. Qed.
Lemma bytes_item_bytes s v : bytes (item_bytes s v).
Proof. unfold item_bytes. destruct (s =? 2); apply bytes_le_bytes. Qed.
Lemma safe_gather s space items buf n :
  s = 2 ∨ s = 4 → 0 ≤ space ≤ 2 →
  Forall (λ p, 0 ≤ p.1 ∧ p.1 + s ≤ n ∧ 0 ≤ p.2 < DSP_PERIPH_BASE) items → buffer n buf →
  safeQ (buffer n) (gather s space items buf).
Proof.
  intros Hs Hsp HI. revert buf. induction HI as [|[off addr] items (H1 & H2 & H3) HI IH]; intros buf Hb; cbn [gather].
  - by apply safeQ_ret.
  - cbn in *. eapply safeQ_bind; [by apply safe_read_ram|]. intros v Hv.
    destruct Hb as [Hl Hbytes]. eapply (safeQ_bind _ _ (buffer n)); [|intros buf' Hb'; by apply IH].
    apply safeQ_wr; [done | by rewrite blen_item_bytes, Hl |].
    split; [by rewrite blen_put | apply bytes_put; [apply bytes_item_bytes | done]].
Qed.
Lemma plain_items_ok s a n :
  0 < s → 0 ≤ a → a + n < 0x1800 →
  Forall (λ p, 0 ≤ p.1 ∧ p.1 + s ≤ n * s ∧ 0 ≤ p.2 < DSP_PERIPH_BASE) (plain_items s a n).
Proof.
  intros. apply Forall_fmap, Forall_forall. intros i Hi. apply elem_of_seqZ in Hi. cbn. nia.
Qed.
Lemma interleaved_fits n : 0 ≤ n → (n >>> 4) * ((n &&& 0xF) + 1) ≤ n.
Proof.
  intros. change 0xF with (Z.ones 4). rewrite Z.land_ones, Z.shiftr_div_pow2 by done.
  pose proof (Z.div_mod n (2 ^ 4)). pose proof (Z.mod_pos_bound n (2 ^ 4)).
  assert (0 ≤ n / 2 ^ 4) by (apply Z.div_pos; lia). nia.
Qed.
Lemma interleaved_items_ok s a b c n :
  0 < s → 0 ≤ a → a + n < 0x1800 → 0 ≤ b → 0 < c → b * c ≤ n →
  Forall (λ p, 0 ≤ p.1 ∧ p.1 + s ≤ n * s ∧ 0 ≤ p.2 < DSP_PERIPH_BASE) (interleaved_items s a b c).
Proof.
  intros. apply Forall_forall. intros p Hp. unfold interleaved_items in Hp.
  apply list_elem_of_In, in_flat_map in Hp as (i & Hi & Hp). apply in_map_iff in Hp as (ch & <- & Hch).
  apply list_elem_of_In, elem_of_seqZ in Hi, Hch. cbn.
  assert (i * c + ch + 1 ≤ b * c) by nia. assert (ch * b + i + 1 ≤ b * c) by nia.
  split_and!; nia.
Qed.

Lemma of_le_bound bs k : bytes bs → blen bs = k → k = 2 ∨ k = 4 → 0 ≤ of_le bs < 2 ^ (8 * k).
Proof. intros Hb <- _. by apply of_le_range. Qed.
Lemma safe_scatter s mask space a n buf :
  s = 2 ∨ s = 4 → 0 ≤ space ≤ 2 → 0 ≤ a → a + n < 0x1800 → is_u32 mask → buffer (n * s) buf →
  safe (scatter s mask space a n buf).
Proof.
  intros Hs Hsp Ha Hn Hm [Hl Hb]. unfold scatter.
  assert (Forall (λ i, 0 ≤ i < n) (seqZ 0 n)) as HF'.
  { apply Forall_forall. intros i Hi. apply elem_of_seqZ in Hi. lia. }
  induction HF' as [|i l Hi HF' IH]; cbn [forM]; [by apply safeQ_ret|].
  eapply (safeQ_bind _ _ ok); [|intros _ _; exact IH].
  eapply safeQ_bind.
  { apply (safeQ_rd (λ bs, bytes bs ∧ blen bs = s)); [nia | lia | nia |].
    split; [by apply bytes_slice | apply blen_slice; nia]. }
  intros bs [Hbs Hlb]. apply safe_write_ram; [done | done | lia |].
  pose proof (of_le_bound bs s Hbs Hlb Hs) as Hv. unfold item_word.
  destruct Hs as [-> | ->]; cbn [Z.eqb Pos.eqb]; [|bnd].
  change (2 ^ (8 * 2)) with (2 ^ 16) in Hv. unfold is_u32.
  apply (bound_weaken 32 24); [|lia]. apply shl_bound; [lia|lia|]. exact Hv.
Qed.

Lemma safe_send id base off size len buf :
  0 ≤ id → 0 ≤ len ≤ blen buf → is_u32 off → 0 < size ≤ 2 ^ 32 → bytes buf → safe (send id base off size len buf).
Proof.
  intros Hid Hlen Hoff Hsize Hb. unfold send, is_u32 in *.
  assert (∀ f : list Z → M W (), (∀ bs w, bytes bs → Wok w → wpE (f bs) (λ _ w', Wok w') E w) →
    safe (bs ← rd buf 0 len; outside (f bs);; mret off)) as Hout.
  { intros f Hf. eapply safeQ_bind; [apply (safeQ_rd bytes); [lia | lia | lia | by apply bytes_slice]|]. intros bs Hbs.
    eapply safeQ_bind; [apply (safeQ_outside (λ _, True)); intros w Hw; eapply wpE_mono; [by apply Hf|auto]|].
    intros _ _. apply safeQ_ret. exact Hoff. }
  repeat (apply safeQ_if; intros ?); [| | |by apply safeQ_raise].
  - apply (Hout (λ bs, fifo_write bs id)). intros. by apply (port_fifo _ _ HW).
  - eapply safeQ_bind; [apply safe_circular_copy; [done | lia | done | done]|]. intros r [_ Hr]. by apply safeQ_ret.
  - apply (Hout (λ bs, scratch_write bs _)). intros. by apply (port_write _ _ HW).
Qed.
Lemma safe_receive id base off size len buf :
  len = blen buf → is_u32 off → 0 < size ≤ 2 ^ 32 → bytes buf →
  safeQ (λ r, buffer len r.1 ∧ is_u32 r.2) (receive id base off size len buf).
Proof.
  intros -> Hoff Hsize Hb. pose proof (blen_nonneg buf). unfold receive, is_u32 in *.
  repeat (apply safeQ_if; intros ?); [| |by apply safeQ_raise].
  - apply safe_circular_copy; [lia | lia | done | done].
  - eapply safeQ_bind; [apply safeQ_outside; intros w Hw; apply (port_read _ _ HW); [done|done]|]. intros bs [Hlb Hbs].
    eapply (safeQ_bind _ _ (buffer (blen buf))); [|intros buf' Hb'; by apply safeQ_ret].
    apply safeQ_wr; [lia | lia |]. split; [by rewrite blen_put | by apply bytes_put].
Qed.

Definition node_ok (n : node) : Prop :=
  is_u32 (n_next n) ∧ is_u32 (n_control n) ∧ is_mem (n_count n) ∧ is_u32 (n_dsp_offset n) ∧
  is_u32 (n_scratch_offset n) ∧ 0 < n_scratch_size n ≤ 2 ^ 32.
Lemma safe_read_node space a : 0 ≤ space ≤ 2 → 0 ≤ a → a + 6 < 0x1800 → safeQ node_ok (read_node space a).
Proof.
  intros. unfold read_node.
  do 7 (eapply safeQ_bind; [apply safe_read_ram; [done | done | lia]|]; intros ? ?).
  apply safeQ_ret. unfold node_ok, is_mem, is_u32 in *. cbn. rewrite u32_id by (unfold is_u32; lia). lia.
Qed.
Lemma item_format_ok f s m : item_format f = Some (s, m) → (s = 2 ∨ s = 4) ∧ is_u32 m.
Proof. unfold item_format. intros. repeat case_match; simplify_eq; split; auto; bnd. Qed.
Lemma safe_dma_transfer n : node_ok n → safe (dma_transfer n).
Proof.
  intros (Hnext & Hctl & Hcount & Hoff & Hso & Hsize). unfold dma_transfer. cbv zeta.
  do 2 (apply safeQ_bind_assert; [done|intros _]).
  destruct (item_format _) as [[s mask]|] eqn:Hf; [|by apply safeQ_raise].
  apply item_format_ok in Hf as [Hs Hmask].
  eapply safeQ_bind; [by apply safe_dma_space|]. intros [space a] (Hsp & Ha & Hfit). cbn in Hsp, Ha, Hfit.
  unfold is_mem in Hcount. set (count := n_count n) in *.
  assert (buffer (count * s) (replicate (Z.to_nat (count * s)) 0)) as Hbuf.
  { split; [unfold blen; rewrite length_replicate; nia | apply bytes_replicate]. }
  apply safeQ_if; intros _.
  - assert (∀ items len, Forall (λ p, 0 ≤ p.1 ∧ p.1 + s ≤ count * s ∧ 0 ≤ p.2 < DSP_PERIPH_BASE) items →
      0 ≤ len ≤ count * s →
      safe (buf ← gather s space items (replicate (Z.to_nat (count * s)) 0);
            send ((n_control n >>> 5) &&& 0xf) (n_scratch_base n) (n_scratch_offset n) (n_scratch_size n) len buf))
      as Hgo.
    { intros items len HI Hlen. eapply safeQ_bind; [by apply (safe_gather _ _ _ _ (count * s))|].
      intros buf [Hl Hb]. apply safe_send; [apply Z.land_nonneg; by right | lia | done | done | done]. }
    destruct (truthy _).
    + pose proof (interleaved_fits count) as Hi.
      assert (0 ≤ count &&& 0xF < 2 ^ 4) by bnd.
      assert (0 ≤ count >>> 4) by (apply Z.shiftr_nonneg; lia).
      apply Hgo; [apply interleaved_items_ok; lia | nia].
    + apply Hgo; [apply plain_items_ok; lia | nia].
  - apply safeQ_bind_assert; [done|intros _].
    eapply safeQ_bind; [apply safe_receive; [symmetry; apply Hbuf | done | done | apply Hbuf]|].
    intros [buf off'] [Hb Hoff']. cbn in Hb, Hoff'.
    eapply safeQ_bind; [by apply safe_scatter|]. intros _ _. by apply safeQ_ret.
Qed.

Lemma safe_set_dma f : (∀ s, dma_ok s → dma_ok (f s)) → safe (set_dma f).
Proof. intros Hf d []. apply wpE_modify. split; [|done]. constructor; cbn; auto. Qed.
Lemma safeQ_gets_dma : safeQ dma_ok (gets dma).
Proof. intros d Hd. apply wpE_gets. split; [done|]. apply Hd. Qed.
Lemma safe_dma_block : safe dma_block.
Proof.
  unfold dma_block. eapply safeQ_bind; [apply safeQ_gets_dma|]. intros s Hs.
  eapply safeQ_bind; [apply safe_dma_space; [destruct Hs; bnd | unfold is_mem; lia]|].
  intros [space a] (Hsp & Ha & Hfit). cbn in Hsp, Ha, Hfit.
  eapply safeQ_bind; [by apply safe_read_node|]. intros n Hn.
  eapply (safeQ_bind _ _ ok).
  { apply safe_set_dma. intros t []. constructor; cbn; auto. apply Hn. }
  intros _ _. eapply (safeQ_bind _ _ ok).
  { apply safeQ_when; [done|]. intros _. apply safe_set_dma. intros t []. constructor; cbn; auto. }
  intros _ _. eapply (safeQ_bind _ _ ok); [by apply safe_dma_transfer|]. intros off Hoff.
  apply safeQ_when; [done|]. intros _. apply safe_write_ram; [done | done | lia | done].
Qed.
Lemma safe_dma_loop fuel : safe (dma_loop fuel).
Proof.
  induction fuel as [|fuel IH]; cbn [dma_loop];
    (eapply safeQ_bind; [apply safeQ_gets_dma|]; intros s Hs; apply safeQ_if; intros _; [by apply safeQ_ret|]).
  - by apply safeQ_raise.
  - eapply (safeQ_bind _ _ ok); [apply safe_dma_block|]. by intros _ _.
Qed.
Lemma safe_dma_run fuel : safe (dsp_dma_run fuel).
Proof.
  unfold dsp_dma_run. eapply safeQ_bind; [apply safeQ_gets_dma|]. intros s Hs.
  apply safeQ_if; intros _; [by apply safeQ_ret | apply safe_dma_loop].
Qed.
Lemma safe_dma_control fuel v : safe (dsp_dma_control fuel v).
Proof.
  unfold dsp_dma_control. eapply (safeQ_bind _ _ ok); [|intros _ _; apply safe_dma_run].
  repeat case_match; try (by apply safeQ_raise); apply safe_set_dma; intros s []; constructor; cbn; auto; bnd.
Qed.
End safe.

(** ** The peripherals *)

Section peripherals_safe.
Context {W : Type} (Wok : W → Prop) (E : fault → Prop) (HE : E AssertFailed) (HF : E OutOfFuel).
Context `{!DmaPort W} (HW : port_ok Wok E) (fuel : nat).

Lemma safe_read_peripheral a : safe Wok E (read_peripheral a).
Proof.
  intros d Hd. unfold read_peripheral. apply wpE_bind, wpE_gets, wpE_ret. split; [done|].
  change (is_u32 (match a with
        | 0xFFFFB3 => 0
        | 0xFFFFC5 => if eol (dma d) then interrupts d ||| INTERRUPT_DMA_EOL else interrupts d
        | 0xFFFFD4 => next_block (dma d)
        | 0xFFFFD5 => start_block (dma d)
        | 0xFFFFD6 => control (dma d)
        | 0xFFFFD7 => configuration (dma d)
        | _ => 0xababa
        end)).
  destruct Hd as [_ [] ? _ _]. repeat case_match; try done; bnd.
Qed.
Lemma safe_write_peripheral a v : is_word v → safe Wok E (write_peripheral fuel a v).
Proof.
  intros Hv. assert (is_u32 v) as Hu by (unfold is_word, is_u32 in *; lia). unfold write_peripheral.
  repeat case_match; try (by apply safeQ_ret); try (by apply safe_dma_control).
  all: try (apply safe_set_dma; intros s []; constructor; cbn; auto; done).
  - eapply (safeQ_bind _ _ ok).
    + intros d []. apply wpE_modify. split; [|done]. constructor; cbn; auto. bnd.
    + intros _ _. apply safeQ_when; [done|]. intros _. apply safe_set_dma. intros s []. constructor; cbn; auto.
  - apply safeQ_when; [done|]. intros _. apply safe_set_core. intros c []. constructor; cbn; auto.
Qed.
Lemma dsp_peripherals_safe : safe_peripherals Wok E (Peripherals0 := dsp_peripherals fuel).
Proof. split; intros; [apply safe_read_peripheral | by apply safe_write_peripheral]. Qed.

Lemma dsp_step_ok d :
  dsp_ok Wok d → (∀ w, pram (core d) !! Z.to_nat (pc (core d)) = Some w → undefined_shift w = true → E BadShift) →
  wpE (dsp_step fuel) (λ _ d', dsp_ok Wok d') E d.
Proof. intros. by apply (execute_ok Wok E HE dsp_peripherals_safe). Qed.
End peripherals_safe.
