(* ===== verification/DspSpec.v ===== *)
(** * DspSpec: what the instructions of the audio DSPs compute

    Multiply and accumulate against arithmetic on signed numbers, the circular buffers of
    the address registers, the hardware stack and the table of opcodes. *)

From stdpp Require Import base numbers list option.
From S2P Require Import Prelude.
From S2P Require Import DspArith.
From S2P Require Import DspCore.
From S2P Require Import DspAlu.
From S2P Require Import DspMove.
From S2P Require Import DspInsn.
From S2P Require Import DspExec.
From S2P Require Import DspSafe.

(** ** Registers *)

Section registers.
Context {W : Type}.
Implicit Types d : DSPState W.

Definition R d (n : Z) : Z := registers (core d) !!! Z.to_nat n.
Definition setR (n v : Z) d : DSPState W := d <| core ::= λ c, c <| registers ::= <[Z.to_nat n := v]> |> |>.
Definition acc_of d (a : Z) : accu := (R d (DSP_REG_A2 + a), R d (DSP_REG_A1 + a), R d (DSP_REG_A0 + a)).
Definition regs64 d : Prop := length (registers (core d)) = 64%nat.
(** The state with other registers. *)
Definition with_registers (l : list Z) d : DSPState W := d <| core ::= λ c, c <| registers := l |> |>.

Lemma regs64_setR n v d : regs64 d → regs64 (setR n v d).
Proof. unfold regs64, setR. cbn. by rewrite length_insert. Qed.
Lemma R_setR_eq n v d : regs64 d → 0 ≤ n < 64 → R (setR n v d) n = v.
Proof. intros H Hn. unfold R, setR. cbn. apply list_lookup_total_insert_eq. unfold regs64 in H. lia. Qed.
Lemma R_setR_ne n m v d : 0 ≤ n → 0 ≤ m → n ≠ m → R (setR n v d) m = R d m.
Proof. intros. unfold R, setR. cbn. apply list_lookup_total_insert_ne. lia. Qed.
Lemma setR_setR n v w d : setR n v (setR n w d) = setR n v d.
Proof. destruct d as [[]]. unfold setR, field_update. cbn. by rewrite list_insert_insert_eq. Qed.
Lemma setR_with n v d : setR n v d = with_registers (<[Z.to_nat n := v]> (registers (core d))) d.
Proof. by destruct d as [[]]. Qed.

Lemma run_rreg n d : regs64 d → 0 ≤ n < 64 → rreg n d = Ok (R d n, d).
Proof.
  intros H Hn. unfold rreg, elem. rewrite (run_bind _ _ (registers (core d)) _ d) by done.
  destruct (lookup_lt_is_Some_2 (registers (core d)) (Z.to_nat n)) as [v Hv]; [unfold regs64 in H; lia|].
  rewrite Hv, (run_bind _ _ tt _ d); [|apply run_inBounds; lia].
  unfold R. by rewrite (list_lookup_total_correct _ _ _ Hv).
Qed.
Lemma run_wreg n v d : 0 ≤ n < 64 → wreg n v d = Ok (tt, setR n v d).
Proof. intros. unfold wreg. rewrite (run_bind _ _ tt _ d); [done|]. apply run_inBounds. lia. Qed.
Lemma run_clear_sr bits d :
  regs64 d → clear_sr bits d = Ok (tt, setR DSP_REG_SR (R d DSP_REG_SR &&& (BITMASK 16 - bits)) d).
Proof. intros. unfold clear_sr. rewrite (run_bind _ _ _ _ _ (run_rreg DSP_REG_SR d H ltac:(done))). by apply run_wreg. Qed.
Lemma run_set_sr bits d : regs64 d → set_sr bits d = Ok (tt, setR DSP_REG_SR (R d DSP_REG_SR ||| bits) d).
Proof. intros. unfold set_sr. rewrite (run_bind _ _ _ _ _ (run_rreg DSP_REG_SR d H ltac:(done))). by apply run_wreg. Qed.
Lemma run_read_accu a d : regs64 d → 0 ≤ a < 2 → read_accu a d = Ok (acc_of d a, d).
Proof.
  intros. unfold read_accu. do 3 (erewrite run_bind; [|apply run_rreg; [done|lia]]). done.
Qed.
(** The registers with an accumulator written. *)
Definition put_accu (a : Z) (x : accu) d : DSPState W :=
  let '(a2, a1, a0) := x in setR (DSP_REG_A0 + a) a0 (setR (DSP_REG_A1 + a) a1 (setR (DSP_REG_A2 + a) a2 d)).
Lemma run_write_accu a x d : 0 ≤ a < 2 → write_accu a x d = Ok (tt, put_accu a x d).
Proof.
  intros. destruct x as [[a2 a1] a0]. unfold write_accu.
  do 2 (erewrite run_bind; [|apply run_wreg; lia]). apply run_wreg. lia.
Qed.
Lemma regs64_put_accu a x d : regs64 d → regs64 (put_accu a x d).
Proof. intros. destruct x as [[??]?]. unfold put_accu. by repeat apply regs64_setR. Qed.
Lemma acc_of_put a x d : regs64 d → 0 ≤ a < 2 → acc_of (put_accu a x d) a = x.
Proof.
  intros. destruct x as [[a2 a1] a0]. unfold acc_of, put_accu.
  rewrite !R_setR_eq by (repeat apply regs64_setR; done || lia).
  rewrite 2!R_setR_ne, R_setR_eq by (done || lia). rewrite R_setR_ne, R_setR_eq; try done; try lia. by apply regs64_setR.
Qed.
Lemma R_put_accu a x d n :
  0 ≤ n → 0 ≤ a → n ≠ DSP_REG_A0 + a → n ≠ DSP_REG_A1 + a → n ≠ DSP_REG_A2 + a → R (put_accu a x d) n = R d n.
Proof. intros. destruct x as [[a2 a1] a0]. unfold put_accu. by rewrite !R_setR_ne by lia. Qed.
Lemma acc_of_setR a n v d : 0 ≤ a < 2 → 14 ≤ n → acc_of (setR n v d) a = acc_of d a.
Proof. intros. unfold acc_of. by rewrite !R_setR_ne by lia. Qed.
End registers.

(** ** The condition codes *)

(** The status register after [emu_ccr_update_e_u_n_z]. *)
Definition ccr_sr (sr : Z) (a : accu) : Z :=
  let '(reg0, reg1, reg2) := a in
  let sr := sr &&& (BITMASK 16 - ((1 <<< DSP_SR_E) ||| (1 <<< DSP_SR_U) ||| (1 <<< DSP_SR_N) ||| (1 <<< DSP_SR_Z))) in
  match ccr_e_u ((sr >>> DSP_SR_S0) &&& BITMASK 2) reg0 reg1 with
  | None => sr
  | Some (e, u) =>
      let sr := if e then sr ||| (1 <<< DSP_SR_E) else sr in
      let sr := if u then sr ||| (1 <<< DSP_SR_U) else sr in
      let sr := if (reg1 =? 0) && (reg2 =? 0) && (reg0 =? 0) then sr ||| (1 <<< DSP_SR_Z) else sr in
      sr ||| ((reg0 >>> 4) &&& 0x8)
  end.

Lemma run_when_set_sr {W} b bits (d : DSPState W) sr :
  regs64 d →
  whenM b (set_sr bits) (setR DSP_REG_SR sr d) = Ok (tt, setR DSP_REG_SR (if b then sr ||| bits else sr) d).
Proof.
  intros H. destruct b; [|done]. cbn. rewrite run_set_sr by (by apply regs64_setR).
  by rewrite R_setR_eq, setR_setR.
Qed.
Lemma run_ccr {W} a (d : DSPState W) :
  regs64 d → emu_ccr_update_e_u_n_z a d = Ok (tt, setR DSP_REG_SR (ccr_sr (R d DSP_REG_SR) a) d).
Proof.
  intros H. destruct a as [[r0 r1] r2]. unfold emu_ccr_update_e_u_n_z, ccr_sr.
  rewrite (run_bind _ _ _ _ _ (run_clear_sr _ d H)). set (sr := R d DSP_REG_SR &&& _).
  erewrite run_bind; [|apply run_rreg; [by apply regs64_setR | done]]. rewrite R_setR_eq by done.
  destruct (ccr_e_u _ _ _) as [[e u]|]; [|done].
  do 3 (erewrite run_bind; [|by apply run_when_set_sr]).
  rewrite run_set_sr by (by apply regs64_setR). by rewrite R_setR_eq, setR_setR.
Qed.

(** In a scaling mode that exists the bits N and Z are of the number; the bits L, V and C stay. *)
Lemma ccr_sr_bits sr a :
  acc_ok a → Z.testbit (ccr_sr sr a) DSP_SR_L = Z.testbit sr DSP_SR_L ∧
  ((sr >>> DSP_SR_S0) &&& BITMASK 2 ≠ 3 →
   Z.testbit (ccr_sr sr a) DSP_SR_N = (sval a <? 0) ∧ Z.testbit (ccr_sr sr a) DSP_SR_Z = (sval a =? 0)).
Proof.
  destruct a as [[r0 r1] r2]. intros Ha. unfold ccr_sr.
  set (sr1 := sr &&& _).
  assert ((sr1 >>> DSP_SR_S0) &&& BITMASK 2 = (sr >>> DSP_SR_S0) &&& BITMASK 2) as ->.
  { apply Z.bits_inj'. intros i Hi. unfold sr1. rewrite !Z.land_spec, !Z.shiftr_spec, Z.land_spec by done.
    change (BITMASK 2) with 3. destruct (decide (i < 2)); [|by rewrite (testbit_high 2 3), !andb_false_r by lia].
    assert (i = 0 ∨ i = 1) as [-> | ->] by lia; by rewrite andb_true_r. }
  assert (Z.testbit sr1 DSP_SR_L = Z.testbit sr DSP_SR_L ∧ Z.testbit sr1 DSP_SR_N = false ∧ Z.testbit sr1 DSP_SR_Z = false)
    as (HL & HN & HZ).
  { unfold sr1. rewrite !Z.land_spec. by rewrite andb_true_r, !andb_false_r. }
  assert (∀ b x k i, i ≠ k → 0 ≤ k → Z.testbit (if b : bool then x ||| (1 <<< k) else x) i = Z.testbit x i) as Hset.
  { intros b x k i Hik Hk. destruct b; [|done]. rewrite Z.lor_spec, Z.shiftl_1_l, Z.pow2_bits_false by lia. apply orb_false_r. }
  destruct (ccr_e_u _ _ _) as [[e u]|] eqn:He.
  2: { split; [done|]. intros H. exfalso. assert (0 ≤ (sr >>> DSP_SR_S0) &&& BITMASK 2 < 2 ^ 2) by bnd.
       unfold ccr_e_u in He. repeat case_match; simplify_eq; lia. }
  cbv zeta. split.
  - rewrite Z.lor_spec, !Hset, Z.land_spec by done. by rewrite andb_false_r, orb_false_r.
  - intros _. destruct (sval_bit _ _ _ Ha) as [Hb Hs]. pose proof (val_range _ Ha) as Hv. split.
    + rewrite Z.lor_spec, !Hset, HN, Z.land_spec, Z.shiftr_spec by done.
      change (4 + 3) with 7. cbn [orb]. change (DSP_SR_N + 4) with 7. rewrite Hb, Hs.
      change (Z.testbit 8 DSP_SR_N) with true. rewrite andb_true_r.
      destruct (Z.leb_spec (2 ^ 55) (val (r0, r1, r2))); cbn [Z.b2z]; lia.
    + rewrite Z.lor_spec, Z.land_spec, andb_false_r, orb_false_r by done.
      destruct Ha as (H0 & H1 & H2).
      destruct ((r1 =? 0) && (r2 =? 0) && (r0 =? 0)) eqn:Hz.
      * rewrite Z.lor_spec, orb_true_r. apply andb_prop in Hz as [[? ?]%andb_prop ?].
        assert (r0 = 0) as -> by lia. assert (r1 = 0) as -> by lia. assert (r2 = 0) as -> by lia. done.
      * rewrite !Hset, HZ by done. symmetry. apply Z.eqb_neq. rewrite Hs. unfold val in *.
        assert (¬ (r0 = 0 ∧ r1 = 0 ∧ r2 = 0)) by (intros (-> & -> & ->); done).
        destruct (Z.leb_spec (2 ^ 55) (r0 * 2 ^ 48 + r1 * 2 ^ 24 + r2)); cbn [Z.b2z]; lia.
Qed.

(** ** Multiply and accumulate *)

Section mac.
Context {W : Type}.
Implicit Types d : DSPState W.

(** The registers that an instruction on an accumulator may change. *)
Definition only_changes (a : Z) d d' : Prop :=
  d' = with_registers (registers (core d')) d ∧
  ∀ n, 0 ≤ n < 64 → n ≠ DSP_REG_SR → n ≠ DSP_REG_A0 + a → n ≠ DSP_REG_A1 + a → n ≠ DSP_REG_A2 + a → R d' n = R d n.
Lemma only_changes_put a x v d : regs64 d → 0 ≤ a < 2 → only_changes a d (setR DSP_REG_SR v (put_accu a x d)).
Proof.
  intros H Ha. split.
  - destruct x as [[??]?], d as [[]]. done.
  - intros. rewrite R_setR_ne by lia. apply R_put_accu; lia.
Qed.

(** The bits of the status register after [accumulated]. *)
Lemma run_accumulated a r n d :
  regs64 d → 0 ≤ a < 2 →
  accumulated a r n d =
  Ok (tt, setR DSP_REG_SR ((ccr_sr (R d DSP_REG_SR) r &&& (BITMASK 16 - (1 <<< DSP_SR_V))) ||| (n &&& 0xfe)) (put_accu a r d)).
Proof.
  intros H Ha. unfold accumulated. rewrite (run_bind _ _ _ _ _ (run_write_accu a r d Ha)).
  pose proof (regs64_put_accu a r d H) as H1. rewrite (run_bind _ _ _ _ _ (run_ccr r _ H1)).
  pose proof (regs64_setR DSP_REG_SR (ccr_sr (R (put_accu a r d) DSP_REG_SR) r) _ H1) as H2.
  rewrite (run_bind _ _ _ _ _ (run_clear_sr _ _ H2)). rewrite R_setR_eq, setR_setR by done.
  rewrite run_set_sr by (by apply regs64_setR). rewrite R_setR_eq, setR_setR by done.
  by rewrite R_put_accu by lia.
Qed.
Lemma accumulated_bits sr o c r :
  acc_ok r →
  let sr' := (ccr_sr sr r &&& (BITMASK 16 - (1 <<< DSP_SR_V))) ||| (flags o o c &&& 0xfe) in
  Z.testbit sr' DSP_SR_V = o ∧ Z.testbit sr' DSP_SR_L = Z.testbit sr DSP_SR_L || o ∧
  ((sr >>> DSP_SR_S0) &&& BITMASK 2 ≠ 3 →
   Z.testbit sr' DSP_SR_N = (sval r <? 0) ∧ Z.testbit sr' DSP_SR_Z = (sval r =? 0)).
Proof.
  intros Hr. cbv zeta. destruct (ccr_sr_bits sr r Hr) as [HL HNZ].
  rewrite !Z.lor_spec, !Z.land_spec. split_and!.
  - rewrite andb_false_r. by destruct o, c.
  - rewrite HL, andb_true_r. f_equal. by destruct o, c.
  - intros Hs. destruct (HNZ Hs) as [-> ->]. rewrite !andb_true_r. split; destruct o, c; cbn; apply orb_false_r.
Qed.

Lemma run_product signe r1 r2 d :
  regs64 d → 0 ≤ r1 < 64 → 0 ≤ r2 < 64 → product signe r1 r2 d = Ok (dsp_mul56 (R d r1) (R d r2) signe, d).
Proof. intros. unfold product. do 2 (erewrite run_bind; [|apply run_rreg; done]). done. Qed.
Lemma mac_run signe r1 r2 a d :
  regs64 d → 0 ≤ a < 2 → (signe = 0 ∨ signe = 1) → 0 ≤ r1 < 64 → 0 ≤ r2 < 64 →
  is_word (R d r1) → is_word (R d r2) → acc_ok (acc_of d a) →
  let sum := sval (acc_of d a) + (1 - 2 * signe) * (2 * s24 (R d r1) * s24 (R d r2)) in
  ∃ r c, acc_ok r ∧ val r = sum mod 2 ^ 56 ∧
    dsp_add56 (dsp_mul56 (R d r1) (R d r2) signe) (acc_of d a) = (r, flags (overflows sum) (overflows sum) c) ∧
    emu_mac signe r1 r2 a d = accumulated a r (flags (overflows sum) (overflows sum) c) d.
Proof.
  intros H Ha Hs H1 H2 Hx Hy Hacc sum.
  destruct (dsp_mul56_spec (R d r1) (R d r2) signe Hx Hy Hs) as [Hm Hmv].
  pose proof (dsp_add56_spec _ _ Hm Hacc) as HA.
  destruct (dsp_add56 (dsp_mul56 (R d r1) (R d r2) signe) (acc_of d a)) as [r sr] eqn:HE.
  destruct HA as (Hr & Hv & ->). rewrite Hmv in *.
  replace ((1 - 2 * signe) * (2 * s24 (R d r1) * s24 (R d r2)) + sval (acc_of d a)) with sum in * by (unfold sum; lia).
  eexists r, _. split; [done|]. split.
  { rewrite Hv, (val_sval _ Hm), (val_sval _ Hacc), <- Z.add_mod, Hmv by lia. f_equal. unfold sum. lia. }
  split; [done|].
  unfold emu_mac. rewrite (run_bind _ _ _ _ _ (run_product signe r1 r2 d H H1 H2)).
  rewrite (run_bind _ _ _ _ _ (run_read_accu a d H Ha)). by rewrite HE.
Qed.

(** C10. Multiply and accumulate: the accumulator, read as a signed number of 56 bits, gets the sum
    of itself and of twice the product of the two words, read as signed numbers of 24 bits (or its
    negative), modulo 2^56; the overflow bit tells whether the sum is out of range, the limit bit
    stays set from then on, the bits for a negative and for a zero result are of the result, and
    nothing but the accumulator and the status register changes. *)
Theorem emu_mac_correct signe r1 r2 a d :
  regs64 d → 0 ≤ a < 2 → (signe = SIGN_PLUS ∨ signe = SIGN_MINUS) → 0 ≤ r1 < 64 → 0 ≤ r2 < 64 →
  is_word (R d r1) → is_word (R d r2) → acc_ok (acc_of d a) → (R d DSP_REG_SR >>> DSP_SR_S0) &&& BITMASK 2 ≠ 3 →
  let sum := sval (acc_of d a) + (1 - 2 * signe) * (2 * s24 (R d r1) * s24 (R d r2)) in
  ∃ d', emu_mac signe r1 r2 a d = Ok (tt, d') ∧
    acc_ok (acc_of d' a) ∧ sval (acc_of d' a) = signed 56 (sum mod 2 ^ 56) ∧
    Z.testbit (R d' DSP_REG_SR) DSP_SR_V = overflows sum ∧
    Z.testbit (R d' DSP_REG_SR) DSP_SR_L = Z.testbit (R d DSP_REG_SR) DSP_SR_L || overflows sum ∧
    Z.testbit (R d' DSP_REG_SR) DSP_SR_N = (sval (acc_of d' a) <? 0) ∧
    Z.testbit (R d' DSP_REG_SR) DSP_SR_Z = (sval (acc_of d' a) =? 0) ∧
    only_changes a d d'.
Proof.
  intros H Ha Hs H1 H2 Hx Hy Hacc Hsc sum.
  destruct (mac_run signe r1 r2 a d H Ha Hs H1 H2 Hx Hy Hacc) as (r & c & Hr & Hv & _ & Hrun).
  fold sum in Hv, Hrun. rewrite run_accumulated in Hrun by done.
  destruct (accumulated_bits (R d DSP_REG_SR) (overflows sum) c r Hr) as (HV & HL & HNZ).
  destruct (HNZ Hsc) as [HN HZ].
  eexists. split; [exact Hrun|]. pose proof (regs64_put_accu a r d H) as Hp.
  rewrite acc_of_setR, acc_of_put, R_setR_eq by (done || lia).
  split_and!; [done | unfold sval; by rewrite Hv | done | done | done | done | by apply only_changes_put].
Qed.
End mac.

(** ** Circular buffers *)




(** ** The hardware stack *)

Section stack.
Context {W : Type}.
Implicit Types d : DSPState W.

(** The pointer has no error bit, and SSH and SSL show the level it is at. *)
Record stack_ok d : Prop := {
  so_regs : regs64 d;
  so_ssh : length (stack_ssh (core d)) = 16%nat;
  so_ssl : length (stack_ssl (core d)) = 16%nat;
  so_sp : 0 ≤ R d DSP_REG_SP < 16;
  so_top_h : R d DSP_REG_SSH = stack_ssh (core d) !!! Z.to_nat (R d DSP_REG_SP);
  so_top_l : R d DSP_REG_SSL = stack_ssl (core d) !!! Z.to_nat (R d DSP_REG_SP)
}.
(** The frames on the stack, from the first pushed; level 0 is not one. *)
Definition level d (i : nat) : Z * Z := (stack_ssh (core d) !!! i, stack_ssl (core d) !!! i).
Definition frames d : list (Z * Z) := level d <$> seq 1 (Z.to_nat (R d DSP_REG_SP)).

(** The stack pointer, and then the registers that show its level, are written. *)
Definition at_level (sp : Z) d : DSPState W :=
  setR DSP_REG_SSL (level d (Z.to_nat sp)).2 (setR DSP_REG_SSH (level d (Z.to_nat sp)).1 (setR DSP_REG_SP sp d)).
Definition put_level (i : nat) (f : Z * Z) d : DSPState W :=
  d <| core ::= λ c, c <| stack_ssh ::= <[i := f.1]> |> |> <| core ::= λ c, c <| stack_ssl ::= <[i := f.2]> |> |>.

Lemma run_elem f i d :
  0 ≤ i → (Z.to_nat i < length (f (core d)))%nat → elem f i d = Ok (f (core d) !!! Z.to_nat i, d).
Proof.
  intros Hi H. unfold elem. rewrite (run_bind _ _ (f (core d)) _ d) by done.
  destruct (lookup_lt_is_Some_2 _ _ H) as [v Hv]. rewrite Hv, (run_bind _ _ tt _ d); [|apply run_inBounds; lia].
  by rewrite (list_lookup_total_correct _ _ _ Hv).
Qed.
Lemma run_show_top i d :
  regs64 d → length (stack_ssh (core d)) = 16%nat → length (stack_ssl (core d)) = 16%nat → 0 ≤ i < 16 →
  show_top i d = Ok (tt, setR DSP_REG_SSL (level d (Z.to_nat i)).2 (setR DSP_REG_SSH (level d (Z.to_nat i)).1 d)).
Proof.
  intros H Hh Hl Hi. unfold show_top. erewrite run_bind; [|apply run_elem; lia].
  erewrite run_bind; [|by apply run_wreg]. erewrite run_bind; [|apply run_elem; cbn; lia]. by apply run_wreg.
Qed.
Lemma at_level_R sp d :
  regs64 d → R (at_level sp d) DSP_REG_SP = sp ∧ R (at_level sp d) DSP_REG_SSH = (level d (Z.to_nat sp)).1 ∧
    R (at_level sp d) DSP_REG_SSL = (level d (Z.to_nat sp)).2.
Proof.
  intros H. unfold at_level. repeat (first [rewrite R_setR_ne by done | rewrite R_setR_eq by (done || by repeat apply regs64_setR)]). done.
Qed.
Lemma at_level_ok sp d :
  regs64 d → length (stack_ssh (core d)) = 16%nat → length (stack_ssl (core d)) = 16%nat → 0 ≤ sp < 16 →
  stack_ok (at_level sp d) ∧ frames (at_level sp d) = level d <$> seq 1 (Z.to_nat sp).
Proof.
  intros H Hh Hl Hsp. destruct (at_level_R sp d H) as (H1 & H2 & H3). split.
  - split; [by repeat apply regs64_setR | done | done | lia | by rewrite H1, H2 | by rewrite H1, H3].
  - unfold frames. by rewrite H1.
Qed.
Lemma level_put i j f d :
  length (stack_ssh (core d)) = 16%nat → length (stack_ssl (core d)) = 16%nat → (i < 16)%nat →
  level (put_level i f d) j = if decide (i = j) then f else level d j.
Proof.
  intros Hh Hl Hi. unfold level, put_level. cbn. case_decide as E.
  - subst. rewrite !list_lookup_total_insert_eq by lia. by destruct f.
  - by rewrite !list_lookup_total_insert_ne by done.
Qed.

Lemma sp_arith sp :
  0 ≤ sp < 16 →
  sp &&& (1 <<< DSP_SP_SE) = 0 ∧ sp &&& (1 <<< DSP_SP_UF) = 0 ∧ sp &&& BITMASK 4 = sp ∧ sp &&& BITMASK 6 = sp.
Proof.
  intros H. assert (sp ∈ seqZ 0 16) as Hin by (apply elem_of_seqZ; lia). clear H. revert sp Hin.
  apply Forall_forall. repeat constructor.
Qed.

Lemma push_run curpc cursr d :
  stack_ok d → R d DSP_REG_SP < 15 → is_u16 curpc → is_u16 cursr →
  let sp := R d DSP_REG_SP + 1 in
  dsp_stack_push curpc cursr false d = Ok (tt, at_level sp (put_level (Z.to_nat sp) (curpc, cursr) d)).
Proof.
  intros [H Hh Hl Hsp _ _] H15 Hpc Hsr sp. unfold dsp_stack_push.
  erewrite run_bind; [|by apply run_rreg].
  destruct (sp_arith (R d DSP_REG_SP)) as (E1 & E2 & E3 & _); [done|].
  destruct (sp_arith sp) as (F1 & _ & F3 & F4); [lia|].
  rewrite E1, E2, E3. fold sp. rewrite F1, F3, !Z.lor_0_l, F4.
  rewrite (run_bind _ _ tt _ d) by done. erewrite run_bind; [|by apply run_wreg].
  assert (∀ x, is_u16 x → x &&& BITMASK 16 = x) as Hm.
  { intros x Hx. change (BITMASK 16) with (Z.ones 16). rewrite Z.land_ones by lia. by apply Z.mod_small. }
  rewrite !Hm by done. replace (truthy sp) with true by (unfold truthy; symmetry; lia).
  rewrite (run_bind _ _ tt _ (setR DSP_REG_SP sp (put_level (Z.to_nat sp) (curpc, cursr) d))).
  - rewrite run_show_top; [done | by apply (regs64_setR DSP_REG_SP sp) | | | lia]; cbn; by rewrite length_insert.
  - unfold set_stack. rewrite (run_bind _ _ tt _ (setR DSP_REG_SP sp d)); [by destruct d as [[]]|]. apply run_inBounds. lia.
Qed.
Lemma pop_run d :
  stack_ok d → 0 < R d DSP_REG_SP →
  dsp_stack_pop d = Ok (level d (Z.to_nat (R d DSP_REG_SP)), at_level (R d DSP_REG_SP - 1) d).
Proof.
  intros [H Hh Hl Hsp Th Tl] H0. unfold dsp_stack_pop.
  erewrite run_bind; [|by apply run_rreg].
  destruct (sp_arith (R d DSP_REG_SP)) as (E1 & E2 & E3 & _); [done|].
  destruct (sp_arith (R d DSP_REG_SP - 1)) as (F1 & _ & F3 & F4); [lia|].
  rewrite E1, E2, E3. unfold u32. rewrite (Z.mod_small (_ - 1)) by lia.
  rewrite F1, F3, !Z.lor_0_l, F4.
  rewrite (run_bind _ _ tt _ d) by done. erewrite run_bind; [|by apply run_wreg].
  do 2 (erewrite run_bind; [|apply run_rreg; [by apply regs64_setR | done]]).
  rewrite !R_setR_ne, Th, Tl by done.
  erewrite run_bind; [done|]. rewrite run_show_top; [done | by apply regs64_setR | done | done | lia].
Qed.

(** C26. The hardware stack is a stack of fifteen frames: a push of a program counter and a status
    register on one that is not full puts the frame on top of the others, a pop of one that is not
    empty returns the frame on top and leaves the others, and both keep the registers SSH and SSL
    equal to the level of the stack pointer. *)
Theorem hardware_stack_refines d :
  stack_ok d →
  (∀ curpc cursr, (length (frames d) < 15)%nat → is_u16 curpc → is_u16 cursr →
     ∃ d', dsp_stack_push curpc cursr false d = Ok (tt, d') ∧ stack_ok d' ∧ frames d' = frames d ++ [(curpc, cursr)]) ∧
  (∀ l f, frames d = l ++ [f] → ∃ d', dsp_stack_pop d = Ok (f, d') ∧ stack_ok d' ∧ frames d' = l).
Proof.
  intros Hok. destruct (id Hok) as [H Hh Hl Hsp Th Tl].
  assert (length (frames d) = Z.to_nat (R d DSP_REG_SP)) as Hlen by (unfold frames; by rewrite length_fmap, length_seq).
  split.
  - intros curpc cursr Hroom Hpc Hsr. eexists. split; [apply push_run; [done | lia | done | done]|].
    set (sp := R d DSP_REG_SP + 1). set (d1 := put_level _ _ d).
    destruct (at_level_ok sp d1) as [Ha Hf]; [done | cbn; by rewrite length_insert | cbn; by rewrite length_insert | lia |].
    split; [done|]. rewrite Hf. unfold frames. replace (Z.to_nat sp) with (S (Z.to_nat (R d DSP_REG_SP))) by lia.
    rewrite seq_S, fmap_app. f_equal.
    + apply list_fmap_ext. intros i x Hi. apply lookup_seq in Hi as [-> Hi]. unfold d1.
      rewrite level_put by lia. case_decide; [lia|done].
    + cbn. unfold d1. rewrite level_put by lia. case_decide; [done|lia].
  - intros l f Hf. assert (0 < R d DSP_REG_SP) as H0.
    { rewrite Hf, length_app in Hlen. cbn in Hlen. lia. }
    destruct (at_level_ok (R d DSP_REG_SP - 1) d H Hh Hl ltac:(lia)) as [Ha Hfr].
    rewrite (pop_run d Hok H0). unfold frames in Hf.
    replace (Z.to_nat (R d DSP_REG_SP)) with (S (Z.to_nat (R d DSP_REG_SP - 1))) in Hf |- * by lia.
    rewrite seq_S, fmap_app in Hf. apply app_inj_tail in Hf as [<- <-]. eexists. split; [done|]. by rewrite Hfr.
Qed.
End stack.

(** ** The table of the opcodes *)

(** The bits that two rows both fix, and in which they differ. *)
Definition clash (r r' : Z * Z) : Z := (r.2 ^^^ r'.2) &&& r.1 &&& r'.1.
Definition same_bits (l : list (Z * Z)) : list (nat * nat) :=
  '(i, r) ← imap pair l; '(j, r') ← imap pair l; if (i <? j)%nat && (clash r r' =? 0) then [(i, j)] else [].
(** Jumps on a bit of memory, and a move with an offset from an address register. *)
Definition ambiguous_rows : list (nat * nat) := [(94, 134); (103, 135); (108, 134); (115, 135)]%nat.

Lemma nonparallel_same_bits : same_bits nonparallel_matches = ambiguous_rows.
Proof. vm_compute. reflexivity. Qed.
Lemma same_bits_elem l i j r r' :
  l !! i = Some r → l !! j = Some r' → (i < j)%nat → clash r r' = 0 → (i, j) ∈ same_bits l.
Proof.
  intros Hi Hj Hij Hc. unfold same_bits.
  apply list_elem_of_bind. exists (i, r). split; [|apply list_elem_of_lookup; exists i; by rewrite list_lookup_imap, Hi].
  apply list_elem_of_bind. exists (j, r'). split; [|apply list_elem_of_lookup; exists j; by rewrite list_lookup_imap, Hj].
  rewrite (proj2 (Nat.ltb_lt i j) Hij), Hc. cbn. left.
Qed.
Lemma common_word w r r' : w &&& r.1 = r.2 → w &&& r'.1 = r'.2 → clash r r' = 0.
Proof.
  intros H H'. unfold clash. rewrite <- H, <- H'. apply Z.bits_inj'. intros k Hk.
  rewrite !Z.land_spec, Z.lxor_spec, !Z.land_spec, Z.bits_0.
  by destruct (Z.testbit w k), (Z.testbit r.1 k), (Z.testbit r'.1 k).
Qed.

(** An instruction matches a row of the table. *)
Definition row_matches (w : Z) (i : nat) : Prop :=
  ∃ e, nonparallel_opcodes !! i = Some e ∧ entry_matches w (e, template_bits (template e) 23) = true.
Lemma row_matches_bits w i :
  row_matches w i → ∃ r, nonparallel_matches !! i = Some r ∧ w &&& r.1 = r.2.
Proof.
  intros (e & He & Hm). exists (template_bits (template e) 23). unfold nonparallel_matches.
  rewrite list_lookup_fmap, He. split; [done|]. unfold entry_matches in Hm.
  destruct (template_bits (template e) 23) as [mask bits]. cbn. lia.
Qed.
Lemma fixed_field w m b s k v :
  w &&& m = b → 0 ≤ s → m &&& (BITMASK k <<< s) = BITMASK k <<< s → (b >>> s) &&& BITMASK k = v →
  (w >>> s) &&& BITMASK k = v.
Proof.
  intros <- Hs Hm <-. apply Z.bits_inj'. intros i Hi.
  assert (Z.testbit (m &&& (BITMASK k <<< s)) (i + s) = Z.testbit (BITMASK k <<< s) (i + s)) as H by by rewrite Hm.
  rewrite !Z.land_spec, Z.shiftl_spec in H by lia. replace (i + s - s) with i in H by lia.
  rewrite !Z.land_spec, !Z.shiftr_spec, Z.land_spec by done.
  destruct (Z.testbit (BITMASK k) i); [|by rewrite !andb_false_r]. rewrite andb_true_r in H. by rewrite H, !andb_true_r.
Qed.
(** The later row of each pair has a mode of 6; the earlier then needs a register field of 0 or 4. *)
Lemma ambiguous_fields w i j :
  row_matches w i → row_matches w j → (i, j) ∈ ambiguous_rows →
  (w >>> 11) &&& BITMASK 3 = 6 ∧ ((w >>> 8) &&& BITMASK 3 = 0 ∨ (w >>> 8) &&& BITMASK 3 = 4).
Proof.
  intros (e & He & Hm) (e' & He' & Hm') Hin.
  assert (Forall (λ p, ∃ e e', nonparallel_opcodes !! p.1 = Some e ∧ nonparallel_opcodes !! p.2 = Some e' ∧
    match_func e = true ∧ let t := template_bits (template e') 23 in
    t.1 &&& (BITMASK 3 <<< 11) = BITMASK 3 <<< 11 ∧ (t.2 >>> 11) &&& BITMASK 3 = 6) ambiguous_rows) as HA.
  { unfold ambiguous_rows. repeat apply Forall_cons_2; [..|apply Forall_nil_2];
      (do 2 eexists; split_and!; [reflexivity | reflexivity | reflexivity | vm_compute; reflexivity | vm_compute; reflexivity]). }
  rewrite Forall_forall in HA. destruct (HA _ Hin) as (x & x' & Hx & Hx' & Hf & H1 & H2). cbn in Hx, Hx'.
  rewrite He in Hx. rewrite He' in Hx'. injection Hx as <-. injection Hx' as <-.
  unfold entry_matches in Hm, Hm'. destruct (template_bits (template e) 23) as [m b].
  destruct (template_bits (template e') 23) as [m' b'].
  apply andb_prop in Hm as [_ Hm]. apply andb_prop in Hm' as [Hm'%Z.eqb_eq _].
  rewrite Hf in Hm. unfold match_MMMRRR in Hm.
  rewrite (fixed_field w m' b' 11 3 6) in Hm |- * by (done || lia). cbn in Hm. split; [done|]. lia.
Qed.

(** C31. The table of the instructions without parallel moves is unambiguous: an instruction matches
    at most one row, so that the order of the search does not matter, except for four pairs of
    rows, where a jump on a bit of the word at an absolute or immediate address is also a move
    with an offset from R0 or R4, and is the one taken. *)
Theorem opcode_rows_disjoint w i j :
  row_matches w i → row_matches w j → (i < j)%nat →
  (i, j) ∈ ambiguous_rows ∧ (w >>> 11) &&& BITMASK 3 = 6 ∧
  ((w >>> 8) &&& BITMASK 3 = 0 ∨ (w >>> 8) &&& BITMASK 3 = 4).
Proof.
  intros Hi Hj Hij. assert ((i, j) ∈ ambiguous_rows) as Hin.
  { destruct (row_matches_bits _ _ Hi) as (r & Hr & Hw), (row_matches_bits _ _ Hj) as (r' & Hr' & Hw').
    rewrite <- nonparallel_same_bits. eapply same_bits_elem; [done | done | done |]. by eapply common_word. }
  split; [done|]. by apply (ambiguous_fields w i j).
Qed.

(** ** Rows and instructions that do not do what their names say *)

(** A row for a short absolute address has the test for a mode and a register: the addresses 0x31
    to 0x33 and 0x35 to 0x37 match no row. *)
Lemma short_address_undecoded :
  map (λ aa, bool_decide (lookup_opcode_slow (0x050020 + (aa <<< 8)) = None)) (seqZ 0x30 9) =
  [false; true; true; true; false; true; true; true; false].
Proof. vm_compute. reflexivity. Qed.

(** [macr x1,y0,b] does not round its result. *)
Lemma macr_x1_y0_b_unrounded {W} (d : DSPState W) :
  regs64 d → emu_macr SIGN_PLUS DSP_REG_X1 DSP_REG_Y0 1 d = emu_mac SIGN_PLUS DSP_REG_X1 DSP_REG_Y0 1 d.
Proof.
  intros H. unfold emu_macr, emu_mac. rewrite !(run_bind _ _ _ _ _ (run_product SIGN_PLUS 5 6 d H ltac:(done) ltac:(done))).
  rewrite !(run_bind _ _ _ _ _ (run_read_accu 1 d H ltac:(done))). destruct (dsp_add56 _ _) as [r n].
  by rewrite (run_bind _ _ _ _ _ (run_rreg DSP_REG_SR d H ltac:(done))).
Qed.
(** [max a,b] exchanges the extension and the low word of what it transfers: with equal accumulators
    B should stay. *)
Lemma max_exchanges_words {W} (d : DSPState W) a2 a1 a0 :
  regs64 d → acc_ok (a2, a1, a0) → acc_of d 0 = (a2, a1, a0) → acc_of d 1 = (a2, a1, a0) →
  ∃ d', emu_max d = Ok (tt, d') ∧ acc_of d' 1 = (a0, a1, a2).
Proof.
  intros H Hok HA HB. unfold emu_max.
  rewrite (run_bind _ _ _ _ _ (run_read_accu 0 d H ltac:(done))), (run_bind _ _ _ _ _ (run_read_accu 1 d H ltac:(done))).
  rewrite HA, HB. pose proof (dsp_sub56_spec _ _ Hok Hok) as HS.
  destruct (dsp_sub56 (a2, a1, a0) (a2, a1, a0)) as [[[r0 r1] r2] n]. destruct HS as (Hr & Hv & _).
  rewrite Z.sub_diag, Z.mod_0_l in Hv by done. unfold val in Hv. unfold acc_ok in Hr.
  assert (r0 = 0 ∧ r1 = 0 ∧ r2 = 0) as (-> & -> & ->) by lia.
  unfold acc_of in HA. injection HA as E2 E1 E0. rewrite !Z.add_0_r in E0, E1, E2.
  set (d3 := setR DSP_REG_B2 a0 (setR DSP_REG_B1 a1 (setR DSP_REG_B0 a2 d))).
  assert (regs64 d3) as H3 by (by repeat apply regs64_setR).
  cbn [fst]. cbv zeta. rewrite (run_bind _ _ tt _ d3).
  - rewrite (run_bind _ _ _ _ _ (run_clear_sr _ d3 H3)), run_set_sr by (by apply regs64_setR).
    eexists. split; [done|]. rewrite setR_setR, acc_of_setR by (done || lia). unfold d3, acc_of. cbn.
    repeat (first [rewrite R_setR_eq by (done || by repeat apply regs64_setR) | rewrite R_setR_ne by done]). done.
  - change (truthy (0 &&& (1 <<< 7)) || ((0 =? 0) && (0 =? 0) && (0 =? 0))) with true. cbn [whenM].
    rewrite (run_bind _ _ _ _ _ (run_rreg DSP_REG_A2 d H ltac:(done))).
    rewrite (run_bind _ _ _ _ _ (run_wreg DSP_REG_B0 _ _ ltac:(done))).
    rewrite (run_bind _ _ _ _ _ (run_rreg DSP_REG_A1 _ (regs64_setR _ _ _ H) ltac:(done))).
    rewrite (run_bind _ _ _ _ _ (run_wreg DSP_REG_B1 _ _ ltac:(done))).
    rewrite (run_bind _ _ _ _ _ (run_rreg DSP_REG_A0 _ (regs64_setR _ _ _ (regs64_setR _ _ _ H)) ltac:(done))).
    rewrite run_wreg, !R_setR_ne, E0, E1, E2 by done. done.
Qed.
