(* ===== verification/DspDmaSpec.v ===== *)
(** * DspDmaSpec: what the DMA engine of the audio DSPs transfers

    Words that go out to a place that keeps them come back with the transfer in the other
    direction. *)

From stdpp Require Import base numbers list option.
From S2P Require Import Prelude.
From S2P Require Import DspArith.
From S2P Require Import DspCore.
From S2P Require Import DspSafe.
From S2P Require Import Dsp.

(** ** Words of the data memories *)

Section words.
Context {W : Type} `{P : !Peripherals W}.
Implicit Types d : DSPState W.

(** The memory of a space, below the mix buffer. *)
Definition memory (space : Z) d : list Z := if space =? DSP_SPACE_X then xram (core d) else yram (core d).
Definition set_word (space a v : Z) d : DSPState W :=
  if space =? DSP_SPACE_X then d <| core ::= λ c, c <| xram ::= <[Z.to_nat a := v]> |> |>
  else d <| core ::= λ c, c <| yram ::= <[Z.to_nat a := v]> |> |>.
Definition data_address (space a : Z) : Prop :=
  space = DSP_SPACE_X ∧ 0 ≤ a < 0xc00 ∨ space = DSP_SPACE_Y ∧ 0 ≤ a < DSP_YRAM_SIZE.

Lemma small_is24 v : 0 ≤ v < 2 ^ 24 → is24 v = true.
Proof.
  intros Hv. unfold is24. apply Z.eqb_eq. change 0xFF000000 with (Z.ones 8 <<< 24).
  rewrite land_field, Z.shiftr_div_pow2, Z.div_small by lia. done.
Qed.
Lemma run_read_word space a v d :
  data_address space a → memory space d !! Z.to_nat a = Some v → dsp56k_read_memory space a d = Ok (v, d).
Proof.
  intros [[-> Ha] | [-> Ha]] Hv; unfold dsp56k_read_memory;
    rewrite (run_bind _ _ tt _ d) by (apply run_assert, small_is24; lia); cbn [Z.eqb Pos.eqb].
  - unfold in_mixbuffer. rewrite (proj2 (Z.leb_gt _ _)), !(proj2 (Z.leb_gt _ a)) by lia. cbn [andb].
    rewrite (proj2 (Z.ltb_lt _ _)) by lia. unfold elem. rewrite (run_bind _ _ (xram (core d)) _ d) by done.
    cbn in Hv. rewrite Hv. rewrite (run_bind _ _ tt _ d); [done|]. apply run_inBounds. lia.
  - rewrite (run_bind _ _ tt _ d) by (apply run_assert; lia). unfold elem.
    rewrite (run_bind _ _ (yram (core d)) _ d) by done. cbn in Hv. rewrite Hv.
    rewrite (run_bind _ _ tt _ d); [done|]. apply run_inBounds. lia.
Qed.
Lemma run_write_word space a v d :
  data_address space a → is_word v → dsp56k_write_memory space a v d = Ok (tt, set_word space a v d).
Proof.
  intros Hda Hv. unfold dsp56k_write_memory, write_memory_raw.
  rewrite (run_bind _ _ tt _ d) by (apply run_assert, small_is24, Hv).
  destruct Hda as [[-> Ha] | [-> Ha]]; rewrite (run_bind _ _ tt _ d) by (apply run_assert, small_is24; lia); cbn [Z.eqb Pos.eqb].
  - unfold in_mixbuffer. rewrite (proj2 (Z.leb_gt _ _)), !(proj2 (Z.leb_gt _ a)) by lia. cbn [andb].
    rewrite (run_bind _ _ tt _ d) by (apply run_assert; lia). rewrite (run_bind _ _ tt _ d) by (apply run_inBounds; lia). done.
  - rewrite (run_bind _ _ tt _ d) by (apply run_assert; lia). rewrite (run_bind _ _ tt _ d) by (apply run_inBounds; lia). done.
Qed.

(** ** Items of four bytes *)

Definition flat (vs : list Z) : list Z := flat_map (le_bytes 4) vs.
Lemma blen_flat vs : blen (flat vs) = 4 * Z.of_nat (length vs).
Proof. induction vs as [|v vs IH]; [done|]. cbn [flat flat_map]. rewrite blen_app, blen_le_bytes. unfold flat in IH. rewrite IH. cbn [length]. lia. Qed.
Lemma put_middle pre bs mid post : blen bs = blen mid → put (blen pre) bs (pre ++ mid ++ post) = pre ++ bs ++ post.
Proof.
  unfold blen, put. intros H. rewrite Nat2Z.id. replace (length pre) with (length pre + 0)%nat by lia.
  rewrite list_inserts_app_r, list_inserts_0_r; [done|lia].
Qed.
Lemma slice_middle pre mid post n : blen mid = n → slice (blen pre) n (pre ++ mid ++ post) = mid.
Proof.
  unfold blen, slice. intros <-. rewrite !Nat2Z.id. rewrite drop_app_length. by rewrite take_app_length.
Qed.
Definition items_from (a i n : Z) : list (Z * Z) := map (λ i, (i * 4, a + i)) (seqZ i n).

Lemma gather_words space a vs i pre post d :
  (∀ k v, vs !! k = Some v → dsp56k_read_memory space (a + (i + Z.of_nat k)) d = Ok (v, d)) →
  blen pre = i * 4 → blen post = 4 * Z.of_nat (length vs) →
  gather 4 space (items_from a i (Z.of_nat (length vs))) (pre ++ post) d = Ok (pre ++ flat vs, d).
Proof.
  revert i pre post. induction vs as [|v vs IH]; intros i pre post Hr Hpre Hpost.
  - cbn in *. unfold blen in Hpost. by destruct post.
  - unfold items_from. rewrite seqZ_cons by (cbn; lia). cbn [map gather].
    assert (∃ mid rest, post = mid ++ rest ∧ blen mid = 4 ∧ blen rest = 4 * Z.of_nat (length vs)) as (mid & rest & -> & Hm & Hrest).
    { exists (take 4 post), (drop 4 post). rewrite take_drop. cbn in Hpost. unfold blen in *.
      rewrite length_take, length_drop. split; [done|]. lia. }
    pose proof (Hr 0%nat v eq_refl) as H0. rewrite Z.add_0_r in H0. rewrite (run_bind _ _ _ _ _ H0).
    change (item_bytes 4 v) with (le_bytes 4 v). pose proof (blen_le_bytes 4 v) as Hb.
    rewrite (run_bind _ _ ((pre ++ le_bytes 4 v) ++ rest) _ d).
    + change (length (v :: vs)) with (S (length vs)).
      replace (Z.pred (Z.of_nat (S (length vs)))) with (Z.of_nat (length vs)) by lia.
      fold (items_from a (Z.succ i) (Z.of_nat (length vs))). rewrite IH; [by rewrite <- app_assoc | | rewrite blen_app; lia | done].
      intros k w Hk. specialize (Hr (S k) w Hk). by replace (Z.succ i + Z.of_nat k) with (i + Z.of_nat (S k)) by lia.
    + rewrite run_wr by (rewrite ?blen_app; pose proof (blen_nonneg pre); pose proof (blen_nonneg rest); lia).
      rewrite <- Hpre, put_middle by lia. by rewrite <- app_assoc.
Qed.

(** Words written one after the other. *)
Fixpoint put_words (space a : Z) (vs : list Z) d : DSPState W :=
  match vs with [] => d | v :: vs => put_words space (a + 1) vs (set_word space a v d) end.
Lemma memory_set_word space a v d : memory space (set_word space a v d) = <[Z.to_nat a := v]> (memory space d).
Proof. unfold memory, set_word. by destruct (space =? DSP_SPACE_X). Qed.
Lemma memory_put_words space a vs d : 0 ≤ a → memory space (put_words space a vs d) = put a vs (memory space d).
Proof.
  revert a d. induction vs as [|v vs IH]; intros a d Ha; [done|]. cbn [put_words].
  rewrite IH, memory_set_word by lia. unfold put. replace (Z.to_nat (a + 1)) with (S (Z.to_nat a)) by lia.
  rewrite <- list_insert_inserts_lt by lia. done.
Qed.
Lemma scatter_words space a vs i pre d :
  (∀ k, 0 ≤ k < Z.of_nat (length vs) → data_address space (a + (i + k))) → Forall is_word vs → 0 ≤ i → blen pre = i * 4 →
  forM (seqZ i (Z.of_nat (length vs))) (λ i,
    bs ← rd (pre ++ flat vs) (i * 4) 4; dsp56k_write_memory space (a + i) (item_word 4 0x00ffffff bs)) d =
  Ok (tt, put_words space (a + i) vs d).
Proof.
  revert i pre d. induction vs as [|v vs IH]; intros i pre d Ha Hv Hi Hpre; [done|].
  inversion_clear Hv as [|? ? Hv0 Hvs]. cbn [length]. rewrite seqZ_cons by lia. cbn [forM].
  replace (Z.pred (Z.of_nat (S (length vs)))) with (Z.of_nat (length vs)) by lia.
  pose proof (blen_le_bytes 4 v) as Hb. cbn [flat flat_map]. fold (flat vs).
  pose proof (blen_nonneg (flat vs)). rewrite (run_bind _ _ tt _ (set_word space (a + i) v d)).
  - rewrite app_assoc. rewrite (IH (Z.succ i) (pre ++ le_bytes 4 v)); [| |done|lia|rewrite blen_app; lia].
    + cbn [put_words]. by replace (a + Z.succ i) with (a + i + 1) by lia.
    + intros k Hk. replace (Z.succ i + k) with (i + (k + 1)) by lia. apply Ha. cbn [length]. lia.
  - rewrite (run_bind _ _ (le_bytes 4 v) _ d).
    2: { rewrite run_rd by (rewrite ?blen_app; lia). by rewrite <- Hpre, slice_middle. }
    assert (item_word 4 0x00ffffff (le_bytes 4 v) = v) as ->.
    { unfold item_word. cbn [Z.eqb Pos.eqb]. rewrite of_le_le_bytes. unfold is_word in Hv0.
      rewrite Z.mod_small by lia. change 0x00ffffff with (Z.ones 24). rewrite Z.land_ones by lia. apply Z.mod_small. lia. }
    rewrite run_write_word; [done | | done]. specialize (Ha 0 ltac:(cbn [length]; lia)). by rewrite Z.add_0_r in Ha.
Qed.
End words.

(** ** A transfer out and one in *)

Section transfer.
Context {W : Type} `{!DmaPort W, P : !Peripherals W}.
Implicit Types d : DSPState W.

(** A node for [count] words of 24 bits, in items of four bytes, from or to the scratch memory. *)
Definition control_out : Z := 0x9E2.
Definition control_in : Z := 0x9E0.
Definition scratch_address (n : node) : Z := u32 (n_scratch_base n + n_scratch_offset n).
(** The words of a node are in X memory below the mix buffer, or in Y memory. *)
Definition node_words (n : node) (space a : Z) : Prop :=
  0 ≤ n_count n ∧ 0 ≤ a ∧
  (space = DSP_SPACE_X ∧ n_dsp_offset n = a ∧ a + n_count n ≤ 0xc00 ∧ a < 0xc00 ∨
   space = DSP_SPACE_Y ∧ n_dsp_offset n = 0x1800 + a ∧ a + n_count n < DSP_YRAM_SIZE).

Lemma node_data n space a k : node_words n space a → 0 ≤ k < n_count n → data_address space (a + k).
Proof. intros (? & ? & [(-> & ? & ? & ?) | (-> & ? & ?)]) ?; [left | right]; (split; [done | lia]). Qed.
Lemma run_dma_space n space a d : node_words n space a → dma_space (n_dsp_offset n) (n_count n) d = Ok ((space, a), d).
Proof.
  intros (? & ? & [(-> & -> & ? & ?) | (-> & -> & ?)]); unfold dma_space.
  - rewrite (proj2 (Z.ltb_lt _ _)) by lia. rewrite (run_bind _ _ tt _ d); [done|]. apply run_assert.
    rewrite u32_id by (unfold is_u32; lia). lia.
  - rewrite (proj2 (Z.ltb_ge _ _)), (proj2 (Z.leb_le _ _)), (proj2 (Z.ltb_lt _ _)) by lia. cbn [andb].
    rewrite (run_bind _ _ tt _ d); [by replace (0x1800 + a - 0x1800) with a by lia|]. apply run_assert.
    rewrite u32_id by (unfold is_u32; lia). lia.
Qed.
Lemma send_run n buf d w :
  scratch_write buf (scratch_address n) (rw_opaque d) = Ok (tt, w) →
  send 0xf (n_scratch_base n) (n_scratch_offset n) (n_scratch_size n) (blen buf) buf d =
  Ok (n_scratch_offset n, d <| rw_opaque := w |>).
Proof.
  intros Hw. unfold send. cbn [Z.leb Z.eqb Pos.eqb Z.compare Pos.compare Pos.compare_cont].
  pose proof (blen_nonneg buf). rewrite (run_bind _ _ buf _ d).
  2: { rewrite run_rd by lia. unfold slice, blen. rewrite drop_0, Nat2Z.id. by rewrite take_ge by lia. }
  rewrite (run_bind _ _ tt _ (d <| rw_opaque := w |>)); [done|]. unfold outside. fold (scratch_address n). by rewrite Hw.
Qed.
Lemma receive_run n buf bs d :
  blen buf = blen bs → scratch_read (scratch_address n) (blen bs) (rw_opaque d) = Ok (bs, rw_opaque d) →
  receive 0xf (n_scratch_base n) (n_scratch_offset n) (n_scratch_size n) (blen bs) buf d =
  Ok ((bs, n_scratch_offset n), d).
Proof.
  intros Hl Hr. unfold receive. cbn [Z.eqb Pos.eqb]. rewrite (run_bind _ _ bs _ d).
  2: { unfold outside. fold (scratch_address n). rewrite Hr. by destruct d. }
  rewrite (run_bind _ _ bs _ d); [done|]. rewrite run_wr by lia. f_equal. f_equal. unfold put. cbn [Z.to_nat].
  rewrite <- (app_nil_r bs) at 1. apply list_inserts_0_l. unfold blen in Hl. lia.
Qed.
Lemma zeros_blen n : 0 ≤ n → blen (replicate (Z.to_nat n) 0) = n.
Proof. intros. unfold blen. rewrite length_replicate. lia. Qed.

Lemma transfer_out n space a vs d w :
  n_control n = control_out → node_words n space a → n_count n = Z.of_nat (length vs) →
  (∀ k v, vs !! k = Some v → memory space d !! Z.to_nat (a + Z.of_nat k) = Some v) →
  scratch_write (flat vs) (scratch_address n) (rw_opaque d) = Ok (tt, w) →
  dma_transfer n d = Ok (n_scratch_offset n, d <| rw_opaque := w |>).
Proof.
  intros Hc Hn Hcount Hvs Hw. unfold dma_transfer. rewrite Hc. unfold control_out.
  change (item_format ((0x9E2 >>> 10) &&& 0x7)) with (Some (4, 0x00ffffff)).
  rewrite (run_bind _ _ tt _ d), (run_bind _ _ tt _ d) by done.
  rewrite (run_bind _ _ _ _ _ (run_dma_space n space a d Hn)).
  change (truthy (0x9E2 &&& NODE_CONTROL_DIRECTION)) with true. change (truthy ((0x9E2 >>> 0) &&& 1)) with false.
  change ((0x9E2 >>> 5) &&& 0xf) with 0xf. cbv iota beta zeta.
  rewrite (run_bind _ _ (flat vs) _ d).
  - pose proof (blen_flat vs). replace (n_count n * 4) with (blen (flat vs)) by lia. by apply send_run.
  - rewrite Hcount. pose proof (gather_words space a vs 0 [] (replicate (Z.to_nat (Z.of_nat (length vs) * 4)) 0) d) as H.
    apply H; [|done | rewrite zeros_blen; lia].
    intros k v Hk. pose proof (lookup_lt_Some _ _ _ Hk). apply run_read_word; [|by apply Hvs].
    apply (node_data n); [done | lia].
Qed.
Lemma transfer_in n space a vs d :
  n_control n = control_in → node_words n space a → n_count n = Z.of_nat (length vs) → Forall is_word vs →
  scratch_read (scratch_address n) (blen (flat vs)) (rw_opaque d) = Ok (flat vs, rw_opaque d) →
  dma_transfer n d = Ok (n_scratch_offset n, put_words space a vs d).
Proof.
  intros Hc Hn Hcount Hvs Hr. unfold dma_transfer. rewrite Hc. unfold control_in.
  change (item_format ((0x9E0 >>> 10) &&& 0x7)) with (Some (4, 0x00ffffff)).
  rewrite (run_bind _ _ tt _ d), (run_bind _ _ tt _ d) by done.
  rewrite (run_bind _ _ _ _ _ (run_dma_space n space a d Hn)).
  change (truthy (0x9E0 &&& NODE_CONTROL_DIRECTION)) with false. change (truthy ((0x9E0 >>> 0) &&& 1)) with false.
  change ((0x9E0 >>> 5) &&& 0xf) with 0xf. cbv iota beta zeta. rewrite (run_bind _ _ tt _ d) by done.
  pose proof (blen_flat vs) as Hl. replace (n_count n * 4) with (blen (flat vs)) by lia.
  erewrite run_bind; [|apply receive_run; [apply zeros_blen; lia | exact Hr]]. cbn [fst snd].
  unfold scatter. rewrite Hcount. rewrite (run_bind _ _ tt _ (put_words space a vs d)); [done|].
  pose proof (scatter_words space a vs 0 [] d) as H. rewrite Z.add_0_r in H. apply H; [|done | done | done].
  intros k Hk. rewrite Z.add_0_l. apply (node_data n); [done | lia].
Qed.
End transfer.
