(* ===== verification/Apu.v ===== *)
(** * Apu: the audio processing unit around its two DSPs, apu.c and dsp/gp_ep.c

    The global processor (GP) and the encode processor (EP) reach memory of the machine by
    tables of pages (scatter-gather), and FIFOs in such memory.  The voice processor, which
    mixes samples in floating point, is not modelled: its results are an argument. *)

From stdpp Require Import base numbers list option.
From S2P Require Import Prelude.
From S2P Require Import DspArith.
From S2P Require Import DspCore.
From S2P Require Import DspExec.
From S2P Require Import Dsp.

Abbreviation NV_PAPU_ISTS := 0x00001000 (only parsing).
Abbreviation NV_PAPU_ISTS_GINTSTS := (1 <<< 0) (only parsing).
Abbreviation NV_PAPU_ISTS_FETINTSTS := (1 <<< 4) (only parsing).
Abbreviation NV_PAPU_IEN := 0x00001004 (only parsing).
Abbreviation NV_PAPU_FECTL := 0x00001100 (only parsing).
Abbreviation NV_PAPU_FECTL_FEMETHMODE_HALTED := 0x00000080 (only parsing).
Abbreviation NV_PAPU_FECTL_FEMETHMODE_TRAPPED := 0x000000E0 (only parsing).
Abbreviation NV_PAPU_SECTL := 0x00002000 (only parsing).
Abbreviation NV_PAPU_SECTL_XCNTMODE := 0x00000018 (only parsing).
Abbreviation NV_PAPU_SECTL_XCNTMODE_OFF := 0 (only parsing).
Abbreviation FIFO8_CAPACITY := 3072 (only parsing).
Abbreviation NV_PAPU_FEMEMADDR := 0x00001324 (only parsing).
Abbreviation NV_PAPU_FEMEMDATA := 0x00001334 (only parsing).
Abbreviation NV_PAPU_XGSCNT := 0x0000200C (only parsing).
Abbreviation NV_PAPU_GPSADDR := 0x00002040 (only parsing).
Abbreviation NV_PAPU_GPFADDR := 0x00002044 (only parsing).
Abbreviation NV_PAPU_EPSADDR := 0x00002048 (only parsing).
Abbreviation NV_PAPU_EPFADDR := 0x0000204C (only parsing).
Abbreviation NV_PAPU_GPSMAXSGE := 0x000020D4 (only parsing).
Abbreviation NV_PAPU_GPFMAXSGE := 0x000020D8 (only parsing).
Abbreviation NV_PAPU_EPSMAXSGE := 0x000020DC (only parsing).
Abbreviation NV_PAPU_EPFMAXSGE := 0x000020E0 (only parsing).
Abbreviation NV_PAPU_GPOFBASE0 := 0x00003024 (only parsing).
Abbreviation NV_PAPU_GPIFBASE0 := 0x00003064 (only parsing).
Abbreviation NV_PAPU_EPOFBASE0 := 0x00004024 (only parsing).
Abbreviation NV_PAPU_EPIFBASE0 := 0x00004064 (only parsing).
Abbreviation FIFO_VALUE := 0x00FFFFFF (only parsing).
Abbreviation NV_PAPU_GPMIXBUF := 0x00005000 (only parsing).
Abbreviation NV_PAPU_GPYMEM := 0x00006000 (only parsing).
Abbreviation NV_PAPU_GPPMEM := 0x0000A000 (only parsing).
Abbreviation NV_PAPU_GPRST := 0x0000FFFC (only parsing).
Abbreviation NV_PAPU_GPRST_GPRST := (1 <<< 0) (only parsing).
Abbreviation NV_PAPU_GPRST_GPDSPRST := (1 <<< 1) (only parsing).
Abbreviation GP_DSP_MIXBUF_BASE := 0x001400 (only parsing).
Abbreviation TARGET_PAGE_SIZE := 4096 (only parsing).
Abbreviation FIFO_COUNT_OUT := 4 (only parsing).
Abbreviation FIFO_COUNT_IN := 2 (only parsing).
Abbreviation FRAME_BUF_SIZE := 1024 (only parsing).
Abbreviation NUM_SAMPLES_PER_FRAME := 32 (only parsing).
Abbreviation NUM_MIXBINS := 32 (only parsing).

(** ** State *)

(** [McpxApuDebugMonitorPoint]. *)
Inductive monitor_point := MON_AC97 | MON_VP | MON_GP | MON_EP | MON_GP_OR_EP.
Definition point_eqb (p q : monitor_point) : bool :=
  match p, q with
  | MON_AC97, MON_AC97 | MON_VP, MON_VP | MON_GP, MON_GP | MON_EP, MON_EP | MON_GP_OR_EP, MON_GP_OR_EP => true
  | _, _ => false
  end.

(** What the functions that move data for the DSPs work on: the memory of the machine, the
    registers of the unit and the buffer of the monitor. *)
Record Host := { ram : list Z; regs : Z → Z; point : monitor_point; frame_buf : list Z }.
#[global] Instance eta_Host : EtaRecord Host := λ s,
  {| ram := ram s; regs := regs s; point := point s; frame_buf := frame_buf s |}.

(** [regs] is an array of 0x20000 words and those of a processor of 0x10000; every access to them
    is checked. *)
Definition host_reg (r : Z) : M Host Z := inBounds ((0 <=? r) && (r <? 0x20000));; gets (λ h, regs h r).
Definition set_apu_reg (r v : Z) : M Host unit :=
  inBounds ((0 <=? r) && (r <? 0x20000));;
  modify (λ h, h <| regs := λ a, if a =? r then v else regs h a |>).

Section host.
(** [ldl_le_phys] of [address_space_memory]: a word of the memory of the machine, which is behind
    the dispatch of addresses. *)
Variable ldl_le_phys : list Z → Z → Z.

(** ** Scatter and gather *)

(** The loop over the pages.  [ptr] is the offset in the buffer [buf]; the result is the buffer. *)
Fixpoint sg_loop (fuel : nat) (sge_base max_sge page_entry offset_in_page bytes_to_copy ptr len : Z)
    (buf : list Z) (dir : bool) : M Host (list Z) :=
  if 0 <? len then
    match fuel with
    | O => raise OutOfFuel
    | S fuel =>
        assertM (page_entry <=? max_sge);;
        h ← gets id;
        let prd_address := ldl_le_phys (ram h) (sge_base + page_entry * 8) in
        let paddr := u32 (prd_address + offset_in_page) in
        let bytes_to_copy := if len <? bytes_to_copy then len else bytes_to_copy in
        assertM (paddr + bytes_to_copy <? blen (ram h));;
        buf ← (if dir then
                 bs ← rd buf ptr bytes_to_copy;
                 ram' ← wr (ram h) paddr bs;
                 modify (λ h, h <| ram := ram' |>);; mret buf
               else bs ← rd (ram h) paddr bytes_to_copy; wr buf ptr bs);
        sg_loop fuel sge_base max_sge (page_entry + 1) 0 TARGET_PAGE_SIZE
          (ptr + bytes_to_copy) (len - bytes_to_copy) buf dir
    end
  else mret buf.
Definition scatter_gather_rw (sge_base max_sge : Z) (buf : list Z) (addr len : Z) (dir : bool) : M Host (list Z) :=
  let offset_in_page := addr mod TARGET_PAGE_SIZE in
  sg_loop (Z.to_nat len) sge_base max_sge (addr / TARGET_PAGE_SIZE) offset_in_page
    (TARGET_PAGE_SIZE - offset_in_page) 0 len buf dir.

Definition gp_scratch_rw (buf : list Z) (addr len : Z) (dir : bool) : M Host (list Z) :=
  sge_base ← host_reg NV_PAPU_GPSADDR;
  max_sge ← host_reg NV_PAPU_GPSMAXSGE;
  scatter_gather_rw sge_base max_sge buf addr len dir.
Definition ep_scratch_rw (buf : list Z) (addr len : Z) (dir : bool) : M Host (list Z) :=
  sge_base ← host_reg NV_PAPU_EPSADDR;
  max_sge ← host_reg NV_PAPU_EPSMAXSGE;
  scatter_gather_rw sge_base max_sge buf addr len dir.

(** Through a part of the pages that is used in a circle; the result has the next position. *)
Fixpoint circular_sg_loop (fuel : nat) (sge_base max_sge base end_ cur ptr len : Z) (buf : list Z) (dir : bool) :
    M Host (list Z * Z) :=
  if 0 <? len then
    match fuel with
    | O => raise OutOfFuel
    | S fuel =>
        let bytes_to_copy := u32 (end_ - cur) in
        let bytes_to_copy := if len <? bytes_to_copy then len else bytes_to_copy in
        assertM ((base <=? cur) && (u32 (cur + bytes_to_copy) <=? end_));;
        bs ← rd buf ptr bytes_to_copy;
        bs ← scatter_gather_rw sge_base max_sge bs cur bytes_to_copy dir;
        buf ← wr buf ptr bs;
        let cur := u32 (cur + bytes_to_copy) in
        cur ← (if end_ <=? cur then assertM (cur =? end_);; mret base else mret cur);
        circular_sg_loop fuel sge_base max_sge base end_ cur (ptr + bytes_to_copy) (len - bytes_to_copy) buf dir
    end
  else mret (buf, cur).
Definition circular_scatter_gather_rw (sge_base max_sge : Z) (buf : list Z) (base end_ cur len : Z) (dir : bool) :
    M Host (list Z * Z) :=
  circular_sg_loop (S (Z.to_nat len)) sge_base max_sge base end_ cur 0 len buf dir.

(** ** FIFOs *)

(** The registers of a FIFO: its base, its end and the current position, 4 apart. *)
Definition fifo_base (out_base in_base : Z) (index : Z) (dir : bool) : M Host Z :=
  if dir then assertM (index <? FIFO_COUNT_OUT);; mret (out_base + 0x10 * index)
  else assertM (index <? FIFO_COUNT_IN);; mret (in_base + 0x10 * index).
Definition fifo_reg (r : Z) : M Host Z := v ← host_reg r; mret (GET_MASK v FIFO_VALUE).

Definition gp_fifo_rw (buf : list Z) (index len : Z) (dir : bool) : M Host (list Z) :=
  r ← fifo_base NV_PAPU_GPOFBASE0 NV_PAPU_GPIFBASE0 index dir;
  base ← fifo_reg r;
  end_ ← fifo_reg (r + 4);
  let cur_reg := r + 8 in
  cur ← fifo_reg cur_reg;
  assertM (cur <? end_);;
  let cur := if cur <? base then base else cur in
  sge_base ← host_reg NV_PAPU_GPFADDR;
  max_sge ← host_reg NV_PAPU_GPFMAXSGE;
  p ← circular_scatter_gather_rw sge_base max_sge buf base end_ cur len dir;
  old ← host_reg cur_reg;
  set_apu_reg cur_reg (SET_MASK old FIFO_VALUE p.2);;
  mret p.1.

(** Whether the samples go to the monitor, and not to the FIFO. *)
Definition ep_sink_samples (buf : list Z) (len : Z) : M Host bool :=
  h ← gets id;
  if point_eqb (point h) MON_AC97 then mret false
  else
    whenM (point_eqb (point h) MON_EP || point_eqb (point h) MON_GP_OR_EP)
      (assertM (len =? FRAME_BUF_SIZE);;
       bs ← rd buf 0 len; modify (λ h, h <| frame_buf := bs |>));;
    mret true.

Definition ep_fifo_rw (buf : list Z) (index len : Z) (dir : bool) : M Host (list Z) :=
  r ← fifo_base NV_PAPU_EPOFBASE0 NV_PAPU_EPIFBASE0 index dir;
  base ← fifo_reg r;
  end_ ← fifo_reg (r + 4);
  let cur_reg := r + 8 in
  cur ← fifo_reg cur_reg;
  buf ← (if dir && (index =? 0) then
           did_sink ← ep_sink_samples buf len;
           if (did_sink : bool) then assertM (len <=? FRAME_BUF_SIZE);; mret (replicate (Z.to_nat FRAME_BUF_SIZE) 0)
           else mret buf
         else mret buf);
  cur ← (if end_ <=? cur then
           if u32 (end_ - base) =? 0 then raise DivByZero else mret (cur mod u32 (end_ - base))
         else mret cur);
  let cur := if cur <? base then base else cur in
  sge_base ← host_reg NV_PAPU_EPFADDR;
  max_sge ← host_reg NV_PAPU_EPFMAXSGE;
  p ← circular_scatter_gather_rw sge_base max_sge buf base end_ cur len dir;
  old ← host_reg cur_reg;
  set_apu_reg cur_reg (SET_MASK old FIFO_VALUE p.2);;
  mret p.1.

(** ** What the DSPs see *)

Definition gp_port : DmaPort Host :=
  {| scratch_read := λ addr len, gp_scratch_rw (replicate (Z.to_nat len) 0) addr len false;
     scratch_write := λ bs addr, gp_scratch_rw bs addr (blen bs) true;; mret tt;
     fifo_write := λ bs index, gp_fifo_rw bs index (blen bs) true;; mret tt |}.
Definition ep_port : DmaPort Host :=
  {| scratch_read := λ addr len, ep_scratch_rw (replicate (Z.to_nat len) 0) addr len false;
     scratch_write := λ bs addr, ep_scratch_rw bs addr (blen bs) true;; mret tt;
     fifo_write := λ bs index, ep_fifo_rw bs index (blen bs) true;; mret tt |}.
End host.

(** ** The unit *)

(** A processor: its DSP, its registers and whether it is run until it is idle. *)
Record Processor := { realtime : bool; dsp : DSPState Host; p_regs : Z → Z }.
#[global] Instance eta_Processor : EtaRecord Processor := λ s,
  {| realtime := realtime s; dsp := dsp s; p_regs := p_regs s |}.

(** [MCPXAPUState], without the voice processor and the threads.  The two DSPs share [host]; the
    copy of it in [dsp] is not used.  They also share the static cache of opcodes, [codes].
    [irq_line] is the level of the interrupt, [monitor_fifo] has the bytes for the sound card, and
    [last_known_preference] is the static variable of [mcpx_apu_update_dsp_preference]. *)
Record MCPXAPUState := {
  host : Host; gp : Processor; ep : Processor; codes : list (Z * option nat); ep_frame_div : Z; irq_line : bool;
  set_irq : bool; monitor_fifo : list Z; last_known_preference : Z
}.
#[global] Instance eta_MCPXAPUState : EtaRecord MCPXAPUState := λ s,
  {| host := host s; gp := gp s; ep := ep s; codes := codes s; ep_frame_div := ep_frame_div s;
     irq_line := irq_line s; set_irq := set_irq s; monitor_fifo := monitor_fifo s;
     last_known_preference := last_known_preference s |}.

(** An action of one of the DSPs. *)
Definition on_gp {A} (m : M (DSPState Host) A) : M MCPXAPUState A := λ s,
  match m ((dsp (gp s)) <| rw_opaque := host s |> <| opcache := codes s |>) with
  | Ok (a, d) => Ok (a, s <| host := rw_opaque d |> <| codes := opcache d |> <| gp ::= λ p, p <| dsp := d |> |>)
  | Fault e => Fault e
  end.
Definition on_ep {A} (m : M (DSPState Host) A) : M MCPXAPUState A := λ s,
  match m ((dsp (ep s)) <| rw_opaque := host s |> <| opcache := codes s |>) with
  | Ok (a, d) => Ok (a, s <| host := rw_opaque d |> <| codes := opcache d |> <| ep ::= λ p, p <| dsp := d |> |>)
  | Fault e => Fault e
  end.
(** An action on the memory and the registers. *)
Definition on_host {A} (m : M Host A) : M MCPXAPUState A := λ s,
  match m (host s) with
  | Ok (a, h) => Ok (a, s <| host := h |>)
  | Fault e => Fault e
  end.

Section unit_.
Variable ldl_le_phys : list Z → Z → Z.
Variable stl_le_phys : list Z → Z → Z → list Z.
Variable dma_fuel : nat.
Abbreviation A := MCPXAPUState.
Abbreviation GP := (gp_port ldl_le_phys).
Abbreviation EP := (ep_port ldl_le_phys).

(** *** Registers *)

Definition apu_reg (r : Z) : M A Z := on_host (host_reg r).

Definition update_irq : M A unit :=
  fectl ← apu_reg NV_PAPU_FECTL;
  whenM (truthy (fectl &&& NV_PAPU_FECTL_FEMETHMODE_TRAPPED))
    (ists ← apu_reg NV_PAPU_ISTS; on_host (set_apu_reg NV_PAPU_ISTS (ists ||| NV_PAPU_ISTS_FETINTSTS)));;
  ien ← apu_reg NV_PAPU_IEN;
  ists ← apu_reg NV_PAPU_ISTS;
  if truthy (ien &&& NV_PAPU_ISTS_GINTSTS) && truthy (ists &&& not32 NV_PAPU_ISTS_GINTSTS &&& ien) then
    on_host (set_apu_reg NV_PAPU_ISTS (ists ||| NV_PAPU_ISTS_GINTSTS));; modify (λ s, s <| irq_line := true |>)
  else
    on_host (set_apu_reg NV_PAPU_ISTS (ists &&& not32 NV_PAPU_ISTS_GINTSTS));; modify (λ s, s <| irq_line := false |>).

(** [now] is [qemu_clock_get_ns(QEMU_CLOCK_VIRTUAL)]. *)
Definition mcpx_apu_read (now addr : Z) : M A Z :=
  if addr =? NV_PAPU_XGSCNT then mret (now / 100)
  else if addr <? 0x20000 then apu_reg addr
  else mret 0.

Definition mcpx_apu_write (addr val : Z) : M A unit :=
  if addr =? NV_PAPU_ISTS then
    ists ← apu_reg NV_PAPU_ISTS; on_host (set_apu_reg NV_PAPU_ISTS (ists &&& not32 val));; update_irq
  else if addr =? NV_PAPU_FEMEMDATA then
    a ← apu_reg NV_PAPU_FEMEMADDR;
    on_host (modify (λ h, h <| ram := stl_le_phys (ram h) a (u32 val) |>);; set_apu_reg addr (u32 val))
  else whenM (addr <? 0x20000) (on_host (set_apu_reg addr (u32 val))).

(** *** The processors *)

Definition running (rst : Z) : bool :=
  truthy (rst &&& NV_PAPU_GPRST_GPRST) && truthy (rst &&& NV_PAPU_GPRST_GPDSPRST).
(** [on] is [on_gp] or [on_ep]. *)
Definition proc_rst_write `{!DmaPort Host} (on : M (DSPState Host) unit → M A unit) (oldval val : Z) : M A unit :=
  if negb (running val) then on dsp_reset
  else if negb (running oldval) && running val then on dsp_bootstrap
  else mret tt.

(** The memory of the DSP that an address is for: the space and the address in it. *)
Definition gp_window (addr : Z) : option (Z * Z) :=
  if addr <? 0x1000 * 4 then Some (0x58, addr / 4)
  else if (NV_PAPU_GPMIXBUF <=? addr) && (addr <? NV_PAPU_GPMIXBUF + 0x400 * 4) then
    Some (0x58, GP_DSP_MIXBUF_BASE + (addr - NV_PAPU_GPMIXBUF) / 4)
  else if (NV_PAPU_GPYMEM <=? addr) && (addr <? NV_PAPU_GPYMEM + 0x800 * 4) then
    Some (0x59, (addr - NV_PAPU_GPYMEM) / 4)
  else if (NV_PAPU_GPPMEM <=? addr) && (addr <? NV_PAPU_GPPMEM + 0x1000 * 4) then
    Some (0x50, (addr - NV_PAPU_GPPMEM) / 4)
  else None.
Definition ep_window (addr : Z) : option (Z * Z) :=
  if addr <? 0xC00 * 4 then Some (0x58, addr / 4)
  else if (NV_PAPU_GPYMEM <=? addr) && (addr <? NV_PAPU_GPYMEM + 0x100 * 4) then
    Some (0x59, (addr - NV_PAPU_GPYMEM) / 4)
  else if (NV_PAPU_GPPMEM <=? addr) && (addr <? NV_PAPU_GPPMEM + 0x1000 * 4) then
    Some (0x50, (addr - NV_PAPU_GPPMEM) / 4)
  else None.

Definition gp_reg (addr : Z) : M A Z :=
  inBounds ((0 <=? addr) && (addr <? 0x10000));; s ← gets gp; mret (p_regs s addr).
Definition gp_read (addr size : Z) : M A Z :=
  assertM (size =? 4);;
  assertM (addr mod 4 =? 0);;
  match gp_window addr with
  | Some (space, a) => on_gp (@dsp_read_memory _ GP dma_fuel space a)
  | None => gp_reg addr
  end.
Definition set_gp_reg (addr val : Z) : M A unit :=
  inBounds ((0 <=? addr) && (addr <? 0x10000));;
  modify (λ s, s <| gp ::= λ p, p <| p_regs := λ a, if a =? addr then val else p_regs p a |> |>).
Definition gp_write (addr val size : Z) : M A unit :=
  assertM (size =? 4);;
  assertM (addr mod 4 =? 0);;
  match gp_window addr with
  | Some (space, a) => on_gp (@dsp_write_memory _ GP dma_fuel space a (u32 val))
  | None =>
      whenM (addr =? NV_PAPU_GPRST)
        (oldval ← gp_reg NV_PAPU_GPRST; @proc_rst_write GP on_gp oldval (u32 val));;
      set_gp_reg addr (u32 val)
  end.

Definition ep_reg (addr : Z) : M A Z :=
  inBounds ((0 <=? addr) && (addr <? 0x10000));; s ← gets ep; mret (p_regs s addr).
Definition ep_read (addr size : Z) : M A Z :=
  assertM (size =? 4);;
  assertM (addr mod 4 =? 0);;
  match ep_window addr with
  | Some (space, a) => on_ep (@dsp_read_memory _ EP dma_fuel space a)
  | None => ep_reg addr
  end.
Definition set_ep_reg (addr val : Z) : M A unit :=
  inBounds ((0 <=? addr) && (addr <? 0x10000));;
  modify (λ s, s <| ep ::= λ p, p <| p_regs := λ a, if a =? addr then val else p_regs p a |> |>).
Definition ep_write (addr val size : Z) : M A unit :=
  assertM (size =? 4);;
  assertM (addr mod 4 =? 0);;
  match ep_window addr with
  | Some (space, a) => on_ep (@dsp_write_memory _ EP dma_fuel space a (u32 val))
  | None =>
      whenM (addr =? NV_PAPU_GPRST)
        (oldval ← ep_reg NV_PAPU_GPRST; @proc_rst_write EP on_ep oldval (u32 val);;
         modify (λ s, s <| ep_frame_div := 0 |>));;
      set_ep_reg addr (u32 val)
  end.

(** *** A frame *)

(** [do dsp_run(1000) while (!is_idle && realtime)]; the interrupt for the frame is set before. *)
Fixpoint run_until_idle `{!DmaPort Host} (fuel : nat) (realtime : bool) : M (DSPState Host) unit :=
  dsp_run dma_fuel 1000;;
  d ← gets id;
  if negb (is_idle (core d)) && realtime then
    match fuel with O => raise OutOfFuel | S fuel => run_until_idle fuel realtime end
  else mret tt.
Definition run_frame `{!DmaPort Host} (fuel : nat) (realtime : bool) : M (DSPState Host) unit :=
  dsp_start_frame;;
  set_core (λ c, c <| is_idle := false |> <| cycle_count := 0 |>);;
  run_until_idle fuel realtime.

(** A sample of the two first mix bins, for the monitor. *)
Definition put_sample (at_ v : Z) : M Host unit :=
  h ← gets id; b ← wr (frame_buf h) at_ (le_bytes 2 v); modify (λ h, h <| frame_buf := b |>).
Definition monitor_sample (off i : Z) : M A unit :=
  l ← on_gp (@dsp_read_memory _ GP dma_fuel 0x58 (0x1400 + i));
  on_host (put_sample ((off + i) * 4) (l >>> 8));;
  r ← on_gp (@dsp_read_memory _ GP dma_fuel 0x58 (0x1400 + 1 * 0x20 + i));
  on_host (put_sample ((off + i) * 4 + 2) (r >>> 8)).

(** [mixbins] has the samples of the voice processor, as [float_to_24b] has them. *)
Definition mcpx_apu_dsp_frame (fuel : nat) (mixbins : Z → Z → Z) : M A unit :=
  forM (seqZ 0 NUM_MIXBINS) (λ mixbin, forM (seqZ 0 NUM_SAMPLES_PER_FRAME) (λ sample,
    on_gp (@dsp_write_memory _ GP dma_fuel 0x58
             (GP_DSP_MIXBUF_BASE + mixbin * NUM_SAMPLES_PER_FRAME + sample) (mixbins mixbin sample))));;
  ep_rst ← ep_reg NV_PAPU_GPRST;
  let ep_enabled := running ep_rst in
  gp_rst ← gp_reg NV_PAPU_GPRST;
  whenM (running gp_rst)
    (s ← gets id;
     on_gp (@run_frame GP fuel (realtime (gp s)));;
     s ← gets id;
     whenM (point_eqb (point (host s)) MON_GP || (point_eqb (point (host s)) MON_GP_OR_EP && negb ep_enabled))
       (let off := Z.rem (ep_frame_div s) 8 * NUM_SAMPLES_PER_FRAME in
        forM (seqZ 0 NUM_SAMPLES_PER_FRAME) (monitor_sample off)));;
  s ← gets id;
  whenM ep_enabled
    (whenM (Z.rem (ep_frame_div s) 8 =? 0) (on_ep (@run_frame EP fuel (realtime (ep s))))).

(** *** The thread *)

Definition mcpx_apu_update_dsp_preference (use_dsp : bool) : M A unit :=
  s ← gets id;
  if last_known_preference s =? Z.b2z use_dsp then mret tt
  else
    on_host (modify (λ h, h <| point := if use_dsp then MON_GP_OR_EP else MON_VP |>));;
    modify (λ s, s <| gp ::= λ p, p <| realtime := use_dsp |> |> <| ep ::= λ p, p <| realtime := use_dsp |> |>
                   <| last_known_preference := Z.b2z use_dsp |>).

(** [vp_frame] is [mcpx_apu_vp_frame], the mixing of the voices, and [limit_volume] scales the
    samples of a frame in floating point when the volume is limited. *)
Variable vp_frame : M A (Z → Z → Z).
Variable limit_volume : list Z → list Z.

(** One frame; the result is false when the thread waits for room for it. *)
Definition se_frame (fuel : nat) (use_dsp : bool) : M A bool :=
  mcpx_apu_update_dsp_preference use_dsp;;
  s ← gets id;
  if FIFO8_CAPACITY - blen (monitor_fifo s) <? FRAME_BUF_SIZE then mret false
  else
    mixbins ← vp_frame;
    mcpx_apu_dsp_frame fuel mixbins;;
    s ← gets id;
    whenM (Z.rem (s32 (ep_frame_div s + 1)) 8 =? 0)
      (on_host (modify (λ h, h <| frame_buf ::= limit_volume |>));;
       s ← gets id;
       assertM (FRAME_BUF_SIZE <=? FIFO8_CAPACITY - blen (monitor_fifo s));;
       modify (λ s, s <| monitor_fifo ::= λ l, l ++ frame_buf (host s) |>);;
       on_host (modify (λ h, h <| frame_buf := replicate (Z.to_nat FRAME_BUF_SIZE) 0 |>)));;
    modify (λ s, s <| ep_frame_div := s32 (ep_frame_div s + 1) |>);;
    mret true.

(** Whether the front end is off, trapped or halted. *)
Definition stopped : M A bool :=
  sectl ← apu_reg NV_PAPU_SECTL;
  fectl ← apu_reg NV_PAPU_FECTL;
  mret ((GET_MASK sectl NV_PAPU_SECTL_XCNTMODE =? NV_PAPU_SECTL_XCNTMODE_OFF)
        || truthy (fectl &&& NV_PAPU_FECTL_FEMETHMODE_TRAPPED) || truthy (fectl &&& NV_PAPU_FECTL_FEMETHMODE_HALTED)).

(** The two halves of a turn of the thread.  The lock of the unit is not held at [update_irq] at
    the end of the first. *)
Definition frame_thread_irq : M A unit :=
  b ← stopped;
  whenM b (modify (λ s, s <| set_irq := true |>));;
  s ← gets id;
  whenM (set_irq s) (update_irq;; modify (λ s, s <| set_irq := false |>)).
Definition frame_thread_frame (fuel : nat) (use_dsp : bool) : M A bool :=
  b ← stopped;
  if (b : bool) then mret false else se_frame fuel use_dsp.

(** The callback of the sound card; it waits, with the result [None], until the bytes are there. *)
Definition monitor_sink_cb (runstate_is_running : bool) (free_b : Z) : M A (option (list Z)) :=
  s ← gets id;
  if negb runstate_is_running then mret (Some (replicate (Z.to_nat free_b) 0))
  else if blen (monitor_fifo s) <? free_b then mret None
  else
    modify (λ s, s <| monitor_fifo ::= drop (Z.to_nat free_b) |>);;
    mret (Some (take (Z.to_nat free_b) (monitor_fifo s))).

(** *** Reset *)

(** The registers and the caches beside the memories of instructions. *)
Definition mcpx_apu_reset : M A unit :=
  on_host (modify (λ h, h <| regs := λ _, 0 |>));;
  on_gp (set_core (λ c, c <| pram_opcache := replicate (Z.to_nat 4096) None |>));;
  on_ep (set_core (λ c, c <| pram_opcache := replicate (Z.to_nat 4096) None |>));;
  modify (λ s, s <| set_irq := false |>).
End unit_.

(** *** Creation *)

(** [dsp_init]: the memory is zero, then the reset. *)
Definition zero_core : dsp_core_t :=
  {| is_idle := false; cycle_count := 0; instr_cycle := 0; pc := 0; registers := replicate 64 0;
     stack_ssh := replicate 16 0; stack_ssl := replicate 16 0; xram := replicate (Z.to_nat 4096) 0;
     yram := replicate (Z.to_nat 2048) 0; pram := replicate (Z.to_nat 4096) 0; pram_opcache := replicate (Z.to_nat 4096) None;
     mixbuffer := replicate (Z.to_nat 1024) 0; loop_rep := 0; pc_on_rep := 0; interrupt_state := 0;
     interrupt_instr_fetch := 0; interrupt_save_pc := 0; interrupt_counter := 0;
     interrupt_ipl_to_raise := 0; interrupt_pipeline_count := 0; interrupt_ipl := replicate 12 0;
     interrupt_is_pending := replicate 12 0; num_inst := 0; cur_inst_len := 0; cur_inst := 0;
     exception_debugging := false |}.
Definition dsp_init (h : Host) : DSPState Host :=
  let d := {| core := zero_core;
              dma := {| configuration := 0; control := 0; start_block := 0; next_block := 0; dma_error := false;
                        eol := false |};
              save_cycles := 0; interrupts := 0; rw_opaque := h; opcache := replicate (Z.to_nat 256) (0, None) |} in
  match dsp_reset d with Ok (_, d) => d | Fault _ => d end.

(** The memories of instructions, and of the encode processor all, have a pattern. *)
Definition mcpx_apu_dsp_init (h : Host) : DSPState Host * DSPState Host :=
  let pattern n := replicate (Z.to_nat n) 0xCACACACA in
  ((dsp_init h) <| core ::= λ c, c <| pram := pattern 4096 |> |>,
   (dsp_init h) <| core ::= λ c, c <| pram := pattern 4096 |> <| xram := pattern 4096 |>
                                   <| yram := pattern 2048 |> |>).

(** The unit that [mcpx_apu_init] makes, on the memory of the machine. *)
Definition mcpx_apu_zero (memory : list Z) : MCPXAPUState :=
  let h := {| ram := memory; regs := λ _, 0; point := MON_AC97; frame_buf := replicate (Z.to_nat FRAME_BUF_SIZE) 0 |} in
  let '(g, e) := mcpx_apu_dsp_init h in
  {| host := h; gp := {| realtime := false; dsp := g; p_regs := λ _, 0 |};
     ep := {| realtime := false; dsp := e; p_regs := λ _, 0 |}; codes := replicate (Z.to_nat 256) (0, None);
     ep_frame_div := 0; irq_line := false; set_irq := false; monitor_fifo := []; last_known_preference := -1 |}.
Definition mcpx_apu_init (use_dsp : bool) (memory : list Z) : MCPXAPUState :=
  match mcpx_apu_update_dsp_preference use_dsp (mcpx_apu_zero memory) with
  | Ok (_, s) => s
  | Fault _ => mcpx_apu_zero memory
  end.
