(* ===== verification/ApuSafe.v ===== *)
(** * ApuSafe: the audio unit keeps its state well formed

    The ports of the two DSPs stay inside of the memory of the machine and of the buffers of
    the transfers, so that the DSPs with them are safe; every request to the unit, and every
    frame of it, keeps [apu_ok]. *)

From stdpp Require Import base numbers list option.
From S2P Require Import Prelude.
From S2P Require Import DspArith.
From S2P Require Import DspCore.
From S2P Require Import DspExec.
From S2P Require Import DspSafe.
From S2P Require Import DspSafeExec.
From S2P Require Import Dsp.
From S2P Require Import DspDma.
From S2P Require Import Apu.

Record host_ok (h : Host) : Prop := {
  ok_ram : bytes (ram h);
  ok_frame_buf : buffer FRAME_BUF_SIZE (frame_buf h)
}.
(** A failed assertion, a FIFO with nothing between its ends, or a chain of blocks or a frame that
    is longer than the fuel. *)
Definition apu_fault (e : fault) : Prop := e = AssertFailed ∨ e = DivByZero ∨ e = OutOfFuel.

(** ** The ports *)

Section ports.
Variable ldl_le_phys : list Z → Z → Z.
Abbreviation okE := (λ P m h, wpE m (λ a h', host_ok h' ∧ P a) apu_fault h).

Lemma okE_rd (P : list Z → Prop) buf off len h :
  host_ok h → 0 ≤ off → 0 ≤ len → off + len ≤ blen buf → P (slice off len buf) → okE P (rd buf off len) h.
Proof. intros. unfold wpE. by rewrite run_rd. Qed.
Lemma okE_wr (P : list Z → Prop) buf off bs h :
  host_ok h → 0 ≤ off → off + blen bs ≤ blen buf → P (put off bs buf) → okE P (wr buf off bs) h.
Proof. intros. unfold wpE. by rewrite run_wr. Qed.
Lemma okE_set_ram l h : host_ok h → bytes l → host_ok (h <| ram := l |>).
Proof. intros []. by constructor. Qed.
Lemma buffer_put n off bs buf : buffer n buf → bytes bs → buffer n (put off bs buf).
Proof. intros [? ?] ?. split; [by rewrite blen_put | by apply bytes_put]. Qed.
Lemma okE_assert b (P : () → Prop) h : host_ok h → (b = true → P tt) → okE P (assertM b) h.
Proof. intros. apply wpE_assert; [auto|]. intros _. by left. Qed.

(** One page. *)
Lemma sg_copy_ok (dir : bool) buf n ptr paddr k h :
  host_ok h → buffer n buf → 0 ≤ ptr → 0 ≤ k → ptr + k ≤ n → 0 ≤ paddr → paddr + k ≤ blen (ram h) →
  okE (buffer n)
    (if dir then
       bs ← rd buf ptr k; ram' ← wr (ram h) paddr bs; modify (λ h, h <| ram := ram' |>);; mret buf
     else bs ← rd (ram h) paddr k; wr buf ptr bs) h.
Proof.
  intros Hh Hb Hp Hk Hn Hpa Hr. destruct (id Hb) as [Hl Hbytes]. destruct (id Hh) as [Hram _].
  destruct dir; apply wpE_bind.
  - eapply wpE_mono; [apply (okE_rd (λ bs, bytes bs ∧ blen bs = k)); [done | done | done | lia |]|].
    { split; [by apply bytes_slice | apply blen_slice; lia]. }
    intros bs h' [Hh' [Hbs Hlb]]. apply wpE_bind.
    eapply wpE_mono; [apply (okE_wr bytes); [done | done | lia | by apply bytes_put]|].
    intros l h'' [Hh'' Hl']. apply wpE_bind, wpE_modify, wpE_ret. split; [by apply okE_set_ram | done].
  - eapply wpE_mono; [apply (okE_rd (λ bs, bytes bs ∧ blen bs = k)); [done | done | done | lia |]|].
    { split; [by apply bytes_slice | apply blen_slice; lia]. }
    intros bs h' [Hh' [Hbs Hlb]]. apply okE_wr; [done | done | lia | by apply buffer_put].
Qed.
Lemma sg_loop_ok fuel sge max page off n ptr k len buf dir h :
  host_ok h → buffer n buf → len ≤ Z.of_nat fuel → 0 ≤ ptr → ptr + Z.max 0 len ≤ n → 0 < k →
  okE (buffer n) (sg_loop ldl_le_phys fuel sge max page off k ptr len buf dir) h.
Proof.
  revert page off ptr k len buf h.
  induction fuel as [|fuel IH]; intros page off ptr k len buf h Hh Hb Hf Hp Hn Hk; cbn [sg_loop];
    (destruct (Z.ltb_spec 0 len); [|by apply wpE_ret]); [lia|].
  apply wpE_bind. eapply wpE_mono; [by apply (okE_assert _ (λ _, True))|]. intros _ h1 [Hh1 _].
  apply wpE_bind, wpE_gets. unfold id. cbv zeta. set (k' := if len <? k then len else k).
  assert (0 < k' ≤ len) by (unfold k'; destruct (Z.ltb_spec len k); lia).
  set (paddr := u32 _). assert (0 ≤ paddr) by (apply Z.mod_pos_bound; lia).
  apply wpE_bind, wpE_assert; [intros Ha|by left].
  apply wpE_bind. eapply wpE_mono; [apply (sg_copy_ok dir buf n); (done || lia)|].
  intros buf' h2 [Hh2 Hb']. apply IH; (done || lia).
Qed.
Lemma scatter_gather_ok sge max buf addr len dir h :
  host_ok h → bytes buf → 0 ≤ len ≤ blen buf →
  okE (buffer (blen buf)) (scatter_gather_rw ldl_le_phys sge max buf addr len dir) h.
Proof.
  intros. apply sg_loop_ok; try (done || lia).
  pose proof (Z.mod_pos_bound addr TARGET_PAGE_SIZE). lia.
Qed.

Lemma circular_sg_loop_ok fuel sge max base end_ n cur ptr len buf dir h :
  host_ok h → buffer n buf → 0 ≤ ptr → 0 ≤ len → ptr + len ≤ n →
  okE (λ p, buffer n p.1) (circular_sg_loop ldl_le_phys fuel sge max base end_ cur ptr len buf dir) h.
Proof.
  revert cur ptr len buf h.
  induction fuel as [|fuel IH]; intros cur ptr len buf h Hh Hb Hp Hlen Hn; cbn [circular_sg_loop];
    (destruct (Z.ltb_spec 0 len); [|by apply wpE_ret]); [apply wpE_raise; by right; right|].
  cbv zeta. set (k := if len <? u32 (end_ - cur) then len else u32 (end_ - cur)).
  assert (0 ≤ k ≤ len).
  { pose proof (Z.mod_pos_bound (end_ - cur) (2 ^ 32)). unfold k, u32 in *.
    destruct (Z.ltb_spec len ((end_ - cur) mod 2 ^ 32)); lia. }
  destruct (id Hb) as [Hl Hbytes].
  apply wpE_bind. eapply wpE_mono; [by apply (okE_assert _ (λ _, True))|]. intros _ h1 [Hh1 _].
  apply wpE_bind. eapply wpE_mono; [apply (okE_rd (λ bs, bytes bs ∧ blen bs = k)); [done | done | lia | lia |]|].
  { split; [by apply bytes_slice | apply blen_slice; lia]. }
  intros bs h2 [Hh2 [Hbs Hlb]].
  apply wpE_bind. eapply wpE_mono; [apply scatter_gather_ok; (done || lia)|]. intros bs' h3 [Hh3 [Hlb' Hbs']].
  apply wpE_bind. eapply wpE_mono; [apply (okE_wr (buffer n)); [done | done | lia | by apply buffer_put]|].
  intros buf' h4 [Hh4 Hb'].
  apply wpE_bind. eapply (wpE_mono _ (λ _ h, host_ok h)).
  { apply wpE_if; intros _; [|by apply wpE_ret]. apply wpE_bind, wpE_assert; [intros _; by apply wpE_ret | by left]. }
  intros cur' h5 Hh5. apply IH; (done || lia).
Qed.
Lemma circular_scatter_gather_ok sge max buf base end_ cur len dir h :
  host_ok h → bytes buf → 0 ≤ len ≤ blen buf →
  okE (λ p, bytes p.1) (circular_scatter_gather_rw ldl_le_phys sge max buf base end_ cur len dir) h.
Proof.
  intros. eapply wpE_mono; [apply (circular_sg_loop_ok _ _ _ _ _ (blen buf)); (done || lia)|].
  intros p h' [? []]. done.
Qed.

(** A register of the array. *)
Definition is_apu_reg (r : Z) : Prop := 0 ≤ r < 0x20000.
Lemma host_reg_ok r h : is_apu_reg r → host_ok h → okE (λ _, True) (host_reg r) h.
Proof. intros [] ?. apply wpE_bind, wpE_inBounds; [intros _; by apply wpE_gets | lia]. Qed.
Lemma set_reg_ok r v h : is_apu_reg r → host_ok h → okE (λ _, True) (set_apu_reg r v) h.
Proof. intros [] []. apply wpE_bind, wpE_inBounds; [intros _; by apply wpE_modify | lia]. Qed.
Lemma fifo_reg_ok r h : is_apu_reg r → host_ok h → okE (λ _, True) (fifo_reg r) h.
Proof.
  intros. apply wpE_bind. eapply wpE_mono; [by apply host_reg_ok|]. intros v h' [? _]. by apply wpE_ret.
Qed.
(** The three registers of a FIFO are in the array. *)
Lemma fifo_base_ok o i index dir h :
  0 ≤ o < 0x10000 → 0 ≤ i < 0x10000 → 0 ≤ index → host_ok h →
  okE (λ r, 0 ≤ r < 0x11000) (fifo_base o i index dir) h.
Proof.
  intros. unfold fifo_base. apply wpE_if; intros _;
    (apply wpE_bind, wpE_assert; [intros ?; apply wpE_ret; split; [done | lia] | by left]).
Qed.
(** The transfer of a FIFO, and the register that is written after it. *)
Lemma fifo_transfer_ok sge max buf base end_ cur cur_reg len dir h :
  is_apu_reg sge → is_apu_reg max → is_apu_reg cur_reg → host_ok h → bytes buf → 0 ≤ len ≤ blen buf →
  okE bytes
    (sge_base ← host_reg sge; max_sge ← host_reg max;
     p ← circular_scatter_gather_rw ldl_le_phys sge_base max_sge buf base end_ cur len dir;
     old ← host_reg cur_reg; set_apu_reg cur_reg (SET_MASK old FIFO_VALUE p.2);; mret p.1) h.
Proof.
  intros. do 2 (apply wpE_bind; eapply wpE_mono; [by apply host_reg_ok|]; intros ? ? [? _]).
  apply wpE_bind. eapply wpE_mono; [by apply circular_scatter_gather_ok|]. intros p h1 [Hh1 Hp].
  apply wpE_bind. eapply wpE_mono; [by apply host_reg_ok|]. intros ? ? [? _].
  apply wpE_bind. eapply wpE_mono; [by apply set_reg_ok|]. intros _ h2 [Hh2 _]. by apply wpE_ret.
Qed.
(** The base, the end and the position of a FIFO. *)
Lemma fifo_regs_ok {A} o i index dir (k : Z → Z → Z → Z → M Host A) P h :
  0 ≤ o < 0x10000 → 0 ≤ i < 0x10000 → 0 ≤ index → host_ok h →
  (∀ r base end_ cur h, is_apu_reg (r + 8) → host_ok h → okE P (k r base end_ cur) h) →
  okE P (r ← fifo_base o i index dir;
         base ← fifo_reg r; end_ ← fifo_reg (r + 4); cur ← fifo_reg (r + 8); k r base end_ cur) h.
Proof.
  intros Ho Hi Hix Hh Hk. apply wpE_bind. eapply wpE_mono; [by apply fifo_base_ok|]. intros r h1 [Hh1 Hr].
  do 3 (apply wpE_bind; eapply wpE_mono; [apply fifo_reg_ok; [unfold is_apu_reg; lia | done]|]; intros ? ? [? _]).
  apply Hk; [unfold is_apu_reg; lia | done].
Qed.
Lemma gp_fifo_ok buf index len dir h :
  0 ≤ index → host_ok h → bytes buf → 0 ≤ len ≤ blen buf → okE bytes (gp_fifo_rw ldl_le_phys buf index len dir) h.
Proof.
  intros Hi Hh Hb Hlen. unfold gp_fifo_rw. apply fifo_regs_ok; try (done || lia). intros r base end_ cur h1 Hr Hh1.
  apply wpE_bind. eapply wpE_mono; [by apply (okE_assert _ (λ _, True))|]. intros _ ? [? _].
  by apply fifo_transfer_ok.
Qed.
Lemma ep_sink_ok buf len h :
  host_ok h → bytes buf → 0 ≤ len ≤ blen buf → okE (λ _, True) (ep_sink_samples buf len) h.
Proof.
  intros Hh Hb Hlen. unfold ep_sink_samples. apply wpE_bind, wpE_gets, wpE_if; intros _; [by apply wpE_ret|].
  apply wpE_bind. eapply (wpE_mono _ (λ _ h, host_ok h)).
  - apply wpE_when; [intros _|done]. apply wpE_bind, wpE_assert; [intros E|by left].
    assert (len = FRAME_BUF_SIZE) by lia.
    apply wpE_bind. eapply wpE_mono; [apply (okE_rd (buffer FRAME_BUF_SIZE)); [done | lia | lia | lia |]|].
    { split; [rewrite blen_slice; lia | by apply bytes_slice]. }
    intros bs h1 [[] ?]. apply wpE_modify. by constructor.
  - intros _ h1 Hh1. by apply wpE_ret.
Qed.
Lemma ep_fifo_ok buf index len dir h :
  0 ≤ index → host_ok h → bytes buf → 0 ≤ len ≤ blen buf → okE bytes (ep_fifo_rw ldl_le_phys buf index len dir) h.
Proof.
  intros Hi Hh Hb Hlen. unfold ep_fifo_rw. apply fifo_regs_ok; try (done || lia). intros r base end_ cur h1 Hr Hh1.
  apply wpE_bind. eapply (wpE_mono _ (λ buf h, host_ok h ∧ bytes buf ∧ len ≤ blen buf)).
  { apply wpE_if; intros _; [|apply wpE_ret; split_and!; [done | done | lia]].
    apply wpE_bind. eapply wpE_mono; [by apply ep_sink_ok|]. intros b h2 [Hh2 _].
    apply wpE_if; intros _; [|apply wpE_ret; split_and!; [done | done | lia]].
    apply wpE_bind, wpE_assert; [intros E|by left]. apply wpE_ret. split_and!; [done | apply bytes_replicate |].
    unfold blen. rewrite length_replicate. lia. }
  intros buf' h2 (Hh2 & Hb' & Hlen'). apply wpE_bind. eapply (wpE_mono _ (λ _ h, host_ok h)).
  { repeat (apply wpE_if; intros _); first [by apply wpE_ret | apply wpE_raise; by right; left]. }
  intros cur' h3 Hh3. apply fifo_transfer_ok; (done || lia).
Qed.

(** *** The class that the DMA engine needs *)

Lemma zeros n : 0 ≤ n → buffer n (replicate (Z.to_nat n) 0).
Proof. intros. split; [unfold blen; rewrite length_replicate; lia | apply bytes_replicate]. Qed.
Lemma gp_port_ok : port_ok host_ok apu_fault (DmaPort0 := gp_port ldl_le_phys).
Proof.
  split; cbn [gp_port ep_port scratch_read scratch_write fifo_write].
  - intros a n h Hn Hh. do 2 (apply wpE_bind; eapply wpE_mono; [by apply host_reg_ok|]; intros ? ? [? _]).
    destruct (zeros n Hn) as [Hl Hb]. eapply wpE_mono; [apply scatter_gather_ok; [done | done | lia]|]. intros bs h' [? []]. rewrite <- Hl at 1. done.
  - intros bs a h Hb Hh. pose proof (blen_nonneg bs). apply wpE_bind.
    do 2 (apply wpE_bind; eapply wpE_mono; [by apply host_reg_ok|]; intros ? ? [? _]).
    eapply wpE_mono; [apply scatter_gather_ok; [done | done | lia]|]. intros ? ? [? _]. by apply wpE_ret.
  - intros bs i h Hi Hb Hh. pose proof (blen_nonneg bs). apply wpE_bind.
    eapply wpE_mono; [apply gp_fifo_ok; [done | done | done | lia]|]. intros ? ? [? _]. by apply wpE_ret.
Qed.
Lemma ep_port_ok : port_ok host_ok apu_fault (DmaPort0 := ep_port ldl_le_phys).
Proof.
  split; cbn [gp_port ep_port scratch_read scratch_write fifo_write].
  - intros a n h Hn Hh. do 2 (apply wpE_bind; eapply wpE_mono; [by apply host_reg_ok|]; intros ? ? [? _]).
    destruct (zeros n Hn) as [Hl Hb]. eapply wpE_mono; [apply scatter_gather_ok; [done | done | lia]|]. intros bs h' [? []]. rewrite <- Hl at 1. done.
  - intros bs a h Hb Hh. pose proof (blen_nonneg bs). apply wpE_bind.
    do 2 (apply wpE_bind; eapply wpE_mono; [by apply host_reg_ok|]; intros ? ? [? _]).
    eapply wpE_mono; [apply scatter_gather_ok; [done | done | lia]|]. intros ? ? [? _]. by apply wpE_ret.
  - intros bs i h Hi Hb Hh. pose proof (blen_nonneg bs). apply wpE_bind.
    eapply wpE_mono; [apply ep_fifo_ok; [done | done | done | lia]|]. intros ? ? [? _]. by apply wpE_ret.
Qed.
End ports.

(** ** A DSP behind a port *)

Section dsp_ops.
Context {W : Type} (Wok : W → Prop) (E : fault → Prop) (HE : E AssertFailed) (HF : E OutOfFuel).
Context `{!DmaPort W} (HW : port_ok Wok E) (fuel : nat).
Abbreviation safe := (safe Wok E).

Lemma safe_dsp_reset : safe dsp_reset.
Proof.
  apply (safeQ_bind _ _ ok).
  - apply safe_set_core. intros c []. constructor; cbn; auto; try (split; [done|]); try done.
    + repeat constructor; done.
    + repeat constructor; done.
    + repeat constructor; done.
    + by exists (replicate 5 0).
  - intros _ _ d []. apply wpE_modify. split; [|done]. by constructor.
Qed.
Lemma words_of_length n bs : length (words_of n bs) = n.
Proof. revert bs. induction n; intros bs; cbn; auto. Qed.
Lemma no_codes (l : list Z) (k : nat) : length l = k → Forall2 caches l (replicate k None).
Proof.
  intros <-. apply Forall2_same_length_lookup_2; [by rewrite length_replicate|].
  intros i x y _ Hy. apply lookup_replicate in Hy as [-> _]. done.
Qed.
Lemma bootstrapped_ok (n k : nat) bs c :
  core_ok c → Z.of_nat n ≤ 4096 → Z.of_nat k = 4096 →
  core_ok (c <| pram ::= λ l, map (λ v, v &&& 0x00ffffff) (words_of n bs) ++ drop n l |>
             <| pram_opcache := replicate k None |>).
Proof.
  intros [] Hn Hk. destruct ok_pram as [Hl Hp]. unfold blen in Hl.
  assert (length (map (λ v, v &&& 0x00ffffff) (words_of n bs) ++ drop n (pram c)) = k) as HL.
  { rewrite length_app, length_map, words_of_length, length_drop. lia. }
  constructor; cbn; auto; [|by apply no_codes].
  split; [unfold blen; lia|]. apply Forall_app. split; [|by apply Forall_drop].
  apply Forall_fmap, Forall_forall. intros v _. apply is_word_mem. cbn. bnd.
Qed.
Lemma safe_dsp_bootstrap : safe dsp_bootstrap.
Proof.
  eapply safeQ_bind; [apply (safeQ_outside _ _ (λ _, True)); intros w Hw; eapply wpE_mono; [by apply (port_read _ _ HW)|]; by intros ? ? []|].
  intros bs _. apply safe_set_core. intros c Hc. by apply (bootstrapped_ok (Z.to_nat 0x800) (Z.to_nat 4096)).
Qed.
Lemma safe_dsp_start_frame : safe dsp_start_frame.
Proof. intros d []. apply wpE_modify. split; [|done]. constructor; cbn; auto. bnd. Qed.
Lemma safe_dsp_read space a : is_u32 a → safe (dsp_read_memory fuel space a).
Proof.
  intros Ha. unfold dsp_read_memory, space_id.
  repeat case_match; simplify_eq; try (by apply safeQ_raise);
    (apply safe_read_memory; [done | by apply dsp_peripherals_safe | lia | done]).
Qed.
Lemma safe_dsp_write space a v : is_u32 a → is_u32 v → safe (dsp_write_memory fuel space a v).
Proof.
  intros Ha Hv. unfold dsp_write_memory, space_id.
  repeat case_match; simplify_eq; try (by apply safeQ_raise);
    (apply safe_write_memory; [done | by apply dsp_peripherals_safe | lia | done | done]).
Qed.

Context (HB : E BadShift).

Lemma safe_dsp_step : safe (dsp_step fuel).
Proof. intros d Hd. eapply wpE_mono; [apply (dsp_step_ok Wok E HE HF HW); auto|]. done. Qed.
Lemma safe_dsp_run_loop n t : safe (dsp_run_loop fuel n t).
Proof.
  revert t. induction n as [|n IH]; intros t; cbn [dsp_run_loop];
    (eapply (safeQ_bind _ _ (λ _, True)); [intros d Hd; by apply wpE_gets|]; intros d _;
     apply safeQ_if; intros _; [|by apply safeQ_ret]); [by apply safeQ_raise|].
  apply (safeQ_bind _ _ ok); [apply safe_dsp_step|intros _ _].
  apply (safeQ_bind _ _ ok).
  { intros s [[] ? ? ? ?]. apply wpE_modify. split; [|done]. constructor; cbn; auto. by constructor. }
  intros _ _. eapply (safeQ_bind _ _ (λ _, True)); [intros s Hs; by apply wpE_gets|]. intros s _. cbv zeta.
  apply (safeQ_bind _ _ ok).
  { apply safeQ_when; [done|intros _]. apply safe_set_dma. intros x []. constructor; cbn; auto. bnd. }
  intros _ _. apply safeQ_if; intros _; [by apply safeQ_ret | apply IH].
Qed.
Lemma safe_dsp_run n : safe (dsp_run fuel n).
Proof.
  apply (safeQ_bind _ _ ok); [intros d []; apply wpE_modify; split; [by constructor | done]|]. intros _ _.
  eapply (safeQ_bind _ _ (λ _, True)); [intros d Hd; by apply wpE_gets|]. intros d _. apply safe_dsp_run_loop.
Qed.
End dsp_ops.

(** C12. An instruction of the global or of the encode processor, whatever its word, the memories, the
    registers and the blocks of the DMA engine hold: it keeps the state well formed, and stops
    only by an assertion of the code, at a FIFO that has no bytes, at a chain of blocks that is
    longer than the fuel, or, only for the two shifts whose count is not defined, at that shift;
    no array is accessed outside of its bounds. *)
Theorem dsp_step_safe ldl_le_phys fuel (d : DSPState Host) :
  dsp_ok host_ok d →
  Forall (λ port : DmaPort Host,
    wpE (@dsp_step _ port fuel) (λ _ d', dsp_ok host_ok d')
      (λ e, apu_fault e ∨ e = BadShift ∧ ∃ w, pram (core d) !! Z.to_nat (pc (core d)) = Some w ∧ undefined_shift w = true) d)
    [gp_port ldl_le_phys; ep_port ldl_le_phys].
Proof.
  intros Hd. set (E := λ e, apu_fault e ∨ _). assert (∀ e, apu_fault e → E e) as HE by (by left).
  assert (∀ port : DmaPort Host, port_ok host_ok apu_fault → port_ok host_ok E) as HP.
  { intros port []. split; intros; (eapply wpE_mono_E; [eauto|done]). }
  repeat constructor; (apply (dsp_step_ok host_ok E); [by apply HE; left | by apply HE; right; right | apply HP | done |]).
  1: apply gp_port_ok. 2: apply ep_port_ok. all: intros w Hw Hu; right; eauto.
Qed.

(** ** The unit *)

(** What a DSP of the unit works on. *)
Definition seen_by (p : MCPXAPUState → Processor) (s : MCPXAPUState) : DSPState Host :=
  (dsp (p s)) <| rw_opaque := host s |> <| opcache := codes s |>.

Record apu_ok (s : MCPXAPUState) : Prop := {
  ok_gp : dsp_ok host_ok (seen_by gp s);
  ok_ep : dsp_ok host_ok (seen_by ep s);
  ok_frame_div : 0 ≤ ep_frame_div s;
  ok_monitor : blen (monitor_fifo s) ≤ FIFO8_CAPACITY
}.

Section requests.
Variable ldl_le_phys : list Z → Z → Z.
Variable stl_le_phys : list Z → Z → Z → list Z.
Hypothesis stl_bytes : ∀ l a v, bytes l → bytes (stl_le_phys l a v).
Variables (dma_fuel fuel : nat).
Variable vp_frame : M MCPXAPUState (Z → Z → Z).
Variable limit_volume : list Z → list Z.
Hypothesis limit_volume_ok : ∀ l, buffer FRAME_BUF_SIZE l → buffer FRAME_BUF_SIZE (limit_volume l).

(** Nothing is accessed outside of its bounds, and the process does not exit. *)
Definition unit_fault (e : fault) : Prop := e ≠ OutOfBounds ∧ e ≠ Exit.
(** An action on the unit keeps the invariant, adds nothing to the count of frames and leaves the
    bytes for the sound card. *)
Definition unit_safe {A} (Q : A → Prop) (m : M MCPXAPUState A) : Prop := ∀ s, apu_ok s →
  wpE m (λ a s', apu_ok s' ∧ ep_frame_div s' ≤ ep_frame_div s ∧ monitor_fifo s' = monitor_fifo s ∧ Q a) unit_fault s.
Abbreviation any := (λ _, True).

(** The voices are mixed to numbers of 24 bits, and the monitor may get them. *)
Hypothesis vp_frame_ok : unit_safe (λ mix, ∀ i j, is_word (mix i j)) vp_frame.

Lemma unit_fault_assert : unit_fault AssertFailed. Proof. done. Qed.
Lemma unit_fault_fuel : unit_fault OutOfFuel. Proof. done. Qed.
Lemma port_weaken `{!DmaPort Host} : port_ok host_ok apu_fault → port_ok host_ok unit_fault.
Proof.
  assert (∀ e, apu_fault e → unit_fault e) as HE by (intros e [-> | [-> | ->]]; done).
  intros []. split; intros; (eapply wpE_mono_E; [eauto|done]).
Qed.
Lemma unit_gp_port : port_ok host_ok unit_fault (DmaPort0 := gp_port ldl_le_phys).
Proof. apply port_weaken, gp_port_ok. Qed.
Lemma unit_ep_port : port_ok host_ok unit_fault (DmaPort0 := ep_port ldl_le_phys).
Proof. apply port_weaken, ep_port_ok. Qed.

Lemma us_ret {A} (Q : A → Prop) a : Q a → unit_safe Q (mret a).
Proof. intros H s Hs. by apply wpE_ret. Qed.
Lemma us_bind {A B} (Q : A → Prop) (R : B → Prop) m (k : A → M MCPXAPUState B) :
  unit_safe Q m → (∀ a, Q a → unit_safe R (k a)) → unit_safe R (m ≫= k).
Proof.
  intros Hm Hk s Hs. apply wpE_bind. eapply wpE_mono; [by apply Hm|]. intros a s' (Hs' & Hd & <- & Ha).
  eapply wpE_mono; [by apply Hk|]. intros b s2 (? & ? & ? & ?). split_and!; [done | lia | done | done].
Qed.
Lemma us_if {A} (Q : A → Prop) (b : bool) m1 m2 : unit_safe Q m1 → unit_safe Q m2 → unit_safe Q (if b then m1 else m2).
Proof. by destruct b. Qed.
Lemma us_when b m : unit_safe any m → unit_safe any (whenM b m).
Proof. intros. destruct b; [done|]. by apply us_ret. Qed.
Lemma us_gets {A} (f : MCPXAPUState → A) : unit_safe any (gets f).
Proof. intros s Hs. by apply wpE_gets. Qed.
Lemma us_state : unit_safe apu_ok (gets id).
Proof. intros s Hs. by apply wpE_gets. Qed.
Lemma us_assert b (Q : () → Prop) : (b = true → Q tt) → unit_safe Q (assertM b).
Proof. intros H s Hs. apply wpE_assert; [|done]. intros Hb. split_and!; auto. lia. Qed.
Lemma us_forM {X} (l : list X) f : (∀ x, x ∈ l → unit_safe any (f x)) → unit_safe any (forM l f).
Proof.
  induction l as [|x l IH]; intros H; cbn [forM]; [by apply us_ret|].
  eapply us_bind; [apply H; left|]. intros _ _. apply IH. intros y Hy. apply H. by right.
Qed.

(** Another DSP sees the memory and the cache that one leaves. *)
Lemma dsp_ok_swap (d d' : DSPState Host) :
  dsp_ok host_ok d → dsp_ok host_ok d' → dsp_ok host_ok (d <| rw_opaque := rw_opaque d' |> <| opcache := opcache d' |>).
Proof. intros [] []. by constructor. Qed.
Lemma us_on_gp {A} (Q : A → Prop) m : safeQ host_ok unit_fault Q m → unit_safe Q (on_gp m).
Proof.
  intros Hm s [Hg He Hd Hf]. specialize (Hm _ Hg). unfold wpE, on_gp in *. unfold seen_by in Hm.
  destruct (m _) as [[a d]|e]; [|done]. destruct Hm as [Hd' Ha]. split_and!; [|cbn; lia | done | done].
  constructor; cbn; [|by apply (dsp_ok_swap _ d) in He|done|done].
  destruct Hd'. by constructor.
Qed.
Lemma us_on_ep {A} (Q : A → Prop) m : safeQ host_ok unit_fault Q m → unit_safe Q (on_ep m).
Proof.
  intros Hm s [Hg He Hd Hf]. specialize (Hm _ He). unfold wpE, on_ep in *. unfold seen_by in Hm.
  destruct (m _) as [[a d]|e]; [|done]. destruct Hm as [Hd' Ha]. split_and!; [|cbn; lia | done | done].
  constructor; cbn; [by apply (dsp_ok_swap _ d) in Hg| |done|done].
  destruct Hd'. by constructor.
Qed.
Lemma us_on_host {A} (Q : A → Prop) (m : M Host A) :
  (∀ h, host_ok h → wpE m (λ a h', host_ok h' ∧ Q a) unit_fault h) → unit_safe Q (on_host m).
Proof.
  intros Hm s [Hg He Hd Hf]. specialize (Hm _ (ok_opaque _ _ Hg)). unfold wpE, on_host in *. cbn in Hm.
  destruct (m (host s)) as [[a h]|e]; [|done]. destruct Hm as [Hh Ha]. split_and!; [|cbn; lia | done | done].
  destruct Hg, He. constructor; [by constructor | by constructor | done | done].
Qed.
(** A change of the state that the invariant does not see. *)
Lemma us_modify f :
  (∀ s, 0 ≤ ep_frame_div s → seen_by gp (f s) = seen_by gp s ∧ seen_by ep (f s) = seen_by ep s ∧ 0 ≤ ep_frame_div (f s) ≤ ep_frame_div s ∧
        monitor_fifo (f s) = monitor_fifo s) →
  unit_safe any (modify f).
Proof.
  intros Hf s [Hg He Hd Hm]. destruct (Hf s Hd) as (E1 & E2 & E3 & E4).
  apply wpE_modify. split_and!; [|lia | done | done].
  constructor; [by rewrite E1 | by rewrite E2 | lia | by rewrite E4].
Qed.
Lemma unit_fault_weaken {S A} (m : M S A) Q s : wpE m Q apu_fault s → wpE m Q unit_fault s.
Proof. intros H. eapply wpE_mono_E; [exact H|]. intros e [-> | [-> | ->]]; done. Qed.
Lemma us_reg r : is_apu_reg r → unit_safe any (apu_reg r).
Proof. intros. apply us_on_host. intros h Hh. by apply unit_fault_weaken, host_reg_ok. Qed.
Lemma us_set_reg r v : is_apu_reg r → unit_safe any (on_host (set_apu_reg r v)).
Proof. intros. apply us_on_host. intros h Hh. by apply unit_fault_weaken, set_reg_ok. Qed.
Lemma us_inBounds b : b = true → unit_safe any (inBounds b).
Proof. intros H s Hs. apply wpE_inBounds; [|congruence]. intros _. split_and!; [done | lia | done | done]. Qed.

(** *** Registers *)

Lemma us_update_irq : unit_safe any update_irq.
Proof.
  unfold update_irq. eapply us_bind; [by apply us_reg|]. intros fectl _.
  eapply us_bind; [apply us_when; eapply us_bind; [by apply us_reg | intros; by apply us_set_reg]|]. intros _ _.
  do 2 (eapply us_bind; [by apply us_reg|]; intros ? _).
  apply us_if; (eapply us_bind; [by apply us_set_reg|]; intros _ _; apply us_modify; intros; split_and!; (done || cbn; lia)).
Qed.
Lemma us_mcpx_apu_read now addr : 0 ≤ addr → unit_safe any (mcpx_apu_read now addr).
Proof.
  intros. unfold mcpx_apu_read. apply us_if; [by apply us_ret|].
  destruct (Z.ltb_spec addr 0x20000); [by apply us_reg; split | by apply us_ret].
Qed.
Lemma us_mcpx_apu_write addr val : 0 ≤ addr → unit_safe any (mcpx_apu_write stl_le_phys addr val).
Proof.
  intros. unfold mcpx_apu_write. apply us_if; [|destruct (Z.eqb_spec addr NV_PAPU_FEMEMDATA) as [->|]].
  - eapply us_bind; [by apply us_reg|]. intros ? _. eapply us_bind; [by apply us_set_reg|]. intros _ _. apply us_update_irq.
  - eapply us_bind; [by apply us_reg|]. intros a _. apply us_on_host. intros h [].
    apply wpE_bind, wpE_modify, unit_fault_weaken, set_reg_ok; [done|]. constructor; cbn; auto.
  - destruct (Z.ltb_spec addr 0x20000); [by apply us_set_reg; split | by apply us_ret].
Qed.

(** *** Windows *)

Lemma gp_window_u32 addr space a : 0 ≤ addr < 0x10000 → gp_window addr = Some (space, a) → is_u32 a.
Proof. intros H. unfold gp_window, is_u32. intros. repeat case_match; simplify_eq; dlia. Qed.
Lemma ep_window_u32 addr space a : 0 ≤ addr < 0x10000 → ep_window addr = Some (space, a) → is_u32 a.
Proof. intros H. unfold ep_window, is_u32. intros. repeat case_match; simplify_eq; dlia. Qed.
Lemma u32_ok v : is_u32 (u32 v).
Proof. bnd. Qed.
Lemma us_proc_rst `{!DmaPort Host} (on : M (DSPState Host) unit → M MCPXAPUState unit) oldval val :
  port_ok host_ok unit_fault → (∀ m, safe host_ok unit_fault m → unit_safe any (on m)) →
  unit_safe any (proc_rst_write on oldval val).
Proof.
  intros HP Hon. unfold proc_rst_write. repeat apply us_if.
  - apply Hon, safe_dsp_reset.
  - by apply Hon, safe_dsp_bootstrap.
  - by apply us_ret.
Qed.
Lemma us_gp m : safe host_ok unit_fault m → unit_safe any (on_gp (A := unit) m).
Proof. intros. apply us_on_gp. eapply safeQ_mono; [done|]. done. Qed.
Lemma us_ep m : safe host_ok unit_fault m → unit_safe any (on_ep (A := unit) m).
Proof. intros. apply us_on_ep. eapply safeQ_mono; [done|]. done. Qed.

Lemma us_gp_reg addr : 0 ≤ addr < 0x10000 → unit_safe any (gp_reg addr).
Proof.
  intros. eapply us_bind; [apply us_inBounds; lia|]. intros _ _.
  eapply us_bind; [apply us_gets|]. intros. by apply us_ret.
Qed.
Lemma us_set_gp_reg addr v : 0 ≤ addr < 0x10000 → unit_safe any (set_gp_reg addr v).
Proof.
  intros. eapply us_bind; [apply us_inBounds; lia|]. intros _ _. apply us_modify. intros. split_and!; (done || cbn; lia).
Qed.
Lemma us_gp_read addr size : 0 ≤ addr < 0x10000 → unit_safe any (gp_read ldl_le_phys dma_fuel addr size).
Proof.
  intros Ha. unfold gp_read. do 2 (eapply us_bind; [by apply (us_assert _ any)|]; intros _ _).
  destruct (gp_window addr) as [[space a]|] eqn:Hw.
  - apply us_on_gp. eapply safeQ_mono; [apply safe_dsp_read; [done | done | apply unit_gp_port | by eapply gp_window_u32]|]. done.
  - by apply us_gp_reg.
Qed.
Lemma us_ep_reg addr : 0 ≤ addr < 0x10000 → unit_safe any (ep_reg addr).
Proof.
  intros. eapply us_bind; [apply us_inBounds; lia|]. intros _ _.
  eapply us_bind; [apply us_gets|]. intros. by apply us_ret.
Qed.
Lemma us_set_ep_reg addr v : 0 ≤ addr < 0x10000 → unit_safe any (set_ep_reg addr v).
Proof.
  intros. eapply us_bind; [apply us_inBounds; lia|]. intros _ _. apply us_modify. intros. split_and!; (done || cbn; lia).
Qed.
Lemma us_ep_read addr size : 0 ≤ addr < 0x10000 → unit_safe any (ep_read ldl_le_phys dma_fuel addr size).
Proof.
  intros Ha. unfold ep_read. do 2 (eapply us_bind; [by apply (us_assert _ any)|]; intros _ _).
  destruct (ep_window addr) as [[space a]|] eqn:Hw.
  - apply us_on_ep. eapply safeQ_mono; [apply safe_dsp_read; [done | done | apply unit_ep_port | by eapply ep_window_u32]|]. done.
  - by apply us_ep_reg.
Qed.
Lemma us_gp_write addr val size : 0 ≤ addr < 0x10000 → unit_safe any (gp_write ldl_le_phys dma_fuel addr val size).
Proof.
  intros Ha. unfold gp_write. do 2 (eapply us_bind; [by apply (us_assert _ any)|]; intros _ _).
  destruct (gp_window addr) as [[space a]|] eqn:Hw.
  - apply us_gp, safe_dsp_write; [done | done | apply unit_gp_port | by eapply gp_window_u32 | apply u32_ok].
  - eapply us_bind.
    + apply us_when. eapply us_bind; [by apply us_gp_reg|]. intros p _. apply us_proc_rst; [apply unit_gp_port | apply us_gp].
    + intros _ _. by apply us_set_gp_reg.
Qed.
Lemma us_ep_write addr val size : 0 ≤ addr < 0x10000 → unit_safe any (ep_write ldl_le_phys dma_fuel addr val size).
Proof.
  intros Ha. unfold ep_write. do 2 (eapply us_bind; [by apply (us_assert _ any)|]; intros _ _).
  destruct (ep_window addr) as [[space a]|] eqn:Hw.
  - apply us_ep, safe_dsp_write; [done | done | apply unit_ep_port | by eapply ep_window_u32 | apply u32_ok].
  - eapply us_bind.
    + apply us_when. eapply us_bind; [by apply us_ep_reg|]. intros p _.
      eapply us_bind; [apply us_proc_rst; [apply unit_ep_port | apply us_ep]|]. intros _ _.
      apply us_modify. intros. split_and!; (done || cbn; lia).
    + intros _ _. by apply us_set_ep_reg.
Qed.

(** *** Frames *)

Lemma unit_fault_shift : unit_fault BadShift. Proof. done. Qed.
Lemma safe_run_until_idle `{!DmaPort Host} n realtime :
  port_ok host_ok unit_fault → safe host_ok unit_fault (run_until_idle dma_fuel n realtime).
Proof.
  intros HP. induction n as [|n IH]; cbn [run_until_idle];
    (eapply (safeQ_bind _ _ ok); [by apply safe_dsp_run|]; intros _ _;
     eapply (safeQ_bind _ _ any); [intros d Hd; by apply wpE_gets|]; intros d _;
     apply safeQ_if; intros _; [|by apply safeQ_ret]); [by apply safeQ_raise | exact IH].
Qed.
Lemma safe_run_frame `{!DmaPort Host} n realtime :
  port_ok host_ok unit_fault → safe host_ok unit_fault (run_frame dma_fuel n realtime).
Proof.
  intros HP. eapply (safeQ_bind _ _ ok); [apply safe_dsp_start_frame|]. intros _ _.
  eapply (safeQ_bind _ _ ok); [apply safe_set_core; intros c []; by constructor|]. intros _ _.
  by apply safe_run_until_idle.
Qed.
Lemma us_put_sample at_ v : 0 ≤ at_ → at_ + 2 ≤ FRAME_BUF_SIZE → unit_safe any (on_host (put_sample at_ v)).
Proof.
  intros. apply us_on_host. intros h [Hr [Hl Hb]]. apply wpE_bind, wpE_gets. apply wpE_bind. unfold wpE at 1.
  rewrite run_wr; [|done|rewrite blen_le_bytes; unfold id; lia].
  apply wpE_modify. split; [|done]. constructor; [done|]. apply buffer_put; [done | apply bytes_le_bytes].
Qed.
Lemma us_monitor_sample off i :
  0 ≤ off ≤ 224 → 0 ≤ i < 32 → unit_safe any (monitor_sample ldl_le_phys dma_fuel off i).
Proof.
  intros. unfold monitor_sample.
  assert (∀ a, is_u32 a → unit_safe any (on_gp (@dsp_read_memory _ (gp_port ldl_le_phys) dma_fuel 0x58 a))) as Hr.
  { intros a Ha. apply us_on_gp. eapply safeQ_mono; [by apply safe_dsp_read; [| |apply unit_gp_port|]|]. done. }
  eapply us_bind; [apply Hr; unfold is_u32; lia|]. intros l _. eapply us_bind; [apply us_put_sample; lia|]. intros _ _.
  eapply us_bind; [apply Hr; unfold is_u32; lia|]. intros r _. apply us_put_sample; lia.
Qed.
Lemma us_dsp_frame mixbins :
  (∀ i j, is_word (mixbins i j)) → unit_safe any (mcpx_apu_dsp_frame ldl_le_phys dma_fuel fuel mixbins).
Proof.
  intros Hmix. unfold mcpx_apu_dsp_frame. eapply us_bind.
  { apply us_forM. intros b Hb%elem_of_seqZ. apply us_forM. intros j Hj%elem_of_seqZ.
    apply us_gp, safe_dsp_write; [done | done | apply unit_gp_port | unfold is_u32; lia |].
    specialize (Hmix b j). unfold is_word, is_u32 in *. lia. }
  intros _ _. eapply us_bind; [by apply us_ep_reg|]. intros ep_rst _. cbv zeta.
  eapply us_bind; [by apply us_gp_reg|]. intros gp_rst _. eapply us_bind.
  { apply us_when. eapply us_bind; [apply us_gets|]. intros s _.
    eapply us_bind; [apply us_gp, safe_run_frame, unit_gp_port|]. intros _ _.
    eapply us_bind; [apply us_state|]. intros s1 Hs1. apply us_when, us_forM. intros i Hi%elem_of_seqZ.
    pose proof (Z.rem_bound_pos (ep_frame_div s1) 8 (ok_frame_div _ Hs1)). apply us_monitor_sample; lia. }
  intros _ _. eapply us_bind; [apply us_gets|]. intros s1 _.
  do 2 apply us_when. apply us_ep, safe_run_frame, unit_ep_port.
Qed.

Lemma us_update_preference b : unit_safe any (mcpx_apu_update_dsp_preference b).
Proof.
  eapply us_bind; [apply us_gets|]. intros s _. apply us_if; [by apply us_ret|].
  apply (us_bind any); [apply us_on_host; intros h []; apply wpE_modify; split; [by constructor | done]|]. intros _ _.
  apply us_modify. intros. split_and!; (done || cbn; lia).
Qed.
Lemma us_stopped : unit_safe any stopped.
Proof. do 2 (eapply us_bind; [by apply us_reg|]; intros ? _). by apply us_ret. Qed.
Lemma us_thread_irq : unit_safe any frame_thread_irq.
Proof.
  eapply us_bind; [apply us_stopped|]. intros b _. eapply us_bind.
  { apply us_when, us_modify. intros. split_and!; (done || cbn; lia). }
  intros _ _. eapply us_bind; [apply us_gets|]. intros s _. apply us_when.
  eapply us_bind; [apply us_update_irq|]. intros _ _. apply us_modify. intros. split_and!; (done || cbn; lia).
Qed.
Lemma no_opcodes_ok (k : nat) c : Z.of_nat k = 4096 → core_ok c → core_ok (c <| pram_opcache := replicate k None |>).
Proof. intros Hk []. constructor; cbn; auto. apply no_codes. unfold blen in *. lia. Qed.
Lemma us_reset : unit_safe any mcpx_apu_reset.
Proof.
  apply (us_bind any); [apply us_on_host; intros h []; apply wpE_modify; split; [by constructor | done]|]. intros _ _.
  apply (us_bind any); [apply us_gp, safe_set_core; intros c; by apply (no_opcodes_ok (Z.to_nat 4096))|]. intros _ _.
  apply (us_bind any); [apply us_ep, safe_set_core; intros c; by apply (no_opcodes_ok (Z.to_nat 4096))|]. intros _ _.
  apply us_modify. intros. split_and!; (done || cbn; lia).
Qed.

(** A frame: nothing, or the bytes of a whole buffer, go to the sound card. *)
Definition pushes (s s' : MCPXAPUState) (fr : list Z) : Prop :=
  (fr = [] ∨ blen fr = FRAME_BUF_SIZE) ∧ monitor_fifo s' = monitor_fifo s ++ fr.
Abbreviation framed s := (λ _ s', apu_ok s' ∧ ep_frame_div s' ≤ ep_frame_div s + 1 ∧ ∃ fr, pushes s s' fr).

Lemma push_frame_ok s :
  apu_ok s →
  wpE (on_host (modify (λ h, h <| frame_buf ::= limit_volume |>));;
       s ← gets id;
       assertM (FRAME_BUF_SIZE <=? FIFO8_CAPACITY - blen (monitor_fifo s));;
       modify (λ s, s <| monitor_fifo ::= λ l, l ++ frame_buf (host s) |>);;
       on_host (modify (λ h, h <| frame_buf := replicate (Z.to_nat FRAME_BUF_SIZE) 0 |>)))
    (λ _ s', apu_ok s' ∧ ep_frame_div s' = ep_frame_div s ∧ ∃ fr, pushes s s' fr) unit_fault s.
Proof.
  intros [Hg He Hd Hm]. destruct (ok_opaque _ _ Hg) as [Hr Hb]. cbn in Hr, Hb. apply limit_volume_ok in Hb.
  apply wpE_bind. unfold wpE at 1. cbn. apply wpE_bind, wpE_gets, wpE_bind, wpE_assert; [intros Hroom|done].
  apply wpE_bind, wpE_modify. unfold wpE. cbn. cbn in Hroom.
  split_and!; [|done|eexists; split; [right; apply Hb | done]].
  assert (buffer FRAME_BUF_SIZE (replicate (Z.to_nat FRAME_BUF_SIZE) 0)) by (by apply zeros).
  destruct Hg, He. constructor; [by constructor | by constructor | done |].
  cbn. rewrite blen_app. destruct Hb as [-> _]. lia.
Qed.
Lemma se_frame_ok use_dsp s :
  apu_ok s → ep_frame_div s < 2 ^ 31 - 1 →
  wpE (se_frame ldl_le_phys dma_fuel vp_frame limit_volume fuel use_dsp) (framed s) unit_fault s.
Proof.
  intros Hs Hdiv. unfold se_frame.
  apply wpE_bind. eapply wpE_mono; [by apply us_update_preference|]. intros _ s1 (Hs1 & Hd1 & Hm1 & _).
  apply wpE_bind, wpE_gets, wpE_if; intros _.
  { apply wpE_ret. split_and!; [done | lia |]. exists []. split; [by left | by rewrite app_nil_r]. }
  apply wpE_bind. eapply wpE_mono; [by apply vp_frame_ok|]. intros mix s2 (Hs2 & Hd2 & Hm2 & Hmix).
  apply wpE_bind. eapply wpE_mono; [by apply us_dsp_frame|]. intros _ s3 (Hs3 & Hd3 & Hm3 & _).
  apply wpE_bind, wpE_gets, wpE_bind.
  eapply (wpE_mono _ (λ _ s', apu_ok s' ∧ ep_frame_div s' = ep_frame_div s3 ∧ ∃ fr, pushes s3 s' fr)).
  { apply wpE_when; intros _; [by apply push_frame_ok|]. split_and!; [done | done |].
    exists []. split; [by left | by rewrite app_nil_r]. }
  intros _ s4 (Hs4 & Hd4 & fr & Hfr & Hm4). apply wpE_bind, wpE_modify, wpE_ret.
  destruct Hs4 as [Hg He H0 Hm]. assert (s32 (ep_frame_div s4 + 1) = ep_frame_div s4 + 1) as Hi.
  { unfold s32. rewrite Z.mod_small; lia. }
  split_and!; [constructor; cbn; [done | done | rewrite Hi; lia | done] | cbn; rewrite Hi; lia |].
  exists fr. split; [done|]. cbn. congruence.
Qed.

(** *** Requests *)

(** What the guest, the thread of the unit and the sound card ask for. *)
Inductive request :=
  | ReadReg (now addr : Z) | WriteReg (addr val : Z)
  | GpRead (addr size : Z) | GpWrite (addr val size : Z)
  | EpRead (addr size : Z) | EpWrite (addr val size : Z)
  | ResetUnit | ThreadIrq | ThreadFrame (use_dsp : bool) | Sink (running : bool) (free_b : Z).
(** The region of the unit has 0x80000 bytes and the windows of the processors 0x10000. *)
Definition request_ok (r : request) : Prop :=
  match r with
  | ReadReg _ addr | WriteReg addr _ => 0 ≤ addr < 0x80000
  | GpRead addr _ | GpWrite addr _ _ | EpRead addr _ | EpWrite addr _ _ => 0 ≤ addr < 0x10000
  | _ => True
  end.

Abbreviation silent m := (m;; mret (A := list Z) []).
(** The result has the bytes that go to the sound card. *)
Definition serve (r : request) : M MCPXAPUState (list Z) :=
  match r with
  | ReadReg now addr => silent (mcpx_apu_read now addr)
  | WriteReg addr val => silent (mcpx_apu_write stl_le_phys addr val)
  | GpRead addr size => silent (gp_read ldl_le_phys dma_fuel addr size)
  | GpWrite addr val size => silent (gp_write ldl_le_phys dma_fuel addr val size)
  | EpRead addr size => silent (ep_read ldl_le_phys dma_fuel addr size)
  | EpWrite addr val size => silent (ep_write ldl_le_phys dma_fuel addr val size)
  | ResetUnit => silent mcpx_apu_reset
  | ThreadIrq => silent frame_thread_irq
  | ThreadFrame use_dsp => silent (frame_thread_frame ldl_le_phys dma_fuel vp_frame limit_volume fuel use_dsp)
  | Sink running free_b =>
      bs ← monitor_sink_cb running free_b; mret (if running then default [] bs else [])
  end.
Fixpoint serve_all (rs : list request) : M MCPXAPUState (list Z) :=
  match rs with
  | [] => mret []
  | r :: rs => out ← serve r; outs ← serve_all rs; mret (out ++ outs)
  end.

(** The bytes that went to the sound card and those that wait follow what waited and the frames. *)
Definition streams (s : MCPXAPUState) (out : list Z) (s' : MCPXAPUState) : Prop :=
  ∃ frs, Forall (λ fr, blen fr = FRAME_BUF_SIZE) frs ∧ out ++ monitor_fifo s' = monitor_fifo s ++ concat frs.
Abbreviation served s := (λ out s', apu_ok s' ∧ ep_frame_div s' ≤ ep_frame_div s + 1 ∧ streams s out s').

Lemma silent_served {A} (Q : A → Prop) (m : M MCPXAPUState A) s :
  unit_safe Q m → apu_ok s → wpE (silent m) (served s) unit_fault s.
Proof.
  intros Hm Hs. apply wpE_bind. eapply wpE_mono; [by apply Hm|]. intros a s' (Hs' & Hd & Hf & _). apply wpE_ret.
  split_and!; [done | lia |]. exists []. split; [constructor|]. by rewrite app_nil_r, Hf.
Qed.
Lemma framed_served (m : M MCPXAPUState bool) s :
  wpE m (framed s) unit_fault s → wpE (silent m) (served s) unit_fault s.
Proof.
  intros Hm. apply wpE_bind. eapply wpE_mono; [done|]. intros _ s' (Hs' & Hd & fr & Hfr & Hm'). apply wpE_ret.
  split_and!; [done | done |]. destruct Hfr as [-> | Hl].
  - exists []. split; [constructor | done].
  - exists [fr]. split; [by repeat constructor|]. cbn. by rewrite app_nil_r.
Qed.
Lemma sink_served running free_b s : apu_ok s → wpE (serve (Sink running free_b)) (served s) unit_fault s.
Proof.
  intros Hs. assert (∀ out s', out ++ monitor_fifo s' = monitor_fifo s → streams s out s') as Hst.
  { intros out s' Ho. exists []. split; [constructor|]. by rewrite app_nil_r. }
  destruct running; cbn [serve]; apply wpE_bind, wpE_bind, wpE_gets.
  - cbn [negb]. apply wpE_if; intros Hb.
    + apply wpE_ret, wpE_ret. split_and!; [done | lia | by apply Hst].
    + apply wpE_bind, wpE_modify, wpE_ret, wpE_ret. destruct Hs as [Hg He Hd Hm]. unfold blen in *.
      split_and!; [constructor; cbn; [done | done | done |] | cbn; lia | apply Hst, take_drop].
      unfold blen. rewrite length_drop. lia.
  - apply wpE_ret, wpE_ret. split_and!; [done | lia | by apply Hst].
Qed.
Lemma serve_ok r s :
  request_ok r → apu_ok s → ep_frame_div s < 2 ^ 31 - 1 → wpE (serve r) (served s) unit_fault s.
Proof.
  intros Hr Hs Hd. destruct r.
  9: { apply framed_served. unfold frame_thread_frame. apply wpE_bind.
  eapply wpE_mono; [by apply us_stopped|]. intros b s' (Hs' & Hd' & Hf & _). apply wpE_if; intros _.
  - apply wpE_ret. split_and!; [done | lia |]. exists []. split; [by left | by rewrite app_nil_r].
  - eapply wpE_mono; [apply se_frame_ok; [done | lia]|]. intros ? s2 (? & ? & fr & ? & ?).
    split_and!; [done | lia |]. exists fr. split; [done | congruence]. }
  - apply (silent_served any), Hs. by apply us_mcpx_apu_read, Hr.
  - apply (silent_served any), Hs. by apply us_mcpx_apu_write, Hr.
  - by apply (silent_served any), Hs; apply us_gp_read.
  - by apply (silent_served any), Hs; apply us_gp_write.
  - by apply (silent_served any), Hs; apply us_ep_read.
  - by apply (silent_served any), Hs; apply us_ep_write.
  - by apply (silent_served any), Hs; apply us_reset.
  - by apply (silent_served any), Hs; apply us_thread_irq.
  - by apply sink_served.
Qed.

(** C4. The audio unit: whatever the guest reads and writes in the region of the unit and in the
    windows of its two DSPs, whatever programs the DSPs run and whenever the sound card asks for
    samples, no access is outside of an array (the registers included), a buffer or the memory of
    the machine, and the arrays, values and caches of opcodes stay well formed; the bytes that the
    sound card got, with those that wait for it, are those that waited before and then whole
    frames in order.  A request may stop the process only by a failed assertion, a division by
    zero, an undefined shift or at the end of the fuel.

    Conditions: the count of frames, which a request increases by at most one, stays below 2^31
    ([ApuSpec.frame_count_overflows] is what happens after that), and the parameters for code that
    is not modelled behave: the voice processor [vp_frame] keeps the invariant and mixes to samples
    of 24 bits, the limit of the volume keeps the size of the buffer, and a store to memory keeps
    bytes bytes ([vp_frame_ok], [limit_volume_ok], [stl_bytes]). *)
Theorem apu_requests_safe rs s :
  Forall request_ok rs → apu_ok s → ep_frame_div s + Z.of_nat (length rs) < 2 ^ 31 →
  wpE (serve_all rs) (λ out s', apu_ok s' ∧ streams s out s') unit_fault s.
Proof.
  intros Hrs. revert s. induction Hrs as [|r rs Hr Hrs IH]; intros s Hs Hd; cbn [serve_all].
  - apply wpE_ret. split; [done|]. exists []. split; [constructor | by rewrite app_nil_r].
  - cbn [length] in Hd. apply wpE_bind. eapply wpE_mono; [apply serve_ok; [done | done | lia]|].
    intros out s1 (Hs1 & Hd1 & frs & Hfrs & Hm). apply wpE_bind.
    eapply wpE_mono; [apply IH; [done | lia]|]. intros outs s2 (Hs2 & frs2 & Hfrs2 & Hm2). apply wpE_ret.
    split; [done|]. exists (frs ++ frs2). split; [by apply Forall_app|].
    by rewrite <- app_assoc, Hm2, app_assoc, Hm, concat_app, app_assoc.
Qed.
End requests.

(** ** The unit at its creation *)

Lemma memory_ok (n : nat) v z : is_mem v → Z.of_nat n = z → blen (replicate n v) = z ∧ Forall is_mem (replicate n v).
Proof. intros Hv <-. split; [unfold blen; by rewrite length_replicate | by apply Forall_replicate]. Qed.
Lemma array_ok (n : nat) z : Z.of_nat n = z → blen (replicate n 0) = z ∧ Forall is_u32 (replicate n 0).
Proof. intros <-. split; [unfold blen; by rewrite length_replicate | by apply Forall_replicate]. Qed.

(** The core of [dsp_init] before its reset, but for the levels of the interrupts, which it sets. *)
Definition levels_set (c : dsp_core_t) : dsp_core_t := c <| interrupt_ipl := replicate 5 3 ++ replicate 7 (-1) |>.
Lemma zero_core_ok : core_ok (levels_set zero_core).
Proof.
  constructor; unfold levels_set, zero_core, field_update; cbn -[replicate Z.to_nat]; try done;
    try (apply array_ok; by rewrite ?Z2Nat.id); try (apply memory_ok; [done | by rewrite Z2Nat.id]).
  - by apply no_codes; rewrite length_replicate.
  - by exists (replicate 5 0).
Qed.
Lemma dsp_init_ok h : host_ok h → dsp_ok host_ok (dsp_init h).
Proof.
  intros Hh. unfold dsp_init. set (d := {| core := zero_core |}).
  set (d' := d <| core ::= levels_set |>). assert (dsp_reset d = dsp_reset d') as -> by reflexivity.
  assert (dsp_ok host_ok d') as Hd.
  { constructor; [apply zero_core_ok | by constructor | done | done |]. cbn -[replicate Z.to_nat].
    split; [rewrite length_replicate; lia | apply Forall_replicate; done]. }
  pose proof (safe_dsp_reset host_ok (λ _, False) d' Hd) as H. unfold wpE in H.
  destruct (dsp_reset d') as [[u x]|e]; [apply H | done].
Qed.
Lemma set_pram_ok (n : nat) v c :
  core_ok c → is_mem v → Z.of_nat n = 4096 → pram_opcache c = replicate n None → core_ok (c <| pram := replicate n v |>).
Proof.
  intros [] Hv Hn Hc. constructor; cbn; auto; [by apply memory_ok|]. rewrite Hc. apply no_codes. by rewrite length_replicate.
Qed.
Lemma set_memories_ok (n m : nat) v c :
  core_ok c → is_mem v → Z.of_nat n = 4096 → Z.of_nat m = 2048 →
  core_ok (c <| xram := replicate n v |> <| yram := replicate m v |>).
Proof. intros [] Hv Hn Hm. constructor; cbn; auto; by apply memory_ok. Qed.
Lemma dsp_ok_set_core f (d : DSPState Host) :
  dsp_ok host_ok d → core_ok (f (core d)) → dsp_ok host_ok (d <| core ::= f |>).
Proof. intros [] H. by constructor. Qed.

Lemma mcpx_apu_init_ok use_dsp memory : bytes memory → apu_ok (mcpx_apu_init use_dsp memory).
Proof.
  intros Hm. assert (apu_ok (mcpx_apu_zero memory)) as H0.
  { unfold mcpx_apu_zero. set (h := {| ram := memory |}).
    assert (host_ok h) as Hh by (constructor; [done | by apply zeros]).
    pose proof (dsp_init_ok h Hh) as Hd. unfold mcpx_apu_dsp_init.
    assert (∀ d, dsp_ok host_ok d → opcache d = replicate (Z.to_nat 256) (0, None) → rw_opaque d = h →
      dsp_ok host_ok (d <| rw_opaque := h |> <| opcache := replicate (Z.to_nat 256) (0, None) |>)) as Hs.
    { intros d [] E1 E2. rewrite E1 in *. rewrite E2 in *. by constructor. }
    assert (core_ok ((core (dsp_init h)) <| pram := replicate (Z.to_nat 4096) 0xCACACACA |>)) as Hp.
    { apply set_pram_ok; [apply Hd | done | by rewrite Z2Nat.id | done]. }
    constructor; [apply Hs | apply Hs | done | done]; try reflexivity; (apply dsp_ok_set_core; [exact Hd|]); [exact Hp|].
    apply (set_memories_ok (Z.to_nat 4096) (Z.to_nat 2048) 0xCACACACA) in Hp;
      [exact Hp | done | by rewrite Z2Nat.id | by rewrite Z2Nat.id]. }
  unfold mcpx_apu_init. pose proof (us_update_preference use_dsp _ H0) as H. unfold wpE in H.
  destruct (mcpx_apu_update_dsp_preference _ _) as [[u x]|e]; [apply H | done].
Qed.
