(* ===== verification/ApuSpec.v ===== *)
(** * ApuSpec: what the transfers of the audio unit do

    A buffer that is written by scatter-gather is where the page table says, byte for byte, and
    reads back; a FIFO is written in a circle.  Transfers that hang, that stop the process and a
    count that overflows are at the end. *)

From stdpp Require Import base numbers list option.
From S2P Require Import Prelude.
From S2P Require Import DspCore.
From S2P Require Import DspSafe.
From S2P Require Import Dsp.
From S2P Require Import DspDma.
From S2P Require Import DspDmaSpec.
From S2P Require Import Apu.
From S2P Require Import ApuSafe.

(** ** Scatter and gather *)

Section sg.
Variable ldl_le_phys : list Z → Z → Z.
Variables (sge_base max_sge : Z).

(** The byte at an address of a memory. *)
Definition at_ (l : list Z) (p : Z) : option Z := l !! Z.to_nat p.
(** Where the byte [i] of the pages is in the memory. *)
Definition frame_of (l : list Z) (i : Z) : Z := ldl_le_phys l (sge_base + i / TARGET_PAGE_SIZE * 8).
Definition phys (l : list Z) (i : Z) : Z := frame_of l i + i mod TARGET_PAGE_SIZE.

(** The pages of the bytes from [lo] to [hi] are in the table and in the memory, none of them twice,
    and a change in them does not change the table. *)
Record paged (l : list Z) (lo hi : Z) : Prop := {
  pg_size : blen l ≤ 2 ^ 32;
  pg_frame : ∀ i, lo ≤ i < hi → i / TARGET_PAGE_SIZE ≤ max_sge ∧ 0 ≤ frame_of l i ∧ phys l i + 1 < blen l;
  pg_inj : ∀ i j, lo ≤ i < hi → lo ≤ j < hi → phys l i = phys l j → i = j;
  pg_table : ∀ l', blen l' = blen l → (∀ p, 0 ≤ p → (∀ i, lo ≤ i < hi → phys l i ≠ p) → at_ l' p = at_ l p) →
             ∀ i, lo ≤ i < hi → frame_of l' i = frame_of l i
}.

Section region.
Context (l0 : list Z) (lo hi : Z) (HP : paged l0 lo hi) (Hlo : 0 ≤ lo).

(** A memory that differs from the first one in the pages only. *)
Definition agrees (l : list Z) : Prop :=
  blen l = blen l0 ∧ ∀ p, 0 ≤ p → (∀ i, lo ≤ i < hi → phys l0 i ≠ p) → at_ l p = at_ l0 p.

Lemma agrees_phys l i : agrees l → lo ≤ i < hi → phys l i = phys l0 i.
Proof. intros [Hl Ha] Hi. unfold phys. by rewrite (pg_table _ _ _ HP l Hl Ha i Hi). Qed.
Lemma phys_pos i : lo ≤ i < hi → 0 ≤ phys l0 i < blen l0 - 1.
Proof.
  intros Hi. destruct (pg_frame _ _ _ HP i Hi) as (_ & ? & ?). unfold phys in *.
  pose proof (Z.mod_pos_bound i TARGET_PAGE_SIZE). lia.
Qed.
(** Bytes of the same page. *)
Lemma phys_add i j :
  0 ≤ i → 0 ≤ j < TARGET_PAGE_SIZE - i mod TARGET_PAGE_SIZE → phys l0 (i + j) = phys l0 i + j.
Proof.
  intros Hi Hj. unfold phys, frame_of.
  assert ((i + j) / TARGET_PAGE_SIZE = i / TARGET_PAGE_SIZE) as -> by dlia.
  assert ((i + j) mod TARGET_PAGE_SIZE = i mod TARGET_PAGE_SIZE + j) by dlia. lia.
Qed.

(** The chunk of a page that one turn of the loop copies. *)
Definition chunk (cur len : Z) : Z := Z.min len (TARGET_PAGE_SIZE - cur mod TARGET_PAGE_SIZE).
Lemma chunk_pos cur len : 0 < len → 0 < chunk cur len ≤ len.
Proof. intros. unfold chunk. pose proof (Z.mod_pos_bound cur TARGET_PAGE_SIZE). lia. Qed.
Lemma chunk_next cur len :
  0 ≤ cur → 0 < len → len - chunk cur len = 0 ∨
  cur / TARGET_PAGE_SIZE + 1 = (cur + chunk cur len) / TARGET_PAGE_SIZE ∧ 0 = (cur + chunk cur len) mod TARGET_PAGE_SIZE.
Proof. intros. unfold chunk. dlia. Qed.

(** One turn. *)
Lemma sg_turn fuel off k cur ptr len buf dir h :
  agrees (ram h) → lo ≤ cur → cur + len ≤ hi → 0 < len →
  off = cur mod TARGET_PAGE_SIZE → k = TARGET_PAGE_SIZE - off →
  let n := chunk cur len in let p := phys l0 cur in
  0 ≤ p ∧ p + n < blen (ram h) ∧
  sg_loop ldl_le_phys (S fuel) sge_base max_sge (cur / TARGET_PAGE_SIZE) off k ptr len buf dir h =
  (buf ← (if dir then
            bs ← rd buf ptr n; ram' ← wr (ram h) p bs; modify (λ h, h <| ram := ram' |>);; mret buf
          else bs ← rd (ram h) p n; wr buf ptr bs);
   sg_loop ldl_le_phys fuel sge_base max_sge (cur / TARGET_PAGE_SIZE + 1) 0 TARGET_PAGE_SIZE (ptr + n) (len - n) buf dir) h.
Proof.
  intros Ha Hc Hhi Hlen -> -> n p. pose proof (chunk_pos cur len Hlen) as Hn. fold n in Hn.
  pose proof (phys_pos cur ltac:(lia)) as Hp. fold p in Hp.
  pose proof (phys_pos (cur + (n - 1)) ltac:(lia)) as Hq. rewrite phys_add in Hq; [|lia|unfold n, chunk in *; lia]. fold p in Hq.
  destruct Ha as [Hl Ha]. split; [lia|]. split; [lia|].
  cbn [sg_loop]. rewrite (proj2 (Z.ltb_lt 0 len) Hlen).
  destruct (pg_frame _ _ _ HP cur ltac:(lia)) as (Hmax & Hf & _).
  rewrite (run_bind _ _ tt _ h); [|apply run_assert; lia]. rewrite (run_bind _ _ h _ h) by done. cbv zeta.
  assert (u32 (ldl_le_phys (ram h) (sge_base + cur / TARGET_PAGE_SIZE * 8) + cur mod TARGET_PAGE_SIZE) = p) as ->.
  { change (u32 (phys (ram h) cur) = p). rewrite agrees_phys by (done || lia). apply u32_id.
    pose proof (pg_size _ _ _ HP). unfold is_u32. lia. }
  replace (if len <? TARGET_PAGE_SIZE - cur mod TARGET_PAGE_SIZE then len else TARGET_PAGE_SIZE - cur mod TARGET_PAGE_SIZE)
    with n by (unfold n, chunk; destruct (Z.ltb_spec len (TARGET_PAGE_SIZE - cur mod TARGET_PAGE_SIZE)); lia).
  rewrite (run_bind _ _ tt _ h); [done|]. apply run_assert. lia.
Qed.

Lemma at_put p bs l q :
  0 ≤ p → p + blen bs ≤ blen l → 0 ≤ q →
  at_ (put p bs l) q = if decide (p ≤ q < p + blen bs) then at_ bs (q - p) else at_ l q.
Proof.
  intros Hp Hb Hq. unfold at_. rewrite lookup_put by done. rewrite Z2Nat.id by done.
  case_decide; [|done]. f_equal. lia.
Qed.
Lemma at_slice p n l q : 0 ≤ p → 0 ≤ q < n → at_ (slice p n l) q = at_ l (p + q).
Proof.
  intros Hp Hq. unfold at_. rewrite lookup_slice by done. rewrite decide_True by lia. f_equal. lia.
Qed.
(** The bytes of a chunk are those of its page. *)
Lemma in_chunk cur len n q :
  lo ≤ cur → cur + len ≤ hi → 0 < len → n = chunk cur len →
  phys l0 cur ≤ q < phys l0 cur + n ↔ ∃ j, 0 ≤ j < n ∧ phys l0 (cur + j) = q.
Proof.
  intros Hc Hhi Hlen ->. split.
  - intros Hq. exists (q - phys l0 cur). split; [lia|]. rewrite phys_add; unfold chunk in *; lia.
  - intros (j & Hj & <-). rewrite phys_add; unfold chunk in *; lia.
Qed.

(** What a write of [len] bytes at [cur] makes of the memory. *)
Definition written (l l' buf : list Z) (cur ptr len : Z) : Prop :=
  agrees l' ∧ (∀ j, 0 ≤ j < len → at_ l' (phys l0 (cur + j)) = at_ buf (ptr + j)) ∧
  ∀ q, 0 ≤ q → (∀ j, 0 ≤ j < len → phys l0 (cur + j) ≠ q) → at_ l' q = at_ l q.

Lemma written_chunk l buf cur ptr len :
  agrees l → lo ≤ cur → cur + len ≤ hi → 0 < len → 0 ≤ ptr → ptr + len ≤ blen buf →
  let n := chunk cur len in written l (put (phys l0 cur) (slice ptr n buf) l) buf cur ptr n.
Proof.
  intros [Hl Ha] Hc Hhi Hlen Hp Hb n. pose proof (chunk_pos cur len Hlen) as Hn. fold n in Hn.
  pose proof (phys_pos cur ltac:(lia)). pose proof (phys_pos (cur + (n - 1)) ltac:(lia)) as Hq.
  rewrite phys_add in Hq; [|lia|unfold n, chunk in *; lia].
  assert (blen (slice ptr n buf) = n) as Hs by (apply blen_slice; lia).
  assert (∀ q, 0 ≤ q → at_ (put (phys l0 cur) (slice ptr n buf) l) q =
    if decide (phys l0 cur ≤ q < phys l0 cur + n) then at_ buf (ptr + (q - phys l0 cur)) else at_ l q) as Hat.
  { intros q Hq0. rewrite at_put, Hs by lia. case_decide; [|done]. apply at_slice; lia. }
  split_and!.
  - split; [by rewrite blen_put|]. intros q Hq0 Hout. rewrite Hat by done. case_decide as Hin; [|by apply Ha].
    apply (in_chunk cur len n) in Hin as (j & Hj & Hj'); [|done..]. destruct (Hout (cur + j)); [lia|done].
  - intros j Hj. pose proof (phys_pos (cur + j) ltac:(lia)). rewrite Hat by lia.
    rewrite phys_add by (unfold n, chunk in *; lia). rewrite decide_True by lia. f_equal. lia.
  - intros q Hq0 Hout. rewrite Hat by done. case_decide as Hin; [|done].
    apply (in_chunk cur len n) in Hin as (j & Hj & Hj'); [|done..]. by destruct (Hout j).
Qed.
(** Two writes, one after the other. *)
Lemma written_trans l l1 l2 buf cur ptr n len :
  lo ≤ cur → cur + len ≤ hi → 0 ≤ n ≤ len → written l l1 buf cur ptr n →
  written l1 l2 buf (cur + n) (ptr + n) (len - n) → written l l2 buf cur ptr len.
Proof.
  intros Hc Hhi Hn (A1 & W1 & O1) (A2 & W2 & O2). split_and!; [done| |].
  - intros j Hj. destruct (decide (j < n)).
    + rewrite <- W1 by lia. pose proof (phys_pos (cur + j) ltac:(lia)).
      apply O2; [lia|]. intros k Hk He. apply (pg_inj _ _ _ HP) in He; lia.
    + specialize (W2 (j - n) ltac:(lia)). replace (cur + n + (j - n)) with (cur + j) in W2 by lia.
      rewrite W2. f_equal. lia.
  - intros q Hq Hout. rewrite O2; [apply O1; [done|]|done|].
    + intros j Hj. apply Hout. lia.
    + intros j Hj. replace (cur + n + j) with (cur + (n + j)) by lia. apply Hout. lia.
Qed.
Lemma written_nil l buf cur ptr len : agrees l → len ≤ 0 → written l l buf cur ptr len.
Proof. intros Ha Hlen. split_and!; [done | lia | done]. Qed.

Lemma sg_write_loop fuel page off k cur ptr len buf h :
  agrees (ram h) → lo ≤ cur → cur + len ≤ hi → 0 ≤ len ≤ Z.of_nat fuel → 0 ≤ ptr → ptr + len ≤ blen buf →
  (len = 0 ∨ page = cur / TARGET_PAGE_SIZE ∧ off = cur mod TARGET_PAGE_SIZE ∧ k = TARGET_PAGE_SIZE - off) →
  ∃ l', sg_loop ldl_le_phys fuel sge_base max_sge page off k ptr len buf true h = Ok (buf, h <| ram := l' |>) ∧
    written (ram h) l' buf cur ptr len.
Proof.
  revert page off k cur ptr len h.
  induction fuel as [|fuel IH]; intros page off k cur ptr len h Ha Hc Hhi Hlen Hp Hb Hpos.
  { exists (ram h). cbn [sg_loop]. rewrite (proj2 (Z.ltb_ge 0 len)) by lia. split; [by destruct h | by apply written_nil; [|lia]]. }
  destruct (decide (len = 0)) as [-> | H0].
  { exists (ram h). split; [by destruct h | by apply written_nil]. }
  destruct Hpos as [|(-> & -> & ->)]; [done|].
  destruct (sg_turn fuel _ _ cur ptr len buf true h Ha Hc Hhi ltac:(lia) eq_refl eq_refl) as (Hp0 & Hpn & Hrun).
  pose proof (chunk_pos cur len ltac:(lia)) as Hn. pose proof (written_chunk (ram h) buf cur ptr len Ha Hc Hhi ltac:(lia) Hp Hb) as HW.
  set (n := chunk cur len) in *. cbv zeta in HW. set (l1 := put (phys l0 cur) (slice ptr n buf) (ram h)) in HW.
  destruct (IH (cur / TARGET_PAGE_SIZE + 1) 0 TARGET_PAGE_SIZE (cur + n) (ptr + n) (len - n) (h <| ram := l1 |>))
    as (l' & Hr & HW'); [apply HW | lia | lia | lia | lia | lia | |].
  { destruct (chunk_next cur len ltac:(lia) ltac:(lia)) as [|[-> Hm]]; [by left|right]. fold n in Hm. split; [done|]. lia. }
  exists l'. split; [|eapply written_trans; [done | done | | exact HW | exact HW']; lia].
  rewrite Hrun. rewrite (run_bind _ _ buf _ (h <| ram := l1 |>)); [exact Hr|].
  rewrite (run_bind _ _ (slice ptr n buf) _ h) by (apply run_rd; lia).
  rewrite (run_bind _ _ l1 _ h); [done|]. apply run_wr; [lia|]. rewrite blen_slice; lia.
Qed.

(** What a read of [len] bytes at [cur] makes of the buffer. *)
Definition read_in (l buf buf' : list Z) (cur ptr len : Z) : Prop :=
  blen buf' = blen buf ∧
  ∀ q, 0 ≤ q → at_ buf' q = if decide (ptr ≤ q < ptr + len) then at_ l (phys l0 (cur + (q - ptr))) else at_ buf q.
Lemma sg_read_loop fuel page off k cur ptr len buf h :
  agrees (ram h) → lo ≤ cur → cur + len ≤ hi → 0 ≤ len ≤ Z.of_nat fuel → 0 ≤ ptr → ptr + len ≤ blen buf →
  (len = 0 ∨ page = cur / TARGET_PAGE_SIZE ∧ off = cur mod TARGET_PAGE_SIZE ∧ k = TARGET_PAGE_SIZE - off) →
  ∃ buf', sg_loop ldl_le_phys fuel sge_base max_sge page off k ptr len buf false h = Ok (buf', h) ∧
    read_in (ram h) buf buf' cur ptr len.
Proof.
  intros Ha. revert page off k cur ptr len buf.
  assert (∀ cur ptr len buf, len ≤ 0 → read_in (ram h) buf buf cur ptr len) as Hnil.
  { intros. split; [done|]. intros q Hq. rewrite decide_False by lia. done. }
  induction fuel as [|fuel IH]; intros page off k cur ptr len buf Hc Hhi Hlen Hp Hb Hpos.
  { exists buf. cbn [sg_loop]. rewrite (proj2 (Z.ltb_ge 0 len)) by lia. split; [done | apply Hnil; lia]. }
  destruct (decide (len = 0)) as [-> | H0]; [by exists buf; split; [|apply Hnil]|].
  destruct Hpos as [|(-> & -> & ->)]; [done|].
  destruct (sg_turn fuel _ _ cur ptr len buf false h Ha Hc Hhi ltac:(lia) eq_refl eq_refl) as (Hp0 & Hpn & Hrun).
  pose proof (chunk_pos cur len ltac:(lia)) as Hn. set (n := chunk cur len) in *.
  set (b1 := put ptr (slice (phys l0 cur) n (ram h)) buf).
  assert (blen (slice (phys l0 cur) n (ram h)) = n) as Hs by (apply blen_slice; lia).
  destruct (IH (cur / TARGET_PAGE_SIZE + 1) 0 TARGET_PAGE_SIZE (cur + n) (ptr + n) (len - n) b1)
    as (b' & Hr & Hl & Hat); [lia | lia | lia | lia | unfold b1; rewrite blen_put; lia | |].
  { destruct (chunk_next cur len ltac:(lia) ltac:(lia)) as [|[-> Hm]]; [by left|right]. fold n in Hm. split; [done|]. lia. }
  exists b'. split.
  - rewrite Hrun. rewrite (run_bind _ _ b1 _ h); [exact Hr|].
    rewrite (run_bind _ _ (slice (phys l0 cur) n (ram h)) _ h) by (apply run_rd; lia). apply run_wr; lia.
  - split; [by rewrite Hl; unfold b1; rewrite blen_put|]. intros q Hq. rewrite Hat by done. unfold b1.
    destruct (decide (q < ptr + n)).
    + rewrite decide_False, at_put, Hs by lia. destruct (decide (ptr ≤ q < ptr + n)).
      * rewrite decide_True, at_slice by lia. f_equal. rewrite phys_add; unfold n, chunk in *; lia.
      * by rewrite decide_False by lia.
    + destruct (decide (ptr + n ≤ q < ptr + n + (len - n))).
      * rewrite decide_True by lia. do 2 f_equal. lia.
      * rewrite decide_False, at_put, decide_False by lia. done.
Qed.

(** Whole transfers. *)
Lemma scatter_run cur len buf h :
  agrees (ram h) → lo ≤ cur → cur + len ≤ hi → 0 ≤ len ≤ blen buf →
  ∃ l', scatter_gather_rw ldl_le_phys sge_base max_sge buf cur len true h = Ok (buf, h <| ram := l' |>) ∧
    written (ram h) l' buf cur 0 len.
Proof. intros. unfold scatter_gather_rw. apply sg_write_loop; auto; lia. Qed.
Lemma gather_run cur len buf h :
  agrees (ram h) → lo ≤ cur → cur + len ≤ hi → 0 ≤ len ≤ blen buf →
  ∃ buf', scatter_gather_rw ldl_le_phys sge_base max_sge buf cur len false h = Ok (buf', h) ∧
    read_in (ram h) buf buf' cur 0 len.
Proof. intros. unfold scatter_gather_rw. apply sg_read_loop; auto; lia. Qed.
End region.

Lemma agrees_refl l lo hi : agrees l lo hi l.
Proof. done. Qed.
Lemma at_ext l l' : blen l = blen l' → (∀ q, 0 ≤ q < blen l → at_ l q = at_ l' q) → l = l'.
Proof.
  intros Hl H. unfold blen in *. apply list_eq_same_length with (length l); [lia | lia |].
  intros i x y Hi Hx Hy. specialize (H (Z.of_nat i) ltac:(lia)). unfold at_ in H. rewrite Nat2Z.id, Hx, Hy in H.
  by injection H.
Qed.

Lemma scatter_then_gather h buf addr :
  0 ≤ addr → paged (ram h) addr (addr + blen buf) →
  ∃ l', scatter_gather_rw ldl_le_phys sge_base max_sge buf addr (blen buf) true h = Ok (buf, h <| ram := l' |>) ∧
    (∀ j, 0 ≤ j < blen buf → at_ l' (phys (ram h) (addr + j)) = at_ buf j) ∧
    (∀ q, 0 ≤ q → (∀ j, 0 ≤ j < blen buf → phys (ram h) (addr + j) ≠ q) → at_ l' q = at_ (ram h) q) ∧
    ∀ into, blen into = blen buf →
      scatter_gather_rw ldl_le_phys sge_base max_sge into addr (blen buf) false (h <| ram := l' |>)
      = Ok (buf, h <| ram := l' |>).
Proof.
  intros Ha HP. pose proof (blen_nonneg buf) as Hb.
  destruct (scatter_run (ram h) addr (addr + blen buf) HP Ha addr (blen buf) buf h) as (l' & Hw & A & W & O);
    [done | lia | lia | lia |].
  exists l'. split; [done|]. split; [done|]. split; [done|]. intros into Hi.
  destruct (gather_run (ram h) addr (addr + blen buf) HP Ha addr (blen buf) into (h <| ram := l' |>)) as (b' & Hr & Hl & Hat);
    [done | lia | lia | lia |].
  rewrite Hr. do 2 f_equal. apply at_ext; [congruence|]. intros q Hq. rewrite Hat by lia.
  rewrite decide_True by lia. change (at_ l' (phys (ram h) (addr + (q - 0))) = at_ buf q).
  rewrite W by lia. f_equal. lia.
Qed.
(** C19. Scatter-gather round trip: a buffer that is written to bytes of the pages, which are in the
    table and in the memory, each once and apart from the table, is read back from there by a
    transfer into any buffer of its size; the write and the read both end, the write goes to
    where the table says and changes no other byte, and no register changes. *)
Theorem scatter_gather_roundtrip h buf addr :
  0 ≤ addr → paged (ram h) addr (addr + blen buf) →
  ∃ l', scatter_gather_rw ldl_le_phys sge_base max_sge buf addr (blen buf) true h = Ok (buf, h <| ram := l' |>) ∧
    (∀ j, 0 ≤ j < blen buf → at_ l' (phys (ram h) (addr + j)) = at_ buf j) ∧
    (∀ q, 0 ≤ q → (∀ j, 0 ≤ j < blen buf → phys (ram h) (addr + j) ≠ q) → at_ l' q = at_ (ram h) q) ∧
    ∀ into, blen into = blen buf →
      scatter_gather_rw ldl_le_phys sge_base max_sge into addr (blen buf) false (h <| ram := l' |>)
      = Ok (buf, h <| ram := l' |>).
Proof. apply scatter_then_gather. Qed.

(** ** Circles *)

(** The byte that is [j] bytes after [cur] in the circle from [base] to [end_]. *)
Definition circ (base end_ cur j : Z) : Z := base + (cur - base + j) mod (end_ - base).
Lemma circ_range base end_ cur j : base < end_ → base ≤ circ base end_ cur j < end_.
Proof. intros. unfold circ. pose proof (Z.mod_pos_bound (cur - base + j) (end_ - base)). lia. Qed.
Lemma circ_small base end_ cur j : base ≤ cur → 0 ≤ j → cur + j < end_ → circ base end_ cur j = cur + j.
Proof. intros. unfold circ. rewrite Z.mod_small; lia. Qed.
Lemma circ_circ base end_ cur n k : base < end_ → circ base end_ (circ base end_ cur n) k = circ base end_ cur (n + k).
Proof.
  intros. unfold circ. f_equal. replace (base + (cur - base + n) mod (end_ - base) - base + k)
    with ((cur - base + n) mod (end_ - base) + k) by lia. rewrite Zplus_mod_idemp_l. f_equal. lia.
Qed.
Lemma circ_inj base end_ cur j k :
  0 ≤ j < end_ - base → 0 ≤ k < end_ - base → circ base end_ cur j = circ base end_ cur k → j = k.
Proof.
  unfold circ. intros Hj Hk E. assert ((cur - base + j) mod (end_ - base) = (cur - base + k) mod (end_ - base)) as H by lia.
  assert ((j - k) mod (end_ - base) = 0) as H0.
  { replace (j - k) with ((cur - base + j) - (cur - base + k)) by lia. rewrite Zminus_mod, H, Z.sub_diag. by apply Z.mod_0_l; lia. }
  apply Z.mod_divide in H0 as [q Hq]; [|lia]. assert (q = 0) by nia. lia.
Qed.
Lemma circ_end base end_ cur n :
  base < end_ → base ≤ cur → 0 ≤ n → cur + n ≤ end_ →
  circ base end_ cur n = if decide (cur + n = end_) then base else cur + n.
Proof.
  intros. case_decide; [|apply circ_small; lia]. unfold circ.
  replace (cur - base + n) with (end_ - base) by lia. rewrite Z.mod_same; lia.
Qed.

Section circle.
Context (l0 : list Z) (base end_ : Z) (HP : paged l0 base end_) (Hb0 : 0 ≤ base) (Hbe : base < end_) (Hend : end_ < 2 ^ 32).
Abbreviation agrees := (agrees l0 base end_).
Abbreviation circ := (circ base end_).

(** What a write of [len] bytes at [cur] of the circle makes of the memory. *)
Definition circled (l l' buf : list Z) (cur ptr len : Z) : Prop :=
  agrees l' ∧ (∀ j, 0 ≤ j < len → at_ l' (phys l0 (circ cur j)) = at_ buf (ptr + j)) ∧
  ∀ q, 0 ≤ q → (∀ j, 0 ≤ j < len → phys l0 (circ cur j) ≠ q) → at_ l' q = at_ l q.
Lemma circled_trans l l1 l2 buf cur ptr n len :
  0 ≤ n ≤ len → len ≤ end_ - base → circled l l1 buf cur ptr n →
  circled l1 l2 buf (circ cur n) (ptr + n) (len - n) → circled l l2 buf cur ptr len.
Proof.
  intros Hn Hlen (A1 & W1 & O1) (A2 & W2 & O2). split_and!; [done| |].
  - intros j Hj. destruct (decide (j < n)).
    + rewrite <- W1 by lia. pose proof (circ_range base end_ cur j Hbe) as Hr. pose proof (phys_pos l0 base end_ HP _ Hr).
      apply O2; [lia|]. intros k Hk He. rewrite circ_circ in He by done.
      apply (pg_inj _ _ _ HP) in He; [|by apply circ_range|done]. apply circ_inj in He; lia.
    + specialize (W2 (j - n) ltac:(lia)). rewrite circ_circ in W2 by done. replace (n + (j - n)) with j in W2 by lia.
      rewrite W2. f_equal. lia.
  - intros q Hq Hout. rewrite O2; [apply O1; [done|]|done|].
    + intros j Hj. apply Hout. lia.
    + intros j Hj. rewrite circ_circ by done. apply Hout. lia.
Qed.
Lemma written_circled l l' buf cur ptr n :
  base ≤ cur → cur + n ≤ end_ → 0 ≤ ptr → written l0 base end_ l l' (slice ptr n buf) cur 0 n → circled l l' buf cur ptr n.
Proof.
  intros Hc Hn Hp (A & W & O). split_and!; [done| |].
  - intros j Hj. rewrite circ_small, W by lia. rewrite at_slice by lia. done.
  - intros q Hq Hout. apply O; [done|]. intros j Hj. rewrite <- (circ_small base end_) by lia. by apply Hout.
Qed.
Lemma put_slice ptr n buf : 0 ≤ ptr → 0 ≤ n → ptr + n ≤ blen buf → put ptr (slice ptr n buf) buf = buf.
Proof.
  intros. assert (blen (slice ptr n buf) = n) by (apply blen_slice; lia).
  apply at_ext; [by rewrite blen_put|]. intros q Hq. rewrite blen_put in Hq. rewrite at_put by lia.
  case_decide; [|done]. rewrite at_slice by lia. f_equal. lia.
Qed.
Lemma circular_write_loop fuel cur ptr len buf h :
  agrees (ram h) → base ≤ cur < end_ → 0 ≤ len ≤ Z.of_nat fuel → len ≤ end_ - base → 0 ≤ ptr → ptr + len ≤ blen buf →
  ∃ l', circular_sg_loop ldl_le_phys fuel sge_base max_sge base end_ cur ptr len buf true h =
        Ok ((buf, circ cur len), h <| ram := l' |>) ∧ circled (ram h) l' buf cur ptr len.
Proof.
  revert cur ptr len h. induction fuel as [|fuel IH]; intros cur ptr len h Ha Hc Hlen Hsz Hp Hb;
    cbn [circular_sg_loop]; destruct (Z.ltb_spec 0 len) as [H0|H0]; try lia.
  1, 3: assert (len = 0) as -> by lia; exists (ram h); split; [rewrite circ_small by lia; rewrite Z.add_0_r; by destruct h|];
    split_and!; [done | lia | done].
  set (n := Z.min len (end_ - cur)). assert (0 < n ≤ len) by lia. cbv zeta.
  rewrite (u32_id (end_ - cur)) by (unfold is_u32; lia).
  replace (if len <? end_ - cur then len else end_ - cur) with n by (unfold n; destruct (Z.ltb_spec len (end_ - cur)); lia).
  rewrite (u32_id (cur + n)) by (unfold is_u32; lia).
  assert (blen (slice ptr n buf) = n) as Hs by (apply blen_slice; lia).
  destruct (scatter_run l0 base end_ HP Hb0 cur n (slice ptr n buf) h) as (l1 & Hr1 & HW); [done | lia | lia | lia |].
  apply (written_circled _ _ buf cur ptr n) in HW; [|lia..]. set (h1 := h <| ram := l1 |>).
  pose proof (circ_range base end_ cur n Hbe).
  destruct (IH (circ cur n) (ptr + n) (len - n) h1) as (l' & Hr & HW'); [apply HW | lia | lia | lia | lia | lia |].
  exists l'. split; [|eapply circled_trans; [|done|exact HW|exact HW']; lia].
  rewrite (run_bind _ _ tt _ h) by (apply run_assert; lia).
  rewrite (run_bind _ _ (slice ptr n buf) _ h) by (apply run_rd; lia).
  rewrite (run_bind _ _ _ _ _ Hr1). fold h1.
  rewrite (run_bind _ _ buf _ h1) by (rewrite run_wr by lia; by rewrite put_slice by lia).
  rewrite (run_bind _ _ (circ cur n) _ h1).
  - rewrite Hr. rewrite circ_circ by done. by replace (n + (len - n)) with len by lia.
  - rewrite circ_end by lia. destruct (Z.leb_spec end_ (cur + n)).
    + rewrite (run_bind _ _ tt _ h1) by (apply run_assert; lia). by rewrite decide_True by lia.
    + by rewrite decide_False by lia.
Qed.
End circle.
End sg.

(** ** The DMA engine of the global processor *)

(** C8. Words that the DMA engine of the global processor sends to its scratch memory come back: after
    the transfer of a node that sends words of data memory, the transfer of a node with the same
    place in the scratch memory, at any later time at which the memory of the machine is as the
    first left it, puts those words to the data memory that it names, and no other word
    changes there. *)
Theorem gp_dma_roundtrip ldl_le_phys `{P : !Peripherals Host} (n n' : node) space a space' a' vs d :
  let h := rw_opaque d in let s := scratch_address n in
  n_control n = control_out → n_control n' = control_in → scratch_address n' = s →
  n_count n = Z.of_nat (length vs) → n_count n' = Z.of_nat (length vs) →
  node_words n space a → node_words n' space' a' → Forall is_word vs →
  (∀ k v, vs !! k = Some v → memory space d !! Z.to_nat (a + Z.of_nat k) = Some v) →
  paged ldl_le_phys (regs h NV_PAPU_GPSADDR) (regs h NV_PAPU_GPSMAXSGE) (ram h) s (s + 4 * Z.of_nat (length vs)) →
  ∃ h', @dma_transfer _ (gp_port ldl_le_phys) P n d = Ok (n_scratch_offset n, d <| rw_opaque := h' |>) ∧
    ∀ later, rw_opaque later = h' → ∃ d', @dma_transfer _ (gp_port ldl_le_phys) P n' later = Ok (n_scratch_offset n', d') ∧
      memory space' d' = put a' vs (memory space' later) ∧ rw_opaque d' = h'.
Proof.
  intros h s Hc Hc' Hs Hn Hn' Hw Hw' Hvs Hm HP.
  assert (0 ≤ s) as Hs0 by (apply Z.mod_pos_bound; lia). pose proof (blen_flat vs) as Hf. rewrite <- Hf in HP.
  destruct (scatter_then_gather ldl_le_phys _ _ h (flat vs) s Hs0 HP) as (l' & Hout & _ & _ & Hin).
  exists (h <| ram := l' |>). split.
  - apply (transfer_out n space a vs); try done.
    cbn [gp_port scratch_write]. unfold gp_scratch_rw. rewrite (run_bind _ _ (flat vs) _ (h <| ram := l' |>)); [done|].
    rewrite (run_bind _ _ (regs h NV_PAPU_GPSADDR) _ h), (run_bind _ _ (regs h NV_PAPU_GPSMAXSGE) _ h) by done. exact Hout.
  - intros later Hl. exists (put_words space' a' vs later). split; [|split].
    + apply (transfer_in n' space' a' vs); try done. rewrite Hl, Hs.
      cbn [gp_port scratch_read]. unfold gp_scratch_rw.
      rewrite (run_bind _ _ (regs h NV_PAPU_GPSADDR) _ (h <| ram := l' |>)) by done.
      rewrite (run_bind _ _ (regs h NV_PAPU_GPSMAXSGE) _ (h <| ram := l' |>)) by done.
      apply Hin. apply zeros_blen. lia.
    + apply memory_put_words. apply Hw'.
    + rewrite <- Hl. clear. revert a' later. induction vs as [|v vs IH]; intros a' later; [done|]. cbn [put_words].
      rewrite IH. unfold set_word. by destruct (space' =? DSP_SPACE_X).
Qed.

(** ** FIFOs *)

Section fifo.
Variable ldl_le_phys : list Z → Z → Z.

Lemma fifo_value_range v : 0 ≤ GET_MASK v FIFO_VALUE < 2 ^ 24.
Proof. by apply (GET_MASK_range FIFO_VALUE 0 24). Qed.
Lemma run_host_reg r h : 0 ≤ r < 0x20000 → host_reg r h = Ok (regs h r, h).
Proof. intros. unfold host_reg. rewrite (run_bind _ _ tt _ h) by (apply run_inBounds; lia). done. Qed.
Lemma run_set_apu_reg r v h :
  0 ≤ r < 0x20000 → set_apu_reg r v h = Ok (tt, h <| regs := λ a, if a =? r then v else regs h a |>).
Proof. intros. unfold set_apu_reg. rewrite (run_bind _ _ tt _ h) by (apply run_inBounds; lia). done. Qed.
Lemma run_fifo_reg r h : 0 ≤ r < 0x20000 → fifo_reg r h = Ok (GET_MASK (regs h r) FIFO_VALUE, h).
Proof. intros. unfold fifo_reg. by rewrite (run_bind _ _ _ _ _ (run_host_reg r h H)). Qed.

(** C18. A transfer to an output FIFO of the global processor ends, when its base is below its end and
    the bytes fit: the bytes are in the circle from the position of the FIFO on, in order and
    around its end, no other byte of the memory changes, the register of the position has the
    byte after the last one, and no other register and nothing of the monitor changes. *)
Theorem gp_fifo_write h buf index :
  let r := NV_PAPU_GPOFBASE0 + 0x10 * index in
  let base := GET_MASK (regs h r) FIFO_VALUE in let end_ := GET_MASK (regs h (r + 4)) FIFO_VALUE in
  let cur := Z.max base (GET_MASK (regs h (r + 8)) FIFO_VALUE) in
  let where_ i := phys ldl_le_phys (regs h NV_PAPU_GPFADDR) (ram h) i in
  0 ≤ index < FIFO_COUNT_OUT → base < end_ → cur < end_ → blen buf ≤ end_ - base →
  paged ldl_le_phys (regs h NV_PAPU_GPFADDR) (regs h NV_PAPU_GPFMAXSGE) (ram h) base end_ →
  ∃ h', gp_fifo_rw ldl_le_phys buf index (blen buf) true h = Ok (buf, h') ∧
    (∀ j, 0 ≤ j < blen buf → at_ (ram h') (where_ (circ base end_ cur j)) = at_ buf j) ∧
    (∀ q, 0 ≤ q → (∀ j, 0 ≤ j < blen buf → where_ (circ base end_ cur j) ≠ q) → at_ (ram h') q = at_ (ram h) q) ∧
    GET_MASK (regs h' (r + 8)) FIFO_VALUE = circ base end_ cur (blen buf) ∧
    (∀ x, x ≠ r + 8 → regs h' x = regs h x) ∧ point h' = point h ∧ frame_buf h' = frame_buf h.
Proof.
  intros r base end_ cur where_ Hi Hbe Hcur Hlen HP. pose proof (blen_nonneg buf) as Hb.
  assert (base ≤ cur) as R0 by (unfold cur; lia).
  pose proof (fifo_value_range (regs h r)) as R1. pose proof (fifo_value_range (regs h (r + 4))) as R2. fold base end_ in R1, R2.
  destruct (circular_write_loop ldl_le_phys (regs h NV_PAPU_GPFADDR) (regs h NV_PAPU_GPFMAXSGE) (ram h) base end_
    HP ltac:(lia) Hbe ltac:(lia) (S (Z.to_nat (blen buf))) cur 0 (blen buf) buf h) as (l' & Hrun & A & W & O);
    [done | lia | lia | lia | lia | lia |].
  eexists. split.
  - unfold gp_fifo_rw, fifo_base. rewrite (run_bind _ _ r _ h).
    2: { rewrite (run_bind _ _ tt _ h) by (apply run_assert; lia). done. }
    do 3 (erewrite run_bind by (apply run_fifo_reg; lia)). fold base end_.
    set (c0 := GET_MASK (regs h (r + 8)) FIFO_VALUE) in *. assert (c0 ≤ cur) by (unfold cur; lia).
    rewrite (run_bind _ _ tt _ h) by (apply run_assert; lia).
    do 2 (erewrite run_bind by (apply run_host_reg; lia)).
    replace (if c0 <? base then base else c0) with cur by (unfold cur; destruct (Z.ltb_spec c0 base); lia).
    unfold circular_scatter_gather_rw. rewrite (run_bind _ _ _ _ _ Hrun).
    erewrite run_bind by (apply run_host_reg; lia). by erewrite run_bind by (apply run_set_apu_reg; lia).
  - cbn. split_and!; [done | done | | | done | done].
    + rewrite Z.eqb_refl, (GET_SET_same FIFO_VALUE 0 24) by (done || lia). apply Z.mod_small.
      pose proof (circ_range base end_ cur (blen buf) Hbe). lia.
    + intros x Hx. by rewrite (proj2 (Z.eqb_neq _ _) Hx).
Qed.

(** A FIFO with nothing between its ends: the loop of a transfer of the global processor does not
    end. *)
Lemma empty_circle_hangs fuel sge max base ptr len buf dir h :
  0 ≤ base < 2 ^ 24 → 0 < len → 0 ≤ ptr ≤ blen buf →
  circular_sg_loop ldl_le_phys fuel sge max base base base ptr len buf dir h = Fault OutOfFuel.
Proof.
  intros Hb Hlen Hp. induction fuel as [|fuel IH]; cbn [circular_sg_loop];
    rewrite (proj2 (Z.ltb_lt 0 len) Hlen); [done|]. cbv zeta. rewrite Z.sub_diag. change (u32 0) with 0.
  rewrite (proj2 (Z.ltb_ge len 0)), !Z.add_0_r, Z.sub_0_r by lia.
  assert (u32 base = base) as -> by (apply u32_id; unfold is_u32; lia).
  rewrite (run_bind _ _ tt _ h) by (apply run_assert; lia).
  rewrite (run_bind _ _ [] _ h) by (rewrite run_rd by lia; done). rewrite (run_bind _ _ [] _ h) by done.
  rewrite (run_bind _ _ buf _ h).
  2: { rewrite run_wr; [done | lia |]. change (blen []) with 0. lia. }
  rewrite Z.leb_refl, (run_bind _ _ base _ h); [exact IH|].
  rewrite (run_bind _ _ tt _ h); [done|]. apply run_assert. lia.
Qed.
(** One of the encode processor divides by zero, if its position is not below its end. *)
Lemma ep_empty_fifo_divides index buf h :
  let r := NV_PAPU_EPOFBASE0 + 0x10 * index in
  0 < index < FIFO_COUNT_OUT → GET_MASK (regs h (r + 4)) FIFO_VALUE = GET_MASK (regs h r) FIFO_VALUE →
  GET_MASK (regs h (r + 4)) FIFO_VALUE ≤ GET_MASK (regs h (r + 8)) FIFO_VALUE →
  ep_fifo_rw ldl_le_phys buf index (blen buf) true h = Fault DivByZero.
Proof.
  intros r Hi He Hc. unfold ep_fifo_rw, fifo_base. rewrite (run_bind _ _ r _ h).
  2: { rewrite (run_bind _ _ tt _ h) by (apply run_assert; lia). done. }
  do 3 (erewrite run_bind by (apply run_fifo_reg; lia)). cbn [andb].
  rewrite (proj2 (Z.eqb_neq index 0)), (run_bind _ _ buf _ h) by (done || lia).
  rewrite (proj2 (Z.leb_le _ _) Hc), He, Z.sub_diag. done.
Qed.
(** A page whose last byte is the last one of the memory is refused. *)
Lemma last_page_refused sge max buf h :
  0 ≤ max → ldl_le_phys (ram h) sge = blen (ram h) - TARGET_PAGE_SIZE → TARGET_PAGE_SIZE ≤ blen (ram h) ≤ 2 ^ 32 →
  scatter_gather_rw ldl_le_phys sge max buf 0 TARGET_PAGE_SIZE true h = Fault AssertFailed.
Proof.
  intros Hm Hl Hs. unfold scatter_gather_rw.
  change (Z.to_nat TARGET_PAGE_SIZE) with (S (Z.to_nat 4095)). cbn [sg_loop].
  change (0 <? TARGET_PAGE_SIZE) with true. change (0 / TARGET_PAGE_SIZE) with 0. cbv iota.
  rewrite (run_bind _ _ tt _ h) by (apply run_assert; lia). rewrite (run_bind _ _ h _ h) by done. cbv zeta.
  replace (sge + 0 * 8) with sge by lia. change (0 mod TARGET_PAGE_SIZE) with 0.
  rewrite Hl, Z.add_0_r. rewrite u32_id by (unfold is_u32; lia). apply run_bind_fault. unfold assertM.
  change (TARGET_PAGE_SIZE <? TARGET_PAGE_SIZE - 0) with false. cbv iota. rewrite (proj2 (Z.ltb_ge _ _)); [done|lia].
Qed.
End fifo.

(** ** The interrupt *)

Definition reg_of (s : MCPXAPUState) (r : Z) : Z := regs (host s) r.
Lemma run_apu_reg r s : 0 ≤ r < 0x20000 → apu_reg r s = Ok (reg_of s r, s).
Proof. intros. unfold apu_reg, on_host. rewrite run_host_reg by done. by destruct s. Qed.
(** The bits of the interrupts after the front end is looked at. *)
Definition raised (s : MCPXAPUState) : Z :=
  if truthy (reg_of s NV_PAPU_FECTL &&& NV_PAPU_FECTL_FEMETHMODE_TRAPPED)
  then reg_of s NV_PAPU_ISTS ||| NV_PAPU_ISTS_FETINTSTS else reg_of s NV_PAPU_ISTS.
(** [update_irq]: the line, and the bit of the status for it, are up exactly when interrupts are
    enabled and one that is enabled is raised. *)
Lemma update_irq_run s :
  let on := truthy (reg_of s NV_PAPU_IEN &&& 1) && truthy (raised s &&& not32 1 &&& reg_of s NV_PAPU_IEN) in
  ∃ s', update_irq s = Ok (tt, s') ∧ irq_line s' = on ∧
    reg_of s' NV_PAPU_ISTS = (if on then raised s ||| 1 else raised s &&& not32 1) ∧
    ∀ r, r ≠ NV_PAPU_ISTS → reg_of s' r = reg_of s r.
Proof.
  intros on. unfold update_irq. erewrite run_bind by (apply run_apu_reg; lia).
  set (s1 := if truthy (reg_of s NV_PAPU_FECTL &&& NV_PAPU_FECTL_FEMETHMODE_TRAPPED)
    then s <| host ::= λ h, h <| regs := λ a, if a =? NV_PAPU_ISTS then raised s else regs h a |> |> else s).
  assert (reg_of s1 NV_PAPU_ISTS = raised s ∧ ∀ r, r ≠ NV_PAPU_ISTS → reg_of s1 r = reg_of s r) as [E1 E2].
  { unfold s1, raised. destruct (truthy (reg_of s NV_PAPU_FECTL &&& NV_PAPU_FECTL_FEMETHMODE_TRAPPED)); (split; [done|]); intros r Hr; [|done].
    unfold reg_of. cbn. by rewrite (proj2 (Z.eqb_neq _ _) Hr). }
  rewrite (run_bind _ _ tt _ s1).
  2: { unfold s1, raised. destruct (truthy (reg_of s NV_PAPU_FECTL &&& NV_PAPU_FECTL_FEMETHMODE_TRAPPED)); [|done].
       cbn [whenM]. by erewrite run_bind by (apply run_apu_reg; lia). }
  do 2 (erewrite run_bind by (apply run_apu_reg; lia)).
  rewrite E1, E2 by done. change (1 <<< 0) with 1. fold on. destruct on; eexists; (split; [reflexivity|]);
    (split; [done|]); (split; [done|]); intros r Hr; rewrite <- E2 by done; cbn; by rewrite (proj2 (Z.eqb_neq _ _) Hr).
Qed.
(** A front end that is halted, and not trapped, raises the interrupt of a trap. *)
Lemma halted_raises_trap s :
  reg_of s NV_PAPU_FECTL = NV_PAPU_FECTL_FEMETHMODE_HALTED → Z.testbit (raised s) 4 = true.
Proof. intros H. unfold raised. rewrite H. change (truthy _) with true. cbv iota. rewrite Z.lor_spec. apply orb_true_r. Qed.

(** ** Accesses that stop the process *)

(** Program memory that was not written yet. *)
Lemma pattern_read_asserts ldl fuel use_dsp memory :
  gp_read ldl fuel NV_PAPU_GPPMEM 4 (mcpx_apu_init use_dsp memory) = Fault AssertFailed.
Proof.
  unfold gp_read. rewrite (run_bind _ _ tt _ (mcpx_apu_init use_dsp memory)), (run_bind _ _ tt _ (mcpx_apu_init use_dsp memory)) by done.
  change (gp_window NV_PAPU_GPPMEM) with (Some (0x50, 0)). cbv iota beta. unfold on_gp. set (d := _ <| opcache := _ |>).
  assert (@dsp_read_memory _ (gp_port ldl) fuel 0x50 0 d = Fault AssertFailed) as ->; [|done].
  unfold dsp_read_memory, space_id, dsp56k_read_memory, read_memory_p.
  rewrite (run_bind _ _ tt _ d) by done. cbn [Z.eqb Pos.eqb].
  rewrite (run_bind _ _ tt _ d), (run_bind _ _ tt _ d) by done.
  assert (pram (core d) = replicate (Z.to_nat 4096) 0xCACACACA) as Hp by (unfold d; by destruct use_dsp).
  rewrite (run_bind _ _ 0xCACACACA _ d); [done|]. unfold elem. rewrite (run_bind _ _ (pram (core d)) _ d) by done.
  rewrite Hp, lookup_replicate_2 by (apply Nat.ltb_lt; vm_compute; reflexivity). done.
Qed.
(** A value of more than 24 bits for a memory of a processor. *)
Lemma wide_write_asserts ldl fuel val s :
  u32 val &&& 0xFF000000 ≠ 0 → gp_write ldl fuel 0 val 4 s = Fault AssertFailed.
Proof.
  intros H. unfold gp_write. rewrite (run_bind _ _ tt _ s), (run_bind _ _ tt _ s) by done.
  change (gp_window 0) with (Some (0x58, 0)). cbv iota beta. unfold on_gp. set (d := _ <| opcache := _ |>).
  assert (@dsp_write_memory _ (gp_port ldl) fuel 0x58 0 (u32 val) d = Fault AssertFailed) as ->; [|done].
  unfold dsp_write_memory, space_id, dsp56k_write_memory, write_memory_raw. apply run_bind_fault.
  unfold assertM, is24. by rewrite (proj2 (Z.eqb_neq _ _) H).
Qed.
(** The count of frames after its largest value: its remainder is negative, and so is the index of
    the sample for the monitor. *)
Lemma frame_count_overflows v h :
  put_sample (Z.rem (s32 (2 ^ 31 - 1 + 2)) 8 * NUM_SAMPLES_PER_FRAME * 4) v h = Fault OutOfBounds.
Proof. done. Qed.
