(* ===== verification/ApuExample.v ===== *)
(** * ApuExample: the theorems on the audio unit at concrete states

    A machine with 16 KiB of memory whose page tables map each page to the frame of its number,
    and a DSP after its creation. *)

From stdpp Require Import base numbers list option.
From S2P Require Import Prelude.
From S2P Require Import DspArith.
From S2P Require Import DspCore.
From S2P Require Import DspAlu.
From S2P Require Import DspExec.
From S2P Require Import DspSafe.
From S2P Require Import DspSafeExec.
From S2P Require Import DspSpec.
From S2P Require Import Dsp.
From S2P Require Import DspDma.
From S2P Require Import DspDmaSpec.
From S2P Require Import Apu.
From S2P Require Import ApuSafe.
From S2P Require Import ApuSpec.

(** ** The machine *)

Definition ex_ldl (_ : list Z) (a : Z) : Z := a / 8 * 4096.
Definition ex_ram : list Z := replicate (Z.to_nat 16384) 0.
(** The FIFO 1 of the output of the global processor is from 0x1ff0 to 0x2008, at 0x2000. *)
Definition ex_regs (r : Z) : Z :=
  if r =? NV_PAPU_GPSMAXSGE then 3 else if r =? NV_PAPU_GPFMAXSGE then 3
  else if r =? NV_PAPU_GPOFBASE0 + 0x10 then 0x1ff0
  else if r =? NV_PAPU_GPOFBASE0 + 0x14 then 0x2008
  else if r =? NV_PAPU_GPOFBASE0 + 0x18 then 0x2000 else 0.
Definition ex_host : Host :=
  {| ram := ex_ram; regs := ex_regs; point := MON_AC97; frame_buf := replicate (Z.to_nat 1024) 0 |}.
Lemma ex_ram_blen : blen ex_ram = 16384.
Proof. unfold blen, ex_ram. rewrite length_replicate. lia. Qed.
Lemma ex_ram_bytes : bytes ex_ram.
Proof. apply bytes_replicate. Qed.
Lemma ex_host_ok : host_ok ex_host.
Proof. constructor; [apply ex_ram_bytes | by apply zeros]. Qed.
Lemma ex_phys l i : phys ex_ldl 0 l i = i.
Proof.
  unfold phys, frame_of, ex_ldl. rewrite Z.add_0_l, Z.div_mul by done.
  pose proof (Z.div_mod i 4096). lia.
Qed.
Lemma ex_paged l lo hi : blen l = 16384 → 0 ≤ lo → hi < 16384 → paged ex_ldl 0 3 l lo hi.
Proof.
  intros Hl Hlo Hhi. split.
  - lia.
  - intros i Hi. rewrite ex_phys, Hl. unfold frame_of, ex_ldl. rewrite Z.add_0_l, Z.div_mul by done.
    split_and!; [dlia | dlia | lia].
  - intros i j _ _. by rewrite !ex_phys.
  - done.
Qed.
Definition ex_dsp : DSPState Host := dsp_init ex_host.
Lemma ex_dsp_ok : dsp_ok host_ok ex_dsp.
Proof. apply dsp_init_ok, ex_host_ok. Qed.
Lemma ex_regs64 : regs64 ex_dsp.
Proof. reflexivity. Qed.

(** ** The DSP *)

(** X0 is 1/2 and A is -3; with the square of X0 it is -11/4.  The number 1 is 2^47. *)
Definition ex_mac : DSPState Host := put_accu 0 (0xfe, 0x800000, 0) (setR DSP_REG_X0 0x400000 ex_dsp).
Lemma emu_mac_correct_witness :
  ∃ d', emu_mac SIGN_PLUS DSP_REG_X0 DSP_REG_X0 0 ex_mac = Ok (tt, d') ∧
    sval (acc_of ex_mac 0) = -3 * 2 ^ 47 ∧ sval (acc_of d' 0) = -11 * 2 ^ 45 ∧ Z.testbit (R d' DSP_REG_SR) DSP_SR_N = true.
Proof.
  destruct (emu_mac_correct SIGN_PLUS DSP_REG_X0 DSP_REG_X0 0 ex_mac) as (d' & Hrun & _ & Hv & _ & _ & HN & _);
    [reflexivity | lia | by left | lia | lia | vm_compute; split; [intros ?; discriminate | reflexivity]
    | vm_compute; split; [intros ?; discriminate | reflexivity] | vm_compute; repeat split; intros ?; discriminate
    | vm_compute; discriminate |].
  exists d'. split; [exact Hrun|]. split; [vm_compute; reflexivity|].
  rewrite HN, Hv. split; vm_compute; reflexivity.
Defined.


Lemma ex_stack_ok : stack_ok ex_dsp.
Proof. split; try reflexivity. vm_compute. split; [intros ?; discriminate | reflexivity]. Qed.
Lemma hardware_stack_refines_witness :
  ∃ d', dsp_stack_push 0x123 0x300 false ex_dsp = Ok (tt, d') ∧ frames d' = [(0x123, 0x300)].
Proof.
  destruct (proj1 (hardware_stack_refines ex_dsp ex_stack_ok) 0x123 0x300) as (d' & Hrun & _ & Hf);
    [apply Nat.ltb_lt; reflexivity | unfold is_u16; lia | unfold is_u16; lia |].
  exists d'. split; [exact Hrun|]. rewrite Hf. reflexivity.
Defined.

(** The word 0x0a7080 is [jclr #0,x:xxxx] and a move from [x:(r0+xxxx)]. *)
Lemma opcode_rows_disjoint_witness : row_matches 0x0a7080 94 ∧ row_matches 0x0a7080 134 ∧ (94%nat, 134%nat) ∈ ambiguous_rows.
Proof.
  assert (row_matches 0x0a7080 94) as H1 by (eexists; split; [reflexivity | vm_compute; reflexivity]).
  assert (row_matches 0x0a7080 134) as H2 by (eexists; split; [reflexivity | vm_compute; reflexivity]).
  split; [exact H1|]. split; [exact H2|]. apply (opcode_rows_disjoint 0x0a7080 94 134 H1 H2). apply Nat.ltb_lt. reflexivity.
Defined.

(** The instruction at the start of memory that is zero is [nop]. *)
Lemma opcode_caches_transparent_witness :
  ∃ k d', lookup_opcode_slow 0 = Some k ∧ fetch_opcode ex_dsp = Ok (k, d') ∧ no_caches d' = no_caches ex_dsp.
Proof.
  pose proof (opcode_caches_transparent host_ok ex_dsp ex_dsp_ok eq_refl) as H.
  change (cur_inst (core ex_dsp)) with 0 in H. destruct (lookup_opcode_slow 0) as [k|] eqn:E.
  - destruct H as (d' & H1 & H2 & _). exists k, d'. done.
  - exfalso. revert E. vm_compute. discriminate.
Defined.
Lemma dsp_step_safe_witness :
  dsp_ok host_ok ex_dsp ∧
  wpE (@dsp_step _ (gp_port ex_ldl) 10 ) (λ _ d', dsp_ok host_ok d')
    (λ e, apu_fault e ∨ e = BadShift ∧ ∃ w, pram (core ex_dsp) !! Z.to_nat (pc (core ex_dsp)) = Some w ∧ undefined_shift w = true) ex_dsp.
Proof.
  split; [exact ex_dsp_ok|]. pose proof (dsp_step_safe ex_ldl 10 ex_dsp ex_dsp_ok) as H. by inversion H.
Defined.

(** ** The unit *)

(** A program for the global processor at the start of the memory: it writes 1 to the register that
    ends its work for a frame, [movep #1,x:$ffffc4], and jumps back, [jmp 0]. *)
Definition ex_program : list Z := [0x84; 0xf4; 0x08; 0; 0x01; 0; 0; 0; 0; 0; 0x0c; 0].
Definition ex_boot_ram : list Z := ex_program ++ replicate (Z.to_nat 16372) 0.
Lemma ex_boot_bytes : bytes ex_boot_ram.
Proof. apply Forall_app. split; [repeat constructor; lia | apply bytes_replicate]. Qed.
(** The guest names the pages of the scratch memory, turns the thread on and starts the processor;
    the eighth frame completes a buffer for the sound card, which then asks for it.  The addresses
    0x20000 and above that no window has are accessed as well. *)
Definition ex_requests : list request :=
  [WriteReg NV_PAPU_GPSMAXSGE 3; WriteReg NV_PAPU_SECTL 8; WriteReg 0x7fffc 1; ReadReg 0 0x40000; GpWrite NV_PAPU_GPRST 3 4;
   ThreadIrq] ++ replicate 8 (ThreadFrame true) ++ [Sink true 1024].
(** The voices give 1/128 for the left and 1/64 for the right side. *)
Definition ex_voices (bin _ : Z) : Z := (bin + 1) * 0x10000.
Definition ex_serve : M MCPXAPUState (list Z) :=
  serve_all ex_ldl (λ l _ _, l) 10 10 (mret (λ b i, ex_voices (Z.min 31 (Z.max 0 b)) i)) (λ l, l) ex_requests.
Definition ex_unit : MCPXAPUState := mcpx_apu_init true ex_boot_ram.
Definition ex_sound : list Z := concat (replicate (Z.to_nat 256) [0; 1; 0; 2]).
Definition result_of {S A} (r : res (A * S)) : option A := match r with Ok (a, _) => Some a | Fault _ => None end.
Lemma ex_serve_sound : result_of (ex_serve ex_unit) = Some ex_sound.
Proof. vm_compute. reflexivity. Qed.
Lemma result_of_wp {S A} (m : M S A) Q E s a : wpE m Q E s → result_of (m s) = Some a → ∃ s', m s = Ok (a, s') ∧ Q a s'.
Proof. unfold wpE. destruct (m s) as [[x s']|e]; [|done]. cbn. intros HQ [= <-]. eauto. Qed.
Lemma apu_requests_safe_witness :
  ∃ s', ex_serve ex_unit = Ok (ex_sound, s') ∧ apu_ok s' ∧ streams ex_unit ex_sound s'.
Proof.
  refine (result_of_wp ex_serve (λ out s', apu_ok s' ∧ streams ex_unit out s') unit_fault ex_unit ex_sound _ ex_serve_sound).
  apply apu_requests_safe.
  - intros l a v H. exact H.
  - intros l H. exact H.
  - intros s Hs. apply wpE_ret. split_and!; [exact Hs | lia | reflexivity |]. intros. unfold ex_voices, is_word. lia.
  - unfold ex_requests. cbn [app replicate]. repeat (constructor; [cbn; lia|]). constructor.
  - apply mcpx_apu_init_ok, ex_boot_bytes.
  - reflexivity.
Defined.

(** A buffer across the end of a page. *)
Definition ex_buf : list Z := [1; 2; 3; 4; 5; 6; 7; 8].
Lemma scatter_gather_roundtrip_witness :
  ∃ l', scatter_gather_rw ex_ldl 0 3 ex_buf 0xffd 8 true ex_host = Ok (ex_buf, ex_host <| ram := l' |>) ∧
    at_ l' 0x1000 = Some 4 ∧
    scatter_gather_rw ex_ldl 0 3 (replicate 8 0) 0xffd 8 false (ex_host <| ram := l' |>) = Ok (ex_buf, ex_host <| ram := l' |>).
Proof.
  destruct (scatter_gather_roundtrip ex_ldl 0 3 ex_host ex_buf 0xffd) as (l' & Hw & Hat & _ & Hr);
    [lia | apply ex_paged; [exact ex_ram_blen | lia | reflexivity] |].
  exists l'. split; [exact Hw|]. split.
  - specialize (Hat 3). rewrite ex_phys in Hat. apply Hat. split; [lia | reflexivity].
  - apply Hr. reflexivity.
Defined.
(** The eight bytes go around the end of the FIFO. *)
Lemma gp_fifo_write_witness :
  ∃ h', gp_fifo_rw ex_ldl (ex_buf ++ ex_buf) 1 16 true ex_host = Ok (ex_buf ++ ex_buf, h') ∧
    at_ (ram h') 0x1ff0 = Some 1 ∧ GET_MASK (regs h' (NV_PAPU_GPOFBASE0 + 0x18)) FIFO_VALUE = 0x1ff8.
Proof.
  destruct (gp_fifo_write ex_ldl ex_host (ex_buf ++ ex_buf) 1) as (h' & Hw & Hat & _ & Hcur & _ & _);
    [lia | vm_compute; reflexivity | vm_compute; reflexivity | vm_compute; intros ?; discriminate
    | apply ex_paged; [exact ex_ram_blen | vm_compute; intros ?; discriminate | vm_compute; reflexivity] |].
  exists h'. split; [exact Hw|]. split.
  - specialize (Hat 8). rewrite ex_phys in Hat. apply Hat. split; [lia | reflexivity].
  - etransitivity; [exact Hcur | reflexivity].
Defined.

(** Two words of X memory go out and come back to Y memory. *)
Definition ex_words : list Z := [0x123456; 0xabcdef].
Definition ex_out : DSPState Host := set_word DSP_SPACE_X 0x11 0xabcdef (set_word DSP_SPACE_X 0x10 0x123456 ex_dsp).
Definition ex_node (control offset : Z) : node :=
  {| n_next := NODE_POINTER_EOL; n_control := control; n_count := 2; n_dsp_offset := offset; n_scratch_offset := 4;
     n_scratch_base := 0x100; n_scratch_size := 0x100 |}.
Lemma gp_dma_roundtrip_witness :
  ∃ h', @dma_transfer _ (gp_port ex_ldl) no_peripherals (ex_node control_out 0x10) ex_out = Ok (4, ex_out <| rw_opaque := h' |>) ∧
    ∃ d', @dma_transfer _ (gp_port ex_ldl) no_peripherals (ex_node control_in 0x1820) (ex_out <| rw_opaque := h' |>) = Ok (4, d') ∧
      memory DSP_SPACE_Y d' !! 0x21%nat = Some 0xabcdef.
Proof.
  destruct (gp_dma_roundtrip ex_ldl (P := no_peripherals) (ex_node control_out 0x10) (ex_node control_in 0x1820)
    DSP_SPACE_X 0x10 DSP_SPACE_Y 0x20 ex_words ex_out) as (h' & Hout & Hin); try reflexivity.
  - split; [done|]. split; [done|]. left. done.
  - split; [done|]. split; [done|]. right. done.
  - repeat constructor; done.
  - intros k v Hk. destruct k as [|[|k]]; cbn in Hk; [injection Hk as <- | injection Hk as <- | done]; vm_compute; reflexivity.
  - apply ex_paged; [exact ex_ram_blen | vm_compute; intros ?; discriminate | vm_compute; reflexivity].
  - exists h'. split; [exact Hout|]. assert (rw_opaque (ex_out <| rw_opaque := h' |>) = h') as Hd by reflexivity.
    destruct (Hin _ Hd) as (d' & Hrun & Hm & _). exists d'. split; [exact Hrun|]. rewrite Hm. vm_compute. reflexivity.
Defined.
